(* ===== verification/_CoqProject ===== *)
-Q . S2P
Prelude.v
Store.v
RankConsistency.v
StoreLog.v
DumpAccounting.v
RequestHasher.v
DirectScheduler.v
SchedulerMatching.v
SchedulerPlanning.v
SchedulerLife.v
DirectWorker.v
WorkerDumps.v
WorkerLoads.v
LayerWise.v
LayerWiseLoads.v
LayerWiseDumps.v
ContextParallel.v
KVCacheLayout.v
KVCacheLayoutFacts.v
FawaLayout.v
FawaScheduler.v
FawaFacts.v
FawaWorker.v
FawaDumpSplit.v
FawaWorkerLoads.v
FawaWorkerDumps.v
HlaScheduler.v
HlaLookup.v
HlaPlanning.v
HlaMatching.v
HlaLayout.v
HlaLayoutFacts.v
HlaWorker.v
HlaLayerWise.v
HlaTransfers.v
HlaSaves.v
HlaLayerLoads.v
HlaLayerDumps.v
HlaLayerSaves.v
EncoderCache.v
EncoderScheduler.v
EncoderWorker.v
EncoderTransfers.v
EncoderRuns.v
OffsetAllocator.v
AllocatorBins.v
AllocatorLists.v
AllocatorRegions.v
AllocatorOps.v
AllocatorFree.v
AllocatorReports.v
AllocatorRuns.v
VariableBufferPool.v
VariablePoolRuns.v
VersionConfig.v
VersionFacts.v
