(* ===== verification/Prelude.v ===== *)
(** * Unified Cache Manager: verification of the KV-cache connectors

    The program (src/) keeps the KV cache of an inference engine in external stores,
    so that a prefix computed once can be loaded again.  Its core are the connectors
    of src/ucm/integration/vllm/: the engine's scheduler asks how many tokens of a
    request can be loaded and hands plans to the workers; the workers load and dump KV
    blocks of the paged cache, each rank for itself; a manager keeps the ranks
    consistent.  The development models the connectors as Rocq functions and proves
    what they promise.

    ** How code is modelled

    A Python method is a function in the state and exception monad [M] of this file:
    mutations made before an exception stay, as in Python.  Integers are [Z]; bytes
    and request ids are strings; a dict whose order is used is an association list
    ([od_get], [od_set], [od_del]), other dicts and sets are [gmap] and [gset].  numpy
    arrays of uint64 wrap around or refuse values out of range; where numpy turns
    them into float64 the model rounds to 53 bits.  Code outside src/ is an argument
    of the definitions: the stores ([StoreWorld], with the laws [StoreSpec], instance
    [RefStore]), the device events ([DeviceWorld], [DeviceSpec], [RefDevice]), the
    order of a Python set ([PySetOrder]), hashing (md5 and SHA-256), the versions of
    the packaging library ([PackagingVersion], [PackagingSpec]).  Logging, metrics and
    durations are left out.

    ** The files

    - Prelude.v: exceptions, the monad with its Hoare triples and views, slices,
      ordered dictionaries.
    - Store.v: the store interface of ucm/store/ucmstore_v1.py and an in-memory store.
    - RankConsistency.v: rank_consistency.py (the tracker of blocks missing on a rank
      and the manager) and the worker metadata of ucm_connector.py; lookups count
      exactly the usable blocks, reports of the ranks mark what they should.
    - StoreLog.v, DumpAccounting.v: what was submitted to the stores, and that the
      manager reports exactly the blocks that were dumped.
    - RequestHasher.v: request_hasher.py and the cache namespace; equal hashes mean
      equal prefixes, keys of different ranks differ.
    - DirectScheduler.v: the scheduler side of UCMDirectConnector (ucm_connector.py).
      SchedulerMatching.v: what a match promises.  SchedulerPlanning.v: the dump plans
      tile a request.  SchedulerLife.v: the invariant over every sequence of calls,
      asynchronous loads, load failures.
    - DirectWorker.v: the worker side.  WorkerDumps.v: tasks, device events and the
      manager stay in step; finished and preempted requests have no dump in flight.
      WorkerLoads.v: failures are reported, asynchronous loads settle.
    - LayerWise.v: UCMLayerWiseConnector.  LayerWiseLoads.v: a layer is loaded before
      its hook returns.  LayerWiseDumps.v: every layer is dumped at most once.
      ContextParallel.v: UCMCPConnector's split of the keys.
    - KVCacheLayout.v, KVCacheLayoutFacts.v: KVCacheLayout; pages are dense, segments
      lie inside the buffers and do not overlap.
    - FawaLayout.v: KVCacheGroupLayout of hma_connector.py (full and window attention
      groups); the hash blocks of a group block tile it.
    - FawaScheduler.v, FawaFacts.v: the scheduler side of UCMFAWAConnector; matches are
      the longest prefixes reusable in both stores, plans cover the right blocks, of full
      attention and of windows, in loads and in dumps.
    - FawaWorker.v: its worker side; the thread pool is a queue of calls that a thread
      may run between any two calls of the engine.  FawaDumpSplit.v: the TP ranks
      together dump what one rank would.  FawaWorkerLoads.v, FawaWorkerDumps.v: reports
      are true, every pending load is reported once the pool ran, preemption leaves no
      dump in flight; an engine without transfer results is stopped after a failed load.
    - HlaScheduler.v: the group manager and the scheduler side of
      UCMHybridLinearAttentionConnector (hla_connector.py), for models that mix full
      attention with recurrent state.  HlaLookup.v: the two-stage lookup finds the
      longest reusable prefix, and what a state key identifies.  HlaPlanning.v: the rows
      of the plans.  HlaMatching.v: what is offered is loaded.
    - HlaLayout.v, HlaLayoutFacts.v: its tensor layout; whole-block and layerwise rows
      agree and point into the registered buffers.
    - HlaWorker.v: its worker side in direct mode.  HlaTransfers.v: the ranks dump what
      each will load, loads complete or are reported.  HlaSaves.v: a dump leaves nothing
      behind and its report is exact.
    - HlaLayerWise.v: its layerwise mode.  HlaLayerLoads.v: a layer is loaded before its
      hook returns.  HlaLayerDumps.v, HlaLayerSaves.v: the commit of a step's blocks
      comes last, the waits terminate, the report is exact.
    - EncoderCache.v: the encoder cache connector, ucm_ec_connector.py: layout, keys of
      chunks and scheduler side.  EncoderScheduler.v: items are tracked exactly while
      they are used, steps load exactly the items found and announced.  EncoderWorker.v: its worker side,
      at the level of bytes in memory, over a store that moves bytes ([DataStore],
      [DataStoreSpec]) and torch allocations ([Torch], [TorchSpec]).  EncoderTransfers.v,
      EncoderRuns.v: over every run the cache and the store hold the encoder's outputs,
      and transfers leave nothing behind.
    - OffsetAllocator.v: the C++ allocator of ucm/shared/pool/detail/offset_allocator.cc,
      on arrays of nodes and 32-bit integers; an access outside an array, a shift by 32
      or more and a failed assertion raise.  AllocatorBins.v: sizes of bins and their bit
      masks.  AllocatorLists.v: the lists of free nodes.  AllocatorRegions.v: the blocks
      that a state stands for, which tile the region ([rep]).  AllocatorOps.v,
      AllocatorFree.v, AllocatorReports.v: what each operation does to the blocks.
      AllocatorRuns.v: over every sequence of calls live allocations are disjoint,
      [Free] accepts exactly the live handles, room is found, and every call returns.
    - VariableBufferPool.v: variable_buffer_pool.cc and buffer_region.cc over that
      allocator and the bytes of memory; the buffers of the device runtime are the class
      [Runtime].  VariablePoolRuns.v: handles are aligned and disjoint, memory that is
      handed out was cleared, a release leaves other handles alone.
    - VersionConfig.v, VersionFacts.v: version_config.py of the release tooling;
      printing is inverse to parsing, a new nightly tag is new.

    ** Fuel and bounds

    The recursions are structural, except three loops.  [reverse_loop] of
    RankConsistency.v has one unit of fuel more than there are keys: each round drops at
    least one, which the theorem on [lookup_on_reverse] uses.  [wait_dump_loop] of
    HlaLayerWise.v has one unit more than there are tasks: each turn pops one, and the
    theorem on [_wait_dump_tasks] shows that more fuel changes nothing.  [count_bin] of
    OffsetAllocator.v has as much fuel as there are nodes: a bin has fewer, so that the
    count is always returned ([allocator_calls_return]).  The limit of [scan_bin] is the
    code's own.  Exact
    addresses of sub-blocks need addresses below 2^53 ([fa_subblocks_tile]), because
    numpy computes them as float64.

    ** Not modelled

    The store back ends and the device drivers are native code behind the interfaces
    above.  Of the native code only the offset allocator and the pool on top of it are
    modelled, with atomic calls because a mutex guards them; the pool of equal slots
    (buffer_pool.cc) rests on a lock-free stack, for whose interleavings of atomic
    operations there is no model here.  The layouts for particular models (shared indexer, MiniMax-M3), the lite
    connectors that record traces, the construction of connectors and stores from
    configuration files (with [_create_store] of each connector), and the integrations
    of other engines are not modelled; nor are the sparse attention methods (tensor kernels),
    metrics, the command line tools and the parts of the release tooling that run
    subprocesses and talk to servers. *)

From Stdlib Require Import ZArith Lia.
From stdpp Require Import base list gmap strings pretty sorting numbers.

Declare Scope ucm_scope.
Delimit Scope ucm_scope with ucm.
Local Open Scope Z_scope.

(** ** Values shared by every component *)

(** A Python [bytes] object (a block hash): a string of 8-bit characters. *)
Abbreviation bytes := string (only parsing).

(** A request id of the engine. *)
Abbreviation req_id := string (only parsing).

(** ** Exceptions, and state with exceptions *)

(** The exception classes the modelled code raises or distinguishes.  All of
    them derive from [Exception], so [except Exception] catches every one. *)
Inductive exn : Type :=
| StoreNotFoundError
| StoreUnhealthyError
| StoreError
| RequestHashError
| RuntimeError
| ValueError
| TypeError
| KeyError
| IndexError
| AttributeError
| AssertionError
| NotImplementedError
| OverflowError
| StopIteration
| ZeroDivisionError.

#[export] Instance exn_eq_dec : EqDecision exn.
Proof. solve_decision. Defined.

(** The end of a Python call: a value, or an exception. *)
Inductive outcome (A : Type) : Type :=
| Ok (a : A)
| Raise (e : exn).
Arguments Ok {A} _.
Arguments Raise {A} _.

#[export] Instance outcome_ret : MRet outcome := λ A a, Ok a.
#[export] Instance outcome_bind : MBind outcome := λ A B f m,
  match m with Ok a => f a | Raise e => Raise e end.

(** A method on mutable state [S]: mutations made before an exception stay. *)
Definition M (S A : Type) : Type := S → S * outcome A.

#[export] Instance M_ret S : MRet (M S) := λ A a s, (s, Ok a).
#[export] Instance M_bind S : MBind (M S) := λ A B f m s,
  match m s with
  | (s', Ok a) => f a s'
  | (s', Raise e) => (s', Raise e)
  end.

Definition raise {S A} (e : exn) : M S A := λ s, (s, Raise e).
Definition get_state {S} : M S S := λ s, (s, Ok s).
Definition modify {S} (f : S → S) : M S unit := λ s, (f s, Ok tt).
Definition gets {S A} (f : S → A) : M S A := λ s, (s, Ok (f s)).
Definition lift_outcome {S A} (o : outcome A) : M S A := λ s, (s, o).
Definition py_assert {S} (b : bool) : M S unit :=
  if b then mret tt else raise AssertionError.

(** [try: m  except Exception as e: h e]. *)
Definition try_except {S A} (m : M S A) (h : exn → M S A) : M S A := λ s,
  match m s with
  | (s', Ok a) => (s', Ok a)
  | (s', Raise e) => h e s'
  end.

(** [try: m  finally: f]. *)
Definition try_finally {S A} (m : M S A) (f : M S unit) : M S A := λ s,
  let '(s1, r) := m s in
  match f s1 with
  | (s2, Ok _) => (s2, r)
  | (s2, Raise e) => (s2, Raise e)
  end.

(** Run a method of a component on the part of the state it owns. *)
Definition zoom {S T A} (rd : S → T) (wr : T → S → S) (m : M T A) : M S A := λ s,
  let '(t', r) := m (rd s) in (wr t' s, r).

(** [for x in l: body]. *)
Fixpoint for_each {S A} (l : list A) (body : A → M S unit) : M S unit :=
  match l with
  | [] => mret tt
  | x :: r => body x ;; for_each r body
  end.

(** ** Hoare triples for methods *)

Definition triple {S A} (P : S → Prop) (m : M S A) (Q : outcome A → S → Prop) : Prop :=
  ∀ s, P s → Q (m s).2 (m s).1.

Section triples.
Context {S : Type}.

Lemma triple_ret {A} (P : S → Prop) (a : A) (Q : outcome A → S → Prop) :
  (∀ s, P s → Q (Ok a) s) → triple P (mret a) Q.
Proof. intros H s Hs. by apply H. Qed.

Lemma triple_raise {A} (P : S → Prop) e (Q : outcome A → S → Prop) :
  (∀ s, P s → Q (Raise e) s) → triple P (raise e) Q.
Proof. intros H s Hs. by apply H. Qed.

Lemma triple_modify (P : S → Prop) f (Q : outcome unit → S → Prop) :
  (∀ s, P s → Q (Ok tt) (f s)) → triple P (modify f) Q.
Proof. intros H s Hs. by apply H. Qed.

Lemma triple_bind {A B} (P : S → Prop) (m : M S A) (f : A → M S B)
    (R : A → S → Prop) (E : exn → S → Prop) (Q : outcome B → S → Prop) :
  triple P m (λ r s, match r with Ok a => R a s | Raise e => E e s end) →
  (∀ a, triple (R a) (f a) Q) →
  (∀ e s, E e s → Q (Raise e) s) →
  triple P (m ≫= f) Q.
Proof.
  intros Hm Hf He s Hs. specialize (Hm s Hs).
  unfold mbind, M_bind. destruct (m s) as [s' [a|e]]; simpl in *.
  - by apply Hf.
  - by apply He.
Qed.

Lemma triple_try_except {A} (P : S → Prop) (m : M S A) h
    (R : exn → S → Prop) (Q : outcome A → S → Prop) :
  triple P m (λ r s, match r with Ok a => Q (Ok a) s | Raise e => R e s end) →
  (∀ e, triple (R e) (h e) Q) →
  triple P (try_except m h) Q.
Proof.
  intros Hm Hh s Hs. specialize (Hm s Hs).
  unfold try_except. destruct (m s) as [s' [a|e]]; simpl in *; [done|].
  by apply Hh.
Qed.

Lemma triple_conseq {A} (P P' : S → Prop) (m : M S A) (Q Q' : outcome A → S → Prop) :
  triple P' m Q' → (∀ s, P s → P' s) → (∀ r s, Q' r s → Q r s) → triple P m Q.
Proof. intros Hm HP HQ s Hs. apply HQ, Hm, HP, Hs. Qed.

(** A loop whose body keeps [I] and never raises. *)
Lemma triple_for {A} (I : S → Prop) (l : list A) body :
  (∀ x, x ∈ l → triple I (body x) (λ r s, r = Ok tt ∧ I s)) →
  triple I (for_each l body) (λ r s, r = Ok tt ∧ I s).
Proof.
  induction l as [|x l IH]; intros Hb; simpl.
  - apply triple_ret. auto.
  - eapply triple_bind with (R := λ _, I) (E := λ _ _, False).
    + eapply triple_conseq; [apply Hb; left|done|].
      intros r s [-> HI]. done.
    + intros _. apply IH. intros y Hy. apply Hb. by right.
    + done.
Qed.
End triples.

Lemma bind_ok {S A B} (m : M S A) (f : A → M S B) s s' a :
  m s = (s', Ok a) → (m ≫= f) s = f a s'.
Proof. intros E. unfold mbind, M_bind. by rewrite E. Qed.

(** A handler that never raises makes the whole statement return. *)
Lemma try_except_total {S A} (m : M S A) h s :
  (∀ e s, ∃ s' a, h e s = (s', Ok a)) → ∃ s' a, try_except m h s = (s', Ok a).
Proof. intros Hh. unfold try_except. destruct (m s) as [s' [a|e]]; eauto. Qed.

(** ** Views a method leaves unchanged *)

Definition preserves {S V A} (v : S → V) (m : M S A) : Prop := ∀ s, v (m s).1 = v s.

Section preserves.
Context {S V : Type} (v : S → V).

Lemma preserves_ret {A} (a : A) : preserves v (mret a).
Proof. done. Qed.

Lemma preserves_raise {A} e : preserves v (raise (A := A) e).
Proof. done. Qed.

Lemma preserves_get : preserves v get_state.
Proof. done. Qed.

Lemma preserves_gets {A} (f : S → A) : preserves v (gets f).
Proof. done. Qed.

Lemma preserves_lift {A} (o : outcome A) : preserves v (lift_outcome o).
Proof. done. Qed.

Lemma preserves_modify f : (∀ s, v (f s) = v s) → preserves v (modify f).
Proof. intros Hf s. apply Hf. Qed.

Lemma preserves_bind {A B} (m : M S A) (f : A → M S B) :
  preserves v m → (∀ a, preserves v (f a)) → preserves v (m ≫= f).
Proof.
  intros Hm Hf s. specialize (Hm s). unfold mbind, M_bind.
  destruct (m s) as [s' [a|e]]; simpl in *; [|done]. by rewrite Hf.
Qed.

Lemma preserves_try {A} (m : M S A) h :
  preserves v m → (∀ e, preserves v (h e)) → preserves v (try_except m h).
Proof.
  intros Hm Hh s. specialize (Hm s). unfold try_except.
  destruct (m s) as [s' [a|e]]; simpl in *; [done|]. by rewrite Hh.
Qed.

Lemma preserves_finally {A} (m : M S A) f :
  preserves v m → preserves v f → preserves v (try_finally m f).
Proof.
  intros Hm Hf s. specialize (Hm s). unfold try_finally.
  destruct (m s) as [s1 r]. specialize (Hf s1). destruct (f s1) as [s2 [?|?]]; simpl in *; congruence.
Qed.

Lemma preserves_if {A} (b : bool) (m n : M S A) :
  preserves v m → preserves v n → preserves v (if b then m else n).
Proof. by destruct b. Qed.
End preserves.

(** ** Relations a method respects *)

Definition advances {S A} (R : relation S) (m : M S A) : Prop := ∀ s, R s (m s).1.

Section advances.
Context {S : Type} (R : relation S) `{!PreOrder R}.

Lemma advances_ret {A} (a : A) : advances R (mret a).
Proof. by intros s. Qed.

Lemma advances_raise {A} e : advances R (raise (A := A) e).
Proof. by intros s. Qed.

Lemma advances_get : advances R get_state.
Proof. by intros s. Qed.

Lemma advances_lift {A} (o : outcome A) : advances R (lift_outcome o).
Proof. by intros s. Qed.

Lemma advances_bind {A B} (m : M S A) (f : A → M S B) :
  advances R m → (∀ a, advances R (f a)) → advances R (m ≫= f).
Proof.
  intros Hm Hf s. specialize (Hm s). unfold mbind, M_bind.
  destruct (m s) as [s' [a|e]]; simpl in *; [|done]. etrans; [exact Hm|apply Hf].
Qed.

Lemma advances_try {A} (m : M S A) h :
  advances R m → (∀ e, advances R (h e)) → advances R (try_except m h).
Proof.
  intros Hm Hh s. specialize (Hm s). unfold try_except.
  destruct (m s) as [s' [a|e]]; simpl in *; [done|]. etrans; [exact Hm|apply Hh].
Qed.
End advances.

(** ** Python integers and lists *)

(** [math.ceil(a / b)] on integers, and the bounds Python puts on a slice index.  The
    quotient is a float in Python; its rounding never reaches the next integer while
    [0 <= a < 2^53], which token counts do not leave. *)
Definition ceil_div (a b : Z) : Z := (a + b - 1) / b.

Definition py_bound (n i : Z) : Z := if i <? 0 then Z.max 0 (i + n) else Z.min i n.

Definition zlen {A} (l : list A) : Z := Z.of_nat (length l).

(** [l[i]] for an index that is not negative. *)
Definition list_index {A} (l : list A) (i : Z) : outcome A :=
  match l !! Z.to_nat i with Some x => Ok x | None => Raise IndexError end.

(** [l[a:b]]. *)
Definition py_slice {A} (a b : Z) (l : list A) : list A :=
  let a' := py_bound (zlen l) a in
  let b' := py_bound (zlen l) b in
  take (Z.to_nat (b' - a')) (drop (Z.to_nat a') l).

(** [l[a:]]. *)
Definition py_slice_from {A} (a : Z) (l : list A) : list A :=
  drop (Z.to_nat (py_bound (zlen l) a)) l.

(** [l[:b]]. *)
Definition py_slice_to {A} (b : Z) (l : list A) : list A :=
  take (Z.to_nat (py_bound (zlen l) b)) l.

(** [l[k::n]] for [0 <= k] and [0 < n]. *)
Fixpoint stride_from {A} (skip period : nat) (l : list A) : list A :=
  match l with
  | [] => []
  | x :: r =>
      match skip with
      | O => x :: stride_from (period - 1) period r
      | S s => stride_from s period r
      end
  end.

Definition py_slice_step {A} (k n : Z) (l : list A) : list A :=
  stride_from (Z.to_nat k) (Z.to_nat n) l.

(** [range(0, n, step)] for [0 < step]. *)
Definition py_range_step (n step : Z) : list Z :=
  (λ i : nat, Z.of_nat i * step) <$> seq 0 (Z.to_nat (ceil_div n step)).

Definition list_sum (l : list Z) : Z := foldr Z.add 0 l.
Definition list_prod (l : list Z) : Z := foldr Z.mul 1 l.

(** A number above all of a set, for allocating identities in examples. *)
Definition fresh_Z (X : gset Z) : Z := 1 + foldr Z.max 0 (elements X).

Lemma fresh_Z_spec X : (fresh_Z X ∉ X) ∧ 0 < fresh_Z X.
Proof.
  unfold fresh_Z.
  assert (∀ l, 0 ≤ foldr Z.max 0 l) as Hpos by (induction l; simpl; lia).
  assert (∀ l x, x ∈ l → x ≤ foldr Z.max 0 l) as Hmax.
  { induction l as [|y l IH]; intros x; [by intros ?%elem_of_nil|].
    intros [->|Hx]%elem_of_cons; simpl; [lia|]. specialize (IH x Hx). lia. }
  specialize (Hpos (elements X)). split; [|lia].
  intros Hin%elem_of_elements%Hmax. lia.
Qed.

(** ** Ordered dictionaries

    A Python [dict] that the code iterates over: keys in insertion order, an
    assignment to an existing key keeps its place. *)
Section odict.
Context {K V : Type} `{EqDecision K}.

Fixpoint od_get (k : K) (d : list (K * V)) : option V :=
  match d with
  | [] => None
  | (k', v) :: r => if decide (k = k') then Some v else od_get k r
  end.

Fixpoint od_set (k : K) (v : V) (d : list (K * V)) : list (K * V) :=
  match d with
  | [] => [(k, v)]
  | (k', v') :: r => if decide (k = k') then (k, v) :: r else (k', v') :: od_set k v r
  end.

Definition od_del (k : K) (d : list (K * V)) : list (K * V) :=
  filter (λ p, p.1 ≠ k) d.

(** [d.update(e)]. *)
Definition od_update (d e : list (K * V)) : list (K * V) :=
  foldl (λ acc p, od_set p.1 p.2 acc) d e.
End odict.

(** ** Lemmas on slices *)

Create HintDb ucm.

Section slices.
Context {A : Type}.
Implicit Types (l : list A) (a b c : Z).

Lemma zlen_nonneg l : 0 ≤ zlen l.
Proof. unfold zlen. lia. Qed.

Lemma zlen_app l1 l2 : zlen (l1 ++ l2) = zlen l1 + zlen l2.
Proof. unfold zlen. rewrite length_app. lia. Qed.

Lemma py_slice_nonneg a b l :
  0 ≤ a → 0 ≤ b →
  py_slice a b l = take (Z.to_nat (b - a)) (drop (Z.to_nat a) l).
Proof.
  intros Ha Hb. unfold py_slice, py_bound, zlen.
  rewrite (proj2 (Z.ltb_ge a 0)), (proj2 (Z.ltb_ge b 0)) by lia.
  destruct (decide (Z.of_nat (length l) ≤ a)).
  - rewrite (Z.min_r a) by lia. rewrite Nat2Z.id, drop_all.
    rewrite drop_ge by lia. by rewrite !take_nil.
  - rewrite (Z.min_l a) by lia.
    destruct (decide (Z.of_nat (length l) ≤ b)).
    + rewrite (Z.min_r b) by lia.
      rewrite !take_ge; [done|rewrite length_drop; lia..].
    + by rewrite (Z.min_l b) by lia.
Qed.

Lemma py_slice_from_nonneg a l : 0 ≤ a → py_slice_from a l = drop (Z.to_nat a) l.
Proof.
  intros Ha. unfold py_slice_from, py_bound, zlen.
  rewrite (proj2 (Z.ltb_ge a 0)) by lia.
  destruct (decide (Z.of_nat (length l) ≤ a)).
  - rewrite Z.min_r by lia. rewrite Nat2Z.id, drop_all. by rewrite drop_ge by lia.
  - by rewrite Z.min_l by lia.
Qed.

Lemma py_slice_to_nonneg b l : 0 ≤ b → py_slice_to b l = take (Z.to_nat b) l.
Proof.
  intros Hb. unfold py_slice_to, py_bound, zlen.
  rewrite (proj2 (Z.ltb_ge b 0)) by lia.
  destruct (decide (Z.of_nat (length l) ≤ b)).
  - rewrite Z.min_r by lia. rewrite Nat2Z.id, firstn_all. by rewrite take_ge by lia.
  - by rewrite Z.min_l by lia.
Qed.

Lemma lookup_py_slice a b l (i : nat) :
  0 ≤ a → 0 ≤ b →
  py_slice a b l !! i = if decide (a + Z.of_nat i < b) then l !! (Z.to_nat a + i)%nat else None.
Proof.
  intros Ha Hb. rewrite py_slice_nonneg by lia. case_decide.
  - rewrite lookup_take_lt by lia. by rewrite lookup_drop.
  - by rewrite lookup_take_ge by lia.
Qed.

Lemma lookup_py_slice_Some a b l (i : nat) x :
  0 ≤ a → 0 ≤ b →
  py_slice a b l !! i = Some x ↔ a + Z.of_nat i < b ∧ l !! (Z.to_nat a + i)%nat = Some x.
Proof. intros Ha Hb. rewrite lookup_py_slice by lia. case_decide; intuition congruence. Qed.

Lemma zlen_py_slice a b l :
  0 ≤ a → 0 ≤ b →
  zlen (py_slice a b l) = Z.max 0 (Z.min b (zlen l) - Z.min a (zlen l)).
Proof.
  intros Ha Hb. rewrite py_slice_nonneg by lia.
  unfold zlen. rewrite length_take, length_drop. lia.
Qed.

(** Consecutive slices join up. *)
Lemma py_slice_app a b c l :
  0 ≤ a ≤ b → b ≤ c → py_slice a b l ++ py_slice b c l = py_slice a c l.
Proof.
  intros Hab Hbc. rewrite !py_slice_nonneg by lia.
  replace (Z.to_nat (c - a)) with (Z.to_nat (b - a) + Z.to_nat (c - b))%nat by lia.
  rewrite <- take_take_drop, drop_drop. do 3 f_equal. lia.
Qed.

Lemma py_slice_empty a b l : 0 ≤ b ≤ a → py_slice a b l = [].
Proof.
  intros. rewrite py_slice_nonneg by lia.
  by replace (Z.to_nat (b - a)) with 0%nat by lia.
Qed.

(** [l[a:][:n]] is [l[a:a+n]]. *)
Lemma py_slice_to_from a n l :
  0 ≤ a → 0 ≤ n → py_slice_to n (py_slice_from a l) = py_slice a (a + n) l.
Proof.
  intros. rewrite py_slice_from_nonneg, py_slice_to_nonneg, py_slice_nonneg by lia.
  do 2 f_equal. lia.
Qed.

Lemma lookup_stride_from l (k n i : nat) :
  (0 < n)%nat → stride_from k n l !! i = l !! (k + i * n)%nat.
Proof.
  intros Hn. revert k i. induction l as [|x l IH]; intros k i; simpl.
  - by rewrite !lookup_nil.
  - destruct k as [|k]; simpl.
    + destruct i as [|i]; simpl; [done|].
      rewrite IH. replace (n + i * n)%nat with (S (n - 1 + i * n)) by lia. done.
    + apply IH.
Qed.

Lemma lookup_py_slice_step k n l (i : nat) :
  0 ≤ k → 0 < n →
  py_slice_step k n l !! i = l !! Z.to_nat (k + Z.of_nat i * n).
Proof.
  intros. unfold py_slice_step. rewrite lookup_stride_from by lia. f_equal. lia.
Qed.
End slices.

#[export] Hint Resolve zlen_nonneg : ucm.
#[export] Hint Resolve preserves_ret preserves_raise preserves_get preserves_gets preserves_lift
  preserves_modify preserves_bind preserves_try preserves_finally preserves_if : ucm.

(** ** Filters *)

Lemma filter_on {A} (P Q : A → Prop) `{∀ x, Decision (P x)} `{∀ x, Decision (Q x)} (l : list A) :
  (∀ x, x ∈ l → P x ↔ Q x) → filter P l = filter Q l.
Proof.
  induction l as [|x l IH]; intros Hl; [done|]. rewrite !filter_cons.
  rewrite IH by (intros; apply Hl; by right). specialize (Hl x ltac:(left)).
  repeat case_decide; tauto.
Qed.

Lemma filter_all {A} (P : A → Prop) `{∀ x, Decision (P x)} (l : list A) :
  (∀ x, x ∈ l → P x) → filter P l = l.
Proof.
  induction l as [|x l IH]; intros Hl; [done|].
  rewrite filter_cons_True, IH; [done| |apply Hl; left]. intros. apply Hl. by right.
Qed.

Lemma filter_none {A} (P : A → Prop) `{∀ x, Decision (P x)} (l : list A) :
  (∀ x, x ∈ l → ¬ P x) → filter P l = [].
Proof.
  induction l as [|x l IH]; intros Hl; [done|].
  rewrite filter_cons_False, IH; [done| |apply Hl; left]. intros. apply Hl. by right.
Qed.

(** ** Lemmas on ordered dictionaries *)

Lemma NoDup_keys_filter {K V} (P : K * V → Prop) `{∀ x, Decision (P x)} (l : list (K * V)) :
  NoDup l.*1 → NoDup (filter P l).*1.
Proof.
  induction l as [|[k v] l IH]; csimpl; [done|]. intros [Hk Hl]%list.NoDup_cons.
  rewrite filter_cons. case_decide; csimpl; [|by apply IH]. constructor; [|by apply IH].
  contradict Hk. apply list_elem_of_fmap in Hk as (x & -> & [_ Hx]%list_elem_of_filter).
  by apply list_elem_of_fmap_2.
Qed.

Section odict_lemmas.
Context {K V : Type} `{EqDecision K}.
Implicit Types (d e : list (K * V)) (k : K) (v : V).

Lemma od_get_set k k' v d :
  od_get k (od_set k' v d) = if decide (k = k') then Some v else od_get k d.
Proof.
  induction d as [|[k1 v1] d IH]; simpl.
  - by destruct (decide (k = k')).
  - repeat (case_decide; simpl); simplify_eq; try done.
Qed.

Lemma od_get_del k k' d :
  od_get k (od_del k' d) = if decide (k = k') then None else od_get k d.
Proof.
  unfold od_del. induction d as [|[k1 v1] d IH]; simpl.
  - by destruct (decide (k = k')).
  - rewrite filter_cons. simpl. repeat (case_decide; simpl); simplify_eq; auto.
Qed.

Lemma od_get_app_None k d e : od_get k d = None → od_get k (d ++ e) = od_get k e.
Proof. induction d as [|[k1 v1] d IH]; simpl; [done|]. case_decide; naive_solver. Qed.

Lemma od_get_update k d e :
  od_get k (od_update d e) =
  match od_get k (reverse e) with Some v => Some v | None => od_get k d end.
Proof.
  revert d. induction e as [|[k1 v1] e IH] using rev_ind; intros d; [done|].
  unfold od_update in *. rewrite foldl_app. simpl.
  rewrite od_get_set, reverse_app. simpl. case_decide; [done|]. apply IH.
Qed.

Lemma od_get_Some_elem k v d : od_get k d = Some v → (k, v) ∈ d.
Proof.
  induction d as [|[k1 v1] d IH]; simpl; [done|].
  case_decide; [|intros; right; auto]. intros; simplify_eq. left.
Qed.

Lemma od_get_elem k v d : NoDup d.*1 → (k, v) ∈ d → od_get k d = Some v.
Proof.
  induction d as [|[k1 v1] d IH]; simpl; [by intros _ ?%elem_of_nil|].
  intros [Hk Hd]%list.NoDup_cons [?|Hin]%elem_of_cons; simplify_eq.
  - by rewrite decide_True.
  - case_decide; [|by apply IH]. subst. contradict Hk.
    apply list_elem_of_fmap. by exists (k1, v).
Qed.

Lemma od_get_None k d : od_get k d = None ↔ k ∉ d.*1.
Proof.
  induction d as [|[k1 v1] d IH]; simpl; [split; [intros _ ?%elem_of_nil|]; done|].
  rewrite not_elem_of_cons. case_decide; intuition congruence.
Qed.

Lemma od_get_perm k d e : NoDup d.*1 → d ≡ₚ e → od_get k d = od_get k e.
Proof.
  intros Hd Hp. assert (NoDup e.*1) by (by rewrite <- Hp).
  destruct (od_get k d) as [v|] eqn:E; symmetry.
  - apply od_get_elem; [done|]. rewrite <- Hp. by apply od_get_Some_elem.
  - apply od_get_None. rewrite <- Hp. by apply od_get_None.
Qed.

Lemma od_get_update_NoDup k d e :
  NoDup e.*1 →
  od_get k (od_update d e) = match od_get k e with Some v => Some v | None => od_get k d end.
Proof.
  intros He. rewrite od_get_update, (od_get_perm k (reverse e) e); [done| |apply reverse_Permutation].
  by rewrite reverse_Permutation.
Qed.

Lemma od_set_keys k v d :
  (od_set k v d).*1 = if decide (k ∈ d.*1) then d.*1 else d.*1 ++ [k].
Proof.
  induction d as [|[k1 v1] d IH]; csimpl; [done|].
  destruct (decide (k = k1)) as [->|Hne]; csimpl.
  - rewrite decide_True by left. done.
  - rewrite IH. destruct (decide (k ∈ d.*1)).
    + rewrite decide_True by (by right). done.
    + rewrite decide_False; [done|]. by intros [?|?]%elem_of_cons.
Qed.

Lemma od_set_fresh k v d : k ∉ d.*1 → od_set k v d = d ++ [(k, v)].
Proof.
  induction d as [|[k1 v1] d IH]; csimpl; [done|].
  rewrite not_elem_of_cons. intros [Hne Hd]. rewrite decide_False by done. by rewrite IH.
Qed.

Lemma od_set_is_Some k k' v d : is_Some (od_get k d) → is_Some (od_get k (od_set k' v d)).
Proof. rewrite od_get_set. case_decide; [by eexists|done]. Qed.

Lemma od_set_NoDup k v d : NoDup d.*1 → NoDup (od_set k v d).*1.
Proof.
  intros Hd. rewrite od_set_keys. case_decide; [done|].
  apply list.NoDup_app. split_and!; [done| |apply NoDup_singleton].
  intros x Hx ->%list_elem_of_singleton. done.
Qed.

Lemma od_update_NoDup d e : NoDup d.*1 → NoDup (od_update d e).*1.
Proof.
  unfold od_update. revert d.
  induction e as [|p e IH]; intros d Hd; simpl; [done|].
  by apply IH, od_set_NoDup.
Qed.

Lemma od_del_NoDup k d : NoDup d.*1 → NoDup (od_del k d).*1.
Proof. apply NoDup_keys_filter. Qed.
End odict_lemmas.
