(* ===== verification/Store.v ===== *)
(** * The store interface

    [UcmKVStoreBaseV1] (src/ucm/store/ucmstore_v1.py) is the abstract class
    the connectors are written against.  Its operations are the fields of the
    class [StoreWorld]; a connector may hold several stores, so every operation
    takes the store it is called on, and [W] is the state of all of them.
    [StoreSpec] states what the docstrings of the interface promise.
    [RefStore] is an in-memory world that keeps those promises; it is used to
    run the models on concrete inputs. *)

From Stdlib Require Import ZArith Lia.
From stdpp Require Import base list gmap strings numbers.
From S2P Require Import Prelude.
Local Open Scope Z_scope.

(** A store object, and the identity [id(task)] of a task handle. *)
Abbreviation store_id := Z (only parsing).
Abbreviation task := Z (only parsing).

Class StoreWorld (W : Type) := {
  supports_distributed_backend_load : store_id → bool;
  store_lookup : store_id → list bytes → M W (list bool);
  store_lookup_on_prefix : store_id → list bytes → M W Z;
  store_lookup_on_reverse : store_id → list bytes → M W Z;
  store_prefetch : store_id → list bytes → M W unit;
  (** The keyword [distribute_backend_load] is passed only to stores that
      support it. *)
  store_load_data : store_id → list bytes → list Z → list (list Z) → option bool → M W task;
  store_dump_data : store_id → list bytes → list Z → list (list Z) → Z → M W task;
  store_wait : store_id → task → M W unit;
  store_check : store_id → task → M W bool;
}.

(** ** Reference searches *)

(** How many leading elements of [l] satisfy [p]. *)
Fixpoint prefix_count {A} (p : A → bool) (l : list A) : nat :=
  match l with
  | [] => 0
  | x :: r => if p x then S (prefix_count p r) else 0
  end.

(** The index of the last element of [l] that satisfies [p], -1 if there is none. *)
Fixpoint last_index {A} (p : A → bool) (l : list A) : Z :=
  match l with
  | [] => -1
  | x :: r =>
      let i := last_index p r in
      if 0 <=? i then i + 1 else if p x then 0 else -1
  end.

Section searches.
Context {A : Type}.
Implicit Types (p q : A → bool) (l : list A).

Lemma prefix_count_le p l : (prefix_count p l ≤ length l)%nat.
Proof. induction l as [|x l IH]; simpl; [lia|]. destruct (p x); lia. Qed.

Lemma prefix_count_spec p l (i : nat) x :
  l !! i = Some x → (i < prefix_count p l)%nat → p x = true.
Proof.
  revert i. induction l as [|y l IH]; intros i Hi; [done|]. simpl.
  destruct (p y) eqn:Hy; [|lia]. destruct i as [|i]; simpl in *; [congruence|].
  intros ?. apply (IH i); [done|lia].
Qed.

Lemma prefix_count_stop p l x : l !! prefix_count p l = Some x → p x = false.
Proof.
  induction l as [|y l IH]; [done|]. simpl.
  destruct (p y) eqn:Hy; simpl; [apply IH|congruence].
Qed.

Lemma prefix_count_ext p q l : (∀ x, x ∈ l → p x = q x) → prefix_count p l = prefix_count q l.
Proof.
  induction l as [|x l IH]; intros Heq; simpl; [done|].
  rewrite (Heq x) by left. rewrite IH; [done|]. intros y Hy. apply Heq. by right.
Qed.

(** The count is the only number with the two properties above. *)
Lemma prefix_count_unique p l (n : nat) :
  (n ≤ length l)%nat →
  (∀ i x, l !! i = Some x → (i < n)%nat → p x = true) →
  (∀ x, l !! n = Some x → p x = false) →
  n = prefix_count p l.
Proof.
  revert n. induction l as [|y l IH]; intros n Hn Hlt Hstop; simpl in *; [lia|].
  destruct (p y) eqn:Hy.
  - destruct n as [|n]; [specialize (Hstop y eq_refl); congruence|].
    f_equal. apply IH; [lia| |done]. intros i x Hi ?. apply (Hlt (S i)); [done|lia].
  - destruct n as [|n]; [done|].
    specialize (Hlt 0%nat y eq_refl ltac:(lia)). congruence.
Qed.

Lemma prefix_count_drop p l (n : nat) :
  (n ≤ prefix_count p l)%nat → prefix_count p (drop n l) = (prefix_count p l - n)%nat.
Proof.
  revert n. induction l as [|x l IH]; intros n Hn; simpl in *.
  - rewrite drop_nil. simpl. lia.
  - destruct n as [|n]; simpl; [lia|]. destruct (p x); [|lia]. rewrite IH; lia.
Qed.

(** A block of satisfying elements at the front can be counted apart. *)
Lemma prefix_count_skip p l (a b : nat) :
  (a ≤ b ≤ length l)%nat →
  (∀ i x, l !! i = Some x → (a ≤ i < b)%nat → p x = true) →
  prefix_count p (drop a l) = (b - a + prefix_count p (drop b l))%nat.
Proof.
  intros Hab Hall. symmetry. apply prefix_count_unique.
  - pose proof (prefix_count_le p (drop b l)). rewrite !length_drop in *. lia.
  - intros i x. rewrite lookup_drop. intros Hx Hi. destruct (decide (a + i < b)%nat).
    + apply (Hall (a + i)%nat); [done|lia].
    + apply (prefix_count_spec p (drop b l) (a + i - b)); [|lia].
      rewrite lookup_drop. by replace (b + (a + i - b))%nat with (a + i)%nat by lia.
  - intros x Hx. apply (prefix_count_stop p (drop b l)). rewrite lookup_drop in *.
    by replace (a + (b - a + prefix_count p (drop b l)))%nat
      with (b + prefix_count p (drop b l))%nat in Hx by lia.
Qed.

(** The leading elements that satisfy both predicates are those of the part of
    the list that satisfies the first. *)
Lemma prefix_count_take_and p q l :
  prefix_count q (take (prefix_count p l) l) = prefix_count (λ x, p x && q x) l.
Proof.
  induction l as [|x l IH]; simpl; [done|].
  destruct (p x); simpl; [|done]. destruct (q x); [|done]. by rewrite IH.
Qed.

Lemma last_index_range p l : -1 ≤ last_index p l < zlen l.
Proof.
  unfold zlen. induction l as [|x l IH]; simpl; [lia|].
  case_match; [lia|]. destruct (p x); lia.
Qed.

Lemma last_index_Some p l (i : nat) :
  last_index p l = Z.of_nat i → ∃ x, l !! i = Some x ∧ p x = true.
Proof.
  revert i. induction l as [|x l IH]; intros i; simpl; [lia|].
  pose proof (last_index_range p l). destruct (Z.leb_spec 0 (last_index p l)).
  - intros ?. destruct i as [|i]; [lia|]. apply IH. lia.
  - destruct (p x) eqn:Hx; [|lia]. intros ?. replace i with 0%nat by lia. eauto.
Qed.

Lemma last_index_max p l (i : nat) x :
  l !! i = Some x → last_index p l < Z.of_nat i → p x = false.
Proof.
  revert i. induction l as [|y l IH]; intros i Hi; [done|]. simpl.
  pose proof (last_index_range p l). destruct i as [|i]; simpl in *.
  - destruct (Z.leb_spec 0 (last_index p l)); [lia|]. destruct (p y) eqn:?; [lia|congruence].
  - destruct (Z.leb_spec 0 (last_index p l)); intros ?.
    + apply (IH i); [done|lia].
    + apply (IH i); [done|lia].
Qed.

Lemma last_index_unique p l r :
  -1 ≤ r →
  (∀ i, r = Z.of_nat i → ∃ x, l !! i = Some x ∧ p x = true) →
  (∀ (i : nat) x, l !! i = Some x → r < Z.of_nat i → p x = false) →
  r = last_index p l.
Proof.
  intros Hr Hin Hmax. pose proof (last_index_range p l) as Hrg.
  destruct (Z.lt_trichotomy r (last_index p l)) as [Hlt|[?|Hgt]]; [|done|].
  - destruct (last_index_Some p l (Z.to_nat (last_index p l))) as (x & Hx & Hp); [lia|].
    rewrite (Hmax _ _ Hx) in Hp; [done|lia].
  - destruct (Hin (Z.to_nat r)) as (x & Hx & Hp); [lia|].
    rewrite (last_index_max p l _ _ Hx) in Hp; [done|lia].
Qed.

(** A result found in a prefix is found again in any shorter prefix that
    still reaches it. *)
Lemma last_index_take_self p l (n : nat) :
  last_index p (take (Z.to_nat (last_index p (take n l) + 1)) l) = last_index p (take n l).
Proof.
  symmetry. pose proof (last_index_range p (take n l)) as Hrg.
  apply last_index_unique; [lia| |].
  - intros i Hi. destruct (last_index_Some p (take n l) i) as (x & Hx & Hp); [lia|].
    exists x. split; [|done]. apply lookup_take_Some in Hx as [Hx _].
    by rewrite lookup_take_lt by lia.
  - intros i x Hx Hi. apply lookup_take_Some in Hx. lia.
Qed.

(** Nothing between a result found in a prefix and the end of that prefix. *)
Lemma last_index_take_max p l (n i : nat) x :
  l !! i = Some x → (i < n)%nat → last_index p (take n l) < Z.of_nat i → p x = false.
Proof.
  intros Hx Hn Hi. apply (last_index_max p (take n l) i x); [|done].
  by rewrite lookup_take_lt.
Qed.
End searches.

(** ** What the interface promises *)

Class StoreSpec (W : Type) `{StoreWorld W} := {
  (** Whether a store holds a block, and the tasks that are alive. *)
  present : W → store_id → bytes → bool;
  live : W → gset task;

  (** [lookup_on_prefix]: the index of the last block of the present prefix. *)
  lookup_on_prefix_ok s ks w w' r :
    store_lookup_on_prefix s ks w = (w', Ok r) → r = Z.of_nat (prefix_count (present w s) ks) - 1;
  (** [lookup_on_reverse]: the index of the rightmost present block. *)
  lookup_on_reverse_ok s ks w w' r :
    store_lookup_on_reverse s ks w = (w', Ok r) → r = last_index (present w s) ks;
  (** [lookup]: one answer per block, in order. *)
  lookup_ok s ks w w' r :
    store_lookup s ks w = (w', Ok r) → r = present w s <$> ks;

  (** Queries do not change which blocks are present, nor the live tasks. *)
  lookup_on_prefix_frame s ks w :
    present (store_lookup_on_prefix s ks w).1 = present w ∧
    live (store_lookup_on_prefix s ks w).1 = live w;
  lookup_on_reverse_frame s ks w :
    present (store_lookup_on_reverse s ks w).1 = present w ∧
    live (store_lookup_on_reverse s ks w).1 = live w;
  check_live s t w : live (store_check s t w).1 = live w;

  (** A handle returned by a submission is a new object; the other live
      objects stay alive.  A wait releases at most the task waited for. *)
  load_data_live s ks sh ps d w w' t :
    store_load_data s ks sh ps d w = (w', Ok t) → (t ∉ live w) ∧ live w' = ({[t]} ∪ live w);
  dump_data_live s ks sh ps h w w' t :
    store_dump_data s ks sh ps h w = (w', Ok t) → (t ∉ live w) ∧ live w' = ({[t]} ∪ live w);
  load_data_raise_live s ks sh ps d w w' e :
    store_load_data s ks sh ps d w = (w', Raise e) → live w' = live w;
  dump_data_raise_live s ks sh ps h w w' e :
    store_dump_data s ks sh ps h w = (w', Raise e) → live w' = live w;
  wait_live s t w : live w ∖ {[t]} ⊆ live (store_wait s t w).1;
}.

(** ** An in-memory world of stores *)

Record RefStore := mkRefStore {
  rs_keys : gset (store_id * string);  (* blocks held *)
  rs_live : gset task;                 (* task handles in use *)
  rs_busy : gset task;                 (* tasks still in flight *)
  rs_fail : list (task * exn);         (* tasks whose wait raises *)
  rs_down : option exn;                (* what every submission and lookup raises *)
}.

Definition rs_fresh (w : RefStore) : task := fresh_Z (rs_live w).

Definition rs_present (w : RefStore) (s : store_id) (k : bytes) : bool :=
  bool_decide ((s, k) ∈ rs_keys w).

Definition rs_query {A} (f : RefStore → A) : M RefStore A := λ w,
  match rs_down w with Some e => (w, Raise e) | None => (w, Ok (f w)) end.

Definition rs_alloc (keys : gset (store_id * string)) : M RefStore task := λ w,
  match rs_down w with
  | Some e => (w, Raise e)
  | None =>
      (mkRefStore (rs_keys w ∪ keys) ({[rs_fresh w]} ∪ rs_live w) (rs_busy w) (rs_fail w) None,
       Ok (rs_fresh w))
  end.

#[export] Instance RefStore_world : StoreWorld RefStore := {|
  supports_distributed_backend_load _ := true;
  store_lookup s ks := rs_query (λ w, rs_present w s <$> ks);
  store_lookup_on_prefix s ks :=
    rs_query (λ w, Z.of_nat (prefix_count (rs_present w s) ks) - 1);
  store_lookup_on_reverse s ks := rs_query (λ w, last_index (rs_present w s) ks);
  store_prefetch s ks := rs_query (λ _, tt);
  store_load_data s ks sh ps d := λ w,
    if bool_decide (Forall (λ k, rs_present w s k = true) ks) then rs_alloc ∅ w
    else (w, Raise StoreNotFoundError);
  store_dump_data s ks sh ps h := rs_alloc (list_to_set ((λ k, (s, k)) <$> ks));
  store_wait s t := λ w,
    (mkRefStore (rs_keys w) (rs_live w ∖ {[t]}) (rs_busy w) (rs_fail w) (rs_down w),
     match od_get t (rs_fail w) with Some e => Raise e | None => Ok tt end);
  store_check s t := rs_query (λ w, bool_decide (t ∉ rs_busy w));
|}.

Lemma rs_query_frame {A} (f : RefStore → A) w : (rs_query f w).1 = w.
Proof. unfold rs_query. by destruct (rs_down w). Qed.

Lemma rs_query_ok {A} (f : RefStore → A) w w' r : rs_query f w = (w', Ok r) → r = f w.
Proof. unfold rs_query. destruct (rs_down w); congruence. Qed.

Lemma rs_alloc_live keys w w' t :
  rs_alloc keys w = (w', Ok t) → (t ∉ rs_live w) ∧ rs_live w' = ({[t]} ∪ rs_live w).
Proof.
  unfold rs_alloc. destruct (rs_down w); [done|]. intros; simplify_eq; simpl.
  split; [apply fresh_Z_spec|done].
Qed.

Lemma rs_alloc_raise keys w w' e : rs_alloc keys w = (w', Raise e) → rs_live w' = rs_live w.
Proof. unfold rs_alloc. destruct (rs_down w); intros; by simplify_eq. Qed.

#[export] Instance RefStore_spec : StoreSpec RefStore.
Proof.
  refine {| present := rs_present; live := rs_live |}; simpl; intros *.
  - apply (rs_query_ok (λ w, Z.of_nat (prefix_count (rs_present w s) ks) - 1)).
  - apply (rs_query_ok (λ w, last_index (rs_present w s) ks)).
  - apply (rs_query_ok (λ w, rs_present w s <$> ks)).
  - pose proof (rs_query_frame (λ w, Z.of_nat (prefix_count (rs_present w s) ks) - 1) w) as E.
    exact (conj (f_equal rs_present E) (f_equal rs_live E)).
  - pose proof (rs_query_frame (λ w, last_index (rs_present w s) ks) w) as E.
    exact (conj (f_equal rs_present E) (f_equal rs_live E)).
  - intros. exact (f_equal rs_live (rs_query_frame (λ w, bool_decide (t ∉ rs_busy w)) w)).
  - intros sh ps d w w' t Hl. case_bool_decide; [by eapply rs_alloc_live|done].
  - intros sh ps h w w' t Hl. by eapply rs_alloc_live.
  - intros sh ps d w w' e Hl. case_bool_decide; [by eapply rs_alloc_raise|congruence].
  - intros sh ps h w w' e Hl. by eapply rs_alloc_raise.
  - done.
Defined.

(** The empty world, and a world that holds some blocks of one store. *)
Definition rs_init (s : store_id) (ks : list bytes) : RefStore :=
  mkRefStore (list_to_set ((λ k, (s, k)) <$> ks)) ∅ ∅ [] None.
