(* ===== verification/RankConsistency.v ===== *)
(** * Cross-rank consistency of cached blocks

    Model of src/ucm/integration/vllm/rank_consistency.py: the scheduler-side
    tracker of blocks missing on some rank, the manager that wraps every store
    operation of a connector, and the worker-to-scheduler metadata
    [UCMWorkerMetadata] of src/ucm/integration/vllm/ucm_connector.py.

    Methods of the manager run on the pair of the manager and the world of
    stores.  Logging is left out. *)

From Stdlib Require Import ZArith Lia.
From stdpp Require Import base list gmap strings numbers fin_sets.
From S2P Require Import Prelude.
From S2P Require Import Store.
Local Open Scope Z_scope.

(** The order in which CPython walks a set, and the element [set.pop] takes,
    are not specified: they are parameters. *)
Class PySetOrder := {
  set_iter : gset string → list string;
  set_pop : gset string → option string;
  set_iter_perm s : set_iter s ≡ₚ elements s;
  set_pop_elem s x : set_pop s = Some x → x ∈ s;
  set_pop_empty s : set_pop s = None → s = ∅;
}.

#[export] Instance elements_order : PySetOrder.
Proof.
  refine {| set_iter := elements; set_pop s := head (elements s) |}.
  - done.
  - intros s x Hx. apply elem_of_elements. by apply head_Some_elem_of.
  - intros s Hs. apply leibniz_equiv, elements_empty_inv. by destruct (elements s).
Defined.

(** ** RankConsistencyTracker *)
Module RankConsistencyTracker.

Record t := mk { _inconsistent : gset string }.

Definition _MAX_INCONSISTENT_BLOCKS : Z := 2000000.

Definition new : t := mk ∅.

Definition len (tr : t) : Z := Z.of_nat (size (_inconsistent tr)).

Definition contains (tr : t) (block_id : bytes) : bool :=
  bool_decide (block_id ∈ _inconsistent tr).

Section ops.
Context `{PySetOrder}.

(** One turn of the loop of [mark_missing]: the set, [added], [evicted]. *)
Definition mark_step (acc : gset string * Z * Z) (block_id : bytes) : gset string * Z * Z :=
  let '(s, added, evicted) := acc in
  if decide (block_id ∈ s) then acc
  else
    let '(s', evicted') :=
      if _MAX_INCONSISTENT_BLOCKS <=? Z.of_nat (size s)
      then (match set_pop s with Some x => s ∖ {[x]} | None => s end, evicted + 1)
      else (s, evicted) in
    ({[block_id]} ∪ s', added + 1, evicted').

Definition mark_missing (rank0_block_ids : gset string) (tr : t) : t * Z :=
  let '(s, added, _) :=
    foldl mark_step (_inconsistent tr, 0, 0) (set_iter rank0_block_ids) in
  (mk s, added).
End ops.

Definition clear_dumped (rank0_block_ids : gset string) (tr : t) : t * Z :=
  let before := len tr in
  let tr' := mk (_inconsistent tr ∖ rank0_block_ids) in
  (tr', before - len tr').

Fixpoint valid_prefix (tr : t) (block_ids : list bytes) : list bytes :=
  match block_ids with
  | [] => []
  | b :: r => if contains tr b then [] else b :: valid_prefix tr r
  end.
End RankConsistencyTracker.

(** ** RankConsistencyManager *)

Record RankConsistencyManager := mkRCM {
  enabled : bool;
  _tracker : option RankConsistencyTracker.t;
  _missing_reqs : gset string;
  _missing_blocks : gset string;
  _dump_succeeded_blocks : gset string;
  _load_task_contexts : gmap task (store_id * gmap string (list string));
  _dump_task_contexts : gmap task (store_id * gmap string (gset string));
  _dump_blocks_by_request : gmap string (gset string);
  _dump_failed_blocks_by_request : gmap string (gset string);
}.

Definition set_tracker (v : option RankConsistencyTracker.t) (m : RankConsistencyManager) :=
  mkRCM (enabled m) v (_missing_reqs m) (_missing_blocks m) (_dump_succeeded_blocks m)
    (_load_task_contexts m) (_dump_task_contexts m)
    (_dump_blocks_by_request m) (_dump_failed_blocks_by_request m).
Definition set_missing (r b : gset string) (m : RankConsistencyManager) :=
  mkRCM (enabled m) (_tracker m) r b (_dump_succeeded_blocks m)
    (_load_task_contexts m) (_dump_task_contexts m)
    (_dump_blocks_by_request m) (_dump_failed_blocks_by_request m).
Definition set_dump_succeeded (v : gset string) (m : RankConsistencyManager) :=
  mkRCM (enabled m) (_tracker m) (_missing_reqs m) (_missing_blocks m) v
    (_load_task_contexts m) (_dump_task_contexts m)
    (_dump_blocks_by_request m) (_dump_failed_blocks_by_request m).
Definition set_load_contexts v (m : RankConsistencyManager) :=
  mkRCM (enabled m) (_tracker m) (_missing_reqs m) (_missing_blocks m) (_dump_succeeded_blocks m)
    v (_dump_task_contexts m)
    (_dump_blocks_by_request m) (_dump_failed_blocks_by_request m).
Definition set_dump_contexts v (m : RankConsistencyManager) :=
  mkRCM (enabled m) (_tracker m) (_missing_reqs m) (_missing_blocks m) (_dump_succeeded_blocks m)
    (_load_task_contexts m) v
    (_dump_blocks_by_request m) (_dump_failed_blocks_by_request m).
Definition set_dump_accounts (blocks failed : gmap string (gset string)) (m : RankConsistencyManager) :=
  mkRCM (enabled m) (_tracker m) (_missing_reqs m) (_missing_blocks m) (_dump_succeeded_blocks m)
    (_load_task_contexts m) (_dump_task_contexts m) blocks failed.

Definition RankConsistencyManager_init (is_scheduler use_consistency_manager : bool) :
    RankConsistencyManager :=
  mkRCM use_consistency_manager
    (if is_scheduler && use_consistency_manager then Some RankConsistencyTracker.new else None)
    ∅ ∅ ∅ ∅ ∅ ∅ ∅.

(** [d.setdefault(r, set()).update(b)] for every [(r, b)] of a dictionary. *)
Definition add_blocks (ctx d : gmap string (gset string)) : gmap string (gset string) :=
  union_with (λ a b, Some (b ∪ a)) ctx d.

(** [_mark_load_context_missing] *)
Definition _mark_load_context_missing (ctx : gmap string (list string))
    (m : RankConsistencyManager) : RankConsistencyManager :=
  set_missing (_missing_reqs m ∪ dom ctx)
    (_missing_blocks m ∪ ⋃ ((λ p, list_to_set p.2) <$> map_to_list ctx)) m.

(** [_record_dump_failure] *)
Definition _record_dump_failure (ctx : gmap string (gset string))
    (m : RankConsistencyManager) : RankConsistencyManager :=
  set_dump_accounts (_dump_blocks_by_request m)
    (add_blocks ctx (_dump_failed_blocks_by_request m)) m.

(** The manager's part of the worker metadata. *)
Record UCMWorkerMetadata := mkWM {
  wm_is_mla : bool;
  load_failed_reqs : gset string;
  missing_reqs : gset string;
  missing_blocks : gset string;
  dump_succeeded_blocks : gset string;
}.

Definition UCMWorkerMetadata_init (is_mla : bool) : UCMWorkerMetadata := mkWM is_mla ∅ ∅ ∅ ∅.

Definition mark_failed (r : req_id) (m : UCMWorkerMetadata) : UCMWorkerMetadata :=
  mkWM (wm_is_mla m) ({[r]} ∪ load_failed_reqs m) (missing_reqs m) (missing_blocks m)
    (dump_succeeded_blocks m).

Definition UCMWorkerMetadata_mark_missing (r : req_id) (rank0_block_ids : list bytes) (m : UCMWorkerMetadata) :
    UCMWorkerMetadata :=
  mkWM (wm_is_mla m) (load_failed_reqs m) ({[r]} ∪ missing_reqs m)
    (missing_blocks m ∪ list_to_set rank0_block_ids) (dump_succeeded_blocks m).

(** [self.aggregate(other)]; the two assertions are its only failures. *)
Definition aggregate (self other : UCMWorkerMetadata) : outcome UCMWorkerMetadata :=
  if Bool.eqb (wm_is_mla self) (wm_is_mla other) then
    Ok (mkWM (wm_is_mla self)
      (load_failed_reqs self ∪ load_failed_reqs other)
      (missing_reqs self ∪ missing_reqs other)
      (missing_blocks self ∪ missing_blocks other)
      (if wm_is_mla self
       then dump_succeeded_blocks self ∪ dump_succeeded_blocks other
       else dump_succeeded_blocks self ∩ dump_succeeded_blocks other))
  else Raise AssertionError.

(** [isinstance(error, StoreNotFoundError)], and [except StoreUnhealthyError]. *)
Definition is_not_found (e : exn) : bool := bool_decide (e = StoreNotFoundError).
Definition is_unhealthy (e : exn) : bool := bool_decide (e = StoreUnhealthyError).
#[global] Arguments is_not_found : simpl never.
#[global] Arguments is_unhealthy : simpl never.

(** ** Operations of the manager *)
Section manager.
Context {W : Type} `{StoreWorld W} `{PySetOrder}.

Abbreviation state := (RankConsistencyManager * W)%type.

Definition on_world {A} (m : M W A) : M state A := zoom snd (λ w s, (s.1, w)) m.
Definition on_mgr (f : RankConsistencyManager → RankConsistencyManager) : M state unit :=
  modify (λ s, (f s.1, s.2)).

Definition lookup_on_prefix (store : store_id) (block_ids : list bytes) : M state Z :=
  m ← gets fst;
  if negb (enabled m) then on_world (store_lookup_on_prefix store block_ids)
  else
    let block_ids' :=
      match _tracker m with
      | Some tr => RankConsistencyTracker.valid_prefix tr block_ids
      | None => block_ids
      end in
    match block_ids' with
    | [] => mret (-1)
    | _ => on_world (store_lookup_on_prefix store block_ids')
    end.

(** The [while] loop of [lookup_on_reverse].  [fuel] bounds the number of
    tests of its condition. *)
Fixpoint reverse_loop (fuel : nat) (store : store_id) (tr : RankConsistencyTracker.t)
    (block_ids : list bytes) (result : Z) : M W Z :=
  match fuel with
  | O => raise RuntimeError
  | S fuel' =>
      if result <? 0 then mret result
      else
        match block_ids !! Z.to_nat result with
        | None => raise IndexError
        | Some b =>
            if RankConsistencyTracker.contains tr b then
              if result =? 0 then mret (-1)
              else
                result' ← store_lookup_on_reverse store (py_slice_to result block_ids);
                reverse_loop fuel' store tr block_ids result'
            else mret result
        end
  end.

Definition lookup_on_reverse (store : store_id) (block_ids : list bytes) : M state Z :=
  m ← gets fst;
  if negb (enabled m) then on_world (store_lookup_on_reverse store block_ids)
  else
    match _tracker m with
    | None => on_world (store_lookup_on_reverse store block_ids)
    | Some tr =>
        match block_ids with
        | [] => on_world (store_lookup_on_reverse store block_ids)
        | _ =>
            on_world (
              result ← store_lookup_on_reverse store block_ids;
              reverse_loop (S (length block_ids)) store tr block_ids result)
        end
    end.

Definition lookup_all (store : store_id) (block_ids : list bytes) : M state (list bool) :=
  results ← on_world (store_lookup store block_ids);
  m ← gets fst;
  match _tracker m with
  | None => mret results
  | Some tr =>
      mret (zip_with (λ b r, if RankConsistencyTracker.contains tr b then false else r)
              block_ids results)
  end.

(** [if self.enabled and isinstance(error, StoreNotFoundError): mark ...; raise] *)
Definition classify {A} (ctx : gmap string (list string)) (e : exn) : M state A :=
  m ← gets fst;
  (if enabled m && is_not_found e then on_mgr (_mark_load_context_missing ctx) else mret tt) ;;
  raise e.

Definition submit_load (store : store_id) (block_ids_by_request : gmap string (list string))
    (block_ids : list bytes) (shard_indices : list Z) (ptrs : list (list Z))
    (distribute_backend_load : bool) : M state task :=
  m ← gets fst;
  let request_context := if enabled m then block_ids_by_request else ∅ in
  let load_options :=
    if supports_distributed_backend_load store then Some distribute_backend_load else None in
  t ← try_except
        (on_world (store_load_data store block_ids shard_indices ptrs load_options))
        (classify request_context);
  on_mgr (λ m, set_load_contexts (<[t := (store, request_context)]> (_load_task_contexts m)) m) ;;
  mret t.

(** [wait] is the optional callable that replaces [store.wait(task)]. *)
Definition wait_load (t : task) (wait : option (M W unit)) : M state unit :=
  m ← gets fst;
  match _load_task_contexts m !! t with
  | None => raise RuntimeError
  | Some (store, request_context) =>
      on_mgr (λ m, set_load_contexts (delete t (_load_task_contexts m)) m) ;;
      try_except
        (on_world (match wait with None => store_wait store t | Some w => w end))
        (classify request_context)
  end.

Definition check_load (t : task) : M state bool :=
  m ← gets fst;
  match _load_task_contexts m !! t with
  | None => raise RuntimeError
  | Some (store, request_context) =>
      try_except (on_world (store_check store t))
        (λ e,
          on_mgr (λ m, set_load_contexts (delete t (_load_task_contexts m)) m) ;;
          classify request_context e)
  end.

Definition submit_dump (store : store_id) (block_ids_by_request : gmap string (gset string))
    (block_ids : list bytes) (shard_indices : list Z) (ptrs : list (list Z))
    (event_handle : Z) : M state task :=
  m ← gets fst;
  let request_context := if enabled m then block_ids_by_request else ∅ in
  on_mgr (λ m, set_dump_accounts (add_blocks request_context (_dump_blocks_by_request m))
                 (_dump_failed_blocks_by_request m) m) ;;
  t ← try_except
        (on_world (store_dump_data store block_ids shard_indices ptrs event_handle))
        (λ e, on_mgr (_record_dump_failure request_context) ;; raise e);
  on_mgr (λ m, set_dump_contexts (<[t := (store, request_context)]> (_dump_task_contexts m)) m) ;;
  mret t.

Definition wait_dump (t : task) : M state unit :=
  m ← gets fst;
  match _dump_task_contexts m !! t with
  | None => raise RuntimeError
  | Some (store, request_context) =>
      on_mgr (λ m, set_dump_contexts (delete t (_dump_task_contexts m)) m) ;;
      try_except (on_world (store_wait store t))
        (λ e,
          on_mgr (_record_dump_failure request_context) ;;
          if is_unhealthy e then mret tt else raise e)
  end.

(** The requests that still have a dump task. *)
Definition pending_request_ids (m : RankConsistencyManager) : gset string :=
  ⋃ ((λ p, dom p.2.2) <$> map_to_list (_dump_task_contexts m)).

Definition finish_one (m : RankConsistencyManager) (r : req_id) : RankConsistencyManager :=
  let block_ids := default ∅ (_dump_blocks_by_request m !! r) in
  let failed_block_ids := default ∅ (_dump_failed_blocks_by_request m !! r) in
  set_dump_succeeded (_dump_succeeded_blocks m ∪ (block_ids ∖ failed_block_ids))
    (set_dump_accounts (delete r (_dump_blocks_by_request m))
      (delete r (_dump_failed_blocks_by_request m)) m).

Definition finish_dump (request_ids : gset string) : M state unit :=
  m ← gets fst;
  if negb (enabled m) then mret tt
  else if decide (request_ids ∩ pending_request_ids m = ∅)
  then on_mgr (λ m, foldl finish_one m (set_iter request_ids))
  else raise RuntimeError.

(** Moves the worker's events into [worker_meta], which it returns. *)
Definition update_worker_meta (worker_meta : UCMWorkerMetadata) : M state UCMWorkerMetadata :=
  m ← gets fst;
  if negb (enabled m) then mret worker_meta
  else
    on_mgr (λ m, set_dump_succeeded ∅ (set_missing ∅ ∅ m)) ;;
    mret (mkWM (wm_is_mla worker_meta) (load_failed_reqs worker_meta)
      (missing_reqs worker_meta ∪ _missing_reqs m)
      (missing_blocks worker_meta ∪ _missing_blocks m)
      (dump_succeeded_blocks worker_meta ∪ _dump_succeeded_blocks m)).

Definition apply_worker_meta (worker_meta : UCMWorkerMetadata)
    (m : RankConsistencyManager) : RankConsistencyManager :=
  match _tracker m with
  | None => m
  | Some tr =>
      let '(tr1, _) := RankConsistencyTracker.clear_dumped (dump_succeeded_blocks worker_meta) tr in
      let '(tr2, _) := RankConsistencyTracker.mark_missing (missing_blocks worker_meta) tr1 in
      set_tracker (Some tr2) m
  end.
End manager.

(** ** The tracker *)

Section tracker_facts.
Context `{PySetOrder}.
Import RankConsistencyTracker.
Implicit Types (tr : t) (s ids : gset string).

Lemma contains_true tr b : contains tr b = true ↔ b ∈ _inconsistent tr.
Proof. apply bool_decide_eq_true. Qed.

Lemma contains_false tr b : contains tr b = false ↔ b ∉ _inconsistent tr.
Proof. apply bool_decide_eq_false. Qed.

Lemma valid_prefix_take tr l :
  valid_prefix tr l = take (prefix_count (λ b, negb (contains tr b)) l) l.
Proof.
  induction l as [|b l IH]; simpl; [done|].
  destruct (contains tr b); simpl; [done|]. by rewrite IH.
Qed.

(** While the marked blocks fit, the loop adds them all and counts the new ones. *)
Lemma mark_fold_fits l s added evicted :
  NoDup l →
  Z.of_nat (size (s ∪ list_to_set l)) ≤ _MAX_INCONSISTENT_BLOCKS →
  foldl mark_step (s, added, evicted) l =
  (s ∪ list_to_set l,
   added + Z.of_nat (size (s ∪ list_to_set l)) - Z.of_nat (size s), evicted).
Proof.
  revert s added evicted. induction l as [|b l IH]; intros s added evicted Hnd Hsz.
  { simpl in *. rewrite union_empty_r_L. f_equal. f_equal. lia. }
  apply list.NoDup_cons in Hnd as [Hb Hnd]. simpl in Hsz. cbn [foldl mark_step].
  replace (s ∪ list_to_set (b :: l)) with ({[b]} ∪ s ∪ list_to_set l) in * by set_solver.
  destruct (decide (b ∈ s)) as [Hin|Hout].
  - replace ({[b]} ∪ s) with s in * by set_solver. apply IH; [done|].
    replace (s ∪ list_to_set l) with (s ∪ ({[b]} ∪ list_to_set l)) by set_solver. done.
  - assert (size ({[b]} ∪ s) ≤ size (s ∪ ({[b]} ∪ list_to_set l)))%nat as Hle.
    { apply subseteq_size. set_solver. }
    assert (size ({[b]} ∪ s) = S (size s)) as Hsb.
    { rewrite size_union by set_solver. by rewrite size_singleton. }
    destruct (Z.leb_spec _MAX_INCONSISTENT_BLOCKS (Z.of_nat (size s))); [lia|].
    rewrite IH; [|done|].
    + f_equal. f_equal. lia.
    + by replace ({[b]} ∪ s ∪ list_to_set l) with (s ∪ ({[b]} ∪ list_to_set l)) by set_solver.
Qed.

Lemma set_iter_set ids : list_to_set (set_iter ids) = ids.
Proof.
  apply set_eq. intros x.
  rewrite elem_of_list_to_set, (set_iter_perm ids). apply elem_of_elements.
Qed.

Lemma set_iter_NoDup ids : NoDup (set_iter ids).
Proof. rewrite (set_iter_perm ids). apply NoDup_elements. Qed.

Lemma mark_missing_fits ids tr :
  Z.of_nat (size (_inconsistent tr ∪ ids)) ≤ _MAX_INCONSISTENT_BLOCKS →
  mark_missing ids tr =
  (mk (_inconsistent tr ∪ ids),
   Z.of_nat (size (_inconsistent tr ∪ ids)) - Z.of_nat (size (_inconsistent tr))).
Proof.
  intros Hsz. unfold mark_missing.
  rewrite mark_fold_fits; [|apply set_iter_NoDup|by rewrite set_iter_set].
  rewrite set_iter_set. done.
Qed.

(** One turn never takes the set above the limit, and only adds the block. *)
Lemma mark_step_bound s added evicted b s' added' evicted' :
  Z.of_nat (size s) ≤ _MAX_INCONSISTENT_BLOCKS →
  mark_step (s, added, evicted) b = (s', added', evicted') →
  Z.of_nat (size s') ≤ _MAX_INCONSISTENT_BLOCKS ∧ b ∈ s' ∧ s' ⊆ {[b]} ∪ s.
Proof.
  intros Hsz. unfold mark_step. destruct (decide (b ∈ s)) as [Hin|Hout].
  { intros; simplify_eq. set_solver. }
  destruct (Z.leb_spec _MAX_INCONSISTENT_BLOCKS (Z.of_nat (size s))) as [Hfull|Hroom].
  - destruct (set_pop s) as [x|] eqn:Hpop; intros; simplify_eq.
    + apply set_pop_elem in Hpop.
      assert (size s = S (size (s ∖ {[x]}))) as Hs.
      { rewrite (union_difference_singleton_L x s) at 1 by done.
        rewrite size_union by set_solver. by rewrite size_singleton. }
      pose proof (size_union_alt {[b]} (s ∖ {[x]})) as Hu.
      pose proof (subseteq_size ((s ∖ {[x]}) ∖ {[b]}) (s ∖ {[x]}) ltac:(set_solver)).
      rewrite size_singleton in Hu. split_and!; [lia|set_solver|set_solver].
    + apply set_pop_empty in Hpop as ->. rewrite size_empty in Hfull.
      unfold _MAX_INCONSISTENT_BLOCKS in Hfull. lia.
  - intros; simplify_eq. rewrite size_union by set_solver. rewrite size_singleton.
    split_and!; [lia|set_solver|set_solver].
Qed.

Lemma mark_fold_bound l s added evicted s' added' evicted' :
  Z.of_nat (size s) ≤ _MAX_INCONSISTENT_BLOCKS →
  foldl mark_step (s, added, evicted) l = (s', added', evicted') →
  Z.of_nat (size s') ≤ _MAX_INCONSISTENT_BLOCKS ∧ s' ⊆ s ∪ list_to_set l.
Proof.
  revert s added evicted. induction l as [|b l IH]; intros s added evicted Hsz.
  { simpl. intros; simplify_eq. set_solver. }
  cbn [foldl]. destruct (mark_step (s, added, evicted) b) as [[s1 a1] e1] eqn:Hs.
  apply mark_step_bound in Hs as (Hsz1 & _ & Hsub); [|done].
  intros Hf. apply IH in Hf as [? ?]; [|done]. set_solver.
Qed.
End tracker_facts.

(** ** Lookups through the manager *)

Ltac mred :=
  unfold classify, on_mgr, on_world, zoom, gets, modify, try_except, raise,
    mbind, M_bind, mret, M_ret in *; simpl in *.

Section lookups.
Context {W : Type} `{StoreSpec W} `{PySetOrder}.
Implicit Types (m : RankConsistencyManager) (w : W).

(** The marks a lookup heeds: none when the manager is disabled. *)
Definition marks (m : RankConsistencyManager) : option RankConsistencyTracker.t :=
  if enabled m then _tracker m else None.

(** A block a lookup may count: held by the store and not marked. *)
Definition usable (w : W) (store : store_id) (m : RankConsistencyManager) (b : bytes) : bool :=
  present w store b &&
  match marks m with Some tr => negb (RankConsistencyTracker.contains tr b) | None => true end.

Definition unmarked (w : W) (store : store_id) (tr : RankConsistencyTracker.t) (b : bytes) : bool :=
  present w store b && negb (RankConsistencyTracker.contains tr b).

(** The state of the [while] loop: [result] was found by the store among the
    first [result + 1] blocks, and no block after it is usable. *)
Definition loop_inv (w0 : W) store tr (l : list string) (result : Z) : Prop :=
  last_index (present w0 store) (take (Z.to_nat (result + 1)) l) = result ∧
  -1 ≤ result < zlen l ∧
  (∀ (i : nat) b, l !! i = Some b → result < Z.of_nat i → unmarked w0 store tr b = false).

Lemma loop_inv_next w0 store tr l (result : nat) b :
  loop_inv w0 store tr l (Z.of_nat result) →
  l !! result = Some b → RankConsistencyTracker.contains tr b = true →
  loop_inv w0 store tr l (last_index (present w0 store) (take result l)).
Proof.
  intros (_ & Hrg & Hmax) Hb Hc.
  pose proof (last_index_range (present w0 store) (take result l)) as Hr.
  assert (zlen (take result l) ≤ Z.of_nat result) by (unfold zlen; rewrite length_take; lia).
  split_and!; [apply last_index_take_self|lia|lia|].
  intros i x Hx Hi. unfold unmarked. destruct (decide (i < result)%nat).
  - by rewrite (last_index_take_max (present w0 store) l result i x).
  - destruct (decide (i = result)) as [->|]; [|apply (Hmax i); [done|lia]].
    assert (x = b) as -> by congruence. by rewrite Hc, andb_false_r.
Qed.

Lemma loop_inv_done w0 store tr l result b :
  loop_inv w0 store tr l result → 0 ≤ result →
  l !! Z.to_nat result = Some b → RankConsistencyTracker.contains tr b = false →
  result = last_index (unmarked w0 store tr) l.
Proof.
  intros (Hres & Hrg & Hmax) Hpos Hb Hc. apply last_index_unique; [lia| |done].
  intros i Hi. exists b. split; [by replace i with (Z.to_nat result) by lia|].
  destruct (last_index_Some (present w0 store) (take (Z.to_nat (result + 1)) l) (Z.to_nat result))
    as (b' & Hb' & Hp); [lia|].
  apply lookup_take_Some in Hb' as [Hb' _]. assert (b' = b) as -> by congruence.
  unfold unmarked. by rewrite Hp, Hc.
Qed.

Lemma loop_inv_none w0 store tr l result :
  loop_inv w0 store tr l result →
  (result < 0 ∨ result = 0 ∧ ∀ b, l !! 0%nat = Some b → RankConsistencyTracker.contains tr b = true) →
  -1 = last_index (unmarked w0 store tr) l.
Proof.
  intros (_ & Hrg & Hmax) Hend. apply last_index_unique; [lia|lia|].
  intros i x Hx _. destruct (decide (result < Z.of_nat i)); [by apply (Hmax i)|].
  destruct Hend as [?|[-> Hc]]; [lia|]. replace i with 0%nat in Hx by lia.
  unfold unmarked. by rewrite (Hc x Hx), andb_false_r.
Qed.

(** What the loop returns: the answer on unmarked blocks, or the exception of
    one of its queries.  [result + 2] tests of the condition are enough. *)
Lemma reverse_loop_spec fuel store tr l w0 w result w' r :
  present w = present w0 →
  (Z.to_nat (result + 1) < fuel)%nat →
  loop_inv w0 store tr l result →
  reverse_loop fuel store tr l result w = (w', r) →
  present w' = present w0 ∧
  (r = Ok (last_index (unmarked w0 store tr) l) ∨
   ∃ e ks w1, r = Raise e ∧ (store_lookup_on_reverse store ks w1).2 = Raise e).
Proof.
  revert result w. induction fuel as [|fuel IH]; intros result w Hw Hfuel Hinv; [lia|].
  pose proof Hinv as (_ & Hrg & _).
  cbn [reverse_loop]. destruct (Z.ltb_spec result 0) as [Hneg|Hpos].
  { intros [= <- <-]. split; [done|]. left. f_equal.
    rewrite <- (loop_inv_none _ _ _ _ _ Hinv); lia. }
  destruct (lookup_lt_is_Some_2 l (Z.to_nat result)) as [b Hb]; [unfold zlen in Hrg; lia|].
  rewrite Hb. destruct (RankConsistencyTracker.contains tr b) eqn:Hc.
  2:{ intros [= <- <-]. split; [done|]. left. f_equal. by eapply loop_inv_done. }
  destruct (Z.eqb_spec result 0) as [->|Hnz].
  { intros [= <- <-]. split; [done|]. left. f_equal. apply (loop_inv_none _ _ _ _ _ Hinv).
    right. split; [done|]. change (Z.to_nat 0) with 0%nat in Hb. congruence. }
  unfold mbind, M_bind. rewrite py_slice_to_nonneg by lia.
  pose proof (lookup_on_reverse_frame store (take (Z.to_nat result) l) w) as [Hfr _].
  destruct (store_lookup_on_reverse store _ w) as [w1 [r1|e]] eqn:Hq; simpl in Hfr.
  - pose proof (lookup_on_reverse_ok _ _ _ _ _ Hq) as ->. rewrite Hw.
    apply IH; [congruence| |].
    + pose proof (last_index_range (present w0 store) (take (Z.to_nat result) l)) as Hr.
      unfold zlen in Hr. rewrite length_take in Hr. lia.
    + eapply loop_inv_next; [|done|done]. by rewrite Z2Nat.id by lia.
  - intros [= <- <-]. split; [congruence|]. right. eexists e, _, w. by rewrite Hq.
Qed.

#[local] Arguments reverse_loop : simpl never.

(** A prefix lookup asks the store at most once, and answers for the usable
    blocks. *)
Lemma lookup_on_prefix_spec store l m w s' r :
  lookup_on_prefix store l (m, w) = (s', r) →
  s'.1 = m ∧ present s'.2 = present w ∧
  (s'.2 = w ∨ ∃ ks, s'.2 = (store_lookup_on_prefix store ks w).1) ∧
  (r = Ok (Z.of_nat (prefix_count (usable w store m) l) - 1) ∨
   ∃ e ks, r = Raise e ∧ (store_lookup_on_prefix store ks w).2 = Raise e).
Proof.
  assert (∀ l', prefix_count (usable w store m) l = prefix_count (present w store) l' →
    let '(w', r) := store_lookup_on_prefix store l' w in
    present w' = present w ∧
    (w' = w ∨ ∃ ks, w' = (store_lookup_on_prefix store ks w).1) ∧
    (r = Ok (Z.of_nat (prefix_count (usable w store m) l) - 1) ∨
     ∃ e ks, r = Raise e ∧ (store_lookup_on_prefix store ks w).2 = Raise e)) as Hask.
  { intros l' ->. pose proof (lookup_on_prefix_frame store l' w) as [Hfr _].
    destruct (store_lookup_on_prefix store l' w) as [w' [n|e]] eqn:Hq; simpl in *;
      (split; [done|split; [right; exists l'; by rewrite Hq|]]).
    - apply lookup_on_prefix_ok in Hq as ->. by left.
    - right. exists e, l'. by rewrite Hq. }
  unfold lookup_on_prefix, usable, marks in *. mred. destruct (enabled m); simpl in *.
  2:{ specialize (Hask l). destruct (store_lookup_on_prefix store l w).
      intros [= <- <-]. split; [done|]. apply Hask, prefix_count_ext.
      intros. apply andb_true_r. }
  destruct (_tracker m) as [tr|].
  - assert (prefix_count (λ b, present w store b && negb (RankConsistencyTracker.contains tr b)) l =
      prefix_count (present w store) (RankConsistencyTracker.valid_prefix tr l)) as E.
    { rewrite valid_prefix_take, prefix_count_take_and.
      apply prefix_count_ext. intros. apply andb_comm. }
    specialize (Hask _ E). destruct (RankConsistencyTracker.valid_prefix tr l) as [|b l''] eqn:El.
    { intros [= <- <-]. split_and!; auto. left. by rewrite E. }
    simpl. destruct (store_lookup_on_prefix store (b :: l'') w). by intros [= <- <-].
  - destruct l as [|b l']; [intros [= <- <-]; split_and!; auto|].
    specialize (Hask (b :: l')). simpl. destruct (store_lookup_on_prefix store (b :: l') w).
    intros [= <- <-]. split; [done|]. apply Hask, prefix_count_ext.
    intros. apply andb_true_r.
Qed.

(** A prefix lookup through the manager changes neither the manager nor
    what the store holds.  When it returns [r], the first [r + 1] blocks are
    all held by the store and, on an enabled manager, none of them is known
    to be missing on some rank; the next block, if any, is not usable.  It
    raises only what the store's lookup raises. *)
Theorem lookup_on_prefix_usable store l m w s' r :
  lookup_on_prefix store l (m, w) = (s', r) →
  s'.1 = m ∧ present s'.2 = present w ∧
  match r with
  | Ok n =>
      -1 ≤ n < zlen l ∧
      (∀ (i : nat) b, l !! i = Some b → Z.of_nat i ≤ n →
         present w store b = true ∧ ∀ tr, marks m = Some tr → RankConsistencyTracker.contains tr b = false) ∧
      (∀ b, l !! Z.to_nat (n + 1) = Some b →
         present w store b = false ∨
         ∃ tr, marks m = Some tr ∧ RankConsistencyTracker.contains tr b = true)
  | Raise e => ∃ ks, (store_lookup_on_prefix store ks w).2 = Raise e
  end.
Proof.
  intros (Hm & Hp & _ & [->|(e & ks & -> & Hks)])%lookup_on_prefix_spec;
    (split; [exact Hm|split; [exact Hp|]]); [|by exists ks].
  pose proof (prefix_count_le (usable w store m) l).
  split_and!; [unfold zlen; lia|unfold zlen; lia|..].
  - intros i b Hb Hi.
    assert (usable w store m b = true) as Hu by (apply (prefix_count_spec _ l i b Hb); lia).
    apply andb_true_iff in Hu as [Hpb Hu]. split; [done|]. intros tr Htr. rewrite Htr in Hu.
    by apply negb_true_iff.
  - intros b. rewrite Z.sub_add, Nat2Z.id. intros Hu%prefix_count_stop.
    apply andb_false_iff in Hu as [?|Hu]; [by left|right].
    destruct (marks m) as [tr|]; [|done]. exists tr. split; [done|]. by apply negb_false_iff.
Qed.

(** A reverse lookup answers for the usable blocks. *)
Lemma lookup_on_reverse_spec store l m w s' r :
  lookup_on_reverse store l (m, w) = (s', r) →
  s'.1 = m ∧ present s'.2 = present w ∧
  (r = Ok (last_index (usable w store m) l) ∨
   ∃ e ks w1, r = Raise e ∧ (store_lookup_on_reverse store ks w1).2 = Raise e).
Proof.
  unfold lookup_on_reverse, usable, marks. mred.
  pose proof (lookup_on_reverse_frame store l w) as [Hfr _].
  pose proof (lookup_on_reverse_ok store l w) as Hok.
  destruct (store_lookup_on_reverse store l w) as [w1 [r1|e]] eqn:Hq; simpl in Hfr.
  2:{ destruct (enabled m); [destruct (_tracker m); [destruct l|]|]; simpl; rewrite ?Hq;
        intros [= <- <-]; split_and!; try done; right; exists e; eexists _, w; by rewrite Hq. }
  specialize (Hok _ _ eq_refl).
  assert (∀ p, (∀ x, p x = present w store x) → r1 = last_index p l) as Hext.
  { intros p Hp. subst r1. clear -Hp. induction l as [|x l IH]; simpl; [done|].
    by rewrite IH, Hp. }
  destruct (enabled m); simpl.
  2:{ rewrite Hq. intros [= <- <-]. split_and!; try done. left. f_equal. apply Hext.
      intros x. apply andb_true_r. }
  destruct (_tracker m) as [tr|] eqn:Htr.
  2:{ simpl. rewrite Hq. intros [= <- <-]. split_and!; try done. left. f_equal. apply Hext.
      intros x. apply andb_true_r. }
  destruct l as [|b l']; [simpl; rewrite Hq; intros [= <- <-]; split_and!; try done; left; by subst r1|].
  cbn [fst snd]. rewrite Hq.
  destruct (reverse_loop (S (length (b :: l'))) store tr (b :: l') r1 w1) as [w2 r2] eqn:Hl.
  intros [= <- <-]. split; [done|].
  pose proof (last_index_range (present w store) (b :: l')) as Hrg.
  apply (reverse_loop_spec _ _ _ _ w) in Hl; [done|done| |].
  - unfold zlen in Hrg. simpl length in *. lia.
  - subst r1. split_and!; [|lia|lia|].
    + pose proof (last_index_take_self (present w store) (b :: l') (length (b :: l'))) as E.
      by rewrite firstn_all in E.
    + intros i x Hx Hi. unfold unmarked. by rewrite (last_index_max _ _ _ _ Hx).
Qed.

(** C9 The reverse lookup of the manager terminates; unless a store
    query raises, it returns the index of the rightmost block that the store
    holds and that, on an enabled manager, is not known to be missing (-1 if
    there is none), although it asks the store, which does not know the marks, repeatedly. *)
Theorem lookup_on_reverse_usable store l m w s' r :
  lookup_on_reverse store l (m, w) = (s', r) →
  s'.1 = m ∧ present s'.2 = present w ∧
  (r = Ok (last_index (usable w store m) l) ∨
   ∃ e ks w1, r = Raise e ∧ (store_lookup_on_reverse store ks w1).2 = Raise e).
Proof. apply lookup_on_reverse_spec. Qed.
End lookups.

(** ** From the workers' reports to the scheduler's marks *)

(** The engine folds the metadata of all ranks of one step with [aggregate]. *)
Definition aggregate_all (first : UCMWorkerMetadata) (rest : list UCMWorkerMetadata) :
    outcome UCMWorkerMetadata :=
  foldl (λ acc m, a ← acc; aggregate a m) (Ok first) rest.

(** A block whose dump counts as complete on every rank that has to write it. *)
Definition dumped_everywhere (is_mla : bool) (metas : list UCMWorkerMetadata) (b : bytes) : Prop :=
  if is_mla then Exists (λ m, b ∈ dump_succeeded_blocks m) metas
  else Forall (λ m, b ∈ dump_succeeded_blocks m) metas.

Lemma aggregate_all_spec first rest :
  Forall (λ m, wm_is_mla m = wm_is_mla first) rest →
  ∃ a, aggregate_all first rest = Ok a ∧ wm_is_mla a = wm_is_mla first ∧
    (∀ b, b ∈ missing_blocks a ↔ Exists (λ m, b ∈ missing_blocks m) (first :: rest)) ∧
    (∀ r, r ∈ load_failed_reqs a ↔ Exists (λ m, r ∈ load_failed_reqs m) (first :: rest)) ∧
    (∀ b, b ∈ dump_succeeded_blocks a ↔ dumped_everywhere (wm_is_mla first) (first :: rest) b).
Proof.
  unfold aggregate_all, dumped_everywhere. revert first.
  induction rest as [|m rest IH]; intros first Hall.
  - exists first. split_and!; try done; intros b;
      destruct (wm_is_mla first); rewrite ?Exists_cons, ?Exists_nil, ?Forall_cons, ?Forall_nil;
      naive_solver.
  - apply Forall_cons in Hall as [Hm Hall]. cbn [foldl mbind outcome_bind].
    unfold aggregate at 2. rewrite Hm, Bool.eqb_reflx.
    destruct (IH (mkWM (wm_is_mla first) (load_failed_reqs first ∪ load_failed_reqs m)
      (missing_reqs first ∪ missing_reqs m) (missing_blocks first ∪ missing_blocks m)
      (if wm_is_mla first then dump_succeeded_blocks first ∪ dump_succeeded_blocks m
       else dump_succeeded_blocks first ∩ dump_succeeded_blocks m)) Hall)
      as (a & Ha & Hmla & Hmiss & Hfail & Hdump).
    simpl in Hmla, Hmiss, Hfail, Hdump.
    exists a. split_and!; [done|done|..]; intros b;
      [rewrite Hmiss|rewrite Hfail|rewrite Hdump; destruct (wm_is_mla first)];
      rewrite ?Exists_cons, ?Forall_cons; simpl; set_solver.
Qed.

Section reports.
Context `{PySetOrder}.

(** After the scheduler applies the aggregated reports of one step, a
    block is excluded from lookups exactly when some rank reported it missing
    in this step, or it was excluded before and has not been dumped by every
    rank that has to write it (all ranks, or one rank for MLA).  A block
    reported both missing and dumped stays excluded. *)
Theorem apply_worker_meta_marks first rest a m tr m' :
  Forall (λ x, wm_is_mla x = wm_is_mla first) rest →
  aggregate_all first rest = Ok a →
  _tracker m = Some tr →
  Z.of_nat (size (RankConsistencyTracker._inconsistent tr ∪ missing_blocks a))
    ≤ RankConsistencyTracker._MAX_INCONSISTENT_BLOCKS →
  apply_worker_meta a m = m' →
  ∃ tr', _tracker m' = Some tr' ∧
    ∀ b, RankConsistencyTracker.contains tr' b = true ↔
      Exists (λ x, b ∈ missing_blocks x) (first :: rest) ∨
      RankConsistencyTracker.contains tr b = true ∧
      ¬ dumped_everywhere (wm_is_mla first) (first :: rest) b.
Proof.
  intros Hall Ha Htr Hsz <-.
  destruct (aggregate_all_spec first rest Hall) as (a' & Ha' & _ & Hmiss & _ & Hdump).
  assert (a' = a) as -> by congruence.
  unfold apply_worker_meta. rewrite Htr. simpl.
  rewrite mark_missing_fits.
  2:{ simpl. etrans; [|exact Hsz]. apply inj_le, subseteq_size. set_solver. }
  eexists. split; [done|]. intros b. rewrite !contains_true. simpl.
  rewrite <- Hmiss, <- Hdump. set_solver.
Qed.

(** The scheduler's set of excluded blocks never grows beyond its limit,
    whatever the workers report, and it contains nothing but earlier members
    and newly reported blocks. *)
Theorem apply_worker_meta_bounded wm m tr tr' :
  _tracker m = Some tr →
  RankConsistencyTracker.len tr ≤ RankConsistencyTracker._MAX_INCONSISTENT_BLOCKS →
  _tracker (apply_worker_meta wm m) = Some tr' →
  RankConsistencyTracker.len tr' ≤ RankConsistencyTracker._MAX_INCONSISTENT_BLOCKS ∧
  RankConsistencyTracker._inconsistent tr' ⊆
    RankConsistencyTracker._inconsistent tr ∪ missing_blocks wm.
Proof.
  unfold RankConsistencyTracker.len. intros Htr Hsz. unfold apply_worker_meta. rewrite Htr.
  unfold RankConsistencyTracker.clear_dumped, RankConsistencyTracker.mark_missing. simpl.
  destruct (foldl _ _ _) as [[s added] ev] eqn:Hf. intros [= <-].
  apply mark_fold_bound in Hf as [? Hsub].
  - rewrite set_iter_set in Hsub. split; [done|]. simpl. set_solver.
  - etrans; [|exact Hsz]. apply inj_le, subseteq_size. set_solver.
Qed.
End reports.

(** ** Concrete runs *)

Definition ex_manager : RankConsistencyManager :=
  set_tracker (Some (RankConsistencyTracker.mk {["c"%string]}))
    (RankConsistencyManager_init true true).

Definition ex_world : RefStore := rs_init 0 ["a"; "b"; "c"]%string.

Lemma lookup_on_reverse_usable_witness :
  (lookup_on_reverse 0 ["a"; "b"; "c"]%string (ex_manager, ex_world)).2 = Ok 1 ∧
  present (lookup_on_reverse 0 ["a"; "b"; "c"]%string (ex_manager, ex_world)).1.2 = present ex_world.
Proof.
  split; [vm_compute; reflexivity|].
  apply (lookup_on_reverse_usable 0 ["a"; "b"; "c"]%string ex_manager ex_world
           (lookup_on_reverse 0 ["a"; "b"; "c"]%string (ex_manager, ex_world)).1
           (lookup_on_reverse 0 ["a"; "b"; "c"]%string (ex_manager, ex_world)).2).
  by destruct (lookup_on_reverse _ _ _).
Defined.


