(* ===== verification/StoreLog.v ===== *)
(** * A log of the transfers

    [Logged W] is a world of stores that records the transfers submitted to
    them, the waits and the polls, each with its result, and otherwise behaves
    as [W].  Theorems about what a worker did during a call are stated about
    the events the call adds to the log. *)

From Stdlib Require Import ZArith Lia.
From stdpp Require Import base list gmap strings numbers fin_sets.
From S2P Require Import Prelude.
From S2P Require Import Store.
From S2P Require Import RankConsistency.
Local Open Scope Z_scope.

Inductive store_event :=
| EvLoad (s : store_id) (ks : list bytes) (shards : list Z) (ptrs : list (list Z))
    (distribute : option bool) (r : outcome task)
| EvDump (s : store_id) (ks : list bytes) (shards : list Z) (ptrs : list (list Z))
    (event_handle : Z) (r : outcome task)
| EvWait (s : store_id) (t : task) (r : outcome unit)
| EvCheck (s : store_id) (t : task) (r : outcome bool).

Record Logged (W : Type) := mkLogged { world : W; log : list store_event }.
Arguments mkLogged {W} _ _.
Arguments world {W} _.
Arguments log {W} _.

Definition logging {W A} (ev : outcome A → store_event) (m : M W A) : M (Logged W) A := λ l,
  let '(w, r) := m (world l) in (mkLogged w (log l ++ [ev r]), r).
Definition unlogged {W A} (m : M W A) : M (Logged W) A := λ l,
  let '(w, r) := m (world l) in (mkLogged w (log l), r).

#[export] Instance Logged_world `{StoreWorld W} : StoreWorld (Logged W) := {|
  supports_distributed_backend_load := supports_distributed_backend_load (W := W);
  store_lookup s ks := unlogged (store_lookup s ks);
  store_lookup_on_prefix s ks := unlogged (store_lookup_on_prefix s ks);
  store_lookup_on_reverse s ks := unlogged (store_lookup_on_reverse s ks);
  store_prefetch s ks := unlogged (store_prefetch s ks);
  store_load_data s ks sh ps d := logging (EvLoad s ks sh ps d) (store_load_data s ks sh ps d);
  store_dump_data s ks sh ps h := logging (EvDump s ks sh ps h) (store_dump_data s ks sh ps h);
  store_wait s t := logging (EvWait s t) (store_wait s t);
  store_check s t := logging (EvCheck s t) (store_check s t);
|}.

(** ** What the manager's operations log *)

Section manager_log.
Context {W : Type} `{StoreWorld W}.
Abbreviation mstate := (RankConsistencyManager * Logged W)%type.

(** The store a load task was submitted to. *)
Definition load_store (m : RankConsistencyManager) (t : task) : option store_id :=
  fst <$> _load_task_contexts m !! t.

(** All loads the manager accounts for were submitted to one store. *)
Definition loads_at (s : store_id) (m : RankConsistencyManager) : Prop :=
  ∀ t s', load_store m t = Some s' → s' = s.

Lemma classify_log {A} ctx e (st : mstate) :
  ∃ m', classify (A := A) ctx e st = ((m', st.2), Raise e) ∧
    _load_task_contexts m' = _load_task_contexts st.1.
Proof.
  destruct st as [m l]. unfold classify. unfold mbind, M_bind, gets. simpl.
  destruct (enabled m && is_not_found e); simpl; by eexists.
Qed.

Lemma submit_load_log s ctx ks sh ps d (st : mstate) :
  ∃ m' w' r, submit_load s ctx ks sh ps d st =
      ((m', mkLogged w' (log st.2 ++ [EvLoad s ks sh ps
         (if supports_distributed_backend_load (W := W) s then Some d else None) r])), r) ∧
    match r with
    | Ok t => ∃ c, _load_task_contexts m' = <[t := (s, c)]> (_load_task_contexts st.1)
    | Raise _ => _load_task_contexts m' = _load_task_contexts st.1
    end.
Proof.
  destruct st as [m l]. unfold submit_load. unfold mbind at 1, M_bind at 1, gets. simpl.
  unfold mbind at 1, M_bind at 1, try_except, on_world, zoom. simpl. unfold logging.
  destruct (store_load_data s ks sh ps _ (world l)) as [w' [t|e]]; simpl.
  - eexists _, _, _. split; [done|]. by eexists.
  - destruct (classify_log (A := task) (if enabled m then ctx else ∅) e
      (m, mkLogged w' (log l ++ [EvLoad s ks sh ps
         (if supports_distributed_backend_load (W := W) s then Some d else None) (Raise e)])))
      as (m' & E & Hm). rewrite E. by eexists _, _, _.
Qed.

Lemma wait_load_log t (st : mstate) :
  ∃ m' l' r, wait_load t None st = ((m', l'), r) ∧
    _load_task_contexts m' = delete t (_load_task_contexts st.1) ∧
    match load_store st.1 t with
    | None => log l' = log st.2 ∧ r = Raise RuntimeError
    | Some s => log l' = log st.2 ++ [EvWait s t r]
    end.
Proof.
  destruct st as [m l]. unfold wait_load, load_store. unfold mbind at 1, M_bind at 1, gets. simpl.
  destruct (_load_task_contexts m !! t) as [[s c]|] eqn:Ht; simpl.
  - unfold mbind at 1, M_bind at 1. simpl. unfold try_except, on_world, zoom. simpl. unfold logging.
    destruct (store_wait s t (world l)) as [w' [[]|e]]; simpl; [by eexists _, _, _|].
    edestruct (classify_log (A := unit) c e) as (m' & E & Hm). rewrite E. eexists _, _, _.
    split_and!; [done|by rewrite Hm|done].
  - eexists _, _, _. split_and!; [done|by rewrite delete_id|done|done].
Qed.

Lemma check_load_log t (st : mstate) :
  ∃ m' l' r, check_load t st = ((m', l'), r) ∧
    _load_task_contexts m' =
      match r with Ok _ => _load_task_contexts st.1 | Raise _ => delete t (_load_task_contexts st.1) end ∧
    match load_store st.1 t with
    | None => log l' = log st.2 ∧ r = Raise RuntimeError
    | Some s => log l' = log st.2 ++ [EvCheck s t r]
    end.
Proof.
  destruct st as [m l]. unfold check_load, load_store. unfold mbind at 1, M_bind at 1, gets. simpl.
  destruct (_load_task_contexts m !! t) as [[s c]|] eqn:Ht; simpl.
  - unfold try_except, on_world, zoom. simpl. unfold logging.
    destruct (store_check s t (world l)) as [w' [b|e]]; simpl; [by eexists _, _, _|].
    unfold mbind, M_bind. simpl.
    edestruct (classify_log (A := bool) c e) as (m' & E & Hm). rewrite E. eexists _, _, _.
    split_and!; [done|by rewrite Hm|done].
  - eexists _, _, _. split_and!; [done|by rewrite delete_id|done|done].
Qed.

Lemma submit_dump_log s ctx ks sh ps h (st : mstate) :
  ∃ m' w' r, submit_dump s ctx ks sh ps h st =
    ((m', mkLogged w' (log st.2 ++ [EvDump s ks sh ps h r])), r).
Proof.
  destruct st as [m l]. unfold submit_dump. unfold mbind at 1, M_bind at 1, gets. simpl.
  unfold mbind at 1, M_bind at 1. simpl. unfold mbind at 1, M_bind at 1, try_except, on_world, zoom. simpl.
  unfold logging. destruct (store_dump_data s ks sh ps h (world l)) as [w' [t|e]]; by eexists _, _, _.
Qed.

Lemma loads_at_insert s m m' t c :
  loads_at s m → _load_task_contexts m' = <[t := (s, c)]> (_load_task_contexts m) → loads_at s m'.
Proof.
  intros Hm E t' s'. unfold load_store. rewrite E, lookup_insert. case_decide; simpl; [by intros [= <-]|].
  apply Hm.
Qed.

Lemma loads_at_delete s m m' t :
  loads_at s m → _load_task_contexts m' = delete t (_load_task_contexts m) → loads_at s m'.
Proof.
  intros Hm E t' s'. unfold load_store. rewrite E, lookup_delete. case_decide; simpl; [done|]. apply Hm.
Qed.

Lemma loads_at_map s m :
  map_Forall (λ _ (x : store_id * gmap string (list string)), x.1 = s) (_load_task_contexts m) → loads_at s m.
Proof. intros Hm t s' (x & Hx & ->)%fmap_Some_1. by apply Hm in Hx. Qed.

Lemma loads_at_eq s m m' :
  loads_at s m → _load_task_contexts m' = _load_task_contexts m → loads_at s m'.
Proof. intros Hm E t' s'. unfold load_store. rewrite E. apply Hm. Qed.
End manager_log.
