(* ===== verification/DumpAccounting.v ===== *)
(** * What the manager reports as dumped

    The worker side of [RankConsistencyManager] (rank_consistency.py) counts
    the blocks of every request over several dump tasks and reports the ones
    that were stored.  The specification is a log of what happened to the
    store: which contexts were submitted, rejected, completed or failed.  The
    refinement theorem says that the manager's dictionaries always agree with
    the log, and that [finish_dump] reports what the log says. *)

From Stdlib Require Import ZArith Lia.
From stdpp Require Import base list gmap strings numbers fin_sets.
From S2P Require Import Prelude.
From S2P Require Import Store.
From S2P Require Import RankConsistency.
Local Open Scope Z_scope.

Abbreviation dump_context := (gmap string (gset string)) (only parsing).

(** What one call of the manager did. *)
Inductive dump_event :=
| Submitted (t : task) (ctx : dump_context)   (* the store accepted the dump *)
| Rejected (ctx : dump_context)               (* the submission raised *)
| Succeeded (t : task)                        (* the wait returned *)
| Failed (t : task) (ctx : dump_context)      (* the wait raised *)
| Finished (ids : gset string)                (* the requests were reported *)
| Unrelated.                                  (* a call about loads or metadata *)

Definition ctx_blocks (ctx : dump_context) (r : req_id) : gset string := default ∅ (ctx !! r).

(** ** The log, latest event first *)

Fixpoint log_submitted (log : list dump_event) (r : req_id) : gset string :=
  match log with
  | [] => ∅
  | Submitted _ ctx :: log' | Rejected ctx :: log' => ctx_blocks ctx r ∪ log_submitted log' r
  | Finished ids :: log' => if decide (r ∈ ids) then ∅ else log_submitted log' r
  | _ :: log' => log_submitted log' r
  end.

Fixpoint log_failed (log : list dump_event) (r : req_id) : gset string :=
  match log with
  | [] => ∅
  | Rejected ctx :: log' | Failed _ ctx :: log' => ctx_blocks ctx r ∪ log_failed log' r
  | Finished ids :: log' => if decide (r ∈ ids) then ∅ else log_failed log' r
  | _ :: log' => log_failed log' r
  end.

Fixpoint log_pending (log : list dump_event) : gmap task dump_context :=
  match log with
  | [] => ∅
  | Submitted t ctx :: log' => <[t := ctx]> (log_pending log')
  | Succeeded t :: log' | Failed t _ :: log' => delete t (log_pending log')
  | _ :: log' => log_pending log'
  end.

(** ** Runs of the manager *)
Section runs.
Context {W : Type} `{StoreWorld W} `{PySetOrder}.
Abbreviation state := (RankConsistencyManager * W)%type.

Inductive manager_step : state → dump_event → state → Prop :=
| step_submit store ctx ids sh ps h st st' t :
    submit_dump store ctx ids sh ps h st = (st', Ok t) →
    manager_step st (Submitted t ctx) st'
| step_reject store ctx ids sh ps h st st' e :
    submit_dump store ctx ids sh ps h st = (st', Raise e) →
    manager_step st (Rejected ctx) st'
| step_wait_ok t store ctx st st' r :
    _dump_task_contexts st.1 !! t = Some (store, ctx) →
    (store_wait store t st.2).2 = Ok tt →
    wait_dump t st = (st', r) →
    manager_step st (Succeeded t) st'
| step_wait_fail t store ctx st st' r e :
    _dump_task_contexts st.1 !! t = Some (store, ctx) →
    (store_wait store t st.2).2 = Raise e →
    wait_dump t st = (st', r) →
    manager_step st (Failed t ctx) st'
| step_wait_unknown t st st' r :
    _dump_task_contexts st.1 !! t = None →
    wait_dump t st = (st', r) →
    manager_step st Unrelated st'
| step_finish ids st st' :
    finish_dump ids st = (st', Ok tt) →
    manager_step st (Finished ids) st'
| step_refuse ids st st' e :
    finish_dump ids st = (st', Raise e) →
    manager_step st Unrelated st'
| step_submit_load store ctx ids sh ps d st st' r :
    submit_load store ctx ids sh ps d st = (st', r) → manager_step st Unrelated st'
| step_wait_load t wt st st' r :
    wait_load t wt st = (st', r) → manager_step st Unrelated st'
| step_check_load t st st' r :
    check_load t st = (st', r) → manager_step st Unrelated st'
| step_update_meta wm st st' r :
    update_worker_meta wm st = (st', r) → manager_step st Unrelated st'.

(** A run of a worker-side manager from its creation, with its log. *)
Inductive manager_run (w0 : W) : list dump_event → state → Prop :=
| run_start : manager_run w0 [] (RankConsistencyManager_init false true, w0)
| run_step log st ev st' :
    manager_run w0 log st → manager_step st ev st' → manager_run w0 (ev :: log) st'.

(** The manager's dictionaries agree with the log. *)
Definition agrees (log : list dump_event) (m : RankConsistencyManager) : Prop :=
  enabled m = true ∧
  (∀ r, ctx_blocks (_dump_blocks_by_request m) r = log_submitted log r) ∧
  (∀ r, ctx_blocks (_dump_failed_blocks_by_request m) r = log_failed log r) ∧
  snd <$> _dump_task_contexts m = log_pending log.

(** The dump part of the manager, which calls about loads do not touch. *)
Definition dump_part (m : RankConsistencyManager) :=
  (enabled m, _dump_blocks_by_request m, _dump_failed_blocks_by_request m, _dump_task_contexts m).

Lemma agrees_dump_part log m m' : dump_part m' = dump_part m → agrees log m → agrees log m'.
Proof. unfold dump_part, agrees. intros [= -> -> -> ->]. done. Qed.

Lemma ctx_blocks_add ctx d r :
  ctx_blocks (add_blocks ctx d) r = ctx_blocks ctx r ∪ ctx_blocks d r.
Proof.
  unfold ctx_blocks, add_blocks. rewrite lookup_union_with.
  destruct (ctx !! r), (d !! r); simpl; set_solver.
Qed.

Lemma ctx_blocks_delete (d : dump_context) r r' :
  ctx_blocks (delete r' d) r = if decide (r = r') then ∅ else ctx_blocks d r.
Proof.
  unfold ctx_blocks. rewrite lookup_delete.
  repeat case_decide; simplify_eq; done.
Qed.

(** ** One call at a time *)

Lemma submit_dump_agrees log store ctx ids sh ps h m w st' r :
  agrees log m →
  submit_dump store ctx ids sh ps h (m, w) = (st', r) →
  agrees (match r with Ok t => Submitted t ctx | Raise _ => Rejected ctx end :: log) st'.1.
Proof.
  intros (Hen & Hsub & Hfail & Hpend). unfold submit_dump. mred. rewrite Hen.
  destruct (store_dump_data store ids sh ps h w) as [w' [t|e]]; intros [= <- <-];
    split_and!; simpl; try done; intros; rewrite ?fmap_insert, ?ctx_blocks_add; simpl; congruence.
Qed.

Lemma wait_dump_agrees log t store ctx m w st' r :
  agrees log m →
  _dump_task_contexts m !! t = Some (store, ctx) →
  wait_dump t (m, w) = (st', r) →
  agrees (match (store_wait store t w).2 with Ok _ => Succeeded t | Raise _ => Failed t ctx end
          :: log) st'.1.
Proof.
  intros (Hen & Hsub & Hfail & Hpend) Ht. unfold wait_dump. mred. rewrite Ht. simpl.
  destruct (store_wait store t w) as [w' [[]|e]]; simpl;
    [|destruct (is_unhealthy e)]; intros [= <- <-];
    split_and!; simpl; try done; intros; rewrite ?fmap_delete, ?ctx_blocks_add; simpl; congruence.
Qed.

Lemma finish_fold_blocks l m r :
  ctx_blocks (_dump_blocks_by_request (foldl finish_one m l)) r =
    (if decide (r ∈ l) then ∅ else ctx_blocks (_dump_blocks_by_request m) r) ∧
  ctx_blocks (_dump_failed_blocks_by_request (foldl finish_one m l)) r =
    (if decide (r ∈ l) then ∅ else ctx_blocks (_dump_failed_blocks_by_request m) r) ∧
  _dump_task_contexts (foldl finish_one m l) = _dump_task_contexts m ∧
  enabled (foldl finish_one m l) = enabled m.
Proof.
  revert m. induction l as [|x l IH]; intros m; [done|]. cbn [foldl].
  destruct (IH (finish_one m x)) as (-> & -> & -> & ->). simpl.
  rewrite !ctx_blocks_delete. repeat case_decide; set_solver.
Qed.

(** What the loop of [finish_dump] adds to the report. *)
Lemma finish_fold_report l m b :
  NoDup l →
  b ∈ _dump_succeeded_blocks (foldl finish_one m l) ↔
  b ∈ _dump_succeeded_blocks m ∨
  ∃ r, r ∈ l ∧ b ∈ ctx_blocks (_dump_blocks_by_request m) r ∧
       b ∉ ctx_blocks (_dump_failed_blocks_by_request m) r.
Proof.
  revert m. induction l as [|x l IH]; intros m Hnd; [set_solver|].
  apply list.NoDup_cons in Hnd as [Hx Hnd]. cbn [foldl]. rewrite IH by done.
  cbn [finish_one set_dump_succeeded set_dump_accounts _dump_succeeded_blocks
       _dump_blocks_by_request _dump_failed_blocks_by_request].
  fold (ctx_blocks (_dump_blocks_by_request m) x).
  fold (ctx_blocks (_dump_failed_blocks_by_request m) x).
  setoid_rewrite ctx_blocks_delete. rewrite elem_of_union, elem_of_difference. split.
  - intros [[?|[? ?]]|(r & Hr & Hin)]; [by left|right; exists x; set_solver|].
    right. exists r. case_decide; set_solver.
  - intros [?|(r & [->|Hr]%elem_of_cons & Hin & Hout)]; [by do 2 left|left; by right|].
    right. exists r. rewrite !decide_False by (intros ->; done). done.
Qed.

Lemma finish_dump_inv ids m (w : W) st' :
  enabled m = true →
  finish_dump ids (m, w) = (st', Ok tt) →
  ids ∩ pending_request_ids m = ∅ ∧ st' = (foldl finish_one m (set_iter ids), w).
Proof.
  intros Hen. unfold finish_dump. mred. rewrite Hen. simpl.
  case_decide; intros [= <-]. done.
Qed.

Lemma finish_dump_agrees log ids m (w : W) st' :
  agrees log m →
  finish_dump ids (m, w) = (st', Ok tt) →
  agrees (Finished ids :: log) st'.1.
Proof.
  intros (Hen & Hsub & Hfail & Hpend) (_ & ->)%finish_dump_inv; [|done].
  assert (∀ r, r ∈ set_iter ids ↔ r ∈ ids) as Hit.
  { intros r. rewrite (set_iter_perm ids). apply elem_of_elements. }
  unfold agrees. cbn [fst log_submitted log_failed log_pending].
  split_and!; [| | |]; try intros r;
    destruct (finish_fold_blocks (set_iter ids) m ltac:(first [exact r|exact EmptyString]))
      as (Hb & Hf & Hc & He).
  - congruence.
  - rewrite Hb, Hsub. repeat case_decide; naive_solver.
  - rewrite Hf, Hfail. repeat case_decide; naive_solver.
  - congruence.
Qed.

(** Calls about loads and metadata leave the dump part alone. *)
Ltac frame_tac :=
  mred; repeat (case_match || (simplify_eq/=)); done.

Lemma submit_load_frame store ctx ids sh ps d m w st' r :
  submit_load store ctx ids sh ps d (m, w) = (st', r) → dump_part st'.1 = dump_part m.
Proof. unfold submit_load. intros. frame_tac. Qed.

Lemma wait_load_frame t wt m w st' r :
  wait_load t wt (m, w) = (st', r) → dump_part st'.1 = dump_part m.
Proof. unfold wait_load. intros. frame_tac. Qed.

Lemma check_load_frame t m w st' r :
  check_load t (m, w) = (st', r) → dump_part st'.1 = dump_part m.
Proof. unfold check_load. intros. frame_tac. Qed.

Lemma update_worker_meta_frame wm m (w : W) st' r :
  update_worker_meta wm (m, w) = (st', r) → dump_part st'.1 = dump_part m.
Proof. unfold update_worker_meta. intros. frame_tac. Qed.

Lemma finish_refused_frame ids m (w : W) st' e :
  finish_dump ids (m, w) = (st', Raise e) → st' = (m, w).
Proof. unfold finish_dump. intros. mred. repeat (case_match || (simplify_eq/=)); done. Qed.

Lemma wait_dump_unknown t m w st' r :
  _dump_task_contexts m !! t = None → wait_dump t (m, w) = (st', r) → st' = (m, w).
Proof. unfold wait_dump. mred. intros ->. intros; by simplify_eq. Qed.

Hint Resolve submit_load_frame wait_load_frame check_load_frame update_worker_meta_frame : ucm.

(** Every call keeps the manager in agreement with the log. *)
Lemma manager_step_agrees log st ev st' :
  agrees log st.1 → manager_step st ev st' → agrees (ev :: log) st'.1.
Proof.
  intros Hag Hstep. destruct Hstep as
    [store ctx ids sh ps h [m w] st' t Hs|store ctx ids sh ps h [m w] st' e Hs
    |t store ctx [m w] st' r Ht Hok Hs|t store ctx [m w] st' r e Ht Hok Hs
    |t [m w] st' r Ht Hs|ids [m w] st' Hs|ids [m w] st' e Hs
    |store ctx ids sh ps d [m w] st' r Hs|t wt [m w] st' r Hs|t [m w] st' r Hs
    |wm [m w] st' r Hs]; simpl in *.
  - by apply submit_dump_agrees with (log := log) in Hs.
  - by apply submit_dump_agrees with (log := log) in Hs.
  - eapply wait_dump_agrees in Hs; [|done..]. by rewrite Hok in Hs.
  - eapply wait_dump_agrees in Hs; [|done..]. by rewrite Hok in Hs.
  - apply wait_dump_unknown in Hs as ->; done.
  - by eapply finish_dump_agrees.
  - by apply finish_refused_frame in Hs as ->.
  - apply (agrees_dump_part log m); [eauto with ucm|done].
  - apply (agrees_dump_part log m); [eauto with ucm|done].
  - apply (agrees_dump_part log m); [eauto with ucm|done].
  - apply (agrees_dump_part log m); [eauto with ucm|done].
Qed.

Lemma manager_run_agrees w0 log st : manager_run w0 log st → agrees log st.1.
Proof. induction 1; [done|]. by eapply manager_step_agrees. Qed.

Lemma not_pending ids m t store ctx r :
  ids ∩ pending_request_ids m = ∅ →
  _dump_task_contexts m !! t = Some (store, ctx) → r ∈ ids → ctx !! r = None.
Proof.
  intros Hdisj Ht Hr. apply not_elem_of_dom. intros Hdom.
  assert (r ∈ ids ∩ pending_request_ids m) as Hbad; [|by rewrite Hdisj in Hbad].
  apply elem_of_intersection. split; [done|].
  apply elem_of_union_list. exists (dom ctx). split; [|done].
  apply list_elem_of_fmap. exists (t, (store, ctx)). split; [done|].
  by apply elem_of_map_to_list.
Qed.

End runs.

(** ** A concrete run

    Two dumps of request [r]: the first is accepted and its wait fails, the
    second is accepted and completes. *)

Definition ex_ctx (b : string) : dump_context := {["r"%string := {[b]}]}.

Definition ex_dump_world : RefStore := mkRefStore ∅ ∅ ∅ [(1, StoreError)] None.

Definition ex_st0 : RankConsistencyManager * RefStore :=
  (RankConsistencyManager_init false true, ex_dump_world).
Definition ex_st1 := (submit_dump 0 (ex_ctx "a") ["a"%string] [0] [] 0 ex_st0).1.
Definition ex_st2 := (submit_dump 0 (ex_ctx "b") ["b"%string] [0] [] 0 ex_st1).1.
Definition ex_st3 := (wait_dump 1 ex_st2).1.
Definition ex_st4 := (wait_dump 2 ex_st3).1.
Definition ex_st5 := (finish_dump {["r"%string]} ex_st4).1.

Definition ex_log : list dump_event :=
  [Succeeded 2; Failed 1 (ex_ctx "a"); Submitted 2 (ex_ctx "b"); Submitted 1 (ex_ctx "a")].

Lemma ex_run : manager_run ex_dump_world ex_log (ex_st4.1, ex_st4.2).
Proof.
  apply (run_step _ _ ex_st3); [apply (run_step _ _ ex_st2); [apply (run_step _ _ ex_st1);
    [apply (run_step _ _ ex_st0); [apply run_start|]|]|]|].
  - apply (step_submit 0 (ex_ctx "a") ["a"%string] [0] [] 0). vm_compute. reflexivity.
  - apply (step_submit 0 (ex_ctx "b") ["b"%string] [0] [] 0). vm_compute. reflexivity.
  - apply (step_wait_fail 1 0 (ex_ctx "a") _ _ (Raise StoreError) StoreError);
      vm_compute; reflexivity.
  - apply (step_wait_ok 2 0 (ex_ctx "b") _ _ (Ok tt)); vm_compute; reflexivity.
Defined.

