(* ===== verification/RequestHasher.v ===== *)
(** * Block hashes

    Model of src/ucm/integration/vllm/request_hasher.py (the chained hash of a
    request's token blocks) and of the cache namespace built by
    [build_kv_hash_meta] in src/ucm/integration/vllm/ucm_connector.py.

    Parameters: [md5] (hashlib), [pickle_dumps] (pickle), and vLLM's optional
    [generate_block_hash_extra_keys]. *)

From Stdlib Require Import ZArith Lia Ascii String.
From stdpp Require Import base list gmap strings pretty numbers.
From S2P Require Import Prelude.
Local Open Scope Z_scope.

(** ** Requests *)

Inductive RequestStatus := WAITING | RUNNING | PREEMPTED | FINISHED.

#[export] Instance RequestStatus_eq_dec : EqDecision RequestStatus.
Proof. solve_decision. Defined.

(** The attributes of a vLLM request that the connectors read. *)
Record Request := mkRequest {
  request_id : req_id;
  status : RequestStatus;
  all_token_ids : list Z;
  num_tokens : Z;
  num_prompt_tokens : Z;
  mm_features : list string;
  lora_request : option string;
  cache_salt : option string;
  prompt_embeds : option string;
}.

(** ** The namespace of a cache *)

Record SpeculativeConfig := mkSpec { sc_method : option string; num_speculative_tokens : Z }.

Record VllmConfig := mkVllmConfig {
  vc_model : string;
  vc_tensor_parallel_size : Z;
  vc_dtype : string;
  vc_speculative_config : option SpeculativeConfig;
  vc_cache_dtype : option string;
  vc_indexer_kv_dtype : option string;
  vc_enable_sparse_sfa_c8 : bool;
  vc_enable_sparse_li_c8 : bool;
  vc_decode_context_parallel_size : Z;
}.

Definition is_c8_dtype (d : option string) : bool :=
  bool_decide (d = Some "int8"%string) || bool_decide (d = Some "fp8"%string).

Definition _get_sparse_c8_flags (vc : VllmConfig) : bool * bool :=
  (is_c8_dtype (vc_cache_dtype vc) || vc_enable_sparse_sfa_c8 vc,
   is_c8_dtype (vc_indexer_kv_dtype vc) || vc_enable_sparse_li_c8 vc).

Definition slash : Ascii.ascii := "/"%char.

(** [s.rstrip("/")] on the characters of [s], given in reverse. *)
Fixpoint drop_slashes (l : list Ascii.ascii) : list Ascii.ascii :=
  match l with
  | c :: r => if decide (c = slash) then drop_slashes r else l
  | [] => []
  end.

(** The characters up to the first slash. *)
Fixpoint until_slash (l : list Ascii.ascii) : list Ascii.ascii :=
  match l with
  | c :: r => if decide (c = slash) then [] else c :: until_slash r
  | [] => []
  end.

(** [s.rstrip("/").split("/")[-1]]. *)
Definition model_base_name (s : string) : string :=
  String.string_of_list_ascii
    (reverse (until_slash (drop_slashes (reverse (String.list_ascii_of_string s))))).

Definition bool_digit (b : bool) : string := if b then "1" else "0".

(** [layout_digest] is the result of [_layout_source_digest]. *)
Definition build_kv_hash_meta (layout_digest : string) (vc : VllmConfig) (rank_id : Z) : string :=
  let spec_info :=
    match vc_speculative_config vc with
    | None => ""%string
    | Some sc =>
        (":" +:+ default ""%string (sc_method sc) +:+ ":" +:+ pretty (num_speculative_tokens sc))%string
    end in
  let '(sparse_sfa_c8, sparse_li_c8) := _get_sparse_c8_flags vc in
  let sparse_c8_info :=
    (":sfa_c8=" +:+ bool_digit sparse_sfa_c8 +:+ ":li_c8=" +:+ bool_digit sparse_li_c8)%string in
  let model_name := model_base_name (vc_model vc) in
  let dcp_info := (":dcp=" +:+ pretty (vc_decode_context_parallel_size vc))%string in
  let layout_info := (":layout=" +:+ layout_digest)%string in
  (model_name +:+ ":" +:+ pretty (vc_tensor_parallel_size vc) +:+ ":" +:+ vc_dtype vc +:+ ":"
   +:+ pretty rank_id +:+ spec_info +:+ sparse_c8_info +:+ dcp_info +:+ layout_info)%string.

(** ** The hasher *)

(** What [RequestHasher.__call__] is applied to: bytes are hashed as they are,
    other values through [pickle]. *)
Inductive pickled {X : Type} :=
| PStr (s : string)
| PBlock (parent : bytes) (tokens : list Z) (extra_keys : option X)
| PGroupSeed (base_seed : bytes) (group_id : Z)
    (* (b"UCM_GROUP_SEED", base_seed, group_id) *)
| PState (group_seed : bytes) (seq_len : Z) (prefix_hash : bytes)
    (* (seed, b"UCM_MAMBA_ALIGN_STATE", seq_len, prefix_hash) *)
| PChunk (width : Z) (dtype : string) (rows_per_chunk : Z) (identifier : string) (num_embeds chunk_index : Z).
Arguments pickled : clear implicits.

Section hasher.
Context {X : Type}.
Variable md5 : bytes → bytes.
Variable pickle_dumps : pickled X → bytes.
(** [generate_block_hash_extra_keys(request, start, end, mm_idx)], [None] when
    the installed vLLM does not have it. *)
Variable generate_block_hash_extra_keys :
  option (Request → Z → Z → Z → outcome (option X * Z)).

Record RequestHasher := mkHasher { meta_bytes : bytes; seed : bytes }.

(** [self(input_data)] on bytes, and on any other value. *)
Definition call_bytes (meta : bytes) (input_data : bytes) : bytes :=
  md5 (meta +:+ input_data)%string.
Definition call_object (meta : bytes) (input_data : pickled X) : bytes :=
  md5 (meta +:+ pickle_dumps input_data)%string.

Definition RequestHasher_init (meta : string) : RequestHasher :=
  mkHasher meta (call_object meta (PStr "UCM_HASH_SEED")).

Definition _request_has_extra_hash_semantics (request : Request) : bool :=
  negb (bool_decide (mm_features request = []))
  || negb (bool_decide (lora_request request = None))
  || match cache_salt request with Some s => negb (bool_decide (s = ""%string)) | None => false end
  || negb (bool_decide (prompt_embeds request = None)).

Definition _validate_request_hash_semantics (request : Request) : outcome unit :=
  match generate_block_hash_extra_keys with
  | None => if _request_has_extra_hash_semantics request then Raise RequestHashError else Ok tt
  | Some _ => Ok tt
  end.

Definition _generate_extra_keys (request : Request) (start_token_idx end_token_idx start_mm_idx : Z) :
    outcome (option X * Z) :=
  match generate_block_hash_extra_keys with
  | None => Ok (None, start_mm_idx)
  | Some gen =>
      match gen request start_token_idx end_token_idx start_mm_idx with
      | Ok r => Ok r
      | Raise _ => Raise RequestHashError
      end
  end.

(** The loop over [range(0, len(token_ids), block_size)]. *)
Fixpoint hash_loop (h : RequestHasher) (request : Request) (block_size : Z)
    (parent : bytes) (curr_mm_idx : Z) (starts : list Z) : outcome (list bytes) :=
  match starts with
  | [] => Ok []
  | start :: rest =>
      let end_ := start + block_size in
      if zlen (all_token_ids request) <? end_ then Ok []
      else
        p ← _generate_extra_keys request start end_ curr_mm_idx;
        let parent' :=
          call_object (meta_bytes h)
            (PBlock parent (py_slice start end_ (all_token_ids request)) p.1) in
        hashes ← hash_loop h request block_size parent' p.2 rest;
        Ok (parent' :: hashes)
  end.

Definition hash_request (h : RequestHasher) (block_size : Z) (root : bytes) (request : Request) :
    outcome (list bytes) :=
  _validate_request_hash_semantics request ;;
  hash_loop h request block_size root 0 (py_range_step (zlen (all_token_ids request)) block_size).

Definition make_request_block_hasher (h : RequestHasher) (block_size : Z)
    (initial_hash : option bytes) : outcome (Request → outcome (list bytes)) :=
  if block_size <=? 0 then Raise ValueError
  else
    let root := default (seed h) initial_hash in
    Ok (hash_request h block_size root).

(** ** Reference definition

    The KV-affecting content of a block is its tokens and extra keys; a
    request's hashes are the chain over the contents of its full blocks. *)

Fixpoint block_inputs (request : Request) (block_size mm i : Z) (n : nat) :
    outcome (list (list Z * option X)) :=
  match n with
  | O => Ok []
  | S n' =>
      p ← _generate_extra_keys request (i * block_size) (i * block_size + block_size) mm;
      rest ← block_inputs request block_size p.2 (i + 1) n';
      Ok ((py_slice (i * block_size) (i * block_size + block_size) (all_token_ids request), p.1)
          :: rest)
  end.

Fixpoint chain (meta parent : bytes) (ins : list (list Z * option X)) : list bytes :=
  match ins with
  | [] => []
  | (tokens, extra) :: rest =>
      let p := call_object meta (PBlock parent tokens extra) in p :: chain meta p rest
  end.

Definition full_blocks (request : Request) (block_size : Z) : Z :=
  zlen (all_token_ids request) / block_size.

Definition request_contents (request : Request) (block_size : Z) :
    outcome (list (list Z * option X)) :=
  _validate_request_hash_semantics request ;;
  block_inputs request block_size 0 0 (Z.to_nat (full_blocks request block_size)).

(** The byte strings given to md5 along a chain. *)
Fixpoint messages (meta parent : bytes) (ins : list (list Z * option X)) : list bytes :=
  match ins with
  | [] => []
  | (tokens, extra) :: rest =>
      (meta +:+ pickle_dumps (PBlock parent tokens extra))%string ::
      messages meta (call_object meta (PBlock parent tokens extra)) rest
  end.

(** No two of these strings collide. *)
Definition collision_free (l : list bytes) : Prop :=
  ∀ x y, x ∈ l → y ∈ l → md5 x = md5 y → x = y.

Lemma hash_loop_chain h request block_size parent mm (k m : nat) :
  0 < block_size →
  full_blocks request block_size ≤ Z.of_nat (k + m) →
  hash_loop h request block_size parent mm ((λ i : nat, Z.of_nat i * block_size) <$> seq k m) =
  (ins ← block_inputs request block_size mm (Z.of_nat k)
           (Z.to_nat (full_blocks request block_size) - k);
   Ok (chain (meta_bytes h) parent ins)).
Proof.
  intros Hbs. unfold full_blocks. set (n := zlen (all_token_ids request)).
  pose proof (zlen_nonneg (all_token_ids request)) as Hn. fold n in Hn.
  assert (0 ≤ n / block_size) by (apply Z.div_pos; lia).
  revert parent mm k. induction m as [|m IH]; intros parent mm k Hm; simpl.
  { by replace (Z.to_nat (n / block_size) - k)%nat with 0%nat by lia. }
  fold n. destruct (Z.ltb_spec n (Z.of_nat k * block_size + block_size)) as [Hlt|Hge].
  - assert (n / block_size < Z.of_nat k + 1) by (apply Z.div_lt_upper_bound; lia).
    by replace (Z.to_nat (n / block_size) - k)%nat with 0%nat by lia.
  - assert (Z.of_nat k + 1 ≤ n / block_size) by (apply Z.div_le_lower_bound; lia).
    replace (Z.to_nat (n / block_size) - k)%nat
      with (S (Z.to_nat (n / block_size) - S k)) by lia.
    simpl. unfold mbind, outcome_bind.
    destruct (_generate_extra_keys request _ _ mm) as [[ex mm']|e]; [|done]. simpl.
    rewrite IH by lia. replace (Z.of_nat (S k)) with (Z.of_nat k + 1) by lia.
    unfold mbind, outcome_bind.
    by destruct (block_inputs request block_size mm' (Z.of_nat k + 1) _).
Qed.

Lemma length_chain meta parent ins : length (chain meta parent ins) = length ins.
Proof. revert parent. induction ins as [|[t e] ins IH]; intros parent; simpl; auto. Qed.

Lemma length_block_inputs request block_size mm i n ins :
  block_inputs request block_size mm i n = Ok ins → length ins = n.
Proof.
  revert mm i ins. induction n as [|n IH]; intros mm i ins; simpl; [by intros [= <-]|].
  unfold mbind, outcome_bind. case_match; [|done]. case_match eqn:Hb; [|done].
  intros [= <-]. simpl. f_equal. by eapply IH.
Qed.

Lemma block_inputs_tokens request block_size mm i n ins (j : nat) :
  0 < block_size → 0 ≤ i →
  block_inputs request block_size mm i n = Ok ins →
  (j ≤ n)%nat →
  concat (take j ins).*1 = py_slice (i * block_size) ((i + Z.of_nat j) * block_size) (all_token_ids request).
Proof.
  intros Hbs. revert mm i ins j. induction n as [|n IH]; intros mm i ins j Hi; simpl.
  { intros [= <-] ?. replace j with 0%nat by lia. by rewrite py_slice_empty by nia. }
  unfold mbind, outcome_bind. case_match; [|done]. case_match eqn:Hb; [|done].
  intros [= <-] Hj. destruct j as [|j]; csimpl; [by rewrite py_slice_empty by nia|].
  erewrite (IH _ (i + 1) _ j); [|lia|exact Hb|lia].
  replace ((i + 1) * block_size) with (i * block_size + block_size) by lia.
  rewrite py_slice_app by nia. f_equal. lia.
Qed.

Lemma chain_take meta parent ins1 ins2 (k : nat) :
  take k ins1 = take k ins2 → take k (chain meta parent ins1) = take k (chain meta parent ins2).
Proof.
  revert parent ins1 ins2. induction k as [|k IH]; intros parent ins1 ins2; [done|].
  destruct ins1 as [|[t1 e1] ins1], ins2 as [|[t2 e2] ins2]; simpl; try done.
  intros [= -> -> Htk]. f_equal. by apply IH.
Qed.

Lemma hash_request_eq h block_size root request :
  0 < block_size →
  hash_request h block_size root request =
    (ins ← request_contents request block_size; Ok (chain (meta_bytes h) root ins)).
Proof.
  intros Hbs. unfold hash_request, request_contents, py_range_step, ceil_div.
  rewrite hash_loop_chain; [|done|].
  - unfold mbind, outcome_bind. rewrite Nat.sub_0_r.
    by destruct (_validate_request_hash_semantics request).
  - unfold full_blocks. pose proof (zlen_nonneg (all_token_ids request)).
    rewrite Nat.add_0_l, Z2Nat.id by (apply Z.div_pos; lia). apply Z.div_le_mono; lia.
Qed.

(** One hash per full block. *)
Lemma hash_request_length h block_size root request hashes :
  0 < block_size → hash_request h block_size root request = Ok hashes →
  zlen hashes = zlen (all_token_ids request) / block_size.
Proof.
  intros Hbs. rewrite hash_request_eq by done.
  unfold request_contents, mbind, outcome_bind.
  destruct (_validate_request_hash_semantics request); [|done].
  case_match eqn:Hb; [|done]. intros [= <-].
  apply length_block_inputs in Hb. unfold zlen at 1. rewrite length_chain, Hb.
  apply Z2Nat.id, Z.div_pos; [apply zlen_nonneg|done].
Qed.

(** The hashes of a request are the chain over the contents of its
    [len(all_token_ids) // block_size] full blocks, rooted at [root]: the
    early-exit loop over token offsets computes exactly that, with the same
    exceptions, and yields one hash per full block. *)
Theorem hash_request_chain h block_size root request :
  0 < block_size →
  hash_request h block_size root request =
    (ins ← request_contents request block_size; Ok (chain (meta_bytes h) root ins)) ∧
  (∀ hashes, hash_request h block_size root request = Ok hashes →
     zlen hashes = zlen (all_token_ids request) / block_size).
Proof.
  intros Hbs. split; [by apply hash_request_eq|]. intros hashes. by apply hash_request_length.
Qed.

Section binding.
(** [pickle.loads] recovers the value. *)
Hypothesis pickle_inj : ∀ v1 v2, pickle_dumps v1 = pickle_dumps v2 → v1 = v2.

Lemma chain_binds meta p1 p2 ins1 ins2 (i : nat) x :
  collision_free (messages meta p1 ins1 ++ messages meta p2 ins2) →
  chain meta p1 ins1 !! i = Some x → chain meta p2 ins2 !! i = Some x →
  p1 = p2 ∧ take (S i) ins1 = take (S i) ins2.
Proof.
  assert (∀ t1 e1 r1 t2 e2 r2 p1 p2,
    collision_free (messages meta p1 ((t1, e1) :: r1) ++ messages meta p2 ((t2, e2) :: r2)) →
    call_object meta (PBlock p1 t1 e1) = call_object meta (PBlock p2 t2 e2) →
    p1 = p2 ∧ t1 = t2 ∧ e1 = e2) as Hobj.
  { intros * Hcf Hmd. apply Hcf in Hmd; [|set_solver..].
    apply (inj (String.append meta)), pickle_inj in Hmd. naive_solver. }
  revert p1 p2 ins1 ins2. induction i as [|i IH]; intros p1 p2 ins1 ins2 Hcf;
    destruct ins1 as [|[t1 e1] ins1], ins2 as [|[t2 e2] ins2]; try done.
  - intros [= <-] [= Hc]. by destruct (Hobj _ _ _ _ _ _ _ _ Hcf (eq_sym Hc)) as (-> & -> & ->).
  - intros H1 H2. edestruct IH as [Hp Htk]; [|exact H1|exact H2|].
    + intros y z Hy Hz. apply Hcf; set_solver.
    + destruct (Hobj _ _ _ _ _ _ _ _ Hcf Hp) as (-> & -> & ->).
      split; [done|]. cbn [take]. by f_equal.
Qed.

(** Equal hashes mean equal prefixes, in a form that other proofs can use. *)
Lemma hash_prefix_binds h block_size root r1 r2 l1 l2 ins1 ins2 (i : nat) x1 x2 :
  0 < block_size →
  hash_request h block_size root r1 = Ok l1 →
  hash_request h block_size root r2 = Ok l2 →
  request_contents r1 block_size = Ok ins1 →
  request_contents r2 block_size = Ok ins2 →
  collision_free (messages (meta_bytes h) root ins1 ++ messages (meta_bytes h) root ins2) →
  l1 !! i = Some x1 → l2 !! i = Some x2 →
  (x1 = x2 ↔ take (S i) ins1 = take (S i) ins2) ∧
  (x1 = x2 →
   py_slice 0 (Z.of_nat (S i) * block_size) (all_token_ids r1) =
   py_slice 0 (Z.of_nat (S i) * block_size) (all_token_ids r2)).
Proof.
  intros Hbs H1 H2 Hi1 Hi2 Hcf.
  rewrite (hash_request_eq h block_size root r1 Hbs), Hi1 in H1.
  rewrite (hash_request_eq h block_size root r2 Hbs), Hi2 in H2.
  simplify_eq/=. intros Hx1 Hx2.
  assert (x1 = x2 → take (S i) ins1 = take (S i) ins2) as Hbind.
  { intros <-. by destruct (chain_binds _ _ _ _ _ _ _ Hcf Hx1 Hx2). }
  split; [split; [done|]|].
  - intros Htk. apply (chain_take (meta_bytes h) root) in Htk.
    apply (f_equal (.!! i)) in Htk. rewrite !lookup_take_lt in Htk by lia. congruence.
  - intros Htk%Hbind.
    unfold request_contents, mbind, outcome_bind in Hi1, Hi2.
    destruct (_validate_request_hash_semantics r1); [|done].
    destruct (_validate_request_hash_semantics r2); [|done].
    apply lookup_lt_Some in Hx1, Hx2. rewrite length_chain in Hx1, Hx2.
    pose proof (length_block_inputs _ _ _ _ _ _ Hi1).
    pose proof (length_block_inputs _ _ _ _ _ _ Hi2).
    pose proof (block_inputs_tokens _ _ _ _ _ _ (S i) Hbs (Z.le_refl 0) Hi1) as T1.
    pose proof (block_inputs_tokens _ _ _ _ _ _ (S i) Hbs (Z.le_refl 0) Hi2) as T2.
    rewrite Z.mul_0_l, Z.add_0_l in T1, T2.
    rewrite <- T1, <- T2 by lia. by rewrite Htk.
Qed.

(** C4 A block hash identifies everything the block's KV depends on: for
    two requests hashed in one namespace, as long as md5 does not collide
    on the strings hashed for them, the hashes at position [i] are equal
    exactly when the contents (tokens and extra keys) of the first [i + 1]
    blocks are.  In particular equal hashes mean equal token prefixes. *)
Theorem equal_hash_equal_prefix h block_size root r1 r2 l1 l2 ins1 ins2 (i : nat) x1 x2 :
  0 < block_size →
  hash_request h block_size root r1 = Ok l1 →
  hash_request h block_size root r2 = Ok l2 →
  request_contents r1 block_size = Ok ins1 →
  request_contents r2 block_size = Ok ins2 →
  collision_free (messages (meta_bytes h) root ins1 ++ messages (meta_bytes h) root ins2) →
  l1 !! i = Some x1 → l2 !! i = Some x2 →
  (x1 = x2 ↔ take (S i) ins1 = take (S i) ins2) ∧
  (x1 = x2 →
   py_slice 0 (Z.of_nat (S i) * block_size) (all_token_ids r1) =
   py_slice 0 (Z.of_nat (S i) * block_size) (all_token_ids r2)).
Proof. apply hash_prefix_binds. Qed.
End binding.

(** A request whose KV depends on more than its tokens (multimodal
    features, LoRA, a cache salt, prompt embeddings) is never hashed by its
    tokens alone: without vLLM's key generator hashing it raises
    [RequestHashError], and an exception of the generator becomes one too. *)
Theorem extra_semantics_not_ignored h block_size root request :
  0 < block_size →
  match generate_block_hash_extra_keys with
  | None =>
      hash_request h block_size root request = Raise RequestHashError ↔
      mm_features request ≠ [] ∨ lora_request request ≠ None ∨
      (∃ s, cache_salt request = Some s ∧ s ≠ ""%string) ∨ prompt_embeds request ≠ None
  | Some _ => ∀ e, hash_request h block_size root request = Raise e → e = RequestHashError
  end.
Proof.
  intros Hbs. rewrite (hash_request_eq h block_size root request Hbs). unfold request_contents, _validate_request_hash_semantics.
  generalize (Z.to_nat (full_blocks request block_size)). intros n.
  destruct generate_block_hash_extra_keys as [gen|] eqn:Hgen.
  - unfold mbind, outcome_bind. intros e. case_match eqn:Hb; [done|]. intros [= <-].
    revert Hb. generalize 0 at 1. generalize 0. induction n as [|n IH]; intros i mm; [done|].
    simpl. unfold mbind, outcome_bind, _generate_extra_keys at 1. rewrite Hgen.
    destruct (gen _ _ _ _); [|congruence].
    case_match eqn:Hr; [done|]. intros [= <-]. by eapply IH.
  - assert (∃ ins, block_inputs request block_size 0 0 n = Ok ins) as [ins Hins].
    { generalize 0 at 1. generalize 0. induction n as [|n IH]; intros i mm; [by eexists|].
      simpl. unfold mbind, outcome_bind, _generate_extra_keys at 1. rewrite Hgen. simpl.
      destruct (IH (i + 1) mm) as [ins ->]. by eexists. }
    unfold mbind, outcome_bind, _request_has_extra_hash_semantics. rewrite Hins.
    destruct (mm_features request) eqn:?, (lora_request request) eqn:?,
      (cache_salt request) as [salt|] eqn:?, (prompt_embeds request) eqn:?;
      repeat case_bool_decide; simpl; naive_solver.
Qed.
End hasher.

(** ** Ranks do not share keys *)

#[local] Arguments String.append !_ _ / : simpl nomatch.

Lemma string_length_app (a b : string) :
  String.length (a +:+ b)%string = (String.length a + String.length b)%nat.
Proof. induction a as [|c a IH]; simpl; congruence. Qed.

Lemma string_app_inv_length (a b c d : string) :
  String.length b = String.length d →
  (a +:+ b = c +:+ d)%string → a = c ∧ b = d.
Proof.
  intros Hlen. revert c. induction a as [|x a IH]; intros [|y c]; simpl; intros Heq.
  - done.
  - apply (f_equal String.length) in Heq. simpl in Heq. rewrite string_length_app in Heq. lia.
  - apply (f_equal String.length) in Heq. simpl in Heq. rewrite string_length_app in Heq. lia.
  - injection Heq as -> Heq. apply IH in Heq as [-> ->]. done.
Qed.

Lemma string_app_inv_r (a b c : string) : (a +:+ c = b +:+ c)%string → a = b.
Proof. intros Heq. by apply string_app_inv_length in Heq as [? _]. Qed.

Lemma build_kv_hash_meta_inj digest vc rank1 rank2 :
  build_kv_hash_meta digest vc rank1 = build_kv_hash_meta digest vc rank2 → rank1 = rank2.
Proof.
  unfold build_kv_hash_meta. destruct (_get_sparse_c8_flags vc) as [c1 c2]. intros Heq.
  do 5 (apply (inj (String.append _)) in Heq).
  apply (inj (String.append _)) in Heq.
  apply string_app_inv_r in Heq. by apply (inj pretty).
Qed.

(** The keys two tensor-parallel ranks of one deployment use for rank-0
    block ids of equal length (all digests have the same length) are equal only
    if rank and block are the same, as long as md5 does not collide on the two
    strings hashed: a rank never reads another rank's shard. *)
Theorem rank_keys_separated md5 digest vc rank1 rank2 (k1 k2 : bytes) :
  String.length k1 = String.length k2 →
  collision_free md5 [(build_kv_hash_meta digest vc rank1 +:+ k1)%string;
                      (build_kv_hash_meta digest vc rank2 +:+ k2)%string] →
  call_bytes md5 (build_kv_hash_meta digest vc rank1) k1 =
  call_bytes md5 (build_kv_hash_meta digest vc rank2) k2 ↔
  rank1 = rank2 ∧ k1 = k2.
Proof.
  unfold call_bytes. intros Hlen Hcf. split; [|by intros [-> ->]].
  intros E%Hcf; [|set_solver..].
  apply string_app_inv_length in E as [E ->]; [|done].
  by apply build_kv_hash_meta_inj in E.
Qed.

(** ** Concrete hashes

    [md5] replaced by the identity and [pickle] by an injective encoding. *)

Definition ex_pickle (v : pickled string) : string :=
  pretty (encode (match v with
                  | PStr s => inl (inl s)
                  | PBlock p t e => inr (inl (p, t, e))
                  | PGroupSeed b g => inl (inr (b, g))
                  | PState g n h => inr (inr (inl (g, n, h)))
                  | PChunk w d r i n k => inr (inr (inr (w, d, r, i, n, k)))
                  end : (string + string * Z)
                        + (string * list Z * option string
                           + (string * Z * string + Z * string * Z * string * Z * Z)))).

Lemma ex_pickle_inj v1 v2 : ex_pickle v1 = ex_pickle v2 → v1 = v2.
Proof.
  unfold ex_pickle. intros Heq%(inj pretty)%(inj encode).
  destruct v1, v2; simplify_eq; done.
Qed.

Definition ex_request (tokens : list Z) : Request :=
  mkRequest "r" WAITING tokens (zlen tokens) (zlen tokens) [] None None None.

Definition ex_hasher : RequestHasher := RequestHasher_init (λ s, s) ex_pickle "m".

Definition ex_hash12 : string :=
  call_object (λ s, s) ex_pickle "m" (PBlock "root" [1; 2] None).

Lemma equal_hash_equal_prefix_witness :
  hash_request (λ s, s) ex_pickle None ex_hasher 2 "root" (ex_request [1; 2; 3]) = Ok [ex_hash12] ∧
  (ex_hash12 = ex_hash12 →
   py_slice 0 (Z.of_nat 1 * 2) [1; 2; 3] = py_slice 0 (Z.of_nat 1 * 2) [1; 2; 4]).
Proof.
  split; [vm_compute; reflexivity|].
  apply (equal_hash_equal_prefix (λ s, s) ex_pickle None ex_pickle_inj ex_hasher 2 "root"
           (ex_request [1; 2; 3]) (ex_request [1; 2; 4]) [ex_hash12] [ex_hash12]
           [([1; 2], None)] [([1; 2], None)] 0);
    try (vm_compute; reflexivity). by intros x y.
Defined.
