(* ===== verification/DirectScheduler.v ===== *)
(** * Scheduler side of the direct connector

    Model of the scheduler half of [UCMDirectConnector]
    (src/ucm/integration/vllm/ucm_connector.py): matching a request against the
    external store, planning its loads and dumps, and following its life.

    A method runs on the connector's scheduler state together with the rank
    consistency manager and the stores.  Logging, traces and metrics are left
    out. *)

From Stdlib Require Import ZArith Lia.
From stdpp Require Import base list gmap strings numbers fin_sets.
From S2P Require Import Prelude.
From S2P Require Import Store.
From S2P Require Import RankConsistency.
From S2P Require Import RequestHasher.
Local Open Scope Z_scope.

(** ** Data *)

Record RequestMeta := mkRequestMeta {
  ucm_block_ids : list bytes;
  hbm_hit_block_num : Z;
  total_hit_block_num : Z;
  num_token_ids : Z;
  vllm_block_ids : list Z;
  token_processed : Z;
}.

Record RequestDispatchMeta := mkDispatchMeta {
  load_block_ids : list bytes * list Z;
  dump_block_ids : list bytes * list Z;
  dump_block_start : Z;
  load_async : bool;
}.

Record UCMConnectorMetadata := mkConnectorMetadata {
  request_meta : list (req_id * RequestDispatchMeta);
  preempted_req_ids : gset string;
}.

(** What the constructor fixes. *)
Record SchedulerConfig := mkSchedulerConfig {
  block_size : Z;                         (* tokens per block, over all CP ranks *)
  cp_world_size : Z;                      (* hashes per block *)
  persist_token_threshold : Z;
  use_request_async_load : bool;
  use_layerwise : bool;
  speculative_tokens : option (option Z); (* [speculative_config], its token count as an int *)
  store : store_id;
  request_block_hasher : Request → outcome (list bytes);
  _other_rank_hashers : list (bytes → bytes);
}.

Record SchedulerState := mkScheduler {
  requests_meta : gmap string RequestMeta;
  _pending_async_load_dispatches : list (req_id * RequestDispatchMeta);
  _async_load_req_ids : gset string;
  _async_dump_req_ids : gset string;
}.

Definition SchedulerState_init : SchedulerState := mkScheduler ∅ [] ∅ ∅.

Definition set_requests_meta v (s : SchedulerState) :=
  mkScheduler v (_pending_async_load_dispatches s) (_async_load_req_ids s) (_async_dump_req_ids s).
Definition set_async_loads p ids (s : SchedulerState) :=
  mkScheduler (requests_meta s) p ids (_async_dump_req_ids s).
Definition set_async_dumps v (s : SchedulerState) :=
  mkScheduler (requests_meta s) (_pending_async_load_dispatches s) (_async_load_req_ids s) v.

(** vLLM's [SchedulerOutput]. *)
Record NewRequestData := mkNewRequest { nr_req_id : req_id; nr_block_ids : list (list Z) }.

Inductive resumed_info :=
| resumed_from_preemption (flags : list bool)
| resumed_req_ids (ids : gset string).

Inductive cached_requests :=
| CachedRequestData (req_ids : list req_id) (new_block_ids : list (option (list (list Z))))
    (resumed : resumed_info)
| CachedRequestList (reqs : list (req_id * list (list Z) * bool)).

Record SchedulerOutput := mkSchedulerOutput {
  scheduled_new_reqs : list NewRequestData;
  scheduled_cached_reqs : cached_requests;
  num_scheduled_tokens : gmap string Z;
  finished_req_ids : gset string;
  so_preempted_req_ids : option (gset string);
}.

(** [l[i]] on a list, [d[k]] on a dictionary. *)
Definition py_index {S A} (l : list A) (i : nat) : M S A :=
  match l !! i with Some x => mret x | None => raise IndexError end.
Definition py_key {S V} (d : gmap string V) (k : string) : M S V :=
  match d !! k with Some x => mret x | None => raise KeyError end.

(** ** Matching a request *)

Definition _get_full_hit_recompute_tokens (cfg : SchedulerConfig) : Z :=
  if negb (use_layerwise cfg) then 1
  else
    match speculative_tokens cfg with
    | None => 2
    | Some spec_token_num => Z.max (default 0 spec_token_num) 0 + 2
    end.

Section scheduler.
Context {W : Type} `{StoreWorld W} `{PySetOrder}.
Variable cfg : SchedulerConfig.

Abbreviation state := (SchedulerState * (RankConsistencyManager * W))%type.

Definition on_sched (f : SchedulerState → SchedulerState) : M state unit :=
  modify (λ s, (f s.1, s.2)).
Definition on_rc {A} (m : M (RankConsistencyManager * W) A) : M state A :=
  zoom snd (λ r s, (s.1, r)) m.

Definition _prefetch_all_rank_hashes (rank0_block_ids : list bytes) : M W unit :=
  if bool_decide (rank0_block_ids = []) then mret tt
  else
    store_prefetch (store cfg) rank0_block_ids ;;
    let other_rank_block_ids :=
      rank_hasher ← _other_rank_hashers cfg; (λ block_id, rank_hasher block_id) <$> rank0_block_ids in
    if bool_decide (other_rank_block_ids = []) then mret tt
    else store_prefetch (store cfg) other_rank_block_ids.

Definition _prefetch_direct_hit_key_hotness (hbm_hit_block_ids all_hit_block_ids : list bytes) :
    M W unit :=
  (if bool_decide (hbm_hit_block_ids = []) then mret tt
   else try_except (store_prefetch (store cfg) hbm_hit_block_ids) (λ _, mret tt)) ;;
  (if bool_decide (all_hit_block_ids = []) then mret tt
   else try_except (_prefetch_all_rank_hashes all_hit_block_ids) (λ _, mret tt)).

(** A lookup whose exception is logged and counted. *)
Definition try_lookup (block_ids : list bytes) : M (RankConsistencyManager * W) (option Z) :=
  try_except (r ← lookup_on_prefix (store cfg) block_ids; mret (Some r)) (λ _, mret None).

(** The lookup of [get_num_new_matched_tokens]: where it starts, the retry
    from the HBM boundary, and [external_hit_blocks].  Returns the final
    [external_block_ids] too. *)
Definition lookup_external (ids : list bytes) (hbm lookup_start : Z) (resume_from_last_hit : bool) :
    M (RankConsistencyManager * W) (list bytes * Z) :=
  let cp := cp_world_size cfg in
  let external_block_ids := py_slice_from (lookup_start * cp) ids in
  if bool_decide (external_block_ids = []) then mret (external_block_ids, 0)
  else
    r ← try_lookup external_block_ids;
    match r with
    | None => mret (external_block_ids, 0)
    | Some hit =>
        let found_blocks := (hit + 1) / cp in
        if resume_from_last_hit && (found_blocks =? 0) then
          let external_block_ids' := py_slice_from (hbm * cp) ids in
          if bool_decide (external_block_ids' = []) then mret (external_block_ids', 0 / cp)
          else
            r' ← try_lookup external_block_ids';
            match r' with
            | None => mret (external_block_ids', 0)
            | Some hit' => mret (external_block_ids', (hit' + 1) / cp)
            end
        else mret (external_block_ids, (lookup_start - hbm) + found_blocks)
    end.

(** Where the lookup starts: at the last block hit before, if the request was
    seen before and its HBM boundary did not move back. *)
Definition lookup_start_block (old : option RequestMeta) (hbm : Z) : Z * bool :=
  match old with
  | Some req_meta =>
      if (hbm_hit_block_num req_meta <=? hbm) && (hbm <? total_hit_block_num req_meta)
      then (total_hit_block_num req_meta - 1, true) else (hbm, false)
  | None => (hbm, false)
  end.

(** How many external tokens to report, so that the engine recomputes enough. *)
Definition external_tokens (request : Request) (hbm external_hit_blocks : Z) : Z :=
  let external_hit_tokens := external_hit_blocks * block_size cfg in
  let num_total_hit_tokens := (hbm + external_hit_blocks) * block_size cfg in
  let recompute_tokens := _get_full_hit_recompute_tokens cfg in
  let actual_recompute_tokens := num_tokens request - num_total_hit_tokens in
  if actual_recompute_tokens <? recompute_tokens
  then Z.max 0 (external_hit_tokens - (recompute_tokens - actual_recompute_tokens))
  else external_hit_tokens.

Definition get_num_new_matched_tokens (request : Request) (num_computed_tokens : Z) :
    M state (Z * bool) :=
  let id := request_id request in
  on_sched (λ s, set_async_loads (od_del id (_pending_async_load_dispatches s))
                   (_async_load_req_ids s ∖ {[id]}) s) ;;
  py_assert (num_computed_tokens mod block_size cfg =? 0) ;;
  let hbm := num_computed_tokens / block_size cfg in
  (if bool_decide (status request = PREEMPTED)
   then on_sched (λ s, set_requests_meta (delete id (requests_meta s)) s) else mret tt) ;;
  s ← gets fst;
  let old := requests_meta s !! id in
  let hashed :=
    match old with
    | None => request_block_hasher cfg request
    | Some req_meta => Ok (ucm_block_ids req_meta)
    end in
  match hashed with
  | Raise _ => mret (0, false)
  | Ok ids =>
      if num_tokens request <? persist_token_threshold cfg then mret (0, false)
      else
        let '(lookup_start, resume) := lookup_start_block old hbm in
        p ← on_rc (lookup_external ids hbm lookup_start resume);
        let '(external_block_ids, external_hit_blocks) := p in
        let cp := cp_world_size cfg in
        on_rc (on_world (_prefetch_direct_hit_key_hotness
          (py_slice_to (hbm * cp) ids)
          (py_slice_to ((hbm + external_hit_blocks) * cp) ids))) ;;
        if bool_decide (external_block_ids = []) then mret (0, false)
        else
          let external_hit_tokens := external_tokens request hbm external_hit_blocks in
          on_sched (λ s, set_requests_meta
            (<[id := mkRequestMeta ids hbm (hbm + external_hit_blocks)
                       (zlen (all_token_ids request)) []
                       (hbm * block_size cfg + external_hit_tokens)]> (requests_meta s)) s) ;;
          mret (external_hit_tokens,
                use_request_async_load cfg && (0 <? external_hit_tokens))
  end.

(** ** Planning *)

(** [blocks] is [blocks.get_block_ids()]. *)
Definition update_state_after_alloc (request : Request) (blocks : list (list Z))
    (num_external_tokens : Z) : M state unit :=
  if negb (use_request_async_load cfg) || (num_external_tokens <=? 0) then mret tt
  else
    let id := request_id request in
    s ← gets fst;
    match requests_meta s !! id with
    | None => raise RuntimeError
    | Some req_meta =>
        match blocks with
        | [] => raise RuntimeError
        | vllm_ids :: _ =>
            let external_start := hbm_hit_block_num req_meta in
            let num_external_blocks := ceil_div num_external_tokens (block_size cfg) in
            let external_end := external_start + num_external_blocks in
            let load_vllm_block_ids := py_slice external_start external_end vllm_ids in
            let load_ucm_block_ids :=
              py_slice (external_start * cp_world_size cfg) (external_end * cp_world_size cfg)
                (ucm_block_ids req_meta) in
            if negb (zlen load_vllm_block_ids =? num_external_blocks) then raise RuntimeError
            else if negb (zlen load_ucm_block_ids =? num_external_blocks * cp_world_size cfg)
            then raise RuntimeError
            else
              on_sched (λ s, set_async_loads
                (od_set id (mkDispatchMeta (load_ucm_block_ids, load_vllm_block_ids) ([], []) 0 true)
                   (_pending_async_load_dispatches s))
                ({[id]} ∪ _async_load_req_ids s) s)
        end
    end.

(** Returns the updated metadata of the request, which the code mutates. *)
Definition _generate_dispatch_meta (req_meta : RequestMeta) (new_tokens : Z)
    (new_vllm_block_ids : list Z) (need_load : bool) : RequestMeta * RequestDispatchMeta :=
  let cp := cp_world_size cfg in
  let bs := block_size cfg in
  let hbm := hbm_hit_block_num req_meta in
  let total := total_hit_block_num req_meta in
  let ids := ucm_block_ids req_meta in
  let all_vllm := vllm_block_ids req_meta ++ new_vllm_block_ids in
  let load :=
    if need_load
    then (py_slice (hbm * cp) (total * cp) ids, py_slice hbm total new_vllm_block_ids)
    else ([], []) in
  let processed := token_processed req_meta in
  if processed <? num_token_ids req_meta then
    let start_idx := processed / bs in
    let end_idx := (processed + new_tokens) / bs in
    let dump_ucm := py_slice (start_idx * cp) (end_idx * cp) ids in
    let dump_vllm := py_slice start_idx end_idx all_vllm in
    let processed' := processed + new_tokens in
    let dump_vllm' :=
      if num_token_ids req_meta <? processed' then py_slice_to (zlen dump_ucm) dump_vllm
      else dump_vllm in
    (mkRequestMeta ids hbm total (num_token_ids req_meta) all_vllm processed',
     mkDispatchMeta load (dump_ucm, dump_vllm') start_idx false)
  else
    (mkRequestMeta ids hbm total (num_token_ids req_meta) all_vllm processed,
     mkDispatchMeta load ([], []) 0 false).

(** ** One scheduling step

    The methods below only touch the scheduler state. *)

Abbreviation dispatches := (list (req_id * RequestDispatchMeta)) (only parsing).

(** The body shared by the three loops of [build_connector_meta]: plan one
    scheduled request and store its updated metadata. *)
Definition dispatch_request (id : req_id) (req_meta : RequestMeta) (new_tokens : Z)
    (new_vllm_block_ids : list Z) (need_load : bool) (acc : dispatches) :
    M SchedulerState dispatches :=
  let '(req_meta', d) := _generate_dispatch_meta req_meta new_tokens new_vllm_block_ids need_load in
  modify (λ s, set_requests_meta (<[id := req_meta']> (requests_meta s)) s) ;;
  mret (od_set id d acc).

Fixpoint dispatch_new (num_scheduled : gmap string Z) (reqs : list NewRequestData)
    (acc : dispatches) : M SchedulerState dispatches :=
  match reqs with
  | [] => mret acc
  | request :: rest =>
      let id := nr_req_id request in
      vllm_ids ← py_index (nr_block_ids request) 0;
      s ← get_state;
      acc' ← (match requests_meta s !! id with
              | None => mret acc
              | Some req_meta =>
                  new_tokens ← py_key num_scheduled id;
                  dispatch_request id req_meta new_tokens vllm_ids
                    (negb (bool_decide (id ∈ _async_load_req_ids s))) acc
              end);
      dispatch_new num_scheduled rest acc'
  end.

Definition is_resumed {S} (resumed : resumed_info) (i : nat) (id : req_id) : M S bool :=
  match resumed with
  | resumed_from_preemption flags => py_index flags i
  | resumed_req_ids ids => mret (bool_decide (id ∈ ids))
  end.

Fixpoint dispatch_cached (num_scheduled : gmap string Z)
    (new_block_ids : list (option (list (list Z)))) (resumed : resumed_info)
    (i : nat) (ids : list req_id) (acc : dispatches) : M SchedulerState dispatches :=
  match ids with
  | [] => mret acc
  | id :: rest =>
      s ← get_state;
      acc' ← (match requests_meta s !! id with
              | None => mret acc
              | Some req_meta =>
                  o ← py_index new_block_ids i;
                  new_ids ← (match o with None => mret [] | Some groups => py_index groups 0 end);
                  res ← is_resumed resumed i id;
                  new_tokens ← py_key num_scheduled id;
                  dispatch_request id req_meta new_tokens new_ids
                    (res && negb (bool_decide (id ∈ _async_load_req_ids s))) acc
              end);
      dispatch_cached num_scheduled new_block_ids resumed (S i) rest acc'
  end.

Fixpoint dispatch_cached_list (num_scheduled : gmap string Z)
    (reqs : list (req_id * list (list Z) * bool)) (acc : dispatches) :
    M SchedulerState dispatches :=
  match reqs with
  | [] => mret acc
  | (id, groups, res) :: rest =>
      s ← get_state;
      acc' ← (match requests_meta s !! id with
              | None => mret acc
              | Some req_meta =>
                  new_tokens ← py_key num_scheduled id;
                  new_ids ← py_index groups 0;
                  dispatch_request id req_meta new_tokens new_ids
                    (res && negb (bool_decide (id ∈ _async_load_req_ids s))) acc
              end);
      dispatch_cached_list num_scheduled rest acc'
  end.

(** The two formats of [scheduled_cached_reqs]. *)
Definition dispatch_scheduled_cached (out : SchedulerOutput) (acc : dispatches) :
    M SchedulerState dispatches :=
  match scheduled_cached_reqs out with
  | CachedRequestData ids new_block_ids resumed =>
      dispatch_cached (num_scheduled_tokens out) new_block_ids resumed 0 ids acc
  | CachedRequestList reqs => dispatch_cached_list (num_scheduled_tokens out) reqs acc
  end.

(** [self.requests_meta.pop(...)] and the like for one finished request. *)
Definition forget_request (s : SchedulerState) (id : req_id) : SchedulerState :=
  mkScheduler (delete id (requests_meta s)) (od_del id (_pending_async_load_dispatches s))
    (_async_load_req_ids s ∖ {[id]}) (_async_dump_req_ids s).

Definition _track_async_dump_requests (ds : dispatches) (s : SchedulerState) : SchedulerState :=
  set_async_dumps
    (_async_dump_req_ids s ∪
     list_to_set (fst <$> filter (λ p, (dump_block_ids p.2).1 ≠ []) ds)) s.

Definition build_connector_meta (out : SchedulerOutput) : M SchedulerState UCMConnectorMetadata :=
  acc ← dispatch_new (num_scheduled_tokens out) (scheduled_new_reqs out) [];
  acc ← dispatch_scheduled_cached out acc;
  modify (λ s, foldl forget_request s (set_iter (finished_req_ids out))) ;;
  s ← get_state;
  let acc := od_update acc (_pending_async_load_dispatches s) in
  modify (λ s, set_async_loads [] (_async_load_req_ids s) s) ;;
  modify (_track_async_dump_requests acc) ;;
  mret (mkConnectorMetadata acc (default ∅ (so_preempted_req_ids out))).

(** ** Following requests *)

(** One turn of the loop of [update_connector_output]. *)
Definition handle_load_failure (missing : gset string) (s : SchedulerState) (id : req_id) :
    SchedulerState :=
  match requests_meta s !! id with
  | Some req_meta =>
      if decide (id ∈ missing) then
        let hbm := hbm_hit_block_num req_meta in
        set_requests_meta (<[id := mkRequestMeta (ucm_block_ids req_meta) hbm hbm
          (num_token_ids req_meta) (vllm_block_ids req_meta) (hbm * block_size cfg)]>
          (requests_meta s)) s
      else set_requests_meta (delete id (requests_meta s)) s
  | None => set_requests_meta (delete id (requests_meta s)) s
  end.

Definition update_connector_output (meta : option UCMWorkerMetadata) : M state unit :=
  match meta with
  | None => mret tt
  | Some meta =>
      on_rc (on_mgr (apply_worker_meta meta)) ;;
      on_sched (λ s, foldl (handle_load_failure (missing_reqs meta)) s
                       (set_iter (load_failed_reqs meta)))
  end.

Definition request_finished (request : Request) : M SchedulerState bool :=
  s ← get_state;
  if decide (request_id request ∈ _async_dump_req_ids s) then
    modify (set_async_dumps (_async_dump_req_ids s ∖ {[request_id request]})) ;; mret true
  else mret false.
End scheduler.
