(* ===== verification/SchedulerMatching.v ===== *)
(** * Matching a request: correctness

    What [get_num_new_matched_tokens] of the direct connector promises the
    engine: how many tokens it offers, which blocks they stand for, and when
    resuming from an earlier match is the same as matching anew. *)

From Stdlib Require Import ZArith Lia.
From stdpp Require Import base list gmap strings numbers fin_sets.
From S2P Require Import Prelude.
From S2P Require Import Store.
From S2P Require Import RankConsistency.
From S2P Require Import RequestHasher.
From S2P Require Import DirectScheduler.
Local Open Scope Z_scope.

Section matching.
Context {W : Type} `{StoreSpec W} `{PySetOrder}.
Variable cfg : SchedulerConfig.
Implicit Types (m : RankConsistencyManager) (w : W) (ids : list bytes).

(** Whole blocks of [cp_world_size] hashes that are usable from block
    [start] on. *)
Definition hit_blocks w m ids (start : Z) : Z :=
  Z.of_nat (prefix_count (usable w (store cfg) m) (py_slice_from (start * cp_world_size cfg) ids))
    / cp_world_size cfg.

(** One of at most two prefix lookups in a row raises. *)
Definition lookup_fails w : Prop :=
  ∃ w1 ks e, (w1 = w ∨ ∃ ks', w1 = (store_lookup_on_prefix (store cfg) ks' w).1) ∧
    (store_lookup_on_prefix (store cfg) ks w1).2 = Raise e.

(** The four ways a lookup ends. *)
Definition lookup_result w m ids (hbm start : Z) (resume : bool) (ext : list bytes) (n : Z) : Prop :=
  (n = 0 ∧ lookup_fails w ∧
     (ext = py_slice_from (start * cp_world_size cfg) ids ∨
      ext = py_slice_from (hbm * cp_world_size cfg) ids)) ∨
  (ext = [] ∧ n = 0 ∧
     (start * cp_world_size cfg >= zlen ids ∨ hbm * cp_world_size cfg >= zlen ids)) ∨
  (ext = py_slice_from (hbm * cp_world_size cfg) ids ∧ n = hit_blocks w m ids hbm ∧
     (resume = true → hit_blocks w m ids start = 0)) ∨
  (resume = true ∧ ext = py_slice_from (start * cp_world_size cfg) ids ∧
     0 < hit_blocks w m ids start ∧ n = start - hbm + hit_blocks w m ids start).

Lemma try_lookup_spec l m w :
  ∃ s' r, try_lookup cfg l (m, w) = (s', Ok r) ∧
    s'.1 = m ∧ present s'.2 = present w ∧
    (s'.2 = w ∨ ∃ ks, s'.2 = (store_lookup_on_prefix (store cfg) ks w).1) ∧
    (r = Some (Z.of_nat (prefix_count (usable w (store cfg) m) l) - 1) ∨
     r = None ∧ ∃ ks e, (store_lookup_on_prefix (store cfg) ks w).2 = Raise e).
Proof.
  unfold try_lookup. mred.
  destruct (lookup_on_prefix (store cfg) l (m, w)) as [s' r] eqn:Hq.
  apply lookup_on_prefix_spec in Hq as (Hm & Hp & Hw & [->|(e & ks & -> & Hks)]).
  - eexists _, _. split; [done|]. auto.
  - eexists _, _. split; [done|]. split_and!; [done|done|done|]. right. eauto.
Qed.

Lemma usable_ext w w' m b :
  present w' = present w → usable w' (store cfg) m b = usable w (store cfg) m b.
Proof. unfold usable. by intros ->. Qed.

Hypothesis Hcp : 0 < cp_world_size cfg.

Lemma py_slice_from_nil (a : Z) ids : 0 ≤ a → py_slice_from a ids = [] ↔ a >= zlen ids.
Proof.
  intros Ha. rewrite py_slice_from_nonneg by done. unfold zlen. split.
  - intros E%(f_equal length). rewrite length_drop in E. simpl in E. lia.
  - intros. apply drop_ge. lia.
Qed.

Lemma lookup_external_spec ids hbm start resume m w :
  0 ≤ hbm ≤ start → (resume = false → start = hbm) →
  ∃ s' ext n, lookup_external cfg ids hbm start resume (m, w) = (s', Ok (ext, n)) ∧
    s'.1 = m ∧ present s'.2 = present w ∧ lookup_result w m ids hbm start resume ext n.
Proof.
  intros Hh Hres. unfold lookup_external.
  case_bool_decide as He.
  { eexists _, _, _. split; [done|]. split_and!; [done|done|]. right; left.
    split; [done|]. split; [done|]. left. by apply py_slice_from_nil; [nia|]. }
  unfold mbind at 1, M_bind at 1.
  destruct (try_lookup_spec (py_slice_from (start * cp_world_size cfg) ids) m w)
    as ([m1 w1] & r & -> & Hm & Hp & Hw1 & Hr).
  simpl in Hm, Hp, Hw1. subst m1. destruct Hr as [->|[-> (ks & e & Hf)]].
  2:{ eexists _, _, _. split; [done|]. split_and!; [done|done|]. left.
      split_and!; [done| |by left]. exists w, ks, e. auto. }
  rewrite Z.sub_add. fold (hit_blocks w m ids start).
  destruct (resume && (hit_blocks w m ids start =? 0)) eqn:Hfb.
  - apply andb_true_iff in Hfb as [-> Hz%Z.eqb_eq]. case_bool_decide as He'.
    { eexists _, _, _. split; [done|]. split_and!; [done|done|]. right; left.
      split; [done|]. split; [apply Z.div_0_l; lia|]. right. by apply py_slice_from_nil; [nia|]. }
    unfold mbind, M_bind.
    destruct (try_lookup_spec (py_slice_from (hbm * cp_world_size cfg) ids) m w1)
      as ([m2 w2] & r & -> & Hm2 & Hp2 & _ & Hr).
    simpl in Hm2, Hp2. subst m2. destruct Hr as [->|[-> (ks & e & ?)]].
    + eexists _, _, _. split; [done|]. split_and!; [done|simpl; congruence|].
      right; right; left. split_and!; [done| |done]. rewrite Z.sub_add. unfold hit_blocks.
      do 2 f_equal. apply prefix_count_ext. intros. by apply usable_ext.
    + eexists _, _, _. split; [done|]. split_and!; [done|simpl; congruence|]. left.
      split_and!; [done| |by right]. by exists w1, ks, e.
  - eexists _, _, _. split; [done|]. split_and!; [done|done|].
    assert (0 ≤ hit_blocks w m ids start) by (apply Z.div_pos; lia).
    destruct resume; [right; right; right|right; right; left].
    + apply andb_false_iff in Hfb as [?|Hnz%Z.eqb_neq]; [done|]. split_and!; try done. lia.
    + rewrite Hres by done. split_and!; try done. lia.
Qed.

(** Where the lookup starts. *)
Lemma lookup_start_block_spec old hbm start resume :
  lookup_start_block old hbm = (start, resume) →
  hbm ≤ start ∧ (resume = false → start = hbm) ∧
  (resume = true → ∃ meta, old = Some meta ∧ hbm_hit_block_num meta ≤ hbm ∧
     hbm < total_hit_block_num meta ∧ start = total_hit_block_num meta - 1).
Proof.
  unfold lookup_start_block. destruct old as [meta|]; [|by intros [= <- <-]].
  destruct (Z.leb_spec (hbm_hit_block_num meta) hbm), (Z.ltb_spec hbm (total_hit_block_num meta));
    intros [= <- <-]; split_and!; try done; try lia. intros _. by exists meta.
Qed.

(** A hit range never exceeds the request's hashes. *)
Lemma hit_blocks_bound w m ids start :
  0 ≤ start → start * cp_world_size cfg ≤ zlen ids →
  0 ≤ hit_blocks w m ids start ∧
  (start + hit_blocks w m ids start) * cp_world_size cfg ≤ zlen ids.
Proof.
  intros Hs Hle. unfold hit_blocks. set (n := prefix_count _ _).
  pose proof (prefix_count_le (usable w (store cfg) m) (py_slice_from (start * cp_world_size cfg) ids)) as Hn.
  fold n in Hn. rewrite py_slice_from_nonneg, length_drop in Hn by nia.
  pose proof (Z.div_pos (Z.of_nat n) _ ltac:(lia) Hcp).
  pose proof (Z.mul_div_le (Z.of_nat n) _ Hcp). unfold zlen in *. nia.
Qed.

Lemma lookup_result_bound w m ids hbm start resume ext n :
  0 ≤ hbm ≤ start → lookup_result w m ids hbm start resume ext n →
  0 ≤ n ∧ (ext ≠ [] → (hbm + n) * cp_world_size cfg ≤ zlen ids).
Proof.
  intros Hh Hr.
  assert (∀ a, hbm ≤ a → py_slice_from (a * cp_world_size cfg) ids ≠ [] →
    a * cp_world_size cfg ≤ zlen ids) as Hne.
  { intros a Ha Hx. rewrite py_slice_from_nil in Hx by nia. lia. }
  destruct Hr as [(-> & _ & [->| ->])|[(-> & -> & _)|[(-> & -> & _)|(-> & -> & Hpos & ->)]]].
  - split; [done|]. intros Hx%Hne; [nia|lia].
  - split; [done|]. intros Hx%Hne; [nia|lia].
  - done.
  - split; [apply Z.div_pos; lia|]. intros Hx%Hne; [|lia]. apply hit_blocks_bound; [lia|done].
  - split; [lia|]. intros Hx%Hne; [|lia].
    destruct (hit_blocks_bound w m ids start) as [_ Hb]; [lia|done|]. nia.
Qed.

Lemma lookup_result_nil w m ids hbm start resume n :
  0 ≤ hbm ≤ start → lookup_result w m ids hbm start resume [] n →
  zlen ids ≤ start * cp_world_size cfg.
Proof.
  intros Hh Hr.
  assert (∀ a, hbm ≤ a ≤ start → [] = py_slice_from (a * cp_world_size cfg) ids →
    zlen ids ≤ start * cp_world_size cfg) as Hnil.
  { intros a Ha Hx. symmetry in Hx. apply py_slice_from_nil in Hx; nia. }
  destruct Hr as [(_ & _ & [Hx|Hx])|[(_ & _ & Hx)|[(Hx & _)|(_ & Hx & _)]]];
    try (eapply Hnil; [|exact Hx]; lia). nia.
Qed.

Lemma prefetch_total a b w :
  ∃ w', _prefetch_direct_hit_key_hotness cfg a b w = (w', Ok tt).
Proof.
  assert (∀ m : M W unit, ∀ w, ∃ w', try_except m (λ _, mret tt) w = (w', Ok tt)) as Htry.
  { intros mm w1. unfold try_except. destruct (mm w1) as [w' [[]|e]]; eauto. }
  unfold _prefetch_direct_hit_key_hotness, mbind, M_bind.
  assert (∃ w', (if bool_decide (a = []) then mret tt
    else try_except (store_prefetch (store cfg) a) (λ _, mret tt)) w = (w', Ok tt)) as [w1 ->].
  { case_bool_decide; [by eexists|apply Htry]. }
  case_bool_decide; [by eexists|apply Htry].
Qed.

(** The scheduler state once the previous load attempt is dropped. *)
Definition dropped (request : Request) (s : SchedulerState) : SchedulerState :=
  mkScheduler
    (if bool_decide (status request = PREEMPTED)
     then delete (request_id request) (requests_meta s) else requests_meta s)
    (od_del (request_id request) (_pending_async_load_dispatches s))
    (_async_load_req_ids s ∖ {[request_id request]}) (_async_dump_req_ids s).

(** The hashes of the request: those recorded, or new ones. *)
Definition hashes_of (request : Request) (s : SchedulerState) : outcome (list bytes) :=
  match requests_meta (dropped request s) !! request_id request with
  | None => request_block_hasher cfg request
  | Some req_meta => Ok (ucm_block_ids req_meta)
  end.

(** A match of [k] blocks after [hbm] recorded for the request. *)
Definition record_match (request : Request) ids (hbm k : Z) (s : SchedulerState) : SchedulerState :=
  set_requests_meta (<[request_id request :=
    mkRequestMeta ids hbm (hbm + k) (zlen (all_token_ids request)) []
      (hbm * block_size cfg + external_tokens cfg request hbm k)]> (requests_meta s)) s.

(** Every aligned query returns, in one of two ways. *)
Lemma get_num_run request nct s m w :
  0 < block_size cfg → 0 ≤ nct → nct mod block_size cfg = 0 →
  ∃ s' w' n a,
    get_num_new_matched_tokens cfg request nct (s, (m, w)) = ((s', (m, w')), Ok (n, a)) ∧
    let hbm := nct / block_size cfg in
    let old := requests_meta (dropped request s) !! request_id request in
    (n = 0 ∧ a = false ∧ s' = dropped request s ∧
      ((∃ e, hashes_of request s = Raise e) ∨
       num_tokens request < persist_token_threshold cfg ∨
       ∃ ids, hashes_of request s = Ok ids ∧
         zlen ids ≤ (lookup_start_block old hbm).1 * cp_world_size cfg)) ∨
    ∃ ids start resume ext k,
      hashes_of request s = Ok ids ∧
      persist_token_threshold cfg ≤ num_tokens request ∧
      lookup_start_block old hbm = (start, resume) ∧
      lookup_result w m ids hbm start resume ext k ∧ ext ≠ [] ∧
      n = external_tokens cfg request hbm k ∧
      a = use_request_async_load cfg && (0 <? n) ∧
      s' = record_match request ids hbm k (dropped request s).
Proof.
  intros Hbs Hn Hal. unfold get_num_new_matched_tokens, hashes_of.
  assert (∀ (B : Type) (k : unit → M (SchedulerState * (RankConsistencyManager * W)) B),
    (on_sched (λ s, set_async_loads (od_del (request_id request) (_pending_async_load_dispatches s))
                 (_async_load_req_ids s ∖ {[request_id request]}) s) ;;
     py_assert (nct mod block_size cfg =? 0) ;;
     (if bool_decide (status request = PREEMPTED)
      then on_sched (λ s, set_requests_meta (delete (request_id request) (requests_meta s)) s)
      else mret tt) ≫= k) (s, (m, w)) = k tt (dropped request s, (m, w))) as Hpre.
  { intros B k. rewrite Hal. unfold dropped. by case_bool_decide. }
  rewrite Hpre. clear Hpre.
  unfold mbind at 1, M_bind at 1, gets. cbn [fst snd].
  destruct (match requests_meta (dropped request s) !! request_id request with
            | Some req_meta => Ok (ucm_block_ids req_meta)
            | None => request_block_hasher cfg request end) as [ids|e].
  2:{ eexists _, _, _, _. split; [done|]. left. eauto 10. }
  destruct (Z.ltb_spec (num_tokens request) (persist_token_threshold cfg)).
  { eexists _, _, _, _. split; [done|]. left. auto 10. }
  destruct (lookup_start_block _ _) as [start resume] eqn:Hstart.
  pose proof (lookup_start_block_spec _ _ _ _ Hstart) as (Hle & Hnr & Hyr).
  assert (0 ≤ nct / block_size cfg) as Hh by (apply Z.div_pos; lia).
  destruct (lookup_external_spec ids (nct / block_size cfg) start resume m w)
    as ([m1 w1] & ext & k & Hq & Hm & Hp & Hr); [lia|done|]. simpl in Hm, Hp. subst m1.
  unfold mbind at 1, M_bind at 1, on_rc at 1, zoom at 1. cbn [fst snd]. rewrite Hq.
  unfold mbind at 1, M_bind at 1, on_rc at 1, zoom at 1, on_world at 1, zoom at 1. cbn [fst snd].
  destruct (prefetch_total (py_slice_to (nct / block_size cfg * cp_world_size cfg) ids)
    (py_slice_to ((nct / block_size cfg + k) * cp_world_size cfg) ids) w1) as [w2 ->].
  case_bool_decide as He; (eexists _, _, _, _; split; [done|]).
  - left. split_and!; try done. right; right. exists ids. split; [done|]. simpl.
    subst ext. by eapply lookup_result_nil.
  - right. exists ids, start, resume, ext, k. split_and!; done.
Qed.

(** Usable hashes in front of a lookup extend it by whole blocks. *)
Lemma hit_blocks_skip w m ids (hbm start : Z) :
  0 ≤ hbm ≤ start → start * cp_world_size cfg ≤ zlen ids →
  (∀ (j : nat) b, hbm * cp_world_size cfg ≤ Z.of_nat j < start * cp_world_size cfg →
     ids !! j = Some b → usable w (store cfg) m b = true) →
  hit_blocks w m ids hbm = start - hbm + hit_blocks w m ids start.
Proof.
  intros Hh Hlen Hall. unfold hit_blocks. unfold zlen in Hlen.
  rewrite !py_slice_from_nonneg by nia.
  rewrite (prefix_count_skip _ _ _ (Z.to_nat (start * cp_world_size cfg))).
  - rewrite Nat2Z.inj_add, Nat2Z.inj_sub by nia. rewrite !Z2Nat.id by nia.
    rewrite <- Z.mul_sub_distr_r, Z.add_comm, Z.div_add by lia. lia.
  - nia.
  - intros i x Hx Hi. apply (Hall i); [nia|done].
Qed.

(** The hashes counted by [hit_blocks] are usable, and the block that follows
    is not. *)
Lemma hit_blocks_usable w m ids (start : Z) (j : nat) b :
  0 ≤ start → ids !! j = Some b →
  start * cp_world_size cfg ≤ Z.of_nat j < (start + hit_blocks w m ids start) * cp_world_size cfg →
  usable w (store cfg) m b = true.
Proof.
  intros Hs Hb Hj. unfold hit_blocks in Hj. set (n := prefix_count _ _) in Hj.
  pose proof (Z.mul_div_le (Z.of_nat n) _ Hcp).
  apply (prefix_count_spec (usable w (store cfg) m)
           (py_slice_from (start * cp_world_size cfg) ids) (j - Z.to_nat (start * cp_world_size cfg))).
  - rewrite py_slice_from_nonneg, lookup_drop by nia. rewrite <- Hb. f_equal. nia.
  - fold n. nia.
Qed.

Lemma hit_blocks_maximal w m ids (start : Z) :
  0 ≤ start →
  (start + hit_blocks w m ids start + 1) * cp_world_size cfg ≤ zlen ids →
  ∃ (j : nat) b, ids !! j = Some b ∧ usable w (store cfg) m b = false ∧
    (start + hit_blocks w m ids start) * cp_world_size cfg ≤ Z.of_nat j <
    (start + hit_blocks w m ids start + 1) * cp_world_size cfg.
Proof.
  intros Hs Hlen. unfold hit_blocks in *. set (n := prefix_count _ _) in *.
  pose proof (Z.mul_div_le (Z.of_nat n) _ Hcp).
  pose proof (Z.mul_succ_div_gt (Z.of_nat n) _ Hcp).
  set (j := (Z.to_nat (start * cp_world_size cfg) + n)%nat).
  destruct (lookup_lt_is_Some_2 ids j) as [b Hb]; [unfold zlen in Hlen; nia|].
  exists j, b. split_and!; [done| |nia|nia].
  apply (prefix_count_stop (usable w (store cfg) m) (py_slice_from (start * cp_world_size cfg) ids)).
  fold n. rewrite py_slice_from_nonneg, lookup_drop by nia. done.
Qed.

Lemma external_tokens_bounds request hbm k :
  0 < block_size cfg → 0 ≤ k →
  let n := external_tokens cfg request hbm k in
  0 ≤ n ≤ k * block_size cfg ∧
  (0 < n → hbm * block_size cfg + n + _get_full_hit_recompute_tokens cfg ≤ num_tokens request) ∧
  ((hbm + k) * block_size cfg + _get_full_hit_recompute_tokens cfg ≤ num_tokens request →
   n = k * block_size cfg) ∧
  (num_tokens request < (hbm + k) * block_size cfg + _get_full_hit_recompute_tokens cfg → 0 < n →
   n = num_tokens request - hbm * block_size cfg - _get_full_hit_recompute_tokens cfg).
Proof.
  intros Hbs Hk. unfold external_tokens. simpl.
  assert (1 ≤ _get_full_hit_recompute_tokens cfg).
  { unfold _get_full_hit_recompute_tokens. repeat case_match; lia. }
  destruct (Z.ltb_spec (num_tokens request - (hbm + k) * block_size cfg)
              (_get_full_hit_recompute_tokens cfg)); split_and!; nia.
Qed.

(** What the engine may rely on in an offer of [n] tokens: it is not negative,
    and a positive offer leaves the required number of tokens to compute. *)
Definition offer_ok (request : Request) (nct n : Z) : Prop :=
  0 ≤ n ∧ (0 < n → nct + n + _get_full_hit_recompute_tokens cfg ≤ num_tokens request).

(** Matching a request never raises on a block-aligned number of computed
    tokens, whatever the hasher and the store do; it raises [AssertionError]
    on any other number.  The number [n] of tokens it offers is never
    negative, and when it is positive the engine is left at least the
    required number of tokens to compute.  The offer is asynchronous exactly
    when request-async loading is on and [n] is positive. *)
Theorem match_bounds request nct s m w :
  0 < block_size cfg → 0 ≤ nct →
  let r := get_num_new_matched_tokens cfg request nct (s, (m, w)) in
  (nct mod block_size cfg = 0 → ∃ n a, r.2 = Ok (n, a) ∧ offer_ok request nct n ∧
     (a = true ↔ use_request_async_load cfg = true ∧ 0 < n)) ∧
  (nct mod block_size cfg ≠ 0 → r.2 = Raise AssertionError).
Proof.
  intros Hbs Hn. split.
  - intros Hal. destruct (get_num_run request nct s m w Hbs Hn Hal)
      as (s' & w' & n & a & -> & Hr). exists n, a. split; [done|]. unfold offer_ok.
    destruct Hr as [(-> & -> & _)|(ids & start & resume & ext & k & _ & _ & Hst & Hlk & _ & -> & -> & _)].
    { split; [lia|]. split; [done|lia]. }
    apply lookup_start_block_spec in Hst as (Hle & _ & _).
    assert (0 ≤ nct / block_size cfg) by (apply Z.div_pos; lia).
    apply lookup_result_bound in Hlk as [Hk _]; [|lia].
    pose proof (Z.div_exact nct (block_size cfg) ltac:(lia)) as [_ Hex]. specialize (Hex Hal).
    destruct (external_tokens_bounds request (nct / block_size cfg) k Hbs Hk) as ([? ?] & ? & _).
    split; [split; [done|nia]|]. rewrite andb_true_iff, Z.ltb_lt. done.
  - intros Hal. unfold get_num_new_matched_tokens, on_sched, modify, mbind, M_bind, py_assert.
    by rewrite (proj2 (Z.eqb_neq _ _) Hal).
Qed.


(** When no lookup fails and the hashes skipped by the lookup are usable, a
    query finds what a lookup from the HBM boundary finds. *)
Lemma match_value request nct s m w ids :
  0 < block_size cfg → 0 ≤ nct → nct mod block_size cfg = 0 → ¬ lookup_fails w →
  hashes_of request s = Ok ids → persist_token_threshold cfg ≤ num_tokens request →
  let hbm := nct / block_size cfg in
  let start := (lookup_start_block (requests_meta (dropped request s) !! request_id request) hbm).1 in
  start * cp_world_size cfg < zlen ids →
  (∀ (j : nat) b, ids !! j = Some b →
     hbm * cp_world_size cfg ≤ Z.of_nat j < start * cp_world_size cfg →
     usable w (store cfg) m b = true) →
  ∃ w', get_num_new_matched_tokens cfg request nct (s, (m, w)) =
    ((record_match request ids hbm (hit_blocks w m ids hbm) (dropped request s), (m, w')),
     Ok (external_tokens cfg request hbm (hit_blocks w m ids hbm),
         use_request_async_load cfg &&
         (0 <? external_tokens cfg request hbm (hit_blocks w m ids hbm)))).
Proof.
  intros Hbs Hn Hal Hnf Hids Hth hbm start Hstart Huse.
  assert (0 ≤ hbm) as Hh by (apply Z.div_pos; lia).
  destruct (get_num_run request nct s m w Hbs Hn Hal) as (s' & w' & n & a & Hg & Hr).
  exists w'. rewrite Hg. fold hbm in Hr. fold start in Hr.
  destruct Hr as [(_ & _ & _ & Hsk)|(ids' & start' & resume & ext & k & Hids' & _ & Hst & Hlk & Hext & -> & -> & ->)].
  { destruct Hsk as [[e ?]|[?|(ids' & ? & ?)]]; [congruence|lia|].
    assert (ids' = ids) as -> by congruence. lia. }
  assert (ids' = ids) as -> by congruence.
  assert (start' = start) as -> by (unfold start; by rewrite Hst).
  apply lookup_start_block_spec in Hst as (Hle & _ & _).
  assert (k = hit_blocks w m ids hbm) as -> by
    (destruct Hlk as [(_ & ? & _)|[(-> & _)|[(_ & -> & _)|(_ & _ & _ & ->)]]]; [done|done|done|];
     symmetry; apply hit_blocks_skip; [lia|lia|]; intros j b Hj Hb; by apply (Huse j)).
  done.
Qed.

(** C6 Resuming is an optimisation only: a request matched before, whose
    earlier hits are all still usable, gets the same answer and the same
    recorded metadata from the resumed lookup as a new request with the same
    hashes gets from the full lookup. *)
Theorem resume_same_as_full request nct s m w meta0 :
  0 < block_size cfg → 0 ≤ nct → nct mod block_size cfg = 0 → ¬ lookup_fails w →
  persist_token_threshold cfg ≤ num_tokens request →
  status request ≠ PREEMPTED →
  requests_meta s !! request_id request = Some meta0 →
  request_block_hasher cfg request = Ok (ucm_block_ids meta0) →
  hbm_hit_block_num meta0 ≤ nct / block_size cfg < total_hit_block_num meta0 →
  total_hit_block_num meta0 * cp_world_size cfg ≤ zlen (ucm_block_ids meta0) →
  (∀ (j : nat) b, ucm_block_ids meta0 !! j = Some b →
     nct / block_size cfg * cp_world_size cfg ≤ Z.of_nat j <
     total_hit_block_num meta0 * cp_world_size cfg →
     usable w (store cfg) m b = true) →
  let resumed := get_num_new_matched_tokens cfg request nct (s, (m, w)) in
  let full := get_num_new_matched_tokens cfg request nct
    (set_requests_meta (delete (request_id request) (requests_meta s)) s, (m, w)) in
  resumed.2 = full.2 ∧
  requests_meta resumed.1.1 !! request_id request = requests_meta full.1.1 !! request_id request.
Proof.
  intros Hbs Hn Hal Hnf Hth Hst Hmeta Hhash Hhbm Hlen Huse.
  assert (0 ≤ nct / block_size cfg) as Hh by (apply Z.div_pos; lia).
  destruct (match_value request nct s m w (ucm_block_ids meta0)) as [w1 E1]; try done.
  { unfold hashes_of, dropped. rewrite bool_decide_false by done. simpl. by rewrite Hmeta. }
  1,2: unfold dropped; rewrite bool_decide_false by done; simpl; rewrite Hmeta;
    unfold lookup_start_block; rewrite (proj2 (Z.leb_le _ _)), (proj2 (Z.ltb_lt _ _)) by lia; simpl.
  { nia. }
  { intros j b Hb Hj. apply (Huse j b Hb). nia. }
  destruct (match_value request nct
    (set_requests_meta (delete (request_id request) (requests_meta s)) s) m w (ucm_block_ids meta0))
    as [w2 E2]; try done.
  { unfold hashes_of, dropped. rewrite bool_decide_false by done. simpl. by rewrite lookup_delete_eq. }
  1,2: unfold dropped; rewrite bool_decide_false by done; simpl; rewrite lookup_delete_eq; simpl.
  { nia. }
  { lia. }
  rewrite E1, E2. simpl. by rewrite !lookup_insert_eq.
Qed.
End matching.

(** ** Concrete queries

    Blocks of two tokens, one hash each; the store holds the first three
    blocks and the tracker has marked none. *)

Definition ex_config : SchedulerConfig :=
  mkSchedulerConfig 2 1 0 true true (Some (Some 1)) 0
    (λ _, Ok ["a"; "b"; "c"; "d"; "e"]%string) [λ b, b].

Definition ex_req : Request := ex_request [1; 2; 3; 4; 5; 6; 7; 8; 9; 10; 11].

Definition ex_sched_manager : RankConsistencyManager := RankConsistencyManager_init true true.

(** The scheduler after the request was matched with one block computed. *)
Definition ex_seen : SchedulerState :=
  mkScheduler {["r"%string := mkRequestMeta ["a"; "b"; "c"; "d"; "e"]%string 1 3 11 [] 6]} [] ∅ ∅.


Lemma resume_same_as_full_witness :
  (get_num_new_matched_tokens ex_config ex_req 2 (ex_seen, (ex_sched_manager, ex_world))).2 =
  (get_num_new_matched_tokens ex_config ex_req 2
     (set_requests_meta (delete "r"%string (requests_meta ex_seen)) ex_seen,
      (ex_sched_manager, ex_world))).2.
Proof.
  apply (resume_same_as_full ex_config ltac:(simpl; lia) ex_req 2 ex_seen ex_sched_manager ex_world
    (mkRequestMeta ["a"; "b"; "c"; "d"; "e"]%string 1 3 11 [] 6)); try (vm_compute; congruence).
  - intros (w1 & ks & e & [->|[ks' ->]] & Hr); vm_compute in Hr; discriminate.
  - split; vm_compute; congruence.
  - intros j b Hb Hj. change (2 / block_size ex_config) with 1 in Hj. simpl in Hj.
    assert (j = 1 ∨ j = 2)%nat as [-> | ->] by lia;
      injection Hb as <-; vm_compute; reflexivity.
Defined.
