(* ===== verification/SchedulerPlanning.v ===== *)
(** * Planning loads and dumps: correctness

    The plans the direct connector's scheduler sends to the workers: which
    blocks each step loads and dumps, over the whole life of a request. *)

From Stdlib Require Import ZArith Lia.
From stdpp Require Import base list gmap strings numbers fin_sets.
From S2P Require Import Prelude.
From S2P Require Import Store.
From S2P Require Import RankConsistency.
From S2P Require Import RequestHasher.
From S2P Require Import DirectScheduler.
From S2P Require Import SchedulerMatching.
Local Open Scope Z_scope.

(** ** Chunked prefill *)

(** One scheduling of a request: the tokens of the step, the KV blocks the
    engine added, and whether its external blocks are to be loaded. *)
Record chunk := mkChunk { ck_tokens : Z; ck_blocks : list Z; ck_need_load : bool }.

(** The plans of consecutive steps of one request, and its final metadata. *)
Fixpoint plan_chunks (cfg : SchedulerConfig) (meta : RequestMeta) (chunks : list chunk) :
    RequestMeta * list RequestDispatchMeta :=
  match chunks with
  | [] => (meta, [])
  | c :: rest =>
      let '(meta1, d) := _generate_dispatch_meta cfg meta (ck_tokens c) (ck_blocks c) (ck_need_load c) in
      let '(meta2, ds) := plan_chunks cfg meta1 rest in
      (meta2, d :: ds)
  end.

Section chunks.
Variable cfg : SchedulerConfig.
Hypothesis Hbs : 0 < block_size cfg.
Hypothesis Hcp : 0 < cp_world_size cfg.

(** Each step has a number of tokens, and once its blocks are added every
    token up to its end has a KV block. *)
Fixpoint allocated (blocks : list Z) (tokens : Z) (chunks : list chunk) : Prop :=
  match chunks with
  | [] => True
  | c :: rest =>
      0 ≤ ck_tokens c ∧
      (tokens + ck_tokens c) / block_size cfg ≤ zlen (blocks ++ ck_blocks c) ∧
      allocated (blocks ++ ck_blocks c) (tokens + ck_tokens c) rest
  end.

Lemma py_slice_prefix {A} a b (l l' : list A) :
  0 ≤ a → 0 ≤ b ≤ zlen l → py_slice a b (l ++ l') = py_slice a b l.
Proof.
  intros Ha Hb. apply list_eq. intros i. rewrite !lookup_py_slice by lia.
  case_decide; [|done]. apply lookup_app_l. unfold zlen in Hb. lia.
Qed.

Lemma allocated_mono blocks t t' chunks :
  t' ≤ t → allocated blocks t chunks → allocated blocks t' chunks.
Proof.
  revert blocks t t'. induction chunks as [|c chunks IH]; intros blocks t t' Ht; [done|].
  intros (Hc & Hcov & Hal). split_and!; [done| |].
  - etrans; [|exact Hcov]. apply Z.div_le_mono; lia.
  - apply (IH _ (t + ck_tokens c)); [lia|done].
Qed.

(** What one step does to the metadata, and what it dumps. *)
Lemma dispatch_step meta tokens blocks need_load meta' d :
  0 ≤ tokens → 0 ≤ token_processed meta →
  _generate_dispatch_meta cfg meta tokens blocks need_load = (meta', d) →
  let start_ := token_processed meta / block_size cfg in
  let end_ := token_processed meta' / block_size cfg in
  meta' = mkRequestMeta (ucm_block_ids meta) (hbm_hit_block_num meta) (total_hit_block_num meta)
            (num_token_ids meta) (vllm_block_ids meta ++ blocks)
            (if token_processed meta <? num_token_ids meta
             then token_processed meta + tokens else token_processed meta) ∧
  (dump_block_ids d).1 =
    py_slice (start_ * cp_world_size cfg) (end_ * cp_world_size cfg) (ucm_block_ids meta) ∧
  (dump_block_ids d).2 =
    (if num_token_ids meta <? token_processed meta'
     then py_slice_to (zlen (dump_block_ids d).1) (py_slice start_ end_ (vllm_block_ids meta ++ blocks))
     else py_slice start_ end_ (vllm_block_ids meta ++ blocks)) ∧
  (dump_block_start d = start_ ∨ dump_block_ids d = ([], [])) ∧
  load_async d = false.
Proof.
  intros Ht Hp. unfold _generate_dispatch_meta.
  destruct (Z.ltb_spec (token_processed meta) (num_token_ids meta)) as [Hlt|Hge];
    intros [= <- <-]; simpl; [by split_and!; auto|].
  assert (0 ≤ token_processed meta / block_size cfg) by (apply Z.div_pos; lia).
  rewrite !py_slice_empty by nia. split_and!; try done; [|by right].
  unfold py_slice_to. rewrite take_nil. by case_match.
Qed.

Lemma plan_chunks_blocks meta chunks :
  ∃ more, vllm_block_ids (plan_chunks cfg meta chunks).1 = vllm_block_ids meta ++ more.
Proof.
  revert meta. induction chunks as [|c chunks IH]; intros meta; cbn [plan_chunks].
  { exists []. by rewrite app_nil_r. }
  destruct (_generate_dispatch_meta _ _ _ _ _) as [meta1 d] eqn:Hd.
  specialize (IH meta1) as [more Hmore].
  destruct (plan_chunks cfg meta1 chunks) as [meta2 ds]. simpl in *.
  exists (ck_blocks c ++ more). rewrite Hmore, app_assoc. f_equal.
  revert Hd. unfold _generate_dispatch_meta. by case_match; intros [= <- _].
Qed.

Lemma plan_chunks_tile meta chunks meta' ds :
  0 ≤ token_processed meta →
  allocated (vllm_block_ids meta) (token_processed meta) chunks →
  plan_chunks cfg meta chunks = (meta', ds) →
  let start_ := token_processed meta / block_size cfg in
  let end_ := token_processed meta' / block_size cfg in
  token_processed meta ≤ token_processed meta' ∧
  concat ((λ d, (dump_block_ids d).1) <$> ds) =
    py_slice (start_ * cp_world_size cfg) (end_ * cp_world_size cfg) (ucm_block_ids meta) ∧
  (token_processed meta' ≤ num_token_ids meta →
   concat ((λ d, (dump_block_ids d).2) <$> ds) = py_slice start_ end_ (vllm_block_ids meta')).
Proof.
  assert (∀ t, 0 ≤ t → 0 ≤ t / block_size cfg) as Hdiv by (intros; apply Z.div_pos; lia).
  revert meta ds. induction chunks as [|c chunks IH]; intros meta ds Hp Hal; cbn [plan_chunks].
  { intros [= <- <-]. specialize (Hdiv _ Hp). by rewrite !py_slice_empty by nia. }
  destruct Hal as (Hc & Hcov & Hal).
  destruct (_generate_dispatch_meta _ _ _ _ _) as [meta1 d] eqn:Hd.
  pose proof (plan_chunks_blocks meta1 chunks) as [more Hmore].
  destruct (plan_chunks cfg meta1 chunks) as [meta2 ds'] eqn:Hrest. intros [= <- <-].
  apply dispatch_step in Hd as (-> & Hu & Hv & _); [|done|done].
  set (p1 := if token_processed meta <? num_token_ids meta
             then token_processed meta + ck_tokens c else token_processed meta) in *.
  assert (token_processed meta ≤ p1 ≤ token_processed meta + ck_tokens c) as Hp1.
  { unfold p1. destruct (_ <? _); lia. }
  simpl in Hmore, Hu, Hv.
  apply IH in Hrest as (Hle & Hus & Hvs);
    [|simpl; lia|eapply allocated_mono; [|exact Hal]; simpl; lia].
  simpl in Hle, Hus, Hvs. clearbody p1.
  assert (token_processed meta / block_size cfg ≤ p1 / block_size cfg) by (apply Z.div_le_mono; lia).
  assert (p1 / block_size cfg ≤ token_processed meta2 / block_size cfg) by (apply Z.div_le_mono; lia).
  assert (p1 / block_size cfg ≤ (token_processed meta + ck_tokens c) / block_size cfg)
    by (apply Z.div_le_mono; lia).
  pose proof (Hdiv _ Hp). split_and!; [lia| |].
  - csimpl. rewrite Hus, Hu. apply py_slice_app; nia.
  - intros Hin. csimpl. rewrite Hvs, Hv by done. rewrite (proj2 (Z.ltb_ge _ _)) by lia.
    rewrite Hmore, <- (py_slice_prefix _ _ _ more) by lia. apply py_slice_app; lia.
Qed.

(** C3 Over any sequence of scheduling steps of a request, the hashes planned
    for dumping are, in order and without gap or overlap, exactly those of
    the blocks completed between the first and the last step, whatever the
    chunk boundaries; as long as the processed tokens stay within the prompt
    and the engine has allocated the blocks, so are the KV blocks planned
    with them. *)
Theorem dump_ranges_tile meta chunks meta' ds :
  0 ≤ token_processed meta →
  allocated (vllm_block_ids meta) (token_processed meta) chunks →
  plan_chunks cfg meta chunks = (meta', ds) →
  let start_ := token_processed meta / block_size cfg in
  let end_ := token_processed meta' / block_size cfg in
  token_processed meta ≤ token_processed meta' ∧
  concat ((λ d, (dump_block_ids d).1) <$> ds) =
    py_slice (start_ * cp_world_size cfg) (end_ * cp_world_size cfg) (ucm_block_ids meta) ∧
  (token_processed meta' ≤ num_token_ids meta →
   concat ((λ d, (dump_block_ids d).2) <$> ds) = py_slice start_ end_ (vllm_block_ids meta')).
Proof. by apply plan_chunks_tile. Qed.

(** ** Hashes and KV blocks of a plan belong together *)

(** A plan of hashes and KV blocks starting at block [first]: one KV block for
    every [cp_world_size] hashes, and the hashes of a block are planned with
    the KV block at the same position of the request. *)
Definition paired (first : Z) (ids : list bytes) (blocks : list Z) (plan : list bytes * list Z) : Prop :=
  zlen plan.1 = zlen plan.2 * cp_world_size cfg ∧
  ∀ (i : nat) k, plan.1 !! i = Some k →
    ids !! (Z.to_nat (first * cp_world_size cfg) + i)%nat = Some k ∧
    ∃ b, plan.2 !! Z.to_nat (Z.of_nat i / cp_world_size cfg) = Some b ∧
         blocks !! (Z.to_nat first + Z.to_nat (Z.of_nat i / cp_world_size cfg))%nat = Some b.

Lemma slices_paired a b ids blocks :
  0 ≤ a ≤ b → b * cp_world_size cfg ≤ zlen ids → b ≤ zlen blocks →
  paired a ids blocks
    (py_slice (a * cp_world_size cfg) (b * cp_world_size cfg) ids, py_slice a b blocks).
Proof.
  intros Hab Hids Hbl. split; simpl.
  - rewrite !zlen_py_slice by nia. nia.
  - intros i k. rewrite lookup_py_slice_Some by nia. intros [Hi Hk]. split; [done|].
    pose proof (Z.div_pos (Z.of_nat i) _ ltac:(lia) Hcp).
    assert (Z.of_nat i / cp_world_size cfg < b - a) by (apply Z.div_lt_upper_bound; nia).
    destruct (lookup_lt_is_Some_2 blocks
      (Z.to_nat a + Z.to_nat (Z.of_nat i / cp_world_size cfg))%nat) as [x Hx].
    { unfold zlen in Hbl. lia. }
    exists x. split; [|done]. apply lookup_py_slice_Some; [lia|lia|]. split; [lia|done].
Qed.

Lemma nil_paired a ids blocks : paired a ids blocks ([], []).
Proof. by split. Qed.

(** What holds of the metadata of a request between calls. *)
Definition meta_wf (meta : RequestMeta) : Prop :=
  0 ≤ hbm_hit_block_num meta ≤ total_hit_block_num meta ∧
  total_hit_block_num meta * cp_world_size cfg ≤ zlen (ucm_block_ids meta) ∧
  hbm_hit_block_num meta * block_size cfg ≤ token_processed meta.

(** C7 In every plan of one step, hashes and KV blocks belong together: each
    group of [cp_world_size] hashes is loaded into, or dumped from, the KV
    block at the same position of the request.  For loads the engine must
    have passed blocks for all hits; for dumps it must have allocated the
    step's blocks, and the step must stay within the hashed tokens, except
    that without context parallelism the plan is truncated correctly. *)
Theorem plans_paired meta tokens blocks need_load meta' d :
  meta_wf meta → 0 ≤ tokens →
  _generate_dispatch_meta cfg meta tokens blocks need_load = (meta', d) →
  (total_hit_block_num meta ≤ zlen blocks →
   paired (hbm_hit_block_num meta) (ucm_block_ids meta) blocks (load_block_ids d)) ∧
  ((token_processed meta + tokens) / block_size cfg ≤ zlen (vllm_block_ids meta ++ blocks) →
   num_token_ids meta / block_size cfg * cp_world_size cfg ≤ zlen (ucm_block_ids meta) →
   token_processed meta + tokens ≤ num_token_ids meta ∨
     (cp_world_size cfg = 1 ∧ zlen (ucm_block_ids meta) = num_token_ids meta / block_size cfg) →
   paired (dump_block_start d) (ucm_block_ids meta) (vllm_block_ids meta ++ blocks)
     (dump_block_ids d)).
Proof.
  intros (Hh & Hids & Hproc) Ht Hd. split.
  - intros Hbl. revert Hd. unfold _generate_dispatch_meta.
    destruct need_load; case_match; intros [= _ <-]; simpl;
      try apply nil_paired; apply slices_paired; lia.
  - intros Hcov Hnum Hcase. revert Hd. unfold _generate_dispatch_meta.
    destruct (Z.ltb_spec (token_processed meta) (num_token_ids meta)) as [Hlt|Hge];
      intros [= _ <-]; [|apply nil_paired]. cbn [dump_block_ids dump_block_start].
    assert (0 ≤ token_processed meta / block_size cfg) by (apply Z.div_pos; nia).
    assert (token_processed meta / block_size cfg ≤ (token_processed meta + tokens) / block_size cfg)
      by (apply Z.div_le_mono; lia).
    destruct (Z.ltb_spec (num_token_ids meta) (token_processed meta + tokens)) as [Hover|Hin].
    + destruct Hcase as [?|[Hone Hlen]]; [lia|].
      assert (token_processed meta / block_size cfg ≤ num_token_ids meta / block_size cfg)
        by (apply Z.div_le_mono; lia).
      assert (num_token_ids meta / block_size cfg ≤ (token_processed meta + tokens) / block_size cfg)
        by (apply Z.div_le_mono; lia).
      pose proof (slices_paired (token_processed meta / block_size cfg)
        (num_token_ids meta / block_size cfg) (ucm_block_ids meta) (vllm_block_ids meta ++ blocks)
        ltac:(lia) ltac:(lia) ltac:(lia)) as Hsl.
      rewrite Hone, !Z.mul_1_r in *.
      set (a := token_processed meta / block_size cfg) in *.
      set (b := (token_processed meta + tokens) / block_size cfg) in *.
      assert (py_slice a b (ucm_block_ids meta) =
              py_slice a (num_token_ids meta / block_size cfg) (ucm_block_ids meta)) as Eu.
      { rewrite !py_slice_nonneg by lia. rewrite !take_ge; [done|..];
          rewrite length_drop; unfold zlen in Hlen; lia. }
      rewrite Eu. replace (py_slice_to _ _) with
        (py_slice a (num_token_ids meta / block_size cfg) (vllm_block_ids meta ++ blocks)); [done|].
      rewrite zlen_py_slice, py_slice_to_nonneg, !py_slice_nonneg by lia.
      rewrite take_take. f_equal. lia.
    + apply slices_paired; [lia| |lia]. etrans; [|exact Hnum].
      apply Z.mul_le_mono_nonneg_r; [lia|]. apply Z.div_le_mono; lia.
Qed.
End chunks.

(** ** Concrete plans *)

Definition ex_meta : RequestMeta := mkRequestMeta ["a"; "b"; "c"; "d"; "e"]%string 1 3 11 [] 6.
Definition ex_chunks : list chunk := [mkChunk 3 [10; 11; 12; 13; 14] true; mkChunk 2 [15] false].

Lemma dump_ranges_tile_witness :
  concat ((λ d, (dump_block_ids d).1) <$> (plan_chunks ex_config ex_meta ex_chunks).2) =
    ["d"; "e"]%string ∧
  concat ((λ d, (dump_block_ids d).2) <$> (plan_chunks ex_config ex_meta ex_chunks).2) =
    py_slice (6 / 2) (token_processed (plan_chunks ex_config ex_meta ex_chunks).1 / 2)
      (vllm_block_ids (plan_chunks ex_config ex_meta ex_chunks).1).
Proof.
  split; [reflexivity|].
  apply (dump_ranges_tile ex_config ltac:(simpl; lia) ltac:(simpl; lia) ex_meta ex_chunks).
  - simpl. lia.
  - simpl. unfold zlen. simpl. repeat split; try lia; vm_compute; congruence.
  - reflexivity.
  - vm_compute. congruence.
Defined.

Lemma plans_paired_witness :
  paired ex_config 1 ["a"; "b"; "c"; "d"; "e"]%string [10; 11; 12; 13; 14]
    (["b"; "c"]%string, [11; 12]) ∧
  paired ex_config 3 ["a"; "b"; "c"; "d"; "e"]%string [10; 11; 12; 13; 14] (["d"]%string, [13]).
Proof.
  destruct (plans_paired ex_config ltac:(simpl; lia) ltac:(simpl; lia) ex_meta 3 [10; 11; 12; 13; 14] true
    (_generate_dispatch_meta ex_config ex_meta 3 [10; 11; 12; 13; 14] true).1
    (_generate_dispatch_meta ex_config ex_meta 3 [10; 11; 12; 13; 14] true).2) as [Hl Hd].
  - unfold meta_wf, zlen. simpl. lia.
  - lia.
  - reflexivity.
  - split; [apply Hl; vm_compute; congruence|].
    apply Hd; [vm_compute; congruence..|left; vm_compute; congruence].
Defined.
