(* ===== verification/SchedulerLife.v ===== *)
(** * The life of requests on the scheduler: correctness

    The invariant of the direct connector's scheduler state over every sequence
    of calls, and what [build_connector_meta] and [update_connector_output]
    leave behind. *)

From Stdlib Require Import ZArith Lia.
From stdpp Require Import base list gmap strings numbers fin_sets.
From S2P Require Import Prelude.
From S2P Require Import Store.
From S2P Require Import RankConsistency.
From S2P Require Import RequestHasher.
From S2P Require Import DirectScheduler.
From S2P Require Import SchedulerMatching.
From S2P Require Import SchedulerPlanning.
Local Open Scope Z_scope.

(** ** Forgetting finished requests *)

Lemma forget_fold l s :
  let s' := foldl forget_request s l in
  (∀ id, requests_meta s' !! id = if decide (id ∈ l) then None else requests_meta s !! id) ∧
  (∀ id, od_get id (_pending_async_load_dispatches s') =
     if decide (id ∈ l) then None else od_get id (_pending_async_load_dispatches s)) ∧
  (NoDup (_pending_async_load_dispatches s).*1 → NoDup (_pending_async_load_dispatches s').*1) ∧
  _async_load_req_ids s' = _async_load_req_ids s ∖ list_to_set l ∧
  _async_dump_req_ids s' = _async_dump_req_ids s.
Proof.
  revert s. induction l as [|x l IH]; intros s; cbn [foldl].
  { split_and!; try done. set_solver. }
  destruct (IH (forget_request s x)) as (Hm & Hp & Hn & Ha & Hd). simpl in *.
  split_and!.
  - intros id. rewrite Hm. destruct (decide (id = x)) as [->|Hne].
    + rewrite (decide_True (P := x ∈ x :: l)) by left. case_decide; [done|apply lookup_delete_eq].
    + rewrite lookup_delete_ne by done. repeat case_decide; set_solver.
  - intros id. rewrite Hp, od_get_del. repeat case_decide; set_solver.
  - intros Hnd. by apply Hn, od_del_NoDup.
  - rewrite Ha. set_solver.
  - done.
Qed.

Section loops.
Variable cfg : SchedulerConfig.
Hypothesis Hbs : 0 < block_size cfg.
Hypothesis Hcp : 0 < cp_world_size cfg.
Context `{PySetOrder}.

(** The plans collected so far, in the middle of [build_connector_meta] begun
    in state [s0]. *)
Definition planning (s0 : SchedulerState) (acc : list (req_id * RequestDispatchMeta))
    (s : SchedulerState) : Prop :=
  s = set_requests_meta (requests_meta s) s0 ∧
  dom (requests_meta s) = dom (requests_meta s0) ∧
  map_Forall (λ _ meta, meta_wf cfg meta) (requests_meta s) ∧
  NoDup acc.*1 ∧
  (∀ id d, od_get id acc = Some d →
     load_async d = false ∧ (id ∈ _async_load_req_ids s0 → load_block_ids d = ([], []))).

(** The end of a planning loop: with all plans, or in the middle. *)
Definition planned (s0 : SchedulerState)
    (r : SchedulerState * outcome (list (req_id * RequestDispatchMeta))) : Prop :=
  match r with
  | (s, Ok acc) => planning s0 acc s
  | (s, Raise _) => ∃ acc, planning s0 acc s
  end.

Lemma meta_wf_step meta tokens blocks need_load meta' d :
  0 ≤ tokens → meta_wf cfg meta →
  _generate_dispatch_meta cfg meta tokens blocks need_load = (meta', d) → meta_wf cfg meta'.
Proof.
  intros Ht (Hh & Hids & Hp) Hd.
  apply (dispatch_step cfg Hbs Hcp) in Hd as (-> & _); [|done|nia].
  unfold meta_wf. simpl. destruct (_ <? _); split_and!; lia.
Qed.

Lemma dispatch_request_planned s0 acc s id meta tokens blocks need_load :
  planning s0 acc s → requests_meta s !! id = Some meta →
  0 ≤ tokens → (need_load = true → id ∉ _async_load_req_ids s0) →
  ∃ s' acc', dispatch_request cfg id meta tokens blocks need_load acc s = (s', Ok acc') ∧
    planning s0 acc' s'.
Proof.
  intros (Hs & Hdom & Hwf & Hnd & Hacc) Hid Ht Hnl. unfold dispatch_request.
  destruct (_generate_dispatch_meta _ _ _ _ _) as [meta' d] eqn:Hd.
  eexists _, _. split; [done|]. split_and!; simpl.
  - by rewrite Hs.
  - rewrite dom_insert_lookup_L; [done|by exists meta].
  - apply map_Forall_insert_2; [|done]. eapply meta_wf_step; [exact Ht| |exact Hd].
    by apply (Hwf id).
  - by apply od_set_NoDup.
  - intros id' d'. rewrite od_get_set. case_decide as Heq; [|apply Hacc].
    intros [= <-]. subst id'. revert Hd. unfold _generate_dispatch_meta.
    case_match; intros [= _ <-]; simpl; (split; [done|]); intros Hin;
      destruct need_load; try done; by destruct (Hnl eq_refl).
Qed.

Lemma planning_async s0 acc s :
  planning s0 acc s → _async_load_req_ids s = _async_load_req_ids s0.
Proof. intros [-> _]. done. Qed.

Section steps.
Variable num_scheduled : gmap string Z.
Hypothesis Hns : map_Forall (λ _ t, 0 ≤ t) num_scheduled.

Ltac plan_body IH :=
  match goal with
  | Hpl : planning ?s0 ?acc ?s, Hid : requests_meta ?s !! ?id = Some ?meta,
    Ht : num_scheduled !! ?id = Some ?t
    |- context [dispatch_request cfg ?id ?meta ?t ?b ?nl ?acc ?s] =>
      let s' := fresh "s" in let acc' := fresh "acc" in let E := fresh "E" in
      let Hpl' := fresh "Hpl" in
      destruct (dispatch_request_planned s0 acc s id meta t b nl Hpl Hid (Hns _ _ Ht))
        as (s' & acc' & E & Hpl');
      [rewrite (planning_async _ _ _ Hpl);
       intros Hnl; try apply andb_true_iff in Hnl as [_ Hnl];
       apply negb_true_iff, bool_decide_eq_false in Hnl; exact Hnl
      |rewrite E; by apply IH]
  end.

Lemma dispatch_new_planned s0 reqs acc s :
  planning s0 acc s → planned s0 (dispatch_new cfg num_scheduled reqs acc s).
Proof.
  revert acc s. induction reqs as [|r reqs IH]; intros acc s Hpl; [done|].
  cbn [dispatch_new]. unfold mbind, M_bind, py_index, py_key, get_state, mret, M_ret, raise.
  destruct (nr_block_ids r !! 0%nat) as [b|]; [|by exists acc].
  destruct (requests_meta s !! nr_req_id r) as [meta|] eqn:Hid; [|by apply IH].
  destruct (num_scheduled !! nr_req_id r) as [t|] eqn:Ht; [|by exists acc].
  plan_body IH.
Qed.

Lemma dispatch_cached_planned s0 nb resumed i ids acc s :
  planning s0 acc s → planned s0 (dispatch_cached cfg num_scheduled nb resumed i ids acc s).
Proof.
  revert i acc s. induction ids as [|id ids IH]; intros i acc s Hpl; [done|].
  cbn [dispatch_cached].
  unfold is_resumed, mbind, M_bind, py_index, py_key, get_state, mret, M_ret, raise.
  destruct (requests_meta s !! id) as [meta|] eqn:Hid; [|by apply IH].
  destruct (nb !! i) as [[groups|]|]; [destruct (groups !! 0%nat)| |]; try (by exists acc);
    (destruct resumed as [flags|rids]; [destruct (flags !! i)|]); try (by exists acc);
    (destruct (num_scheduled !! id) as [t|] eqn:Ht; [plan_body IH|by exists acc]).
Qed.

Lemma dispatch_cached_list_planned s0 reqs acc s :
  planning s0 acc s → planned s0 (dispatch_cached_list cfg num_scheduled reqs acc s).
Proof.
  revert acc s. induction reqs as [|[[id groups] res] reqs IH]; intros acc s Hpl; [done|].
  cbn [dispatch_cached_list]. unfold mbind, M_bind, py_index, py_key, get_state, mret, M_ret, raise.
  destruct (requests_meta s !! id) as [meta|] eqn:Hid; [|by apply IH].
  destruct (num_scheduled !! id) as [t|] eqn:Ht; [|by exists acc].
  destruct (groups !! 0%nat) as [b|]; [|by exists acc].
  plan_body IH.
Qed.
End steps.

(** ** The end of a step *)

(** The scheduler's invariant. *)
Record sched_inv (s : SchedulerState) : Prop := {
  inv_meta : map_Forall (λ _ meta, meta_wf cfg meta) (requests_meta s);
  inv_keys : NoDup (_pending_async_load_dispatches s).*1;
  inv_pending : ∀ id d, od_get id (_pending_async_load_dispatches s) = Some d →
    id ∈ _async_load_req_ids s ∧ load_async d = true ∧ dump_block_ids d = ([], []) ∧
    zlen (load_block_ids d).1 = zlen (load_block_ids d).2 * cp_world_size cfg ∧
    0 < zlen (load_block_ids d).2;
}.

(** The tail of [build_connector_meta], once the plans are collected. *)
Definition finish_build (out : SchedulerOutput) (acc : list (req_id * RequestDispatchMeta))
    (s : SchedulerState) : SchedulerState * UCMConnectorMetadata :=
  let s1 := foldl forget_request s (set_iter (finished_req_ids out)) in
  let acc' := od_update acc (_pending_async_load_dispatches s1) in
  (_track_async_dump_requests acc' (set_async_loads [] (_async_load_req_ids s1) s1),
   mkConnectorMetadata acc' (default ∅ (so_preempted_req_ids out))).

Lemma build_run out s0 s' r :
  sched_inv s0 → map_Forall (λ _ t, 0 ≤ t) (num_scheduled_tokens out) →
  build_connector_meta cfg out s0 = (s', r) →
  (∃ acc s, planning s0 acc s ∧ (s', r) = ((finish_build out acc s).1, Ok (finish_build out acc s).2)) ∨
  (∃ acc e, planning s0 acc s' ∧ r = Raise e).
Proof.
  intros Hinv Hns. unfold build_connector_meta.
  assert (planning s0 [] s0) as Hpl0.
  { split_and!; [by destruct s0|done|apply Hinv|apply NoDup_nil_2|done]. }
  unfold mbind at 1, M_bind at 1.
  pose proof (dispatch_new_planned _ Hns s0 (scheduled_new_reqs out) [] s0 Hpl0) as H1.
  destruct (dispatch_new _ _ _ _ _) as [s1 [acc1|e]]; simpl in H1.
  2:{ destruct H1 as [acc ?]. intros [= <- <-]. right. by exists acc, e. }
  unfold mbind at 1, M_bind at 1.
  assert (planned s0 (dispatch_scheduled_cached cfg out acc1 s1)) as H2.
  { unfold dispatch_scheduled_cached. destruct (scheduled_cached_reqs out);
      [by apply dispatch_cached_planned|by apply dispatch_cached_list_planned]. }
  destruct (dispatch_scheduled_cached _ _ _ _) as [s2 [acc2|e]];
    simpl in H2.
  2:{ destruct H2 as [acc ?]. intros [= <- <-]. right. by exists acc, e. }
  intros [= <- <-]. left. by exists acc2, s2.
Qed.

Lemma tracked_dumps (acc : list (req_id * RequestDispatchMeta)) id :
  NoDup acc.*1 →
  id ∈ (list_to_set (fst <$> filter (λ p, (dump_block_ids p.2).1 ≠ []) acc) : gset string) ↔
  ∃ d, od_get id acc = Some d ∧ (dump_block_ids d).1 ≠ [].
Proof.
  intros Hnd. rewrite elem_of_list_to_set, list_elem_of_fmap. split.
  - intros ([id' d] & -> & [Hd Hin]%list_elem_of_filter). exists d. split; [|done].
    by apply od_get_elem.
  - intros (d & Hget & Hd). exists (id, d). split; [done|]. apply list_elem_of_filter.
    split; [done|]. by apply od_get_Some_elem.
Qed.

(** What one scheduling step leaves behind.  The metadata has one plan per
    request and hands over every pending asynchronous load of a request that
    has not finished, after which none is pending.  A request whose load was
    dispatched asynchronously is never given a second, synchronous load.
    Finished requests are forgotten, no other request is.  The requests
    tracked for asynchronous dumps grow by exactly those with hashes to dump. *)
Theorem build_connector_meta_outcome out s s' md :
  sched_inv s → map_Forall (λ _ t, 0 ≤ t) (num_scheduled_tokens out) →
  build_connector_meta cfg out s = (s', Ok md) →
  NoDup (request_meta md).*1 ∧
  _pending_async_load_dispatches s' = [] ∧
  (∀ id d, od_get id (_pending_async_load_dispatches s) = Some d → id ∉ finished_req_ids out →
     od_get id (request_meta md) = Some d) ∧
  (∀ id d, od_get id (request_meta md) = Some d → id ∈ _async_load_req_ids s →
     load_block_ids d = ([], []) ∨ od_get id (_pending_async_load_dispatches s) = Some d) ∧
  (∀ id, is_Some (requests_meta s' !! id) ↔ is_Some (requests_meta s !! id) ∧ id ∉ finished_req_ids out) ∧
  _async_load_req_ids s' = _async_load_req_ids s ∖ finished_req_ids out ∧
  (∀ id, id ∈ _async_dump_req_ids s' ↔
     id ∈ _async_dump_req_ids s ∨
     ∃ d, od_get id (request_meta md) = Some d ∧ (dump_block_ids d).1 ≠ []).
Proof.
  intros Hinv Hns [(acc & s1 & Hpl & [= -> ->])|(acc & e & _ & [=])]%build_run; [|done..].
  destruct Hpl as (Hs1 & Hdom & _ & Hnd & Hacc). unfold finish_build. simpl.
  destruct (forget_fold (set_iter (finished_req_ids out)) s1) as (Hm & Hp & Hn & Ha & Hd).
  set (s2 := foldl _ _ _) in *.
  assert (∀ id, id ∈ set_iter (finished_req_ids out) ↔ id ∈ finished_req_ids out) as Hfin.
  { intros id. rewrite (set_iter_perm (finished_req_ids out)). apply elem_of_elements. }
  rewrite Hs1 in Hp, Hn, Ha, Hd. simpl in Hp, Hn, Ha, Hd.
  specialize (Hn (inv_keys _ Hinv)).
  assert (NoDup (od_update acc (_pending_async_load_dispatches s2)).*1) as Hnd'
    by (by apply od_update_NoDup).
  split_and!; [done|done|..].
  - intros id d Hid Hnf. rewrite od_get_update_NoDup, Hp by done.
    rewrite decide_False by (by rewrite Hfin). by rewrite Hid.
  - intros id d. rewrite od_get_update_NoDup, Hp by done. case_decide.
    + intros Hid Hin. left. by apply (Hacc id d).
    + destruct (od_get id (_pending_async_load_dispatches s)) as [d'|] eqn:E;
        [intros [= ->]; by right|]. intros Hid Hin. left. by apply (Hacc id d).
  - intros id. rewrite Hm, <- !elem_of_dom, <- Hdom, <- Hfin. case_decide.
    + split; [by intros [? ?]|by intros [_ ?]].
    + rewrite elem_of_dom. naive_solver.
  - rewrite Ha. f_equal. apply set_iter_set.
  - intros id. rewrite Hd, elem_of_union, tracked_dumps by done. done.
Qed.
End loops.

(** ** Every sequence of calls *)

Section reachable.
Context {W : Type} `{StoreSpec W} `{PySetOrder}.
Variable cfg : SchedulerConfig.
Hypothesis Hbs : 0 < block_size cfg.
Hypothesis Hcp : 0 < cp_world_size cfg.

Abbreviation state := (SchedulerState * (RankConsistencyManager * W))%type.

(** A call of the engine, whether it returns or raises, or a change in the
    stores. *)
Inductive sched_step : state → state → Prop :=
| step_match request nct st :
    0 ≤ nct → sched_step st (get_num_new_matched_tokens cfg request nct st).1
| step_alloc request blocks n st :
    sched_step st (update_state_after_alloc cfg request blocks n st).1
| step_build out s mw :
    map_Forall (λ _ t, 0 ≤ t) (num_scheduled_tokens out) →
    sched_step (s, mw) ((build_connector_meta cfg out s).1, mw)
| step_output meta st :
    sched_step st (update_connector_output cfg meta st).1
| step_finished request s mw :
    sched_step (s, mw) ((request_finished request s).1, mw)
| step_world s m w w' :
    sched_step (s, (m, w)) (s, (m, w')).

Inductive sched_reachable : state → Prop :=
| reachable_init m w : sched_reachable (SchedulerState_init, (m, w))
| reachable_step st st' : sched_reachable st → sched_step st st' → sched_reachable st'.

Lemma match_inv request nct (st : state) :
  0 ≤ nct → sched_inv cfg st.1 →
  sched_inv cfg (get_num_new_matched_tokens cfg request nct st).1.1.
Proof.
  destruct st as [s [m w]]. intros Hn Hinv.
  assert (sched_inv cfg (dropped request s)) as Hdrop.
  { destruct Hinv as [Hm Hk Hp]. constructor; simpl.
    - case_bool_decide; [by apply map_Forall_delete|done].
    - by apply od_del_NoDup.
    - intros id d. rewrite od_get_del. case_decide as Hne; [done|]. intros Hd%Hp. set_solver. }
  destruct (decide (nct mod block_size cfg = 0)) as [Hal|Hal].
  2:{ unfold get_num_new_matched_tokens, on_sched, modify, mbind, M_bind, py_assert.
      rewrite (proj2 (Z.eqb_neq _ _) Hal). simpl. destruct Hinv as [Hm Hk Hp], Hdrop as [_ Hk' Hp'].
      by constructor. }
  destruct (get_num_run cfg Hcp request nct s m w Hbs Hn Hal) as (s' & w' & n & a & -> & Hr).
  destruct Hr as [(_ & _ & -> & _)|(ids & start & resume & ext & k & _ & _ & Hst & Hlk & Hext & -> & _ & ->)];
    [done|]. simpl. destruct Hdrop as [Hm Hk Hp]. constructor; [|done|done]. simpl in *.
  apply map_Forall_insert_2; [|done]. unfold meta_wf. simpl.
  apply lookup_start_block_spec in Hst as (Hle & _ & _).
  assert (0 ≤ nct / block_size cfg) as Hh by (apply Z.div_pos; lia).
  apply (lookup_result_bound cfg Hcp) in Hlk as [Hk0 Hin]; [|lia].
  destruct (external_tokens_bounds cfg request (nct / block_size cfg) k Hbs Hk0) as ([? ?] & _).
  split_and!; [lia|lia|by apply Hin|lia].
Qed.

Lemma alloc_inv request blocks n (st : state) :
  sched_inv cfg st.1 → sched_inv cfg (update_state_after_alloc cfg request blocks n st).1.1.
Proof.
  destruct st as [s [m w]]. intros Hinv. unfold update_state_after_alloc.
  destruct (negb (use_request_async_load cfg)); [done|]. simpl.
  destruct (Z.leb_spec n 0); [done|]. unfold mbind, M_bind, gets, raise. simpl.
  destruct (requests_meta s !! request_id request) as [meta|] eqn:Hmeta; [|done].
  destruct blocks as [|b blocks]; [done|].
  case_match eqn:Hv; [done|]. case_match eqn:Hu; [done|]. simpl.
  apply negb_false_iff, Z.eqb_eq in Hv, Hu.
  destruct Hinv as [Hm Hk Hp]. constructor; simpl; [done|by apply od_set_NoDup|].
  intros id d. rewrite od_get_set. case_decide as Hid.
  - intros [= <-]. simpl. split_and!; [set_solver|done|done|lia|].
    rewrite Hv. unfold ceil_div. apply Z.div_str_pos. lia.
  - intros Hd%Hp. set_solver.
Qed.

Lemma build_inv out s :
  map_Forall (λ _ t, 0 ≤ t) (num_scheduled_tokens out) →
  sched_inv cfg s → sched_inv cfg (build_connector_meta cfg out s).1.
Proof.
  intros Hns Hinv. destruct (build_connector_meta cfg out s) as [s' r] eqn:Hb.
  apply (build_run cfg Hbs Hcp) in Hb; [|done|done].
  destruct Hb as [(acc & s1 & (Hs1 & _ & Hwf & _) & [= -> ->])|(acc & e & (Hs1 & _ & Hwf & _) & _)]; simpl.
  - destruct (forget_fold (set_iter (finished_req_ids out)) s1) as (Hm & _ & _ & _ & _).
    constructor; simpl; [|apply NoDup_nil_2|done].
    intros id meta. rewrite Hm. case_decide; [done|]. apply Hwf.
  - rewrite Hs1. destruct Hinv as [_ Hk Hp]. by constructor.
Qed.

Lemma failure_fold missing l s :
  let s' := foldl (handle_load_failure cfg missing) s l in
  _pending_async_load_dispatches s' = _pending_async_load_dispatches s ∧
  _async_load_req_ids s' = _async_load_req_ids s ∧
  _async_dump_req_ids s' = _async_dump_req_ids s ∧
  ∀ id, requests_meta s' !! id =
    if decide (id ∈ l) then
      if decide (id ∈ missing) then
        (λ meta, mkRequestMeta (ucm_block_ids meta) (hbm_hit_block_num meta) (hbm_hit_block_num meta)
                   (num_token_ids meta) (vllm_block_ids meta)
                   (hbm_hit_block_num meta * block_size cfg)) <$> requests_meta s !! id
      else None
    else requests_meta s !! id.
Proof.
  revert s. induction l as [|x l IH]; intros s; cbn [foldl]; [done|].
  destruct (IH (handle_load_failure cfg missing s x)) as (-> & -> & -> & Hm).
  assert (∀ id, requests_meta (handle_load_failure cfg missing s x) !! id =
    if decide (id = x) then
      if decide (id ∈ missing) then
        (λ meta, mkRequestMeta (ucm_block_ids meta) (hbm_hit_block_num meta) (hbm_hit_block_num meta)
                   (num_token_ids meta) (vllm_block_ids meta)
                   (hbm_hit_block_num meta * block_size cfg)) <$> requests_meta s !! id
      else None
    else requests_meta s !! id) as Hx.
  { intros id. unfold handle_load_failure. destruct (requests_meta s !! x) as [meta|] eqn:E.
    - destruct (decide (x ∈ missing)); simpl; destruct (decide (id = x)) as [->|];
        rewrite ?lookup_insert_eq, ?lookup_insert_ne, ?lookup_delete_eq, ?lookup_delete_ne by done;
        rewrite ?E; simpl; try done; by repeat case_decide.
    - simpl. destruct (decide (id = x)) as [->|];
        rewrite ?lookup_delete_eq, ?lookup_delete_ne, ?E by done; [by case_decide|done]. }
  split_and!; try (unfold handle_load_failure; repeat case_match; done).
  intros id. rewrite Hm, Hx.
  destruct (decide (id = x)) as [->|Hne].
  - rewrite (decide_True (P := x ∈ x :: l)) by left.
    repeat case_decide; try done. by destruct (requests_meta s !! x).
  - repeat case_decide; set_solver.
Qed.

Lemma output_inv meta (st : state) :
  sched_inv cfg st.1 → sched_inv cfg (update_connector_output cfg meta st).1.1.
Proof.
  destruct st as [s [m w]]. intros Hinv. destruct meta as [meta|]; [|done]. simpl.
  destruct (failure_fold (missing_reqs meta) (set_iter (load_failed_reqs meta)) s)
    as (Ep & Ea & _ & Hm).
  destruct Hinv as [Hwf Hk Hp]. constructor; rewrite ?Ep, ?Ea; [|done|done].
  intros id rm. rewrite Hm. case_decide; [case_decide; [|done]|apply Hwf].
  intros (old & Hold & ->)%fmap_Some_1. destruct (Hwf _ _ Hold) as (? & ? & ?).
  unfold meta_wf. simpl. split_and!; try lia. nia.
Qed.

(** C2 In every state the scheduler can reach, by any sequence of calls with
    any results and with the stores changing in between: the hit range of
    every tracked request lies within its hashes and its processed tokens
    reach at least its HBM boundary; every pending asynchronous load is
    marked as such, belongs to a request recorded as loading, dumps nothing,
    loads at least one block, and has [cp_world_size] hashes per block. *)
Theorem sched_invariant st : sched_reachable st → sched_inv cfg st.1.
Proof.
  induction 1 as [m w|st st' _ IH Hstep].
  { constructor; simpl; [apply map_Forall_empty|apply NoDup_nil_2|done]. }
  destruct Hstep; simpl in *.
  - by apply match_inv.
  - by apply alloc_inv.
  - by apply build_inv.
  - by apply output_inv.
  - unfold request_finished, mbind, M_bind, get_state. simpl.
    case_decide; simpl; [|done]. destruct IH. by constructor.
  - done.
Qed.

(** C8 After the engine hands back the workers' report: a request that failed
    to load because a block was missing is recomputed and dumped again from
    its HBM boundary on, so that the next steps dump every block it had
    counted as an external hit; a request that failed otherwise is no longer
    tracked and will dump nothing; every other request is untouched. *)
Theorem load_failures_handled meta s m (w : W) s' id rm :
  sched_inv cfg s → requests_meta s !! id = Some rm →
  update_connector_output cfg (Some meta) (s, (m, w)) = (s', Ok tt) →
  (id ∉ load_failed_reqs meta → requests_meta s'.1 !! id = Some rm) ∧
  (id ∈ load_failed_reqs meta → id ∉ missing_reqs meta → requests_meta s'.1 !! id = None) ∧
  (id ∈ load_failed_reqs meta → id ∈ missing_reqs meta →
   ∃ rm', requests_meta s'.1 !! id = Some rm' ∧
     total_hit_block_num rm' = hbm_hit_block_num rm ∧
     ∀ chunks rm2 ds,
       allocated cfg (vllm_block_ids rm') (token_processed rm') chunks →
       plan_chunks cfg rm' chunks = (rm2, ds) →
       concat ((λ d, (dump_block_ids d).1) <$> ds) =
       py_slice (hbm_hit_block_num rm * cp_world_size cfg)
         (token_processed rm2 / block_size cfg * cp_world_size cfg) (ucm_block_ids rm)).
Proof.
  intros Hinv Hid. destruct (inv_meta _ _ Hinv _ _ Hid) as (Hh & _ & _). unfold update_connector_output. mred. unfold on_rc, on_sched. mred.
  intros [= <-]. simpl.
  destruct (failure_fold (missing_reqs meta) (set_iter (load_failed_reqs meta)) s)
    as (_ & _ & _ & Hm). specialize (Hm id).
  assert (id ∈ set_iter (load_failed_reqs meta) ↔ id ∈ load_failed_reqs meta) as Hfl.
  { rewrite (set_iter_perm (load_failed_reqs meta)). apply elem_of_elements. }
  rewrite Hid in Hm. split_and!.
  - intros Hn. rewrite Hm. by rewrite decide_False by (by rewrite Hfl).
  - intros Hin Hnm. rewrite Hm, decide_True, decide_False by (done || by rewrite Hfl). done.
  - intros Hin Hmi. eexists. split.
    { rewrite Hm, !decide_True by (done || by rewrite Hfl). done. }
    split; [done|]. intros chunks rm2 ds Hal Hpl.
    apply plan_chunks_tile in Hpl as (_ & Hu & _); [|done|done|simpl; nia|done].
    simpl in Hu. by rewrite Z.div_mul in Hu by lia.
Qed.

(** The pending asynchronous load of a request. *)
Definition pending_load (s : SchedulerState) (id : req_id) (d : RequestDispatchMeta) : Prop :=
  od_get id (_pending_async_load_dispatches s) = Some d ∧ id ∈ _async_load_req_ids s.

(** An asynchronous offer can always be honoured: when matching offers [n]
    tokens asynchronously and the engine then allocates enough KV blocks,
    recording the allocation succeeds; the plan it leaves pending loads the
    first [ceil(n / block_size)] external blocks, all within the hit range,
    each hash paired with the KV block at its position. *)
Theorem async_offer_honoured request nct s m w s1 n blocks more :
  0 ≤ nct →
  get_num_new_matched_tokens cfg request nct (s, (m, w)) = (s1, Ok (n, true)) →
  nct / block_size cfg + ceil_div n (block_size cfg) ≤ zlen blocks →
  ∃ s2 rm d,
    update_state_after_alloc cfg request (blocks :: more) n s1 = (s2, Ok tt) ∧
    requests_meta s2.1 !! request_id request = Some rm ∧
    pending_load s2.1 (request_id request) d ∧
    zlen (load_block_ids d).2 = ceil_div n (block_size cfg) ∧
    hbm_hit_block_num rm + ceil_div n (block_size cfg) ≤ total_hit_block_num rm ∧
    paired cfg (hbm_hit_block_num rm) (ucm_block_ids rm) blocks (load_block_ids d).
Proof.
  intros Hn Hget Hbl. destruct (decide (nct mod block_size cfg = 0)) as [Hal|Hal].
  2:{ revert Hget. unfold get_num_new_matched_tokens, on_sched, modify, mbind, M_bind, py_assert.
      by rewrite (proj2 (Z.eqb_neq _ _) Hal). }
  destruct (get_num_run cfg Hcp request nct s m w Hbs Hn Hal) as (s' & w' & n' & a & Hg & Hr).
  rewrite Hget in Hg. simplify_eq.
  destruct Hr as [(_ & [=] & _)|(ids & start & resume & ext & k & _ & _ & Hst & Hlk & Hext & En & Ha & ->)].
  symmetry in Ha. apply andb_true_iff in Ha as [Hasync Hpos%Z.ltb_lt].
  apply lookup_start_block_spec in Hst as (Hle & _ & _).
  set (hbm := nct / block_size cfg) in *.
  assert (0 ≤ hbm) as Hh by (apply Z.div_pos; lia).
  apply (lookup_result_bound cfg Hcp) in Hlk as [Hk Hin]; [|lia]. specialize (Hin Hext).
  destruct (external_tokens_bounds cfg request hbm k Hbs Hk) as ([_ Hnk] & _).
  rewrite <- En in Hnk. set (nb := ceil_div n' (block_size cfg)) in *.
  assert (0 ≤ nb ≤ k) as Hnb.
  { unfold nb, ceil_div. split; [apply Z.div_pos; lia|].
    apply Z.lt_succ_r, Z.div_lt_upper_bound; nia. }
  pose proof (slices_paired cfg Hcp hbm (hbm + nb) ids blocks ltac:(lia) ltac:(nia) ltac:(lia)) as Hpair.
  unfold update_state_after_alloc. rewrite Hasync, (proj2 (Z.leb_gt _ _)) by lia.
  unfold mbind, M_bind, gets. simpl. rewrite lookup_insert_eq. simpl. fold nb.
  assert (zlen (py_slice hbm (hbm + nb) blocks) = nb) as Ev
    by (rewrite zlen_py_slice; lia).
  assert (zlen (py_slice (hbm * cp_world_size cfg) ((hbm + nb) * cp_world_size cfg) ids)
          = nb * cp_world_size cfg) as Eu by (rewrite zlen_py_slice; nia).
  rewrite Ev, Eu, !Z.eqb_refl. simpl. eexists _, _, _. split; [done|]. simpl.
  rewrite lookup_insert_eq. split; [done|]. unfold pending_load. simpl.
  rewrite od_get_set, decide_True by done.
  split_and!; [done|set_solver|done|simpl; lia|exact Hpair].
Qed.
End reachable.

(** ** Concrete runs *)

Definition ex_async : RequestDispatchMeta := mkDispatchMeta (["b"; "c"]%string, [21; 22]) ([], []) 0 true.

(** One request that dumps, one whose load is pending. *)
Definition ex_state : SchedulerState :=
  mkScheduler {["r"%string := ex_meta; "q"%string := ex_meta]} [("q"%string, ex_async)]
    {["q"%string]} ∅.

Lemma ex_state_inv : sched_inv ex_config ex_state.
Proof.
  assert (meta_wf ex_config ex_meta) by (unfold meta_wf, zlen; simpl; lia).
  constructor.
  - intros id meta. simpl. rewrite lookup_insert_Some, lookup_singleton_Some. naive_solver.
  - apply NoDup_singleton.
  - intros id d. simpl. case_decide as E; [|done]. intros [= <-]. subst. unfold zlen. simpl.
    split_and!; [set_solver|done|done|lia|lia].
Defined.


Lemma sched_invariant_witness :
  sched_inv ex_config
    (get_num_new_matched_tokens ex_config ex_req 2
       (SchedulerState_init, (ex_sched_manager, ex_world))).1.1.
Proof.
  apply (sched_invariant ex_config ltac:(simpl; lia) ltac:(simpl; lia)).
  eapply reachable_step; [apply reachable_init|]. apply step_match. lia.
Defined.

Lemma load_failures_handled_witness :
  requests_meta (update_connector_output ex_config (Some (mkWM false {["r"%string]} ∅ ∅ ∅))
    (ex_state, (ex_sched_manager, ex_world))).1.1 !! "r"%string = None.
Proof.
  destruct (load_failures_handled ex_config ltac:(simpl; lia) ltac:(simpl; lia)
    (mkWM false {["r"%string]} ∅ ∅ ∅) ex_state ex_sched_manager ex_world
    (update_connector_output ex_config (Some (mkWM false {["r"%string]} ∅ ∅ ∅))
      (ex_state, (ex_sched_manager, ex_world))).1 "r" ex_meta) as (_ & Hf & _).
  - exact ex_state_inv.
  - reflexivity.
  - reflexivity.
  - apply Hf; simpl; set_solver.
Defined.

