(* ===== verification/DirectWorker.v ===== *)
(** * Worker side of the direct connector

    Model of the worker half of [UCMDirectConnector]
    (src/ucm/integration/vllm/ucm_connector.py): submitting and waiting for the
    transfers the scheduler planned, and reporting their outcome.

    A method runs on the worker's own state, its device, the rank consistency
    manager and the stores.  Logging and timing metrics are left out; the byte
    counters are returned.  [extract_block_addrs] of the KV cache layout and the
    worker's hasher are parts of the configuration. *)

From Stdlib Require Import ZArith Lia.
From stdpp Require Import base list gmap strings numbers fin_sets.
From S2P Require Import Prelude.
From S2P Require Import Store.
From S2P Require Import RankConsistency.
From S2P Require Import DirectScheduler.
Local Open Scope Z_scope.

(** ** The device

    [get_event_handle], [synchronize] and [destroy_event_handle] of
    src/ucm/integration/vllm/device.py; an event handle of 0 means no event. *)
Class DeviceWorld (D : Type) := {
  get_event_handle : M D Z;
  synchronize : M D unit;
  destroy_event_handle : Z → M D unit;
}.

(** The handles a device holds ([self.events]).  A new handle differs from
    those held; destroying a handle drops it and does not raise. *)
Class DeviceSpec (D : Type) `{DeviceWorld D} := {
  events : D → gset Z;
  get_event_handle_ok d d' h :
    get_event_handle d = (d', Ok h) →
    (h = 0 ∧ events d' = events d) ∨
    (h ≠ 0 ∧ (h ∉ events d) ∧ events d' = ({[h]} ∪ events d));
  get_event_handle_raise d d' e : get_event_handle d = (d', Raise e) → events d' = events d;
  synchronize_events d : events (synchronize d).1 = events d;
  destroy_event_handle_ok d h :
    (destroy_event_handle h d).2 = Ok tt ∧ events (destroy_event_handle h d).1 = events d ∖ {[h]};
}.

(** ** Data *)

Record PendingDumpTask := mkPendingDump {
  pd_task : task;
  pd_request_ids : gset string;
  pd_event_handle : Z;
}.

Record PendingLoadTask := mkPendingLoad {
  pl_task : task;
  pl_request_id : req_id;
  pl_vllm_block_ids : list Z;
}.

Record WorkerConfig := mkWorkerConfig {
  tp_rank : Z;
  tp_size : Z;
  is_mla : bool;
  enable_event_sync : bool;
  _skip_null_vllm_blocks : bool;
  block_data_size : Z;
  worker_store : store_id;
  request_hasher : bytes → bytes;
  extract_block_addrs : list Z → outcome (list (list Z));
}.

Record WorkerState := mkWorker {
  _connector_worker_meta : UCMWorkerMetadata;
  _invalid_block_ids : gset Z;
  _pending_load_tasks : list (req_id * PendingLoadTask);
  _finished_async_load_req_ids : gset string;
  dumping_req_ids : gset string;  (* [_async_dump_req_ids] of the worker *)
  _pending_dump_tasks : list PendingDumpTask;
}.

Definition WorkerState_init (mla : bool) : WorkerState :=
  mkWorker (UCMWorkerMetadata_init mla) ∅ [] ∅ ∅ [].

Definition set_worker_meta v (s : WorkerState) :=
  mkWorker v (_invalid_block_ids s) (_pending_load_tasks s) (_finished_async_load_req_ids s)
    (dumping_req_ids s) (_pending_dump_tasks s).
Definition set_invalid v (s : WorkerState) :=
  mkWorker (_connector_worker_meta s) v (_pending_load_tasks s) (_finished_async_load_req_ids s)
    (dumping_req_ids s) (_pending_dump_tasks s).
Definition set_pending_loads v (s : WorkerState) :=
  mkWorker (_connector_worker_meta s) (_invalid_block_ids s) v (_finished_async_load_req_ids s)
    (dumping_req_ids s) (_pending_dump_tasks s).
Definition set_finished_loads v (s : WorkerState) :=
  mkWorker (_connector_worker_meta s) (_invalid_block_ids s) (_pending_load_tasks s) v
    (dumping_req_ids s) (_pending_dump_tasks s).
Definition set_dumping v (s : WorkerState) :=
  mkWorker (_connector_worker_meta s) (_invalid_block_ids s) (_pending_load_tasks s)
    (_finished_async_load_req_ids s) v (_pending_dump_tasks s).
Definition set_pending_dumps v (s : WorkerState) :=
  mkWorker (_connector_worker_meta s) (_invalid_block_ids s) (_pending_load_tasks s)
    (_finished_async_load_req_ids s) (dumping_req_ids s) v.

(** ** Choosing blocks *)

(** Drops the pairs whose KV block is the null block 0. *)
Definition _drop_null_vllm_blocks (ucm_block_ids : list bytes) (vllm_block_ids : list Z) :
    list bytes * list Z :=
  match ucm_block_ids, vllm_block_ids with
  | [], _ | _, [] => (ucm_block_ids, vllm_block_ids)
  | _, _ =>
      let kept := filter (λ p : bytes * Z, p.2 ≠ 0) (zip ucm_block_ids vllm_block_ids) in
      (kept.*1, kept.*2)
  end.

(** The start and step of the slice this rank dumps of an MLA request. *)
Definition _get_mla_dump_slice (cfg : WorkerConfig) (dump_block_start : Z) : Z * Z :=
  let rank := tp_rank cfg mod tp_size cfg in
  ((rank - dump_block_start) mod tp_size cfg, tp_size cfg).

Definition _select_mla_dump_blocks (cfg : WorkerConfig) (ucm_block_ids : list bytes)
    (vllm_block_ids : list Z) (dump_block_start : Z) : list bytes * list Z :=
  let '(first, step) := _get_mla_dump_slice cfg dump_block_start in
  (py_slice_step first step ucm_block_ids, py_slice_step first step vllm_block_ids).

Definition _get_rank_dump_blocks (cfg : WorkerConfig) (request : RequestDispatchMeta) :
    list bytes * list Z :=
  let '(keys, blocks) := dump_block_ids request in
  let '(keys, blocks) :=
    if is_mla cfg then _select_mla_dump_blocks cfg keys blocks (dump_block_start request)
    else (keys, blocks) in
  if _skip_null_vllm_blocks cfg then _drop_null_vllm_blocks keys blocks else (keys, blocks).

(** The keys of this rank for rank-0 block ids. *)
Definition store_block_ids (cfg : WorkerConfig) (ucm_block_ids : list bytes) : list bytes :=
  if negb (tp_rank cfg =? 0) && negb (is_mla cfg)
  then request_hasher cfg <$> ucm_block_ids else ucm_block_ids.

Section worker.
Context {W D : Type} `{StoreWorld W} `{DeviceWorld D} `{PySetOrder}.
Variable cfg : WorkerConfig.

Abbreviation state := (WorkerState * D * (RankConsistencyManager * W))%type.

Definition on_worker (f : WorkerState → WorkerState) : M state unit :=
  modify (λ s, (f s.1.1, s.1.2, s.2)).
Definition on_device {A} (m : M D A) : M state A :=
  zoom (λ s, s.1.2) (λ d s, (s.1.1, d, s.2)) m.
Definition on_manager {A} (m : M (RankConsistencyManager * W) A) : M state A :=
  zoom snd (λ r s, (s.1, r)) m.

Definition _record_load_error (block_ids : list Z) : M state unit :=
  on_worker (λ s, set_invalid (_invalid_block_ids s ∪ list_to_set block_ids) s).
Definition worker_mark_failed (id : req_id) : M state unit :=
  on_worker (λ s, set_worker_meta (mark_failed id (_connector_worker_meta s)) s).
Definition finish_async_load (id : req_id) : M state unit :=
  on_worker (λ s, set_finished_loads ({[id]} ∪ _finished_async_load_req_ids s) s).

(** [extract_block_addrs(...)] and [reshape(shape[0], -1)], which raises on an
    empty array. *)
Definition block_ptrs (vllm_block_ids : list Z) : outcome (list (list Z)) :=
  ptrs ← extract_block_addrs cfg vllm_block_ids;
  if bool_decide (ptrs = []) then Raise ValueError else Ok ptrs.

(** ** Loading *)

(** The local variables of [start_load_kv]. *)
Record load_locals := mkLoadLocals {
  request_to_task : list (req_id * task);
  request_to_load_blocks : list (req_id * Z);
  is_load : bool;
  num_loaded_block : Z;
}.

Definition submit_request_load (id : req_id) (ucm_ids : list bytes) (vllm_ids : list Z) : M state task :=
  total_ptrs ← lift_outcome (block_ptrs vllm_ids);
  on_manager (submit_load (worker_store cfg) {[id := ucm_ids]} (store_block_ids cfg ucm_ids)
                (replicate (length ucm_ids) 0) total_ptrs (is_mla cfg)).

(** The body of the first loop, for a request with blocks to load. *)
Definition load_request (id : req_id) (request : RequestDispatchMeta) (l : load_locals) :
    M state load_locals :=
  let sync_load := negb (load_async request) in
  let loaded := zlen (load_block_ids request).1 in
  let is_load' := is_load l || sync_load in
  let '(ucm_ids, vllm_ids) :=
    if _skip_null_vllm_blocks cfg
    then _drop_null_vllm_blocks (load_block_ids request).1 (load_block_ids request).2
    else load_block_ids request in
  if _skip_null_vllm_blocks cfg && bool_decide (ucm_ids = []) then
    (if load_async request then finish_async_load id else mret tt) ;;
    mret (mkLoadLocals (request_to_task l) (request_to_load_blocks l) is_load' (num_loaded_block l))
  else
    let num := num_loaded_block l + (if sync_load then loaded - (loaded - zlen ucm_ids) else 0) in
    s ← get_state;
    if load_async request && bool_decide (is_Some (od_get id (_pending_load_tasks s.1.1)))
    then mret (mkLoadLocals (request_to_task l) (request_to_load_blocks l) is_load' num)
    else
      try_except
        (t ← submit_request_load id ucm_ids vllm_ids;
         if load_async request then
           on_worker (λ s, set_pending_loads
             (od_set id (mkPendingLoad t id vllm_ids) (_pending_load_tasks s)) s) ;;
           mret (mkLoadLocals (request_to_task l) (request_to_load_blocks l) is_load' num)
         else
           mret (mkLoadLocals (od_set id t (request_to_task l))
                   (od_set id (zlen ucm_ids) (request_to_load_blocks l)) is_load' num))
        (λ _,
          _record_load_error ((load_block_ids request).2 ++ (dump_block_ids request).2) ;;
          worker_mark_failed id ;;
          (if load_async request then finish_async_load id else mret tt) ;;
          mret (mkLoadLocals (request_to_task l) (request_to_load_blocks l) is_load'
                  (num - (if sync_load then zlen ucm_ids else 0)))).

Fixpoint submit_loads (requests : list (req_id * RequestDispatchMeta)) (l : load_locals) :
    M state load_locals :=
  match requests with
  | [] => mret l
  | (id, request) :: rest =>
      if bool_decide ((load_block_ids request).1 = []) then submit_loads rest l
      else l' ← load_request id request l; submit_loads rest l'
  end.

(** [metadata.request_meta[request_id]] *)
Definition failed_blocks (metadata : UCMConnectorMetadata) (id : req_id) : M state (list Z) :=
  match od_get id (request_meta metadata) with
  | Some request => mret ((load_block_ids request).2 ++ (dump_block_ids request).2)
  | None => raise KeyError
  end.

Fixpoint wait_loads (metadata : UCMConnectorMetadata) (tasks : list (req_id * task))
    (load_blocks : list (req_id * Z)) (num : Z) : M state Z :=
  match tasks with
  | [] => mret num
  | (id, t) :: rest =>
      num' ← try_except (on_manager (wait_load t None) ;; mret num)
               (λ _,
                 blocks ← failed_blocks metadata id;
                 _record_load_error blocks ;;
                 worker_mark_failed id ;;
                 mret (num - default 0 (od_get id load_blocks)));
      wait_loads metadata rest load_blocks num'
  end.

(** Returns what is added to [load_bytes_total]. *)
Definition start_load_kv (metadata : UCMConnectorMetadata) : M state (option Z) :=
  l ← submit_loads (request_meta metadata) (mkLoadLocals [] [] false 0);
  num ← wait_loads metadata (request_to_task l) (request_to_load_blocks l) (num_loaded_block l);
  mret (if is_load l then Some (num * block_data_size cfg) else None).

(** ** Dumping *)

Definition _get_dump_event_handle : M state Z :=
  if negb (enable_event_sync cfg) then on_device synchronize ;; mret 0
  else
    event_handle ← on_device get_event_handle;
    (if event_handle =? 0 then on_device synchronize else mret tt) ;;
    mret event_handle.

Definition _release_dump_event_handle (p : PendingDumpTask) : M state unit :=
  if enable_event_sync cfg && negb (pd_event_handle p =? 0)
  then on_device (destroy_event_handle (pd_event_handle p)) else mret tt.

Definition _wait_pending_dump_task (p : PendingDumpTask) : M state unit :=
  try_finally (on_manager (wait_dump (pd_task p))) (_release_dump_event_handle p).

(** [except Exception: log]. *)
Definition ignore_error {A} (m : M state A) : M state unit :=
  try_except (m ;; mret tt) (λ _, mret tt).

Fixpoint poll_dumps (tasks remaining : list PendingDumpTask) : M state (list PendingDumpTask) :=
  match tasks with
  | [] => mret remaining
  | p :: rest =>
      complete ← try_except (on_manager (on_world (store_check (worker_store cfg) (pd_task p))))
                   (λ _, mret false);
      if complete : bool
      then ignore_error (_wait_pending_dump_task p) ;; poll_dumps rest remaining
      else poll_dumps rest (remaining ++ [p])
  end.

Definition _poll_pending_dump_tasks : M state unit :=
  s ← get_state;
  remaining ← poll_dumps (_pending_dump_tasks s.1.1) [];
  on_worker (set_pending_dumps remaining).

(** Waits for the tasks that satisfy [p], and returns the others. *)
Fixpoint wait_dumps (p : PendingDumpTask → bool) (tasks remaining : list PendingDumpTask) :
    M state (list PendingDumpTask) :=
  match tasks with
  | [] => mret remaining
  | d :: rest =>
      if p d then ignore_error (_wait_pending_dump_task d) ;; wait_dumps p rest remaining
      else wait_dumps p rest (remaining ++ [d])
  end.

Definition touches (ids : gset string) (d : PendingDumpTask) : bool :=
  bool_decide (pd_request_ids d ∩ ids ≠ ∅).

Definition _flush_pending_dump_tasks (request_ids : option (gset string)) : M state unit :=
  s ← get_state;
  on_worker (set_pending_dumps []) ;;
  remaining ← wait_dumps
    (λ d, match request_ids with Some ids => touches ids d | None => true end)
    (_pending_dump_tasks s.1.1) [];
  on_worker (set_pending_dumps remaining).

Definition handle_preemptions (ids : gset string) : M state unit :=
  if bool_decide (ids = ∅) then mret tt else _flush_pending_dump_tasks (Some ids).

(** The plans of [wait_for_save]: the requests that dump, their rank-0 blocks,
    and all keys and KV blocks in order. *)
Record dump_locals := mkDumpLocals {
  is_save : bool;
  dump_request_ids : gset string;
  block_ids_by_request : gmap string (gset string);
  num_saved_block : Z;
  total_ucm_block_ids : list bytes;
  total_vllm_block_ids : list Z;
}.

Definition add_request_dump (l : dump_locals) (r : req_id * RequestDispatchMeta) : dump_locals :=
  let '(id, request) := r in
  if bool_decide ((dump_block_ids request).1 = []) then l
  else
    let '(ucm_ids, vllm_ids) := _get_rank_dump_blocks cfg request in
    if bool_decide (ucm_ids = []) then l
    else
      mkDumpLocals true ({[id]} ∪ dump_request_ids l)
        (<[id := list_to_set ucm_ids]> (block_ids_by_request l))
        (num_saved_block l + zlen ucm_ids)
        (total_ucm_block_ids l ++ store_block_ids cfg ucm_ids)
        (total_vllm_block_ids l ++ vllm_ids).

Definition collect_dumps (metadata : UCMConnectorMetadata) : dump_locals :=
  foldl add_request_dump (mkDumpLocals false ∅ ∅ 0 [] []) (request_meta metadata).

(** The requests with hashes to dump. *)
Definition dump_requests (metadata : UCMConnectorMetadata) : gset string :=
  list_to_set (fst <$> filter (λ p : req_id * RequestDispatchMeta, (dump_block_ids p.2).1 ≠ [])
                        (request_meta metadata)).

(** Returns what is added to [save_bytes_total].  A failure before the event
    handle is assigned leaves nothing to release. *)
Definition wait_for_save (metadata : UCMConnectorMetadata) : M state (option Z) :=
  _poll_pending_dump_tasks ;;
  on_worker (λ s, set_dumping (dumping_req_ids s ∪ dump_requests metadata) s) ;;
  let l := collect_dumps metadata in
  if negb (is_save l) then mret None
  else
    match block_ptrs (total_vllm_block_ids l) with
    | Raise _ => mret None
    | Ok total_ptrs =>
        handle ← try_except (h ← _get_dump_event_handle; mret (Some h)) (λ _, mret None);
        match handle with
        | None => mret None
        | Some h =>
            submitted ← try_except
              (t ← on_manager (submit_dump (worker_store cfg) (block_ids_by_request l)
                     (total_ucm_block_ids l) (replicate (length (total_ucm_block_ids l)) 0)
                     total_ptrs h);
               mret (Some t))
              (λ _,
                (if enable_event_sync cfg && negb (h =? 0)
                 then on_device (destroy_event_handle h) else mret tt) ;;
                mret None);
            match submitted with
            | None => mret None
            | Some t =>
                on_worker (λ s, set_pending_dumps
                  (_pending_dump_tasks s ++ [mkPendingDump t (dump_request_ids l) h]) s) ;;
                mret (Some (num_saved_block l * block_data_size cfg))
            end
        end
    end.

(** ** Reporting *)

Definition get_block_ids_with_load_errors : M state (gset Z) :=
  s ← get_state;
  on_worker (set_invalid ∅) ;;
  mret (_invalid_block_ids s.1.1).

Definition build_connector_worker_meta : M state (option UCMWorkerMetadata) :=
  s ← get_state;
  let meta := _connector_worker_meta s.1.1 in
  if negb (enabled s.2.1) && bool_decide (load_failed_reqs meta = ∅) then mret None
  else
    meta' ← on_manager (update_worker_meta meta);
    on_worker (set_worker_meta (UCMWorkerMetadata_init (wm_is_mla meta'))) ;;
    mret (Some meta').

(** One turn of the loop of [_poll_pending_load_tasks]: whether the task is
    done, successfully or not. *)
Definition poll_load (id : req_id) (p : PendingLoadTask) : M state bool :=
  completed ← try_except
    (complete ← on_manager (check_load (pl_task p));
     if complete : bool then on_manager (wait_load (pl_task p) None) ;; mret true else mret false)
    (λ _, _record_load_error (pl_vllm_block_ids p) ;; worker_mark_failed id ;; mret true);
  (if completed : bool
   then on_worker (λ s, set_pending_loads (od_del id (_pending_load_tasks s)) s) else mret tt) ;;
  mret completed.

Fixpoint poll_loads (tasks : list (req_id * PendingLoadTask)) (finished : gset string) :
    M state (gset string) :=
  match tasks with
  | [] => mret finished
  | (id, p) :: rest =>
      completed ← poll_load id p;
      poll_loads rest (if completed : bool then {[id]} ∪ finished else finished)
  end.

Definition _poll_pending_load_tasks : M state (gset string) :=
  s ← get_state;
  on_worker (set_finished_loads ∅) ;;
  poll_loads (_pending_load_tasks s.1.1) (_finished_async_load_req_ids s.1.1).

(** [x or None] on a set. *)
Definition or_none (s : gset string) : option (gset string) :=
  if bool_decide (s = ∅) then None else Some s.

Definition get_finished (finished_req_ids : gset string) :
    M state (option (gset string) * option (gset string)) :=
  finished_recving ← _poll_pending_load_tasks;
  s ← get_state;
  let async_finished_req_ids := finished_req_ids ∩ dumping_req_ids s.1.1 in
  (if bool_decide (async_finished_req_ids = ∅) then mret tt
   else
     remaining ← wait_dumps (touches async_finished_req_ids) (_pending_dump_tasks s.1.1) [];
     on_worker (set_pending_dumps remaining)) ;;
  on_manager (finish_dump async_finished_req_ids) ;;
  on_worker (λ s, set_dumping (dumping_req_ids s ∖ async_finished_req_ids) s) ;;
  mret (or_none async_finished_req_ids, or_none finished_recving).
End worker.
