(* ===== verification/WorkerDumps.v ===== *)
(** * Dumping on the worker: correctness

    Dump tasks live across steps: they are submitted by one step and waited for
    by later ones, when they complete, when their request is preempted, or when
    it finishes.  The invariant relates the worker's pending list to the rank
    consistency manager's task contexts and to the event handles the device
    holds; from it follow the guarantees the engine relies on. *)

From Stdlib Require Import ZArith Lia.
From stdpp Require Import base list gmap strings numbers fin_sets.
From S2P Require Import Prelude.
From S2P Require Import Store.
From S2P Require Import RankConsistency.
From S2P Require Import DirectScheduler.
From S2P Require Import DirectWorker.
Local Open Scope Z_scope.

(** ** Which rank dumps a block *)

(** The configuration of another rank of the same deployment. *)
Definition with_rank (cfg : WorkerConfig) (rank : Z) : WorkerConfig :=
  mkWorkerConfig rank (tp_size cfg) (is_mla cfg) (enable_event_sync cfg) (_skip_null_vllm_blocks cfg)
    (block_data_size cfg) (worker_store cfg) (request_hasher cfg) (extract_block_addrs cfg).

(** MLA records are the same on every rank and are dumped once: of a plan
    that starts at block [start] of the request, the element at index [i] is
    dumped by exactly one of the [tp_size] ranks, the one whose number is
    [(start + i) mod tp_size].  The choice depends on the absolute block
    position only, so it does not change with the chunk boundaries; hashes and
    KV blocks are selected alike. *)
Theorem mla_dump_partition cfg start (keys : list bytes) (blocks : list Z) (i : nat) rank :
  0 < tp_size cfg → 0 ≤ rank < tp_size cfg →
  length keys = length blocks → (i < length keys)%nat →
  let selected := _select_mla_dump_blocks (with_rank cfg rank) keys blocks start in
  ((∃ j, selected.1 !! j = keys !! i ∧ selected.2 !! j = blocks !! i ∧
         Z.of_nat i = (rank - start) mod tp_size cfg + Z.of_nat j * tp_size cfg) ↔
   rank = (start + Z.of_nat i) mod tp_size cfg) ∧
  (∀ (j : nat) k, selected.1 !! j = Some k →
     ∃ (i' : nat), keys !! i' = Some k ∧ selected.2 !! j = blocks !! i' ∧
       rank = (start + Z.of_nat i') mod tp_size cfg).
Proof.
  intros Htp Hrank Hlen Hi. unfold _select_mla_dump_blocks, _get_mla_dump_slice. simpl.
  rewrite (Z.mod_small rank) by lia. set (n := tp_size cfg) in *.
  set (f := (rank - start) mod n).
  assert (0 ≤ f < n) as Hf by (apply Z.mod_pos_bound; lia).
  assert (∀ j : Z, 0 ≤ j → rank = (start + (f + j * n)) mod n) as Hpos.
  { intros j _. rewrite Z.add_assoc, Z.mod_add by lia. unfold f.
    rewrite Z.add_mod_idemp_r by lia. replace (start + (rank - start)) with rank by lia.
    by rewrite Z.mod_small. }
  split; [split|].
  - intros (j & _ & _ & ->). apply Hpos. lia.
  - intros Er. exists (Z.to_nat ((Z.of_nat i - f) / n)).
    assert ((Z.of_nat i - f) mod n = 0) as Hmod.
    { unfold f. rewrite Er, Zminus_mod_idemp_l, Zminus_mod_idemp_r.
      replace (Z.of_nat i - (start + Z.of_nat i - start)) with 0 by lia. apply Z.mod_0_l. lia. }
    assert (0 ≤ (Z.of_nat i - f) / n) as Hq.
    { apply Z.div_exact in Hmod; [|lia]. destruct (Z.lt_ge_cases ((Z.of_nat i - f) / n) 0); [nia|done]. }
    assert (Z.of_nat i = f + (Z.of_nat i - f) / n * n) as Ei.
    { apply Z.div_exact in Hmod; lia. }
    rewrite !lookup_py_slice_step, !Z2Nat.id by lia. rewrite <- Ei, Nat2Z.id. done.
  - intros j k. rewrite lookup_py_slice_step by lia. intros Hk.
    exists (Z.to_nat (f + Z.of_nat j * n)). rewrite lookup_py_slice_step by lia.
    split_and!; [done|done|]. rewrite Z2Nat.id by lia. apply Hpos. lia.
Qed.

(** ** Pending dump tasks *)

(** The event handles tasks hold. *)
Definition handles (l : list PendingDumpTask) : list Z :=
  filter (λ h, h ≠ 0) (pd_event_handle <$> l).

Lemma handles_app l1 l2 : handles (l1 ++ l2) = handles l1 ++ handles l2.
Proof. unfold handles. by rewrite fmap_app, filter_app. Qed.

Lemma handles_perm l1 l2 : l1 ≡ₚ l2 → handles l1 ≡ₚ handles l2.
Proof. unfold handles. by intros ->. Qed.

Section dumps.
Context {W D : Type} `{StoreSpec W} `{DeviceSpec D} `{PySetOrder}.
Variable cfg : WorkerConfig.

Abbreviation state := (WorkerState * D * (RankConsistencyManager * W))%type.

Record dump_inv (st : state) : Prop := {
  (** Every task the manager knows is pending, with all its requests. *)
  di_contexts t x : _dump_task_contexts st.2.1 !! t = Some x →
    ∃ p, p ∈ _pending_dump_tasks st.1.1 ∧ pd_task p = t ∧ dom x.2 ⊆ pd_request_ids p;
  (** The device holds exactly the handles of the pending tasks, one each. *)
  di_events : events st.1.2 = list_to_set (handles (_pending_dump_tasks st.1.1));
  di_handles : NoDup (handles (_pending_dump_tasks st.1.1));
  di_sync : enable_event_sync cfg = false → handles (_pending_dump_tasks st.1.1) = [];
  (** A request with a pending task is tracked as dumping. *)
  di_dumping p : p ∈ _pending_dump_tasks st.1.1 → pd_request_ids p ⊆ dumping_req_ids st.1.1;
}.

Lemma wait_dump_contexts t (m : RankConsistencyManager) (w : W) :
  _dump_task_contexts (wait_dump t (m, w)).1.1 = delete t (_dump_task_contexts m).
Proof.
  unfold wait_dump. mred. destruct (_dump_task_contexts m !! t) as [[st ctx]|] eqn:Ht; simpl.
  - destruct (store_wait st t w) as [w' [[]|e]]; simpl; [done|].
    by destruct (is_unhealthy e).
  - by rewrite delete_id.
Qed.

(** Waiting for some tasks of a list: the others are kept, the contexts and
    the handles of those waited for are gone, the worker is unchanged. *)
Definition settled (tasks : list PendingDumpTask) (st st' : state) (kept : list PendingDumpTask) : Prop :=
  ∃ waited, kept ++ waited ≡ₚ tasks ∧ st'.1.1 = st.1.1 ∧
    (∀ t x, _dump_task_contexts st'.2.1 !! t = Some x →
       _dump_task_contexts st.2.1 !! t = Some x ∧ ∀ p, p ∈ waited → pd_task p ≠ t) ∧
    events st'.1.2 =
      events st.1.2 ∖ (if enable_event_sync cfg then list_to_set (handles waited) else ∅).

Lemma settled_nil st : settled [] st st [].
Proof. exists []. split_and!; [done|done|set_solver|]. case_match; set_solver. Qed.

Lemma settled_keep p tasks st st' kept :
  settled tasks st st' kept → settled (p :: tasks) st st' (p :: kept).
Proof. intros (waited & Hp & ?). exists waited. split; [simpl; by rewrite Hp|done]. Qed.

Lemma wait_task_settles p st :
  ∃ st' r, _wait_pending_dump_task cfg p st = (st', r) ∧ settled [p] st st' [].
Proof.
  destruct st as [[s d] [m w]]. unfold _wait_pending_dump_task, try_finally.
  unfold on_manager, zoom. simpl. pose proof (wait_dump_contexts (pd_task p) m w) as Hctx.
  destruct (wait_dump (pd_task p) (m, w)) as [[m' w'] r]. simpl in Hctx.
  assert (∀ t x, _dump_task_contexts m' !! t = Some x →
    _dump_task_contexts m !! t = Some x ∧ ∀ q, q ∈ [p] → pd_task q ≠ t) as Hold.
  { intros t x. rewrite Hctx, lookup_delete_Some. intros [Hne Hx]. split; [done|].
    by intros q ->%list_elem_of_singleton. }
  unfold _release_dump_event_handle. unfold on_device, zoom. simpl.
  destruct (destroy_event_handle_ok d (pd_event_handle p)) as [Hok Hev].
  destruct (enable_event_sync cfg) eqn:Hs, (Z.eqb_spec (pd_event_handle p) 0) as [Hz|Hz]; simpl.
  2: destruct (destroy_event_handle (pd_event_handle p) d) as [d' r']; simpl in Hok, Hev; subst r'.
  all: eexists _, r; (split; [done|]); exists [p]; rewrite Hs; simpl;
    (split; [done|]; split; [done|]; split; [done|]).
  - unfold handles. simpl. rewrite filter_cons_False by (simpl; lia). set_solver.
  - rewrite Hev. unfold handles. simpl. rewrite filter_cons_True by (simpl; lia). set_solver.
  - set_solver.
  - set_solver.
Qed.

(** Waiting for one task, then for others. *)
Lemma settled_wait p tasks st st1 st' kept :
  settled [p] st st1 [] → settled tasks st1 st' kept → settled (p :: tasks) st st' kept.
Proof.
  intros (w1 & Hp1 & Hs1 & Hc1 & He1) (w2 & Hp2 & Hs2 & Hc2 & He2).
  apply Permutation_singleton_r in Hp1. simpl in Hp1. subst w1. exists (p :: w2). split_and!.
  - rewrite <- Hp2. by rewrite Permutation_middle.
  - congruence.
  - intros t x [Hx Hne]%Hc2. apply Hc1 in Hx as [Hx Hp]. split; [done|]. set_solver.
  - rewrite He2, He1. case_match; [|set_solver].
    change (p :: w2) with ([p] ++ w2). rewrite handles_app. set_solver.
Qed.

Lemma ignore_wait p st :
  ∃ st', ignore_error (_wait_pending_dump_task cfg p) st = (st', Ok tt) ∧ settled [p] st st' [].
Proof.
  destruct (wait_task_settles p st) as (st' & r & E & Hs). exists st'. split; [|done].
  unfold ignore_error, try_except, mbind, M_bind. rewrite E. by destruct r as [[]|].
Qed.

Lemma wait_dumps_settles f tasks rem st :
  ∃ st', wait_dumps cfg f tasks rem st = (st', Ok (rem ++ filter (λ p, f p = false) tasks)) ∧
    settled tasks st st' (filter (λ p, f p = false) tasks).
Proof.
  revert rem st. induction tasks as [|p tasks IH]; intros rem st; cbn [wait_dumps].
  { exists st. rewrite app_nil_r. split; [done|]. apply settled_nil. }
  destruct (f p) eqn:Hf.
  - rewrite filter_cons_False by congruence. unfold mbind, M_bind.
    destruct (ignore_wait p st) as (st1 & -> & Hs1).
    destruct (IH rem st1) as (st' & -> & Hs). exists st'. split; [done|]. by eapply settled_wait.
  - rewrite filter_cons_True by done. destruct (IH (rem ++ [p]) st) as (st' & -> & Hs).
    exists st'. rewrite <- app_assoc. split; [done|]. by apply settled_keep.
Qed.

Lemma poll_dumps_settles tasks rem st :
  ∃ st' kept, poll_dumps cfg tasks rem st = (st', Ok (rem ++ kept)) ∧ settled tasks st st' kept.
Proof.
  revert rem st. induction tasks as [|p tasks IH]; intros rem st; cbn [poll_dumps].
  { exists st, []. rewrite app_nil_r. split; [done|]. apply settled_nil. }
  destruct st as [[s d] [m w]].
  unfold mbind at 1, M_bind at 1, try_except at 1, on_manager at 1, zoom at 1, on_world, zoom. simpl.
  destruct (store_check (worker_store cfg) (pd_task p) w) as [w1 r].
  assert (∀ tasks' st' kept, settled tasks' (s, d, (m, w1)) st' kept →
    settled tasks' (s, d, (m, w)) st' kept) as Hw by done.
  destruct r as [a|e]; simpl.
  - destruct a.
    + unfold mbind, M_bind. destruct (ignore_wait p (s, d, (m, w1))) as (st1 & -> & Hs1).
      destruct (IH rem st1) as (st' & kept & -> & Hs). exists st', kept. split; [done|].
      apply Hw. by eapply settled_wait.
    + destruct (IH (rem ++ [p]) (s, d, (m, w1))) as (st' & kept & -> & Hs). exists st', (p :: kept).
      rewrite <- app_assoc. split; [done|]. by apply settled_keep, Hw.
  - destruct (IH (rem ++ [p]) (s, d, (m, w1))) as (st' & kept & -> & Hs). exists st', (p :: kept).
    rewrite <- app_assoc. split; [done|]. by apply settled_keep, Hw.
Qed.

(** Replacing the pending list by what a wait kept keeps the invariant. *)
Lemma settled_inv st st' kept s' :
  dump_inv st → settled (_pending_dump_tasks st.1.1) st st' kept →
  _pending_dump_tasks s' = kept → dumping_req_ids s' = dumping_req_ids st.1.1 →
  dump_inv (s', st'.1.2, st'.2).
Proof.
  intros [Hc He Hn Hs Hd] (waited & Hp & Hst & Hc' & He') Epend Edump.
  pose proof (handles_perm _ _ Hp) as Hhp. rewrite handles_app in Hhp.
  assert (NoDup (handles kept ++ handles waited)) as Hnd by (by rewrite Hhp).
  apply list.NoDup_app in Hnd as (Hnk & Hdisj & Hnw).
  constructor; cbn [fst snd]; rewrite ?Epend, ?Edump.
  - intros t x [Hx Hne]%Hc'. destruct (Hc t x Hx) as (p & Hin & Ht & Hdom). exists p.
    split; [|done]. rewrite <- Hp in Hin. apply elem_of_app in Hin as [?|Hw]; [done|].
    by destruct (Hne p Hw).
  - rewrite He', He, <- Hhp, list_to_set_app_L. case_match eqn:Es; [clear -Hdisj; set_solver|].
    rewrite (Hs eq_refl) in Hhp. apply Permutation_nil_r, app_eq_nil in Hhp as [-> ->].
    set_solver.
  - done.
  - intros Es. specialize (Hs Es). rewrite Hs in Hhp.
    by apply Permutation_nil_r, app_eq_nil in Hhp as [-> _].
  - intros p Hin. apply Hd. rewrite <- Hp. apply elem_of_app. by left.
Qed.

(** ** What loading and reporting leave alone *)

(** The part of the state the invariant is about. *)
Definition dump_view (st : state) :=
  (st.1.2, _pending_dump_tasks st.1.1, dumping_req_ids st.1.1, _dump_task_contexts st.2.1).

Lemma dump_inv_view st st' : dump_view st' = dump_view st → dump_inv st → dump_inv st'.
Proof.
  unfold dump_view. intros [= E1 E2 E3 E4] [Hc He Hn Hs Hd].
  constructor; rewrite ?E1, ?E2, ?E3, ?E4; done.
Qed.

Definition contexts_view (s : RankConsistencyManager * W) := _dump_task_contexts s.1.

Lemma on_manager_view {A} (m : M (RankConsistencyManager * W) A) :
  preserves contexts_view m → preserves dump_view (on_manager m).
Proof.
  intros Hm [[s d] r]. specialize (Hm r). unfold on_manager, zoom, dump_view. simpl.
  destruct (m r) as [r' o]. unfold contexts_view in Hm. simpl in *. by rewrite Hm.
Qed.

Lemma on_worker_view f :
  (∀ s, _pending_dump_tasks (f s) = _pending_dump_tasks s ∧ dumping_req_ids (f s) = dumping_req_ids s) →
  preserves dump_view (on_worker (W := W) (D := D) f).
Proof. intros Hf [[s d] r]. unfold dump_view. simpl. by destruct (Hf s) as [-> ->]. Qed.

Lemma on_mgr_view f :
  (∀ m, _dump_task_contexts (f m) = _dump_task_contexts m) → preserves contexts_view (on_mgr (W := W) f).
Proof. intros Hf [m w]. apply Hf. Qed.

Lemma on_world_view {A} (m : M W A) : preserves contexts_view (on_world m).
Proof. intros [r w]. unfold on_world, zoom. simpl. by destruct (m w). Qed.

Ltac keep_view :=
  repeat first
    [ apply preserves_bind; [|intros ?]
    | apply preserves_try; [|intros ?]
    | apply preserves_ret | apply preserves_raise | apply preserves_get
    | apply preserves_gets | apply preserves_lift
    | apply on_world_view | apply on_mgr_view; done
    | apply on_worker_view; done
    | apply on_manager_view
    | case_match | case_bool_decide ].

Lemma submit_load_view st ctx ids sh ps b : preserves contexts_view (submit_load (W := W) st ctx ids sh ps b).
Proof. unfold submit_load, classify. keep_view. Qed.
Lemma wait_load_view t w : preserves contexts_view (wait_load (W := W) t w).
Proof. unfold wait_load, classify. keep_view. Qed.
Lemma check_load_view t : preserves contexts_view (check_load (W := W) t).
Proof. unfold check_load, classify. keep_view. Qed.
Lemma update_worker_meta_view meta : preserves contexts_view (update_worker_meta (W := W) meta).
Proof. unfold update_worker_meta. keep_view. Qed.

Lemma load_request_view id request l : preserves dump_view (load_request (W := W) (D := D) cfg id request l).
Proof.
  unfold load_request, submit_request_load, _record_load_error, worker_mark_failed, finish_async_load.
  keep_view; apply submit_load_view.
Qed.

Lemma submit_loads_view requests l : preserves dump_view (submit_loads (W := W) (D := D) cfg requests l).
Proof.
  revert l. induction requests as [|[id request] requests IH]; intros l; cbn [submit_loads]; [done|].
  case_bool_decide; [apply IH|]. apply preserves_bind; [apply load_request_view|intros; apply IH].
Qed.

Lemma wait_loads_view metadata tasks lb num :
  preserves dump_view (wait_loads (W := W) (D := D) metadata tasks lb num).
Proof.
  revert num. induction tasks as [|[id t] tasks IH]; intros num; cbn [wait_loads]; [done|].
  unfold failed_blocks, _record_load_error, worker_mark_failed.
  apply preserves_bind; [|intros; apply IH]. keep_view; apply wait_load_view.
Qed.

Lemma start_load_kv_view metadata : preserves dump_view (start_load_kv (W := W) (D := D) cfg metadata).
Proof.
  unfold start_load_kv. apply preserves_bind; [apply submit_loads_view|intros l].
  apply preserves_bind; [apply wait_loads_view|intros ?; apply preserves_ret].
Qed.

Lemma poll_loads_view tasks fin : preserves dump_view (poll_loads (W := W) (D := D) tasks fin).
Proof.
  revert fin. induction tasks as [|[id p] tasks IH]; intros fin; cbn [poll_loads]; [done|].
  apply preserves_bind; [|intros; apply IH].
  unfold poll_load, _record_load_error, worker_mark_failed.
  keep_view; first [apply check_load_view|apply wait_load_view].
Qed.

Lemma poll_pending_loads_view : preserves dump_view (_poll_pending_load_tasks (W := W) (D := D)).
Proof. unfold _poll_pending_load_tasks. keep_view; apply poll_loads_view. Qed.

Lemma load_errors_view : preserves dump_view (get_block_ids_with_load_errors (W := W) (D := D)).
Proof. unfold get_block_ids_with_load_errors. keep_view. Qed.

Lemma worker_meta_view : preserves dump_view (build_connector_worker_meta (W := W) (D := D)).
Proof. unfold build_connector_worker_meta. keep_view; apply update_worker_meta_view. Qed.

(** ** Submitting dumps *)

(** The requests of a step's dump are requests with hashes to dump, and the
    manager is told about exactly those. *)
Lemma collect_dumps_requests metadata :
  dom (block_ids_by_request (collect_dumps cfg metadata)) =
    dump_request_ids (collect_dumps cfg metadata) ∧
  dump_request_ids (collect_dumps cfg metadata) ⊆ dump_requests metadata.
Proof.
  unfold collect_dumps, dump_requests.
  assert (∀ rs l, dom (block_ids_by_request l) = dump_request_ids l →
    dom (block_ids_by_request (foldl (add_request_dump cfg) l rs)) =
      dump_request_ids (foldl (add_request_dump cfg) l rs) ∧
    dump_request_ids (foldl (add_request_dump cfg) l rs) ⊆
      dump_request_ids l ∪
      list_to_set (fst <$> filter (λ p : req_id * RequestDispatchMeta, (dump_block_ids p.2).1 ≠ []) rs))
    as Hind.
  { induction rs as [|[id r] rs IH]; intros l Hl; [set_solver|]. cbn [foldl].
    unfold add_request_dump at 2 4 6. simpl. rewrite filter_cons. cbn [snd].
    case_bool_decide as Hr.
    { destruct (IH l Hl) as [E1 E2]. split; [done|]. case_decide; set_solver. }
    rewrite decide_True by done. destruct (_get_rank_dump_blocks cfg r) as [u v].
    case_bool_decide as Hu.
    { destruct (IH l Hl) as [E1 E2]. split; [done|]. etrans; [exact E2|]. csimpl. clear. set_solver. }
    destruct (IH (mkDumpLocals true ({[id]} ∪ dump_request_ids l)
      (<[id := list_to_set u]> (block_ids_by_request l)) (num_saved_block l + zlen u)
      (total_ucm_block_ids l ++ store_block_ids cfg u) (total_vllm_block_ids l ++ v))) as [E1 E2].
    - simpl. rewrite dom_insert_L, Hl. done.
    - split; [exact E1|]. etrans; [exact E2|]. csimpl. clear. set_solver. }
  destruct (Hind (request_meta metadata) (mkDumpLocals false ∅ ∅ 0 [] [])) as [E1 E2].
  { simpl. apply dom_empty_L. }
  split; [done|]. set_solver.
Qed.

Lemma submit_dump_contexts st ctx ids sh ps h (m : RankConsistencyManager) (w : W) m' w' r :
  submit_dump st ctx ids sh ps h (m, w) = ((m', w'), r) →
  match r with
  | Ok t => ∃ ctx', _dump_task_contexts m' = <[t := (st, ctx')]> (_dump_task_contexts m) ∧
              dom ctx' ⊆ dom ctx
  | Raise _ => _dump_task_contexts m' = _dump_task_contexts m
  end.
Proof.
  unfold submit_dump. mred.
  destruct (store_dump_data st ids sh ps h w) as [w1 [t|e]]; simpl; intros [= <- <- <-]; [|done].
  eexists. split; [done|]. destruct (enabled m); [done|]. rewrite dom_empty_L. set_solver.
Qed.

Lemma get_handle_spec s (d : D) (r : RankConsistencyManager * W) :
  ∃ d' o, _get_dump_event_handle cfg (s, d, r) = ((s, d', r), o) ∧
    match o with
    | Ok h => (h = 0 ∧ events d' = events d) ∨
              (enable_event_sync cfg = true ∧ h ≠ 0 ∧ (h ∉ events d) ∧ events d' = ({[h]} ∪ events d))
    | Raise _ => events d' = events d
    end.
Proof.
  unfold _get_dump_event_handle, on_device, zoom. unfold mbind, M_bind. simpl.
  assert (∀ d, ∃ d' o, (let '(t', r0) := synchronize d in ((s, t', r), r0)) = ((s, d', r), o) ∧
    events d' = events d) as Hsync.
  { intros d1. pose proof (synchronize_events d1). destruct (synchronize d1) as [d' o].
    by exists d', o. }
  destruct (enable_event_sync cfg) eqn:Es; simpl.
  - destruct (get_event_handle d) as [d1 [h|e]] eqn:Hg.
    2:{ eexists _, _. split; [done|]. by eapply get_event_handle_raise. }
    apply get_event_handle_ok in Hg. destruct (Z.eqb_spec h 0) as [->|Hz]; simpl.
    + destruct (Hsync d1) as (d2 & o & -> & He). exists d2.
      destruct Hg as [[_ Hev]|[? _]]; [|done].
      destruct o as [[]|e]; simpl; eexists; (split; [done|]); [left; split; congruence|congruence].
    + eexists _, _. split; [done|]. destruct Hg as [[? _]|(? & ? & ?)]; [done|]. right. done.
  - destruct (Hsync d) as (d2 & o & -> & He). exists d2.
    destruct o as [[]|e]; simpl; eexists; (split; [done|]); [by left|done].
Qed.

Lemma poll_pending_inv st :
  dump_inv st → ∃ st', _poll_pending_dump_tasks cfg st = (st', Ok tt) ∧ dump_inv st'.
Proof.
  intros Hinv. unfold _poll_pending_dump_tasks, mbind, M_bind, get_state.
  destruct (poll_dumps_settles (_pending_dump_tasks st.1.1) [] st) as (st1 & kept & -> & Hs).
  eexists. split; [done|]. simpl. pose proof Hs as (waited & _ & E & _).
  apply (settled_inv st st1 kept _ Hinv Hs); simpl; by rewrite ?E.
Qed.

(** Adding a submitted task. *)
Lemma add_task_inv s d m w (d' : D) m' (w' : W) t ctx st ids h :
  dump_inv (s, d, (m, w)) →
  _dump_task_contexts m' = <[t := (st, ctx)]> (_dump_task_contexts m) →
  dom ctx ⊆ ids → ids ⊆ dumping_req_ids s →
  (h = 0 ∧ events d' = events d) ∨
  (enable_event_sync cfg = true ∧ h ≠ 0 ∧ (h ∉ events d) ∧ events d' = ({[h]} ∪ events d)) →
  dump_inv (set_pending_dumps (_pending_dump_tasks s ++ [mkPendingDump t ids h]) s, d', (m', w')).
Proof.
  intros [Hc He Hn Hsy Hd] Em Hdom Hids Hh. simpl in *.
  assert (handles (_pending_dump_tasks s ++ [mkPendingDump t ids h]) =
    handles (_pending_dump_tasks s) ++ if decide (h = 0) then [] else [h]) as Eh.
  { rewrite handles_app. f_equal. unfold handles. simpl. rewrite filter_cons. case_decide as E1; case_decide; done. }
  constructor; cbn [fst snd set_pending_dumps _pending_dump_tasks dumping_req_ids]; rewrite ?Eh.
  - intros t' x. rewrite Em, lookup_insert_Some. intros [[<- <-]|[Hne Hx]].
    + eexists. split; [apply elem_of_app; right; left|]. done.
    + destruct (Hc t' x Hx) as (p & Hin & ? & ?). exists p. split; [|done]. apply elem_of_app. by left.
  - destruct Hh as [[-> ->]|(_ & Hz & Hfr & ->)].
    + by rewrite decide_True, app_nil_r by done.
    + rewrite decide_False, list_to_set_app_L by done. simpl. rewrite He. set_solver.
  - destruct Hh as [[-> _]|(_ & Hz & Hfr & _)].
    + by rewrite decide_True, app_nil_r by done.
    + rewrite decide_False by done. apply list.NoDup_app. split_and!; [done| |apply NoDup_singleton].
      intros x Hx ->%list_elem_of_singleton. apply Hfr. rewrite He. by apply elem_of_list_to_set.
  - intros Es. destruct Hh as [[-> _]|(Es' & _)]; [|congruence].
    rewrite decide_True, app_nil_r by done. by apply Hsy.
  - intros p. rewrite elem_of_app, list_elem_of_singleton. intros [Hp| ->]; [by apply Hd|done].
Qed.

(** Releasing the handle of a submission that failed. *)
Lemma release_inv s d m w (d1 : D) m1 (w1 : W) h :
  dump_inv (s, d, (m, w)) → _dump_task_contexts m1 = _dump_task_contexts m →
  (h = 0 ∧ events d1 = events d) ∨
  (enable_event_sync cfg = true ∧ h ≠ 0 ∧ (h ∉ events d) ∧ events d1 = ({[h]} ∪ events d)) →
  dump_inv (s, if enable_event_sync cfg && negb (h =? 0) then (destroy_event_handle h d1).1 else d1, (m1, w1)).
Proof.
  intros [Hc He Hn Hsy Hd] Em Ho. simpl in *.
  assert (events (if enable_event_sync cfg && negb (h =? 0) then (destroy_event_handle h d1).1 else d1) =
    events d) as Hev.
  { destruct Ho as [[-> Hev]|(Es & Hz & Hfr & Hev)]; [by rewrite andb_false_r|].
    rewrite Es, (proj2 (Z.eqb_neq _ _)) by done. simpl.
    destruct (destroy_event_handle_ok d1 h) as [_ ->]. rewrite Hev. set_solver. }
  constructor; simpl; rewrite ?Em; try done. by rewrite Hev.
Qed.

Lemma dump_inv_dumping s d r ids :
  dump_inv (s, d, r) → dump_inv (set_dumping (dumping_req_ids s ∪ ids) s, d, r).
Proof.
  intros [Hc He Hn Hsy Hd]. constructor; simpl in *; try done.
  intros p Hp%Hd. set_solver.
Qed.

(** [wait_for_save] never raises and keeps the invariant. *)
Lemma wait_for_save_inv metadata st :
  dump_inv st → ∃ st' r, wait_for_save cfg metadata st = (st', Ok r) ∧ dump_inv st'.
Proof.
  intros Hinv. unfold wait_for_save. unfold mbind at 1, M_bind at 1.
  destruct (poll_pending_inv st Hinv) as ([[s d] [m w]] & -> & Hinv1).
  unfold mbind at 1, M_bind at 1. simpl.
  apply (dump_inv_dumping _ _ _ (dump_requests metadata)) in Hinv1.
  set (s1 := set_dumping _ s) in *.
  destruct (is_save (collect_dumps cfg metadata)); simpl; [|by eexists _, _].
  destruct (block_ptrs cfg _) as [ptrs|e]; [|by eexists _, _].
  unfold mbind at 1, M_bind at 1, try_except at 1. unfold mbind at 1, M_bind at 1.
  destruct (get_handle_spec s1 d (m, w)) as (d1 & o & -> & Ho).
  destruct o as [h|e]; simpl.
  2:{ eexists _, _. split; [done|]. destruct Hinv1 as [Hc He Hn Hsy Hd].
      constructor; simpl in *; try done. by rewrite Ho. }
  unfold mbind at 1, M_bind at 1, try_except at 1. unfold mbind at 1, M_bind at 1.
  unfold on_manager at 1, zoom at 1. simpl.
  destruct (submit_dump _ _ _ _ _ _ _) as [[m1 w1] [t|e]] eqn:Hsub; simpl;
    apply submit_dump_contexts in Hsub.
  - destruct Hsub as (ctx & Em & Hdom). eexists _, _. split; [done|].
    destruct (collect_dumps_requests metadata) as [E1 E2].
    eapply (add_task_inv s1 d m w); [exact Hinv1|exact Em| | |exact Ho].
    + by rewrite E1 in Hdom.
    + unfold s1. simpl. set_solver.
  - pose proof (release_inv s1 d m w d1 m1 w1 h Hinv1 Hsub Ho) as Hinv2.
    destruct (enable_event_sync cfg && negb (h =? 0)); [|by eexists _, _].
    unfold mbind, M_bind, on_device, zoom. simpl. destruct (destroy_event_handle_ok d1 h) as [Hok _].
    destruct (destroy_event_handle h d1) as [d2 r2]. simpl in Hok, Hinv2. subst r2. by eexists _, _.
Qed.

Lemma flush_inv ids st :
  dump_inv st → ∃ st', _flush_pending_dump_tasks cfg ids st = (st', Ok tt) ∧ dump_inv st' ∧
    _pending_dump_tasks st'.1.1 =
      filter (λ p, match ids with Some i => touches i p | None => true end = false)
        (_pending_dump_tasks st.1.1).
Proof.
  intros Hinv. destruct st as [[s d] [m w]].
  unfold _flush_pending_dump_tasks, get_state, mbind, M_bind. simpl.
  destruct (wait_dumps_settles (λ p, match ids with Some i => touches i p | None => true end)
    (_pending_dump_tasks s) [] (set_pending_dumps [] s, d, (m, w))) as (st1 & -> & Hs).
  simpl. destruct st1 as [[s1 d1] r1]. eexists. split; [done|]. simpl.
  pose proof Hs as (waited & Hp & E & Hc & He). simpl in E. subst s1.
  split; [|done].
  eapply (settled_inv (s, d, (m, w)) (s, d1, r1)); [done| |done|done].
  by exists waited.
Qed.

Lemma finish_dump_ok ids (m : RankConsistencyManager) (w : W) :
  (∀ t x, _dump_task_contexts m !! t = Some x → ids ∩ dom x.2 = ∅) →
  ∃ m', finish_dump ids (m, w) = ((m', w), Ok tt) ∧ _dump_task_contexts m' = _dump_task_contexts m.
Proof.
  intros Hfree. unfold finish_dump. mred. destruct (enabled m); simpl; [|by exists m].
  rewrite decide_True.
  - eexists. split; [done|]. simpl. generalize (set_iter ids). intros l. clear Hfree. revert m.
    induction l as [|r l IH]; intros m; [done|]. simpl. by rewrite IH.
  - apply elem_of_equiv_empty_L. intros r. unfold pending_request_ids.
    rewrite elem_of_intersection, elem_of_union_list. intros [Hr (X & HX & HrX)].
    apply list_elem_of_fmap in HX as ([t x] & -> & Hin%elem_of_map_to_list).
    specialize (Hfree _ _ Hin). simpl in *. set_solver.
Qed.

(** Polling loads never raises: an exception counts as completion. *)
Lemma poll_load_total id p (st : state) : ∃ st' b, poll_load id p st = (st', Ok b).
Proof.
  unfold poll_load. unfold mbind at 1, M_bind at 1.
  edestruct (try_except_total (S := state) (A := bool)) as (st1 & b & ->).
  { intros e s1. by eexists _, _. }
  destruct b; by eexists _, _.
Qed.

Lemma poll_loads_total tasks fin (st : state) : ∃ st' r, poll_loads tasks fin st = (st', Ok r).
Proof.
  revert fin st. induction tasks as [|[id p] tasks IH]; intros fin st; cbn [poll_loads]; [by eexists _, _|].
  unfold mbind, M_bind. destruct (poll_load_total id p st) as (st1 & b & ->). apply IH.
Qed.

Lemma get_finished_inv fin st :
  dump_inv st → ∃ st' recv,
    get_finished cfg fin st = (st', Ok (or_none (fin ∩ dumping_req_ids st.1.1), recv)) ∧
    dump_inv st' ∧ dumping_req_ids st'.1.1 = dumping_req_ids st.1.1 ∖ fin ∧
    (∀ p, p ∈ _pending_dump_tasks st'.1.1 ↔
       p ∈ _pending_dump_tasks st.1.1 ∧ pd_request_ids p ∩ fin = ∅).
Proof.
  intros Hinv. unfold get_finished. unfold mbind at 1, M_bind at 1.
  pose proof (poll_pending_loads_view st) as Hv.
  destruct (_poll_pending_load_tasks st) as [st1 [recv|e]] eqn:Hpoll.
  2:{ revert Hpoll. unfold _poll_pending_load_tasks. unfold mbind, M_bind, get_state.
      destruct (poll_loads_total (_pending_load_tasks st.1.1) (_finished_async_load_req_ids st.1.1)
        (on_worker (set_finished_loads ∅) st).1) as (st2 & r & Hr). simpl in Hr. simpl. by rewrite Hr. }
  simpl in Hv. pose proof (dump_inv_view _ _ Hv Hinv) as Hinv1.
  unfold dump_view in Hv. injection Hv as _ Ep Ed _. unfold mbind at 1, M_bind at 1, get_state.
  rewrite Ed. set (af := fin ∩ dumping_req_ids st.1.1).
  assert (∃ st2, (if bool_decide (af = ∅) then mret tt
     else remaining ← wait_dumps cfg (touches af) (_pending_dump_tasks st1.1.1) [];
          on_worker (set_pending_dumps remaining)) st1 = (st2, Ok tt) ∧ dump_inv st2 ∧
     dumping_req_ids st2.1.1 = dumping_req_ids st.1.1 ∧
     (∀ p, p ∈ _pending_dump_tasks st2.1.1 ↔ p ∈ _pending_dump_tasks st.1.1 ∧ pd_request_ids p ∩ af = ∅))
    as (st2 & Hwait & Hinv2 & Ed2 & Hpend2).
  { case_bool_decide as Haf.
    - exists st1. split_and!; [done|done|done|]. intros p. rewrite Ep, Haf. set_solver.
    - unfold mbind, M_bind.
      destruct (wait_dumps_settles (touches af) (_pending_dump_tasks st1.1.1) [] st1) as (st2 & -> & Hs).
      eexists. split; [done|]. pose proof Hs as (waited & _ & E & _). split_and!.
      + apply (settled_inv st1 st2 _ _ Hinv1 Hs); simpl; by rewrite ?E.
      + simpl. by rewrite E.
      + intros p. simpl. rewrite list_elem_of_filter, Ep. unfold touches.
        rewrite bool_decide_eq_false. split; intros [? ?]; split; try done;
          [by apply dec_stable|by intros []]. }
  erewrite bind_ok; [|exact Hwait]. clear Hwait.
  destruct st2 as [[s2 d2] [m2 w2]].
  destruct (finish_dump_ok af m2 w2) as (m3 & Hfin & Ectx).
  { intros t x Hx. destruct (di_contexts _ Hinv2 t x Hx) as (p & Hin & _ & Hdom).
    apply Hpend2 in Hin as [_ Hdis]. set_solver. }
  erewrite bind_ok; [|unfold on_manager, zoom; simpl; by rewrite Hfin].
  eexists _, _. split; [done|].
  assert (∀ p, p ∈ _pending_dump_tasks s2 → pd_request_ids p ∩ fin = ∅) as Hno.
  { intros p Hp. pose proof (di_dumping _ Hinv2 p Hp) as Hsub. simpl in Hsub, Ed2. rewrite Ed2 in Hsub.
    apply Hpend2 in Hp as [_ Hdis]. set_solver. }
  simpl in Ed2. split_and!.
  - destruct Hinv2 as [Hc He Hn Hsy Hd]. constructor; simpl in *; try done.
    + intros t x. rewrite Ectx. apply Hc.
    + intros p Hp. specialize (Hno p Hp). specialize (Hd p Hp). set_solver.
  - simpl. rewrite Ed2. set_solver.
  - intros p. simpl. split.
    + intros Hp. split; [by apply Hpend2|by apply Hno].
    + intros [Hp Hdis]. apply Hpend2. split; [done|]. set_solver.
Qed.

(** ** Every sequence of calls *)

Inductive worker_step : state → state → Prop :=
| worker_load metadata st : worker_step st (start_load_kv cfg metadata st).1
| worker_save metadata st : worker_step st (wait_for_save cfg metadata st).1
| worker_preempt ids st : worker_step st (handle_preemptions cfg ids st).1
| worker_errors st : worker_step st (get_block_ids_with_load_errors st).1
| worker_report st : worker_step st (build_connector_worker_meta st).1
| worker_finished fin st : worker_step st (get_finished cfg fin st).1
| worker_stores s d m w w' : worker_step (s, d, (m, w)) (s, d, (m, w')).

Inductive worker_reachable : state → Prop :=
| worker_init mla use d w :
    events d = ∅ →
    worker_reachable (WorkerState_init mla, d, (RankConsistencyManager_init false use, w))
| worker_next st st' : worker_reachable st → worker_step st st' → worker_reachable st'.

Lemma preempt_inv ids st :
  dump_inv st → ∃ st', handle_preemptions cfg ids st = (st', Ok tt) ∧ dump_inv st' ∧
    (∀ p, p ∈ _pending_dump_tasks st'.1.1 ↔
       p ∈ _pending_dump_tasks st.1.1 ∧ pd_request_ids p ∩ ids = ∅).
Proof.
  intros Hinv. unfold handle_preemptions. case_bool_decide as Hids.
  { exists st. split_and!; [done|done|]. intros p. rewrite Hids. set_solver. }
  destruct (flush_inv (Some ids) st Hinv) as (st' & -> & Hinv' & Ep).
  exists st'. split_and!; [done|done|]. intros p. rewrite Ep, list_elem_of_filter. unfold touches.
  rewrite bool_decide_eq_false. split; intros [? ?]; split; try done; [by apply dec_stable|by intros []].
Qed.

Lemma reachable_inv st : worker_reachable st → dump_inv st.
Proof.
  induction 1 as [mla use d w Hev|st st' _ IH Hstep].
  { constructor; simpl; [by intros t x ?%lookup_empty_Some|done|apply NoDup_nil_2|done|].
    by intros p ?%elem_of_nil. }
  destruct Hstep as [md st|md st|ids st|st|st|fin st|s d m w w'].
  - eapply dump_inv_view; [apply start_load_kv_view|done].
  - destruct (wait_for_save_inv md st IH) as (st' & r & -> & ?). done.
  - destruct (preempt_inv ids st IH) as (st' & -> & ? & _). done.
  - eapply dump_inv_view; [apply load_errors_view|done].
  - eapply dump_inv_view; [apply worker_meta_view|done].
  - destruct (get_finished_inv fin st IH) as (st' & r & -> & ? & _). done.
  - destruct IH. by constructor.
Qed.

(** C29 Over every sequence of calls, with any results from stores and device:
    the device holds exactly one event handle for each pending dump task that
    has one, so no handle leaks or is destroyed twice; every dump the manager
    still accounts for is in the pending list together with all its requests;
    and every request with a pending dump is tracked as dumping. *)
Theorem worker_dump_invariant st : worker_reachable st → dump_inv st.
Proof. apply reachable_inv. Qed.

(** When the engine reports finished requests, [get_finished] never raises.
    It answers with those of them that were dumping, and before it returns
    every dump that touches any finished request has been waited for: none is
    left in the pending list or with the manager, so the engine may reuse the
    requests' KV blocks.  Dumps of other requests stay pending. *)
Theorem finished_requests_dumped st fin :
  worker_reachable st →
  ∃ st' recv, get_finished cfg fin st = (st', Ok (or_none (fin ∩ dumping_req_ids st.1.1), recv)) ∧
    dumping_req_ids st'.1.1 = dumping_req_ids st.1.1 ∖ fin ∧
    (∀ p, p ∈ _pending_dump_tasks st'.1.1 ↔
       p ∈ _pending_dump_tasks st.1.1 ∧ pd_request_ids p ∩ fin = ∅) ∧
    (∀ t x, _dump_task_contexts st'.2.1 !! t = Some x → dom x.2 ∩ fin = ∅).
Proof.
  intros Hst%reachable_inv.
  destruct (get_finished_inv fin st Hst) as (st' & recv & E & Hinv & Hd & Hp).
  exists st', recv. split_and!; [done|done|done|].
  intros t x Hx. destruct (di_contexts _ Hinv t x Hx) as (p & Hin & _ & Hdom).
  apply Hp in Hin as [_ Hdis]. set_solver.
Qed.

(** Before preempted requests lose their KV blocks their dumps are waited
    for: [handle_preemptions] never raises, leaves no pending dump that touches
    a preempted request, and leaves the dumps of other requests pending. *)
Theorem preempted_requests_flushed st ids :
  worker_reachable st →
  ∃ st', handle_preemptions cfg ids st = (st', Ok tt) ∧
    (∀ p, p ∈ _pending_dump_tasks st'.1.1 ↔
       p ∈ _pending_dump_tasks st.1.1 ∧ pd_request_ids p ∩ ids = ∅) ∧
    (∀ t x, _dump_task_contexts st'.2.1 !! t = Some x → dom x.2 ∩ ids = ∅).
Proof.
  intros Hst%reachable_inv. destruct (preempt_inv ids st Hst) as (st' & E & Hinv & Hp).
  exists st'. split_and!; [done|done|].
  intros t x Hx. destruct (di_contexts _ Hinv t x Hx) as (p & Hin & _ & Hdom).
  apply Hp in Hin as [_ Hdis]. set_solver.
Qed.
End dumps.

(** ** A concrete worker *)

(** A device that numbers its handles. *)
Record RefDevice := mkRefDevice { rd_events : gset Z }.

#[export] Instance RefDevice_world : DeviceWorld RefDevice := {|
  get_event_handle := λ d,
    (mkRefDevice ({[fresh_Z (rd_events d)]} ∪ rd_events d), Ok (fresh_Z (rd_events d)));
  synchronize := λ d, (d, Ok tt);
  destroy_event_handle := λ h d, (mkRefDevice (rd_events d ∖ {[h]}), Ok tt);
|}.

#[export] Instance RefDevice_spec : DeviceSpec RefDevice.
Proof.
  refine {| events := rd_events |}; simpl; try done.
  intros d d' h [= <- <-]. right. destruct (fresh_Z_spec (rd_events d)).
  split_and!; [lia|done|done].
Defined.

(** Rank 1 of two, with event synchronisation; KV block [b] is at [100 * b]. *)
Definition ex_worker : WorkerConfig :=
  mkWorkerConfig 1 2 false true true 8 0 (λ b, String.append "1:" b)
    (λ ids, Ok ((λ b, [100 * b]) <$> ids)).

Definition ex_dump : RequestDispatchMeta :=
  mkDispatchMeta ([], []) (["d"; "e"]%string, [13; 14]) 3 false.

Definition ex_worker_state : WorkerState * RefDevice * (RankConsistencyManager * RefStore) :=
  (WorkerState_init false, mkRefDevice ∅, (RankConsistencyManager_init false true, rs_init 0 [])).

(** After one step that dumps request [r]. *)
Definition ex_dumped : WorkerState * RefDevice * (RankConsistencyManager * RefStore) :=
  (wait_for_save ex_worker (mkConnectorMetadata [("r"%string, ex_dump)] ∅) ex_worker_state).1.

Lemma ex_dumped_reachable : worker_reachable ex_worker ex_dumped.
Proof.
  eapply worker_next; [|apply worker_save]. by apply worker_init.
Defined.

Lemma worker_dump_invariant_witness :
  handles (_pending_dump_tasks ex_dumped.1.1) = [1] ∧ dump_inv ex_worker ex_dumped.
Proof.
  split; [vm_compute; reflexivity|].
  apply (worker_dump_invariant ex_worker ex_dumped ex_dumped_reachable).
Defined.

