(* ===== verification/WorkerLoads.v ===== *)
(** * Loading on the worker: correctness

    [start_load_kv] submits the loads of a step and waits for the synchronous
    ones.  Whatever the layout, the stores and the manager raise, it returns,
    and it tells the engine exactly which requests and KV blocks are not
    valid.  What was submitted and waited for is read off the log of the
    stores. *)

From Stdlib Require Import ZArith Lia.
From stdpp Require Import base list gmap strings numbers fin_sets.
From S2P Require Import Prelude.
From S2P Require Import Store.
From S2P Require Import RankConsistency.
From S2P Require Import StoreLog.
From S2P Require Import DirectScheduler.
From S2P Require Import DirectWorker.
From S2P Require Import WorkerDumps.
Local Open Scope Z_scope.

Section loads.
Context {W D : Type} `{StoreWorld W} `{DeviceWorld D} `{PySetOrder}.
Variable cfg : WorkerConfig.

Abbreviation state := (WorkerState * D * (RankConsistencyManager * Logged W))%type.
Abbreviation entry := (req_id * RequestDispatchMeta)%type.

(** What is loaded of a request once null blocks are dropped. *)
Definition kept (request : RequestDispatchMeta) : list bytes * list Z :=
  if _skip_null_vllm_blocks cfg
  then _drop_null_vllm_blocks (load_block_ids request).1 (load_block_ids request).2
  else load_block_ids request.

(** A request with blocks to load, in the forward pass or in the background. *)
Definition has_load (p : entry) : Prop := (load_block_ids p.2).1 ≠ [].
Definition sync_load (p : entry) : Prop := has_load p ∧ load_async p.2 = false.
Definition async_load (p : entry) : Prop := has_load p ∧ load_async p.2 = true.

(** The KV blocks reported invalid when a load fails: those to load, and those
    computed from them. *)
Definition affected (request : RequestDispatchMeta) : list Z :=
  (load_block_ids request).2 ++ (dump_block_ids request).2.

(** The synchronous loads that did not fail, in order. *)
Definition completed (F : gset string) (reqs : list entry) : list entry :=
  filter (λ p, sync_load p ∧ (kept p.2).1 ≠ [] ∧ p.1 ∉ F) reqs.

Definition load_count (reqs : list entry) : Z := list_sum ((λ p, zlen (kept p.2).1) <$> reqs).

(** A run from [st] to [st'] that logs the events [es]; the worker only ever
    loads from its own store. *)
Definition runs (st st' : state) (es : list store_event) : Prop :=
  log st'.2.2 = log st.2.2 ++ es ∧
  (loads_at (worker_store cfg) st.2.1 → loads_at (worker_store cfg) st'.2.1).

Lemma runs_same st st' : st'.2 = st.2 → runs st st' [].
Proof. unfold runs. intros ->. split; [by rewrite app_nil_r|done]. Qed.

Lemma runs_trans st st1 st' es es' : runs st st1 es → runs st1 st' es' → runs st st' (es ++ es').
Proof. intros [E1 L1] [E2 L2]. split; [by rewrite E2, E1, app_assoc|auto]. Qed.

(** Among the events, the load of a request was submitted, as a task: the keys
    of this rank, and the addresses of the request's KV blocks. *)
Definition submitted (es : list store_event) (request : RequestDispatchMeta) (t : task) : Prop :=
  ∃ ptrs, block_ptrs cfg (kept request).2 = Ok ptrs ∧
    EvLoad (worker_store cfg) (store_block_ids cfg (kept request).1)
      (replicate (length (kept request).1) 0) ptrs
      (if supports_distributed_backend_load (W := W) (worker_store cfg) then Some (is_mla cfg) else None)
      (Ok t) ∈ es.

(** Among the events, a wait for the task that returned, and a poll that said
    it is still in flight. *)
Definition waited (es : list store_event) (t : task) : Prop := EvWait (worker_store cfg) t (Ok tt) ∈ es.
Definition still_loading (es : list store_event) (t : task) : Prop :=
  EvCheck (worker_store cfg) t (Ok false) ∈ es.

Lemma submitted_mono es es' request t : es ⊆ es' → submitted es request t → submitted es' request t.
Proof. intros Hsub (ptrs & E & Hin). exists ptrs. auto. Qed.

(** The worker's reports changed from [s] to [s'] by the failures [F]. *)
Definition reports (F : gset string) (reqs : list entry) (s s' : WorkerState) : Prop :=
  load_failed_reqs (_connector_worker_meta s') = load_failed_reqs (_connector_worker_meta s) ∪ F ∧
  (∀ b, b ∈ _invalid_block_ids s' ↔
     b ∈ _invalid_block_ids s ∨ ∃ p, p ∈ reqs ∧ p.1 ∈ F ∧ b ∈ affected p.2).

(** An asynchronous load is accounted for: finished at once, or pending, since
    before or by a task submitted now. *)
Definition accounted (es : list store_event) (F : gset string) (s s' : WorkerState) (p : entry) : Prop :=
  if decide (p.1 ∈ F) then p.1 ∈ _finished_async_load_req_ids s'
  else ((kept p.2).1 = [] ∧ p.1 ∈ _finished_async_load_req_ids s') ∨
       ∃ q, od_get p.1 (_pending_load_tasks s') = Some q ∧
         (od_get p.1 (_pending_load_tasks s) = Some q ∨
          (submitted es p.2 (pl_task q) ∧ pl_vllm_block_ids q = (kept p.2).2)).

(** What may happen to a request in the first loop: the new tasks and counts,
    by how much the number of loaded blocks grows, the worker's new state, and
    whether the load failed. *)
Inductive load_step (es : list store_event) (id : req_id) (request : RequestDispatchMeta)
    (s : WorkerState) : list (req_id * task) → Z → WorkerState → bool → Prop :=
| load_empty :
    (kept request).1 = [] →
    load_step es id request s [] 0
      (if load_async request
       then set_finished_loads ({[id]} ∪ _finished_async_load_req_ids s) s else s) false
| load_duplicate :
    load_async request = true → is_Some (od_get id (_pending_load_tasks s)) →
    load_step es id request s [] 0 s false
| load_pending t :
    load_async request = true → od_get id (_pending_load_tasks s) = None → submitted es request t →
    load_step es id request s [] 0
      (set_pending_loads (od_set id (mkPendingLoad t id (kept request).2) (_pending_load_tasks s)) s) false
| load_task t :
    load_async request = false → (kept request).1 ≠ [] → submitted es request t →
    load_step es id request s [(id, t)] (zlen (kept request).1) s false
| load_failed :
    load_step es id request s [] 0
      (let s1 := set_worker_meta (mark_failed id (_connector_worker_meta s))
                   (set_invalid (_invalid_block_ids s ∪ list_to_set (affected request)) s) in
       if load_async request
       then set_finished_loads ({[id]} ∪ _finished_async_load_req_ids s1) s1 else s1) true.

Definition add_tasks (ts : list (req_id * task)) (n : Z) (sync : bool) (l : load_locals) : load_locals :=
  mkLoadLocals (od_update (request_to_task l) ts)
    (od_update (request_to_load_blocks l) ((λ p, (p.1, n)) <$> ts))
    (is_load l || sync) (num_loaded_block l + n).

(** Submitting leaves the worker's own state, and logs one load, unless the
    layout has no addresses for the blocks. *)
Lemma submit_request_run id request (st : state) :
  ∃ r' o es, submit_request_load cfg id (kept request).1 (kept request).2 st = ((st.1, r'), o) ∧
    runs st (st.1, r') es ∧ ∀ t, o = Ok t → submitted es request t.
Proof.
  destruct st as [[s d] r]. unfold submit_request_load, lift_outcome. unfold mbind, M_bind.
  destruct (block_ptrs cfg (kept request).2) as [ptrs|e] eqn:Ep.
  2:{ exists r, (Raise e), []. split_and!; [done|by apply runs_same|done]. }
  unfold on_manager, zoom. cbn [fst snd].
  destruct (submit_load_log (worker_store cfg) {[id := (kept request).1]}
    (store_block_ids cfg (kept request).1) (replicate (length (kept request).1) 0) ptrs (is_mla cfg) r)
    as (m' & w' & o & -> & Hm).
  eexists _, o, [_]. split; [done|]. split.
  - split; [done|]. simpl. intros Hl. destruct o as [t|e]; [|by eapply loads_at_eq].
    destruct Hm as [c Hm]. by eapply loads_at_insert.
  - intros t ->. exists ptrs. split; [done|]. left.
Qed.

Lemma load_request_step id request l (st : state) :
  has_load (id, request) →
  ∃ st' ts n failed es, load_request cfg id request l st =
      (st', Ok (add_tasks ts n (negb (load_async request)) l)) ∧ runs st st' es ∧
    load_step es id request st.1.1 ts n st'.1.1 failed.
Proof.
  intros Hl. destruct st as [[s d] r]. unfold load_request.
  change (if _skip_null_vllm_blocks cfg
    then _drop_null_vllm_blocks (load_block_ids request).1 (load_block_ids request).2
    else load_block_ids request) with (kept request).
  assert (_skip_null_vllm_blocks cfg = false → (kept request).1 ≠ []) as Hne
    by (unfold kept; intros ->; exact Hl).
  assert (∀ b n, n = 0 → mkLoadLocals (request_to_task l) (request_to_load_blocks l)
      (is_load l || b) (num_loaded_block l + n) = add_tasks [] 0 b l) as Enil.
  { intros b n ->. done. }
  rewrite (surjective_pairing (kept request)).
  destruct (_skip_null_vllm_blocks cfg && bool_decide ((kept request).1 = [])) eqn:Hskip.
  { apply andb_true_iff in Hskip as [_ Hu%bool_decide_eq_true].
    pose proof (load_empty [] id request s Hu) as Hst.
    rewrite <- (Z.add_0_r (num_loaded_block l)), Enil by done.
    destruct (load_async request); eexists _, [], 0, false, [];
      (split; [reflexivity|split; [by apply runs_same|exact Hst]]). }
  assert ((kept request).1 ≠ []) as Hu.
  { apply andb_false_iff in Hskip as [Hsk|Hu%bool_decide_eq_false]; [by apply Hne|done]. }
  clear Hskip Hne. unfold mbind at 1, M_bind at 1, get_state. cbn [fst snd].
  destruct (submit_request_run id request (s, d, r)) as (r' & o & es & Esub & Hrun & Hsub).
  pose proof (load_failed es id request s) as Hfail. cbn [fst snd] in Esub.
  destruct (load_async request) eqn:Ha; cbn [andb negb] in *.
  - case_bool_decide as Hd.
    { eexists _, [], 0, false, []. rewrite Enil by done.
      split; [reflexivity|split; [by apply runs_same|]]. by apply load_duplicate. }
    apply eq_None_not_Some in Hd. unfold try_except. unfold mbind at 1, M_bind at 1. rewrite Esub.
    destruct o as [t|e].
    + eexists _, [], 0, false, es. rewrite Enil by done. split; [reflexivity|split; [exact Hrun|]].
      apply load_pending; auto.
    + eexists _, [], 0, true, es. rewrite <- Z.add_opp_r, <- Z.add_assoc, Enil by lia.
      split; [reflexivity|split; [exact Hrun|exact Hfail]].
  - unfold try_except. unfold mbind at 1, M_bind at 1. rewrite Esub. destruct o as [t|e].
    + eexists _, [(id, t)], (zlen (kept request).1), false, es. split.
      { unfold add_tasks. simpl. do 4 f_equal. lia. }
      split; [exact Hrun|]. apply load_task; auto.
    + eexists _, [], 0, true, es. rewrite <- Z.add_opp_r, <- Z.add_assoc, Enil by lia.
      split; [reflexivity|split; [exact Hrun|exact Hfail]].
Qed.

Lemma completed_ext F F' reqs :
  (∀ p, p ∈ reqs → p.1 ∈ F ↔ p.1 ∈ F') → completed F reqs = completed F' reqs.
Proof.
  unfold completed. induction reqs as [|p reqs IH]; intros HF; [done|].
  rewrite !filter_cons, IH by (intros q Hq; apply HF; by right).
  specialize (HF p ltac:(left)). repeat case_decide; naive_solver.
Qed.

(** Later requests do not take back what was recorded. *)
Definition grows (s s' : WorkerState) : Prop :=
  _finished_async_load_req_ids s ⊆ _finished_async_load_req_ids s' ∧
  ∀ id q, od_get id (_pending_load_tasks s) = Some q → od_get id (_pending_load_tasks s') = Some q.

Lemma accounted_grows es es' F s s1 s' p :
  es ⊆ es' → grows s1 s' → accounted es F s s1 p → accounted es' F s s' p.
Proof.
  unfold accounted. intros Hes [Hf Hp]. case_decide; [set_solver|].
  intros [[? ?]|(q & Hq & Hor)]; [left; set_solver|right].
  exists q. split; [auto|]. destruct Hor as [?|[? ?]]; [by left|right].
  split; [by eapply submitted_mono|done].
Qed.

Lemma accounted_ext es (F F' : gset string) s s0 s' p :
  (p.1 ∈ F ↔ p.1 ∈ F') → od_get p.1 (_pending_load_tasks s0) = od_get p.1 (_pending_load_tasks s) →
  accounted es F s s' p → accounted es F' s0 s' p.
Proof.
  unfold accounted. intros HF ->.
  destruct (decide (p.1 ∈ F)); [rewrite decide_True by tauto|rewrite decide_False by tauto]; done.
Qed.

(** The effect of one request on the worker's reports. *)
Lemma load_step_effect es id request s ts n s' failed :
  has_load (id, request) → load_step es id request s ts n s' failed →
  let F : gset string := if failed then {[id]} else ∅ in
  reports F [(id, request)] s s' ∧ grows s s' ∧
  (∀ id', id' ≠ id → od_get id' (_pending_load_tasks s') = od_get id' (_pending_load_tasks s)) ∧
  (async_load (id, request) → accounted es F s s' (id, request)) ∧
  ((λ p, (p.1, n)) <$> ts) = (λ p, (p.1, zlen (kept p.2).1)) <$> completed F [(id, request)] ∧
  n = load_count (completed F [(id, request)]) ∧ ts.*1 = (completed F [(id, request)]).*1 ∧
  ∀ t, (id, t) ∈ ts → submitted es request t.
Proof.
  intros Hl Hst. unfold completed.
  assert (∀ F : gset string, load_async request = true →
    filter (λ p : entry, sync_load p ∧ (kept p.2).1 ≠ [] ∧ p.1 ∉ F) [(id, request)] = []) as Hasync.
  { intros F Ha. rewrite filter_cons_False; [done|]. intros [[_ Hs] _]. simpl in Hs. congruence. }
  assert (reports ∅ [(id, request)] s s) as Hrep0 by (split; set_solver).
  destruct Hst as [Hk|Ha Hp|t Ha Hp Hsub|t Ha Hk Hsub|]; simpl.
  - rewrite filter_cons_False by (simpl; tauto). split_and!; try done.
    + by destruct (load_async request).
    + destruct (load_async request); (split; [set_solver|done]).
    + by destruct (load_async request).
    + intros [_ Ha]. simpl in Ha. rewrite Ha. unfold accounted. simpl.
      rewrite decide_False by set_solver. left. set_solver.
    + by intros t ?%elem_of_nil.
  - rewrite Hasync by done. split_and!; try done.
    + intros _. unfold accounted. simpl. rewrite decide_False by set_solver. right.
      destruct Hp as [q Hq]. exists q. auto.
    + by intros t ?%elem_of_nil.
  - rewrite Hasync by done. split_and!; try done.
    + split; [done|]. intros id' q. simpl. rewrite od_get_set. case_decide; [congruence|done].
    + intros id' Hne. simpl. by rewrite od_get_set, decide_False by done.
    + intros _. unfold accounted. simpl. rewrite decide_False by set_solver. right.
      rewrite od_get_set, decide_True by done. eexists. split; [done|]. by right.
    + by intros t' ?%elem_of_nil.
  - rewrite filter_cons_True by (simpl; split_and!; [by split|done|set_solver]).
    rewrite filter_nil. split_and!; try done.
    + intros [_ Ha']. simpl in Ha'. congruence.
    + unfold load_count. simpl. lia.
    + intros t' [= ->]%list_elem_of_singleton. done.
  - rewrite filter_cons_False by (simpl; set_solver). split_and!; try done.
    + destruct (load_async request); (split; simpl; [set_solver|]); intros b;
        rewrite elem_of_union, elem_of_list_to_set;
        (split; intros [?|Hb]; [by left|right|by left|right]);
        first [exists (id, request); split_and!; [left|by apply elem_of_singleton|exact Hb]
              |by destruct Hb as (p & ->%list_elem_of_singleton & _ & ?)].
    + destruct (load_async request); (split; [set_solver|done]).
    + by destruct (load_async request).
    + intros [_ Ha]. simpl in Ha. rewrite Ha. unfold accounted. simpl.
      rewrite decide_True by set_solver. set_solver.
    + by intros t' ?%elem_of_nil.
Qed.

Lemma completed_cons F p reqs : completed F (p :: reqs) = completed F [p] ++ completed F reqs.
Proof. unfold completed. change (p :: reqs) with ([p] ++ reqs). by rewrite filter_app. Qed.

Lemma load_count_app l1 l2 : load_count (l1 ++ l2) = load_count l1 + load_count l2.
Proof.
  unfold load_count. rewrite fmap_app. unfold list_sum.
  induction (_ <$> l1) as [|x l IH]; simpl; lia.
Qed.

Lemma completed_elem F reqs p : p ∈ completed F reqs → p ∈ reqs ∧ p.1 ∉ F.
Proof. unfold completed. rewrite list_elem_of_filter. naive_solver. Qed.

Lemma reports_refl reqs s : reports ∅ reqs s s.
Proof.
  split; [by rewrite union_empty_r_L|]. intros b. split; [by left|].
  intros [?|(p & _ & Hp & _)]; [done|by apply elem_of_empty in Hp].
Qed.

Lemma reports_cons F1 F2 p reqs s s1 s' :
  p.1 ∉ reqs.*1 → F1 ⊆ {[p.1]} → (∀ id, id ∈ F2 → id ∈ reqs.*1) →
  reports F1 [p] s s1 → reports F2 reqs s1 s' → reports (F1 ∪ F2) (p :: reqs) s s'.
Proof.
  intros Hp HF1 HF2 [Hf1 Hi1] [Hf2 Hi2]. split.
  { rewrite Hf2, Hf1. by rewrite (assoc_L (∪)). }
  intros b. rewrite Hi2, Hi1. split.
  - intros [[?|(q & ->%list_elem_of_singleton & ? & ?)]|(q & ? & ? & ?)]; [by left|right|right].
    + exists p. split_and!; [left|set_solver|done].
    + exists q. split_and!; [by right|set_solver|done].
  - intros [?|(q & Hq & HF & ?)]; [auto|]. apply elem_of_cons in Hq as [->|Hq].
    + left; right. exists p. split_and!; [left| |done].
      apply elem_of_union in HF as [?|?%HF2]; done.
    + right. exists q. split_and!; [done| |done].
      apply elem_of_union in HF as [HF|?]; [|done].
      apply HF1, elem_of_singleton in HF. destruct Hp. rewrite <- HF. apply list_elem_of_fmap. eauto.
Qed.

Lemma exists_sync_cons id r reqs :
  has_load (id, r) →
  bool_decide (Exists sync_load ((id, r) :: reqs)) =
  negb (load_async r) || bool_decide (Exists sync_load reqs).
Proof.
  intros Hl. rewrite (bool_decide_ext _ (sync_load (id, r) ∨ Exists sync_load reqs)) by apply Exists_cons.
  rewrite bool_decide_or. f_equal. unfold sync_load. simpl.
  destruct (load_async r); [by rewrite bool_decide_false by naive_solver|].
  by rewrite bool_decide_true.
Qed.

Lemma submit_loads_spec reqs l (st : state) :
  NoDup reqs.*1 →
  (∀ id, id ∈ reqs.*1 → (id ∉ (request_to_task l).*1) ∧ (id ∉ (request_to_load_blocks l).*1)) →
  ∃ st' F T es,
    submit_loads cfg reqs l st = (st', Ok (mkLoadLocals (request_to_task l ++ T)
      (request_to_load_blocks l ++ ((λ p, (p.1, zlen (kept p.2).1)) <$> completed F reqs))
      (is_load l || bool_decide (Exists sync_load reqs))
      (num_loaded_block l + load_count (completed F reqs)))) ∧
    runs st st' es ∧ T.*1 = (completed F reqs).*1 ∧
    (∀ id t, (id, t) ∈ T → ∃ r, (id, r) ∈ reqs ∧ submitted es r t) ∧
    (∀ id, id ∈ F → ∃ r, (id, r) ∈ reqs ∧ has_load (id, r)) ∧
    reports F reqs st.1.1 st'.1.1 ∧ grows st.1.1 st'.1.1 ∧
    (∀ p, p ∈ reqs → async_load p → accounted es F st.1.1 st'.1.1 p).
Proof.
  revert l st. induction reqs as [|[id r] reqs IH]; intros l st Hnd Hfresh; cbn [submit_loads].
  { exists st, ∅, [], []. rewrite !app_nil_r, orb_false_r. unfold load_count. simpl. rewrite Z.add_0_r.
    destruct l. split_and!; try done; [by apply runs_same|by intros id t ?%elem_of_nil|apply reports_refl|].
    by intros p ?%elem_of_nil. }
  csimpl in Hnd. apply list.NoDup_cons in Hnd as [Hid Hnd].
  destruct (bool_decide_reflect ((load_block_ids r).1 = [])) as [Hload|Hload].
  { destruct (IH l st Hnd) as (st' & F & T & es & E & Hrun & HT & Hsub & HF & Hrep & Hgr & Hacc).
    { intros id' Hin. apply Hfresh. by right. }
    assert (completed F [(id, r)] = []) as Ec.
    { unfold completed. rewrite filter_cons_False; [done|]. intros [[Hl _] _]. exact (Hl Hload). }
    exists st', F, T, es. rewrite E, completed_cons, Ec. simpl. split_and!; try done.
    - do 4 f_equal. apply bool_decide_ext. rewrite Exists_cons. split; [by right|].
      intros [[Hl _]|?]; [by destruct (Hl Hload)|done].
    - intros id' t (r' & ? & ?)%Hsub. exists r'. split; [by right|done].
    - intros id' (r' & ? & ?)%HF. exists r'. split; [by right|done].
    - rewrite <- (union_empty_l_L F). eapply (reports_cons ∅ F (id, r)); [done|set_solver| |apply reports_refl|done].
      intros id' (r' & ? & ?)%HF. apply list_elem_of_fmap. by exists (id', r').
    - intros p [->|Hp]%elem_of_cons Ha; [by destruct (proj1 Ha Hload)|by apply Hacc]. }
  destruct (load_request_step id r l st Hload) as (st1 & ts & n & failed & es1 & E & Hrun1 & Hst).
  apply load_step_effect in Hst as (Hrep1 & Hgr1 & Hfr1 & Hacc1 & Eb & En & Et & Hsub1); [|done].
  set (F1 := if failed then {[id]} else ∅ : gset string) in *.
  assert (F1 ⊆ {[id]}) as HF1 by (unfold F1; destruct failed; set_solver).
  assert (ts = [] ∨ ∃ t, ts = [(id, t)]) as Hts.
  { unfold completed in Et. rewrite filter_cons in Et. case_decide; csimpl in Et.
    - destruct ts as [|[i t] [|]]; csimpl in Et; simplify_eq. right. by exists t.
    - left. by destruct ts. }
  erewrite bind_ok; [|exact E].
  assert (add_tasks ts n (negb (load_async r)) l =
    mkLoadLocals (request_to_task l ++ ts) (request_to_load_blocks l ++ ((λ p, (p.1, n)) <$> ts))
      (is_load l || negb (load_async r)) (num_loaded_block l + n)) as Eadd.
  { unfold add_tasks. destruct Hts as [->|[t ->]]; simpl; [by rewrite !app_nil_r|].
    destruct (Hfresh id ltac:(csimpl; left)). by rewrite !od_set_fresh by done. }
  rewrite Eadd. clear Eadd E.
  edestruct (IH (mkLoadLocals (request_to_task l ++ ts)
    (request_to_load_blocks l ++ ((λ p, (p.1, n)) <$> ts))
    (is_load l || negb (load_async r)) (num_loaded_block l + n)) st1 Hnd)
    as (st' & F & T & es & -> & Hrun & HT & Hsub & HF & Hrep & Hgr & Hacc).
  { intros id' Hin. destruct (Hfresh id') as [? ?]; [csimpl; by right|]. simpl.
    assert (id' ≠ id) by congruence.
    destruct Hts as [->|[t ->]]; csimpl; rewrite ?app_nil_r, ?fmap_app; csimpl; [done|].
    by rewrite !not_elem_of_app, !list_elem_of_singleton. }
  assert (id ∉ F) as HidF.
  { intros (r' & Hin & _)%HF. apply Hid, list_elem_of_fmap. by exists (id, r'). }
  assert (completed (F1 ∪ F) ((id, r) :: reqs) = completed F1 [(id, r)] ++ completed F reqs) as Ec.
  { rewrite completed_cons. f_equal; apply completed_ext.
    - intros p ->%list_elem_of_singleton. simpl. set_solver.
    - intros p Hp. assert (p.1 ≠ id) as Hne by (intros <-; apply Hid, list_elem_of_fmap; eauto).
      clear -HF1 Hne. set_solver. }
  assert (es1 ⊆ es1 ++ es) as Hes1 by (intros x ?; apply elem_of_app; by left).
  assert (es ⊆ es1 ++ es) as Hes by (intros x ?; apply elem_of_app; by right).
  exists st', (F1 ∪ F), (ts ++ T), (es1 ++ es). rewrite Ec. split_and!.
  - simpl. rewrite exists_sync_cons by done.
    by rewrite fmap_app, load_count_app, <- Eb, <- En, <- !app_assoc, <- Z.add_assoc, orb_assoc.
  - by eapply runs_trans.
  - rewrite !fmap_app. by rewrite Et, HT.
  - intros id' t [Hin|Hin]%elem_of_app.
    + exists r. destruct Hts as [->|[t' ->]]; [by apply elem_of_nil in Hin|].
      apply list_elem_of_singleton in Hin as [= -> ->]. split; [left|]. eapply submitted_mono; [exact Hes1|]. apply Hsub1. left.
    + destruct (Hsub _ _ Hin) as (r' & ? & ?). exists r'. split; [by right|by eapply submitted_mono].
  - intros id' [Hin|Hin]%elem_of_union.
    + apply HF1, elem_of_singleton in Hin as ->. exists r. split; [left|done].
    + destruct (HF _ Hin) as (r' & ? & ?). exists r'. split; [by right|done].
  - eapply (reports_cons F1 F (id, r)); [done|done| |done|done].
    intros id' (r' & ? & ?)%HF. apply list_elem_of_fmap. by exists (id', r').
  - destruct Hgr1 as [? ?], Hgr as [? ?]. split; [set_solver|auto].
  - intros p [->|Hp]%elem_of_cons Ha.
    + specialize (Hacc1 Ha). apply (accounted_grows _ _ _ _ _ _ _ Hes1 Hgr) in Hacc1.
      eapply (accounted_ext _ F1); [|done|done]. simpl. clear -HidF. set_solver.
    + specialize (Hacc p Hp Ha).
      assert (p.1 ≠ id) as Hne by (intros <-; apply Hid, list_elem_of_fmap; eauto).
      eapply (accounted_ext _ F _ st1.1.1); [clear -HF1 Hne; set_solver|by rewrite Hfr1|].
      eapply accounted_grows; [exact Hes| |exact Hacc]. split; [done|auto].
Qed.

(** ** Waiting *)

Lemma reports_trans F1 F2 reqs s s1 s' :
  reports F1 reqs s s1 → reports F2 reqs s1 s' → reports (F1 ∪ F2) reqs s s'.
Proof.
  intros [Hf1 Hi1] [Hf2 Hi2]. split.
  { rewrite Hf2, Hf1. by rewrite (assoc_L (∪)). }
  intros b. rewrite Hi2, Hi1. split.
  - intros [[?|(p & ? & ? & ?)]|(p & ? & ? & ?)]; [by left|right|right]; exists p; set_solver.
  - intros [?|(p & ? & [?|?]%elem_of_union & ?)]; [auto|left; right|right]; by exists p.
Qed.

(** Waiting through the manager. *)
Lemma manager_wait_run t (st : state) :
  loads_at (worker_store cfg) st.2.1 →
  ∃ r' o es, on_manager (wait_load t None) st = ((st.1, r'), o) ∧ runs st (st.1, r') es ∧
    (o = Ok tt → waited es t).
Proof.
  intros Hl. destruct st as [s r]. unfold on_manager, zoom. cbn [fst snd] in *.
  destruct (wait_load_log t r) as (m' & l' & o & -> & Hm & Hlog).
  destruct (load_store r.1 t) as [s'|] eqn:Es.
  - assert (s' = worker_store cfg) as -> by (by eapply Hl).
    eexists _, o, _. split; [done|]. split; [split; [exact Hlog|]|].
    + intros _. by eapply loads_at_delete.
    + intros ->. left.
  - destruct Hlog as [Hlog ->]. eexists _, _, []. split; [done|]. split; [split|done].
    + simpl. by rewrite Hlog, app_nil_r.
    + intros _. by eapply loads_at_delete.
Qed.

(** Waiting for the task of one request. *)
Lemma wait_one_spec md id req t lb num (st : state) :
  NoDup (request_meta md).*1 → (id, req) ∈ request_meta md → loads_at (worker_store cfg) st.2.1 →
  ∃ st1 (F1 : gset string) es, (F1 = ∅ ∨ F1 = {[id]}) ∧ runs st st1 es ∧
    try_except (on_manager (wait_load t None) ;; mret num)
      (λ _, blocks ← failed_blocks md id; _record_load_error blocks ;; worker_mark_failed id ;;
            mret (num - default 0 (od_get id lb))) st =
    (st1, Ok (num - if decide (F1 = ∅) then 0 else default 0 (od_get id lb))) ∧
    reports F1 (request_meta md) st.1.1 st1.1.1 ∧
    _finished_async_load_req_ids st1.1.1 = _finished_async_load_req_ids st.1.1 ∧
    _pending_load_tasks st1.1.1 = _pending_load_tasks st.1.1 ∧ (F1 = ∅ → waited es t).
Proof.
  intros Hmd Hreq Hl. unfold try_except. unfold mbind at 1, M_bind at 1.
  destruct (manager_wait_run t st Hl) as (r2 & o & es & -> & Hrun & Hw). destruct st as [[s d] r].
  destruct o as [[]|e].
  - exists (s, d, r2), ∅, es. rewrite decide_True by done. simpl. rewrite Z.sub_0_r.
    split_and!; [by left|exact Hrun|done|apply reports_refl|done|done|auto].
  - unfold failed_blocks. rewrite (od_get_elem id req) by done.
    eexists _, {[id]}, es. rewrite decide_False by set_solver.
    split; [by right|]. split; [|split; [reflexivity|]]; [exact Hrun|].
    split_and!; [|done|done|set_solver].
    split; simpl; [apply union_comm_L|]. intros b. rewrite elem_of_union, elem_of_list_to_set.
    split; (intros [?|Hb]; [by left|right]).
    + exists (id, req). split_and!; [done|by apply elem_of_singleton|done].
    + destruct Hb as ([id' req'] & Hp & Hi & Hb). apply elem_of_singleton in Hi. simpl in Hi. subst id'.
      assert (req' = req) as ->; [|done].
      apply (od_get_elem _ _ _ Hmd) in Hp, Hreq. congruence.
Qed.

Lemma wait_loads_spec md T lb num (st : state) :
  NoDup (request_meta md).*1 → NoDup T.*1 →
  (∀ id, id ∈ T.*1 → id ∈ (request_meta md).*1) → loads_at (worker_store cfg) st.2.1 →
  ∃ st' F es, runs st st' es ∧
    wait_loads md T lb num st =
      (st', Ok (num - list_sum ((λ id, default 0 (od_get id lb)) <$> filter (λ id, id ∈ F) T.*1))) ∧
    (∀ id, id ∈ F → id ∈ T.*1) ∧
    reports F (request_meta md) st.1.1 st'.1.1 ∧
    _finished_async_load_req_ids st'.1.1 = _finished_async_load_req_ids st.1.1 ∧
    _pending_load_tasks st'.1.1 = _pending_load_tasks st.1.1 ∧
    (∀ id t, (id, t) ∈ T → id ∉ F → waited es t).
Proof.
  intros Hmd. revert num st. induction T as [|[id t] T IH]; intros num st Hnd Hin Hl; cbn [wait_loads].
  { exists st, ∅, []. simpl. rewrite Z.sub_0_r. split_and!; try done; [by apply runs_same|apply reports_refl|].
    by intros ? ? ?%elem_of_nil. }
  csimpl in Hnd. apply list.NoDup_cons in Hnd as [Hid Hnd].
  assert (∃ req, (id, req) ∈ request_meta md) as [req Hreq].
  { specialize (Hin id ltac:(csimpl; left)). apply list_elem_of_fmap in Hin as ([? req] & -> & ?).
    by exists req. }
  destruct (wait_one_spec md id req t lb num st Hmd Hreq Hl)
    as (st1 & F1 & es1 & HF1 & Hrun1 & E & Hrep1 & Hfin1 & Hpend1 & Hw1).
  erewrite bind_ok; [|exact E]. clear E.
  destruct (IH (num - if decide (F1 = ∅) then 0 else default 0 (od_get id lb)) st1 Hnd)
    as (st' & F & es & Hrun & -> & HF & Hrep & Hfin & Hpend & Hwait).
  { intros id' ?. apply Hin. csimpl. by right. }
  { by apply Hrun1. }
  assert (id ∉ F) as HidF by (by intros ?%HF).
  exists st', (F1 ∪ F), (es1 ++ es). split_and!.
  - by eapply runs_trans.
  - f_equal. f_equal. csimpl. rewrite <- Z.sub_add_distr. f_equal. rewrite filter_cons.
    assert (filter (λ id0, id0 ∈ F1 ∪ F) T.*1 = filter (λ id0, id0 ∈ F) T.*1) as ->.
    { clear -HF1 Hid. induction T.*1 as [|x l IH]; [done|]. rewrite !filter_cons.
      apply not_elem_of_cons in Hid as [? ?]. rewrite IH by done.
      destruct HF1 as [->| ->]; repeat case_decide; set_solver. }
    destruct HF1 as [->| ->].
    + rewrite (decide_True (P := ∅ = ∅)), decide_False by set_solver. lia.
    + rewrite (decide_False (P := {[id]} = ∅)), decide_True by set_solver. simpl. done.
  - intros id' [Hi|Hi]%elem_of_union; csimpl; [|right; by apply HF].
    destruct HF1 as [->| ->]; [set_solver|]. apply elem_of_singleton in Hi as ->. left.
  - by eapply reports_trans.
  - congruence.
  - congruence.
  - intros id' t' [[= -> ->]|Hp]%elem_of_cons Hn.
    + apply elem_of_app. left. apply Hw1. destruct HF1 as [->| ->]; [done|set_solver].
    + apply elem_of_app. right. apply (Hwait id'); [done|set_solver].
Qed.

(** Taking the failed waits off the count leaves the loads that completed. *)
Lemma load_count_minus (F : gset string) (C : list entry) lb :
  (∀ p, p ∈ C → od_get p.1 lb = Some (zlen (kept p.2).1)) →
  load_count C - list_sum ((λ id, default 0 (od_get id lb)) <$> filter (λ id, id ∈ F) C.*1) =
  load_count (filter (λ p, p.1 ∉ F) C).
Proof.
  unfold load_count. induction C as [|p C IH]; intros Hlb; [done|].
  csimpl. rewrite !filter_cons. specialize (IH (λ q Hq, Hlb q (list_elem_of_further _ _ _ Hq))).
  specialize (Hlb p ltac:(left)).
  destruct (decide (p.1 ∈ F)); [rewrite decide_False by tauto|rewrite decide_True by done];
    csimpl; rewrite ?Hlb; simpl; lia.
Qed.

Lemma completed_union (F1 F2 : gset string) reqs :
  completed (F1 ∪ F2) reqs = filter (λ p, p.1 ∉ F2) (completed F1 reqs).
Proof.
  unfold completed. rewrite list_filter_filter. apply list_filter_iff. intros p. set_solver.
Qed.

(** C30 [start_load_kv] never raises.  There is a set [F] of requests, the ones
    whose load failed, such that exactly the requests of [F] are newly reported
    as failed, and exactly the KV blocks they were to load or dump are newly
    reported as invalid.  Every synchronous load outside [F] (with a block that
    is not null) was submitted and waited for without an exception, and the
    byte counter grows by just their blocks.  Every asynchronous load outside
    [F] is pending, from before or by a task submitted now, or had nothing to
    load, and every failed one is reported as finished, so the engine never
    waits for it. *)
Theorem load_failures_reported md (st : state) :
  NoDup (request_meta md).*1 → loads_at (worker_store cfg) st.2.1 →
  ∃ st' r F es, start_load_kv cfg md st = (st', Ok r) ∧ runs st st' es ∧
    (∀ id, id ∈ F → ∃ req, (id, req) ∈ request_meta md ∧ has_load (id, req)) ∧
    reports F (request_meta md) st.1.1 st'.1.1 ∧
    r = (if bool_decide (Exists sync_load (request_meta md))
         then Some (load_count (completed F (request_meta md)) * block_data_size cfg) else None) ∧
    (∀ p, p ∈ completed F (request_meta md) → ∃ t, submitted es p.2 t ∧ waited es t) ∧
    (∀ p, p ∈ request_meta md → async_load p → accounted es F st.1.1 st'.1.1 p).
Proof.
  intros Hnd Hat. unfold start_load_kv.
  destruct (submit_loads_spec (request_meta md) (mkLoadLocals [] [] false 0) st Hnd)
    as (st1 & F1 & T & es1 & E1 & Hrun1 & HT & Hsub & HF1 & Hrep1 & Hgr & Hacc).
  { intros id _. simpl. split; apply not_elem_of_nil. }
  erewrite bind_ok; [|exact E1]. simpl. set (C := completed F1 (request_meta md)) in *.
  assert (NoDup C.*1) as HC.
  { unfold C, completed. eapply sublist_NoDup; [exact Hnd|]. apply fmap_sublist, sublist_filter. }
  destruct (wait_loads_spec md T ((λ p, (p.1, zlen (kept p.2).1)) <$> C) (load_count C) st1)
    as (st2 & F2 & es2 & Hrun2 & E2 & HF2 & Hrep2 & Hfin & Hpend & Hwait); [done|by rewrite HT| |by apply Hrun1|].
  { intros id. rewrite HT. intros (p & -> & [Hp _]%completed_elem)%list_elem_of_fmap.
    apply list_elem_of_fmap. eauto. }
  erewrite bind_ok; [|exact E2].
  assert (∀ p, p ∈ request_meta md → p.1 ∈ F2 → sync_load p) as HF2s.
  { intros p Hp Hi. apply HF2 in Hi. rewrite HT in Hi. apply list_elem_of_fmap in Hi as (q & Eq & Hq).
    apply list_elem_of_filter in Hq as ([? ?] & Hq). destruct p as [i r], q as [i' r']. simpl in *. subst i'.
    assert (r' = r) as <-; [|done].
    apply (od_get_elem _ _ _ Hnd) in Hp, Hq. congruence. }
  eexists st2, _, (F1 ∪ F2), (es1 ++ es2). split; [done|]. split_and!.
  - by eapply runs_trans.
  - intros id [Hi|Hi]%elem_of_union; [by apply HF1|]. apply HF2 in Hi as Hi'. rewrite HT in Hi'.
    apply list_elem_of_fmap in Hi' as ([i r] & -> & [Hp _]%completed_elem). exists r. split; [done|].
    by destruct (HF2s _ Hp Hi).
  - by eapply reports_trans.
  - rewrite HT, load_count_minus, completed_union; [done|]. intros p Hp.
    apply od_get_elem; [by rewrite <- list_fmap_compose|].
    apply list_elem_of_fmap. by exists p.
  - intros p. rewrite completed_union, list_elem_of_filter. intros [Hn Hp].
    assert (p.1 ∈ T.*1) as Hi by (rewrite HT; apply list_elem_of_fmap; eauto).
    apply list_elem_of_fmap in Hi as ([i t] & Ei & Ht). simpl in Ei. subst i. exists t.
    split; [|apply elem_of_app; right; by apply (Hwait p.1)].
    destruct (Hsub _ _ Ht) as (r & Hr & Hs). eapply submitted_mono; [|].
    { intros x Hx. apply elem_of_app. left. exact Hx. }
    apply completed_elem in Hp as [Hp _]. destruct p as [i r']. simpl in *.
    apply (od_get_elem _ _ _ Hnd) in Hp, Hr. by simplify_eq.
  - intros p Hp Ha. specialize (Hacc p Hp Ha).
    apply (accounted_grows es1 (es1 ++ es2) _ _ _ st2.1.1) in Hacc;
      [|intros x ?; apply elem_of_app; by left|split; [by rewrite Hfin|by rewrite Hpend]].
    assert (p.1 ∉ F2).
    { intros Hi. destruct (HF2s p Hp Hi) as [_ ?], Ha as [_ ?]. congruence. }
    eapply accounted_ext; [|done|exact Hacc]. set_solver.
Qed.

(** ** Polling asynchronous loads *)

Abbreviation pending_entry := (req_id * PendingLoadTask)%type.

(** Polling the tasks [ts] from [s] to [s'] with the events [es]: those of [R]
    are done, those of [F] among them with an error. *)
Definition polled (es : list store_event) (ts : list pending_entry) (R F : gset string)
    (s s' : WorkerState) : Prop :=
  F ⊆ R ∧ (∀ id, id ∈ R → id ∈ ts.*1) ∧
  load_failed_reqs (_connector_worker_meta s') = load_failed_reqs (_connector_worker_meta s) ∪ F ∧
  (∀ b, b ∈ _invalid_block_ids s' ↔
     b ∈ _invalid_block_ids s ∨ ∃ p, p ∈ ts ∧ p.1 ∈ F ∧ b ∈ pl_vllm_block_ids p.2) ∧
  _finished_async_load_req_ids s' = _finished_async_load_req_ids s ∧
  (∀ id, od_get id (_pending_load_tasks s') =
     if decide (id ∈ R) then None else od_get id (_pending_load_tasks s)) ∧
  (∀ p, p ∈ ts → p.1 ∉ R → still_loading es (pl_task p.2)) ∧
  (∀ p, p ∈ ts → p.1 ∈ R → p.1 ∉ F → waited es (pl_task p.2)).

Lemma manager_check_run t (st : state) :
  loads_at (worker_store cfg) st.2.1 →
  ∃ r' o es, on_manager (check_load t) st = ((st.1, r'), o) ∧ runs st (st.1, r') es ∧
    (o = Ok false → still_loading es t).
Proof.
  intros Hl. destruct st as [s r]. unfold on_manager, zoom. cbn [fst snd] in *.
  destruct (check_load_log t r) as (m' & l' & o & -> & Hm & Hlog).
  assert (loads_at (worker_store cfg) m') as Hl'.
  { destruct o; [by eapply loads_at_eq|by eapply loads_at_delete]. }
  destruct (load_store r.1 t) as [s'|] eqn:Es.
  - assert (s' = worker_store cfg) as -> by (by eapply Hl).
    eexists _, o, _. split; [done|]. split; [by split|]. intros ->. left.
  - destruct Hlog as [Hlog ->]. eexists _, _, []. split; [done|]. split; [split|done]; [|done].
    simpl. by rewrite Hlog, app_nil_r.
Qed.

Lemma polled_one es id p (R F : gset string) s s' :
  F ⊆ R → (R = ∅ ∨ R = {[id]}) →
  load_failed_reqs (_connector_worker_meta s') = load_failed_reqs (_connector_worker_meta s) ∪ F →
  _invalid_block_ids s' = _invalid_block_ids s ∪
    (if decide (id ∈ F) then list_to_set (pl_vllm_block_ids p) else ∅) →
  _finished_async_load_req_ids s' = _finished_async_load_req_ids s →
  _pending_load_tasks s' = (if decide (id ∈ R) then od_del id (_pending_load_tasks s)
                            else _pending_load_tasks s) →
  (id ∉ R → still_loading es (pl_task p)) → (id ∈ R → id ∉ F → waited es (pl_task p)) →
  polled es [(id, p)] R F s s'.
Proof.
  intros HFR HR Hf Hi Hfin Hp Hbusy Hwait. split_and!; try done.
  - intros id' Hid. csimpl. destruct HR as [->| ->]; [by apply elem_of_empty in Hid|].
    apply elem_of_singleton in Hid as ->. left.
  - intros b. rewrite Hi, elem_of_union. split.
    + intros [?|Hb]; [by left|right]. exists (id, p).
      case_decide; [|by apply elem_of_empty in Hb].
      apply elem_of_list_to_set in Hb. split_and!; [left|done|done].
    + intros [?|(q & ->%list_elem_of_singleton & HF & Hb)]; [by left|right]. simpl in HF, Hb.
      rewrite decide_True by done. by apply elem_of_list_to_set.
  - intros id'. rewrite Hp. destruct HR as [->| ->].
    + by rewrite !decide_False by set_solver.
    + rewrite (decide_True (P := id ∈ {[id]})) by set_solver. rewrite od_get_del.
      destruct (decide (id' = id)) as [->|]; [by rewrite decide_True by set_solver|].
      by rewrite decide_False by set_solver.
  - by intros q ->%list_elem_of_singleton.
  - by intros q ->%list_elem_of_singleton.
Qed.

Lemma poll_load_spec id p (st : state) :
  loads_at (worker_store cfg) st.2.1 →
  ∃ st' b (F : gset string) es, poll_load id p st = (st', Ok b) ∧ runs st st' es ∧
    polled es [(id, p)] (if b then {[id]} else ∅) F st.1.1 st'.1.1.
Proof.
  intros Hl. unfold poll_load. unfold mbind at 1, M_bind at 1, try_except. unfold mbind at 1, M_bind at 1.
  destruct (manager_check_run (pl_task p) st Hl) as (r1 & o & es1 & -> & Hrun1 & Hbusy).
  destruct (manager_wait_run (pl_task p) (st.1, r1)) as (r2 & o2 & es2 & E2 & Hrun2 & Hwait).
  { by apply Hrun1. }
  destruct st as [[s d] r]. cbn [fst] in E2 |- *. destruct o as [[|]|e].
  - unfold mbind at 1, M_bind at 1. rewrite E2. destruct o2 as [[]|e].
    + eexists _, true, ∅, (es1 ++ es2). split; [reflexivity|]. split; [by eapply runs_trans|].
      apply polled_one; simpl; [set_solver|by right|by rewrite union_empty_r_L| |done| | |].
      * by rewrite decide_False, union_empty_r_L by set_solver.
      * by rewrite decide_True by set_solver.
      * set_solver.
      * intros _ _. apply elem_of_app. right. by apply Hwait.
    + eexists _, true, {[id]}, (es1 ++ es2). split; [reflexivity|]. split; [by eapply runs_trans|].
      apply polled_one; simpl; [set_solver|by right|apply union_comm_L| |done| |set_solver|set_solver].
      * by rewrite decide_True by set_solver.
      * by rewrite decide_True by set_solver.
  - eexists _, false, ∅, es1. split; [reflexivity|]. split; [exact Hrun1|].
    apply polled_one; simpl; [set_solver|by left|by rewrite union_empty_r_L| |done| | |set_solver].
    + by rewrite decide_False, union_empty_r_L by set_solver.
    + by rewrite decide_False by set_solver.
    + intros _. by apply Hbusy.
  - eexists _, true, {[id]}, es1. split; [reflexivity|]. split; [exact Hrun1|].
    apply polled_one; simpl; [set_solver|by right|apply union_comm_L| |done| |set_solver|set_solver].
    + by rewrite decide_True by set_solver.
    + by rewrite decide_True by set_solver.
Qed.

Lemma poll_loads_spec ts fin (st : state) :
  NoDup ts.*1 → loads_at (worker_store cfg) st.2.1 →
  ∃ st' R F es, poll_loads ts fin st = (st', Ok (fin ∪ R)) ∧ runs st st' es ∧
    polled es ts R F st.1.1 st'.1.1.
Proof.
  revert fin st. induction ts as [|[id p] ts IH]; intros fin st Hnd Hl; cbn [poll_loads].
  { exists st, ∅, ∅, []. rewrite union_empty_r_L. split; [done|]. split; [by apply runs_same|].
    split_and!; try done; [by rewrite union_empty_r_L| |by intros q ?%elem_of_nil..].
    intros b. split; [by left|]. by intros [?|(q & ?%elem_of_nil & _)]. }
  csimpl in Hnd. apply list.NoDup_cons in Hnd as [Hid Hnd].
  destruct (poll_load_spec id p st Hl) as (st1 & b & F1 & es1 & E & Hrun1 & HFR1 & HR1 & Hf1 & Hi1 & Hfin1 & Hp1 & Hb1 & Hw1).
  erewrite bind_ok; [|exact E]. clear E. set (R1 := if b then {[id]} else ∅ : gset string) in *.
  destruct (IH (if b then {[id]} ∪ fin else fin) st1 Hnd (proj2 Hrun1 Hl))
    as (st' & R & F & es & -> & Hrun & HFR & HR & Hf & Hi & Hfin & Hp & Hb & Hw).
  assert (R1 ⊆ {[id]}) as HR1s by (unfold R1; destruct b; set_solver).
  assert (id ∉ R) as HidR by (by intros ?%HR).
  assert (∀ q, q ∈ ts → q.1 ≠ id) as Hne.
  { intros q Hq <-. apply Hid, list_elem_of_fmap. eauto. }
  exists st', (R1 ∪ R), (F1 ∪ F), (es1 ++ es). split.
  { f_equal. f_equal. unfold R1. destruct b; set_solver. }
  split; [by eapply runs_trans|].
  split_and!; [clear -HFR HFR1; set_solver| |by rewrite Hf, Hf1, (assoc_L (∪))| |congruence| | |].
  - intros id' [Hi'|Hi']%elem_of_union; csimpl; [|right; by apply HR].
    apply HR1s, elem_of_singleton in Hi' as ->. left.
  - intros x. rewrite Hi, Hi1. split.
    + intros [[?|(q & ->%list_elem_of_singleton & ? & ?)]|(q & ? & ? & ?)]; [by left|right|right].
      * eexists. split; [left|]. split; [set_solver|done].
      * exists q. split_and!; [by right|set_solver|done].
    + intros [?|(q & Hq & HqF & ?)]; [auto|]. apply elem_of_cons in Hq as [->|Hq].
      * left; right. eexists. split; [left|]. split; [|done]. simpl in *. set_solver.
      * right. exists q. specialize (Hne q Hq). split_and!; [done|set_solver|done].
  - intros id'. rewrite Hp, Hp1. clear.
    destruct (decide (id' ∈ R)); [by rewrite decide_True by set_solver|].
    by destruct (decide (id' ∈ R1)); [rewrite decide_True by set_solver|rewrite decide_False by set_solver].
  - intros q [->|Hq]%elem_of_cons Hn; apply elem_of_app;
      [left; apply Hb1; [left|set_solver]|right; apply Hb; [done|set_solver]].
  - intros q [->|Hq]%elem_of_cons HqR HqF; apply elem_of_app; [left|right].
    + apply Hw1; [left| |set_solver]. simpl in *. set_solver.
    + specialize (Hne q Hq). apply Hw; [done|clear -HqR HR1s Hne; set_solver|clear -HqF; set_solver].
Qed.

(** Polling never raises.  Each pending asynchronous load is either still
    loading and stays pending, or is dropped and reported finished, once: it
    was waited for without an exception, or its request is reported as failed
    and its KV blocks as invalid.  Loads that finished at submission are
    reported too, and nothing else is. *)
Theorem async_loads_settled (st : state) :
  NoDup (_pending_load_tasks st.1.1).*1 → loads_at (worker_store cfg) st.2.1 →
  ∃ st' fin R F es, _poll_pending_load_tasks st = (st', Ok fin) ∧ runs st st' es ∧
    fin = _finished_async_load_req_ids st.1.1 ∪ R ∧
    _finished_async_load_req_ids st'.1.1 = ∅ ∧
    polled es (_pending_load_tasks st.1.1) R F (set_finished_loads ∅ st.1.1) st'.1.1.
Proof.
  intros Hnd Hl. unfold _poll_pending_load_tasks. unfold mbind, M_bind, get_state. simpl.
  destruct (poll_loads_spec (_pending_load_tasks st.1.1) (_finished_async_load_req_ids st.1.1)
    (set_finished_loads ∅ st.1.1, st.1.2, st.2) Hnd Hl) as (st' & R & F & es & -> & Hrun & Hpol).
  eexists st', _, R, F, es. split; [done|]. split; [exact Hrun|]. split_and!; [done| |done].
  by destruct Hpol as (_ & _ & _ & _ & -> & _).
Qed.
End loads.

(** ** Concrete loads

    The store holds block [1:b] of rank 1 only: the load of [r] succeeds, that of
    [q] raises, and [a] is pending. *)

Definition ex_loads : UCMConnectorMetadata :=
  mkConnectorMetadata
    [("r"%string, mkDispatchMeta (["b"]%string, [11]) ([], []) 0 false);
     ("q"%string, mkDispatchMeta (["c"]%string, [12]) (["d"]%string, [13]) 0 false);
     ("a"%string, mkDispatchMeta (["b"]%string, [14]) ([], []) 0 true)] ∅.

Definition ex_load_state : WorkerState * RefDevice * (RankConsistencyManager * Logged RefStore) :=
  (WorkerState_init false, mkRefDevice ∅,
   (RankConsistencyManager_init false true, mkLogged (rs_init 0 ["1:b"]%string) [])).

Definition ex_load_started := (start_load_kv ex_worker ex_loads ex_load_state).1.

Lemma load_failures_reported_witness :
  (start_load_kv ex_worker ex_loads ex_load_state).2 = Ok (Some 8) ∧
  ∃ F es, runs ex_worker ex_load_state ex_load_started es ∧
    reports F (request_meta ex_loads) ex_load_state.1.1 ex_load_started.1.1.
Proof.
  split; [vm_compute; reflexivity|]. unfold ex_load_started.
  destruct (load_failures_reported ex_worker ex_loads ex_load_state)
    as (st' & r & F & es & E & Hrun & _ & Hrep & _).
  - vm_compute. repeat constructor; rewrite ?list_elem_of_In; simpl; naive_solver.
  - by intros t s' ?.
  - exists F, es. rewrite E. split; [exact Hrun|exact Hrep].
Defined.
