(* ===== verification/LayerWise.v ===== *)
(** * The layerwise connector

    Model of the worker half of [UCMLayerWiseConnector]
    (src/ucm/integration/vllm/ucm_connector.py): the loads of layer [l + 1] are
    submitted when layer [l] has been waited for, and every layer is dumped as
    soon as it is computed.  The state extends that of the direct connector.

    A layer is named by its number ([layer_name_to_id] applied beforehand);
    [extract_layer_addrs] is [extract_block_addrs(ids, layer_first=True)] of the
    KV cache layout.  Times are left out: [_layerwise_load_start_by_layer] is
    the set of its keys. *)

From Stdlib Require Import ZArith Lia.
From stdpp Require Import base list gmap strings numbers fin_sets.
From S2P Require Import Prelude.
From S2P Require Import Store.
From S2P Require Import RankConsistency.
From S2P Require Import DirectScheduler.
From S2P Require Import DirectWorker.
Local Open Scope Z_scope.

Record LayerConfig := mkLayerConfig {
  lw_cfg : WorkerConfig;
  layer_ids : list Z;          (* sorted *)
  lw_shard_size : Z;           (* [kv_cache_layout.shard_size] *)
  extract_layer_addrs : list Z → outcome (list (list (list Z)));
}.

Definition first_layer_id (cfg : LayerConfig) : Z := default 0 (head (layer_ids cfg)).

(** An element of [request_data]. *)
Record layer_request := mkLayerRequest {
  lr_request_id : req_id;
  lr_ucm_block_ids : list bytes;
  lr_store_block_ids : list bytes;
  lr_total_ptrs : list (list (list Z));
}.

Record LayerState := mkLayerState {
  lw_worker : WorkerState;
  _connector_metadata : option UCMConnectorMetadata;
  load_tasks : list (Z * list (req_id * task));
  need_load : bool;
  dump_total_ptrs : option (list (list (list Z)));
  request_data : list layer_request;
  _failure_req_ids : gset string;
  _dumped_layer_ids : gset Z;
  _layerwise_load_start_by_layer : gset Z;
  _layerwise_load_bytes : Z;
  _layerwise_save_bytes : Z;
}.

Definition LayerState_init (mla : bool) : LayerState :=
  mkLayerState (WorkerState_init mla) None [] false None [] ∅ ∅ ∅ 0 0.

Definition set_lw_worker v (s : LayerState) :=
  mkLayerState v (_connector_metadata s) (load_tasks s) (need_load s) (dump_total_ptrs s)
    (request_data s) (_failure_req_ids s) (_dumped_layer_ids s)
    (_layerwise_load_start_by_layer s) (_layerwise_load_bytes s) (_layerwise_save_bytes s).
Definition set_load_tasks v (s : LayerState) :=
  mkLayerState (lw_worker s) (_connector_metadata s) v (need_load s) (dump_total_ptrs s)
    (request_data s) (_failure_req_ids s) (_dumped_layer_ids s)
    (_layerwise_load_start_by_layer s) (_layerwise_load_bytes s) (_layerwise_save_bytes s).
Definition set_need_load v (s : LayerState) :=
  mkLayerState (lw_worker s) (_connector_metadata s) (load_tasks s) v (dump_total_ptrs s)
    (request_data s) (_failure_req_ids s) (_dumped_layer_ids s)
    (_layerwise_load_start_by_layer s) (_layerwise_load_bytes s) (_layerwise_save_bytes s).
Definition set_dump_ptrs v (s : LayerState) :=
  mkLayerState (lw_worker s) (_connector_metadata s) (load_tasks s) (need_load s) v
    (request_data s) (_failure_req_ids s) (_dumped_layer_ids s)
    (_layerwise_load_start_by_layer s) (_layerwise_load_bytes s) (_layerwise_save_bytes s).
Definition set_request_data v (s : LayerState) :=
  mkLayerState (lw_worker s) (_connector_metadata s) (load_tasks s) (need_load s) (dump_total_ptrs s)
    v (_failure_req_ids s) (_dumped_layer_ids s)
    (_layerwise_load_start_by_layer s) (_layerwise_load_bytes s) (_layerwise_save_bytes s).
Definition set_failures v (s : LayerState) :=
  mkLayerState (lw_worker s) (_connector_metadata s) (load_tasks s) (need_load s) (dump_total_ptrs s)
    (request_data s) v (_dumped_layer_ids s)
    (_layerwise_load_start_by_layer s) (_layerwise_load_bytes s) (_layerwise_save_bytes s).
Definition set_dumped_layers v (s : LayerState) :=
  mkLayerState (lw_worker s) (_connector_metadata s) (load_tasks s) (need_load s) (dump_total_ptrs s)
    (request_data s) (_failure_req_ids s) v
    (_layerwise_load_start_by_layer s) (_layerwise_load_bytes s) (_layerwise_save_bytes s).
Definition set_load_starts v (s : LayerState) :=
  mkLayerState (lw_worker s) (_connector_metadata s) (load_tasks s) (need_load s) (dump_total_ptrs s)
    (request_data s) (_failure_req_ids s) (_dumped_layer_ids s) v
    (_layerwise_load_bytes s) (_layerwise_save_bytes s).
Definition set_load_bytes v (s : LayerState) :=
  mkLayerState (lw_worker s) (_connector_metadata s) (load_tasks s) (need_load s) (dump_total_ptrs s)
    (request_data s) (_failure_req_ids s) (_dumped_layer_ids s)
    (_layerwise_load_start_by_layer s) v (_layerwise_save_bytes s).
Definition set_save_bytes v (s : LayerState) :=
  mkLayerState (lw_worker s) (_connector_metadata s) (load_tasks s) (need_load s) (dump_total_ptrs s)
    (request_data s) (_failure_req_ids s) (_dumped_layer_ids s)
    (_layerwise_load_start_by_layer s) (_layerwise_load_bytes s) v.

(** [l[i]] of an array: a negative index counts from the end. *)
Definition array_row {A} (l : list A) (i : Z) : outcome A :=
  let i' := if i <? 0 then i + zlen l else i in
  if i' <? 0 then Raise IndexError
  else match l !! Z.to_nat i' with Some x => Ok x | None => Raise IndexError end.

(** The keys of this rank: those of rank 0 of a pipeline stage are not hashed
    again. *)
Definition layer_store_block_ids (cfg : WorkerConfig) (ucm_block_ids : list bytes) : list bytes :=
  if negb (tp_rank cfg mod tp_size cfg =? 0) && negb (is_mla cfg)
  then request_hasher cfg <$> ucm_block_ids else ucm_block_ids.

Section layerwise.
Context {W D : Type} `{StoreWorld W} `{DeviceWorld D} `{PySetOrder}.
Variable cfg : LayerConfig.

Abbreviation state := (LayerState * D * (RankConsistencyManager * W))%type.
Abbreviation wcfg := (lw_cfg cfg).

Definition on_layer (f : LayerState → LayerState) : M state unit :=
  modify (λ s, (f s.1.1, s.1.2, s.2)).
Definition inherited {A} (m : M (WorkerState * D * (RankConsistencyManager * W)) A) : M state A :=
  zoom (λ s, (lw_worker s.1.1, s.1.2, s.2))
    (λ t s, (set_lw_worker t.1.1 s.1.1, t.1.2, t.2)) m.

(** [_get_connector_metadata()] *)
Definition _get_connector_metadata : M state UCMConnectorMetadata :=
  s ← get_state;
  match _connector_metadata s.1.1 with Some md => mret md | None => raise AssertionError end.

(** [super().bind_connector_metadata] and the reset of the batch state. *)
Definition bind_connector_metadata (md : UCMConnectorMetadata) : M state unit :=
  on_layer (λ s, mkLayerState (lw_worker s) (Some md) [] false None [] ∅ ∅ ∅ 0 0).

(** What is done when the load of a request fails: its KV blocks are invalid,
    and it is not loaded any further.  (The two methods that do this differ in
    the order of the last two assignments.) *)
Definition fail_request (metadata : UCMConnectorMetadata) (id : req_id) : M state unit :=
  blocks ← inherited (failed_blocks metadata id);
  inherited (_record_load_error blocks) ;;
  on_layer (λ s, set_failures ({[id]} ∪ _failure_req_ids s) s) ;;
  inherited (worker_mark_failed id).

(** ** Loading *)

(** The [try] body of [_submit_request_load_tasks_for_layer]. *)
Definition submit_layer_load (layer_id local_row : Z) (r : layer_request) : M state unit :=
  layer_ptrs ← lift_outcome (array_row (lr_total_ptrs r) local_row);
  t ← inherited (on_manager (submit_load (worker_store wcfg)
        {[lr_request_id r := lr_ucm_block_ids r]} (lr_store_block_ids r)
        (replicate (length (lr_ucm_block_ids r)) layer_id) layer_ptrs (is_mla wcfg)));
  on_layer (λ s, set_load_tasks
    (od_set layer_id (od_set (lr_request_id r) t (default [] (od_get layer_id (load_tasks s))))
       (load_tasks s)) s).

Fixpoint submit_layer_loads (layer_id local_row : Z) (metadata : UCMConnectorMetadata)
    (requests : list layer_request) (submitted : bool) : M state bool :=
  match requests with
  | [] => mret submitted
  | r :: rest =>
      s ← get_state;
      if bool_decide (lr_request_id r ∈ _failure_req_ids s.1.1)
      then submit_layer_loads layer_id local_row metadata rest submitted
      else
        submitted' ← try_except (submit_layer_load layer_id local_row r ;; mret true)
          (λ _, fail_request metadata (lr_request_id r) ;; mret submitted);
        submit_layer_loads layer_id local_row metadata rest submitted'
  end.

Definition _submit_request_load_tasks_for_layer (layer_id local_row : Z)
    (metadata : UCMConnectorMetadata) : M state unit :=
  s ← get_state;
  submitted ← submit_layer_loads layer_id local_row metadata (request_data s.1.1) false;
  if submitted : bool
  then on_layer (λ s, set_load_starts ({[layer_id]} ∪ _layerwise_load_start_by_layer s) s)
  else mret tt.

(** One turn of the loop of [start_load_kv]. *)
Definition plan_request (p : req_id * RequestDispatchMeta) : M state unit :=
  let '(id, request) := p in
  if bool_decide ((load_block_ids request).1 = []) then mret tt
  else
    on_layer (set_need_load true) ;;
    total_ptrs ← lift_outcome (extract_layer_addrs cfg (load_block_ids request).2);
    on_layer (λ s, set_request_data (request_data s ++
      [mkLayerRequest id (load_block_ids request).1
         (layer_store_block_ids wcfg (load_block_ids request).1) total_ptrs]) s).

Definition lw_start_load_kv : M state unit :=
  metadata ← _get_connector_metadata;
  for_each (request_meta metadata) plan_request ;;
  s ← get_state;
  if need_load s.1.1
  then _submit_request_load_tasks_for_layer (first_layer_id cfg) 0 metadata else mret tt.

(** The loop of [wait_for_layer_load]. *)
Definition wait_layer_task (metadata : UCMConnectorMetadata) (p : req_id * task) : M state unit :=
  let '(id, t) := p in
  ok ← try_except (inherited (on_manager (wait_load t None)) ;; mret true)
         (λ _, fail_request metadata id ;; mret false);
  if ok : bool then
    match od_get id (request_meta metadata) with
    | Some request =>
        on_layer (λ s, set_load_bytes
          (_layerwise_load_bytes s + zlen (load_block_ids request).1 * lw_shard_size cfg) s)
    | None => raise KeyError
    end
  else mret tt.

(** Returns what is added to [load_bytes_total]. *)
Definition wait_for_layer_load (current_layer_id : Z) : M state (option Z) :=
  s ← get_state;
  match _connector_metadata s.1.1 with
  | None => mret None
  | Some metadata =>
      if negb (need_load s.1.1) then mret None
      else
        let layer_tasks := default [] (od_get current_layer_id (load_tasks s.1.1)) in
        on_layer (λ s, set_load_tasks (od_del current_layer_id (load_tasks s)) s) ;;
        if bool_decide (layer_tasks = []) then mret None
        else
          for_each layer_tasks (wait_layer_task metadata) ;;
          s ← get_state;
          let load_duration_recorded :=
            bool_decide (current_layer_id ∈ _layerwise_load_start_by_layer s.1.1) in
          on_layer (λ s, set_load_starts (_layerwise_load_start_by_layer s ∖ {[current_layer_id]}) s) ;;
          let next_layer_id := current_layer_id + 1 in
          if bool_decide (next_layer_id ∈ layer_ids cfg) then
            _submit_request_load_tasks_for_layer next_layer_id
              (next_layer_id - first_layer_id cfg) metadata ;;
            mret None
          else if load_duration_recorded then
            on_layer (set_load_bytes 0) ;;
            mret (Some (_layerwise_load_bytes s.1.1))
          else mret None
  end.

(** ** Dumping *)

(** The plans of [save_kv_layer], and [block_ids_by_request] of
    [_submit_layerwise_dump_task]. *)
Record layer_dumps := mkLayerDumps {
  ld_request_ids : gset string;
  ld_block_ids_by_request : gmap string (gset string);
  ld_ucm_block_ids : list bytes;
  ld_vllm_block_ids : list Z;
}.

Definition add_layer_dump (l : layer_dumps) (p : req_id * RequestDispatchMeta) : layer_dumps :=
  let '(id, request) := p in
  if bool_decide ((dump_block_ids request).1 = []) then l
  else
    let '(ucm_ids, vllm_ids) := _get_rank_dump_blocks wcfg request in
    if bool_decide (ucm_ids = []) then l
    else
      mkLayerDumps ({[id]} ∪ ld_request_ids l)
        (<[id := list_to_set ucm_ids]> (ld_block_ids_by_request l))
        (ld_ucm_block_ids l ++ layer_store_block_ids wcfg ucm_ids)
        (ld_vllm_block_ids l ++ vllm_ids).

Definition collect_layer_dumps (metadata : UCMConnectorMetadata) : layer_dumps :=
  foldl add_layer_dump (mkLayerDumps ∅ ∅ [] []) (request_meta metadata).

(** The addresses of the batch's blocks, computed once. *)
Definition cached_dump_ptrs (total_vllm_block_ids : list Z) : M state (list (list (list Z))) :=
  s ← get_state;
  match dump_total_ptrs s.1.1 with
  | Some ptrs => mret ptrs
  | None =>
      ptrs ← lift_outcome (extract_layer_addrs cfg total_vllm_block_ids);
      on_layer (set_dump_ptrs (Some ptrs)) ;;
      mret ptrs
  end.

(** A failure before the event handle is assigned leaves nothing to release. *)
Definition _submit_layerwise_dump_task (layer_id : Z) (l : layer_dumps) : M state bool :=
  if bool_decide (ld_request_ids l = ∅) then mret false
  else
    total_ptrs ← cached_dump_ptrs (ld_vllm_block_ids l);
    match array_row total_ptrs (layer_id - first_layer_id cfg) with
    | Raise _ => mret false
    | Ok layer_ptrs =>
        handle ← try_except (h ← inherited (_get_dump_event_handle wcfg); mret (Some h)) (λ _, mret None);
        match handle with
        | None => mret false
        | Some h =>
            try_except
              (t ← inherited (on_manager (submit_dump (worker_store wcfg) (ld_block_ids_by_request l)
                     (ld_ucm_block_ids l) (replicate (length (ld_ucm_block_ids l)) layer_id)
                     layer_ptrs h));
               inherited (on_worker (λ s, set_pending_dumps
                 (_pending_dump_tasks s ++ [mkPendingDump t (ld_request_ids l) h]) s)) ;;
               on_layer (λ s, set_save_bytes
                 (_layerwise_save_bytes s + zlen (ld_ucm_block_ids l) * lw_shard_size cfg) s) ;;
               mret true)
              (λ _,
                (if enable_event_sync wcfg && negb (h =? 0)
                 then inherited (on_device (destroy_event_handle h)) else mret tt) ;;
                mret false)
        end
    end.

Definition save_kv_layer (layer_id : Z) : M state unit :=
  s ← get_state;
  match _connector_metadata s.1.1 with
  | None => mret tt
  | Some metadata =>
      if bool_decide (layer_id ∈ _dumped_layer_ids s.1.1) then mret tt
      else
        let l := collect_layer_dumps metadata in
        if bool_decide (ld_request_ids l = ∅) then mret tt
        else
          submitted ← _submit_layerwise_dump_task layer_id l;
          if submitted : bool
          then on_layer (λ s, set_dumped_layers ({[layer_id]} ∪ _dumped_layer_ids s) s)
          else mret tt
  end.

(** Returns what is added to [save_bytes_total]. *)
Definition lw_wait_for_save : M state (option Z) :=
  inherited (_poll_pending_dump_tasks wcfg) ;;
  s ← get_state;
  let saved := _layerwise_save_bytes s.1.1 in
  (if 0 <? saved then on_layer (set_save_bytes 0) else mret tt) ;;
  match _connector_metadata s.1.1 with
  | Some metadata =>
      inherited (on_worker (λ s, set_dumping (dumping_req_ids s ∪ dump_requests metadata) s))
  | None => mret tt
  end ;;
  on_layer (set_dump_ptrs None) ;;
  mret (if 0 <? saved then Some saved else None).
End layerwise.

(** ** Context parallelism

    [UCMCPConnector.bind_connector_metadata]: of the keys of a request this rank
    handles every [cp_world_size]-th, from its own position. *)

Record CPRank := mkCPRank {
  dcp_world_size : Z;
  dcp_rank : Z;
  pcp_rank : Z;
  cp_size : Z;  (* [cp_world_size] *)
}.

Definition current_rank (r : CPRank) : Z := dcp_world_size r * pcp_rank r + dcp_rank r.

Definition cp_keys (r : CPRank) (p : list bytes * list Z) : list bytes * list Z :=
  match p.1 with
  | [] => p
  | _ => (py_slice_step (current_rank r) (cp_size r) p.1, p.2)
  end.

Definition cp_request (r : CPRank) (request : RequestDispatchMeta) : RequestDispatchMeta :=
  mkDispatchMeta (cp_keys r (load_block_ids request)) (cp_keys r (dump_block_ids request))
    (dump_block_start request) (load_async request).

Definition cp_metadata (r : CPRank) (md : UCMConnectorMetadata) : UCMConnectorMetadata :=
  mkConnectorMetadata (prod_map id (cp_request r) <$> request_meta md) (preempted_req_ids md).
