(* ===== verification/LayerWiseLoads.v ===== *)
(** * Layerwise loading: correctness

    During a forward pass the hooks of the layers are called in order, possibly
    several times each.  When [wait_for_layer_load] returns for a layer, the KV
    data of that layer and of all before it has been loaded for every request
    that is not reported as failed. *)

From Stdlib Require Import ZArith Lia.
From stdpp Require Import base list gmap strings numbers fin_sets.
From S2P Require Import Prelude.
From S2P Require Import Store.
From S2P Require Import RankConsistency.
From S2P Require Import StoreLog.
From S2P Require Import DirectScheduler.
From S2P Require Import DirectWorker.
From S2P Require Import WorkerDumps.
From S2P Require Import WorkerLoads.
From S2P Require Import LayerWise.
Local Open Scope Z_scope.

Lemma set_lw_worker_id s : set_lw_worker (lw_worker s) s = s.
Proof. by destruct s. Qed.

(** The loads of a single layer in [load_tasks]. *)
Definition single_layer (layer_id : Z) (ts : list (req_id * task)) : list (Z * list (req_id * task)) :=
  match ts with [] => [] | _ => [(layer_id, ts)] end.

Lemma single_layer_get layer ts : default [] (od_get layer (single_layer layer ts)) = ts.
Proof. destruct ts; simpl; [done|]. by rewrite decide_True. Qed.

Lemma single_layer_del layer ts : od_del layer (single_layer layer ts) = [].
Proof.
  destruct ts; simpl; [done|]. unfold od_del. rewrite filter_cons_False; [done|]. simpl. tauto.
Qed.

Lemma single_layer_other layer layer' ts :
  layer ≠ layer' → od_get layer (single_layer layer' ts) = None ∧
    od_del layer (single_layer layer' ts) = single_layer layer' ts.
Proof.
  intros Hne. destruct ts; simpl; [done|]. rewrite decide_False by done. split; [done|].
  unfold od_del. rewrite filter_cons_True; [done|]. simpl. congruence.
Qed.

Lemma single_layer_add layer ts id t :
  id ∉ ts.*1 →
  od_set layer (od_set id t ts) (single_layer layer ts) = single_layer layer (ts ++ [(id, t)]).
Proof.
  intros Hid. rewrite (od_set_fresh id) by done. destruct ts; simpl; [done|]. by rewrite decide_True.
Qed.

Section layers.
Context {W D : Type} `{StoreWorld W} `{DeviceSpec D} `{PySetOrder}.
Variable cfg : LayerConfig.

Abbreviation state := (LayerState * D * (RankConsistencyManager * Logged W))%type.
Abbreviation wcfg := (lw_cfg cfg).
Abbreviation store := (worker_store (lw_cfg cfg)).
Abbreviation failures st := (_failure_req_ids (fst (fst st))).

(** A run that logs [es] and keeps the plan of the batch. *)
Record lruns (st st' : state) (es : list store_event) : Prop := {
  lr_log : log st'.2.2 = log st.2.2 ++ es;
  lr_at : loads_at store st.2.1 → loads_at store st'.2.1;
  lr_metadata : _connector_metadata st'.1.1 = _connector_metadata st.1.1;
  lr_need : need_load st'.1.1 = need_load st.1.1;
  lr_data : request_data st'.1.1 = request_data st.1.1;
}.

Lemma lruns_same st st' :
  st'.2 = st.2 → _connector_metadata st'.1.1 = _connector_metadata st.1.1 →
  need_load st'.1.1 = need_load st.1.1 → request_data st'.1.1 = request_data st.1.1 → lruns st st' [].
Proof. intros E. split; rewrite ?E; try done. by rewrite app_nil_r. Qed.

Lemma lruns_trans st st1 st' es es' : lruns st st1 es → lruns st1 st' es' → lruns st st' (es ++ es').
Proof.
  intros [E1 A1 M1 N1 D1] [E2 A2 M2 N2 D2].
  split; [by rewrite E2, E1, app_assoc|auto|congruence..].
Qed.

(** Among the events: the load of one layer of a request was submitted, with
    the rank's keys, the layer's shard and its row of addresses; and waited
    for. *)
Definition layer_submitted (es : list store_event) (r : layer_request) (l : Z) (t : task) : Prop :=
  ∃ ptrs, array_row (lr_total_ptrs r) (l - first_layer_id cfg) = Ok ptrs ∧
    EvLoad store (lr_store_block_ids r) (replicate (length (lr_ucm_block_ids r)) l) ptrs
      (if supports_distributed_backend_load (W := W) store then Some (is_mla wcfg) else None)
      (Ok t) ∈ es.

Definition layer_loaded (es : list store_event) (r : layer_request) (l : Z) : Prop :=
  ∃ t, layer_submitted es r l t ∧ EvWait store t (Ok tt) ∈ es.

Lemma layer_submitted_mono es es' r l t :
  es ⊆ es' → layer_submitted es r l t → layer_submitted es' r l t.
Proof. intros Hsub (ptrs & E & Hin). exists ptrs. auto. Qed.

Lemma layer_loaded_mono es es' r l : es ⊆ es' → layer_loaded es r l → layer_loaded es' r l.
Proof. intros Hsub (t & Hs & Hw). exists t. split; [by eapply layer_submitted_mono|auto]. Qed.

(** ** Failing *)

Lemma fail_request_spec md id req (st : state) :
  NoDup (request_meta md).*1 → (id, req) ∈ request_meta md →
  ∃ st', fail_request md id st = (st', Ok tt) ∧ lruns st st' [] ∧
    failures st' = {[id]} ∪ failures st ∧ load_tasks st'.1.1 = load_tasks st.1.1 ∧
    reports {[id]} (request_meta md) (lw_worker st.1.1) (lw_worker st'.1.1).
Proof.
  intros Hnd Hin. destruct st as [[s d] r].
  exists (set_failures ({[id]} ∪ _failure_req_ids s) (set_lw_worker
    (set_worker_meta (mark_failed id (_connector_worker_meta (lw_worker s)))
      (set_invalid (_invalid_block_ids (lw_worker s) ∪ list_to_set (affected req)) (lw_worker s))) s), d, r).
  split.
  { unfold fail_request. unfold failed_blocks. rewrite (od_get_elem id req) by done. reflexivity. }
  split; [by apply lruns_same|]. split_and!; [done|done|].
  split; simpl; [apply union_comm_L|]. intros b. rewrite elem_of_union, elem_of_list_to_set.
  split; (intros [?|Hb]; [by left|right]).
  - exists (id, req). split_and!; [done|by apply elem_of_singleton|done].
  - destruct Hb as ([id' req'] & Hp & Hi & Hb). apply elem_of_singleton in Hi. simpl in Hi. subst id'.
    assert (req' = req) as ->; [|done].
    apply (od_get_elem _ _ _ Hnd) in Hp, Hin. congruence.
Qed.

(** ** Submitting the loads of a layer *)

Lemma submit_layer_load_run layer r (st : state) :
  ∃ r' es, 
    (∃ e, submit_layer_load cfg layer (layer - first_layer_id cfg) r st = ((st.1, r'), Raise e)) ∧
      lruns st (st.1, r') es ∨
    (∃ t, submit_layer_load cfg layer (layer - first_layer_id cfg) r st =
       ((set_load_tasks (od_set layer (od_set (lr_request_id r) t
           (default [] (od_get layer (load_tasks st.1.1)))) (load_tasks st.1.1)) st.1.1, st.1.2, r'), Ok tt) ∧
       lruns st (st.1, r') es ∧ layer_submitted es r layer t).
Proof.
  destruct st as [[s d] rs]. unfold submit_layer_load, lift_outcome. unfold mbind, M_bind.
  destruct (array_row _ _) as [ptrs|e] eqn:Ep.
  2:{ exists rs, []. left. split; [by exists e|by apply lruns_same]. }
  unfold inherited, zoom at 1, on_manager, zoom. cbn [fst snd].
  destruct (submit_load_log store {[lr_request_id r := lr_ucm_block_ids r]} (lr_store_block_ids r)
    (replicate (length (lr_ucm_block_ids r)) layer) ptrs (is_mla wcfg) rs) as (m' & w' & o & -> & Hm).
  cbn [fst snd]. rewrite set_lw_worker_id. eexists _, [_].
  destruct o as [t|e].
  - right. exists t. split; [done|]. destruct Hm as [c Hm].
    split; [split; try done; simpl; intros Hl; by eapply loads_at_insert|].
    exists ptrs. split; [done|left].
  - left. split; [by exists e|]. split; try done. simpl. intros Hl. by eapply loads_at_eq.
Qed.

(** The requests of a list that have not failed. *)
Definition alive (F : gset string) (rs : list layer_request) : list layer_request :=
  filter (λ r, lr_request_id r ∉ F) rs.

Lemma alive_ext (F F' : gset string) rs :
  (∀ r, r ∈ rs → lr_request_id r ∈ F ↔ lr_request_id r ∈ F') → alive F rs = alive F' rs.
Proof.
  unfold alive. induction rs as [|r rs IH]; intros HF; [done|].
  rewrite !filter_cons, IH by (intros q Hq; apply HF; by right).
  specialize (HF r ltac:(left)). repeat case_decide; naive_solver.
Qed.

(** A loop over some requests fails the requests [F], and reports them. *)
Record fails (md : UCMConnectorMetadata) (ids : list req_id) (F : gset string) (st st' : state) : Prop := {
  fl_failures : failures st' = F ∪ failures st;
  fl_ids id : id ∈ F → id ∈ ids;
  fl_reports : reports F (request_meta md) (lw_worker st.1.1) (lw_worker st'.1.1);
}.

Lemma fails_none md ids (st st' : state) : lw_worker st'.1.1 = lw_worker st.1.1 → failures st' = failures st →
  fails md ids ∅ st st'.
Proof.
  intros Ew Ef. split; [by rewrite Ef, union_empty_l_L|by intros id ?%elem_of_empty|].
  rewrite Ew. apply reports_refl.
Qed.

Lemma fails_trans md ids1 ids2 F1 F2 (st st1 st' : state) :
  fails md ids1 F1 st st1 → fails md ids2 F2 st1 st' → fails md (ids1 ++ ids2) (F1 ∪ F2) st st'.
Proof.
  intros [E1 I1 R1] [E2 I2 R2]. split.
  - rewrite E2, E1. rewrite !(assoc_L (∪)). f_equal. apply union_comm_L.
  - intros id. rewrite elem_of_union, elem_of_app. naive_solver.
  - by eapply reports_trans.
Qed.

(** One request of the submission loop. *)
Lemma submit_one_spec layer md r ts0 b (st : state) :
  NoDup (request_meta md).*1 → lr_request_id r ∈ (request_meta md).*1 →
  load_tasks st.1.1 = single_layer layer ts0 → lr_request_id r ∉ ts0.*1 → lr_request_id r ∉ failures st →
  ∃ st' b' F ts es,
    try_except (submit_layer_load cfg layer (layer - first_layer_id cfg) r ;; mret true)
      (λ _, fail_request md (lr_request_id r) ;; mret b) st = (st', Ok b') ∧ lruns st st' es ∧
    load_tasks st'.1.1 = single_layer layer (ts0 ++ ts) ∧ fails md [lr_request_id r] F st st' ∧
    Forall2 (λ r p, p.1 = lr_request_id r ∧ layer_submitted es r layer p.2) (alive (failures st') [r]) ts.
Proof.
  intros Hnd Hin Ht Hfresh Halive. apply list_elem_of_fmap in Hin as ([id req] & Eid & Hreq). simpl in Eid.
  unfold try_except. unfold mbind at 1, M_bind at 1.
  destruct (submit_layer_load_run layer r st) as (r' & es & [[[e ->] Hrun]|(t & -> & Hrun & Hsub)]).
  - unfold mbind, M_bind. rewrite Eid in *.
    destruct (fail_request_spec md id req (st.1, r') Hnd Hreq) as (st' & -> & Hrun' & Hf & Ht' & Hrep).
    exists st', b, {[id]}, [], es. split; [done|].
    split; [rewrite <- (app_nil_r es); by eapply lruns_trans|].
    split; [by rewrite app_nil_r, Ht'|]. split.
    + split; [done| |done]. intros x ->%elem_of_singleton. left.
    + unfold alive. rewrite filter_cons_False; [constructor|]. rewrite Eid, Hf. set_solver.
  - eexists _, true, ∅, [(lr_request_id r, t)], es. split; [done|]. cbn [fst snd].
    split; [|split; [|split]].
    + destruct Hrun as [L A Mt N Dt]. by split.
    + simpl. rewrite Ht, single_layer_get. by apply single_layer_add.
    + by apply fails_none.
    + unfold alive. rewrite filter_cons_True by done. repeat constructor. by simpl.
Qed.

Lemma submit_layer_loads_spec layer md rs ts0 b (st : state) :
  NoDup (request_meta md).*1 → NoDup (lr_request_id <$> rs) →
  (∀ id, id ∈ lr_request_id <$> rs → id ∈ (request_meta md).*1) →
  load_tasks st.1.1 = single_layer layer ts0 →
  (∀ id, id ∈ lr_request_id <$> rs → id ∉ ts0.*1) →
  ∃ st' b' F ts es,
    submit_layer_loads cfg layer (layer - first_layer_id cfg) md rs b st = (st', Ok b') ∧ lruns st st' es ∧
    load_tasks st'.1.1 = single_layer layer (ts0 ++ ts) ∧ fails md (lr_request_id <$> rs) F st st' ∧
    Forall2 (λ r p, p.1 = lr_request_id r ∧ layer_submitted es r layer p.2) (alive (failures st') rs) ts.
Proof.
  intros Hnd. revert ts0 b st. induction rs as [|r rs IH]; intros ts0 b st Hrs Hin Ht Hfresh;
    cbn [submit_layer_loads].
  { exists st, b, ∅, [], []. rewrite app_nil_r. split_and!; [done|by apply lruns_same|done|by apply fails_none|].
    constructor. }
  csimpl in *. apply list.NoDup_cons in Hrs as [Hr Hrs].
  unfold mbind at 1, M_bind at 1, get_state. case_bool_decide as Hdead.
  { destruct (IH ts0 b st Hrs) as (st' & b' & F & ts & es & -> & Hrun & Ht' & Hfail & Hts);
      [intros; apply Hin; by right|done|intros; apply Hfresh; by right|].
    exists st', b', F, ts, es. split_and!; [done|done|done| |].
    - destruct Hfail as [E I R]. split; [done| |done]. intros id Hid. right. by apply I.
    - unfold alive in *. rewrite filter_cons_False; [done|]. rewrite (fl_failures _ _ _ _ _ Hfail). set_solver. }
  destruct (submit_one_spec layer md r ts0 b st Hnd) as (st1 & b1 & F1 & ts1 & es1 & E1 & Hrun1 & Ht1 & Hf1 & Hs1);
    [apply Hin; left|done|apply Hfresh; left|done|].
  erewrite bind_ok; [|exact E1].
  destruct (IH (ts0 ++ ts1) b1 st1 Hrs) as (st' & b' & F & ts & es & -> & Hrun & Ht' & Hfail & Hts);
    [intros; apply Hin; by right|done| |].
  { intros id Hid. rewrite fmap_app, not_elem_of_app. split; [apply Hfresh; by right|].
    intros Hid1. apply list_elem_of_fmap in Hid1 as (p & -> & Hp). apply list_elem_of_lookup_1 in Hp as [i Hp].
    destruct (Forall2_lookup_r _ _ _ _ _ Hs1 Hp) as (q & Hq%list_elem_of_lookup_2 & [Eq _]).
    apply list_elem_of_filter in Hq as [_ ->%list_elem_of_singleton]. congruence. }
  exists st', b', (F1 ∪ F), (ts1 ++ ts), (es1 ++ es). split_and!.
  - done.
  - by eapply lruns_trans.
  - by rewrite app_assoc.
  - apply (fails_trans md [_] _ F1 F st st1 st'); done.
  - change (r :: rs) with ([r] ++ rs). unfold alive. rewrite filter_app. apply Forall2_app.
    + assert (alive (failures st') [r] = alive (failures st1) [r]) as Ea.
      { apply alive_ext. intros q ->%list_elem_of_singleton. rewrite (fl_failures _ _ _ _ _ Hfail).
        split; [|set_solver]. intros [Hq|Hq]%elem_of_union; [|done].
        destruct Hr. by apply (fl_ids _ _ _ _ _ Hfail). }
      unfold alive in Ea. rewrite Ea. eapply Forall2_impl; [exact Hs1|]. intros q p [? ?]. split; [done|].
      eapply layer_submitted_mono; [|done]. intros x Hx. apply elem_of_app. by left.
    + eapply Forall2_impl; [exact Hts|]. intros q p [? ?]. split; [done|].
      eapply layer_submitted_mono; [|done]. intros x Hx. apply elem_of_app. by right.
Qed.

(** ** Waiting for a layer *)

Lemma inherited_wait_run t (st : state) :
  loads_at store st.2.1 →
  ∃ r' o es, inherited (on_manager (wait_load t None)) st = ((st.1, r'), o) ∧ lruns st (st.1, r') es ∧
    (o = Ok tt → EvWait store t (Ok tt) ∈ es).
Proof.
  intros Hl. destruct st as [[s d] r]. unfold inherited, zoom at 1. cbn [fst snd].
  destruct (manager_wait_run wcfg t (lw_worker s, d, r) Hl) as (r' & o & es & -> & [L A] & Hw).
  exists r', o, es. cbn [fst snd]. rewrite set_lw_worker_id. split_and!; [done|by split|done].
Qed.

Lemma wait_layer_task_spec md id t (st : state) :
  NoDup (request_meta md).*1 → id ∈ (request_meta md).*1 → loads_at store st.2.1 →
  ∃ st' F es, wait_layer_task cfg md (id, t) st = (st', Ok tt) ∧ lruns st st' es ∧
    load_tasks st'.1.1 = load_tasks st.1.1 ∧ fails md [id] F st st' ∧
    (id ∉ F → EvWait store t (Ok tt) ∈ es).
Proof.
  intros Hnd Hin Hl. apply list_elem_of_fmap in Hin as ([id' req] & Eid & Hreq). simpl in Eid. subst id'.
  unfold wait_layer_task. unfold mbind at 1, M_bind at 1, try_except. unfold mbind at 1, M_bind at 1.
  destruct (inherited_wait_run t st Hl) as (r' & o & es & -> & Hrun & Hw). destruct o as [[]|e].
  - rewrite (od_get_elem id req) by done. eexists _, ∅, es. split; [reflexivity|].
    split; [destruct Hrun as [L A Mt N Dt]; by split|]. split; [done|].
    split; [by apply fails_none|]. intros _. by apply Hw.
  - unfold mbind at 1, M_bind at 1.
    destruct (fail_request_spec md id req (st.1, r') Hnd Hreq) as (st' & -> & Hrun' & Hf & Ht' & Hrep).
    exists st', {[id]}, es. split; [done|]. split; [rewrite <- (app_nil_r es); by eapply lruns_trans|].
    split; [done|]. split; [|set_solver].
    split; [done|intros x ->%elem_of_singleton; left|done].
Qed.

Lemma wait_layer_tasks_spec md ts (st : state) :
  NoDup (request_meta md).*1 → NoDup ts.*1 → (∀ id, id ∈ ts.*1 → id ∈ (request_meta md).*1) →
  loads_at store st.2.1 →
  ∃ st' F es, for_each ts (wait_layer_task cfg md) st = (st', Ok tt) ∧ lruns st st' es ∧
    load_tasks st'.1.1 = load_tasks st.1.1 ∧ fails md ts.*1 F st st' ∧
    (∀ p, p ∈ ts → p.1 ∉ F → EvWait store p.2 (Ok tt) ∈ es).
Proof.
  intros Hnd. revert st. induction ts as [|[id t] ts IH]; intros st Hts Hin Hl; cbn [for_each].
  { exists st, ∅, []. split_and!; [done|by apply lruns_same|done|by apply fails_none|].
    by intros p ?%elem_of_nil. }
  csimpl in *. apply list.NoDup_cons in Hts as [Hid Hts].
  destruct (wait_layer_task_spec md id t st Hnd) as (st1 & F1 & es1 & E1 & Hrun1 & Ht1 & Hf1 & Hw1);
    [apply Hin; left|done|].
  erewrite bind_ok; [|exact E1].
  destruct (IH st1 Hts) as (st' & F & es & -> & Hrun & Ht & Hf & Hw);
    [intros; apply Hin; by right|by apply Hrun1|].
  exists st', (F1 ∪ F), (es1 ++ es). split_and!.
  - done.
  - by eapply lruns_trans.
  - congruence.
  - by apply (fails_trans md [id] _ F1 F st st1 st').
  - intros p [->|Hp]%elem_of_cons Hn; apply elem_of_app; [left; apply Hw1|right; apply Hw]; set_solver.
Qed.

(** ** The pipeline of a forward pass *)

(** The layers of this worker are numbered consecutively. *)
Variable layers : nat.
Hypothesis Hlayers : layer_ids cfg = seqZ (first_layer_id cfg) (Z.of_nat layers).

(** The requests of a batch with blocks to load, with the addresses [addrs] of
    their KV blocks. *)
Definition load_plan (addrs : list Z → list (list (list Z))) (md : UCMConnectorMetadata) : list layer_request :=
  (λ p : req_id * RequestDispatchMeta,
    mkLayerRequest p.1 (load_block_ids p.2).1 (layer_store_block_ids wcfg (load_block_ids p.2).1)
      (addrs (load_block_ids p.2).2)) <$>
  filter (λ p, (load_block_ids p.2).1 ≠ []) (request_meta md).

(** Since [st0] with the events [es]: the first [k] layers are loaded for all
    requests that did not fail, and the loads of the next are in flight. *)
Record stage (md : UCMConnectorMetadata) (plan : list layer_request) (st0 : LayerState)
    (k : nat) (st : state) (es : list store_event) : Prop := {
  sg_metadata : _connector_metadata st.1.1 = Some md;
  sg_data : request_data st.1.1 = plan;
  sg_need : need_load st.1.1 = bool_decide (plan ≠ []);
  sg_at : loads_at store st.2.1;
  sg_failures id : id ∈ failures st → id ∈ lr_request_id <$> plan;
  sg_reports : reports (failures st) (request_meta md) (lw_worker st0) (lw_worker st.1.1);
  sg_loaded r l : r ∈ plan → lr_request_id r ∉ failures st →
    first_layer_id cfg ≤ l < first_layer_id cfg + Z.of_nat k → layer_loaded es r l;
  sg_tasks : ∃ ts, load_tasks st.1.1 = single_layer (first_layer_id cfg + Z.of_nat k) ts ∧
    if decide (k < layers)%nat
    then Forall2 (λ r p, p.1 = lr_request_id r ∧
           layer_submitted es r (first_layer_id cfg + Z.of_nat k) p.2) (alive (failures st) plan) ts
    else ts = [];
}.

Section batch.
Variable md : UCMConnectorMetadata.
Variable plan : list layer_request.
Hypothesis Hmd : NoDup (request_meta md).*1.
Hypothesis Hplan : NoDup (lr_request_id <$> plan).
Hypothesis Hin : ∀ id, id ∈ lr_request_id <$> plan → id ∈ (request_meta md).*1.

Lemma alive_sub F id : id ∈ lr_request_id <$> alive F plan → id ∈ lr_request_id <$> plan ∧ id ∉ F.
Proof.
  intros (r & -> & [Hr Hp]%list_elem_of_filter)%list_elem_of_fmap. split; [|done].
  apply list_elem_of_fmap. eauto.
Qed.

Lemma alive_NoDup F : NoDup (lr_request_id <$> alive F plan).
Proof. eapply sublist_NoDup; [exact Hplan|]. apply fmap_sublist, sublist_filter. Qed.

Lemma tasks_ids (P : layer_request → task → Prop) F ts :
  Forall2 (λ r p, p.1 = lr_request_id r ∧ P r p.2) (alive F plan) ts →
  ts.*1 = lr_request_id <$> alive F plan.
Proof. induction 1 as [|r p rs ts [E _] _ IH]; csimpl; [done|]. by rewrite E, IH. Qed.

(** A new batch of loads, for the layer [k]. *)
Lemma submit_stage st0 k (st : state) es :
  (k < layers)%nat → load_tasks st.1.1 = [] →
  _connector_metadata st.1.1 = Some md → request_data st.1.1 = plan →
  need_load st.1.1 = bool_decide (plan ≠ []) → loads_at store st.2.1 →
  (∀ id, id ∈ failures st → id ∈ lr_request_id <$> plan) →
  reports (failures st) (request_meta md) (lw_worker st0) (lw_worker st.1.1) →
  (∀ r l, r ∈ plan → lr_request_id r ∉ failures st →
    first_layer_id cfg ≤ l < first_layer_id cfg + Z.of_nat k → layer_loaded es r l) →
  ∃ st' es', _submit_request_load_tasks_for_layer cfg (first_layer_id cfg + Z.of_nat k) (Z.of_nat k) md st =
      (st', Ok tt) ∧ log st'.2.2 = log st.2.2 ++ es' ∧ stage md plan st0 k st' (es ++ es').
Proof.
  intros Hk Ht Hm Hd Hn Hat Hf Hrep Hload. unfold _submit_request_load_tasks_for_layer.
  unfold mbind at 1, M_bind at 1, get_state. rewrite Hd.
  destruct (submit_layer_loads_spec (first_layer_id cfg + Z.of_nat k) md plan [] false st)
    as (st1 & b & F & ts & es1 & E1 & Hrun & Ht1 & Hfail & Hts); [done|done|done|done|set_solver|].
  rewrite Z.add_simpl_l in E1. erewrite bind_ok; [|exact E1].
  destruct Hrun as [L A Mt N Dt], Hfail as [Ef If Rf]. simpl in Ht1.
  assert (stage md plan st0 k st1 (es ++ es1)) as Hstage.
  { constructor; [congruence|congruence|congruence|auto| | | |].
    - intros id. rewrite Ef. intros [?%If|?]%elem_of_union; auto.
    - rewrite Ef, union_comm_L. by eapply reports_trans.
    - intros r l Hr Hnf Hl. eapply layer_loaded_mono; [|apply Hload; [done| |done]].
      + intros x Hx. apply elem_of_app. by left.
      + rewrite Ef in Hnf. set_solver.
    - exists ts. split; [done|]. rewrite decide_True by done.
      eapply Forall2_impl; [exact Hts|]. intros r p [? ?]. split; [done|].
      eapply layer_submitted_mono; [|done]. intros x Hx. apply elem_of_app. by right. }
  destruct b; (eexists _, es1; split; [reflexivity|]; split; [done|]); [|done].
  destruct Hstage. by constructor.
Qed.

Lemma next_layer k :
  first_layer_id cfg + Z.of_nat k + 1 ∈ layer_ids cfg ↔ (S k < layers)%nat.
Proof. rewrite Hlayers, elem_of_seqZ. lia. Qed.

(** Layers without loads in flight: nothing changes. *)
Lemma stage_skip st0 k (st : state) es :
  (k < layers)%nat → stage md plan st0 k st es → alive (failures st) plan = [] → stage md plan st0 (S k) st es.
Proof.
  intros Hk [Hm Hd Hn Hat Hf Hrep Hload Hts] Hnone. constructor; try done.
  - intros r l Hr Hnf _. assert (r ∈ alive (failures st) plan) as Hr'.
    { by apply list_elem_of_filter. }
    rewrite Hnone in Hr'. by apply elem_of_nil in Hr'.
  - destruct Hts as (ts & Et & Hts). rewrite decide_True, Hnone in Hts by done.
    apply Forall2_nil_inv_l in Hts as ->. exists []. split; [done|].
    case_decide; [rewrite Hnone; constructor|done].
Qed.

Lemma wait_stage st0 k (st : state) es :
  (k < layers)%nat → stage md plan st0 k st es →
  ∃ st' r es', wait_for_layer_load cfg (first_layer_id cfg + Z.of_nat k) st = (st', Ok r) ∧
    log st'.2.2 = log st.2.2 ++ es' ∧ stage md plan st0 (S k) st' (es ++ es').
Proof.
  intros Hk Hst. pose proof Hst as [Hm Hd Hn Hat Hf Hrep Hload (ts & Et & Hts)].
  unfold wait_for_layer_load. unfold mbind at 1, M_bind at 1, get_state. rewrite Hm, Hn.
  rewrite decide_True in Hts by done.
  case_bool_decide as Hne; simpl.
  2:{ exists st, None, []. rewrite !app_nil_r. split_and!; [done|done|]. apply stage_skip; [done|done|].
      by rewrite Hne. }
  clear Hn. pose proof (sg_need _ _ _ _ _ _ Hst) as Hn.
  rewrite Et, single_layer_get. unfold mbind at 1, M_bind at 1. simpl. rewrite Et, single_layer_del.
  destruct (bool_decide_reflect (ts = [])) as [Hnil|Hnil].
  { subst ts. apply Forall2_nil_inv_r in Hts. destruct st as [[s d] r].
    eexists _, None, []. rewrite !app_nil_r. split_and!; [reflexivity|done|].
    apply stage_skip; [done| |done]. constructor; try done.
    exists []. split; [done|]. rewrite decide_True by done. simpl in *. by rewrite Hts. }
  pose proof (tasks_ids (λ r, layer_submitted es r (first_layer_id cfg + Z.of_nat k)) _ _ Hts) as Hids.
  set (st1 := (set_load_tasks [] st.1.1, st.1.2, st.2)).
  destruct (wait_layer_tasks_spec md ts st1 Hmd) as (st2 & F & es2 & E2 & Hrun & Ht2 & Hfail & Hw).
  { rewrite Hids. apply alive_NoDup. }
  { rewrite Hids. intros id [? _]%alive_sub. auto. }
  { done. }
  erewrite bind_ok; [|exact E2]. unfold mbind at 1, M_bind at 1. unfold mbind at 1, M_bind at 1. simpl.
  destruct Hrun as [L A Mt N Dt], Hfail as [Ef If Rf]. simpl in L, Mt, N, Dt, Ht2, Ef, Rf.
  assert (∀ r l, r ∈ plan → lr_request_id r ∉ failures st2 →
    first_layer_id cfg ≤ l < first_layer_id cfg + Z.of_nat (S k) → layer_loaded (es ++ es2) r l) as Hload2.
  { intros r l Hr Hnf Hl. rewrite Ef in Hnf. simpl in Hnf. apply not_elem_of_union in Hnf as [HnF Hnf].
    destruct (decide (l = first_layer_id cfg + Z.of_nat k)) as [->|Hnl].
    - assert (r ∈ alive (failures st) plan) as [i Hi]%list_elem_of_lookup_1 by (by apply list_elem_of_filter).
      destruct (Forall2_lookup_l _ _ _ _ _ Hts Hi) as (p & Hp%list_elem_of_lookup_2 & Ep & Hs).
      exists p.2. split; [|apply elem_of_app; right; apply Hw; [done|by rewrite Ep]].
      eapply layer_submitted_mono; [|exact Hs]. intros x Hx. apply elem_of_app. by left.
    - eapply layer_loaded_mono; [|apply Hload; [done|done|lia]]. intros x Hx. apply elem_of_app. by left. }
  assert (∀ id, id ∈ failures st2 → id ∈ lr_request_id <$> plan) as Hf2.
  { intros id. rewrite Ef. intros [Hid%If|?]%elem_of_union; [|by apply Hf].
    rewrite Hids in Hid. by apply alive_sub in Hid as [? _]. }
  assert (reports (failures st2) (request_meta md) (lw_worker st0) (lw_worker st2.1.1)) as Hrep2.
  { rewrite Ef, union_comm_L. by eapply reports_trans. }
  set (st3 := (set_load_starts _ st2.1.1, st2.1.2, st2.2)).
  destruct (bool_decide_reflect (first_layer_id cfg + Z.of_nat k + 1 ∈ layer_ids cfg)) as [Hnx|Hnx].
  - apply next_layer in Hnx.
    destruct (submit_stage st0 (S k) st3 (es ++ es2)) as (st4 & es4 & E4 & L4 & Hst4);
      [done|done|simpl; congruence|simpl; congruence|simpl; congruence|by apply A|done|done|done|].
    replace (first_layer_id cfg + Z.of_nat k + 1 - first_layer_id cfg) with (Z.of_nat (S k)) by lia.
    replace (first_layer_id cfg + Z.of_nat k + 1) with (first_layer_id cfg + Z.of_nat (S k)) by lia.
    erewrite bind_ok; [|exact E4].
    eexists st4, _, (es2 ++ es4). split; [done|]. split; [|by rewrite app_assoc].
    rewrite L4. simpl. by rewrite L, app_assoc.
  - rewrite next_layer in Hnx.
    assert (∀ st4, st4.2 = st2.2 → lw_worker st4.1.1 = lw_worker st2.1.1 →
      load_tasks st4.1.1 = load_tasks st2.1.1 → failures st4 = failures st2 →
      request_data st4.1.1 = request_data st2.1.1 → need_load st4.1.1 = need_load st2.1.1 →
      _connector_metadata st4.1.1 = _connector_metadata st2.1.1 →
      stage md plan st0 (S k) st4 (es ++ es2)) as Hdone.
    { intros st4 E1 E3 E4 E5 E6 E7 E8. constructor.
      1-3: congruence. 1: rewrite E1; by apply A. 1: by rewrite E5. 1: by rewrite E3, E5. 1: by rewrite E5.
      exists []. split; [by rewrite E4, Ht2|]. by rewrite decide_False. }
    destruct (bool_decide (_ ∈ _layerwise_load_start_by_layer _)); (eexists _, _, es2; split; [reflexivity|]; split; [done|]); by apply Hdone.
Qed.

(** A hook of a layer already waited for changes nothing. *)
Lemma wait_again st0 k (st : state) es l :
  stage md plan st0 k st es → l < first_layer_id cfg + Z.of_nat k →
  wait_for_layer_load cfg l st = (st, Ok None).
Proof.
  intros [Hm Hd Hn Hat Hf Hrep Hload (ts & Et & Hts)] Hl.
  unfold wait_for_layer_load. unfold mbind at 1, M_bind at 1, get_state. rewrite Hm.
  destruct (need_load st.1.1); simpl; [|done]. rewrite Et.
  destruct (single_layer_other l (first_layer_id cfg + Z.of_nat k) ts) as [-> Ed]; [lia|].
  unfold mbind at 1, M_bind at 1. simpl. rewrite Et, Ed, <- Et. by destruct st as [[[] d] r].
Qed.
End batch.

(** ** Starting a batch *)

Lemma plan_requests_spec addrs reqs (st : state) :
  (∀ p, p ∈ reqs → (load_block_ids p.2).1 ≠ [] →
    extract_layer_addrs cfg (load_block_ids p.2).2 = Ok (addrs (load_block_ids p.2).2)) →
  for_each reqs (plan_request cfg) st =
    ((set_request_data (request_data st.1.1 ++ load_plan addrs (mkConnectorMetadata reqs ∅))
       (set_need_load (need_load st.1.1 || bool_decide (load_plan addrs (mkConnectorMetadata reqs ∅) ≠ []))
          st.1.1), st.1.2, st.2), Ok tt).
Proof.
  unfold load_plan. simpl. revert st. induction reqs as [|[id q] reqs IH]; intros [[s d] r] Ha; cbn [for_each].
  { simpl. rewrite app_nil_r, orb_false_r. by destruct s. }
  assert (∀ p, p ∈ reqs → (load_block_ids p.2).1 ≠ [] →
    extract_layer_addrs cfg (load_block_ids p.2).2 = Ok (addrs (load_block_ids p.2).2)) as Ha'
    by (intros p Hp; apply Ha; by right).
  specialize (Ha (id, q) ltac:(left)). simpl in Ha. rewrite filter_cons. cbn [snd].
  destruct (decide ((load_block_ids q).1 = [])) as [Hq|Hq].
  - assert (plan_request cfg (id, q) (s, d, r) = ((s, d, r), Ok tt)) as Ep
      by (unfold plan_request; by rewrite bool_decide_true).
    rewrite decide_False by tauto. erewrite bind_ok; [|exact Ep]. by apply (IH (s, d, r)).
  - rewrite decide_True by done. erewrite bind_ok.
    2:{ unfold plan_request. rewrite bool_decide_false, Ha by done. reflexivity. }
    rewrite IH by done. simpl.
    rewrite <- app_assoc, orb_true_r. done.
Qed.

Lemma load_plan_ids addrs md :
  NoDup (request_meta md).*1 →
  NoDup (lr_request_id <$> load_plan addrs md) ∧
  ∀ id, id ∈ lr_request_id <$> load_plan addrs md → id ∈ (request_meta md).*1.
Proof.
  intros Hnd. unfold load_plan. rewrite <- list_fmap_compose.
  assert ((fst <$> filter (λ p : req_id * RequestDispatchMeta, (load_block_ids p.2).1 ≠ []) (request_meta md))
    `sublist_of` (request_meta md).*1) as Hsub by apply fmap_sublist, sublist_filter.
  split.
  - eapply sublist_NoDup; [exact Hnd|exact Hsub].
  - intros id Hid. eapply elem_of_sublist; [exact Hid|exact Hsub].
Qed.

Lemma start_stage addrs md (st : state) :
  (0 < layers)%nat → NoDup (request_meta md).*1 → loads_at store st.2.1 →
  (∀ p, p ∈ request_meta md → (load_block_ids p.2).1 ≠ [] →
    extract_layer_addrs cfg (load_block_ids p.2).2 = Ok (addrs (load_block_ids p.2).2)) →
  ∃ st' es, (bind_connector_metadata md ;; lw_start_load_kv cfg) st = (st', Ok tt) ∧
    log st'.2.2 = log st.2.2 ++ es ∧ stage md (load_plan addrs md) st.1.1 0 st' es.
Proof.
  intros Hl Hnd Hat Haddr. destruct st as [[s d] r]. unfold lw_start_load_kv.
  unfold mbind at 1, M_bind at 1. unfold mbind at 1, M_bind at 1. simpl.
  unfold mbind at 1, M_bind at 1. rewrite (plan_requests_spec addrs) by done. simpl.
  change (load_plan addrs (mkConnectorMetadata (request_meta md) ∅)) with (load_plan addrs md).
  destruct (load_plan_ids addrs md Hnd) as [Hplan Hin].
  set (st1 := (set_request_data _ _, d, r)). unfold mbind, M_bind, get_state. cbn [need_load].
  destruct (bool_decide_reflect (load_plan addrs md ≠ [])) as [Hne|Hne]; simpl.
  - destruct (submit_stage md (load_plan addrs md) Hnd Hplan Hin s 0 st1 []) as (st' & es & E & Hlog & Hst);
      [done|done|done|done| |done|by intros id ?%elem_of_empty|apply reports_refl|simpl; lia|].
    { simpl. by rewrite bool_decide_true. }
    rewrite Z.add_0_r in E. exists st', es. rewrite <- E. done.
  - apply dec_stable in Hne. exists st1, []. rewrite app_nil_r. split_and!; [done|done|].
    constructor; simpl; [done|done| |done|by intros id ?%elem_of_empty|apply reports_refl| |].
    + by rewrite bool_decide_false by tauto.
    + rewrite Hne. by intros ? ? ?%elem_of_nil.
    + exists []. split; [done|]. rewrite Hne. case_decide; [constructor|done].
Qed.

(** ** Dumping does not touch the loads *)

Definition load_view (st : state) :=
  (_connector_metadata st.1.1, request_data st.1.1, need_load st.1.1, load_tasks st.1.1, failures st,
   (_connector_worker_meta (lw_worker st.1.1), _invalid_block_ids (lw_worker st.1.1)),
   _load_task_contexts st.2.1).

Definition load_frame (st st' : state) : Prop :=
  load_view st' = load_view st ∧ ∃ es, log st'.2.2 = log st.2.2 ++ es.

#[local] Instance load_frame_preorder : PreOrder load_frame.
Proof.
  split.
  - intros st. split; [done|]. exists []. by rewrite app_nil_r.
  - intros st1 st2 st3 [V1 [e1 L1]] [V2 [e2 L2]]. split; [congruence|].
    exists (e1 ++ e2). by rewrite L2, L1, app_assoc.
Qed.

Lemma same_log (st st' : state) : load_view st' = load_view st → log st'.2.2 = log st.2.2 → load_frame st st'.
Proof. intros V L. split; [done|]. exists []. by rewrite app_nil_r. Qed.

Lemma inherited_device_frame {A} (m : M D A) : advances load_frame (inherited (W := Logged W) (on_device m)).
Proof.
  intros [[s d] r]. unfold inherited, zoom at 1, on_device, zoom. simpl.
  destruct (m d) as [d' o]. simpl. apply same_log; [by destruct s|done].
Qed.

Lemma submit_dump_frame st ctx ids sh ps h :
  advances load_frame (inherited (D := D) (W := Logged W) (on_manager (submit_dump st ctx ids sh ps h))).
Proof.
  intros [[s d] [m l]]. unfold inherited, zoom at 1, on_manager, zoom at 1, submit_dump.
  unfold mbind at 1, M_bind at 1, gets. cbn [fst snd]. unfold mbind at 1, M_bind at 1. simpl.
  unfold mbind at 1, M_bind at 1, try_except, on_world, zoom. simpl. unfold logging.
  destruct (store_dump_data st ids sh ps h (world l)) as [w' [t|e]]; simpl;
    (split; [by destruct s|by eexists]).
Qed.

Ltac keep_loads :=
  repeat first
    [ apply advances_bind; [apply _| |intros ?]
    | apply advances_try; [apply _| |intros ?]
    | apply advances_ret; apply _ | apply advances_raise; apply _ | apply advances_get; apply _
    | apply advances_lift; apply _
    | apply inherited_device_frame | apply submit_dump_frame
    | intros [[[] ?] ?]; by apply same_log
    | case_match ].

Lemma get_handle_frame : advances load_frame (inherited (W := Logged W) (_get_dump_event_handle wcfg)).
Proof.
  intros [[s d] r]. unfold inherited, zoom.
  destruct (get_handle_spec wcfg (lw_worker s) d r) as (d' & o & E & _). cbn [fst snd]. rewrite E.
  apply same_log; [by destruct s|done].
Qed.

Lemma save_frame l : advances load_frame (save_kv_layer (W := Logged W) (D := D) cfg l).
Proof.
  unfold save_kv_layer, _submit_layerwise_dump_task, cached_dump_ptrs.
  keep_loads; apply get_handle_frame.
Qed.

Lemma load_frame_stage md plan st0 k (st st' : state) es :
  stage md plan st0 k st es → load_frame st st' →
  ∃ es', log st'.2.2 = log st.2.2 ++ es' ∧ stage md plan st0 k st' (es ++ es').
Proof.
  intros [Hm Hd Hn Hat Hf Hrep Hload (ts & Et & Hts)] [V [es' L]]. exists es'. split; [done|].
  unfold load_view in V. injection V as E1 E2 E3 E4 E5 E6 E7 E8.
  assert (es ⊆ es ++ es') as Hsub by (intros x Hx; apply elem_of_app; by left).
  constructor; rewrite ?E1, ?E2, ?E3, ?E5; try done.
  - by eapply loads_at_eq.
  - destruct Hrep as [R1 R2]. split; [by rewrite E6|]. intros b. by rewrite E7.
  - intros r l Hr Hnf Hl. eapply layer_loaded_mono; [exact Hsub|auto].
  - exists ts. rewrite E4. split; [done|]. case_decide; [|done].
    eapply Forall2_impl; [exact Hts|]. intros r p [? ?]. split; [done|by eapply layer_submitted_mono].
Qed.

(** Saving a layer raises only if the layout has no addresses for the blocks. *)
Lemma save_ok md l (st : state) :
  _connector_metadata st.1.1 = Some md →
  (∃ a, extract_layer_addrs cfg (ld_vllm_block_ids (collect_layer_dumps cfg md)) = Ok a) →
  ∃ st', save_kv_layer cfg l st = (st', Ok tt).
Proof.
  intros Hm [a Ha]. unfold save_kv_layer. unfold mbind at 1, M_bind at 1, get_state. rewrite Hm.
  case_bool_decide; [by eexists|]. destruct (bool_decide_reflect (ld_request_ids (collect_layer_dumps cfg md) = ∅))
    as [|Hne]; [by eexists|].
  assert (∃ st1 b, _submit_layerwise_dump_task cfg l (collect_layer_dumps cfg md) st = (st1, Ok b))
    as (st1 & b & E).
  2:{ erewrite bind_ok; [|exact E]. destruct b; by eexists. }
  unfold _submit_layerwise_dump_task. rewrite bool_decide_false by done.
  assert (∃ st1 p, cached_dump_ptrs cfg (ld_vllm_block_ids (collect_layer_dumps cfg md)) st = (st1, Ok p))
    as (st1 & ptrs & E1).
  { unfold cached_dump_ptrs. unfold mbind at 1, M_bind at 1, get_state.
    destruct (dump_total_ptrs st.1.1); [by eexists _, _|]. rewrite Ha. by eexists _, _. }
  erewrite bind_ok; [|exact E1]. destruct (array_row _ _) as [ptr|e]; [|by eexists _, _].
  destruct st1 as [[s1 d1] r1]. unfold mbind at 1, M_bind at 1.
  edestruct (try_except_total (S := state) (A := option Z)) as (st2 & h & ->).
  { intros e st'. by eexists _, _. }
  destruct h as [h|]; [|by eexists _, _]. apply try_except_total. intros e [[s3 d3] r3].
  destruct (enable_event_sync wcfg && negb (h =? 0)); [|by eexists _, _].
  unfold inherited, zoom at 1, on_device, zoom. unfold mbind, M_bind. simpl.
  destruct (destroy_event_handle_ok d3 h) as [Hok _].
  destruct (destroy_event_handle h d3) as [d4 o]. simpl in Hok. subst o. by eexists _, _.
Qed.

(** ** A forward pass *)

(** What the engine calls around the attention of a layer. *)
Inductive hook := WaitLoad (l : Z) | SaveLayer (l : Z).

Definition run_hook (h : hook) : M state unit :=
  match h with
  | WaitLoad l => wait_for_layer_load cfg l ;; mret tt
  | SaveLayer l => save_kv_layer cfg l
  end.

Definition forward (md : UCMConnectorMetadata) (hooks : list hook) : M state unit :=
  (bind_connector_metadata md ;; lw_start_load_kv cfg) ;; for_each hooks run_hook.

(** How many layers are waited for after some hooks, if layers are entered in
    order; a layer may be entered again. *)
Fixpoint entered (k : nat) (hooks : list hook) : option nat :=
  match hooks with
  | [] => Some k
  | SaveLayer _ :: r => entered k r
  | WaitLoad l :: r =>
      if decide (l < first_layer_id cfg + Z.of_nat k) then entered k r
      else if decide (l = first_layer_id cfg + Z.of_nat k ∧ (k < layers)%nat) then entered (S k) r
      else None
  end.

Lemma hooks_stage md plan st0 hooks k k' (st : state) es :
  NoDup (request_meta md).*1 → NoDup (lr_request_id <$> plan) →
  (∀ id, id ∈ lr_request_id <$> plan → id ∈ (request_meta md).*1) →
  (∃ a, extract_layer_addrs cfg (ld_vllm_block_ids (collect_layer_dumps cfg md)) = Ok a) →
  entered k hooks = Some k' → stage md plan st0 k st es →
  ∃ st' es', for_each hooks run_hook st = (st', Ok tt) ∧ log st'.2.2 = log st.2.2 ++ es' ∧
    stage md plan st0 k' st' (es ++ es').
Proof.
  intros Hmd Hplan Hin Ha. revert k st es. induction hooks as [|h hooks IH]; intros k st es Hent Hst; cbn [for_each].
  { simpl in Hent. simplify_eq. exists st, []. by rewrite !app_nil_r. }
  assert (∀ k1 st1 es1, run_hook h st = (st1, Ok tt) → log st1.2.2 = log st.2.2 ++ es1 →
    stage md plan st0 k1 st1 (es ++ es1) → entered k1 hooks = Some k' →
    ∃ st' es', (run_hook h ;; for_each hooks run_hook) st = (st', Ok tt) ∧
      log st'.2.2 = log st.2.2 ++ es' ∧ stage md plan st0 k' st' (es ++ es')) as Hgo.
  { intros k1 st1 es1 E1 L1 Hst1 Hent1. erewrite bind_ok; [|exact E1].
    destruct (IH k1 st1 (es ++ es1) Hent1 Hst1) as (st' & es' & -> & L & Hst').
    exists st', (es1 ++ es'). rewrite L, L1, !app_assoc in *. done. }
  destruct h as [l|l]; simpl in Hent.
  - destruct (decide (l < first_layer_id cfg + Z.of_nat k)) as [Hlt|Hge].
    + apply (Hgo k st []); [|by rewrite app_nil_r|by rewrite app_nil_r|done].
      unfold run_hook. erewrite bind_ok; [done|]. by eapply wait_again.
    + destruct (decide _) as [[-> Hk]|]; [|done].
      destruct (wait_stage md plan Hmd Hplan Hin st0 k st es Hk Hst) as (st1 & r & es1 & E & L & Hst1).
      apply (Hgo (S k) st1 es1); [|done|done|done]. unfold run_hook. by erewrite bind_ok; [|exact E].
  - destruct (save_ok md l st (sg_metadata _ _ _ _ _ _ Hst) Ha) as (st1 & E).
    pose proof (save_frame l st) as Hfr. rewrite E in Hfr.
    destruct (load_frame_stage _ _ _ _ _ _ _ Hst Hfr) as (es1 & L1 & Hst1).
    by apply (Hgo k st1 es1).
Qed.

(** A forward pass with hooks in order never raises as long as the layout
    has addresses for the blocks.  When layer after layer has been entered, up
    to [k] of them, the request loads divide in two: those of [F] failed, and
    exactly they are newly reported as failed, with exactly their KV blocks
    newly invalid; for every other request each of the [k] layers has been
    loaded: a load of the rank's keys into the layer's own addresses was
    submitted under the layer's shard number, and waited for, before the hook
    of the layer returned.  Entering a layer again loads nothing twice, and
    after the last layer nothing is left in flight. *)
Theorem layer_loads_complete addrs md hooks k (st : state) :
  (0 < layers)%nat → NoDup (request_meta md).*1 → loads_at store st.2.1 →
  (∀ p, p ∈ request_meta md → (load_block_ids p.2).1 ≠ [] →
    extract_layer_addrs cfg (load_block_ids p.2).2 = Ok (addrs (load_block_ids p.2).2)) →
  (∃ a, extract_layer_addrs cfg (ld_vllm_block_ids (collect_layer_dumps cfg md)) = Ok a) →
  entered 0 hooks = Some k →
  ∃ st' es F, forward md hooks st = (st', Ok tt) ∧ log st'.2.2 = log st.2.2 ++ es ∧
    (∀ id, id ∈ F → ∃ r, r ∈ load_plan addrs md ∧ lr_request_id r = id) ∧
    reports F (request_meta md) (lw_worker st.1.1) (lw_worker st'.1.1) ∧
    (∀ r l, r ∈ load_plan addrs md → lr_request_id r ∉ F →
      first_layer_id cfg ≤ l < first_layer_id cfg + Z.of_nat k → layer_loaded es r l) ∧
    (k = layers → load_tasks st'.1.1 = []).
Proof.
  intros Hl Hmd Hat Haddr Hdump Hent.
  destruct (start_stage addrs md st Hl Hmd Hat Haddr) as (st1 & es1 & E1 & L1 & Hst1).
  destruct (load_plan_ids addrs md Hmd) as [Hplan Hin].
  destruct (hooks_stage md (load_plan addrs md) st.1.1 hooks 0 k st1 es1 Hmd Hplan Hin Hdump Hent Hst1)
    as (st' & es' & E & L & [Hm Hd Hn Ha Hf Hrep Hload (ts & Et & Hts)]).
  exists st', (es1 ++ es'), (failures st'). unfold forward. erewrite bind_ok; [|exact E1]. split_and!.
  - done.
  - by rewrite L, L1, app_assoc.
  - intros id (r & -> & Hr)%Hf%list_elem_of_fmap. by exists r.
  - done.
  - done.
  - intros ->. rewrite decide_False in Hts by lia. by rewrite Et, Hts.
Qed.
End layers.

(** ** A concrete forward pass

    Two layers, of which KV block [b] is at [100 * b] and [100 * b + 50]; layer 0
    is entered again after layer 1. *)

Definition ex_layer_addrs (ids : list Z) : list (list (list Z)) :=
  [(λ b, [100 * b]) <$> ids; (λ b, [100 * b + 50]) <$> ids].

Definition ex_layer_cfg : LayerConfig :=
  mkLayerConfig ex_worker [0; 1] 8 (λ ids, Ok (ex_layer_addrs ids)).


