(* ===== verification/LayerWiseDumps.v ===== *)
(** * Layerwise dumping: correctness

    In a forward pass every layer is dumped at most once, under its own shard
    number and from its own addresses; and the accounts of the dump tasks that
    the direct connector keeps stay correct from batch to batch. *)

From Stdlib Require Import ZArith Lia.
From stdpp Require Import base list gmap strings numbers fin_sets.
From S2P Require Import Prelude.
From S2P Require Import Store.
From S2P Require Import RankConsistency.
From S2P Require Import StoreLog.
From S2P Require Import DirectScheduler.
From S2P Require Import DirectWorker.
From S2P Require Import WorkerDumps.
From S2P Require Import WorkerLoads.
From S2P Require Import LayerWise.
From S2P Require Import LayerWiseLoads.
Local Open Scope Z_scope.

(** Whether an event is a dump, and the layer of a dump that was accepted. *)
Definition is_dump (ev : store_event) : Prop :=
  match ev with EvDump _ _ _ _ _ _ => True | _ => False end.
Definition accepted_layer (ev : store_event) : option Z :=
  match ev with EvDump _ _ (l :: _) _ _ (Ok _) => Some l | _ => None end.

Lemma no_dump_layers es : Forall (λ ev, ¬ is_dump ev) es → omap accepted_layer es = [].
Proof. induction 1 as [|ev es Hev _ IH]; [done|]. destruct ev; simpl in *; tauto || done. Qed.

Section dumps.
Context {W D : Type} `{StoreWorld W} `{DeviceSpec D} `{PySetOrder}.
Variable cfg : LayerConfig.

Abbreviation state := (LayerState * D * (RankConsistencyManager * Logged W))%type.
Abbreviation wcfg := (lw_cfg cfg).
Abbreviation store := (worker_store (lw_cfg cfg)).

(** ** Loading does not dump *)

Definition batch_view (st : state) :=
  (_connector_metadata st.1.1, dump_total_ptrs st.1.1, _dumped_layer_ids st.1.1).

Definition dump_frame (st st' : state) : Prop :=
  batch_view st' = batch_view st ∧
  ∃ es, log st'.2.2 = log st.2.2 ++ es ∧ Forall (λ ev, ¬ is_dump ev) es.

#[local] Instance dump_frame_preorder : PreOrder dump_frame.
Proof.
  split.
  - intros st. split; [done|]. exists []. by rewrite app_nil_r.
  - intros st1 st2 st3 [V1 (e1 & L1 & F1)] [V2 (e2 & L2 & F2)]. split; [congruence|].
    exists (e1 ++ e2). rewrite L2, L1, app_assoc. split; [done|]. by apply Forall_app.
Qed.

Lemma quiet (st st' : state) : batch_view st' = batch_view st → log st'.2.2 = log st.2.2 → dump_frame st st'.
Proof. intros V L. split; [done|]. exists []. by rewrite app_nil_r. Qed.

Lemma submit_load_keeps_accounts s ctx ks sh ps b :
  advances dump_frame (inherited (D := D) (W := Logged W) (on_manager (submit_load s ctx ks sh ps b))).
Proof.
  intros [[s0 d] r]. unfold inherited, zoom at 1, on_manager, zoom. cbn [fst snd].
  destruct (submit_load_log s ctx ks sh ps b r) as (m' & w' & o & -> & _). split; [by destruct s0|].
  eexists. split; [reflexivity|]. apply Forall_singleton. by intros [].
Qed.

Lemma wait_load_keeps_accounts t :
  advances dump_frame (inherited (D := D) (W := Logged W) (on_manager (wait_load t None))).
Proof.
  intros [[s0 d] r]. unfold inherited, zoom at 1, on_manager, zoom. cbn [fst snd].
  destruct (wait_load_log t r) as (m' & l' & o & -> & _ & Hlog). split; [by destruct s0|].
  simpl. destruct (load_store r.1 t) as [s|].
  - rewrite Hlog. eexists. split; [reflexivity|]. apply Forall_singleton. by intros [].
  - destruct Hlog as [-> _]. exists []. by rewrite app_nil_r.
Qed.

Ltac no_dumps_by tac :=
  repeat first
    [ tac
    | apply advances_bind; [apply _| |intros ?]
    | apply advances_try; [apply _| |intros ?]
    | apply advances_ret; apply _ | apply advances_raise; apply _ | apply advances_get; apply _
    | apply advances_lift; apply _
    | apply submit_load_keeps_accounts | apply wait_load_keeps_accounts
    | intros [[[] ?] ?]; by apply quiet
    | case_match ].
Ltac no_dumps := no_dumps_by fail.

Lemma fail_request_frame md id : advances dump_frame (fail_request (W := Logged W) (D := D) md id).
Proof. unfold fail_request, failed_blocks. no_dumps. Qed.

Lemma submit_layer_loads_frame layer row md rs b :
  advances dump_frame (submit_layer_loads (W := Logged W) (D := D) cfg layer row md rs b).
Proof.
  revert b. induction rs as [|r rs IH]; intros b; cbn [submit_layer_loads]; [no_dumps|].
  unfold submit_layer_load. no_dumps_by ltac:(first [apply IH|apply fail_request_frame]).
Qed.

Lemma submit_layer_frame layer row md :
  advances dump_frame (_submit_request_load_tasks_for_layer (W := Logged W) (D := D) cfg layer row md).
Proof. unfold _submit_request_load_tasks_for_layer. no_dumps_by ltac:(apply submit_layer_loads_frame). Qed.

Lemma for_each_frame {A} (l : list A) (body : A → M state unit) :
  (∀ x, advances dump_frame (body x)) → advances dump_frame (for_each l body).
Proof. intros Hb. induction l as [|x l IH]; cbn [for_each]; no_dumps_by ltac:(first [apply Hb|apply IH]). Qed.

Lemma wait_layer_task_frame md p : advances dump_frame (wait_layer_task (W := Logged W) (D := D) cfg md p).
Proof. unfold wait_layer_task. destruct p. no_dumps_by ltac:(apply fail_request_frame). Qed.

Lemma wait_layer_frame l : advances dump_frame (wait_for_layer_load (W := Logged W) (D := D) cfg l).
Proof.
  unfold wait_for_layer_load.
  no_dumps_by ltac:(first [apply submit_layer_frame|apply for_each_frame, wait_layer_task_frame]).
Qed.

Lemma plan_request_frame p : advances dump_frame (plan_request (W := Logged W) (D := D) cfg p).
Proof. unfold plan_request. destruct p. no_dumps. Qed.

Lemma start_load_frame : advances dump_frame (lw_start_load_kv (W := Logged W) (D := D) cfg).
Proof.
  unfold lw_start_load_kv, _get_connector_metadata.
  no_dumps_by ltac:(first [apply submit_layer_frame|apply for_each_frame, plan_request_frame]).
Qed.

(** ** The dumps of a batch *)

(** What is dumped for a layer: all blocks of the batch, from the addresses of
    the layer, under its number. *)
Definition batch_dump (md : UCMConnectorMetadata) (ev : store_event) : Prop :=
  is_dump ev → ∃ l h r a ptrs,
    extract_layer_addrs cfg (ld_vllm_block_ids (collect_layer_dumps cfg md)) = Ok a ∧
    array_row a (l - first_layer_id cfg) = Ok ptrs ∧
    ev = EvDump store (ld_ucm_block_ids (collect_layer_dumps cfg md))
           (replicate (length (ld_ucm_block_ids (collect_layer_dumps cfg md))) l) ptrs h r.

Record dumps_inv (md : UCMConnectorMetadata) (st : state) (es : list store_event) : Prop := {
  bi_metadata : _connector_metadata st.1.1 = Some md;
  bi_ptrs a : dump_total_ptrs st.1.1 = Some a →
    extract_layer_addrs cfg (ld_vllm_block_ids (collect_layer_dumps cfg md)) = Ok a;
  bi_events : Forall (batch_dump md) es;
  bi_layers : _dumped_layer_ids st.1.1 = list_to_set (omap accepted_layer es);
  bi_once : NoDup (omap accepted_layer es);
}.

Lemma dump_frame_inv md (st st' : state) es :
  dumps_inv md st es → dump_frame st st' →
  ∃ es', log st'.2.2 = log st.2.2 ++ es' ∧ dumps_inv md st' (es ++ es').
Proof.
  intros [Hm Hp He Hl Ho] [V (es' & L & F)]. exists es'. split; [done|].
  unfold batch_view in V. injection V as E1 E2 E3.
  constructor; rewrite ?E1, ?E2, ?E3, ?omap_app, ?(no_dump_layers _ F), ?app_nil_r; try done.
  apply Forall_app. split; [done|]. eapply Forall_impl; [exact F|]. by intros ev Hn ?.
Qed.

(** A batch with a request to dump has keys to dump. *)
Lemma collect_layer_dumps_keys md :
  ld_request_ids (collect_layer_dumps cfg md) ≠ ∅ → ld_ucm_block_ids (collect_layer_dumps cfg md) ≠ [].
Proof.
  unfold collect_layer_dumps.
  assert (∀ reqs l, (ld_request_ids l ≠ ∅ → ld_ucm_block_ids l ≠ []) →
    ld_request_ids (foldl (add_layer_dump cfg) l reqs) ≠ ∅ →
    ld_ucm_block_ids (foldl (add_layer_dump cfg) l reqs) ≠ []) as Hind.
  { induction reqs as [|[id q] reqs IH]; intros l Hl; [done|]. cbn [foldl]. apply IH.
    unfold add_layer_dump. case_bool_decide; [done|]. destruct (_get_rank_dump_blocks wcfg q) as [u v].
    case_bool_decide as Hu; [done|]. simpl. intros _ [_ Hnil]%app_eq_nil. apply Hu.
    unfold layer_store_block_ids in Hnil. case_match; [|done]. by apply fmap_nil_inv in Hnil. }
  apply Hind. simpl. done.
Qed.

(** Adding the event of one submission. *)
Lemma batch_add md l h r a ptrs (st st' : state) es :
  dumps_inv md st es → l ∉ _dumped_layer_ids st.1.1 →
  ld_request_ids (collect_layer_dumps cfg md) ≠ ∅ →
  extract_layer_addrs cfg (ld_vllm_block_ids (collect_layer_dumps cfg md)) = Ok a →
  array_row a (l - first_layer_id cfg) = Ok ptrs →
  _connector_metadata st'.1.1 = Some md → dump_total_ptrs st'.1.1 = Some a →
  _dumped_layer_ids st'.1.1 =
    match r with Ok _ => {[l]} ∪ _dumped_layer_ids st.1.1 | Raise _ => _dumped_layer_ids st.1.1 end →
  dumps_inv md st' (es ++ [EvDump store (ld_ucm_block_ids (collect_layer_dumps cfg md))
    (replicate (length (ld_ucm_block_ids (collect_layer_dumps cfg md))) l) ptrs h r]).
Proof.
  intros [Hm Hp He Hl Ho] Hnew Hids Ha Hi Hm' Hp' Hl'. apply collect_layer_dumps_keys in Hids.
  assert (omap accepted_layer [EvDump store (ld_ucm_block_ids (collect_layer_dumps cfg md))
    (replicate (length (ld_ucm_block_ids (collect_layer_dumps cfg md))) l) ptrs h r] =
    match r with Ok _ => [l] | Raise _ => [] end) as Eacc.
  { destruct (ld_ucm_block_ids _) as [|k ks]; [done|]. by destruct r. }
  constructor; rewrite ?omap_app, ?Eacc; [done| | | |].
  - intros a' Ha'. congruence.
  - apply Forall_app. split; [done|]. apply Forall_singleton. intros _. by exists l, h, r, a, ptrs.
  - rewrite Hl', Hl, list_to_set_app_L. destruct r; simpl; set_solver.
  - destruct r; [|by rewrite app_nil_r]. apply list.NoDup_app. split_and!; [done| |apply NoDup_singleton].
    intros x Hx ->%list_elem_of_singleton. apply Hnew. rewrite Hl. by apply elem_of_list_to_set.
Qed.

Lemma cached_ptrs_run md (st : state) es :
  dumps_inv md st es →
  (∃ e, cached_dump_ptrs cfg (ld_vllm_block_ids (collect_layer_dumps cfg md)) st = (st, Raise e)) ∨
  ∃ a, cached_dump_ptrs cfg (ld_vllm_block_ids (collect_layer_dumps cfg md)) st =
      ((set_dump_ptrs (Some a) st.1.1, st.1.2, st.2), Ok a) ∧
    extract_layer_addrs cfg (ld_vllm_block_ids (collect_layer_dumps cfg md)) = Ok a.
Proof.
  intros Hinv. destruct st as [[s d] r]. unfold cached_dump_ptrs, get_state, lift_outcome, mbind, M_bind.
  destruct (dump_total_ptrs (s, d, r).1.1) as [a|] eqn:Ea.
  - right. exists a. split; [|by eapply bi_ptrs]. destruct s. simpl in Ea. by rewrite Ea.
  - destruct (extract_layer_addrs cfg _) as [a|e] eqn:Ee; [right; by exists a|left; by exists e].
Qed.

(** A device on which events and synchronisation work. *)
Definition device_works : Prop :=
  ∀ d : D, (∃ d' h, get_event_handle d = (d', Ok h)) ∧ ∃ d', synchronize d = (d', Ok tt).

Lemma get_handle_works s (d : D) (r : RankConsistencyManager * Logged W) :
  device_works → ∃ h, (_get_dump_event_handle wcfg (s, d, r)).2 = Ok h.
Proof.
  intros Hdev. unfold _get_dump_event_handle, on_device, zoom, mbind, M_bind. simpl.
  destruct (enable_event_sync wcfg); simpl.
  - destruct (Hdev d) as [(d1 & h & ->) _]. destruct (h =? 0); simpl; [|by eexists].
    destruct (Hdev d1) as [_ (d2 & ->)]. by eexists.
  - destruct (Hdev d) as [_ (d2 & ->)]. by eexists.
Qed.

(** The layer's dump was handed to the store. *)
Definition layer_dumped (md : UCMConnectorMetadata) (l : Z) (es : list store_event) : Prop :=
  ∀ a ptrs, extract_layer_addrs cfg (ld_vllm_block_ids (collect_layer_dumps cfg md)) = Ok a →
    array_row a (l - first_layer_id cfg) = Ok ptrs →
    ∃ h r, EvDump store (ld_ucm_block_ids (collect_layer_dumps cfg md))
      (replicate (length (ld_ucm_block_ids (collect_layer_dumps cfg md))) l) ptrs h r ∈ es.

Lemma layer_dumped_mono md l es es' : es ⊆ es' → layer_dumped md l es → layer_dumped md l es'.
Proof. intros Hsub Hd a ptrs Ha Hp. destruct (Hd a ptrs Ha Hp) as (h & r & ?). exists h, r. auto. Qed.

(** A layer that is marked was dumped. *)
Lemma marked_dumped md l (st : state) es :
  dumps_inv md st es → l ∈ _dumped_layer_ids st.1.1 → layer_dumped md l es.
Proof.
  intros [_ _ He Hl _]. rewrite Hl, elem_of_list_to_set. intros (ev & Hev & Hacc)%list_elem_of_omap.
  intros a ptrs Ha Hp. rewrite Forall_forall in He.
  destruct (He ev Hev) as (l' & h & r & a' & ptrs' & Ha' & Hp' & ->); [by destruct ev|].
  simpl in Hacc. destruct (length _) eqn:En; simpl in Hacc; [done|].
  assert (l' = l) as -> by (destruct r; simplify_eq; done). simplify_eq. rewrite Ha in Ha'. simplify_eq.
  rewrite Hp in Hp'. simplify_eq. exists h, r. done.
Qed.

(** What a failed submission does with the event. *)
Lemma release_run h :
  ∃ f : state → D, ∀ st : state,
    ((if enable_event_sync wcfg && negb (h =? 0)
      then inherited (on_device (destroy_event_handle h)) else mret tt) ;; mret false) st =
    ((st.1.1, f st, st.2), Ok false).
Proof.
  exists (λ st, if enable_event_sync wcfg && negb (h =? 0) then (destroy_event_handle h st.1.2).1 else st.1.2).
  intros [[s d] r]. destruct (enable_event_sync wcfg && negb (h =? 0)); [|done].
  unfold mbind, M_bind, inherited, zoom, on_device, zoom. cbn [fst snd].
  destruct (destroy_event_handle_ok d h) as [Hok _].
  destruct (destroy_event_handle h d) as [d2 o]. simpl in Hok. subst o. cbn [fst snd]. by rewrite set_lw_worker_id.
Qed.

(** Once submitted, a layer is marked. *)
Definition mark_layer (l : Z) (o : outcome bool) (st : state) : state :=
  match o with
  | Ok true => (set_dumped_layers ({[l]} ∪ _dumped_layer_ids st.1.1) st.1.1, st.1.2, st.2)
  | _ => st
  end.

Lemma submit_task_run md l (st : state) es :
  dumps_inv md st es → l ∉ _dumped_layer_ids st.1.1 → ld_request_ids (collect_layer_dumps cfg md) ≠ ∅ →
  ∃ st' o es', _submit_layerwise_dump_task cfg l (collect_layer_dumps cfg md) st = (st', o) ∧
    log st'.2.2 = log st.2.2 ++ es' ∧ dumps_inv md (mark_layer l o st') (es ++ es') ∧
    (device_works → (∃ b, o = Ok b) → layer_dumped md l es').
Proof.
  intros Hinv Hnew Hids. unfold _submit_layerwise_dump_task. rewrite bool_decide_false by done.
  destruct (cached_ptrs_run md st es Hinv) as [(e & E)|(a & E & Ha)].
  { unfold mbind, M_bind. rewrite E. exists st, (Raise e), []. rewrite !app_nil_r. split_and!; [done..|by intros _ [? ?]]. }
  erewrite bind_ok; [|exact E]. clear E. destruct st as [[s d] r]. cbn [fst snd].
  assert (∀ d' b, b ≠ Ok true → ∃ es', log r.2 = log r.2 ++ es' ∧
    dumps_inv md (mark_layer l b (set_dump_ptrs (Some a) s, d', r)) (es ++ es')) as Hnone.
  { intros d' b Hb. exists []. rewrite !app_nil_r. split; [done|]. destruct Hinv.
    destruct b as [[|]|]; [done|..]; (constructor; try done); by intros a' [= <-]. }
  destruct (array_row a (l - first_layer_id cfg)) as [ptrs|e] eqn:Ep.
  2:{ destruct (Hnone d (Ok false)) as (es' & ? & ?); [done|]. eexists _, _, es'. split_and!; [done..|].
      intros _ _ a' ptrs. rewrite Ha. intros [= <-]. congruence. }
  unfold mbind at 1, M_bind at 1, try_except at 1. unfold mbind at 1, M_bind at 1.
  unfold inherited at 1, zoom at 1. cbn [fst snd lw_worker set_dump_ptrs].
  pose proof (get_handle_works (lw_worker s) d r) as Hworks.
  destruct (get_handle_spec wcfg (lw_worker s) d r) as (d' & o & E & _). rewrite E in *. cbn [fst snd] in *.
  destruct o as [h|e].
  2:{ destruct (Hnone d' (Ok false)) as (es' & ? & ?); [done|]. eexists _, _, es'. split; [reflexivity|].
      destruct s. split_and!; [done..|]. by intros [? ?]%Hworks. }
  assert (∀ r, layer_dumped md l [EvDump store (ld_ucm_block_ids (collect_layer_dumps cfg md))
    (replicate (length (ld_ucm_block_ids (collect_layer_dumps cfg md))) l) ptrs h r]) as Hdone.
  { intros r' a' ptrs'. rewrite Ha. intros [= <-]. rewrite Ep. intros [= <-]. exists h, r'. left. }
  cbn. unfold try_except. unfold mbind at 1, M_bind at 1. unfold inherited at 1, zoom at 1, on_manager, zoom at 1.
  cbn [fst snd]. destruct (submit_dump_log store (ld_block_ids_by_request (collect_layer_dumps cfg md))
    (ld_ucm_block_ids (collect_layer_dumps cfg md))
    (replicate (length (ld_ucm_block_ids (collect_layer_dumps cfg md))) l) ptrs h r) as (m' & w' & o & ->).
  cbn [fst snd]. destruct o as [t|e].
  - eexists _, (Ok true), [_]. split; [reflexivity|]. split; [reflexivity|]. split; [|auto].
    eapply (batch_add md l h (Ok t) a ptrs (s, d, r)); try done. exact (bi_metadata _ _ _ Hinv).
  - destruct (release_run h) as [f Hf]. rewrite Hf.
    eexists _, (Ok false), [_]. split; [reflexivity|]. split; [reflexivity|]. split; [|auto].
    eapply (batch_add md l h (Raise e) a ptrs (s, d, r)); try done. exact (bi_metadata _ _ _ Hinv).
Qed.

Lemma save_dumps md l (st : state) es :
  dumps_inv md st es →
  ∃ st' o es', save_kv_layer cfg l st = (st', o) ∧ log st'.2.2 = log st.2.2 ++ es' ∧
    dumps_inv md st' (es ++ es') ∧
    (device_works → o = Ok tt → ld_request_ids (collect_layer_dumps cfg md) ≠ ∅ →
     layer_dumped md l (es ++ es')).
Proof.
  intros Hinv. unfold save_kv_layer. unfold mbind at 1, M_bind at 1, get_state.
  rewrite (bi_metadata _ _ _ Hinv). case_bool_decide as Hnew.
  { exists st, (Ok tt), []. rewrite !app_nil_r. split_and!; [done..|]. intros. by eapply marked_dumped. }
  destruct (bool_decide_reflect (ld_request_ids (collect_layer_dumps cfg md) = ∅)) as [|Hids].
  { exists st, (Ok tt), []. by rewrite !app_nil_r. }
  destruct (submit_task_run md l st es Hinv Hnew Hids) as (st' & o & es' & E' & L & Hst' & Hd).
  unfold mbind, M_bind. rewrite E'.
  assert (es' ⊆ es ++ es') as Hsub by (intros x Hx; apply elem_of_app; by right).
  destruct o as [[|]|e]; eexists _, _, es'; (split; [reflexivity|]); split_and!; try done;
    intros Hdev _ _; (eapply layer_dumped_mono; [exact Hsub|]); apply Hd; eauto.
Qed.

Lemma hooks_dumps md hooks (st : state) es :
  dumps_inv md st es →
  ∃ st' o es', for_each hooks (run_hook cfg) st = (st', o) ∧ log st'.2.2 = log st.2.2 ++ es' ∧
    dumps_inv md st' (es ++ es') ∧
    (device_works → o = Ok tt → ld_request_ids (collect_layer_dumps cfg md) ≠ ∅ →
     ∀ l, SaveLayer l ∈ hooks → layer_dumped md l (es ++ es')).
Proof.
  revert st es. induction hooks as [|h hooks IH]; intros st es Hinv; cbn [for_each].
  { exists st, (Ok tt), []. rewrite !app_nil_r. split_and!; [done..|]. by intros _ _ _ l ?%elem_of_nil. }
  assert (∃ st1 o1 es1, run_hook cfg h st = (st1, o1) ∧ log st1.2.2 = log st.2.2 ++ es1 ∧
    dumps_inv md st1 (es ++ es1) ∧
    (device_works → o1 = Ok tt → ld_request_ids (collect_layer_dumps cfg md) ≠ ∅ →
     ∀ l, h = SaveLayer l → layer_dumped md l (es ++ es1))) as (st1 & o1 & es1 & E1 & L1 & Hinv1 & Hd1).
  { destruct h as [l|l]; simpl.
    - pose proof (wait_layer_frame l st) as Hfr.
      destruct (wait_for_layer_load cfg l st) as [st1 o] eqn:E. simpl in Hfr.
      destruct (dump_frame_inv md st st1 es Hinv Hfr) as (es1 & L1 & Hinv1).
      unfold mbind, M_bind. rewrite E. destruct o; by eexists st1, _, es1.
    - destruct (save_dumps md l st es Hinv) as (st1 & o1 & es1 & E & L & Hinv1 & Hd).
      exists st1, o1, es1. split_and!; [done..|]. intros ? ? ? l' [= <-]. auto. }
  unfold mbind, M_bind. rewrite E1. destruct o1 as [[]|e].
  - destruct (IH st1 (es ++ es1) Hinv1) as (st' & o & es' & -> & L & Hinv' & Hd).
    exists st', o, (es1 ++ es'). rewrite L, L1, !app_assoc in *. split_and!; [done..|].
    intros Hdev Ho Hids l [Hl|Hl]%elem_of_cons; [|by apply Hd].
    eapply layer_dumped_mono; [|by apply Hd1]. intros x Hx. apply elem_of_app. by left.
  - exists st1, (Raise e), es1. split_and!; try done.
Qed.

(** In a forward pass, whatever the stores and the device answer and however
    often a layer is visited, the store accepts at most one dump per layer;
    every dump it is given is of all blocks the batch has to dump on this rank,
    under the layer's shard number, and from the row of addresses of that
    layer; and the connector has marked just the layers whose dump was
    accepted.  If the pass returns and the device works, every layer that was
    saved has been handed to the store. *)
Theorem layer_dumps_once md hooks (st : state) :
  ∃ st' o es, forward cfg md hooks st = (st', o) ∧ log st'.2.2 = log st.2.2 ++ es ∧
    Forall (batch_dump md) es ∧ NoDup (omap accepted_layer es) ∧
    _dumped_layer_ids st'.1.1 = list_to_set (omap accepted_layer es) ∧
    (device_works → o = Ok tt → ld_request_ids (collect_layer_dumps cfg md) ≠ ∅ →
     ∀ l, SaveLayer l ∈ hooks → layer_dumped md l es).
Proof.
  unfold forward. set (st0 := (bind_connector_metadata md st).1).
  assert (dumps_inv md st0 []) as H0'.
  { constructor; simpl; try done. constructor. }
  pose proof (start_load_frame st0) as Hfr.
  destruct (lw_start_load_kv cfg st0) as [st1 o] eqn:E. simpl in Hfr.
  destruct (dump_frame_inv md st0 st1 [] H0' Hfr) as (es1 & L1 & Hinv1). simpl in L1.
  assert ((bind_connector_metadata md ;; lw_start_load_kv cfg) st = (st1, o)) as E1 by exact E.
  unfold mbind at 1, M_bind at 1. rewrite E1. destruct o as [[]|e].
  - destruct (hooks_dumps md hooks st1 es1 Hinv1) as (st' & o & es' & -> & L & [_ _ He Hl Ho] & Hd).
    exists st', o, (es1 ++ es'). by rewrite L, L1, app_assoc.
  - exists st1, (Raise e), es1. destruct Hinv1 as [_ _ He Hl Ho]. by split_and!.
Qed.
End dumps.

(** ** From batch to batch *)

Section accounts.
Context {W D : Type} `{StoreWorld W} `{DeviceSpec D} `{PySetOrder}.
Variable cfg : LayerConfig.

Abbreviation state := (LayerState * D * (RankConsistencyManager * Logged W))%type.
Abbreviation wcfg := (lw_cfg cfg).

(** The direct connector's state. *)
Definition inherited_state (st : state) : WorkerState * D * (RankConsistencyManager * Logged W) :=
  (lw_worker st.1.1, st.1.2, st.2).

(** A batch tracks its requests only when it is saved; until then they count as
    tracked. *)
Definition batch_state (md : UCMConnectorMetadata) (st : state) :
    WorkerState * D * (RankConsistencyManager * Logged W) :=
  (set_dumping (dumping_req_ids (lw_worker st.1.1) ∪ dump_requests md) (lw_worker st.1.1), st.1.2, st.2).

Record batch_inv (md : UCMConnectorMetadata) (st : state) : Prop := {
  ba_metadata : _connector_metadata st.1.1 = Some md;
  ba_inv : dump_inv wcfg (batch_state md st);
}.

(** What the loads leave alone. *)
Definition layer_view (st : state) := (dump_view (inherited_state st), _connector_metadata st.1.1).

Lemma batch_inv_view md st st' : layer_view st' = layer_view st → batch_inv md st → batch_inv md st'.
Proof.
  unfold layer_view, dump_view. intros [= E1 E2 E3 E4 E5] [Hm Hi]. split; [congruence|].
  eapply dump_inv_view; [|exact Hi]. unfold dump_view, batch_state. simpl. congruence.
Qed.

Lemma inherited_view {A} (m : M (WorkerState * D * (RankConsistencyManager * Logged W)) A) :
  preserves dump_view m → preserves layer_view (inherited m).
Proof.
  intros Hm [[s d] r]. specialize (Hm (lw_worker s, d, r)). unfold inherited, zoom, layer_view, inherited_state.
  cbn [fst snd]. destruct (m (lw_worker s, d, r)) as [[[w' d'] r'] o]. cbn [fst snd] in *. f_equal. exact Hm.
Qed.

Lemma on_layer_view f :
  (∀ s, lw_worker (f s) = lw_worker s ∧ _connector_metadata (f s) = _connector_metadata s) →
  preserves layer_view (on_layer (D := D) (W := Logged W) f).
Proof.
  intros Hf [[s d] r]. unfold layer_view, inherited_state. simpl. by destruct (Hf s) as [-> ->].
Qed.

Ltac keep_accounts_by tac :=
  repeat first
    [ tac
    | apply preserves_bind; [|intros ?]
    | apply preserves_try; [|intros ?]
    | apply preserves_ret | apply preserves_raise | apply preserves_get | apply preserves_lift
    | apply on_layer_view; done
    | apply inherited_view, on_worker_view; done
    | apply inherited_view, on_manager_view;
        first [apply submit_load_view|apply wait_load_view]
    | case_match ].

Lemma fail_request_view md id : preserves layer_view (fail_request (W := Logged W) (D := D) md id).
Proof.
  unfold fail_request. apply preserves_bind.
  - apply inherited_view. unfold failed_blocks. intros st. by case_match.
  - intros blocks. unfold _record_load_error, worker_mark_failed. keep_accounts_by fail.
Qed.

Lemma submit_layer_loads_view layer row md rs b :
  preserves layer_view (submit_layer_loads (W := Logged W) (D := D) cfg layer row md rs b).
Proof.
  revert b. induction rs as [|r rs IH]; intros b; cbn [submit_layer_loads]; [done|].
  unfold submit_layer_load. keep_accounts_by ltac:(first [apply IH|apply fail_request_view]).
Qed.

Lemma submit_layer_view layer row md :
  preserves layer_view (_submit_request_load_tasks_for_layer (W := Logged W) (D := D) cfg layer row md).
Proof.
  unfold _submit_request_load_tasks_for_layer. keep_accounts_by ltac:(apply submit_layer_loads_view).
Qed.

Lemma for_each_view {A} (l : list A) (body : A → M state unit) :
  (∀ x, preserves layer_view (body x)) → preserves layer_view (for_each l body).
Proof. intros Hb. induction l as [|x l IH]; cbn [for_each]; keep_accounts_by ltac:(first [apply Hb|apply IH]). Qed.

Lemma wait_layer_task_view md p : preserves layer_view (wait_layer_task (W := Logged W) (D := D) cfg md p).
Proof. unfold wait_layer_task. destruct p. keep_accounts_by ltac:(apply fail_request_view). Qed.

Lemma wait_layer_view l : preserves layer_view (wait_for_layer_load (W := Logged W) (D := D) cfg l).
Proof.
  unfold wait_for_layer_load.
  keep_accounts_by ltac:(first [apply submit_layer_view|apply for_each_view, wait_layer_task_view]).
Qed.

Lemma plan_request_view p : preserves layer_view (plan_request (W := Logged W) (D := D) cfg p).
Proof. unfold plan_request. destruct p. keep_accounts_by fail. Qed.

Lemma start_load_view : preserves layer_view (lw_start_load_kv (W := Logged W) (D := D) cfg).
Proof.
  unfold lw_start_load_kv, _get_connector_metadata.
  keep_accounts_by ltac:(first [apply submit_layer_view|apply for_each_view, plan_request_view]).
Qed.

(** The requests of a layer's dump, as for the direct connector. *)
Lemma collect_layer_dumps_requests md :
  dom (ld_block_ids_by_request (collect_layer_dumps cfg md)) = ld_request_ids (collect_layer_dumps cfg md) ∧
  ld_request_ids (collect_layer_dumps cfg md) ⊆ dump_requests md.
Proof.
  destruct (collect_dumps_requests wcfg md) as [E1 E2].
  assert (ld_request_ids (collect_layer_dumps cfg md) = dump_request_ids (collect_dumps wcfg md) ∧
    ld_block_ids_by_request (collect_layer_dumps cfg md) = block_ids_by_request (collect_dumps wcfg md))
    as [-> ->]; [|done].
  unfold collect_layer_dumps, collect_dumps.
  assert (∀ reqs l l', ld_request_ids l = dump_request_ids l' → ld_block_ids_by_request l = block_ids_by_request l' →
    ld_request_ids (foldl (add_layer_dump cfg) l reqs) = dump_request_ids (foldl (add_request_dump wcfg) l' reqs) ∧
    ld_block_ids_by_request (foldl (add_layer_dump cfg) l reqs) =
      block_ids_by_request (foldl (add_request_dump wcfg) l' reqs)) as Hind.
  { induction reqs as [|[id q] reqs IH]; intros l l' Ei Eb; [done|]. cbn [foldl]. apply IH;
      unfold add_layer_dump, add_request_dump; destruct (bool_decide _); try done;
      destruct (_get_rank_dump_blocks wcfg q) as [u v]; destruct (bool_decide _); try done;
      simpl; congruence. }
  by apply Hind.
Qed.

Lemma save_batch_inv md l (st : state) :
  batch_inv md st → batch_inv md (save_kv_layer cfg l st).1.
Proof.
  intros Hinv. destruct Hinv as [Hm Hi]. assert (batch_inv md st) as Hinv by done.
  unfold save_kv_layer. unfold mbind at 1, M_bind at 1, get_state. rewrite Hm.
  case_bool_decide; [done|]. destruct (bool_decide _); [done|].
  assert (batch_inv md (_submit_layerwise_dump_task cfg l (collect_layer_dumps cfg md) st).1) as Hsub.
  2:{ unfold mbind, M_bind. destruct (_submit_layerwise_dump_task _ _ _ _) as [st' [[|]|]]; [|done..].
      eapply batch_inv_view; [|exact Hsub]. by destruct st' as [[[] ?] ?]. }
  unfold _submit_layerwise_dump_task. destruct (bool_decide _); [done|].
  unfold mbind at 1, M_bind at 1.
  assert (preserves layer_view (cached_dump_ptrs (W := Logged W) (D := D) cfg
    (ld_vllm_block_ids (collect_layer_dumps cfg md)))) as Hc
    by (unfold cached_dump_ptrs; keep_accounts_by fail).
  specialize (Hc st). destruct (cached_dump_ptrs cfg _ st) as [st1 o]. simpl in Hc.
  apply (batch_inv_view _ _ _ Hc) in Hinv. clear Hc Hm Hi. destruct o as [a|e]; [|done].
  destruct (array_row a _) as [ptrs|e]; [|done].
  destruct st1 as [[s d] [m w]]. destruct Hinv as [Hm Hi]. unfold batch_state in Hi. simpl in Hm, Hi.
  unfold mbind at 1, M_bind at 1, try_except at 1. unfold mbind at 1, M_bind at 1.
  unfold inherited at 1, zoom at 1. cbn [fst snd].
  destruct (get_handle_spec wcfg (lw_worker s) d (m, w)) as (d1 & o & -> & Ho). cbn [fst snd].
  rewrite set_lw_worker_id. destruct o as [h|e]; simpl.
  2:{ split; [done|]. destruct Hi as [Hc He Hn Hsy Hd]. constructor; simpl in *; try done. by rewrite Ho. }
  unfold try_except. unfold mbind at 1, M_bind at 1. unfold inherited at 1, zoom at 1, on_manager, zoom at 1.
  cbn [fst snd]. destruct (submit_dump _ _ _ _ _ _ _) as [[m1 w1] o] eqn:Hs; apply submit_dump_contexts in Hs.
  cbn [fst snd]. rewrite set_lw_worker_id. destruct o as [t|e].
  - destruct Hs as (ctx & Em & Hdom). destruct (collect_layer_dumps_requests md) as [E1 E2].
    rewrite E1 in Hdom. split; [done|].
    refine (add_task_inv wcfg _ d m w d1 m1 w1 t ctx _ (ld_request_ids (collect_layer_dumps cfg md)) h
      Hi Em Hdom _ Ho). simpl. set_solver.
  - pose proof (release_inv wcfg _ _ _ _ d1 m1 w1 h Hi Hs Ho) as Hi2.
    destruct (enable_event_sync wcfg && negb (h =? 0)); [|by split].
    unfold mbind, M_bind, inherited, zoom, on_device, zoom. cbn [fst snd].
    destruct (destroy_event_handle_ok d1 h) as [Hok _].
    destruct (destroy_event_handle h d1) as [d2 r2]. simpl in Hok, Hi2. subst r2. by split.
Qed.

(** [wait_for_save] never raises, and after it the accounts are in order. *)
Lemma lw_wait_for_save_inv md (st : state) :
  batch_inv md st → ∃ st' r, lw_wait_for_save cfg st = (st', Ok r) ∧ dump_inv wcfg (inherited_state st').
Proof.
  intros [Hm Hi]. unfold lw_wait_for_save, _poll_pending_dump_tasks. unfold mbind at 1, M_bind at 1.
  unfold inherited at 1, zoom at 1. cbn [fst snd]. unfold mbind at 1, M_bind at 1, get_state. cbn [fst snd].
  destruct st as [[s d] r]. cbn [fst snd] in *.
  destruct (poll_dumps_settles wcfg (_pending_dump_tasks (lw_worker s)) [] (lw_worker s, d, r))
    as (st1 & kept & E & Hs).
  erewrite bind_ok; [|exact E]. destruct st1 as [[s1 d1] r1]. pose proof Hs as (waited & Hp & Ew & Hc & He).
  simpl in Ew. subst s1. simpl.
  assert (dump_inv wcfg (set_pending_dumps kept (set_dumping (dumping_req_ids (lw_worker s) ∪ dump_requests md)
    (lw_worker s)), d1, r1)) as Hinv'.
  { eapply (settled_inv wcfg (batch_state md (s, d, r)) (set_dumping (dumping_req_ids (lw_worker s) ∪
      dump_requests md) (lw_worker s), d1, r1)); [done| |done|done]. by exists waited. }
  unfold mbind at 1, M_bind at 1. cbn [fst snd].
  destruct (0 <? _layerwise_save_bytes _); unfold mbind, M_bind; simpl; rewrite Hm;
    (eexists _, _; split; [reflexivity|exact Hinv']).
Qed.

Lemma forward_batch_inv md hooks (st : state) :
  dump_inv wcfg (inherited_state st) → batch_inv md (forward cfg md hooks st).1.
Proof.
  intros Hi. unfold forward.
  assert (batch_inv md (bind_connector_metadata md st).1) as Hb.
  { split; [done|]. apply (dump_inv_dumping _ _ _ _ (dump_requests md)) in Hi. exact Hi. }
  assert (batch_inv md ((bind_connector_metadata md ;; lw_start_load_kv cfg) st).1) as H1'.
  { eapply batch_inv_view; [|exact Hb]. apply start_load_view. }
  unfold mbind at 1, M_bind at 1.
  destruct ((bind_connector_metadata md ;; lw_start_load_kv cfg) st) as [st1 [[]|]]; [|done].
  simpl in H1'. clear Hi Hb. revert st1 H1'. induction hooks as [|h hooks IH]; intros st1 H1'; [done|].
  cbn [for_each]. assert (batch_inv md (run_hook cfg h st1).1) as Hh.
  { destruct h as [l|l]; simpl; [|by apply save_batch_inv].
    eapply batch_inv_view; [|exact H1']. apply preserves_bind; [apply wait_layer_view|done]. }
  unfold mbind, M_bind. destruct (run_hook cfg h st1) as [st2 [[]|]]; [by apply IH|done].
Qed.

(** The engine's calls: a step binds its metadata, starts the loads, runs the
    model with its hooks and saves; between steps requests are preempted, errors
    and results are collected, and the metadata is cleared. *)
Inductive lw_reachable : state → Prop :=
| lw_init mla use d w :
    events d = ∅ → lw_reachable (LayerState_init mla, d, (RankConsistencyManager_init false use, w))
| lw_batch md hooks st st' r :
    lw_reachable st → (forward cfg md hooks ;; lw_wait_for_save cfg) st = (st', Ok r) → lw_reachable st'
| lw_clear st :
    lw_reachable st → lw_reachable
      (mkLayerState (lw_worker st.1.1) None (load_tasks st.1.1) (need_load st.1.1) (dump_total_ptrs st.1.1)
         (request_data st.1.1) (_failure_req_ids st.1.1) (_dumped_layer_ids st.1.1)
         (_layerwise_load_start_by_layer st.1.1) (_layerwise_load_bytes st.1.1)
         (_layerwise_save_bytes st.1.1), st.1.2, st.2)
| lw_preempt ids st : lw_reachable st → lw_reachable (inherited (handle_preemptions wcfg ids) st).1
| lw_errors st : lw_reachable st → lw_reachable (inherited get_block_ids_with_load_errors st).1
| lw_report st : lw_reachable st → lw_reachable (inherited build_connector_worker_meta st).1
| lw_finished fin st : lw_reachable st → lw_reachable (inherited (get_finished wcfg fin) st).1
| lw_stores s d m w w' : lw_reachable (s, d, (m, w)) → lw_reachable (s, d, (m, w')).

Lemma inherited_inv {A} (m : M (WorkerState * D * (RankConsistencyManager * Logged W)) A) (st : state) :
  dump_inv wcfg (m (inherited_state st)).1 → dump_inv wcfg (inherited_state (inherited m st).1).
Proof.
  unfold inherited, zoom, inherited_state. destruct (m _) as [[[w' d'] r'] o]. done.
Qed.

Lemma lw_reachable_inv st : lw_reachable st → dump_inv wcfg (inherited_state st).
Proof.
  induction 1 as [mla use d w Hev|md hooks st st' r _ IH E|st _ IH|ids st _ IH|st _ IH|st _ IH|fin st _ IH
                 |s d m w w' _ IH].
  - constructor; simpl; [by intros t x ?%lookup_empty_Some|done|apply NoDup_nil_2|done|].
    by intros p ?%elem_of_nil.
  - apply (forward_batch_inv md hooks) in IH. unfold mbind, M_bind in E.
    destruct (forward cfg md hooks st) as [st1 [[]|]]; [|done].
    destruct (lw_wait_for_save_inv md st1 IH) as (st2 & r2 & E2 & ?). rewrite E2 in E. by simplify_eq.
  - exact IH.
  - apply inherited_inv. by destruct (preempt_inv wcfg ids _ IH) as (st' & -> & ? & _).
  - apply inherited_inv. eapply dump_inv_view; [apply load_errors_view|done].
  - apply inherited_inv. eapply dump_inv_view; [apply worker_meta_view|done].
  - apply inherited_inv. by destruct (get_finished_inv wcfg fin _ IH) as (st' & r & -> & ? & _).
  - destruct IH. by constructor.
Qed.

(** C33 Over every sequence of forward passes and calls in between, with any
    answers from stores and device: each layer's dump task holds its own device
    event and no event leaks; and when the engine reports finished requests,
    [get_finished] returns, and before it does every layer's dump of those
    requests has been waited for, so that their KV blocks may be reused. *)
Theorem layerwise_dump_accounts st fin :
  lw_reachable st →
  events st.1.2 = list_to_set (handles (_pending_dump_tasks (lw_worker st.1.1))) ∧
  NoDup (handles (_pending_dump_tasks (lw_worker st.1.1))) ∧
  ∃ st' recv,
    inherited (get_finished wcfg fin) st =
      (st', Ok (or_none (fin ∩ dumping_req_ids (lw_worker st.1.1)), recv)) ∧
    (∀ p, p ∈ _pending_dump_tasks (lw_worker st'.1.1) ↔
       p ∈ _pending_dump_tasks (lw_worker st.1.1) ∧ pd_request_ids p ∩ fin = ∅) ∧
    (∀ t x, _dump_task_contexts st'.2.1 !! t = Some x → dom x.2 ∩ fin = ∅).
Proof.
  intros Hst%lw_reachable_inv. split; [exact (di_events _ _ Hst)|]. split; [exact (di_handles _ _ Hst)|].
  destruct (get_finished_inv wcfg fin _ Hst) as (st' & recv & E & Hinv & _ & Hp).
  exists (set_lw_worker st'.1.1 st.1.1, st'.1.2, st'.2), recv. split_and!.
  - unfold inherited, zoom. change (lw_worker st.1.1, st.1.2, st.2) with (inherited_state st). by rewrite E.
  - exact Hp.
  - intros t x Hx. destruct (di_contexts _ _ Hinv t x Hx) as (p & Hin & _ & Hdom).
    apply Hp in Hin as [_ Hdis]. set_solver.
Qed.
End accounts.

(** ** A concrete batch *)

Definition ex_layer_batch : UCMConnectorMetadata := mkConnectorMetadata [("r"%string, ex_dump)] ∅.

(** Stores whose first two tasks take long. *)
Definition ex_slow_state : LayerState * RefDevice * (RankConsistencyManager * Logged RefStore) :=
  (LayerState_init false, mkRefDevice ∅,
   (RankConsistencyManager_init false true, mkLogged (mkRefStore ∅ ∅ {[1; 2]} [] None) [])).

(** After a forward pass that saves both layers, the first twice. *)
Definition ex_layer_saved :=
  ((forward ex_layer_cfg ex_layer_batch [SaveLayer 0; SaveLayer 1; SaveLayer 0] ;;
    lw_wait_for_save ex_layer_cfg) ex_slow_state).1.

Lemma layerwise_dump_accounts_witness :
  length (_pending_dump_tasks (lw_worker ex_layer_saved.1.1)) = 2%nat ∧
  events ex_layer_saved.1.2 = list_to_set (handles (_pending_dump_tasks (lw_worker ex_layer_saved.1.1))).
Proof.
  split; [vm_compute; reflexivity|].
  apply (layerwise_dump_accounts ex_layer_cfg ex_layer_saved {["r"%string]}).
  apply (lw_batch ex_layer_cfg ex_layer_batch [SaveLayer 0; SaveLayer 1; SaveLayer 0] ex_slow_state
    ex_layer_saved (Some 32)).
  - apply lw_init. reflexivity.
  - vm_compute. reflexivity.
Defined.
