(* ===== verification/ContextParallel.v ===== *)
(** * Context parallelism: correctness

    Under context parallelism a KV block spans the ranks, and a plan of the
    scheduler has [cp_world_size] hashes for each KV block.
    [UCMCPConnector.bind_connector_metadata] leaves each rank its own hash of
    every block. *)

From Stdlib Require Import ZArith Lia.
From stdpp Require Import base list gmap strings numbers fin_sets.
From S2P Require Import Prelude.
From S2P Require Import Store.
From S2P Require Import RankConsistency.
From S2P Require Import DirectScheduler.
From S2P Require Import SchedulerMatching.
From S2P Require Import SchedulerPlanning.
From S2P Require Import DirectWorker.
From S2P Require Import LayerWise.
Local Open Scope Z_scope.

(** A rank of the context-parallel group of the scheduler's configuration. *)
Definition rank_of (cfg : SchedulerConfig) (r : CPRank) : Prop :=
  cp_size r = cp_world_size cfg ∧ 0 ≤ current_rank r < cp_world_size cfg.

Lemma cp_keys_lookup cfg r plan (j : nat) :
  rank_of cfg r →
  (cp_keys r plan).1 !! j = plan.1 !! Z.to_nat (current_rank r + Z.of_nat j * cp_world_size cfg) ∧
  (cp_keys r plan).2 = plan.2.
Proof.
  intros [Hsize Hr]. unfold cp_keys. destruct plan as [[|k ks] vs]; simpl.
  - by rewrite !lookup_nil.
  - rewrite lookup_py_slice_step, Hsize by lia. done.
Qed.

(** If a plan pairs the hashes of a request with its KV blocks, then after
    [bind_connector_metadata] every rank has exactly one key for each KV block
    of the plan, in order: for the block at position [j] of the plan, that is
    block [first + j] of the request, its own one of the block's hashes. *)
Theorem cp_rank_blocks (cfg : SchedulerConfig) (r : CPRank) first ids blocks plan :
  0 < cp_world_size cfg → 0 ≤ first → rank_of cfg r → paired cfg first ids blocks plan →
  let own := cp_keys r plan in
  zlen own.1 = zlen own.2 ∧
  ∀ (j : nat) k, own.1 !! j = Some k →
    ids !! Z.to_nat ((first + Z.of_nat j) * cp_world_size cfg + current_rank r) = Some k ∧
    ∃ b, own.2 !! j = Some b ∧ blocks !! (Z.to_nat first + j)%nat = Some b.
Proof.
  intros Hcp Hf Hr [Hlen Hpair] own. pose proof Hr as [_ Hrank].
  assert (own.2 = plan.2) as E2 by (apply (cp_keys_lookup cfg r plan 0 Hr)). rewrite E2. split.
  - apply Z.le_antisymm; unfold zlen in *.
    + apply Nat2Z.inj_le, Nat.nlt_ge. intros Hlt.
      destruct (lookup_lt_is_Some_2 own.1 (length plan.2) Hlt) as [k Hk].
      unfold own in Hk. rewrite (proj1 (cp_keys_lookup cfg r plan _ Hr)) in Hk.
      apply lookup_lt_Some in Hk. lia.
    + apply Nat2Z.inj_le, Nat.nlt_ge. intros Hlt.
      assert (own.1 !! length own.1 = None) as Hn by (by apply lookup_ge_None_2).
      unfold own in Hn at 1. rewrite (proj1 (cp_keys_lookup cfg r plan _ Hr)) in Hn.
      apply lookup_ge_None in Hn.
      assert ((Z.of_nat (length own.1) + 1) * cp_world_size cfg ≤ Z.of_nat (length plan.2) * cp_world_size cfg)
        by (apply Z.mul_le_mono_nonneg_r; lia). unfold own in *. lia.
  - intros j k Hk. unfold own in Hk. rewrite (proj1 (cp_keys_lookup cfg r plan j Hr)) in Hk.
    destruct (Hpair _ _ Hk) as [Hid (b & Hb & Hblk)].
    assert (Z.of_nat (Z.to_nat (current_rank r + Z.of_nat j * cp_world_size cfg)) / cp_world_size cfg =
      Z.of_nat j) as Ediv.
    { rewrite Z2Nat.id by nia. rewrite Z.div_add, Z.div_small by lia. lia. }
    rewrite Ediv, Nat2Z.id in Hb, Hblk. split; [|by exists b].
    rewrite <- Hid. f_equal. nia.
Qed.

(** ** Concrete plans *)

(** Two ranks, two tokens per hash and so four per KV block. *)
Definition ex_cp_config : SchedulerConfig :=
  mkSchedulerConfig 4 2 0 false true None 0 (λ _, Ok ["a"; "b"; "c"]%string) [λ b, b].
Definition ex_cp_rank (k : Z) : CPRank := mkCPRank 2 k 0 2.


(** When a step runs past the hashed tokens, the plan is cut to as many KV
    blocks as there are hashes.  Under context parallelism that is too many: in
    this step of a prompt of 7 tokens, with 3 hashes, rank 1 of 2 is left with
    one key but two KV blocks. *)
Theorem cp_overflow_unpaired :
  ∃ meta tokens blocks meta' d,
    meta_wf ex_cp_config meta ∧
    (token_processed meta + tokens) / block_size ex_cp_config ≤ zlen blocks ∧
    zlen (ucm_block_ids meta) = num_token_ids meta / (block_size ex_cp_config / cp_world_size ex_cp_config) ∧
    _generate_dispatch_meta ex_cp_config meta tokens blocks false = (meta', d) ∧
    rank_of ex_cp_config (ex_cp_rank 1) ∧
    dump_block_ids (cp_request (ex_cp_rank 1) d) = (["b"]%string, [10; 11]).
Proof.
  exists (mkRequestMeta ["a"; "b"; "c"]%string 0 0 7 [] 0), 9, [10; 11; 12].
  eexists _, _. split; [unfold meta_wf; vm_compute; repeat split; congruence|].
  split; [vm_compute; congruence|]. split; [reflexivity|]. split; [reflexivity|].
  split; [split; [reflexivity|]; vm_compute; split; congruence|]. reflexivity.
Qed.
