(* ===== verification/KVCacheLayout.v ===== *)
(** * The layout of the KV cache

    Model of [KVCacheLayout] in src/ucm/integration/vllm/ucm_connector.py: how a
    worker turns the KV-cache tensors of the engine into base pointers, sizes
    and strides, and a list of KV block ids into addresses.

    A tensor is its shape, strides (in elements), element size and address.
    [extract_layer_index] of vLLM is applied beforehand: a cache entry carries
    its layer index.  Arrays of numpy's uint64 are lists of integers below
    [2 ^ 64]; arithmetic on them wraps around, and converting a Python integer
    outside the range raises [OverflowError]. *)

From Stdlib Require Import ZArith Lia.
From stdpp Require Import base list gmap strings numbers sorting.
From S2P Require Import Prelude.
Local Open Scope Z_scope.

(** ** Data *)

Record tensor := mkTensor {
  shape : list Z;
  strides : list Z;
  element_size : Z;
  data_ptr : Z;
}.

(** A value of the engine's [kv_caches] dictionary. *)
Inductive kv_layer :=
| KVTensor (t : tensor)
| KVTuple (components : list (option tensor))  (* [None]: not a tensor *)
| KVOther.

Record KVCacheTensorInfo := mkTensorInfo {
  ptr : Z;
  bytes_per_block : Z;
  buffer_size : Z;
  block_stride : Z;
  physical_blocks : Z;
}.

(** What the layout reads of the configuration. *)
Record LayoutConfig := mkLayoutConfig {
  lc_use_layerwise : bool;
  pp_size : Z;
  num_hidden_layers : Z;
  num_blocks : Z;
  dcp_size : Z;
  mtp_predict : option (option Z);  (* an MTP speculative configuration, its [n_predict] *)
}.

(** In direct mode the arrays have one row with all tensors; in layerwise mode
    a row per layer. *)
Record KVCacheLayout := mkLayout {
  base_ptrs : list (list Z);
  tensor_size_lists : list (list Z);
  buffer_sizes : list (list Z);
  block_stride_lists : list (list Z);
}.

(** ** Tensors *)

(** [tensor[i]] *)
Definition subtensor (i : Z) (t : tensor) : tensor :=
  mkTensor (tail (shape t)) (tail (strides t)) (element_size t)
    (data_ptr t + i * default 0 (head (strides t)) * element_size t).

(** The order of [sorted] on pairs of integers. *)
Definition pair_le (p q : Z * Z) : Prop := p.1 < q.1 ∨ p.1 = q.1 ∧ p.2 ≤ q.2.

#[export] Instance pair_le_dec p q : Decision (pair_le p q).
Proof. unfold pair_le. apply _. Defined.

(** The inner dimensions that matter, smallest stride first. *)
Definition packing (t : tensor) : list (Z * Z) :=
  merge_sort pair_le (filter (λ p : Z * Z, 1 < p.2) (zip (tail (strides t)) (tail (shape t)))).

Fixpoint dense_from (expected_stride : Z) (l : list (Z * Z)) : bool :=
  match l with
  | [] => true
  | (stride, size) :: r => (stride =? expected_stride) && dense_from (expected_stride * size) r
  end.

(** The local function of [_tensor_infos]. *)
Definition handle_tensor (t : tensor) : outcome KVCacheTensorInfo :=
  let bytes := list_prod (tail (shape t)) * element_size t in
  if negb (dense_from 1 (packing t)) then Raise ValueError
  else
    match strides t, shape t with
    | stride0 :: _, physical :: _ =>
        let bstride := stride0 * element_size t in
        if bstride <? bytes then Raise ValueError
        else if physical =? 0 then Raise IndexError
        else Ok (mkTensorInfo (data_ptr t) bytes ((physical - 1) * bstride + bytes) bstride physical)
    | _, _ => Raise IndexError
    end.

Fixpoint handle_components (l : list (option tensor)) : outcome (list KVCacheTensorInfo) :=
  match l with
  | [] => Ok []
  | None :: _ => Raise TypeError
  | Some t :: r => i ← handle_tensor t; rest ← handle_components r; Ok (i :: rest)
  end.

Definition _tensor_infos (layer : kv_layer) : outcome (list KVCacheTensorInfo) :=
  match layer with
  | KVTensor t =>
      if bool_decide (length (shape t) = 5%nat) && bool_decide (head (shape t) = Some 2) then
        handle_components [Some (subtensor 0 t); Some (subtensor 1 t)]
      else handle_components [Some t]
  | KVTuple components => handle_components components
  | KVOther => Raise TypeError
  end.

(** ** Rows *)

(** [l[i]] for a list assigned by index: a negative index counts from the end. *)
Definition row_index {A} (rows : list A) (i : Z) : outcome nat :=
  let i' := if i <? 0 then i + zlen rows else i in
  if (0 <=? i') && (i' <? zlen rows) then Ok (Z.to_nat i') else Raise IndexError.

Fixpoint fill_rows (first_layer_id : Z) (caches : list (Z * kv_layer))
    (rows : list (list KVCacheTensorInfo)) : outcome (list (list KVCacheTensorInfo)) :=
  match caches with
  | [] => Ok rows
  | (layer_id, layer) :: rest =>
      i ← row_index rows (layer_id - first_layer_id);
      infos ← _tensor_infos layer;
      fill_rows first_layer_id rest (alter (λ row, row ++ infos) i rows)
  end.

Definition _collect_tensor_rows (caches : list (Z * kv_layer)) :
    outcome (list (list KVCacheTensorInfo)) :=
  match caches with
  | [] => Raise StopIteration   (* [next] of an empty iterator *)
  | (first_layer_id, _) :: _ =>
      fill_rows first_layer_id caches
        (replicate (size (list_to_set caches.*1 : gset Z)) [])
  end.

Section layout.
Variable cfg : LayoutConfig.

(** How many physical rows one block spans in a tensor. *)
Definition _dcp_replicated_scale (t : KVCacheTensorInfo) : outcome Z :=
  if (dcp_size cfg <=? 1) || (bytes_per_block t =? 0) then Ok 1
  else if physical_blocks t =? num_blocks cfg * dcp_size cfg then
    if negb (block_stride t =? bytes_per_block t) then Raise ValueError else Ok (dcp_size cfg)
  else Ok 1.

Definition uint64_max : Z := 2 ^ 64.

(** [np.asarray(l, dtype=np.uint64)], of numpy 2, which raises on integers out of range. *)
Fixpoint as_uint64 (l : list Z) : outcome (list Z) :=
  match l with
  | [] => Ok []
  | x :: r =>
      if (0 <=? x) && (x <? uint64_max) then r' ← as_uint64 r; Ok (x :: r') else Raise OverflowError
  end.

Fixpoint map_outcome {A B} (f : A → outcome B) (l : list A) : outcome (list B) :=
  match l with
  | [] => Ok []
  | x :: r => y ← f x; r' ← map_outcome f r; Ok (y :: r')
  end.

(** The four arrays of a row of tensors. *)
Definition scaled (field : KVCacheTensorInfo → Z) (t : KVCacheTensorInfo) : outcome Z :=
  k ← _dcp_replicated_scale t; Ok (field t * k).

Definition array_rows (f : KVCacheTensorInfo → outcome Z) (rows : list (list KVCacheTensorInfo)) :
    outcome (list (list Z)) :=
  map_outcome (λ row, r ← map_outcome f row; as_uint64 r) rows.

Definition build_rows (rows : list (list KVCacheTensorInfo)) : outcome KVCacheLayout :=
  ptrs ← array_rows (λ t, Ok (ptr t)) rows;
  sizes ← array_rows (scaled bytes_per_block) rows;
  buffers ← array_rows (λ t, Ok (buffer_size t)) rows;
  bstrides ← array_rows (scaled block_stride) rows;
  Ok (mkLayout ptrs sizes buffers bstrides).

Definition _build_layout (caches : list (Z * kv_layer)) : outcome KVCacheLayout :=
  rows ← _collect_tensor_rows caches;
  if negb (lc_use_layerwise cfg) then build_rows [concat rows]
  else
    match rows with
    | [] | [] :: _ => Raise ValueError
    | row0 :: _ =>
        if bool_decide (Forall (λ row, bytes_per_block <$> row = bytes_per_block <$> row0) rows)
        then build_rows rows else Raise ValueError
    end.

(** [KVCacheLayout.__init__] *)
Definition KVCacheLayout_init (caches : list (Z * kv_layer)) : outcome KVCacheLayout :=
  if (1 <? pp_size cfg) && (num_hidden_layers cfg <=? 0) then Raise ValueError
  else _build_layout caches.

(** ** Addresses *)

(** One block of one row: [id * stride + base], in uint64. *)
Definition row_addrs (strides_row ptrs_row : list Z) (id : Z) : list Z :=
  zip_with (λ s p, (id * s + p) mod uint64_max) strides_row ptrs_row.

(** [extract_block_addrs(ids)]: for every block the addresses of every row, which
    the callers flatten to one row per block. *)
Definition extract_block_addrs (l : KVCacheLayout) (ids : list Z) : outcome (list (list (list Z))) :=
  ids' ← as_uint64 ids;
  Ok ((λ id, zip_with (λ s p, row_addrs s p id) (block_stride_lists l) (base_ptrs l)) <$> (ids' : list Z)).

(** [extract_block_addrs(ids, layer_first=True)]: for every layer the addresses
    of every block. *)
Definition extract_block_addrs_layer_first (l : KVCacheLayout) (ids : list Z) :
    outcome (list (list (list Z))) :=
  ids' ← as_uint64 ids;
  if negb (lc_use_layerwise cfg) then Raise ValueError
  else Ok (zip_with (λ s p, row_addrs s p <$> (ids' : list Z)) (block_stride_lists l) (base_ptrs l)).

Definition tensor_size_list (l : KVCacheLayout) : outcome (list Z) :=
  if negb (lc_use_layerwise cfg) then Ok (concat (tensor_size_lists l))
  else match tensor_size_lists l with row :: _ => Ok row | [] => Raise IndexError end.

(** [sum()] of a uint64 array. *)
Definition sum_uint64 (l : list Z) : Z := list_sum l mod uint64_max.

Definition shard_size (l : KVCacheLayout) : outcome Z :=
  if negb (lc_use_layerwise cfg) then Ok (sum_uint64 (concat (tensor_size_lists l)))
  else match tensor_size_lists l with row :: _ => Ok (sum_uint64 row) | [] => Raise IndexError end.

Definition _num_mtp_layers : Z :=
  match mtp_predict cfg with
  | None => 0
  | Some (Some n) => if 0 <? n then n else 1
  | Some None => 1
  end.

(** The first row of a flat array is its first element, as a row. *)
Definition layout_block_size (l : KVCacheLayout) : outcome Z :=
  if 1 <? pp_size cfg then
    match (if lc_use_layerwise cfg then tensor_size_lists l
           else (λ x, [x]) <$> concat (tensor_size_lists l)) with
    | row :: _ => Ok (sum_uint64 row * (num_hidden_layers cfg + _num_mtp_layers))
    | [] => Raise IndexError
    end
  else Ok (sum_uint64 (concat (tensor_size_lists l))).
End layout.
