(* ===== verification/KVCacheLayoutFacts.v ===== *)
(** * The KV cache layout: correctness

    A block of a tensor passes the layout's checks only if it is a dense page,
    so that one contiguous copy moves exactly its elements; the addresses the
    layout computes for blocks lie in the registered buffers and do not
    overlap. *)

From Stdlib Require Import ZArith Lia.
From stdpp Require Import base list gmap strings numbers sorting.
From S2P Require Import Prelude.
From S2P Require Import KVCacheLayout.
Local Open Scope Z_scope.

(** ** Sums and products *)

#[export] Instance list_sum_perm : Proper ((≡ₚ) ==> (=)) list_sum.
Proof. intros l1 l2. unfold list_sum. induction 1; simpl; lia. Qed.

#[export] Instance list_prod_perm : Proper ((≡ₚ) ==> (=)) list_prod.
Proof. intros l1 l2. unfold list_prod. induction 1; simpl; lia. Qed.

(** A permutation of the images of a list is the image of a permutation. *)
Lemma fmap_perm_inv {A B} (f : A → B) l k :
  f <$> l ≡ₚ k → ∃ l', l ≡ₚ l' ∧ f <$> l' = k.
Proof. intros Hp. destruct (Permutation_map_inv f l (symmetry Hp)) as (l' & -> & ?). by exists l'. Qed.

(** ** Mixed radix *)

(** A dimension: its stride and size; a digit is an index into it. *)
Definition digits_ok (l : list (Z * Z * Z)) : Prop := Forall (λ d, 0 ≤ d.2 < d.1.2) l.
Definition offset (l : list (Z * Z * Z)) : Z := list_sum ((λ d, d.1.1 * d.2) <$> l).
Definition extent (l : list (Z * Z)) : Z := list_prod l.*2.

Lemma offset_cons d l : offset (d :: l) = d.1.1 * d.2 + offset l.
Proof. done. Qed.

Lemma offset_perm l1 l2 : l1 ≡ₚ l2 → offset l1 = offset l2.
Proof. unfold offset. by intros ->. Qed.

(** In a dense packing from [e] the digits are those of a mixed-radix number. *)
Lemma radix_bound e l :
  0 < e → dense_from e l.*1 = true → digits_ok l →
  ∃ k, offset l = e * k ∧ 0 ≤ k < extent l.*1.
Proof.
  revert e. induction l as [|[[st n] i] l IH]; intros e He Hd Hok.
  { exists 0. unfold offset, extent. simpl. lia. }
  apply Forall_cons in Hok as [Hi Hok]. simpl in Hi. csimpl in Hd.
  apply andb_true_iff in Hd as [->%Z.eqb_eq Hd].
  destruct (IH (e * n)) as (k & Hk & Hkr); [nia|done|done|].
  exists (i + n * k). rewrite offset_cons, Hk. unfold extent in *. csimpl. split; [simpl; lia|]. nia.
Qed.

Lemma radix_unique e (l : list (Z * Z * (Z * Z))) :
  0 < e → dense_from e l.*1 = true →
  digits_ok ((λ d, (d.1, d.2.1)) <$> l) → digits_ok ((λ d, (d.1, d.2.2)) <$> l) →
  offset ((λ d, (d.1, d.2.1)) <$> l) = offset ((λ d, (d.1, d.2.2)) <$> l) →
  Forall (λ d, d.2.1 = d.2.2) l.
Proof.
  revert e. induction l as [|[[st n] [i j]] l IH]; intros e He Hd Hi Hj Heq; [constructor|].
  csimpl in *. apply Forall_cons in Hi as [Hi1 Hi], Hj as [Hj1 Hj]. simpl in Hi1, Hj1.
  apply andb_true_iff in Hd as [->%Z.eqb_eq Hd]. rewrite !offset_cons in Heq. simpl in Heq.
  assert (0 < e * n) as Hen by nia.
  assert (∀ f : Z * Z * (Z * Z) → Z * Z * Z, (∀ d, (f d).1 = d.1) → (f <$> l).*1 = l.*1) as Hfst.
  { intros f Hf. rewrite <- list_fmap_compose. apply list_fmap_ext. intros ? d _. apply Hf. }
  destruct (radix_bound (e * n) ((λ d, (d.1, d.2.1)) <$> l)) as (k1 & E1 & _); [done|by rewrite Hfst|done|].
  destruct (radix_bound (e * n) ((λ d, (d.1, d.2.2)) <$> l)) as (k2 & E2 & _); [done|by rewrite Hfst|done|].
  assert (i + n * k1 = j + n * k2) as Hdig by nia.
  assert (k1 = k2) as -> by nia. assert (i = j) as -> by lia.
  constructor; [done|]. apply (IH (e * n)); [done|done|done|done|congruence].
Qed.

Lemma radix_onto e l k :
  0 < e → dense_from e l = true → Forall (λ d, 0 < d.2) l → 0 ≤ k < extent l →
  ∃ l', l'.*1 = l ∧ digits_ok l' ∧ offset l' = e * k.
Proof.
  revert e k. induction l as [|[st n] l IH]; intros e k He Hd Hpos Hk.
  { unfold extent in Hk. simpl in Hk. exists []. unfold offset. simpl.
    split_and!; [done|constructor|lia]. }
  apply Forall_cons in Hpos as [Hn Hpos]. simpl in Hn, Hd.
  apply andb_true_iff in Hd as [->%Z.eqb_eq Hd]. unfold extent in Hk. csimpl in Hk.
  destruct (IH (e * n) (k / n)) as (l' & El & Hok & Hoff); [nia|done|done| |].
  { split; [apply Z.div_pos; lia|]. apply Z.div_lt_upper_bound; [lia|]. unfold extent. lia. }
  exists ((e, n, k mod n) :: l'). csimpl. split_and!; [by rewrite El| |].
  - constructor; [|done]. simpl. by apply Z.mod_pos_bound.
  - rewrite offset_cons, Hoff. simpl. pose proof (Z.div_mod k n). nia.
Qed.

(** ** Dense pages *)

(** An index into the inner dimensions of a tensor, and where its element is. *)
Definition inner_dims (t : tensor) : list (Z * Z) := zip (tail (strides t)) (tail (shape t)).
Definition valid_index (t : tensor) (idx : list Z) : Prop :=
  Forall2 (λ d i, 0 ≤ i < d.2) (inner_dims t) idx.
Definition element_offset (t : tensor) (idx : list Z) : Z := offset (zip (inner_dims t) idx).

(** Dimensions of size one have the digit 0 and do not matter. *)
Lemma offset_wide l :
  digits_ok l → offset (filter (λ d : Z * Z * Z, 1 < d.1.2) l) = offset l.
Proof.
  unfold digits_ok. induction 1 as [|[[st n] i] l Hi Hok IH]; [done|]. simpl in Hi.
  rewrite filter_cons. destruct (decide _); rewrite ?offset_cons, IH; simpl; [done|].
  simpl in *. assert (i = 0) as -> by lia. lia.
Qed.

Lemma extent_wide l : Forall (λ d, 0 < d.2) l → extent (filter (λ d : Z * Z, 1 < d.2) l) = extent l.
Proof.
  unfold extent, list_prod. induction 1 as [|[st n] l Hn Hok IH]; [done|]. simpl in Hn.
  rewrite filter_cons. destruct (decide _); csimpl; rewrite IH; [done|].
  simpl in *. assert (n = 1) as -> by lia. lia.
Qed.

Lemma packing_perm (t : tensor) : packing t ≡ₚ filter (λ d : Z * Z, 1 < d.2) (inner_dims t).
Proof. unfold packing, inner_dims. apply merge_sort_Permutation. Qed.

Lemma filter_wide_fmap {A B} (f : Z * Z * A → Z * Z * B) (l : list (Z * Z * A)) :
  (∀ d, (f d).1 = d.1) →
  filter (λ d : Z * Z * B, 1 < d.1.2) (f <$> l) = f <$> filter (λ d : Z * Z * A, 1 < d.1.2) l.
Proof.
  intros Hf. induction l as [|d l IH]; [done|]. csimpl. rewrite !filter_cons, Hf, IH.
  by destruct (decide _).
Qed.

(** Digits attached to the dimensions, permuted as the packing. *)
Lemma attach_packing {A} t (l : list (Z * Z * A)) :
  l.*1 = inner_dims t →
  ∃ l', l' ≡ₚ filter (λ d : Z * Z * A, 1 < d.1.2) l ∧ l'.*1 = packing t.
Proof.
  intros El. destruct (fmap_perm_inv (fst : Z * Z * A → Z * Z) (filter (λ d : Z * Z * A, 1 < d.1.2) l) (packing t))
    as (l' & Hp & Hl').
  - rewrite packing_perm, <- El. clear. induction l as [|d l IH]; [done|].
    rewrite !filter_cons. csimpl. rewrite filter_cons. destruct (decide _); csimpl; by rewrite IH.
  - by exists l'.
Qed.

Lemma zip_dims (t : tensor) (idx : list Z) : length idx = length (inner_dims t) → (zip (inner_dims t) idx).*1 = inner_dims t.
Proof. intros Hl. apply fst_zip. lia. Qed.

Lemma valid_digits (t : tensor) (idx : list Z) : valid_index t idx → digits_ok (zip (inner_dims t) idx).
Proof. unfold valid_index, digits_ok. induction 1; simpl; constructor; auto. Qed.

Lemma inner_extent (t : tensor) :
  length (strides t) = length (shape t) → extent (inner_dims t) = list_prod (tail (shape t)).
Proof.
  intros Hl. unfold extent, inner_dims. rewrite snd_zip; [done|].
  destruct (strides t), (shape t); simpl in *; lia.
Qed.

Lemma inner_positive (t : tensor) :
  Forall (λ n, 0 < n) (shape t) → Forall (λ d, 0 < d.2) (inner_dims t).
Proof.
  intros Hs. unfold inner_dims. assert (Forall (λ n, 0 < n) (tail (shape t))) as Ht by (by destruct Hs).
  clear Hs. revert Ht. generalize (tail (shape t)), (tail (strides t)). intros sh st Ht. revert st.
  induction Ht; intros [|? ?]; simpl; constructor; auto.
Qed.

(** Digits for the wide dimensions extend to all dimensions. *)
Lemma extend_digits dims (q : list (Z * Z * Z)) :
  q.*1 = filter (λ d : Z * Z, 1 < d.2) dims → Forall (λ d, 0 < d.2) dims → digits_ok q →
  ∃ full, full.*1 = dims ∧ digits_ok full ∧ offset full = offset q.
Proof.
  intros Eq Hpos. revert q Eq. induction Hpos as [|[st n] dims Hn Hpos IH]; intros q Eq Hok.
  { exists []. destruct q; [|done]. by split_and!; [|constructor|]. }
  simpl in Hn. rewrite filter_cons in Eq. simpl in Eq. destruct (decide (1 < n)) as [Hw|Hw].
  - destruct q as [|[[st' n'] i] q]; csimpl in Eq; simplify_eq.
    apply Forall_cons in Hok as [Hi Hok]. destruct (IH q) as (full & E & Hf & Ho); [done|done|].
    exists ((st, n, i) :: full). csimpl. rewrite E, !offset_cons, Ho.
    split_and!; [done|by constructor|done].
  - destruct (IH q) as (full & E & Hf & Ho); [done|done|].
    exists ((st, n, 0) :: full). csimpl. rewrite E, offset_cons, Ho.
    split_and!; [done|constructor; [simpl; lia|done]|simpl; lia].
Qed.

Lemma digits_ok_perm l1 l2 : l1 ≡ₚ l2 → digits_ok l1 → digits_ok l2.
Proof. unfold digits_ok. by intros ->. Qed.

Lemma digits_ok_wide l : digits_ok l → digits_ok (filter (λ d : Z * Z * Z, 1 < d.1.2) l).
Proof. unfold digits_ok. rewrite !Forall_forall. intros Hl d [_ Hd]%list_elem_of_filter. by apply Hl. Qed.

Lemma zip_digit_l {A} (dims : list A) (idx idx' : list Z) :
  length dims = length idx → length dims = length idx' →
  (λ d : A * (Z * Z), (d.1, d.2.1)) <$> zip dims (zip idx idx') = zip dims idx.
Proof.
  revert idx idx'. induction dims as [|d dims IH]; intros [|? ?] [|? ?]; csimpl; intros; try done.
  f_equal. apply IH; lia.
Qed.

Lemma zip_digit_r {A} (dims : list A) (idx idx' : list Z) :
  length dims = length idx → length dims = length idx' →
  (λ d : A * (Z * Z), (d.1, d.2.2)) <$> zip dims (zip idx idx') = zip dims idx'.
Proof.
  revert idx idx'. induction dims as [|d dims IH]; intros [|? ?] [|? ?]; csimpl; intros; try done.
  f_equal. apply IH; lia.
Qed.

Lemma zip_equal {A} (dims : list A) (idx idx' : list Z) :
  length dims = length idx → length dims = length idx' →
  Forall (λ d : A * (Z * Z), d.2.1 = d.2.2) (zip dims (zip idx idx')) → idx = idx'.
Proof.
  revert idx idx'. induction dims as [|d dims IH]; intros [|? ?] [|? ?]; simpl; intros L1 L2 Hf; try done.
  apply Forall_cons in Hf as [E Hf]. simpl in E. f_equal; [done|]. apply IH; [lia|lia|done].
Qed.

Section page.
Variable t : tensor.
Hypothesis Hlen : length (strides t) = length (shape t).
Hypothesis Hpos : Forall (λ n, 0 < n) (shape t).
Hypothesis Hdense : dense_from 1 (packing t) = true.

Lemma packing_extent : extent (packing t) = list_prod (tail (shape t)).
Proof.
  transitivity (extent (filter (λ d : Z * Z, 1 < d.2) (inner_dims t))).
  - unfold extent. by rewrite packing_perm.
  - rewrite extent_wide by (by apply inner_positive). by apply inner_extent.
Qed.

Lemma page_bound (idx : list Z) : valid_index t idx → 0 ≤ element_offset t idx < list_prod (tail (shape t)).
Proof.
  intros Hv. pose proof (valid_digits t idx Hv) as Hok.
  assert (length idx = length (inner_dims t)) as Hli by (symmetry; by eapply Forall2_length).
  destruct (attach_packing t (zip (inner_dims t) idx) (zip_dims t idx Hli)) as (l' & Hp & El).
  unfold element_offset. rewrite <- offset_wide, <- (offset_perm _ _ Hp) by done.
  destruct (radix_bound 1 l') as (k & -> & Hk); [lia|by rewrite El| |].
  - eapply digits_ok_perm; [symmetry; exact Hp|by apply digits_ok_wide].
  - rewrite El, packing_extent in Hk. lia.
Qed.

Lemma page_injective (idx idx' : list Z) :
  valid_index t idx → valid_index t idx' → element_offset t idx = element_offset t idx' → idx = idx'.
Proof.
  intros Hv Hv' Heq. set (l := zip (inner_dims t) (zip idx idx')).
  assert (length (inner_dims t) = length idx) as L1 by (by eapply Forall2_length).
  assert (length (inner_dims t) = length idx') as L2 by (by eapply Forall2_length).
  assert ((λ d : Z * Z * (Z * Z), (d.1, d.2.1)) <$> l = zip (inner_dims t) idx) as E1
    by (by apply zip_digit_l).
  assert ((λ d : Z * Z * (Z * Z), (d.1, d.2.2)) <$> l = zip (inner_dims t) idx') as E2
    by (by apply zip_digit_r).
  destruct (attach_packing t l) as (l' & Hp & El).
  { apply fst_zip. rewrite length_zip_with. lia. }
  assert (∀ f : Z * Z * (Z * Z) → Z * Z * Z, (∀ d, (f d).1 = d.1) →
    f <$> l' ≡ₚ filter (λ d : Z * Z * Z, 1 < d.1.2) (f <$> l)) as Hf.
  { intros f Hf. rewrite Hp. apply reflexive_eq. symmetry. by apply filter_wide_fmap. }
  assert (Forall (λ d : Z * Z * (Z * Z), d.2.1 = d.2.2) l') as Hl'.
  { apply (radix_unique 1); [lia|by rewrite El| | |].
    - eapply digits_ok_perm; [symmetry; by apply Hf|]. rewrite E1. by apply digits_ok_wide, valid_digits.
    - eapply digits_ok_perm; [symmetry; by apply Hf|]. rewrite E2. by apply digits_ok_wide, valid_digits.
    - transitivity (offset (zip (inner_dims t) idx)); [|transitivity (offset (zip (inner_dims t) idx')); [done|symmetry]].
      + rewrite <- (offset_wide (zip _ _)), <- E1 by (by apply valid_digits). by apply offset_perm, Hf.
      + rewrite <- (offset_wide (zip _ _)), <- E2 by (by apply valid_digits). by apply offset_perm, Hf. }
  apply (zip_equal (inner_dims t)); [done..|].
  apply Forall_forall. intros [[st n] [i j]] Hd. simpl. intros.
  destruct (decide (1 < n)) as [Hw|Hw].
  - rewrite Hp, Forall_forall in Hl'. apply (Hl' (st, n, (i, j))). by apply list_elem_of_filter.
  - pose proof (valid_digits _ _ Hv) as H1. pose proof (valid_digits _ _ Hv') as H2.
    unfold digits_ok in *. rewrite <- E1 in H1. rewrite <- E2 in H2. rewrite Forall_fmap, Forall_forall in *.
    specialize (H1 _ Hd). specialize (H2 _ Hd). simpl in *. lia.
Qed.

Lemma page_onto (k : Z) :
  0 ≤ k < list_prod (tail (shape t)) → ∃ idx, valid_index t idx ∧ element_offset t idx = k.
Proof.
  intros Hk. pose proof (inner_positive t Hpos) as Hip.
  destruct (radix_onto 1 (packing t) k) as (l' & El & Hok & Hoff); [lia|done| | |].
  - rewrite packing_perm. rewrite Forall_forall in *. intros d [_ Hd]%list_elem_of_filter. by apply Hip.
  - by rewrite packing_extent.
  - destruct (fmap_perm_inv (fst : Z * Z * Z → Z * Z) l' (filter (λ d : Z * Z, 1 < d.2) (inner_dims t))) as (q & Hq & Eq).
    { by rewrite El, packing_perm. }
    destruct (extend_digits (inner_dims t) q Eq Hip) as (full & Ef & Hf & Ho).
    { by eapply digits_ok_perm. }
    exists full.*2. unfold element_offset, valid_index. rewrite <- Ef, zip_fst_snd. split.
    + clear -Hf. unfold digits_ok in Hf. induction Hf; csimpl; constructor; auto.
    + rewrite Ho, <- (offset_perm _ _ Hq), Hoff. lia.
Qed.
End page.

(** C31 A tensor that passes the checks of [_tensor_infos] has dense pages: the
    elements of a block are at the offsets from 0 to its element count, each
    offset holding exactly one element, in whatever order the inner dimensions
    are laid out.  So a copy of [bytes_per_block] contiguous bytes moves the
    whole block and nothing else. *)
Theorem dense_page (t : tensor) (info : KVCacheTensorInfo) :
  length (strides t) = length (shape t) → Forall (λ n, 0 < n) (shape t) →
  handle_tensor t = Ok info →
  let elements := list_prod (tail (shape t)) in
  bytes_per_block info = elements * element_size t ∧
  (∀ idx, valid_index t idx → 0 ≤ element_offset t idx < elements) ∧
  (∀ idx idx', valid_index t idx → valid_index t idx' →
     element_offset t idx = element_offset t idx' → idx = idx') ∧
  (∀ k, 0 ≤ k < elements → ∃ idx, valid_index t idx ∧ element_offset t idx = k).
Proof.
  intros Hlen Hpos. unfold handle_tensor. destruct (dense_from 1 (packing t)) eqn:Hd; simpl; [|done].
  intros Hh. split_and!.
  - repeat (case_match; try done). by simplify_eq.
  - intros idx. by apply page_bound.
  - intros idx idx'. by apply page_injective.
  - intros k. by apply page_onto.
Qed.

(** A block-first tensor of 4 blocks, with heads before tokens in memory. *)
Definition sample_tensor : tensor := mkTensor [4; 16; 2; 8] [512; 8; 128; 1] 2 4096.

Lemma dense_page_witness :
  handle_tensor sample_tensor = Ok (mkTensorInfo 4096 512 3584 1024 4) ∧
  ∃ idx, valid_index sample_tensor idx ∧ element_offset sample_tensor idx = 137.
Proof.
  assert (handle_tensor sample_tensor = Ok (mkTensorInfo 4096 512 3584 1024 4)) as E by (vm_compute; done).
  split; [done|].
  assert (Forall (λ n, 0 < n) (shape sample_tensor)) as Hpos by (repeat constructor).
  destruct (dense_page sample_tensor _ eq_refl Hpos E) as (_ & _ & _ & H).
  apply H. vm_compute. done.
Defined.

(** ** Block addresses *)

(** What [_tensor_infos] guarantees of a tensor. *)
Definition info_ok (t : KVCacheTensorInfo) : Prop :=
  bytes_per_block t ≤ block_stride t ∧
  buffer_size t = (physical_blocks t - 1) * block_stride t + bytes_per_block t.

Lemma handle_tensor_ok t info : handle_tensor t = Ok info → info_ok info.
Proof.
  unfold handle_tensor. repeat (case_match; try done). intros [= <-].
  split; simpl; [by apply Z.ltb_ge|done].
Qed.

Lemma handle_components_ok l infos : handle_components l = Ok infos → Forall info_ok infos.
Proof.
  revert infos. induction l as [|[t|] l IH]; intros infos; simpl; [by intros [= <-]| |done].
  destruct (handle_tensor t) as [i|] eqn:E; simpl; [|done].
  destruct (handle_components l) as [r|] eqn:E'; simpl; [|done]. intros [= <-].
  constructor; [by eapply handle_tensor_ok|by apply IH].
Qed.

Lemma tensor_infos_ok layer infos : _tensor_infos layer = Ok infos → Forall info_ok infos.
Proof.
  unfold _tensor_infos. destruct layer as [t|l|]; [destruct (_ && _)| |done]; apply handle_components_ok.
Qed.

Lemma fill_rows_ok first caches rows rows' :
  fill_rows first caches rows = Ok rows' → Forall (Forall info_ok) rows → Forall (Forall info_ok) rows'.
Proof.
  revert rows. induction caches as [|[id layer] caches IH]; intros rows; simpl; [by intros [= ->]|].
  destruct (row_index rows _) as [i|]; simpl; [|done].
  destruct (_tensor_infos layer) as [infos|] eqn:E; simpl; [|done]. intros Hf Hr.
  apply (IH _ Hf). apply Forall_alter; [done|]. intros row _ Hrow.
  apply Forall_app. split; [done|by eapply tensor_infos_ok].
Qed.

Lemma collect_rows_ok caches rows : _collect_tensor_rows caches = Ok rows → Forall (Forall info_ok) rows.
Proof.
  unfold _collect_tensor_rows. destruct caches as [|[id layer] caches]; [done|].
  intros Hf. apply (fill_rows_ok _ _ _ _ Hf). apply Forall_replicate. constructor.
Qed.

Lemma map_outcome_Forall2 {A B} (f : A → outcome B) l r :
  map_outcome f l = Ok r → Forall2 (λ x y, f x = Ok y) l r.
Proof.
  revert r. induction l as [|x l IH]; intros r; simpl; [intros [= <-]; constructor|].
  destruct (f x) eqn:E; simpl; [|done]. destruct (map_outcome f l); simpl; [|done].
  intros [= <-]. constructor; auto.
Qed.

Lemma as_uint64_Ok l r : as_uint64 l = Ok r ↔ r = l ∧ Forall (λ x, 0 ≤ x < uint64_max) l.
Proof.
  revert r. induction l as [|x l IH]; intros r; simpl.
  { split; [intros [= <-]; by split|by intros [-> _]]. }
  rewrite Forall_cons. destruct (_ && _) eqn:E.
  - apply andb_true_iff in E as [?%Z.leb_le ?%Z.ltb_lt]. destruct (as_uint64 l) as [r'|] eqn:El; simpl.
    + destruct (proj1 (IH r') eq_refl) as [-> Hr]. split; [by intros [= <-]|]. by intros [-> _].
    + split; [done|]. intros (-> & _ & Hl). by specialize (proj2 (IH l) (conj eq_refl Hl)).
  - apply andb_false_iff in E as [?%Z.leb_gt|?%Z.ltb_ge]; (split; [done|lia]).
Qed.

(** An entry of an array of rows. *)
Definition entry {A} (rows : list (list A)) (r c : nat) : option A := rows !! r ≫= λ row, row !! c.

Lemma array_rows_entry f rows m r c t :
  array_rows f rows = Ok m → entry rows r c = Some t →
  ∃ z, entry m r c = Some z ∧ f t = Ok z ∧ 0 ≤ z < uint64_max.
Proof.
  unfold entry. intros Hm%map_outcome_Forall2 (row & Hrow & Hc)%bind_Some.
  destruct (Forall2_lookup_l _ _ _ _ _ Hm Hrow) as (row' & Hrow' & E). rewrite Hrow'. simpl.
  destruct (map_outcome f row) as [zs|] eqn:Ez; simpl in E; [|done].
  apply as_uint64_Ok in E as [-> Hz]. apply map_outcome_Forall2 in Ez.
  destruct (Forall2_lookup_l _ _ _ _ _ Ez Hc) as (z & Hzc & Ef). exists z.
  split_and!; [done|done|apply (Forall_lookup_1 _ _ _ _ Hz Hzc)..].
Qed.

Section addresses.
Variable cfg : LayoutConfig.

(** The rows of the arrays: all tensors in one row in direct mode. *)
Definition layout_rows (rows : list (list KVCacheTensorInfo)) : list (list KVCacheTensorInfo) :=
  if lc_use_layerwise cfg then rows else [concat rows].

Lemma init_build_rows caches rows l :
  _collect_tensor_rows caches = Ok rows → KVCacheLayout_init cfg caches = Ok l →
  build_rows cfg (layout_rows rows) = Ok l.
Proof.
  unfold KVCacheLayout_init, _build_layout, layout_rows. intros Hr. rewrite Hr. simpl.
  destruct (_ && _); [done|]. destruct (lc_use_layerwise cfg); simpl; [|done].
  destruct rows as [|[|t row] rows]; [done..|]. by case_bool_decide.
Qed.

Lemma layout_rows_Forall (P : KVCacheTensorInfo → Prop) rows r c t :
  Forall (Forall P) rows → entry (layout_rows rows) r c = Some t → P t.
Proof.
  intros HP (row & Hrow & Ht)%bind_Some. unfold layout_rows in Hrow.
  destruct (lc_use_layerwise cfg).
  - by apply (Forall_lookup_1 _ _ _ _ (Forall_lookup_1 _ _ _ _ HP Hrow) Ht).
  - destruct r; simplify_eq/=. apply Forall_concat in HP. by apply (Forall_lookup_1 _ _ _ _ HP Ht).
Qed.

(** The arithmetic of one tensor's segments. *)
Lemma segment_in_buffer t k id :
  info_ok t → num_blocks cfg ≤ physical_blocks t → _dcp_replicated_scale cfg t = Ok k →
  0 ≤ bytes_per_block t * k → 0 ≤ id < num_blocks cfg →
  0 ≤ id * (block_stride t * k) ∧
  id * (block_stride t * k) + bytes_per_block t * k ≤ buffer_size t ∧
  bytes_per_block t * k ≤ block_stride t * k.
Proof.
  intros [Hle Hbuf] Hnb Hk Hpos Hid. rewrite Hbuf. unfold _dcp_replicated_scale in Hk.
  destruct (_ || _) eqn:E1; [simplify_eq; nia|].
  apply orb_false_iff in E1 as [Hd%Z.leb_gt Hb%Z.eqb_neq].
  destruct (_ =? _) eqn:E2 in Hk; [|simplify_eq; nia]. apply Z.eqb_eq in E2.
  destruct (block_stride t =? _) eqn:E3; simplify_eq/=. apply Z.eqb_eq in E3. rewrite E3, E2.
  assert (0 ≤ bytes_per_block t) by nia. assert (0 ≤ bytes_per_block t * dcp_size cfg) by nia.
  assert ((id + 1) * (bytes_per_block t * dcp_size cfg) ≤ num_blocks cfg * (bytes_per_block t * dcp_size cfg))
    by nia. nia.
Qed.

Lemma segments_apart x y id id' : 0 ≤ x ≤ y → id ≠ id' → id * y + x ≤ id' * y ∨ id' * y + x ≤ id * y.
Proof. intros Hx Hne. destruct (Z_lt_le_dec id id'); [left|right]; nia. Qed.

Lemma block_addr_lookup l ids i id r c s p :
  Forall (λ id, 0 ≤ id < uint64_max) ids → ids !! i = Some id →
  entry (block_stride_lists l) r c = Some s → entry (base_ptrs l) r c = Some p →
  ∃ addrs m, extract_block_addrs l ids = Ok addrs ∧ addrs !! i = Some m ∧
    entry m r c = Some ((id * s + p) mod uint64_max).
Proof.
  intros Hids Hi (srow & Hs & Hsc)%bind_Some (prow & Hp & Hpc)%bind_Some.
  unfold extract_block_addrs. rewrite (proj2 (as_uint64_Ok ids ids)) by done. simpl.
  eexists _, _. split_and!; [done|by rewrite list_lookup_fmap, Hi|].
  unfold entry. rewrite lookup_zip_with, Hs, Hp. simpl.
  unfold row_addrs. by rewrite lookup_zip_with, Hsc, Hpc.
Qed.
End addresses.

(** The address computed for tensor [c] of row [r] of the [i]-th block. *)
Definition block_addr (addrs : list (list (list Z))) (i r c : nat) : option Z :=
  addrs !! i ≫= λ m, entry m r c.

Lemma layout_entry cfg rows l r c t :
  build_rows cfg rows = Ok l → entry rows r c = Some t →
  ∃ k, _dcp_replicated_scale cfg t = Ok k ∧
    entry (base_ptrs l) r c = Some (ptr t) ∧ 0 ≤ ptr t ∧
    entry (tensor_size_lists l) r c = Some (bytes_per_block t * k) ∧ 0 ≤ bytes_per_block t * k ∧
    entry (block_stride_lists l) r c = Some (block_stride t * k).
Proof.
  unfold build_rows. intros Hl Ht.
  destruct (array_rows (λ t, Ok (ptr t)) rows) as [P|] eqn:EP; simpl in Hl; [|done].
  destruct (array_rows (scaled cfg bytes_per_block) rows) as [S|] eqn:ES; simpl in Hl; [|done].
  destruct (array_rows (λ t, Ok (buffer_size t)) rows) as [B|] eqn:EB; simpl in Hl; [|done].
  destruct (array_rows (scaled cfg block_stride) rows) as [D|] eqn:ED; simpl in Hl; [|done].
  simplify_eq. simpl.
  destruct (array_rows_entry _ _ _ _ _ _ EP Ht) as (? & -> & [= <-] & ?).
  destruct (array_rows_entry _ _ _ _ _ _ ES Ht) as (? & -> & Hs & ?).
  destruct (array_rows_entry _ _ _ _ _ _ ED Ht) as (? & -> & Hd & ?).
  unfold scaled in *. destruct (_dcp_replicated_scale cfg t) as [k|]; simplify_eq/=.
  exists k. split_and!; (done || lia).
Qed.

(** C32 For every tensor and every valid block id, the segment of the tensor's
    copy size at the address the layout computes lies inside the tensor's
    registered buffer, the 64-bit arithmetic does not wrap around, and the
    segments of different blocks do not overlap, also when decode context
    parallelism makes a block span several physical rows. *)
Theorem block_segments (cfg : LayoutConfig) (caches : list (Z * kv_layer))
    (rows : list (list KVCacheTensorInfo)) (l : KVCacheLayout) (ids : list Z) :
  _collect_tensor_rows caches = Ok rows → KVCacheLayout_init cfg caches = Ok l →
  Forall (Forall (λ t, num_blocks cfg ≤ physical_blocks t ∧ ptr t + buffer_size t < uint64_max)) rows →
  num_blocks cfg ≤ uint64_max → Forall (λ id, 0 ≤ id < num_blocks cfg) ids →
  ∀ r c t i id, entry (layout_rows cfg rows) r c = Some t → ids !! i = Some id →
  ∃ addrs size a, extract_block_addrs l ids = Ok addrs ∧ entry (tensor_size_lists l) r c = Some size ∧
    block_addr addrs i r c = Some a ∧ ptr t ≤ a ∧ a + size ≤ ptr t + buffer_size t ∧
    ∀ j id' a', ids !! j = Some id' → id' ≠ id → block_addr addrs j r c = Some a' →
      a + size ≤ a' ∨ a' + size ≤ a.
Proof.
  intros Hrows Hinit Hfit Hnb Hids r c t i id Ht Hi.
  pose proof (layout_rows_Forall cfg _ _ _ _ _ (collect_rows_ok _ _ Hrows) Ht) as Hok.
  destruct (layout_rows_Forall cfg _ _ _ _ _ Hfit Ht) as [Hphys Htop].
  destruct (layout_entry _ _ _ _ _ _ (init_build_rows _ _ _ _ Hrows Hinit) Ht)
    as (k & Hk & Hp & Hpos & Hs & Hs0 & Hd).
  assert (∀ i id, ids !! i = Some id → ∃ addrs, extract_block_addrs l ids = Ok addrs ∧
    block_addr addrs i r c = Some (id * (block_stride t * k) + ptr t) ∧
    0 ≤ id * (block_stride t * k) ∧ id * (block_stride t * k) + bytes_per_block t * k ≤ buffer_size t ∧
    bytes_per_block t * k ≤ block_stride t * k) as Haddr.
  { clear i id Hi. intros i id Hi. pose proof (Forall_lookup_1 _ _ _ _ Hids Hi) as Hid. simpl in Hid.
    destruct (segment_in_buffer cfg t k id) as (H0 & H1 & H2); [done..|].
    assert (Forall (λ id, 0 ≤ id < uint64_max) ids) as Hids' by (eapply Forall_impl; [exact Hids|intros x Hx; cbn beta in *; lia]).
    destruct (block_addr_lookup l ids i id r c _ _ Hids' Hi Hd Hp) as (addrs & m & Ha & Hm & He).
    exists addrs. split_and!; try done. unfold block_addr. rewrite Hm. simpl. rewrite He.
    f_equal. apply Z.mod_small. lia. }
  destruct (Haddr i id Hi) as (addrs & Ha & Hai & H0 & H1 & H2).
  exists addrs, (bytes_per_block t * k), (id * (block_stride t * k) + ptr t).
  split_and!; [done..|lia|lia|]. intros j id' a' Hj Hne Haj.
  destruct (Haddr j id' Hj) as (addrs' & Ha' & Haj' & _). rewrite Ha in Ha'. simplify_eq.
  destruct (segments_apart (bytes_per_block t * k) (block_stride t * k) id id'); [lia|done| |]; lia.
Qed.

(** Two layers, the second an indexer cache replicated over two ranks. *)
Definition sample_config : LayoutConfig := mkLayoutConfig false 1 2 4 2 None.
Definition sample_caches : list (Z * kv_layer) :=
  [(0, KVTensor sample_tensor); (1, KVTuple [Some (mkTensor [8; 16] [16; 1] 2 16384)])].
Definition sample_rows : list (list KVCacheTensorInfo) :=
  [[mkTensorInfo 4096 512 3584 1024 4]; [mkTensorInfo 16384 32 256 32 8]].

Definition sample_layout : KVCacheLayout :=
  mkLayout [[4096; 16384]] [[512; 64]] [[3584; 256]] [[1024; 64]].

Lemma block_segments_witness :
  KVCacheLayout_init sample_config sample_caches = Ok sample_layout ∧
  ∃ a, extract_block_addrs sample_layout [3; 1] = Ok a ∧ block_addr a 0 0 1 = Some 16576 ∧
    16576 + 64 ≤ 16384 + 256.
Proof.
  assert (KVCacheLayout_init sample_config sample_caches = Ok sample_layout) as E by (vm_compute; done).
  split; [done|].
  assert (_collect_tensor_rows sample_caches = Ok sample_rows) as Er by (vm_compute; done).
  destruct (block_segments sample_config sample_caches sample_rows sample_layout [3; 1] Er E)
    with (r := 0%nat) (c := 1%nat) (i := 0%nat) (t := mkTensorInfo 16384 32 256 32 8) (id := 3)
    as (a & size & x & Ha & Hs & Hx & _ & Hle & _).
  - apply (bool_decide_unpack _). vm_compute. exact I.
  - apply (bool_decide_unpack _). vm_compute. exact I.
  - apply (bool_decide_unpack _). vm_compute. exact I.
  - reflexivity.
  - reflexivity.
  - exists a. split; [exact Ha|]. vm_compute in Ha. injection Ha as <-. vm_compute. done.
Defined.

(** A block id that is negative, as the ids of blocks the engine never
    allocated would be, is refused with an error instead of turned into an
    address; and the two orders in which the layerwise connector asks for
    addresses agree. *)
Theorem extract_block_addrs_orders (cfg : LayoutConfig) (l : KVCacheLayout) (ids : list Z) :
  lc_use_layerwise cfg = true →
  match extract_block_addrs l ids with
  | Ok addrs => Forall (λ id, 0 ≤ id < uint64_max) ids ∧
      ∃ addrs', extract_block_addrs_layer_first cfg l ids = Ok addrs' ∧
        ∀ i r c, (i < length ids)%nat → block_addr addrs i r c = block_addr addrs' r i c
  | Raise e => e = OverflowError ∧ extract_block_addrs_layer_first cfg l ids = Raise e ∧
      ∃ id, id ∈ ids ∧ ¬ (0 ≤ id < uint64_max)
  end.
Proof.
  intros Hlw. unfold extract_block_addrs, extract_block_addrs_layer_first. rewrite Hlw. simpl.
  destruct (as_uint64 ids) as [ids'|e] eqn:E; simpl.
  - apply as_uint64_Ok in E as [-> Hids]. split; [done|]. eexists; split; [done|].
    intros i r c Hi. apply lookup_lt_is_Some in Hi as [id Hid]. unfold block_addr, entry.
    rewrite list_lookup_fmap, Hid. simpl. rewrite !lookup_zip_with.
    destruct (block_stride_lists l !! r) as [srow|]; simpl; [|done].
    destruct (base_ptrs l !! r) as [prow|]; simpl; [|done]. by rewrite list_lookup_fmap, Hid.
  - clear Hlw. revert e E. induction ids as [|id ids IH]; intros e; simpl; [done|].
    destruct (_ && _) eqn:Eb.
    + destruct (as_uint64 ids) as [|e'] eqn:E'; simpl; [done|]. intros [= <-].
      destruct (IH e' eq_refl) as (-> & _ & x & Hx & Hn). split_and!; [done..|].
      exists x. split; [by constructor|done].
    + intros [= <-]. split_and!; [done..|]. exists id. split; [by constructor|].
      apply andb_false_iff in Eb as [?%Z.leb_gt|?%Z.ltb_ge]; lia.
Qed.
