(* ===== verification/FawaLayout.v ===== *)
(** * Pointer layout of a KV cache group

    Model of [KVCacheGroupLayout] and [select_transfer_views] in
    src/ucm/integration/vllm/hma_connector.py: how the tensors of one KV cache
    group become a flat list of views, and block ids with token offsets become
    addresses.

    Tensors and numpy's uint64 are as in KVCacheLayout.v; a cache carries the
    layer index that [extract_layer_index] of vLLM reads from its name.  An int64
    array combined with a uint64 array is a float64 array in numpy: such sums and
    products are rounded to 53 significant bits ([f64]). *)

From Stdlib Require Import ZArith Lia.
From stdpp Require Import base list gmap strings numbers sorting.
From S2P Require Import Prelude.
From S2P Require Import KVCacheLayout.
Local Open Scope Z_scope.

(** ** Integers as float64 *)

(** The float64 nearest to a non-negative integer, ties to even. *)
Definition f64 (x : Z) : Z :=
  if x <? 2 ^ 53 then x
  else
    let ulp := 2 ^ (Z.log2 x - 52) in
    let q := x / ulp in
    let r := x mod ulp in
    if (2 * r <? ulp) || ((2 * r =? ulp) && Z.even q) then q * ulp else (q + 1) * ulp.

(** ** Views *)

Record group_view := mkView {
  v_ptr : Z;
  v_stride : Z;          (* bytes from block to block *)
  v_token_stride : Z;    (* bytes from physical token to physical token *)
  v_token_size : Z;      (* bytes of a physical token *)
  v_block_size : Z;      (* physical tokens of a block *)
}.

Record GroupLayoutConfig := mkGroupLayoutConfig {
  gl_is_ascend : bool;
  expected_block_size : option Z;
  standardized_layout : bool;
  expected_tokens_per_state : Z;
  tokens_per_state_by_layer : option (gmap string Z);
  physical_layout_by_layer : gmap string (Z * Z);
  whole_page_sizes_by_layer : gmap string Z;
  rocm_indexer : string → bool;     (* a ROCm tensor of a layer named [..indexer.k_cache..] *)
  storage_of : tensor → Z;          (* the device and storage a tensor views *)
}.

Section views.
Variable cfg : GroupLayoutConfig.

Definition dim (t : tensor) : nat := length (shape t).
Definition size_at (t : tensor) (i : nat) : Z := default 0 (shape t !! i).
Definition stride_at (t : tensor) (i : nat) : Z := default 0 (strides t !! i).

(** [t[0]] raises on a tensor without blocks. *)
Definition first_block_ptr (t : tensor) : outcome Z :=
  if size_at t 0 =? 0 then Raise IndexError else Ok (data_ptr t).

(** The local [handle_tensor] of [_build_layout]; [size_dims] are always the
    dimensions after the first. *)
Definition group_handle_tensor (t : tensor) : outcome (list group_view) :=
  p ← first_block_ptr t;
  let tensor_size := list_prod (tail (shape t)) * element_size t in
  let tensor_block_size := size_at t 1 in
  if tensor_block_size =? 0 then Raise ZeroDivisionError
  else Ok [mkView p (stride_at t 0 * element_size t) (stride_at t 1 * element_size t)
             (tensor_size / tensor_block_size) tensor_block_size].

(** [tensor[:, i]] *)
Definition select1 (i : Z) (t : tensor) : tensor :=
  mkTensor (delete 1%nat (shape t)) (delete 1%nat (strides t)) (element_size t)
    (data_ptr t + i * stride_at t 1 * element_size t).

Definition _is_combined_kv_4d (t : tensor) : outcome bool :=
  let mismatch d := match expected_block_size cfg with
                    | Some b => negb (size_at t d =? b) | None => false end in
  if gl_is_ascend cfg then
    if mismatch 1%nat then Raise ValueError else Ok false
  else
    let combined := size_at t 1 =? 2 in
    if mismatch (if combined then 2%nat else 1%nat) then Raise ValueError else Ok combined.

(** The offset in the page, the token stride and the token size of each part of a
    page of the standardized layout. *)
Definition page_descriptors (t : tensor) (layer_name : string) (physical_states : Z) :
    outcome (list (Z * Z * Z)) :=
  match whole_page_sizes_by_layer cfg !! layer_name with
  | Some whole =>
      if physical_states =? 0 then Raise ZeroDivisionError
      else if negb (whole mod physical_states =? 0) then Raise ValueError
      else Ok [(0, 0, whole / physical_states)]
  | None =>
      match physical_layout_by_layer cfg !! layer_name with
      | None => Ok [(0, stride_at t 2 * element_size t, size_at t 3 * element_size t)]
      | Some (value_bytes, scale_bytes) =>
          if (value_bytes <=? 0) || (scale_bytes <=? 0) then Raise ValueError
          else if rocm_indexer cfg layer_name then Raise NotImplementedError
          else if negb (value_bytes + scale_bytes =? size_at t 3 * element_size t) then Raise ValueError
          else Ok [(0, value_bytes, value_bytes);
                   (physical_states * value_bytes, scale_bytes, scale_bytes)]
      end
  end.

(** The 4-D tensor of a standardized layout, [[B, 1, N, C]]. *)
Definition standardized_views (t : tensor) (layer_name : string) : outcome (list group_view) :=
  if negb (size_at t 1 =? 1) || negb (stride_at t 3 =? 1) || negb (stride_at t 2 =? size_at t 3)
  then Raise ValueError
  else
    let physical_states := size_at t 2 in
    tokens_per_state ←
      match tokens_per_state_by_layer cfg with
      | Some by_layer =>
          if bool_decide (by_layer = ∅) then Ok (expected_tokens_per_state cfg)
          else match by_layer !! layer_name with Some x => Ok x | None => Raise KeyError end
      | None => Ok (expected_tokens_per_state cfg)
      end;
    let block := default 0 (expected_block_size cfg) in
    if tokens_per_state <=? 0 then Raise ValueError
    else if negb (block mod tokens_per_state =? 0) then Raise ValueError
    else if negb (physical_states =? block / tokens_per_state) then Raise ValueError
    else
      let page_stride := stride_at t 0 * element_size t in
      descriptors ← page_descriptors t layer_name physical_states;
      if page_stride <? list_sum ((λ d : Z * Z * Z, d.2 * physical_states) <$> descriptors)
      then Raise ValueError
      else
        p ← first_block_ptr t;
        Ok ((λ d : Z * Z * Z, mkView (p + d.1.1) page_stride d.1.2 d.2 physical_states) <$> descriptors).

Definition handle_kv_layer_tensor (t : tensor) (layer_name : string) : outcome (list group_view) :=
  if gl_is_ascend cfg && negb (bool_decide (whole_page_sizes_by_layer cfg = ∅)) then
    match whole_page_sizes_by_layer cfg !! layer_name with
    | None => Raise KeyError
    | Some page_bytes =>
        if negb (bool_decide (dim t = 4%nat)) || negb (stride_at t 0 * element_size t =? page_bytes)
        then Raise ValueError
        else p ← first_block_ptr t; Ok [mkView p page_bytes 0 page_bytes 1]
    end
  else
    match dim t with
    | 5%nat =>
        if size_at t 0 <=? 0 then Raise IndexError
        else
          a ← group_handle_tensor (subtensor 0 t);
          if size_at t 0 <=? 1 then Raise IndexError
          else b ← group_handle_tensor (subtensor 1 t); Ok (a ++ b)
    | 4%nat =>
        if standardized_layout cfg then standardized_views t layer_name
        else
          combined ← _is_combined_kv_4d t;
          if combined : bool then
            a ← group_handle_tensor (select1 0 t);
            b ← group_handle_tensor (select1 1 t);
            Ok (a ++ b)
          else group_handle_tensor t
    | 3%nat => group_handle_tensor t
    | _ => Raise ValueError
    end.

(** Bytes of [t[0]]. *)
Definition page_bytes (t : tensor) : Z := list_prod (tail (shape t)) * element_size t.

(** Contiguity: the strides are the products of the sizes after them (a dimension
    of size one may have any stride). *)
Fixpoint contiguous_dims (dims strs : list Z) : bool :=
  match dims, strs with
  | d :: dims', s :: strs' => ((d =? 1) || (s =? list_prod dims')) && contiguous_dims dims' strs'
  | _, _ => true
  end.
Definition first_is_contiguous (t : tensor) : bool := contiguous_dims (tail (shape t)) (tail (strides t)).

Definition select_transfer_views (tensors : list tensor) : outcome (list tensor) :=
  match tensors with
  | [key; scale; full] =>
      if negb (bool_decide (dim key = 4%nat)) || negb (bool_decide (dim scale = 4%nat))
         || negb (bool_decide (dim full = 4%nat)) then Ok tensors
      else if negb (data_ptr key =? data_ptr full) then Ok tensors
      else if bool_decide (storage_of cfg key = storage_of cfg scale ∧ storage_of cfg scale = storage_of cfg full)
           && bool_decide (take 3 (shape key) = take 3 (shape scale) ∧ take 3 (shape scale) = take 3 (shape full))
           && forallb first_is_contiguous tensors
           && (stride_at key 0 * element_size key =? stride_at scale 0 * element_size scale)
           && (stride_at scale 0 * element_size scale =? stride_at full 0 * element_size full)
           && (page_bytes full <=? stride_at key 0 * element_size key)
           && (data_ptr scale =? data_ptr key + page_bytes key)
           && (page_bytes key + page_bytes scale =? page_bytes full)
      then Ok [full] else Raise ValueError
  | _ => Ok tensors
  end.

Fixpoint handle_views (ts : list tensor) (layer_name : string) : outcome (list group_view) :=
  match ts with
  | [] => Ok []
  | t :: rest =>
      a ← handle_kv_layer_tensor t layer_name;
      b ← handle_views rest layer_name;
      Ok (a ++ b)
  end.

(** The value of one layer in [kvcaches]. *)
Definition layer_views (layer_name : string) (layer : kv_layer) : outcome (list group_view) :=
  match layer with
  | KVTensor t => handle_kv_layer_tensor t layer_name
  | KVTuple components =>
      match mapM (M := option) id components with
      | None => Raise AttributeError
      | Some ts =>
          selected ← (if gl_is_ascend cfg then select_transfer_views ts else Ok ts);
          handle_views selected layer_name
      end
  | KVOther => Raise TypeError
  end.

(** [_sort_key]: the layer index, then the name. *)
Definition key_le (p q : Z * string * kv_layer) : Prop :=
  p.1.1 < q.1.1 ∨ p.1.1 = q.1.1 ∧ Is_true (String.leb p.1.2 q.1.2).

#[export] Instance key_le_dec p q : Decision (key_le p q).
Proof. unfold key_le. apply _. Defined.

Fixpoint build_views (caches : list (Z * string * kv_layer)) : outcome (list group_view) :=
  match caches with
  | [] => Ok []
  | (_, layer_name, layer) :: rest =>
      a ← layer_views layer_name layer;
      b ← build_views rest;
      Ok (a ++ b)
  end.

(** The five arrays of the layout, converted to uint64. *)
Definition uint64_views (views : list group_view) : outcome (list group_view) :=
  _ ← as_uint64 (v_ptr <$> views);
  _ ← as_uint64 (v_stride <$> views);
  _ ← as_uint64 (v_token_stride <$> views);
  _ ← as_uint64 (v_token_size <$> views);
  _ ← as_uint64 (v_block_size <$> views);
  Ok views.

Definition group_build_layout (caches : list (Z * string * kv_layer)) : outcome (list group_view) :=
  views ← build_views (merge_sort key_le caches);
  if bool_decide (views = []) then Raise ValueError else uint64_views views.

(** [KVCacheGroupLayout.__init__] *)
Definition KVCacheGroupLayout_init (caches : list (Z * string * kv_layer)) : outcome (list group_view) :=
  let block := default 0 (expected_block_size cfg) in
  if standardized_layout cfg && (block <=? 0) then Raise ValueError
  else if standardized_layout cfg && (expected_tokens_per_state cfg <=? 0) then Raise ValueError
  else if standardized_layout cfg && negb (block mod expected_tokens_per_state cfg =? 0) then Raise ValueError
  else if standardized_layout cfg &&
          match tokens_per_state_by_layer cfg with
          | Some by_layer => negb (bool_decide (dom by_layer =@{gset string} list_to_set caches.*1.*2))
          | None => false
          end
  then Raise ValueError
  else group_build_layout caches.

(** ** Addresses *)

(** [extract_addrs]: a row per block, an address per view. *)
Definition extract_addrs (views : list group_view) (block_ids : list Z) : list (list Z) :=
  (λ id, (λ v, ((id * v_stride v) mod uint64_max + v_ptr v) mod uint64_max) <$> views) <$> block_ids.

(** One address of [extract_addrs_with_offsets] when the offsets are uint64. *)
Definition offset_addr (tbs : Z) (v : group_view) (id offset : Z) : Z :=
  let physical := ((offset * v_block_size v) mod uint64_max) / tbs in
  (((id * v_stride v) mod uint64_max + (physical * v_token_stride v) mod uint64_max) mod uint64_max
   + v_ptr v) mod uint64_max.

(** The same when the offsets are int64: everything they meet is a float64. *)
Definition offset_addr_f64 (tbs : Z) (v : group_view) (id offset : Z) : Z :=
  let physical := f64 (f64 (offset * f64 (v_block_size v)) / tbs) in
  f64 (f64 (f64 ((id * v_stride v) mod uint64_max) + f64 (physical * f64 (v_token_stride v)))
       + f64 (v_ptr v)).

(** [a[:, None] op b[:, None]]: an array of length one is repeated. *)
Definition broadcast {A} (n : nat) (l : list A) : list A :=
  match l with [x] => replicate n x | _ => l end.

Definition extract_addrs_with_offsets (addr : Z → group_view → Z → Z → Z) (views : list group_view)
    (block_ids : list Z) (tbs : Z) (offsets : list Z) : outcome (list (list Z)) :=
  if negb (bool_decide (whole_page_sizes_by_layer cfg = ∅)) && negb (forallb (Z.eqb 0) offsets)
  then Raise ValueError
  else
    let ids := broadcast (length offsets) block_ids in
    let offs := broadcast (length block_ids) offsets in
    if negb (bool_decide (length ids = length offs)) then Raise ValueError
    else Ok (zip_with (λ id offset, (λ v, addr tbs v id offset) <$> views) ids offs).

Definition segment_tensor_size_list (views : list group_view) (logical_tokens tbs : Z) :
    outcome (list Z) :=
  if negb (bool_decide (whole_page_sizes_by_layer cfg = ∅)) && negb (logical_tokens =? tbs)
  then Raise ValueError
  else Ok ((λ v, (v_token_size v * ((v_block_size v * logical_tokens) mod uint64_max / tbs)) mod uint64_max)
           <$> views).

Definition tensor_block_size (views : list group_view) : outcome Z :=
  match views with
  | [] => Raise ValueError
  | v :: rest =>
      if forallb (λ v', v_block_size v' =? v_block_size v) rest then Ok (v_block_size v) else Raise ValueError
  end.
End views.

(** ** Addresses of hash blocks inside a group block *)

Lemma f64_exact x : x < 2 ^ 53 → f64 x = x.
Proof. intros Hx. unfold f64. by rewrite (proj2 (Z.ltb_lt _ _) Hx). Qed.

(** The tokens of a block follow one another without gap. *)
Definition dense_view (v : group_view) : Prop :=
  0 < v_block_size v ∧ 0 ≤ v_token_size v ∧ (v_block_size v = 1 ∨ v_token_stride v = v_token_size v).

Lemma list_prod_nonneg (l : list Z) : Forall (λ x, 0 ≤ x) l → 0 ≤ list_prod l.
Proof. induction 1; simpl; [lia|]. unfold list_prod in *. simpl. nia. Qed.

Lemma handle_tensor_dense t vs :
  0 ≤ element_size t → Forall (λ x, 0 ≤ x) (shape t) → length (strides t) = length (shape t) →
  first_is_contiguous t = true → group_handle_tensor t = Ok vs → Forall dense_view vs.
Proof.
  intros He Hpos Hlen Hc. unfold group_handle_tensor, first_block_ptr.
  destruct (size_at t 0 =? 0); [done|]. cbn [mbind outcome_bind].
  destruct (Z.eqb_spec (size_at t 1) 0) as [|Hb]; [done|]. intros [= <-]. constructor; [|done].
  revert Hpos Hlen Hc Hb. unfold first_is_contiguous, size_at, stride_at, dense_view.
  destruct (shape t) as [|n [|b rest]], (strides t) as [|s0 [|s1 strs]]; simpl; try done.
  intros [_ [Hb0 Hrest%list_prod_nonneg]%Forall_cons]%Forall_cons.
  unfold list_prod in *. simpl in *.
  intros _ [Hs _]%andb_true_iff Hb.
  replace (b * foldr Z.mul 1 rest * element_size t) with ((foldr Z.mul 1 rest * element_size t) * b) by ring.
  rewrite Z.div_mul by done. split_and!; [lia|nia|].
  apply orb_true_iff in Hs as [Hs%Z.eqb_eq|Hs%Z.eqb_eq]; [by left|right; by rewrite Hs].
Qed.

Lemma contiguous_tail_sub i (t : tensor) :
  first_is_contiguous t = true → first_is_contiguous (subtensor i t) = true.
Proof.
  unfold first_is_contiguous. simpl.
  destruct (tail (shape t)) as [|d ds], (tail (strides t)) as [|s ss]; simpl; try done;
    first [by intros [_ ?]%andb_true_iff|by destruct ds].
Qed.

Lemma contiguous_select1 i (t : tensor) :
  first_is_contiguous t = true → first_is_contiguous (select1 i t) = true.
Proof.
  unfold first_is_contiguous, select1. simpl.
  destruct (shape t) as [|n [|d ds]], (strides t) as [|s [|s' ss]]; simpl; try done;
    first [by intros [_ ?]%andb_true_iff|by destruct ds].
Qed.

Lemma standardized_dense cfg t name vs :
  whole_page_sizes_by_layer cfg = ∅ → 0 ≤ element_size t → Forall (λ x, 0 ≤ x) (shape t) →
  0 < default 0 (expected_block_size cfg) →
  standardized_views cfg t name = Ok vs → Forall dense_view vs.
Proof.
  intros Hw He Hpos Hb. unfold standardized_views.
  destruct (_ || negb (stride_at t 2 =? size_at t 3)) eqn:Hc; [done|].
  apply orb_false_iff in Hc as [_ Hs%negb_false_iff%Z.eqb_eq].
  destruct (match tokens_per_state_by_layer cfg with Some _ => _ | None => _ end) as [tps|]; [|done].
  cbn [mbind outcome_bind]. destruct (Z.leb_spec tps 0); [done|].
  destruct (Z.eqb_spec (default 0 (expected_block_size cfg) mod tps) 0) as [Hm|]; [|done].
  destruct (Z.eqb_spec (size_at t 2) (default 0 (expected_block_size cfg) / tps)) as [Hst|]; [|done].
  assert (0 < size_at t 2).
  { rewrite Hst. apply Z.mod_divide in Hm as [q Hq]; [|lia]. rewrite Hq, Z.div_mul by lia. nia. }
  assert (0 ≤ size_at t 3).
  { unfold size_at. destruct (shape t !! 3%nat) eqn:E; [|done]. by apply (Forall_lookup_1 _ _ _ _ Hpos E). }
  cbn [negb]. destruct (page_descriptors cfg t name (size_at t 2)) as [ds|] eqn:Hd; [|done].
  cbn [mbind outcome_bind]. destruct (_ <? _); [done|].
  destruct (first_block_ptr t) as [p|]; [|done]. intros [= <-]. apply Forall_fmap.
  revert Hd. unfold page_descriptors. rewrite Hw, lookup_empty.
  destruct (physical_layout_by_layer cfg !! name) as [[vb sb]|].
  - destruct (Z.leb_spec vb 0), (Z.leb_spec sb 0); try done. simpl.
    destruct (rocm_indexer cfg name); [done|].
    destruct (negb _); [done|]. intros [= <-].
    rewrite Forall_cons, Forall_singleton. unfold dense_view. simpl. lia.
  - intros [= <-]. apply Forall_singleton. unfold dense_view. simpl. rewrite Hs. split_and!; [done|nia|by right].
Qed.

(** The views of a contiguous tensor that are not whole pages are dense. *)
Lemma layer_tensor_dense cfg t name vs :
  whole_page_sizes_by_layer cfg = ∅ →
  0 ≤ element_size t → Forall (λ x, 0 ≤ x) (shape t) → length (strides t) = length (shape t) →
  first_is_contiguous t = true → handle_kv_layer_tensor cfg t name = Ok vs →
  (standardized_layout cfg = true → 0 < default 0 (expected_block_size cfg)) →
  Forall dense_view vs.
Proof.
  intros Hw He Hpos Hlen Hc. unfold handle_kv_layer_tensor.
  rewrite Hw, bool_decide_true, andb_false_r by done.
  assert (∀ i, Forall (λ x, 0 ≤ x) (shape (subtensor i t)) ∧
    length (strides (subtensor i t)) = length (shape (subtensor i t))) as Hsub.
  { intros i. simpl. destruct (shape t), (strides t); simpl in *; try done.
    apply Forall_cons in Hpos as [_ ?]. split; [done|lia]. }
  assert (∀ i, Forall (λ x, 0 ≤ x) (shape (select1 i t)) ∧
    length (strides (select1 i t)) = length (shape (select1 i t))) as Hsel.
  { intros i. simpl. split; [by apply Forall_delete|].
    destruct (shape t) as [|? [|? ?]], (strides t) as [|? [|? ?]]; simpl in *; lia. }
  unfold dim. destruct (length (shape t)) as [|[|[|[|[|[|]]]]]] eqn:Hd; try done.
  - intros Hv _. by eapply handle_tensor_dense; [..|exact Hv]; rewrite ?Hd.
  - destruct (standardized_layout cfg).
    + intros Hv Hb. by eapply standardized_dense; [..|exact Hv]; auto.
    + destruct (_is_combined_kv_4d cfg t) as [[]|]; [|..|done]; cbn [mbind outcome_bind].
      * intros Hv _. destruct (group_handle_tensor (select1 0 t)) as [a|] eqn:Ea; [|done].
        destruct (group_handle_tensor (select1 1 t)) as [b|] eqn:Eb; [|done].
        injection Hv as <-. destruct (Hsel 0), (Hsel 1).
        apply Forall_app.
        split; [apply (handle_tensor_dense (select1 0 t))|apply (handle_tensor_dense (select1 1 t))];
          try done; by apply contiguous_select1.
      * intros Hv _. by eapply handle_tensor_dense; [..|exact Hv]; rewrite ?Hd.
  - destruct (size_at t 0 <=? 0); [done|]. destruct (Hsub 0), (Hsub 1).
    destruct (group_handle_tensor (subtensor 0 t)) as [a|] eqn:Ea; [|done]. cbn [mbind outcome_bind].
    destruct (size_at t 0 <=? 1); [done|].
    destruct (group_handle_tensor (subtensor 1 t)) as [b|] eqn:Eb; [|done].
    intros [= <-] _. apply Forall_app.
    split; [apply (handle_tensor_dense (subtensor 0 t))|apply (handle_tensor_dense (subtensor 1 t))];
      try done; by apply contiguous_tail_sub.
Qed.

(** Hash blocks tile the blocks of a group.  When a group block of [tbs] tokens
    holds [n] hash blocks of [hbs] tokens, then in every view of a contiguous
    tensor the segment addressed for the hash block at position [pos], of the
    size the store is told, is the [pos mod n]-th of [n] equal, adjacent parts
    that make up the whole block; no byte is missed or shared.  The addresses,
    which numpy computes in float64, are exact as long as the block ends
    below [2 ^ 53]. *)
Theorem fa_subblocks_tile cfg t name vs v hbs n c id pos sizes :
  whole_page_sizes_by_layer cfg = ∅ →
  0 ≤ element_size t → Forall (λ x, 0 ≤ x) (shape t) → length (strides t) = length (shape t) →
  first_is_contiguous t = true → handle_kv_layer_tensor cfg t name = Ok vs →
  (standardized_layout cfg = true → 0 < default 0 (expected_block_size cfg)) →
  v ∈ vs → 0 < hbs → 0 < n → v_block_size v = n * c → 0 ≤ pos → 0 ≤ id →
  0 ≤ v_stride v → 0 ≤ v_ptr v →
  v_ptr v + id * v_stride v + v_block_size v * v_token_size v < 2 ^ 53 →
  n * hbs * v_block_size v < 2 ^ 53 →
  segment_tensor_size_list cfg [v] hbs (n * hbs) = Ok sizes →
  ∃ size, sizes = [size] ∧ n * size = v_block_size v * v_token_size v ∧
    extract_addrs_with_offsets cfg offset_addr_f64 [v] [id] (n * hbs) [pos * hbs mod (n * hbs)] =
      Ok [[v_ptr v + id * v_stride v + (pos mod n) * size]].
Proof.
  intros Hw He Hpos Hlen Hc Hv Hstd Hin Hhbs Hn Hblk Hp Hid Hs Hptr Hbound Hbound' Hsz.
  pose proof (layer_tensor_dense _ _ _ _ Hw He Hpos Hlen Hc Hv Hstd) as Hd.
  rewrite Forall_forall in Hd. destruct (Hd v Hin) as (Hb & Ht & Hdense). clear Hd.
  assert (0 < c) by nia.
  assert (v_block_size v < 2 ^ 53) by nia.
  assert (2 ^ 53 < uint64_max) as H64 by (unfold uint64_max; lia).
  assert (v_token_size v * c ≤ v_block_size v * v_token_size v) by nia.
  assert (0 ≤ id * v_stride v) by nia. assert (0 ≤ v_token_size v * c) by nia.
  assert (v_block_size v * v_token_size v < 2 ^ 53) by lia.
  exists (c * v_token_size v). split; [|split; [nia|]].
  - revert Hsz. unfold segment_tensor_size_list. rewrite Hw, bool_decide_true by done. simpl.
    intros [= <-]. f_equal.
    rewrite (Z.mod_small (v_block_size v * hbs)) by nia.
    rewrite Hblk. replace (n * c * hbs) with (c * (n * hbs)) by ring.
    rewrite Z.div_mul by nia. rewrite Z.mod_small by lia. ring.
  - unfold extract_addrs_with_offsets. rewrite Hw, bool_decide_true by done. simpl. do 3 f_equal.
    rewrite Zmult_mod_distr_r. unfold offset_addr_f64. rewrite Hblk in *.
    pose proof (Z.mod_pos_bound pos n Hn). set (j := pos mod n) in *.
    assert (j * hbs * (n * c) ≤ n * hbs * (n * c)) by (apply Z.mul_le_mono_nonneg_r; nia).
    assert (0 ≤ j * c ≤ n * c) by nia.
    assert (0 ≤ j * c * v_token_size v ≤ n * c * v_token_size v) by nia.
    rewrite (f64_exact (n * c)) by lia.
    rewrite (f64_exact (j * hbs * (n * c))) by lia.
    replace (j * hbs * (n * c)) with (j * c * (n * hbs)) by ring. rewrite Z.div_mul by nia.
    rewrite (f64_exact (j * c)) by lia.
    rewrite (Z.mod_small (id * v_stride v)) by lia.
    assert (f64 (j * c * f64 (v_token_stride v)) = j * c * v_token_size v) as ->.
    { destruct Hdense as [Hone| ->].
      - assert (j = 0) as -> by nia. by rewrite !Z.mul_0_l.
      - destruct (decide (j = 0)) as [->|]; [by rewrite !Z.mul_0_l|].
        rewrite (f64_exact (v_token_size v)) by nia. apply f64_exact. lia. }
    rewrite (f64_exact (id * v_stride v)), (f64_exact (v_ptr v)) by lia.
    rewrite (f64_exact (id * v_stride v + _)) by lia. rewrite f64_exact by lia. ring.
Qed.

(** The configuration of an Ascend device with eight tokens per physical block. *)
Definition ex_layout_config : GroupLayoutConfig :=
  mkGroupLayoutConfig true (Some 8) false 1 None ∅ ∅ (λ _, false) (λ _, 0).
