(* ===== verification/FawaScheduler.v ===== *)
(** * Scheduler side of the FAWA connector

    Model of the scheduler half of [UCMFAWAConnector]
    (src/ucm/integration/vllm/hma_connector.py), for models that mix
    full-attention (FA) and sliding-window (WA) KV cache groups.  The two kinds
    are kept in two stores: one FA row per hash block, and WA rows with the tail
    of the window at a block boundary.

    Groups are numbered as in vLLM; [group_metas] is a dictionary.  What numpy
    computes on index arrays is written on lists of integers. *)

From Stdlib Require Import ZArith Lia.
From stdpp Require Import base list gmap strings numbers fin_sets.
From S2P Require Import Prelude.
From S2P Require Import Store.
From S2P Require Import RankConsistency.
From S2P Require Import RequestHasher.
From S2P Require Import DirectScheduler.
Local Open Scope Z_scope.

(** ** KV cache groups *)

Record BlockGeometry := mkGeometry { logical : Z; physical : Z }.

#[export] Instance BlockGeometry_eq_dec : EqDecision BlockGeometry.
Proof. solve_decision. Defined.

(** A layer's cache spec: its block size and compression ratio. *)
Record LayerSpec := mkLayerSpec { sp_block_size : Z; sp_ratio : Z }.

Definition layer_geometry (block_size_is_logical : bool) (spec : LayerSpec) : outcome BlockGeometry :=
  let size := sp_block_size spec in
  let ratio := sp_ratio spec in
  if Z.min size ratio <=? 0 then Raise ValueError
  else if block_size_is_logical then
    if negb (size mod ratio =? 0) then Raise ValueError
    else Ok (mkGeometry size (size / ratio))
  else Ok (mkGeometry (size * ratio) size).

(** The keys of [layers_by_geometry]. *)
Fixpoint geometries (block_size_is_logical : bool) (specs : list LayerSpec) (acc : list BlockGeometry) :
    outcome (list BlockGeometry) :=
  match specs with
  | [] => Ok acc
  | spec :: rest =>
      g ← layer_geometry block_size_is_logical spec;
      geometries block_size_is_logical rest (if decide (g ∈ acc) then acc else acc ++ [g])
  end.

(** A spec of one layer, or one that wraps those of several. *)
Definition ascend_block_geometry (block_size_is_logical : bool) (spec : LayerSpec + list LayerSpec) :
    outcome BlockGeometry :=
  match spec with
  | inl spec => layer_geometry block_size_is_logical spec
  | inr nested =>
      gs ← geometries block_size_is_logical nested [];
      match gs with [g] => Ok g | _ => Raise ValueError end
  end.

Record KVCacheGroupMeta := mkGroupMeta {
  group_id : Z;
  token_block_size : Z;
  tail_blocks : Z;
  tail_tokens : Z;
}.

(** What [_init_group_metas] reads of a group. *)
Record GroupSpec := mkGroupSpec {
  gs_block_size : Z;               (* [kv_cache_spec.block_size] *)
  gs_window : option Z;            (* [sliding_window] of the first spec *)
  gs_is_swa_cache : bool;          (* the first layer name ends in [swa_cache] *)
  gs_compress_ratio : outcome Z;   (* [layer_compress_ratios] at the first layer's index *)
  gs_geometry : outcome BlockGeometry;
}.

Record LayoutFlags := mkLayoutFlags {
  is_ascend_layout : bool;
  is_ascend_v41_layout : bool;
  has_whole_pages : bool;          (* [whole_page_sizes] is not empty *)
  flags_hash_block_size : Z;
}.

(** [round_up(x, y)] *)
Definition round_up (x y : Z) : Z := ceil_div x y * y.

(** The tail a group stores: for FA a hash block, for WA what later tokens see of
    the window. *)
Definition group_tail_tokens (f : LayoutFlags) (g : GroupSpec) (block : Z) : outcome Z :=
  match gs_window g with
  | None =>
      if has_whole_pages f && negb (block =? flags_hash_block_size f) then Raise ValueError
      else Ok (flags_hash_block_size f)
  | Some window =>
      tail ← (if is_ascend_v41_layout f || gs_is_swa_cache g then Ok window
              else ratio ← gs_compress_ratio g; Ok (window - ratio));
      Ok (if is_ascend_v41_layout f then round_up tail block else tail)
  end.

(** The body of the loop over the groups, for a group that is not transient. *)
Definition group_meta (f : LayoutFlags) (id : Z) (g : GroupSpec) : outcome KVCacheGroupMeta :=
  block ← (if is_ascend_layout f && negb (is_ascend_v41_layout f)
           then geometry ← gs_geometry g; Ok (logical geometry) else Ok (gs_block_size g));
  tail ← group_tail_tokens f g block;
  if block =? 0 then Raise ZeroDivisionError
  else if is_ascend_v41_layout f && negb (flags_hash_block_size f mod block =? 0) then Raise ValueError
  else Ok (mkGroupMeta id block (Z.max (tail / block) 1) tail).

(** The classification of all groups: their metadata, the FA and the WA groups,
    and the largest block size. *)
Record group_classes := mkGroupClasses {
  gc_metas : gmap Z KVCacheGroupMeta;
  fa_group_ids : list Z;
  gc_window_group_ids : list Z;
  max_token_block_size : Z;
}.

Fixpoint classify_groups (f : LayoutFlags) (transient : gset Z) (id : Z) (groups : list GroupSpec)
    (acc : group_classes) : outcome group_classes :=
  match groups with
  | [] => Ok acc
  | g :: rest =>
      if decide (id ∈ transient) then
        classify_groups f transient (id + 1) rest
          (mkGroupClasses (<[id := mkGroupMeta id (gs_block_size g) 0 0]> (gc_metas acc))
             (fa_group_ids acc) (gc_window_group_ids acc) (max_token_block_size acc))
      else
        meta ← group_meta f id g;
        classify_groups f transient (id + 1) rest
          (mkGroupClasses (<[id := meta]> (gc_metas acc))
             (match gs_window g with None => fa_group_ids acc ++ [id] | Some _ => fa_group_ids acc end)
             (match gs_window g with None => gc_window_group_ids acc
              | Some _ => gc_window_group_ids acc ++ [id] end)
             (Z.max (max_token_block_size acc) (token_block_size meta)))
  end.

Definition init_groups (f : LayoutFlags) (transient : gset Z) (groups : list GroupSpec) :
    outcome group_classes :=
  c ← classify_groups f transient 0 groups (mkGroupClasses ∅ [] [] 0);
  if negb (max_token_block_size c =? 0)
     && negb (max_token_block_size c mod flags_hash_block_size f =? 0)
  then Raise ValueError else Ok c.

(** ** Data *)

Record FAWARequestMeta := mkFawaMeta {
  fr_ucm_block_ids : list bytes;
  fr_hbm_hit_block_num : Z;
  fr_total_hit_block_num : Z;
  fr_num_token_ids : Z;
  fr_vllm_block_ids : list (list Z);  (* a tuple, with a list per group *)
  fr_token_processed : Z;
}.

Record FAWARequestDispatchMeta := mkFawaDispatch {
  load_keys : list bytes;
  load_hash_start : Z;
  load_hash_end : Z;
  load_vllm_block_ids : list (list Z);
  dump_keys : list bytes;
  dump_hash_start : Z;
  dump_hash_end : Z;
  dump_vllm_block_ids : list (list Z);
  fd_load_async : bool;
}.

Record UCMFAWAConnectorMetadata := mkFawaMetadata {
  fawa_request_meta : list (req_id * FAWARequestDispatchMeta);
  fawa_preempted_req_ids : gset string;
}.

Record FawaConfig := mkFawaConfig {
  hash_block_size : Z;
  load_tokens_threshold : Z;
  fawa_persist_token_threshold : Z;
  fawa_use_request_async_load : bool;
  is_v41_layout : bool;
  prefix_replay_tokens : Z;
  window_group_ids : list Z;
  transient_group_ids : gset Z;
  group_metas : gmap Z KVCacheGroupMeta;
  wa_dump_block_wise : bool;
  fa_store : option store_id;
  wa_store : option store_id;
  fawa_request_block_hasher : Request → outcome (list bytes);
}.

Record FawaState := mkFawaState {
  fawa_requests_meta : gmap string FAWARequestMeta;
  fawa_pending_async : list (req_id * FAWARequestDispatchMeta);  (* [_pending_async_load_dispatches] *)
  fawa_async_ids : gset string;                                  (* [_async_load_req_ids] *)
}.

Definition FawaState_init : FawaState := mkFawaState ∅ [] ∅.

Section fawa.
Context {W : Type} `{StoreWorld W} `{PySetOrder}.
Variable cfg : FawaConfig.

Abbreviation state := (FawaState * (RankConsistencyManager * W))%type.
Abbreviation bs := (hash_block_size cfg).

Definition on_fawa (f : FawaState → FawaState) : M state unit := modify (λ s, (f s.1, s.2)).
Definition on_stores {A} (m : M (RankConsistencyManager * W) A) : M state A :=
  zoom snd (λ r s, (s.1, r)) m.

(** ** Matching a request *)

(** The stores, checked as the methods below check them. *)
Definition fawa_stores {S} : M S (store_id * option store_id) :=
  match fa_store cfg with
  | None => raise RuntimeError
  | Some fa =>
      if negb (bool_decide (window_group_ids cfg = [])) && bool_decide (wa_store cfg = None)
      then raise RuntimeError else mret (fa, wa_store cfg)
  end.

Definition _lookup_external_hit_blocks (external_keys : list bytes) : M (RankConsistencyManager * W) Z :=
  stores ← fawa_stores;
  r ← lookup_on_prefix stores.1 external_keys;
  let fa_hit_blocks := r + 1 in
  if fa_hit_blocks <=? 0 then mret 0
  else
    match window_group_ids cfg, stores.2 with
    | [], _ => mret fa_hit_blocks
    | _, None => raise RuntimeError
    | _, Some wa =>
        reverse_idx ← lookup_on_reverse wa (py_slice_to fa_hit_blocks external_keys);
        if reverse_idx <? 0 then mret 0 else mret (reverse_idx + 1)
    end.

(** A prefetch that is only a hint. *)
Definition try_prefetch (store : option store_id) (keys : list bytes) : M W unit :=
  match store with
  | None => mret tt
  | Some st =>
      if bool_decide (keys = []) then mret tt
      else try_except (store_prefetch st keys) (λ _, mret tt)
  end.

Definition _prefetch_hit_key_hotness (fa_hbm_hit_keys all_hit_keys : list bytes) :
    M (RankConsistencyManager * W) unit :=
  stores ← fawa_stores;
  on_world (try_prefetch (Some stores.1) fa_hbm_hit_keys) ;;
  on_world (try_prefetch stores.2 all_hit_keys).

(** What the match records: hits in HBM, hits in all, tokens reported, tokens
    counted as processed. *)
Record fawa_match := mkFawaMatch {
  fm_hbm : Z;
  fm_total : Z;
  fm_external_tokens : Z;
  fm_processed : Z;
}.

(** The arithmetic after the lookup. *)
Definition fawa_account (request : Request) (num_computed_tokens wa_hbm external_hit_blocks : Z) :
    fawa_match :=
  let wa_computed := wa_hbm * bs in
  let total := wa_hbm + external_hit_blocks in
  let '(wa_hbm, ext, total, wa_computed) :=
    if negb (prefix_replay_tokens cfg =? 0) && (total * bs <=? prefix_replay_tokens cfg)
    then (0, 0, 0, 0) else (wa_hbm, external_hit_blocks, total, wa_computed) in
  let num_total := ext * bs + wa_computed in
  let ext_tokens := Z.max 0 (num_total - num_computed_tokens) in
  let ext_tokens :=
    if negb (is_v41_layout cfg) && (num_total =? num_tokens request)
    then Z.max 0 (ext_tokens - 1) else ext_tokens in
  if ext * bs <=? load_tokens_threshold cfg
  then mkFawaMatch (wa_hbm + ext) total 0 num_computed_tokens
  else mkFawaMatch wa_hbm total ext_tokens num_total.

Definition fawa_get_num_new_matched_tokens (request : Request) (num_computed_tokens : Z) :
    M state (Z * bool) :=
  let id := request_id request in
  on_fawa (λ s, mkFawaState (fawa_requests_meta s) (od_del id (fawa_pending_async s))
                  (fawa_async_ids s ∖ {[id]})) ;;
  let wa_hbm := num_computed_tokens / bs in
  let wa_computed := wa_hbm * bs in
  if num_tokens request <=? fawa_persist_token_threshold cfg then mret (0, false)
  else
    let skip_external_load := num_tokens request <=? wa_computed + load_tokens_threshold cfg in
    if skip_external_load && (wa_hbm <=? 0) then mret (0, false)
    else
      match fawa_request_block_hasher cfg request with
      | Raise _ => mret (0, false)
      | Ok hashes =>
          let hbm_keys := py_slice_to wa_hbm hashes in
          if skip_external_load then
            on_stores (_prefetch_hit_key_hotness hbm_keys hbm_keys) ;; mret (0, false)
          else
            let eligible := if is_v41_layout cfg then (num_tokens request - 1) / bs else zlen hashes in
            let external_keys := py_slice wa_hbm eligible hashes in
            if bool_decide (external_keys = []) then
              on_stores (_prefetch_hit_key_hotness hbm_keys hbm_keys) ;; mret (0, false)
            else
              ext ← on_stores (try_except (_lookup_external_hit_blocks external_keys) (λ _, mret 0));
              let m := fawa_account request num_computed_tokens wa_hbm ext in
              on_stores (_prefetch_hit_key_hotness hbm_keys (py_slice_to (fm_total m) hashes)) ;;
              on_fawa (λ s, mkFawaState
                (<[id := mkFawaMeta hashes (fm_hbm m) (fm_total m) (num_tokens request) []
                           (fm_processed m)]> (fawa_requests_meta s))
                (fawa_pending_async s) (fawa_async_ids s)) ;;
              mret (fm_external_tokens m,
                    fawa_use_request_async_load cfg && (0 <? fm_external_tokens m))
      end.

(** ** Planning *)

(** [np.arange(a, b)] *)
Definition arange (a b : Z) : list Z := (λ i : nat, a + Z.of_nat i) <$> seq 0 (Z.to_nat (b - a)).

(** [np.array(l)[indices].tolist()] for indices that are not negative. *)
Fixpoint take_indices (l : list Z) (indices : list Z) : outcome (list Z) :=
  match indices with
  | [] => Ok []
  | i :: rest =>
      match l !! Z.to_nat i with
      | None => Raise IndexError
      | Some x => r ← take_indices l rest; Ok (x :: r)
      end
  end.

(** [boundaries] are the last tokens of hash blocks. *)
Definition _slice_group_block_ids (gid : Z) (group_block_ids boundaries : list Z)
    (fetch_wa_block_wise : bool) : outcome (list Z) :=
  if decide (gid ∈ transient_group_ids cfg) then Ok []
  else
    match group_metas cfg !! gid with
    | None => Raise KeyError
    | Some g =>
        if decide (gid ∈ window_group_ids cfg) then
          if tail_tokens g =? 0 then Ok []
          else if fetch_wa_block_wise then
            let indices :=
              boundary ← boundaries;
              (λ o, boundary / token_block_size g - o) <$> reverse (arange 0 (tail_blocks g)) in
            if zlen group_block_ids <=? foldr Z.max (-1) indices then Raise RuntimeError
            else take_indices group_block_ids (Z.max 0 <$> indices)
          else
            match last boundaries with
            | None => Raise IndexError
            | Some boundary =>
                let boundary_block_idx := boundary / token_block_size g + 1 in
                if zlen group_block_ids <? boundary_block_idx then Raise RuntimeError
                else take_indices group_block_ids
                       (Z.max 0 <$> arange (boundary_block_idx - tail_blocks g) boundary_block_idx)
            end
        else take_indices group_block_ids ((λ b, b / token_block_size g) <$> boundaries)
    end.

(** The last tokens of the hash blocks from [first] up to [last]. *)
Definition window_boundary_token_idx (first last : Z) : list Z :=
  (λ k, k * bs - 1) <$> arange (first + 1) (last + 1).

Fixpoint slice_groups (gid : Z) (groups : list (list Z)) (boundaries : list Z)
    (fetch_wa_block_wise : bool) : outcome (list (list Z)) :=
  match groups with
  | [] => Ok []
  | ids :: rest =>
      x ← _slice_group_block_ids gid ids boundaries fetch_wa_block_wise;
      r ← slice_groups (gid + 1) rest boundaries fetch_wa_block_wise;
      Ok (x :: r)
  end.

Definition empty_groups : list (list Z) := replicate (size (group_metas cfg)) [].

(** Runs on the request's metadata, which it changes. *)
Definition fawa_generate_dispatch_meta (new_tokens : Z) (new_vllm_block_ids : list (list Z))
    (need_load : bool) (computed_tokens : option Z) : M FAWARequestMeta FAWARequestDispatchMeta :=
  modify (λ m, mkFawaMeta (fr_ucm_block_ids m) (fr_hbm_hit_block_num m) (fr_total_hit_block_num m)
    (fr_num_token_ids m) (match fr_vllm_block_ids m with [] => empty_groups | gs => gs end)
    (fr_token_processed m)) ;;
  m ← get_state;
  if negb (bool_decide (length new_vllm_block_ids = length (fr_vllm_block_ids m))) then raise RuntimeError
  else
    let groups := zip_with (λ l r, l ++ r) (fr_vllm_block_ids m) new_vllm_block_ids in
    modify (λ m, mkFawaMeta (fr_ucm_block_ids m) (fr_hbm_hit_block_num m) (fr_total_hit_block_num m)
      (fr_num_token_ids m) groups (fr_token_processed m)) ;;
    let load_start := fr_hbm_hit_block_num m in
    let load_end := fr_total_hit_block_num m in
    load ← (if need_load && (load_start <? load_end) then
              ids ← lift_outcome (slice_groups 0 groups (window_boundary_token_idx load_start load_end) false);
              mret (py_slice load_start load_end (fr_ucm_block_ids m), load_start, load_end, ids)
            else mret ([], 0, 0, []));
    let '(lkeys, lstart, lend, lids) := load in
    let computed_start := default (fr_token_processed m) computed_tokens in
    let computed_end := Z.min (fr_num_token_ids m) (computed_start + new_tokens) in
    let dump_start := Z.max (fr_total_hit_block_num m) (computed_start / bs) in
    let dump_end := computed_end / bs in
    dump ← (if dump_start <? dump_end then
              ids ← lift_outcome (slice_groups 0 groups (window_boundary_token_idx dump_start dump_end)
                                    (wa_dump_block_wise cfg));
              mret (py_slice dump_start dump_end (fr_ucm_block_ids m), ids)
            else mret ([], []));
    modify (λ m, mkFawaMeta (fr_ucm_block_ids m) (fr_hbm_hit_block_num m) (fr_total_hit_block_num m)
      (fr_num_token_ids m) (fr_vllm_block_ids m) computed_end) ;;
    mret (mkFawaDispatch lkeys lstart lend lids dump.1 dump_start dump_end dump.2 false).

(** [m] on the metadata of a request. *)
Definition on_request_meta {A} (id : req_id) (meta : FAWARequestMeta) (m : M FAWARequestMeta A) :
    M FawaState A := λ s,
  let '(meta', r) := m meta in
  (mkFawaState (<[id := meta']> (fawa_requests_meta s)) (fawa_pending_async s) (fawa_async_ids s), r).

Definition set_fawa_blocks (groups : list (list Z)) (m : FAWARequestMeta) : FAWARequestMeta :=
  mkFawaMeta (fr_ucm_block_ids m) (fr_hbm_hit_block_num m) (fr_total_hit_block_num m)
    (fr_num_token_ids m) groups (fr_token_processed m).

(** [block_ids] is [blocks.get_block_ids()]. *)
Definition fawa_update_state_after_alloc (request : Request) (block_ids : list (list Z))
    (num_external_tokens : Z) : M FawaState unit :=
  if negb (fawa_use_request_async_load cfg) || (num_external_tokens <=? 0) then mret tt
  else
    let id := request_id request in
    s ← get_state;
    match fawa_requests_meta s !! id with
    | None => mret tt
    | Some meta =>
        if negb (bool_decide (length block_ids = size (group_metas cfg))) then raise RuntimeError
        else
          d ← on_request_meta id (set_fawa_blocks block_ids meta)
                (fawa_generate_dispatch_meta 0 ((λ _, []) <$> block_ids) true None);
          modify (λ s, mkFawaState (fawa_requests_meta s)
            (od_set id (mkFawaDispatch (load_keys d) (load_hash_start d) (load_hash_end d)
                          (load_vllm_block_ids d) (dump_keys d) (dump_hash_start d) (dump_hash_end d)
                          (dump_vllm_block_ids d) true) (fawa_pending_async s))
            ({[id]} ∪ fawa_async_ids s))
    end.

(** What a step reads of the scheduler's output. *)
Record FawaNewRequest := mkFawaNew { fn_req_id : req_id; fn_block_ids : list (list Z); fn_computed : Z }.

Record FawaOutput := mkFawaOutput {
  fo_new_reqs : list FawaNewRequest;
  fo_cached_ids : list req_id;
  fo_new_block_ids : list (option (list (list Z)));
  fo_resumed : resumed_info;
  fo_cached_computed : list Z;
  fo_num_scheduled_tokens : gmap string Z;
  fo_finished_req_ids : gset string;
  fo_preempted_req_ids : option (gset string);
}.

Abbreviation fdispatches := (list (req_id * FAWARequestDispatchMeta)) (only parsing).

Fixpoint fawa_dispatch_new (tokens : gmap string Z) (reqs : list FawaNewRequest) (acc : fdispatches) :
    M FawaState fdispatches :=
  match reqs with
  | [] => mret acc
  | request :: rest =>
      let id := fn_req_id request in
      s ← get_state;
      acc' ← (match fawa_requests_meta s !! id with
              | None => mret acc
              | Some meta =>
                  modify (λ s, mkFawaState (<[id := set_fawa_blocks empty_groups meta]> (fawa_requests_meta s))
                    (fawa_pending_async s) (fawa_async_ids s)) ;;
                  new_tokens ← py_key tokens id;
                  d ← on_request_meta id (set_fawa_blocks empty_groups meta)
                        (fawa_generate_dispatch_meta new_tokens (fn_block_ids request)
                           (negb (bool_decide (id ∈ fawa_async_ids s)))
                           (if prefix_replay_tokens cfg =? 0 then None else Some (fn_computed request)));
                  mret (od_set id d acc)
              end);
      fawa_dispatch_new tokens rest acc'
  end.

Definition fawa_is_resumed (resumed : resumed_info) (i : nat) (id : req_id) : M FawaState bool :=
  match resumed with
  | resumed_from_preemption flags => py_index flags i
  | resumed_req_ids ids => mret (bool_decide (id ∈ ids))
  end.

Fixpoint fawa_dispatch_cached (out : FawaOutput) (i : nat) (ids : list req_id) (acc : fdispatches) :
    M FawaState fdispatches :=
  match ids with
  | [] => mret acc
  | id :: rest =>
      s ← get_state;
      acc' ← (match fawa_requests_meta s !! id with
              | None => mret acc
              | Some meta =>
                  o ← py_index (fo_new_block_ids out) i;
                  let new_block_ids := default empty_groups o in
                  resumed ← fawa_is_resumed (fo_resumed out) i id;
                  let meta' := if resumed : bool then set_fawa_blocks empty_groups meta else meta in
                  modify (λ s, mkFawaState (<[id := meta']> (fawa_requests_meta s))
                    (fawa_pending_async s) (fawa_async_ids s)) ;;
                  new_tokens ← py_key (fo_num_scheduled_tokens out) id;
                  computed ← (if prefix_replay_tokens cfg =? 0 then mret None
                              else c ← py_index (fo_cached_computed out) i; mret (Some c));
                  d ← on_request_meta id meta'
                        (fawa_generate_dispatch_meta new_tokens new_block_ids
                           (resumed && negb (bool_decide (id ∈ fawa_async_ids s))) computed);
                  mret (od_set id d acc)
              end);
      fawa_dispatch_cached out (S i) rest acc'
  end.

Definition fawa_forget (s : FawaState) (id : req_id) : FawaState :=
  mkFawaState (delete id (fawa_requests_meta s)) (od_del id (fawa_pending_async s))
    (fawa_async_ids s ∖ {[id]}).

Definition fawa_build_connector_meta (out : FawaOutput) : M FawaState UCMFAWAConnectorMetadata :=
  acc ← fawa_dispatch_new (fo_num_scheduled_tokens out) (fo_new_reqs out) [];
  acc ← fawa_dispatch_cached out 0 (fo_cached_ids out) acc;
  modify (λ s, foldl fawa_forget s (set_iter (fo_finished_req_ids out))) ;;
  s ← get_state;
  modify (λ s, mkFawaState (fawa_requests_meta s) [] (fawa_async_ids s)) ;;
  mret (mkFawaMetadata (od_update acc (fawa_pending_async s)) (default ∅ (fo_preempted_req_ids out))).
End fawa.
