(* ===== verification/FawaFacts.v ===== *)
(** * The FAWA connector's scheduler: correctness

    What a match of the FAWA connector (FawaScheduler.v) offers the engine, which
    hash blocks its plans dump over the life of a request, and which KV blocks
    the rows of a plan name. *)

From Stdlib Require Import ZArith Lia.
From stdpp Require Import base list gmap strings numbers fin_sets.
From S2P Require Import Prelude.
From S2P Require Import Store.
From S2P Require Import RankConsistency.
From S2P Require Import RequestHasher.
From S2P Require Import DirectScheduler.
From S2P Require Import FawaScheduler.
Local Open Scope Z_scope.

(** ** Matching *)

Section matching.
Context {W : Type} `{StoreSpec W} `{PySetOrder}.
Variable cfg : FawaConfig.
Variable fa : store_id.
Hypothesis Hfa : fa_store cfg = Some fa.
Hypothesis Hwa : window_group_ids cfg = [] ∨ is_Some (wa_store cfg).
Implicit Types (m : RankConsistencyManager) (w : W) (keys : list bytes).

Abbreviation bs := (hash_block_size cfg).

(** The model can resume after the first [n] blocks of [keys]: their FA rows are
    all usable, and so is the WA row at the boundary where they end. *)
Definition reusable w m keys (n : Z) : Prop :=
  0 ≤ n ≤ zlen keys ∧
  (∀ (i : nat) k, keys !! i = Some k → Z.of_nat i < n → usable w fa m k = true) ∧
  (0 < n → window_group_ids cfg ≠ [] → ∃ wa k, wa_store cfg = Some wa ∧
     keys !! Z.to_nat (n - 1) = Some k ∧ usable w wa m k = true).

Definition longest_reusable w m keys (n : Z) : Prop :=
  reusable w m keys n ∧ ∀ n', reusable w m keys n' → n' ≤ n.

Lemma reusable_prefix w m keys n :
  reusable w m keys n → n ≤ Z.of_nat (prefix_count (usable w fa m) keys).
Proof.
  intros (Hn & Hall & _). destruct (decide (n ≤ Z.of_nat (prefix_count (usable w fa m) keys))); [done|].
  destruct (lookup_lt_is_Some_2 keys (prefix_count (usable w fa m) keys)) as [k Hk];
    [unfold zlen in Hn; lia|].
  pose proof (prefix_count_stop _ _ _ Hk) as Hf. rewrite (Hall _ _ Hk) in Hf by lia. done.
Qed.

Lemma prefix_reusable w m keys :
  window_group_ids cfg = [] →
  longest_reusable w m keys (Z.of_nat (prefix_count (usable w fa m) keys)).
Proof.
  intros Hno. split; [|apply reusable_prefix].
  pose proof (prefix_count_le (usable w fa m) keys). split_and!; [lia|unfold zlen; lia| |done].
  intros i k Hk Hi. apply (prefix_count_spec _ keys i); [done|lia].
Qed.

Lemma boundary_reusable w m keys wa :
  window_group_ids cfg ≠ [] → wa_store cfg = Some wa →
  longest_reusable w m keys
    (last_index (usable w wa m) (take (prefix_count (usable w fa m) keys) keys) + 1).
Proof.
  intros Hwin Hs. set (p := prefix_count (usable w fa m) keys).
  pose proof (prefix_count_le (usable w fa m) keys) as Hp. fold p in Hp.
  pose proof (last_index_range (usable w wa m) (take p keys)) as Hr.
  unfold zlen in Hr. rewrite length_take in Hr. split.
  - split_and!; [lia|unfold zlen; lia| |].
    + intros i k Hk Hi. apply (prefix_count_spec _ keys i); [done|]. fold p. lia.
    + intros Hpos _. exists wa.
      destruct (last_index_Some (usable w wa m) (take p keys)
        (Z.to_nat (last_index (usable w wa m) (take p keys)))) as (k & Hk & Hu); [lia|].
      exists k. apply lookup_take_Some in Hk as [Hk _]. split_and!; [done| |done].
      rewrite <- Hk. f_equal. lia.
  - intros n' Hn'. pose proof (reusable_prefix _ _ _ _ Hn') as Hle. fold p in Hle.
    destruct Hn' as (Hb & _ & Hwb). destruct (decide (0 < n')) as [Hpos|]; [|lia].
    destruct (Hwb Hpos Hwin) as (wa' & k & Hs' & Hk & Hu). assert (wa' = wa) as -> by congruence.
    destruct (decide (n' ≤ last_index (usable w wa m) (take p keys) + 1)); [done|].
    rewrite (last_index_take_max (usable w wa m) keys p _ k Hk) in Hu; [done|lia|lia].
Qed.

Lemma fawa_stores_ok {S} (s : S) : fawa_stores cfg s = (s, Ok (fa, wa_store cfg)).
Proof.
  unfold fawa_stores. rewrite Hfa. destruct Hwa as [->|[wa ->]]; [done|].
  by rewrite andb_false_r.
Qed.

(** A lookup that returns found the longest reusable prefix. *)
Lemma lookup_external_hit_blocks_ok keys m w s' n :
  _lookup_external_hit_blocks cfg keys (m, w) = (s', Ok n) →
  s'.1 = m ∧ present s'.2 = present w ∧ longest_reusable w m keys n.
Proof.
  unfold _lookup_external_hit_blocks. erewrite bind_ok; [|apply fawa_stores_ok]. cbn [fst snd].
  unfold mbind, M_bind at 1. destruct (lookup_on_prefix fa keys (m, w)) as [s1 r] eqn:Hq.
  apply lookup_on_prefix_spec in Hq as (Hm & Hp & _ & [->|(e & ks & -> & _)]); [|done].
  rewrite Z.sub_add. set (p := prefix_count (usable w fa m) keys).
  destruct s1 as [m1 w1]. simpl in Hm, Hp. subst m1.
  destruct (window_group_ids cfg) as [|g gs] eqn:Hg.
  - pose proof (prefix_reusable w m keys Hg) as Hpre. fold p in Hpre.
    destruct (Z.leb_spec (Z.of_nat p) 0); intros [= <- <-]; [|done].
    by replace 0 with (Z.of_nat p) by lia.
  - destruct Hwa as [?|[wa Hs]]; [done|]. rewrite Hs.
    pose proof (boundary_reusable w m keys wa ltac:(by rewrite Hg) Hs) as Hpre. fold p in Hpre.
    destruct (Z.leb_spec (Z.of_nat p) 0).
    { intros [= <- <-]. replace p with 0%nat in Hpre by lia. done. }
    rewrite py_slice_to_nonneg, Nat2Z.id by lia. unfold M_bind.
    destruct (lookup_on_reverse wa (take p keys) (m, w1)) as [s2 r2] eqn:Hr.
    apply lookup_on_reverse_spec in Hr as (Hm2 & Hp2 & [->|(e & ks & w2 & -> & _)]); [|done].
    assert (last_index (usable w1 wa m) (take p keys) = last_index (usable w wa m) (take p keys)) as ->.
    { unfold usable. by rewrite Hp. }
    pose proof (last_index_range (usable w wa m) (take p keys)).
    destruct (Z.ltb_spec (last_index (usable w wa m) (take p keys)) 0); intros [= <- <-];
      (split_and!; [done|congruence|]); [|done].
    by replace 0 with (last_index (usable w wa m) (take p keys) + 1) by lia.
Qed.

(** A failed lookup counts as no hit. *)
Lemma try_lookup_hits keys m w :
  ∃ r ext, try_except (_lookup_external_hit_blocks cfg keys) (λ _, mret 0) (m, w) = (r, Ok ext) ∧
    (ext = 0 ∨ longest_reusable w m keys ext).
Proof.
  unfold try_except. destruct (_lookup_external_hit_blocks cfg keys (m, w)) as [r [ext|e]] eqn:E.
  - exists r, ext. split; [done|]. right. by apply lookup_external_hit_blocks_ok in E as (_ & _ & ?).
  - exists r, 0. auto.
Qed.

(** The hashes of a request that a match looks up: past those computed in HBM, up
    to the last block that may be reused. *)
Definition external_keys (request : Request) (nct : Z) ids : list bytes :=
  py_slice (nct / bs) (if is_v41_layout cfg then (num_tokens request - 1) / bs else zlen ids) ids.

Lemma external_keys_bound request nct ids ext :
  0 < bs → 0 ≤ nct → zlen ids * bs ≤ num_tokens request →
  0 < ext → ext ≤ zlen (external_keys request nct ids) →
  nct / bs + ext ≤ zlen ids ∧ (is_v41_layout cfg = true → (nct / bs + ext) * bs < num_tokens request).
Proof.
  intros Hbs Hn Hlen Hpos. pose proof (Z.div_pos nct bs Hn Hbs). unfold external_keys.
  assert (0 < zlen ids ∨ ids = []) as [Hne| ->] by (destruct ids; [by right|left; unfold zlen; simpl; lia]).
  2:{ unfold py_slice. rewrite drop_nil, take_nil. unfold zlen. simpl. lia. }
  assert (0 ≤ (num_tokens request - 1) / bs) by (apply Z.div_pos; nia).
  pose proof (Z.mul_div_le (num_tokens request - 1) bs Hbs).
  rewrite zlen_py_slice; [|done|case_match; lia].
  destruct (is_v41_layout cfg); intros Hle; (split; [lia|]); intros ?; [nia|done].
Qed.

Lemma prefetch_hotness_ok a b (s : RankConsistencyManager * W) :
  ∃ s', _prefetch_hit_key_hotness cfg a b s = (s', Ok tt).
Proof.
  assert (∀ st ks (s : RankConsistencyManager * W), ∃ s', on_world (try_prefetch st ks) s = (s', Ok tt)) as Ht.
  { intros [st|] ks [m w]; [|by eexists]. unfold try_prefetch, on_world, zoom.
    case_bool_decide; [by eexists|]. unfold try_except. simpl.
    destruct (store_prefetch st ks w) as [w' [[]|e]]; by eexists. }
  unfold _prefetch_hit_key_hotness. erewrite bind_ok; [|apply fawa_stores_ok].
  destruct (Ht (Some fa) a s) as [s1 E1]. erewrite bind_ok; [|exact E1].
  destruct (Ht (wa_store cfg) b s1) as [s2 E2]. exists s2. exact E2.
Qed.

(** The arithmetic of an offer, for [ext] blocks found after [hbm]. *)
Lemma fawa_account_offer request nct ext :
  0 < bs → 0 ≤ nct → 0 ≤ ext →
  let hbm := nct / bs in
  let a := fawa_account cfg request nct hbm ext in
  0 ≤ fm_external_tokens a ∧
  (0 < fm_external_tokens a →
   fm_hbm a = hbm ∧ fm_total a = hbm + ext ∧ fm_processed a = (hbm + ext) * bs ∧ 0 < ext ∧
   nct + fm_external_tokens a ≤ (hbm + ext) * bs ∧
   (is_v41_layout cfg = false → (hbm + ext) * bs = num_tokens request →
    nct + fm_external_tokens a < num_tokens request)).
Proof.
  intros Hbs Hn He hbm a. subst a. unfold fawa_account.
  pose proof (Z.mul_div_le nct bs Hbs) as Hd. pose proof (Z.mul_succ_div_gt nct bs Hbs) as Hd'.
  fold hbm in Hd, Hd'. clearbody hbm.
  destruct (negb (prefix_replay_tokens cfg =? 0) && _); cbv beta iota zeta;
    destruct (_ <=? load_tokens_threshold cfg);
    cbn [fm_hbm fm_total fm_external_tokens fm_processed];
    try (split; [lia|intros; exfalso; lia]).
  { destruct (negb (is_v41_layout cfg) && _); (split; [lia|intros; exfalso; lia]). }
  destruct (is_v41_layout cfg); simpl; [|destruct (Z.eqb_spec (ext * bs + hbm * bs) (num_tokens request))];
    (split; [lia|]); intros Hpos; assert (0 < ext * bs) by lia; assert (0 < ext) by nia;
    split_and!; try done; lia.
Qed.

End matching.

(** ** Rows of a plan *)

Lemma arange_elem a b x : x ∈ arange a b ↔ a ≤ x < b.
Proof.
  unfold arange. rewrite list_elem_of_fmap. setoid_rewrite elem_of_seq. split.
  - intros (i & -> & Hi). lia.
  - intros Hx. exists (Z.to_nat (x - a)). lia.
Qed.

Lemma arange_lookup a b (i : nat) : a + Z.of_nat i < b → arange a b !! i = Some (a + Z.of_nat i).
Proof. intros Hi. unfold arange. rewrite list_lookup_fmap, lookup_seq_lt by lia. done. Qed.

Lemma take_indices_total l idx :
  Forall (λ i, 0 ≤ i < zlen l) idx → ∃ r, take_indices l idx = Ok r.
Proof.
  induction 1 as [|i idx Hi _ [r IH]]; simpl; [by eexists|].
  destruct (lookup_lt_is_Some_2 l (Z.to_nat i)) as [x ->]; [unfold zlen in Hi; lia|].
  rewrite IH. by eexists.
Qed.

Lemma take_indices_rows l idx r :
  take_indices l idx = Ok r → Forall2 (λ i x, l !! Z.to_nat i = Some x) idx r.
Proof.
  revert r. induction idx as [|i idx IH]; intros r; simpl; [intros [= <-]; constructor|].
  destruct (l !! Z.to_nat i) as [x|] eqn:Hx; [|done].
  destruct (take_indices l idx) as [r'|e]; [|done]. intros [= <-]. constructor; [done|by apply IH].
Qed.

Section rows.
Variable cfg : FawaConfig.
Abbreviation bs := (hash_block_size cfg).
Hypothesis Hbs : 0 < bs.

(** Every group is known, with a block size and a tail. *)
Definition groups_wf (n : nat) : Prop :=
  size (group_metas cfg) = n ∧
  ∀ gid : Z, 0 ≤ gid < Z.of_nat n →
    ∃ g, group_metas cfg !! gid = Some g ∧ 0 < token_block_size g ∧ 0 ≤ tail_blocks g.

(** The blocks of every group reach up to token [tokens]. *)
Definition covers (groups : list (list Z)) (tokens : Z) : Prop :=
  ∀ (i : nat) l g, groups !! i = Some l → group_metas cfg !! Z.of_nat i = Some g →
    tokens ≤ zlen l * token_block_size g.

Lemma boundary_elem first last b :
  b ∈ window_boundary_token_idx cfg first last ↔ ∃ k, first < k ≤ last ∧ b = k * bs - 1.
Proof.
  unfold window_boundary_token_idx. rewrite list_elem_of_fmap. setoid_rewrite arange_elem.
  split; intros (k & ? & ?); exists k; lia.
Qed.

Lemma boundary_last first last_ :
  first < last_ → last (window_boundary_token_idx cfg first last_) = Some (last_ * bs - 1).
Proof.
  intros Hlt. rewrite last_lookup. unfold window_boundary_token_idx. rewrite list_lookup_fmap.
  unfold arange at 1. rewrite !length_fmap, length_seq.
  rewrite arange_lookup by lia. simpl. do 2 f_equal. f_equal. lia.
Qed.

(** A slice succeeds when the group's blocks reach all boundaries. *)
Lemma slice_total gid g l first last_ wise :
  group_metas cfg !! gid = Some g → 0 < token_block_size g → 0 ≤ tail_blocks g →
  0 ≤ first < last_ → last_ * bs ≤ zlen l * token_block_size g →
  ∃ r, _slice_group_block_ids cfg gid l (window_boundary_token_idx cfg first last_) wise = Ok r.
Proof.
  intros Hg Ht Htail Hfl Hcov. unfold _slice_group_block_ids.
  destruct (decide (gid ∈ transient_group_ids cfg)); [by eexists|]. rewrite Hg.
  assert (∀ b, b ∈ window_boundary_token_idx cfg first last_ → 0 ≤ b / token_block_size g < zlen l) as Hb.
  { intros b (k & Hk & ->)%boundary_elem. split; [apply Z.div_pos; nia|].
    apply Z.div_lt_upper_bound; nia. }
  destruct (decide (gid ∈ window_group_ids cfg)).
  - destruct (tail_tokens g =? 0); [by eexists|]. destruct wise.
    + set (idx := mbind _ _).
      assert (Forall (λ i, i < zlen l) idx) as Hidx.
      { apply Forall_forall. intros i (b & Hi & Hin)%list_elem_of_bind.
        apply list_elem_of_fmap in Hi as (o & -> & Ho). rewrite elem_of_reverse in Ho.
        apply arange_elem in Ho. specialize (Hb b Hin). lia. }
      assert (foldr Z.max (-1) idx < zlen l) as Hmax.
      { pose proof (zlen_nonneg l). clear -Hidx H. induction Hidx; simpl; lia. }
      destruct (Z.leb_spec (zlen l) (foldr Z.max (-1) idx)); [lia|].
      apply take_indices_total, Forall_fmap, (Forall_impl _ _ _ Hidx). intros i Hi. simpl. pose proof (zlen_nonneg l).
      assert (0 < zlen l) by nia. lia.
    + rewrite boundary_last by lia.
      specialize (Hb (last_ * bs - 1) ltac:(apply boundary_elem; exists last_; lia)).
      destruct (Z.ltb_spec (zlen l) ((last_ * bs - 1) / token_block_size g + 1)); [lia|].
      apply take_indices_total, Forall_fmap, Forall_forall. intros i Hi%arange_elem. simpl. lia.
  - apply take_indices_total, Forall_fmap, Forall_forall. intros b Hin. simpl. by apply Hb.
Qed.

Lemma slice_groups_total gid groups b wise :
  (∀ (i : nat) l, groups !! i = Some l →
     ∃ r, _slice_group_block_ids cfg (gid + Z.of_nat i) l b wise = Ok r) →
  ∃ rows, slice_groups cfg gid groups b wise = Ok rows.
Proof.
  revert gid. induction groups as [|l groups IH]; intros gid Hall; simpl; [by eexists|].
  destruct (Hall 0%nat l eq_refl) as [r Hr]. rewrite Z.add_0_r in Hr. rewrite Hr. simpl.
  destruct (IH (gid + 1)) as [rows ->]; [|by eexists].
  intros i l' Hl. destruct (Hall (S i) l' Hl) as [r' Hr']. exists r'. rewrite <- Hr'. f_equal. lia.
Qed.

Lemma slice_groups_row gid groups b wise rows (i : nat) l :
  slice_groups cfg gid groups b wise = Ok rows → groups !! i = Some l →
  ∃ row, rows !! i = Some row ∧ _slice_group_block_ids cfg (gid + Z.of_nat i) l b wise = Ok row.
Proof.
  revert gid rows i. induction groups as [|l0 groups IH]; intros gid rows i; [done|]. simpl.
  destruct (_slice_group_block_ids cfg gid l0 b wise) as [r|] eqn:Hr; [|done]. simpl.
  destruct (slice_groups cfg (gid + 1) groups b wise) as [rs|] eqn:Hrs; [|done].
  intros [= <-] Hl. destruct i as [|i]; simpl in *.
  - simplify_eq. exists r. by rewrite Z.add_0_r.
  - destruct (IH _ _ _ Hrs Hl) as (row & ? & Hs). exists row. split; [done|].
    rewrite <- Hs. f_equal. lia.
Qed.

Lemma slice_groups_covered n groups first last_ wise :
  groups_wf n → length groups = n → covers groups (last_ * bs) → 0 ≤ first < last_ →
  ∃ rows, slice_groups cfg 0 groups (window_boundary_token_idx cfg first last_) wise = Ok rows.
Proof.
  intros [_ Hwf] Hlen Hcov Hfl. apply slice_groups_total. intros i l Hl.
  pose proof (lookup_lt_Some _ _ _ Hl).
  destruct (Hwf (Z.of_nat i)) as (g & Hg & Ht & Htail); [lia|]. rewrite Z.add_0_l.
  apply (slice_total (Z.of_nat i) g); [done|done|done|done|]. by apply (Hcov i).
Qed.

(** ** One step of planning *)

(** The groups' rows of a request, and those rows with the blocks of a step. *)
Definition rows_of (meta : FAWARequestMeta) : list (list Z) :=
  match fr_vllm_block_ids meta with [] => empty_groups cfg | gs => gs end.

Definition rows_with (meta : FAWARequestMeta) (new : list (list Z)) : list (list Z) :=
  zip_with (λ l r, l ++ r) (rows_of meta) new.

(** What a step plans from the computed tokens [start] on. *)
Record step_plan (meta : FAWARequestMeta) (new : list (list Z)) (need_load : bool) (start end_ : Z)
    (d : FAWARequestDispatchMeta) : Prop := mkStepPlan {
  plan_load_keys : load_keys d =
    if need_load then py_slice (fr_hbm_hit_block_num meta) (fr_total_hit_block_num meta)
                        (fr_ucm_block_ids meta) else [];
  plan_load_range :
    need_load = true → fr_hbm_hit_block_num meta < fr_total_hit_block_num meta →
    load_hash_start d = fr_hbm_hit_block_num meta ∧ load_hash_end d = fr_total_hit_block_num meta ∧
    slice_groups cfg 0 (rows_with meta new)
      (window_boundary_token_idx cfg (load_hash_start d) (load_hash_end d)) false =
      Ok (load_vllm_block_ids d);
  plan_dump_start : dump_hash_start d = Z.max (fr_total_hit_block_num meta) (start / bs);
  plan_dump_end : dump_hash_end d = end_ / bs;
  plan_dump_keys :
    dump_keys d = py_slice (dump_hash_start d) (dump_hash_end d) (fr_ucm_block_ids meta);
  plan_dump_rows : dump_hash_start d < dump_hash_end d →
    slice_groups cfg 0 (rows_with meta new)
      (window_boundary_token_idx cfg (dump_hash_start d) (dump_hash_end d)) (wa_dump_block_wise cfg) =
      Ok (dump_vllm_block_ids d);
}.

(** The metadata after a step. *)
Definition after_step (meta : FAWARequestMeta) (new : list (list Z)) (end_ : Z) : FAWARequestMeta :=
  mkFawaMeta (fr_ucm_block_ids meta) (fr_hbm_hit_block_num meta) (fr_total_hit_block_num meta)
    (fr_num_token_ids meta) (rows_with meta new) end_.

Lemma fawa_step n meta tokens new need_load computed :
  groups_wf n → length (rows_of meta) = n → length new = n →
  0 ≤ fr_hbm_hit_block_num meta → 0 ≤ fr_total_hit_block_num meta →
  let start := default (fr_token_processed meta) computed in
  let end_ := Z.min (fr_num_token_ids meta) (start + tokens) in
  0 ≤ start → 0 ≤ end_ → covers (rows_with meta new) end_ →
  (need_load = true → covers (rows_with meta new) (fr_total_hit_block_num meta * bs)) →
  ∃ d, fawa_generate_dispatch_meta cfg tokens new need_load computed meta =
    (after_step meta new end_, Ok d) ∧ step_plan meta new need_load start end_ d.
Proof.
  intros Hwf Hrows Hnew Hh Ht start end_ Hs He Hcov Hload.
  assert (length (rows_with meta new) = n) as Hlen.
  { unfold rows_with. rewrite length_zip_with. lia. }
  unfold fawa_generate_dispatch_meta.
  erewrite bind_ok; [|done]. erewrite bind_ok; [|done]. cbn [fr_vllm_block_ids].
  fold (rows_of meta). rewrite bool_decide_true by lia. cbn [negb]. cbv zeta.
  fold (rows_with meta new). erewrite bind_ok; [|done].
  cbn [fr_ucm_block_ids fr_hbm_hit_block_num fr_total_hit_block_num fr_num_token_ids
       fr_vllm_block_ids fr_token_processed]. fold start. fold end_. clearbody start.
  assert (0 ≤ start / bs) by (apply Z.div_pos; lia).
  assert (0 ≤ end_ / bs) by (apply Z.div_pos; lia).
  assert (∀ a b wise, 0 ≤ a < b → covers (rows_with meta new) (b * bs) →
    ∃ rows, slice_groups cfg 0 (rows_with meta new) (window_boundary_token_idx cfg a b) wise = Ok rows)
    as Hslice by (intros; by eapply slice_groups_covered).
  assert (Z.max (fr_total_hit_block_num meta) (start / bs) < end_ / bs →
    covers (rows_with meta new) (end_ / bs * bs)) as Hdump.
  { intros _ i l g Hl Hg. specialize (Hcov i l g Hl Hg).
    pose proof (Z.mul_div_le end_ bs Hbs). lia. }
  destruct (need_load && (fr_hbm_hit_block_num meta <? fr_total_hit_block_num meta)) eqn:Hn.
  - apply andb_true_iff in Hn as [-> Hlt%Z.ltb_lt].
    destruct (Hslice (fr_hbm_hit_block_num meta) (fr_total_hit_block_num meta) false)
      as [lrows El]; [lia|by apply Hload|]. rewrite El. erewrite bind_ok; [|done]. cbn [fst snd].
    destruct (Z.ltb_spec (Z.max (fr_total_hit_block_num meta) (start / bs)) (end_ / bs)) as [Hd|Hd].
    + destruct (Hslice (Z.max (fr_total_hit_block_num meta) (start / bs)) (end_ / bs)
        (wa_dump_block_wise cfg)) as [drows Ed]; [lia|apply Hdump; lia|]. rewrite Ed.
      eexists. split; [done|]. by split.
    + eexists. split; [done|]. split; simpl; try done; [by rewrite py_slice_empty by lia|lia].
  - erewrite bind_ok; [|done]. cbn [fst snd].
    assert ([] = if need_load then py_slice (fr_hbm_hit_block_num meta) (fr_total_hit_block_num meta)
      (fr_ucm_block_ids meta) else []) as El.
    { destruct need_load; [|done]. apply Z.ltb_ge in Hn. by rewrite py_slice_empty by lia. }
    assert (need_load = true → fr_hbm_hit_block_num meta < fr_total_hit_block_num meta → False) as Hno.
    { intros -> Hlt%Z.ltb_lt. simpl in Hn. congruence. }
    destruct (Z.ltb_spec (Z.max (fr_total_hit_block_num meta) (start / bs)) (end_ / bs)) as [Hd|Hd].
    + destruct (Hslice (Z.max (fr_total_hit_block_num meta) (start / bs)) (end_ / bs)
        (wa_dump_block_wise cfg)) as [drows Ed]; [lia|apply Hdump; lia|]. rewrite Ed.
      eexists. split; [done|]. split; simpl; try done; intros; by destruct Hno.
    + eexists. split; [done|]. split; simpl; try done; [intros; by destruct Hno|by rewrite py_slice_empty by lia|lia].
Qed.

(** ** Chunked prefill *)

(** One scheduling of a request: its tokens, the blocks added to each group, and
    whether its external blocks are to be loaded. *)
Record fchunk := mkFChunk { fc_tokens : Z; fc_blocks : list (list Z); fc_need_load : bool }.

Fixpoint fawa_plan_chunks (chunks : list fchunk) : M FAWARequestMeta (list FAWARequestDispatchMeta) :=
  match chunks with
  | [] => mret []
  | c :: rest =>
      d ← fawa_generate_dispatch_meta cfg (fc_tokens c) (fc_blocks c) (fc_need_load c) None;
      ds ← fawa_plan_chunks rest;
      mret (d :: ds)
  end.

(** The engine adds to every group the blocks of the tokens it schedules, and of
    the tokens to load. *)
Fixpoint fawa_allocated (n : nat) (meta : FAWARequestMeta) (chunks : list fchunk) : Prop :=
  match chunks with
  | [] => True
  | c :: rest =>
      let end_ := Z.min (fr_num_token_ids meta) (fr_token_processed meta + fc_tokens c) in
      0 ≤ fc_tokens c ∧ length (fc_blocks c) = n ∧ covers (rows_with meta (fc_blocks c)) end_ ∧
      (fc_need_load c = true →
       covers (rows_with meta (fc_blocks c)) (fr_total_hit_block_num meta * bs)) ∧
      fawa_allocated n (after_step meta (fc_blocks c) end_) rest
  end.

Lemma rows_of_after n meta new end_ :
  groups_wf n → length (rows_with meta new) = n → rows_of (after_step meta new end_) = rows_with meta new.
Proof.
  intros [Hn _] Hlen. unfold rows_of. cbn [fr_vllm_block_ids after_step].
  destruct (rows_with meta new); [|done]. unfold empty_groups. by rewrite Hn, <- Hlen.
Qed.

(** Consecutive dump ranges join up, also those below the hits. *)
Lemma dump_slices_join {A} T p p1 p2 (l : list A) :
  0 ≤ T → 0 ≤ p ≤ p1 → p1 ≤ p2 →
  py_slice (Z.max T (p / bs)) (p1 / bs) l ++ py_slice (Z.max T (p1 / bs)) (p2 / bs) l =
  py_slice (Z.max T (p / bs)) (p2 / bs) l.
Proof.
  intros HT Hp Hp1. assert (0 ≤ p / bs) by (apply Z.div_pos; lia).
  assert (p / bs ≤ p1 / bs) by (apply Z.div_le_mono; lia).
  assert (p1 / bs ≤ p2 / bs) by (apply Z.div_le_mono; lia).
  destruct (decide (T ≤ p1 / bs)).
  - rewrite (Z.max_r T (p1 / bs)) by lia. apply py_slice_app; lia.
  - rewrite py_slice_empty by lia. rewrite !Z.max_l by lia. done.
Qed.

(** Planning never fails on a request whose blocks the engine has allocated,
    and over any sequence of steps the hashes planned for dumping are, in order
    and without gap or overlap, those of the blocks completed by the steps that
    were not hits, whatever the chunk boundaries; the tokens counted never
    exceed the request.  A step that loads plans exactly the external hits, and
    the other steps load nothing. *)
Theorem fawa_dumps_tile n chunks meta :
  groups_wf n → length (rows_of meta) = n →
  0 ≤ fr_hbm_hit_block_num meta → 0 ≤ fr_total_hit_block_num meta →
  0 ≤ fr_token_processed meta ≤ fr_num_token_ids meta →
  fawa_allocated n meta chunks →
  ∃ meta' ds, fawa_plan_chunks chunks meta = (meta', Ok ds) ∧
    fr_token_processed meta' =
      Z.min (fr_num_token_ids meta) (fr_token_processed meta + list_sum (fc_tokens <$> chunks)) ∧
    concat (dump_keys <$> ds) =
      py_slice (Z.max (fr_total_hit_block_num meta) (fr_token_processed meta / bs))
        (fr_token_processed meta' / bs) (fr_ucm_block_ids meta) ∧
    Forall2 (λ c d, load_keys d =
      if fc_need_load c
      then py_slice (fr_hbm_hit_block_num meta) (fr_total_hit_block_num meta) (fr_ucm_block_ids meta)
      else []) chunks ds.
Proof.
  intros Hwf. revert meta.
  induction chunks as [|c chunks IH]; intros meta Hrows Hh Ht Hp; cbn [fawa_allocated fawa_plan_chunks].
  { intros _. exists meta, []. cbn. split_and!; [done|lia| |constructor].
    by rewrite py_slice_empty by (pose proof (Z.div_pos (fr_token_processed meta) bs); lia). }
  intros (Hc & Hlen & Hcov & Hcovl & Hal).
  set (end_ := Z.min (fr_num_token_ids meta) (fr_token_processed meta + fc_tokens c)) in *.
  destruct (fawa_step n meta (fc_tokens c) (fc_blocks c) (fc_need_load c) None)
    as (d & Ed & Hd); try done; [simpl; lia|simpl; lia|].
  cbn [default] in Ed, Hd. fold end_ in Ed, Hd. erewrite bind_ok; [|exact Ed].
  assert (length (rows_with meta (fc_blocks c)) = n) as Hl.
  { unfold rows_with. rewrite length_zip_with. lia. }
  assert (fr_token_processed meta ≤ end_ ≤ fr_num_token_ids meta) by (unfold end_; lia).
  destruct (IH (after_step meta (fc_blocks c) end_)) as (meta' & ds & E & Hp' & Hds & Hls);
    [by rewrite (rows_of_after n)|done|done|simpl; lia|done|].
  assert (0 ≤ list_sum (fc_tokens <$> chunks)) as Hsum.
  { clear -Hal. revert Hal. generalize (after_step meta (fc_blocks c) end_).
    induction chunks as [|c' chunks IH]; intros m; cbn; [done|]. intros (? & _ & _ & _ & Hr).
    specialize (IH _ Hr). unfold list_sum in IH. lia. }
  erewrite bind_ok; [|exact E]. cbn [after_step fr_ucm_block_ids fr_hbm_hit_block_num
    fr_total_hit_block_num fr_num_token_ids fr_token_processed] in Hp', Hds, Hls.
  exists meta', (d :: ds). split_and!; [done|..].
  - rewrite Hp'. unfold end_. csimpl. lia.
  - csimpl. rewrite Hds, (plan_dump_keys _ _ _ _ _ _ Hd), (plan_dump_start _ _ _ _ _ _ Hd),
      (plan_dump_end _ _ _ _ _ _ Hd). apply dump_slices_join; lia.
  - constructor; [apply (plan_load_keys _ _ _ _ _ _ Hd)|done].
Qed.

(** ** Which blocks the rows name *)

(** In a row of an FA group, the [i]-th entry is the group's block that holds the
    last token of the [i]-th planned hash block. *)
Definition fa_row (g : KVCacheGroupMeta) (l : list Z) (first : Z) (ids keys : list bytes) (row : list Z) :
    Prop :=
  ∀ (i : nat) k, keys !! i = Some k →
    ids !! Z.to_nat (first + Z.of_nat i) = Some k ∧
    ∃ b, row !! i = Some b ∧
         l !! Z.to_nat (((first + Z.of_nat i + 1) * bs - 1) / token_block_size g) = Some b.

(** In a row of a WA group, every token of the tail before token [end_] is in one
    of the blocks, at its place in the tail. *)
Definition wa_row (g : KVCacheGroupMeta) (l : list Z) (end_ : Z) (row : list Z) : Prop :=
  ∀ t, 0 ≤ t → end_ - tail_tokens g ≤ t < end_ →
    ∃ b, l !! Z.to_nat (t / token_block_size g) = Some b ∧
         row !! Z.to_nat (t / token_block_size g - (end_ / token_block_size g - tail_blocks g)) = Some b.

(** The tail is made of whole blocks of the group that end with a hash block. *)
Definition window_fits (g : KVCacheGroupMeta) : Prop :=
  0 < token_block_size g ∧ (token_block_size g | bs) ∧ 0 < tail_tokens g ∧
  tail_tokens g ≤ tail_blocks g * token_block_size g.

Lemma slice_fa_row gid g l first last_ wise ids row :
  group_metas cfg !! gid = Some g → gid ∉ transient_group_ids cfg → gid ∉ window_group_ids cfg →
  0 ≤ first → 0 ≤ last_ →
  _slice_group_block_ids cfg gid l (window_boundary_token_idx cfg first last_) wise = Ok row →
  fa_row g l first ids (py_slice first last_ ids) row.
Proof.
  intros Hg Htr Hwin Hf Hl. unfold _slice_group_block_ids.
  rewrite decide_False, Hg, decide_False by done. intros Hr%take_indices_rows i k.
  rewrite lookup_py_slice_Some by lia. intros [Hi Hk]. split; [by rewrite <- Hk; f_equal; lia|].
  assert (((λ b, b / token_block_size g) <$> window_boundary_token_idx cfg first last_) !! i =
    Some (((first + Z.of_nat i + 1) * bs - 1) / token_block_size g)) as Hidx.
  { unfold window_boundary_token_idx. rewrite !list_lookup_fmap, arange_lookup by lia. simpl.
    do 3 f_equal. lia. }
  destruct (Forall2_lookup_l _ _ _ _ _ Hr Hidx) as (b & ? & ?). by exists b.
Qed.

(** What a WA group stores for the tokens before [end_]: the blocks up to the one of the
    last token, the group's first block in place of blocks before it; nothing when the
    group has no tail.  When the tail fits, all of it is covered. *)
Definition wa_width (g : KVCacheGroupMeta) : Z := if tail_tokens g =? 0 then 0 else tail_blocks g.

Definition wa_tail (g : KVCacheGroupMeta) (l : list Z) (end_ : Z) (row : list Z) : Prop :=
  zlen row = wa_width g ∧
  (∀ i : nat, Z.of_nat i < wa_width g →
     ∃ b, row !! i = Some b ∧
       l !! Z.to_nat (Z.max 0 ((end_ - 1) / token_block_size g + 1 - tail_blocks g + Z.of_nat i)) = Some b) ∧
  (window_fits g → wa_row g l end_ row).

Lemma length_arange a b : length (arange a b) = Z.to_nat (b - a).
Proof. unfold arange. by rewrite length_fmap, length_seq. Qed.

(** The blocks of one tail. *)
Lemma tail_rows g l k row :
  tail_tokens g ≠ 0 → 0 ≤ tail_blocks g →
  Forall2 (λ i b, l !! Z.to_nat (Z.max 0 i) = Some b)
    (arange ((k * bs - 1) / token_block_size g + 1 - tail_blocks g) ((k * bs - 1) / token_block_size g + 1)) row →
  wa_tail g l (k * bs) row.
Proof.
  intros Ht Hb Hr. unfold wa_tail, wa_width. rewrite (proj2 (Z.eqb_neq _ _) Ht).
  set (B := (k * bs - 1) / token_block_size g) in *.
  assert (∀ i : nat, Z.of_nat i < tail_blocks g → ∃ b, row !! i = Some b ∧
    l !! Z.to_nat (Z.max 0 (B + 1 - tail_blocks g + Z.of_nat i)) = Some b) as Hrow.
  { intros i Hi. destruct (Forall2_lookup_l _ _ _ i (B + 1 - tail_blocks g + Z.of_nat i) Hr) as (b & ? & ?);
      [by rewrite arange_lookup by lia|by exists b]. }
  split_and!; [|done|].
  { apply Forall2_length in Hr. rewrite length_arange in Hr. unfold zlen. lia. }
  intros (Htbs & [q Hq] & Htail & Hfit) t Ht0 Hin. set (T := token_block_size g) in *.
  assert (k * bs = k * q * T) as Hend by (rewrite Hq; ring).
  assert (B + 1 = k * q) as HB.
  { unfold B. replace (k * bs - 1) with ((k * q - 1) * T + (T - 1)) by (rewrite Hend; ring).
    rewrite Z.div_add_l, Z.div_small by lia. lia. }
  rewrite Hend, Z.div_mul by lia.
  assert (t / T < k * q) by (apply Z.div_lt_upper_bound; lia).
  assert (k * q - tail_blocks g ≤ t / T) by (apply Z.div_le_lower_bound; [lia|]; nia).
  assert (0 ≤ t / T) by (apply Z.div_pos; lia).
  destruct (Hrow (Z.to_nat (t / T - (k * q - tail_blocks g)))) as (b & ? & Hlb); [lia|]. exists b. split; [|done].
  rewrite <- Hlb. f_equal. lia.
Qed.

Lemma no_tail g l end_ : tail_tokens g = 0 → wa_tail g l end_ [].
Proof.
  intros Ht. unfold wa_tail, wa_width, window_fits. rewrite Ht. split_and!; [done|simpl; lia|lia].
Qed.

Lemma slice_wa_row gid g l first last_ row :
  group_metas cfg !! gid = Some g → gid ∉ transient_group_ids cfg → gid ∈ window_group_ids cfg →
  0 ≤ tail_blocks g → 0 ≤ first < last_ →
  _slice_group_block_ids cfg gid l (window_boundary_token_idx cfg first last_) false = Ok row →
  wa_tail g l (last_ * bs) row.
Proof.
  intros Hg Htr Hwin Hb Hfl. unfold _slice_group_block_ids.
  rewrite decide_False, Hg, decide_True by done. destruct (Z.eqb_spec (tail_tokens g) 0) as [Ht|Ht].
  { intros [= <-]. by apply no_tail. }
  rewrite boundary_last by lia. cbv zeta. case_match; [done|]. intros Hr%take_indices_rows.
  apply tail_rows; [done|done|]. by apply Forall2_fmap_l in Hr.
Qed.

(** The tails of several boundaries, one after the other. *)
Lemma tails_apart {A B C} (P : B → C → Prop) (f : A → list B) w l row :
  Forall2 P (l ≫= f) row → (∀ x, x ∈ l → length (f x) = w) →
  length row = (length l * w)%nat ∧
  ∀ j x, l !! j = Some x → Forall2 P (f x) (take w (drop (j * w) row)).
Proof.
  revert row. induction l as [|y l IH]; intros row Hr Hw.
  { apply Forall2_nil_inv_l in Hr as ->. by split. }
  csimpl in Hr. apply Forall2_app_inv_l in Hr as (r1 & r2 & H1 & H2 & ->).
  destruct (IH r2 H2) as [Hlen Hseg]; [intros x Hx; apply Hw; by right|].
  pose proof (Forall2_length _ _ _ H1) as Hl1. rewrite (Hw y) in Hl1 by left. split.
  { rewrite length_app, Hlen, <- Hl1. simpl. lia. }
  intros [|j] x Hx; simpl in Hx.
  - injection Hx as <-. rewrite Nat.mul_0_l, drop_0, Hl1, take_app_length. done.
  - rewrite drop_app_ge by (simpl; lia). replace (S j * w - length r1)%nat with (j * w)%nat by (simpl; lia). by apply Hseg.
Qed.

Lemma descending B n :
  (λ o, B - o) <$> reverse (arange 0 n) = arange (B + 1 - n) (B + 1).
Proof.
  apply list_eq. intros i. rewrite list_lookup_fmap.
  destruct (decide (i < Z.to_nat n)%nat) as [Hi|Hi].
  - rewrite reverse_lookup by (rewrite length_arange; lia). rewrite length_arange, !arange_lookup by lia.
    simpl. f_equal. lia.
  - rewrite !lookup_ge_None_2; [done|rewrite length_arange; lia|rewrite length_reverse, length_arange; lia].
Qed.

Lemma slice_wa_rows gid g l first last_ row :
  group_metas cfg !! gid = Some g → gid ∉ transient_group_ids cfg → gid ∈ window_group_ids cfg →
  0 ≤ tail_blocks g → 0 ≤ first < last_ →
  _slice_group_block_ids cfg gid l (window_boundary_token_idx cfg first last_) true = Ok row →
  zlen row = (last_ - first) * wa_width g ∧
  ∀ j : nat, first + Z.of_nat j < last_ →
    wa_tail g l ((first + Z.of_nat j + 1) * bs)
      (take (Z.to_nat (wa_width g)) (drop (j * Z.to_nat (wa_width g)) row)).
Proof.
  intros Hg Htr Hwin Hb Hfl. unfold _slice_group_block_ids, wa_width.
  rewrite decide_False, Hg, decide_True by done. destruct (Z.eqb_spec (tail_tokens g) 0) as [Ht|Ht].
  { intros [= <-]. split; [unfold zlen; simpl; lia|]. intros j _. by apply no_tail. }
  cbv zeta. case_match; [done|]. intros Hr%take_indices_rows%Forall2_fmap_l.
  apply (tails_apart _ _ (Z.to_nat (tail_blocks g))) in Hr as [Hlen Hseg].
  2:{ intros x _. rewrite length_fmap, length_reverse, length_arange. lia. }
  split.
  - unfold zlen. rewrite Hlen. unfold window_boundary_token_idx. rewrite length_fmap, length_arange.
    rewrite Nat2Z.inj_mul, !Z2Nat.id by lia. f_equal. lia.
  - intros j Hj. apply tail_rows; [done|done|]. rewrite <- descending. apply Hseg.
    unfold window_boundary_token_idx. rewrite list_lookup_fmap, arange_lookup by lia. simpl. do 3 f_equal. lia.
Qed.

(** The rows of a WA group in the dump of hash blocks [first .. last_). *)
Definition wa_dump_rows (g : KVCacheGroupMeta) (l : list Z) (first last_ : Z) (row : list Z) : Prop :=
  if wa_dump_block_wise cfg then
    zlen row = (last_ - first) * wa_width g ∧
    ∀ j : nat, first + Z.of_nat j < last_ →
      wa_tail g l ((first + Z.of_nat j + 1) * bs)
        (take (Z.to_nat (wa_width g)) (drop (j * Z.to_nat (wa_width g)) row))
  else wa_tail g l (last_ * bs) row.

(** C35 The KV blocks of a plan belong to its hashes.  In a step on a request
    whose blocks are allocated, also one that replays a prefix, every entry of an FA
    group's row, for a load as for a dump, is the group's block that holds the end of the
    hash block of the same entry.  The row of a WA group in a load has the blocks of the
    tail before the end of the hits, with the first block for those before the request;
    in a dump it has such a tail for every hash block in turn, or only for the last one
    when tails are not stored block by block.  When the tail is made of whole blocks that
    end with a hash block, it covers all tokens that later tokens can see. *)
Theorem fawa_plan_rows n meta tokens new need_load computed (i : nat) l g :
  groups_wf n → length (rows_of meta) = n → length new = n →
  0 ≤ fr_hbm_hit_block_num meta → 0 ≤ fr_total_hit_block_num meta →
  let start := default (fr_token_processed meta) computed in
  let end_ := fr_num_token_ids meta `min` (start + tokens) in
  0 ≤ start → 0 ≤ end_ → covers (rows_with meta new) end_ →
  (need_load = true → covers (rows_with meta new) (fr_total_hit_block_num meta * bs)) →
  rows_with meta new !! i = Some l → group_metas cfg !! Z.of_nat i = Some g →
  Z.of_nat i ∉ transient_group_ids cfg →
  ∃ meta' d, fawa_generate_dispatch_meta cfg tokens new need_load computed meta = (meta', Ok d) ∧
    dump_hash_start d = Z.max (fr_total_hit_block_num meta) (start / bs) ∧ dump_hash_end d = end_ / bs ∧
    dump_keys d = py_slice (dump_hash_start d) (dump_hash_end d) (fr_ucm_block_ids meta) ∧
    (Z.of_nat i ∉ window_group_ids cfg →
     fa_row g l (load_hash_start d) (fr_ucm_block_ids meta) (load_keys d)
       (default [] (load_vllm_block_ids d !! i)) ∧
     fa_row g l (dump_hash_start d) (fr_ucm_block_ids meta) (dump_keys d)
       (default [] (dump_vllm_block_ids d !! i))) ∧
    (Z.of_nat i ∈ window_group_ids cfg →
     (need_load = true → fr_hbm_hit_block_num meta < fr_total_hit_block_num meta →
      wa_tail g l (fr_total_hit_block_num meta * bs) (default [] (load_vllm_block_ids d !! i))) ∧
     (dump_hash_start d < dump_hash_end d →
      wa_dump_rows g l (dump_hash_start d) (dump_hash_end d) (default [] (dump_vllm_block_ids d !! i)))).
Proof.
  intros Hwf Hrows Hnew Hh Ht start end_ Hs He Hcov Hload Hl Hg Htr.
  assert (0 ≤ tail_blocks g) as Hb.
  { apply lookup_lt_Some in Hl as Hi. unfold rows_with in Hi. rewrite length_zip_with in Hi.
    destruct (proj2 Hwf (Z.of_nat i)) as (g' & Hg' & _ & ?); [lia|]. by simplify_eq. }
  destruct (fawa_step n meta tokens new need_load computed) as (d & Ed & Hd); try done.
  eexists _, d. split; [exact Ed|].
  destruct Hd as [Hlk Hlr Hds Hde Hdk Hdr]. fold start end_ in Hds, Hde. do 3 (split; [done|]).
  assert (0 ≤ dump_hash_end d) by (rewrite Hde; apply Z.div_pos; lia).
  split.
  - intros Hwin. split.
    + rewrite Hlk. destruct need_load; [|intros j k; done].
      destruct (decide (fr_hbm_hit_block_num meta < fr_total_hit_block_num meta)) as [Hlt|Hge].
      2:{ rewrite py_slice_empty by lia. intros j k; done. }
      destruct (Hlr eq_refl Hlt) as (E1 & E2 & Hsl). rewrite E1, E2 in Hsl.
      destruct (slice_groups_row _ _ _ _ _ _ _ Hsl Hl) as (row & -> & Hrow). rewrite E1.
      by eapply slice_fa_row.
    + rewrite Hdk. destruct (decide (dump_hash_start d < dump_hash_end d)) as [Hlt|Hge].
      2:{ rewrite py_slice_empty by lia. intros j k; done. }
      destruct (slice_groups_row _ _ _ _ _ _ _ (Hdr Hlt) Hl) as (row & -> & Hrow).
      eapply slice_fa_row; [done..|lia|done|exact Hrow].
  - intros Hwin. split.
    + intros -> Hlt. destruct (Hlr eq_refl Hlt) as (E1 & E2 & Hsl). rewrite E1, E2 in Hsl.
      destruct (slice_groups_row _ _ _ _ _ _ _ Hsl Hl) as (row & -> & Hrow).
      eapply slice_wa_row; [done..| |exact Hrow]. done.
    + intros Hlt. destruct (slice_groups_row _ _ _ _ _ _ _ (Hdr Hlt) Hl) as (row & -> & Hrow). simpl.
      unfold wa_dump_rows. destruct (wa_dump_block_wise cfg).
      * eapply slice_wa_rows; [done..|lia|exact Hrow].
      * eapply slice_wa_row; [done..| |exact Hrow]. lia.
Qed.
End rows.

(** ** What the classification of the groups guarantees *)

Section groups.
Variable f : LayoutFlags.
Variable transient : gset Z.

(** How group [i] is entered. *)
Definition classified (c : group_classes) (i : Z) (g : GroupSpec) : Prop :=
  if decide (i ∈ transient)
  then gc_metas c !! i = Some (mkGroupMeta i (gs_block_size g) 0 0) ∧
       (i ∉ fa_group_ids c) ∧ (i ∉ gc_window_group_ids c)
  else ∃ meta, gc_metas c !! i = Some meta ∧ group_meta f i g = Ok meta ∧
       (i ∈ fa_group_ids c ↔ gs_window g = None) ∧
       (i ∈ gc_window_group_ids c ↔ gs_window g ≠ None).

(** The same entries at [i]. *)
Definition same_entry (c c' : group_classes) (i : Z) : Prop :=
  gc_metas c' !! i = gc_metas c !! i ∧
  (i ∈ fa_group_ids c' ↔ i ∈ fa_group_ids c) ∧
  (i ∈ gc_window_group_ids c' ↔ i ∈ gc_window_group_ids c).

(** Nothing is entered from [id] on. *)
Definition entered_below (c : group_classes) (id : Z) : Prop :=
  ∀ i, id ≤ i → gc_metas c !! i = None ∧ (i ∉ fa_group_ids c) ∧ (i ∉ gc_window_group_ids c).

Lemma classified_same c c' i g : same_entry c c' i → classified c i g → classified c' i g.
Proof. unfold classified. intros (-> & Hf & Hw). case_decide; naive_solver. Qed.

Lemma classify_spec id groups acc c :
  classify_groups f transient id groups acc = Ok c → entered_below acc id →
  (∀ (i : nat) g, groups !! i = Some g → classified c (id + Z.of_nat i) g) ∧
  (∀ i, i < id → same_entry acc c i) ∧
  size (gc_metas c) = (size (gc_metas acc) + length groups)%nat.
Proof.
  revert id acc. induction groups as [|g groups IH]; intros id acc.
  { intros [= <-] _. split_and!; [done|done|simpl; lia]. }
  cbn [classify_groups]. intros Hc Hbelow.
  destruct (Hbelow id ltac:(lia)) as (Hid & Hidf & Hidw).
  assert (∃ acc', classify_groups f transient (id + 1) groups acc' = Ok c ∧ entered_below acc' (id + 1) ∧
    classified acc' id g ∧ (∀ i, i < id → same_entry acc acc' i) ∧
    size (gc_metas acc') = S (size (gc_metas acc))) as (acc' & Hc' & Hb' & Hcl & Hsame & Hsz).
  { unfold classified. destruct (decide (id ∈ transient)).
    - eexists. split; [exact Hc|]. cbn [gc_metas fa_group_ids gc_window_group_ids].
      split_and!; [|by rewrite lookup_insert_eq|done|done| |by rewrite map_size_insert_None].
      + intros i Hi. cbn. rewrite lookup_insert_ne by lia. apply Hbelow. lia.
      + intros i Hi. split_and!; [|done|done]. cbn. by rewrite lookup_insert_ne by lia.
    - destruct (group_meta f id g) as [meta|] eqn:Hm; [|done]. cbn [mbind outcome_bind] in Hc.
      eexists. split; [exact Hc|]. cbn [gc_metas fa_group_ids gc_window_group_ids].
      split_and!; [| | |by rewrite map_size_insert_None].
      + intros i Hi. destruct (Hbelow i) as (? & ? & ?); [lia|]. cbn. rewrite lookup_insert_ne by lia.
        split_and!; [done|..]; destruct (gs_window g); try done; rewrite elem_of_app, list_elem_of_singleton; naive_solver lia.
      + exists meta. rewrite lookup_insert_eq. split_and!; [done|done|..];
          destruct (gs_window g); rewrite ?elem_of_app, ?list_elem_of_singleton; naive_solver.
      + intros i Hi. unfold same_entry. cbn. rewrite lookup_insert_ne by lia.
        split_and!; [done|..]; destruct (gs_window g); try done;
          rewrite elem_of_app, list_elem_of_singleton; naive_solver lia. }
  destruct (IH _ _ Hc' Hb') as (Hall & Hsm & Hsize). split_and!.
  - intros [|i] g' Hg; simpl in Hg.
    + simplify_eq. rewrite Z.add_0_r. eapply classified_same; [apply Hsm; lia|done].
    + replace (id + Z.of_nat (S i)) with (id + 1 + Z.of_nat i) by lia. by apply Hall.
  - intros i Hi. destruct (Hsame i Hi) as (E1 & E2 & E3), (Hsm i) as (F1 & F2 & F3); [lia|].
    split_and!; [congruence|by rewrite F2|by rewrite F3].
  - simpl. lia.
Qed.

Lemma round_up_le x y : 0 < y → x ≤ round_up x y ∧ (y | round_up x y).
Proof.
  intros Hy. unfold round_up, ceil_div. split; [|by eexists].
  pose proof (Z.mul_succ_div_gt (x + y - 1) y Hy). nia.
Qed.

(** The metadata of a persistent group of the Ascend V4.1 layout. *)
Lemma v41_group_meta i g meta :
  is_ascend_v41_layout f = true → 0 < gs_block_size g → group_meta f i g = Ok meta →
  token_block_size meta = gs_block_size g ∧ (token_block_size meta | flags_hash_block_size f) ∧
  0 < tail_blocks meta ∧
  ∀ window, gs_window g = Some window → 0 < window →
    window ≤ tail_tokens meta ≤ tail_blocks meta * token_block_size meta.
Proof.
  intros Hv Hb. unfold group_meta, group_tail_tokens. rewrite Hv, andb_false_r. cbn [mbind outcome_bind].
  assert (∀ (o : outcome Z), (tail ← o; if gs_block_size g =? 0 then Raise ZeroDivisionError
      else if true && negb (flags_hash_block_size f mod gs_block_size g =? 0) then Raise ValueError
      else Ok (mkGroupMeta i (gs_block_size g) (Z.max (tail / gs_block_size g) 1) tail)) = Ok meta →
    ∃ tail, o = Ok tail ∧ (gs_block_size g | flags_hash_block_size f) ∧
      meta = mkGroupMeta i (gs_block_size g) (Z.max (tail / gs_block_size g) 1) tail) as Hrest.
  { intros [tail|]; [|done]. cbn [mbind outcome_bind]. destruct (Z.eqb_spec (gs_block_size g) 0); [lia|].
    destruct (Z.eqb_spec (flags_hash_block_size f mod gs_block_size g) 0) as [Hm|]; [|done].
    intros [= <-]. exists tail. split_and!; [done|by apply Z.mod_divide|done]. }
  intros (tail & Ht & Hdiv & ->)%Hrest. cbn [token_block_size tail_blocks tail_tokens].
  split_and!; [done|done|lia|]. intros window Hw Hpos. rewrite Hw in Ht. simpl in Ht.
  injection Ht as <-. destruct (round_up_le window (gs_block_size g) Hb) as [Hle [q Hq]].
  rewrite Hq in *. rewrite Z.div_mul by lia. nia.
Qed.

(** The sizes that a group can have. *)
Definition sizes_ok (g : GroupSpec) : Prop :=
  0 < gs_block_size g ∧ (∀ geometry, gs_geometry g = Ok geometry → 0 < logical geometry) ∧
  ∀ window, gs_window g = Some window → 0 < window.

Lemma group_meta_sizes i g meta :
  sizes_ok g → group_meta f i g = Ok meta → 0 < token_block_size meta ∧ 0 < tail_blocks meta.
Proof.
  intros (Hb & Hg & _). unfold group_meta.
  destruct (if is_ascend_layout f && negb (is_ascend_v41_layout f) then _ else _) as [block|] eqn:Eb; [|done].
  assert (0 < block) as Hblock.
  { revert Eb. case_match; [|by intros [= <-]]. destruct (gs_geometry g) as [geometry|]; [|done].
    intros [= <-]. by apply Hg. }
  cbn [mbind outcome_bind]. destruct (group_tail_tokens f g block) as [tail|]; [|done]. cbn [mbind outcome_bind].
  destruct (block =? 0); [done|]. destruct (is_ascend_v41_layout f && negb (_ =? 0)); [done|]. intros [= <-]. cbn [token_block_size tail_blocks]. lia.
Qed.

(** C36 The initialisation either fails or enters every group exactly once, on every
    layout: transient groups in neither list, groups without a window as FA, the others
    as WA, all with positive block sizes.  On the Ascend V4.1 layout, hash blocks end
    at a block boundary of every persistent group, and the tail stored for a WA group is
    a whole number of its blocks that holds at least the window, as the planning of rows
    needs. *)
Theorem v41_groups_fit (cfg : FawaConfig) groups c :
  hash_block_size cfg = flags_hash_block_size f →
  group_metas cfg = gc_metas c → window_group_ids cfg = gc_window_group_ids c →
  transient_group_ids cfg = transient → Forall sizes_ok groups →
  init_groups f transient groups = Ok c →
  groups_wf cfg (length groups) ∧
  ∀ (i : nat) g, groups !! i = Some g →
    if decide (Z.of_nat i ∈ transient)
    then (Z.of_nat i ∉ window_group_ids cfg) ∧ (Z.of_nat i ∉ fa_group_ids c)
    else ∃ meta, group_metas cfg !! Z.of_nat i = Some meta ∧
      (is_ascend_v41_layout f = true → (token_block_size meta | hash_block_size cfg)) ∧
      match gs_window g with
      | None => (Z.of_nat i ∉ window_group_ids cfg) ∧ Z.of_nat i ∈ fa_group_ids c
      | Some window =>
          Z.of_nat i ∈ window_group_ids cfg ∧ (Z.of_nat i ∉ fa_group_ids c) ∧
          (is_ascend_v41_layout f = true → window_fits cfg meta ∧ window ≤ tail_tokens meta)
      end.
Proof.
  intros Hbs Hmetas Hwin Htr Hpos. unfold init_groups.
  destruct (classify_groups f transient 0 groups _) as [c'|] eqn:Hc; [|done].
  cbn [mbind outcome_bind]. case_match; [done|]. intros [= ->].
  apply classify_spec in Hc as (Hall & _ & Hsz);
    [|intros i _; cbn; split_and!; [apply lookup_empty|apply not_elem_of_nil..]].
  cbn [gc_metas] in Hsz. rewrite map_size_empty in Hsz. rewrite Forall_lookup in Hpos.
  unfold groups_wf, window_fits. rewrite Hmetas, Hwin, Hbs. setoid_rewrite Z.add_0_l in Hall. split.
  - split; [done|]. intros gid Hgid.
    destruct (lookup_lt_is_Some_2 groups (Z.to_nat gid)) as [g Hg]; [lia|].
    pose proof (Hall _ _ Hg) as Hcl. rewrite Z2Nat.id in Hcl by lia. unfold classified in Hcl.
    pose proof (Hpos _ _ Hg) as Hok. case_decide.
    + destruct Hcl as (-> & _). eexists. split; [done|]. destruct Hok. simpl. lia.
    + destruct Hcl as (meta & -> & Hm & _).
      apply group_meta_sizes in Hm as [? ?]; [|done]. exists meta. split; [done|]. lia.
  - intros i g Hg. pose proof (Hall _ _ Hg) as Hcl. unfold classified in Hcl. case_decide; [naive_solver|].
    destruct Hcl as (meta & Hm & Hgm & Hfa & Hwa). destruct (Hpos _ _ Hg) as (Hb & _ & Hw).
    exists meta. split; [done|]. split.
    { intros Hv. by apply v41_group_meta in Hgm as (_ & Hdiv & _). }
    destruct (gs_window g) as [window|] eqn:Ew; [|split; [rewrite Hwa; naive_solver|by apply Hfa]].
    split_and!; [by apply Hwa|by rewrite Hfa|]. intros Hv. pose proof (Hw window eq_refl).
    apply v41_group_meta in Hgm as (E & Hdiv & Htb & Hfit); [|done|done].
    specialize (Hfit window Ew ltac:(lia)). split_and!; [lia|done|lia|lia|lia].
Qed.
End groups.

(** ** Concrete runs

    Hash blocks of four tokens; group 0 is FA with blocks of four tokens, group
    1 is WA with blocks of two tokens and a window of three, group 2 transient.
    The FA store holds the first three blocks, the WA store the rows at the end
    of blocks 0 and 1. *)

Definition ex_flags : LayoutFlags := mkLayoutFlags true true true 4.

Definition ex_group (size : Z) (window : option Z) : GroupSpec :=
  mkGroupSpec size window false (Ok 1) (Ok (mkGeometry size size)).

Definition ex_groups : list GroupSpec := [ex_group 4 None; ex_group 2 (Some 3); ex_group 8 (Some 8)].

Definition ex_classes : group_classes :=
  mkGroupClasses
    {[0 := mkGroupMeta 0 4 1 4; 1 := mkGroupMeta 1 2 2 4; 2 := mkGroupMeta 2 8 0 0]} [0] [1] 4.

Definition ex_fawa : FawaConfig :=
  mkFawaConfig 4 0 0 true true 0 [1] {[2]} (gc_metas ex_classes) true (Some 0) (Some 1)
    (λ _, Ok ["a"; "b"; "c"; "d"]%string).

Definition ex_fawa_world : RefStore :=
  mkRefStore {[(0, "a"%string); (0, "b"%string); (0, "c"%string); (1, "a"%string); (1, "b"%string)]}
    ∅ ∅ [] None.

Definition ex_fawa_req : Request := ex_request [1; 2; 3; 4; 5; 6; 7; 8; 9; 10; 11; 12; 13; 14; 15; 16; 17].


Lemma v41_groups_fit_witness :
  groups_wf ex_fawa 3 ∧ ∃ meta, group_metas ex_fawa !! 1 = Some meta ∧ window_fits ex_fawa meta.
Proof.
  destruct (v41_groups_fit ex_flags {[2]} ex_fawa ex_groups ex_classes) as [Hwf Hall];
    [reflexivity|reflexivity|reflexivity|reflexivity| |vm_compute; reflexivity|].
  - repeat constructor; simpl; try lia; try (intros w [= <-]; simpl; lia).
  - split; [exact Hwf|]. specialize (Hall 1%nat (ex_group 2 (Some 3)) eq_refl). rewrite decide_False in Hall.
    + destruct Hall as (meta & Hm & _ & _ & _ & Hf). exists meta. split; [exact Hm|exact (proj1 (Hf eq_refl))].
    + apply (bool_decide_unpack _). vm_compute. exact I.
Defined.

(** A request with two hits to load. *)
Definition ex_fawa_meta : FAWARequestMeta :=
  mkFawaMeta ["a"; "b"; "c"; "d"]%string 0 2 17 [] 8.

Lemma ex_groups_wf : groups_wf ex_fawa 3.
Proof.
  split; [reflexivity|]. intros gid Hgid.
  assert (gid = 0 ∨ gid = 1 ∨ gid = 2) as [-> |[-> | ->]] by lia; eexists; (split; [reflexivity|]); simpl; lia.
Qed.

Lemma ex_covers rows t :
  length rows = 3%nat →
  bool_decide (Forall2 (λ l b, t ≤ zlen l * b) rows [4; 2; 8]) = true →
  covers ex_fawa rows t.
Proof.
  intros Hlen Hb%bool_decide_eq_true i l g Hl Hg.
  destruct (Forall2_lookup_l _ _ _ _ _ Hb Hl) as (b & Hlb & Hle).
  destruct i as [|[|[|i]]]; simpl in Hlb; simplify_eq; vm_compute in Hg; simplify_eq; done.
Qed.

Lemma fawa_plan_rows_witness :
  ∃ meta' d, fawa_generate_dispatch_meta ex_fawa 8 [[10; 11; 12; 13]; [20; 21; 22; 23; 24; 25; 26; 27]; [30; 31]]
      true (Some 8) ex_fawa_meta = (meta', Ok d) ∧
    wa_row (mkGroupMeta 1 2 2 4) [20; 21; 22; 23; 24; 25; 26; 27] 8 (default [] (load_vllm_block_ids d !! 1%nat)) ∧
    dump_vllm_block_ids d !! 1%nat = Some [24; 25; 26; 27].
Proof.
  destruct (fawa_plan_rows ex_fawa ltac:(simpl; lia) 3 ex_fawa_meta 8
    [[10; 11; 12; 13]; [20; 21; 22; 23; 24; 25; 26; 27]; [30; 31]] true (Some 8) 1 [20; 21; 22; 23; 24; 25; 26; 27]
    (mkGroupMeta 1 2 2 4)) as (meta' & d & E & _ & _ & _ & _ & Hw).
  - exact ex_groups_wf.
  - reflexivity.
  - reflexivity.
  - simpl; lia.
  - simpl; lia.
  - simpl; lia.
  - simpl; lia.
  - apply ex_covers; vm_compute; reflexivity.
  - intros _. apply ex_covers; vm_compute; reflexivity.
  - reflexivity.
  - reflexivity.
  - apply (bool_decide_unpack _). vm_compute. exact I.
  - exists meta', d. split; [exact E|]. split.
    + destruct Hw as [Hw _]; [left|]. apply Hw; [reflexivity|simpl; lia|].
      unfold window_fits. simpl. split_and!; try lia. by exists 2.
    + revert E. vm_compute. intros [= _ <-]. reflexivity.
Defined.
