(* ===== verification/FawaWorker.v ===== *)
(** * Worker side of the FAWA connector

    Model of the worker half of [UCMFAWAConnector]
    (src/ucm/integration/vllm/hma_connector.py): transfers between the KV cache
    groups and the FA and WA stores.  The state extends that of the direct
    connector, whose methods it inherits.

    Asynchronous loads are waited for by the threads of a [ThreadPoolExecutor].
    A future is an entry of a list: a queued call of [store.wait(task)], or its
    outcome.  [run_wait] is the step of a pool thread; it may happen between any
    two calls of the connector.  [submit] always succeeds.  Logging and metrics
    are left out; the byte counters are returned. *)

From Stdlib Require Import ZArith Lia.
From stdpp Require Import base list gmap strings numbers fin_sets.
From S2P Require Import Prelude.
From S2P Require Import Store.
From S2P Require Import RankConsistency.
From S2P Require Import RequestHasher.
From S2P Require Import DirectScheduler.
From S2P Require Import DirectWorker.
From S2P Require Import KVCacheLayout.
From S2P Require Import FawaLayout.
From S2P Require Import FawaScheduler.
Local Open Scope Z_scope.

(** ** Data *)

Inductive store_label := FA | WA.

#[export] Instance store_label_eq_dec : EqDecision store_label.
Proof. solve_decision. Defined.

Record FAWALoadTask := mkFawaLoad {
  lt_request_id : req_id;
  lt_label : store_label;
  lt_store : store_id;
  lt_task : task;
  lt_key_count : Z;
  wait_future : option nat;
}.

Record FAWAPendingLoad := mkFawaPending {
  fp_tasks : list FAWALoadTask;
  fp_failed : bool;
  successful_bytes : Z;
}.

Record FAWADumpTask := mkFawaDump {
  dt_label : store_label;
  dt_store : store_id;
  dt_task : task;
  dt_key_count : Z;
  dt_event_handle : Z;
}.

(** A future of the pool: the call, and its outcome once it ran. *)
Record pool_future := mkFuture { pf_store : store_id; pf_task : task; pf_result : option (outcome unit) }.

Record FawaWorkerConfig := mkFawaWorkerConfig {
  fw_cfg : WorkerConfig;
  fw_fawa : FawaConfig;
  fw_fa_group_ids : list Z;
  group_layouts : gmap Z (GroupLayoutConfig * list group_view);
  file_size : store_label → Z;
  legacy_engine : bool;   (* [KVConnectorTransferResults is None] *)
}.

Record FawaWorker := mkFawaWorker {
  fw_worker : WorkerState;
  fw_metadata : UCMFAWAConnectorMetadata;
  _pending_fawa_loads : list (req_id * FAWAPendingLoad);
  _failed_fawa_loads : gset string;
  tp_dump_tasks : list (list req_id * list FAWADumpTask);
  futures : list pool_future;
}.

Definition set_fw_worker v (s : FawaWorker) :=
  mkFawaWorker v (fw_metadata s) (_pending_fawa_loads s) (_failed_fawa_loads s) (tp_dump_tasks s) (futures s).
Definition set_fw_pending v (s : FawaWorker) :=
  mkFawaWorker (fw_worker s) (fw_metadata s) v (_failed_fawa_loads s) (tp_dump_tasks s) (futures s).
Definition set_fw_failed v (s : FawaWorker) :=
  mkFawaWorker (fw_worker s) (fw_metadata s) (_pending_fawa_loads s) v (tp_dump_tasks s) (futures s).
Definition set_fw_dumps v (s : FawaWorker) :=
  mkFawaWorker (fw_worker s) (fw_metadata s) (_pending_fawa_loads s) (_failed_fawa_loads s) v (futures s).
Definition set_fw_futures v (s : FawaWorker) :=
  mkFawaWorker (fw_worker s) (fw_metadata s) (_pending_fawa_loads s) (_failed_fawa_loads s)
    (tp_dump_tasks s) v.

(** ** numpy on matrices of addresses *)

Abbreviation matrix := (list (list Z)).

(** [np.concatenate(ms, axis=1)] *)
Definition np_concatenate1 (ms : list matrix) : outcome matrix :=
  match ms with
  | [] => Raise ValueError
  | m :: rest =>
      foldl (λ acc m', a ← acc;
        if bool_decide (length (a : matrix) = length (m' : matrix))
        then Ok (zip_with (λ x y, x ++ y) a m') else Raise ValueError)
        (Ok m) rest
  end.

(** [np.vstack(ms)] *)
Definition np_vstack (ms : list matrix) : outcome matrix :=
  match concat ms with
  | [] => Raise ValueError
  | r :: rest =>
      if forallb (λ r' : list Z, Nat.eqb (length r') (length r)) rest then Ok (r :: rest) else Raise ValueError
  end.

(** [l.reshape(rows, -1)] and [l.reshape(-1, cols)] of a flat array. *)
Definition np_reshape {A} (rows cols : Z) (l : list A) : list (list A) :=
  reshape (replicate (Z.to_nat rows) (Z.to_nat cols)) l.

Definition reshape_rows {A} (rows : Z) (l : list A) : outcome (list (list A)) :=
  if rows <=? 0 then Raise ValueError
  else if negb (zlen l mod rows =? 0) then Raise ValueError
  else Ok (np_reshape rows (zlen l / rows) l).

Definition reshape_cols {A} (cols : Z) (l : list A) : outcome (list (list A)) :=
  if cols <=? 0 then Raise ValueError
  else if negb (zlen l mod cols =? 0) then Raise ValueError
  else Ok (np_reshape (zlen l / cols) cols l).

(** [d[k]] of a tuple at a group id. *)
Definition group_row (rows : list (list Z)) (gid : Z) : outcome (list Z) :=
  match rows !! Z.to_nat gid with Some r => Ok r | None => Raise IndexError end.

Section addresses.
Variable cfg : FawaWorkerConfig.

Definition meta_of (gid : Z) : outcome KVCacheGroupMeta :=
  match group_metas (fw_fawa cfg) !! gid with Some g => Ok g | None => Raise KeyError end.

(** The loop of [_extract_fa_ptr]; [positions] are the positions of the hash
    blocks in the request. *)
Fixpoint fa_group_ptrs (gids : list Z) (candidate_vllm_ids : list (list Z)) (positions : list Z) :
    outcome (list matrix) :=
  match gids with
  | [] => Ok []
  | gid :: rest =>
      match group_layouts cfg !! gid with
      | None => fa_group_ptrs rest candidate_vllm_ids positions
      | Some (lc, views) =>
          g ← meta_of gid;
          row ← group_row candidate_vllm_ids gid;
          ids ← as_uint64 row;
          let hbs := hash_block_size (fw_fawa cfg) in
          m ← (if hbs =? token_block_size g then Ok (extract_addrs views ids)
               else extract_addrs_with_offsets lc offset_addr_f64 views ids (token_block_size g)
                      ((λ p, (p * hbs) mod token_block_size g) <$> positions));
          ms ← fa_group_ptrs rest candidate_vllm_ids positions;
          Ok (m :: ms)
      end
  end.

Definition _extract_fa_ptr (candidate_vllm_ids : list (list Z)) (positions : list Z) : outcome matrix :=
  ms ← fa_group_ptrs (fw_fa_group_ids cfg) candidate_vllm_ids positions;
  np_concatenate1 ms.

Fixpoint wa_group_ptrs (gids : list Z) (keys : Z) (vllm_ids : list (list Z)) : outcome (list matrix) :=
  match gids with
  | [] => Ok []
  | gid :: rest =>
      match group_layouts cfg !! gid with
      | None => wa_group_ptrs rest keys vllm_ids
      | Some (lc, views) =>
          g ← meta_of gid;
          if tail_tokens g =? 0 then wa_group_ptrs rest keys vllm_ids
          else
            row ← group_row vllm_ids gid;
            ids ← as_uint64 row;
            m ← (if (tail_blocks g =? 1) && (tail_tokens g <? token_block_size g)
                 then extract_addrs_with_offsets lc offset_addr views ids (token_block_size g)
                        (replicate (length ids) (token_block_size g - tail_tokens g))
                 else reshape_rows keys (concat (extract_addrs views ids)));
            ms ← wa_group_ptrs rest keys vllm_ids;
            Ok (m :: ms)
      end
  end.

Definition _extract_wa_ptr (keys : list bytes) (vllm_ids : list (list Z)) : outcome matrix :=
  ms ← wa_group_ptrs (window_group_ids (fw_fawa cfg)) (zlen keys) vllm_ids;
  np_concatenate1 ms.

(** ** What a rank dumps *)

(** The local variables of [wait_for_save]. *)
Record fawa_dumps := mkFawaDumps {
  fa_dump_keys : list bytes;
  wa_dump_keys : list bytes;
  fa_ptr_rows : list matrix;
  wa_ptr_rows : list matrix;
  fd_request_ids : list req_id;
  fa_dump_blocks : gmap string (gset string);
  wa_dump_blocks : gmap string (gset string);
  wa_dump_ring_idx : Z;
}.

Definition add_fa (id : req_id) (keys : list bytes) (m : matrix) (l : fawa_dumps) : fawa_dumps :=
  mkFawaDumps (fa_dump_keys l ++ keys) (wa_dump_keys l) (fa_ptr_rows l ++ [m]) (wa_ptr_rows l)
    (fd_request_ids l) (<[id := list_to_set keys]> (fa_dump_blocks l)) (wa_dump_blocks l)
    (wa_dump_ring_idx l).
Definition add_wa (id : req_id) (keys : list bytes) (m : matrix) (l : fawa_dumps) : fawa_dumps :=
  mkFawaDumps (fa_dump_keys l) (wa_dump_keys l ++ keys) (fa_ptr_rows l) (wa_ptr_rows l ++ [m])
    (fd_request_ids l) (fa_dump_blocks l) (<[id := list_to_set keys]> (wa_dump_blocks l))
    (wa_dump_ring_idx l).
Definition add_dump_request (id : req_id) (l : fawa_dumps) : fawa_dumps :=
  mkFawaDumps (fa_dump_keys l) (wa_dump_keys l) (fa_ptr_rows l) (wa_ptr_rows l)
    (fd_request_ids l ++ [id]) (fa_dump_blocks l) (wa_dump_blocks l) (wa_dump_ring_idx l).
Definition next_ring (l : fawa_dumps) : fawa_dumps :=
  mkFawaDumps (fa_dump_keys l) (wa_dump_keys l) (fa_ptr_rows l) (wa_ptr_rows l)
    (fd_request_ids l) (fa_dump_blocks l) (wa_dump_blocks l) (wa_dump_ring_idx l + 1).

(** [request.dump_keys[-1:]] *)
Definition last_key (keys : list bytes) : list bytes := py_slice_from (-1) keys.

(** The rows of [dump_vllm_block_ids] with those of some groups replaced. *)
Fixpoint map_groups (f : Z → list Z → outcome (list Z)) (gid : Z) (rows : list (list Z)) :
    outcome (list (list Z)) :=
  match rows with
  | [] => Ok []
  | r :: rest => r' ← f gid r; rest' ← map_groups f (gid + 1) rest; Ok (r' :: rest')
  end.

(** A rank's part of the rows of WA groups, [tail_blocks] entries to a key. *)
Definition wa_rank_rows (first step : Z) (rows : list (list Z)) : outcome (list (list Z)) :=
  map_groups (λ gid r,
    if decide (gid ∈ window_group_ids (fw_fawa cfg)) then
      g ← meta_of gid;
      m ← reshape_cols (tail_blocks g) r;
      Ok (concat (py_slice_step first step (m : list (list Z))))
    else Ok r) 0 rows.

(** The loop body with several TP ranks. *)
Definition add_request_tp (id : req_id) (request : FAWARequestDispatchMeta) (l : fawa_dumps) :
    outcome fawa_dumps :=
  let l := add_dump_request id l in
  let '(first, step) := _get_mla_dump_slice (fw_cfg cfg) (dump_hash_start request) in
  let tp_dump_keys := py_slice_step first step (dump_keys request) in
  l ← (if bool_decide (tp_dump_keys = []) then Ok l
       else
         rows ← map_groups (λ gid r,
                  Ok (if decide (gid ∈ fw_fa_group_ids cfg) then py_slice_step first step r else r))
                  0 (dump_vllm_block_ids request);
         m ← _extract_fa_ptr rows
               (py_slice_step first step (arange (dump_hash_start request) (dump_hash_end request)));
         Ok (add_fa id tp_dump_keys m l));
  if bool_decide (window_group_ids (fw_fawa cfg) = []) then Ok l
  else
    l ← (if wa_dump_block_wise (fw_fawa cfg) then
           if bool_decide (tp_dump_keys = []) then Ok l
           else
             rows ← wa_rank_rows first step (dump_vllm_block_ids request);
             m ← _extract_wa_ptr tp_dump_keys rows;
             Ok (add_wa id tp_dump_keys m l)
         else if wa_dump_ring_idx l mod tp_size (fw_cfg cfg) =? tp_rank (fw_cfg cfg) then
           m ← _extract_wa_ptr (last_key (dump_keys request)) (dump_vllm_block_ids request);
           Ok (add_wa id (last_key (dump_keys request)) m l)
         else Ok l);
    Ok (next_ring l).

(** The loop body with one rank. *)
Definition add_request_single (id : req_id) (request : FAWARequestDispatchMeta) (l : fawa_dumps) :
    outcome fawa_dumps :=
  let l := add_dump_request id l in
  m ← _extract_fa_ptr (dump_vllm_block_ids request)
        (arange (dump_hash_start request) (dump_hash_end request));
  let l := add_fa id (dump_keys request) m l in
  if bool_decide (window_group_ids (fw_fawa cfg) = []) then Ok l
  else
    let keys := if wa_dump_block_wise (fw_fawa cfg) then dump_keys request
                else last_key (dump_keys request) in
    m ← _extract_wa_ptr keys (dump_vllm_block_ids request);
    Ok (add_wa id keys m l).

Fixpoint collect_fawa_dumps (requests : list (req_id * FAWARequestDispatchMeta)) (l : fawa_dumps) :
    outcome fawa_dumps :=
  match requests with
  | [] => Ok l
  | (id, request) :: rest =>
      if bool_decide (dump_keys request = []) then collect_fawa_dumps rest l
      else
        l' ← (if 1 <? tp_size (fw_cfg cfg) then add_request_tp id request l
              else add_request_single id request l);
        collect_fawa_dumps rest l'
  end.

Definition no_dumps : fawa_dumps := mkFawaDumps [] [] [] [] [] ∅ ∅ 0.
End addresses.

Section worker.
Context {W D : Type} `{StoreWorld W} `{DeviceWorld D} `{PySetOrder}.
Variable cfg : FawaWorkerConfig.

Abbreviation state := (FawaWorker * D * (RankConsistencyManager * W))%type.

Definition on_fawa_worker (f : FawaWorker → FawaWorker) : M state unit :=
  modify (λ s, (f s.1.1, s.1.2, s.2)).
Definition direct {A} (m : M (WorkerState * D * (RankConsistencyManager * W)) A) : M state A :=
  zoom (λ s, (fw_worker s.1.1, s.1.2, s.2)) (λ t s, (set_fw_worker t.1.1 s.1.1, t.1.2, t.2)) m.
Definition manager {A} (m : M (RankConsistencyManager * W) A) : M state A := zoom snd (λ r s, (s.1, r)) m.

Definition fawa_bind_connector_metadata (md : UCMFAWAConnectorMetadata) : M state unit :=
  on_fawa_worker (λ s, mkFawaWorker (fw_worker s) md (_pending_fawa_loads s) (_failed_fawa_loads s)
    (tp_dump_tasks s) (futures s)).

(** ** Loading *)

Definition _submit_load_task (id : req_id) (label : store_label) (store : store_id) (keys : list bytes)
    (ptrs : matrix) : M state FAWALoadTask :=
  t ← manager (submit_load store {[id := keys]} keys (replicate (length keys) 0) ptrs (is_mla (fw_cfg cfg)));
  mret (mkFawaLoad id label store t (zlen keys) None).

Definition _get_request_all_block_ids (md : UCMFAWAConnectorMetadata) (id : req_id) : list Z :=
  match od_get id (fawa_request_meta md) with
  | None => []
  | Some request => concat (load_vllm_block_ids request) ++ concat (dump_vllm_block_ids request)
  end.

Definition _handle_load_err (id : req_id) : M state unit :=
  s ← get_state;
  direct (_record_load_error (_get_request_all_block_ids (fw_metadata s.1.1) id)) ;;
  direct (worker_mark_failed id).

Definition _wait_load_task (t : FAWALoadTask) : M state bool :=
  try_except (manager (wait_load (lt_task t) None) ;; mret true)
    (λ _, _handle_load_err (lt_request_id t) ;; mret false).

(** The [try] body of [start_load_kv]: the tasks submitted, and whether all were. *)
Definition submit_request_loads (id : req_id) (request : FAWARequestDispatchMeta) :
    M state (list FAWALoadTask * bool) :=
  fa ← try_except
    (stores ← fawa_stores (fw_fawa cfg);
     ptrs ← lift_outcome (_extract_fa_ptr cfg (load_vllm_block_ids request)
              (arange (load_hash_start request) (load_hash_end request)));
     t ← _submit_load_task id FA (stores : store_id * option store_id).1 (load_keys request) ptrs;
     mret (Some t))
    (λ _, mret None);
  match fa with
  | None => mret ([], false)
  | Some fa_task =>
      if bool_decide (window_group_ids (fw_fawa cfg) = []) then mret ([fa_task], true)
      else
        wa ← try_except
          (ptrs ← lift_outcome (_extract_wa_ptr cfg (last_key (load_keys request))
                    (load_vllm_block_ids request));
           match wa_store (fw_fawa cfg) with
           | None => raise RuntimeError
           | Some st =>
               t ← _submit_load_task id WA st (last_key (load_keys request)) ptrs; mret (Some t)
           end)
          (λ _, mret None);
        match wa with
        | None => mret ([fa_task], false)
        | Some wa_task => mret ([fa_task; wa_task], true)
        end
  end.

Definition set_pending (id : req_id) (p : FAWAPendingLoad) : M state unit :=
  on_fawa_worker (λ s, set_fw_pending (od_set id p (_pending_fawa_loads s)) s).

(** The loop body, for a request with keys to load; the tasks it adds to [tasks]. *)
Definition load_fawa_request (id : req_id) (request : FAWARequestDispatchMeta) :
    M state (list FAWALoadTask) :=
  s ← get_state;
  if fd_load_async request && bool_decide (is_Some (od_get id (_pending_fawa_loads s.1.1))) then mret []
  else
    r ← submit_request_loads id request;
    (if fd_load_async request then
       if (r : list FAWALoadTask * bool).2 then set_pending id (mkFawaPending r.1 false 0)
       else if bool_decide (r.1 = []) then
         direct (finish_async_load id) ;;
         on_fawa_worker (λ s, set_fw_failed ({[id]} ∪ _failed_fawa_loads s) s) ;;
         direct (worker_mark_failed id)
       else set_pending id (mkFawaPending r.1 true 0)
     else if r.2 then mret tt else _handle_load_err id) ;;
    mret r.1.

Fixpoint load_fawa_requests (requests : list (req_id * FAWARequestDispatchMeta)) (tasks : list FAWALoadTask) :
    M state (list FAWALoadTask) :=
  match requests with
  | [] => mret tasks
  | (id, request) :: rest =>
      if bool_decide (load_keys request = []) then load_fawa_requests rest tasks
      else ts ← load_fawa_request id request; load_fawa_requests rest (tasks ++ ts)
  end.

(** [executor.submit(load_task.store.wait, load_task.task)] for the tasks that have
    no future yet. *)
Fixpoint start_waits (tasks : list FAWALoadTask) (fs : list pool_future) : list FAWALoadTask * list pool_future :=
  match tasks with
  | [] => ([], fs)
  | t :: rest =>
      match wait_future t with
      | Some _ => let '(ts, fs') := start_waits rest fs in (t :: ts, fs')
      | None =>
          let '(ts, fs') := start_waits rest (fs ++ [mkFuture (lt_store t) (lt_task t) None]) in
          (mkFawaLoad (lt_request_id t) (lt_label t) (lt_store t) (lt_task t) (lt_key_count t)
             (Some (length fs)) :: ts, fs')
      end
  end.

Fixpoint start_all_waits (pending : list (req_id * FAWAPendingLoad)) (fs : list pool_future) :
    list (req_id * FAWAPendingLoad) * list pool_future :=
  match pending with
  | [] => ([], fs)
  | (id, p) :: rest =>
      let '(ts, fs1) := start_waits (fp_tasks p) fs in
      let '(rest', fs2) := start_all_waits rest fs1 in
      ((id, mkFawaPending ts (fp_failed p) (successful_bytes p)) :: rest', fs2)
  end.

(** Returns what is added to [load_bytes_total]. *)
Fixpoint wait_all_load_task (tasks : list FAWALoadTask) (load_bytes : Z) : M state Z :=
  match tasks with
  | [] => mret load_bytes
  | t :: rest =>
      ok ← _wait_load_task t;
      wait_all_load_task rest (if ok : bool then load_bytes + lt_key_count t * file_size cfg (lt_label t)
                               else load_bytes)
  end.

(** The tasks of the requests that load synchronously, request by request. *)
Definition sync_tasks (md : UCMFAWAConnectorMetadata) (tasks : list FAWALoadTask) : list FAWALoadTask :=
  p ← fawa_request_meta md;
  if fd_load_async p.2 then [] else filter (λ t, lt_request_id t = p.1) tasks.

Definition fawa_start_load_kv : M state (option Z) :=
  s ← get_state;
  let md := fw_metadata s.1.1 in
  (if is_v41_layout (fw_fawa cfg)
      && existsb (λ p : req_id * FAWARequestDispatchMeta, negb (bool_decide (load_keys p.2 = [])))
           (fawa_request_meta md)
   then direct (on_device synchronize) else mret tt) ;;
  tasks ← load_fawa_requests (fawa_request_meta md) [];
  on_fawa_worker (λ s,
    let '(pending, fs) := start_all_waits (_pending_fawa_loads s) (futures s) in
    set_fw_futures fs (set_fw_pending pending s)) ;;
  let sync := sync_tasks md tasks in
  load_bytes ← wait_all_load_task sync 0;
  mret (if bool_decide (sync = []) then None else Some load_bytes).

(** A thread of the pool takes the [i]-th call from the queue and runs it. *)
Definition run_wait (i : nat) : M state unit :=
  s ← get_state;
  match futures s.1.1 !! i with
  | Some (mkFuture st t None) =>
      r ← try_except (manager (on_world (store_wait st t)) ;; mret (Ok tt)) (λ e, mret (Raise e));
      on_fawa_worker (λ s, set_fw_futures (<[i := mkFuture st t (Some r)]> (futures s)) s)
  | _ => mret tt
  end.

(** The outcome of a task's future, if it is done. *)
Definition future_result (fs : list pool_future) (t : FAWALoadTask) : option (outcome unit) :=
  i ← wait_future t; f ← fs !! i; pf_result f.

(** The loop over the tasks of one pending load: those left, and the load's flags. *)
Fixpoint poll_fawa_tasks (tasks remaining : list FAWALoadTask) (failed : bool) (loaded : Z) :
    M state (FAWAPendingLoad) :=
  match tasks with
  | [] => mret (mkFawaPending remaining failed loaded)
  | t :: rest =>
      s ← get_state;
      match future_result (futures s.1.1) t with
      | None => poll_fawa_tasks rest (remaining ++ [t]) failed loaded
      | Some r =>
          ok ← try_except (manager (wait_load (lt_task t) (Some (lift_outcome r))) ;; mret true)
                 (λ _, mret false);
          if ok : bool
          then poll_fawa_tasks rest remaining failed (loaded + lt_key_count t * file_size cfg (lt_label t))
          else poll_fawa_tasks rest remaining true loaded
      end
  end.

(** Returns [finished] and what is added to [load_bytes_total]. *)
Fixpoint poll_fawa_loads (pending : list (req_id * FAWAPendingLoad)) (finished : gset string) (bytes_total : Z) :
    M state (gset string * Z) :=
  match pending with
  | [] => mret (finished, bytes_total)
  | (id, p) :: rest =>
      p' ← poll_fawa_tasks (fp_tasks p) [] (fp_failed p) (successful_bytes p);
      if bool_decide (fp_tasks p' = []) then
        on_fawa_worker (λ s, set_fw_pending (od_del id (_pending_fawa_loads s)) s) ;;
        (if fp_failed p' then
           on_fawa_worker (λ s, set_fw_failed ({[id]} ∪ _failed_fawa_loads s) s) ;;
           direct (worker_mark_failed id)
         else mret tt) ;;
        poll_fawa_loads rest ({[id]} ∪ finished)
          (if fp_failed p' then bytes_total else bytes_total + successful_bytes p')
      else
        set_pending id p' ;;
        poll_fawa_loads rest finished bytes_total
  end.

Definition _poll_pending_fawa_loads : M state (gset string * Z) :=
  s ← get_state;
  direct (on_worker (set_finished_loads ∅)) ;;
  poll_fawa_loads (_pending_fawa_loads s.1.1) (_finished_async_load_req_ids (fw_worker s.1.1)) 0.

(** [executor.shutdown(wait=True)]: every call in the queue runs. *)
Definition fawa_shutdown : M state unit :=
  s ← get_state;
  for_each (seq 0 (length (futures s.1.1))) run_wait.

(** ** Dumping *)

(** [try: m  except Exception: log  finally: destroy_event_handle]. *)
Definition wait_dump_task (t : FAWADumpTask) : M state unit :=
  try_finally (try_except (manager (wait_dump (dt_task t))) (λ _, mret tt))
    (direct (on_device (destroy_event_handle (dt_event_handle t)))).

Fixpoint poll_dump_batch (tasks in_flight : list FAWADumpTask) : M state (list FAWADumpTask) :=
  match tasks with
  | [] => mret in_flight
  | t :: rest =>
      finished ← try_except (manager (on_world (store_check (dt_store t) (dt_task t)))) (λ _, mret false);
      if finished : bool then wait_dump_task t ;; poll_dump_batch rest in_flight
      else poll_dump_batch rest (in_flight ++ [t])
  end.

Fixpoint poll_dump_batches (batches : list (list req_id * list FAWADumpTask)) : M state unit :=
  match batches with
  | [] => mret tt
  | (ids, tasks) :: rest =>
      in_flight ← poll_dump_batch tasks [];
      (if bool_decide (in_flight = [])
       then on_fawa_worker (λ s, set_fw_dumps (od_del ids (tp_dump_tasks s)) s)
       else on_fawa_worker (λ s, set_fw_dumps (od_set ids in_flight (tp_dump_tasks s)) s)) ;;
      poll_dump_batches rest
  end.

Definition _poll_completed_dump_tasks : M state unit :=
  s ← get_state; poll_dump_batches (tp_dump_tasks s.1.1).

(** [request_ids.intersection(chunk_request_ids)] is not empty. *)
Definition batch_touches (request_ids : option (gset string)) (ids : list req_id) : bool :=
  match request_ids with
  | None => true
  | Some r => bool_decide (r ∩ list_to_set ids ≠ ∅)
  end.

Definition _drain_best_effort_dump_tasks (request_ids : option (gset string)) : M state unit :=
  if match request_ids with Some r => bool_decide (r = ∅) | None => false end then mret tt
  else
    s ← get_state;
    let hit := filter (λ b, batch_touches request_ids b.1) (tp_dump_tasks s.1.1) in
    for_each (concat hit.*2) wait_dump_task ;;
    on_fawa_worker (λ s, set_fw_dumps (foldl (λ d ids, od_del ids d) (tp_dump_tasks s) hit.*1) s).

Definition fawa_handle_preemptions : M state unit := _drain_best_effort_dump_tasks None.

(** [_submit_dump_task] and the statements around its two calls; the bytes saved. *)
Definition submit_fawa_dump (label : store_label) (store : store_id) (keys : list bytes) (rows : list matrix)
    (blocks : gmap string (gset string)) (ids : list req_id) : M state Z :=
  if bool_decide (keys = []) then mret 0
  else
    h ← direct (_get_dump_event_handle (fw_cfg cfg));
    ptrs ← lift_outcome (np_vstack rows);
    try_except
      (t ← manager (submit_dump store blocks keys (replicate (length keys) 0) ptrs h);
       on_fawa_worker (λ s, set_fw_dumps
         (od_set ids (default [] (od_get ids (tp_dump_tasks s)) ++
                      [mkFawaDump label store t (zlen keys) h]) (tp_dump_tasks s)) s) ;;
       mret (zlen keys * file_size cfg label))
      (λ _, direct (on_device (destroy_event_handle h)) ;; mret 0).

(** Returns what is added to [save_bytes_total]. *)
Definition fawa_wait_for_save : M state (option Z) :=
  stores ← fawa_stores (fw_fawa cfg);
  _poll_completed_dump_tasks ;;
  s ← get_state;
  l ← lift_outcome (collect_fawa_dumps cfg (fawa_request_meta (fw_metadata s.1.1)) no_dumps);
  fa_bytes ← submit_fawa_dump FA (stores : store_id * option store_id).1 (fa_dump_keys l) (fa_ptr_rows l)
               (fa_dump_blocks l) (fd_request_ids l);
  wa_bytes ← (match stores.2 with
              | Some wa => submit_fawa_dump WA wa (wa_dump_keys l) (wa_ptr_rows l) (wa_dump_blocks l)
                             (fd_request_ids l)
              | None => mret 0
              end);
  mret (if bool_decide (fa_dump_keys l = []) && bool_decide (wa_dump_keys l = []) then None
        else Some (fa_bytes + wa_bytes)).

(** ** Reporting *)

Definition fawa_get_finished (finished_req_ids : gset string) :
    M state (option (gset string) * option (gset string)) :=
  s ← get_state;
  let pending_async_loads : gset string := list_to_set (_pending_fawa_loads s.1.1).*1 in
  r ← _poll_pending_fawa_loads;
  let finished_recving := (r : gset string * Z).1 in
  s ← get_state;
  if legacy_engine cfg && negb (bool_decide (_failed_fawa_loads s.1.1 = ∅)) then raise RuntimeError
  else
    _drain_best_effort_dump_tasks (Some finished_req_ids) ;;
    manager (finish_dump finished_req_ids) ;;
    let finished_sending := finished_req_ids ∖ pending_async_loads ∖ finished_recving in
    mret (or_none finished_sending, or_none finished_recving).

Record transfer_results := mkTransfer {
  finished_sending : gset string;
  finished_recving : gset string;
  failed_recving : gset string;
}.

Definition get_transfer_results (finished_req_ids : gset string) : M state transfer_results :=
  r ← fawa_get_finished finished_req_ids;
  s ← get_state;
  let '(sending, recving) := r in
  let failed := _failed_fawa_loads s.1.1 ∩ default ∅ recving in
  on_fawa_worker (λ s, set_fw_failed (_failed_fawa_loads s ∖ failed) s) ;;
  mret (mkTransfer (default ∅ sending) (default ∅ recving) failed).

Definition request_finished_all_groups : bool := true.
End worker.
