(* ===== verification/FawaDumpSplit.v ===== *)
(** * Splitting the FAWA dumps over the TP ranks: correctness

    With several TP ranks every rank dumps a part of the rows of a step
    ([wait_for_save] of src/ucm/integration/vllm/hma_connector.py).  Together the
    ranks dump what a single rank would: every key once, with the addresses of
    its own blocks. *)

From Stdlib Require Import ZArith Lia.
From stdpp Require Import base list gmap strings numbers fin_sets.
From S2P Require Import Prelude.
From S2P Require Import Store.
From S2P Require Import RankConsistency.
From S2P Require Import DirectScheduler.
From S2P Require Import DirectWorker.
From S2P Require Import WorkerDumps.
From S2P Require Import KVCacheLayout.
From S2P Require Import KVCacheLayoutFacts.
From S2P Require Import FawaLayout.
From S2P Require Import FawaScheduler.
From S2P Require Import FawaFacts.
From S2P Require Import FawaWorker.
Local Open Scope Z_scope.

(** ** Strided slices *)

Section strides.
Context {A B C : Type}.

Lemma stride_fmap (f : A → B) (k n : nat) (l : list A) :
  stride_from k n (f <$> l) = f <$> stride_from k n l.
Proof.
  revert k. induction l as [|x l IH]; intros k; simpl; [done|].
  destruct k; csimpl; by rewrite IH.
Qed.

Lemma stride_zip_with (f : A → B → C) (k n : nat) (l : list A) (l' : list B) :
  stride_from k n (zip_with f l l') = zip_with f (stride_from k n l) (stride_from k n l').
Proof.
  revert k l'. induction l as [|x l IH]; intros k l'; [done|].
  destruct l' as [|y l']; simpl; [by rewrite zip_with_nil_r|].
  destruct k; simpl; by rewrite IH.
Qed.

Lemma stride_length (k n : nat) (l : list A) (l' : list B) :
  length l = length l' → length (stride_from k n l) = length (stride_from k n l').
Proof.
  revert k l'. induction l as [|x l IH]; intros k [|y l']; simpl; try done.
  intros [= E]. destruct k; simpl; [f_equal|]; by apply IH.
Qed.

(** The [n] strides of a list share its elements out. *)
Lemma strides_perm (n : nat) (l : list A) :
  (0 < n)%nat → concat ((λ k, stride_from k n l) <$> seq 0 n) ≡ₚ l.
Proof.
  intros Hn. induction l as [|x l IH].
  - induction (seq 0 n); [done|]. csimpl. done.
  - transitivity (x :: concat ((λ k, stride_from k n l) <$> seq 0 n)); [|by constructor].
    clear IH. destruct n as [|n]; [lia|].
    transitivity (x :: concat ((λ k, stride_from k (S n) l) <$> (seq 0 n ++ [n])));
      [|by rewrite seq_S].
    rewrite <- (cons_seq n 0), <- fmap_S_seq, fmap_app, concat_app. csimpl.
    rewrite <- list_fmap_compose, Nat.sub_0_r, app_nil_r.
    constructor. by rewrite Permutation_app_comm.
Qed.

Lemma concat_fmap_app (f g : A → list B) (l : list A) :
  concat ((λ x, f x ++ g x) <$> l) ≡ₚ concat (f <$> l) ++ concat (g <$> l).
Proof.
  induction l as [|x l IH]; csimpl; [done|]. rewrite IH. solve_Permutation.
Qed.

Lemma concat_fmap_perm (f : A → list B) (l l' : list A) :
  l ≡ₚ l' → concat (f <$> l) ≡ₚ concat (f <$> l').
Proof. induction 1; csimpl; [done|by f_equiv|solve_Permutation|by etrans]. Qed.
End strides.

(** Which stride a rank takes does not matter for the union. *)
Lemma rank_strides_perm {A} (n : nat) (start : Z) (l : list A) :
  (0 < n)%nat →
  concat ((λ r : nat, stride_from (Z.to_nat ((Z.of_nat r - start) mod Z.of_nat n)) n l) <$> seq 0 n) ≡ₚ l.
Proof.
  intros Hn. set (g := λ r : nat, Z.to_nat ((Z.of_nat r - start) mod Z.of_nat n)).
  assert (∀ r, 0 ≤ (Z.of_nat r - start) mod Z.of_nat n < Z.of_nat n) as Hb
    by (intros; apply Z.mod_pos_bound; lia).
  transitivity (concat ((λ k, stride_from k n l) <$> (g <$> seq 0 n))).
  { by rewrite <- list_fmap_compose. }
  transitivity (concat ((λ k, stride_from k n l) <$> seq 0 n)); [|by apply strides_perm].
  apply concat_fmap_perm, submseteq_length_Permutation; [|by rewrite length_fmap].
  apply NoDup_submseteq.
  - apply NoDup_fmap_2_strong; [|apply NoDup_seq]. intros a b Ha%elem_of_seq Hb'%elem_of_seq.
    unfold g. intros E%Z2Nat.inj; [|apply Hb..].
    assert ((Z.of_nat a - Z.of_nat b) mod Z.of_nat n = 0) as Hd.
    { replace (Z.of_nat a - Z.of_nat b) with ((Z.of_nat a - start) - (Z.of_nat b - start)) by lia.
      rewrite Zminus_mod, E, Z.sub_diag. by apply Z.mod_0_l; lia. }
    apply Z.mod_divide in Hd as [q Hq]; [|lia].
    destruct (Z.lt_trichotomy q 0) as [?|[->|?]]; [nia|lia|nia].
  - intros x (r & -> & _)%list_elem_of_fmap. apply elem_of_seq. unfold g. specialize (Hb r). lia.
Qed.

(** A value that one rank holds. *)
Lemma one_rank_concat {A} (n : nat) (i : Z) (l : list A) :
  0 ≤ i < Z.of_nat n → concat ((λ r : nat, if i =? Z.of_nat r then l else []) <$> seq 0 n) = l.
Proof.
  intros Hi. replace n with (Z.to_nat i + S (n - S (Z.to_nat i)))%nat by lia.
  rewrite seq_app, fmap_app, concat_app. csimpl.
  assert (∀ k m, (∀ j, (k ≤ j < k + m)%nat → i ≠ Z.of_nat j) →
    concat ((λ r : nat, if i =? Z.of_nat r then l else []) <$> seq k m) = []) as H0.
  { intros k m. revert k. induction m as [|m IH]; intros k Hk; csimpl; [done|].
    rewrite (proj2 (Z.eqb_neq _ _)) by (apply Hk; lia). apply IH. intros j Hj. apply Hk. lia. }
  rewrite !H0 by lia. rewrite app_nil_r. simpl.
  by rewrite (proj2 (Z.eqb_eq _ _)) by lia.
Qed.

(** ** numpy on slices *)

Lemma reshape_concat {A} (c : nat) (rows : list (list A)) :
  Forall (λ r, length r = c) rows → reshape (replicate (length rows) c) (concat rows) = rows.
Proof.
  induction 1 as [|r rows Hr _ IH]; simpl; [done|].
  rewrite take_app_length' by done. rewrite drop_app_length' by done. by rewrite IH.
Qed.

Lemma concat_length_const {A} (c : nat) (rows : list (list A)) :
  Forall (λ r, length r = c) rows → length (concat rows) = (length rows * c)%nat.
Proof. induction 1 as [|r rows Hr _ IH]; simpl; [done|]. rewrite length_app. lia. Qed.

Lemma reshape_rows_concat {A} (k : Z) (c : nat) (rows : list (list A)) :
  k = zlen rows → 0 < k → Forall (λ r, length r = c) rows →
  reshape_rows k (concat rows) = Ok rows.
Proof.
  intros -> Hk Hc. unfold reshape_rows, np_reshape. rewrite (proj2 (Z.leb_gt _ _)) by done.
  unfold zlen in *. rewrite (concat_length_const c) by done.
  replace (Z.of_nat (length rows * c)) with (Z.of_nat c * Z.of_nat (length rows)) by lia.
  rewrite Z.mod_mul, Z.div_mul by lia. simpl. f_equal.
  rewrite !Nat2Z.id. by apply reshape_concat.
Qed.

(** The [c] entries of each key of a row. *)
Definition chunks {A} (k c : nat) (r : list A) : list (list A) := reshape (replicate k c) r.

Lemma chunks_spec {A} (k c : nat) (r : list A) :
  length r = (k * c)%nat →
  concat (chunks k c r) = r ∧ Forall (λ x, length x = c) (chunks k c r) ∧ length (chunks k c r) = k.
Proof.
  unfold chunks. revert r. induction k as [|k IH]; intros r Hr; simpl.
  - destruct r; [|done]. split_and!; by try constructor.
  - destruct (IH (drop c r)) as (Ec & Hc & Hl); [rewrite length_drop; lia|].
    rewrite Ec, take_drop, Hl. split_and!; [done| |done].
    constructor; [rewrite length_take; lia|done].
Qed.

Lemma reshape_cols_chunks {A} (k : nat) (c : Z) (r : list A) :
  0 < c → length r = (k * Z.to_nat c)%nat → reshape_cols c r = Ok (chunks k (Z.to_nat c) r).
Proof.
  intros Hc Hr. unfold reshape_cols, np_reshape, zlen.
  rewrite (proj2 (Z.leb_gt _ _)), Hr by done.
  replace (Z.of_nat (k * Z.to_nat c)) with (Z.of_nat k * c) by lia.
  rewrite Z.mod_mul, Z.div_mul by lia. simpl. by rewrite Nat2Z.id.
Qed.

Lemma stride_Forall {A} (P : A → Prop) k n l : Forall P l → Forall P (stride_from k n l).
Proof.
  intros Hl. revert k. induction Hl as [|x l Hx _ IH]; intros k; simpl; [constructor|].
  destruct k; [constructor|]; auto.
Qed.

Lemma np_concatenate1_stride (ms : list matrix) (m : matrix) k n :
  np_concatenate1 ms = Ok m → np_concatenate1 (stride_from k n <$> ms) = Ok (stride_from k n m).
Proof.
  destruct ms as [|m0 ms]; [done|]. simpl. revert m0.
  induction ms as [|m1 ms IH]; intros m0; simpl; [by intros [= ->]|].
  case_bool_decide as El; simpl.
  - intros E%IH. rewrite bool_decide_eq_true_2 by by apply stride_length. simpl.
    by rewrite <- stride_zip_with.
  - intros E. exfalso. revert E. clear. by induction ms; simpl; auto.
Qed.

Lemma np_concatenate1_length (ms : list matrix) (m : matrix) c :
  Forall (λ m' : matrix, length m' = c) ms → np_concatenate1 ms = Ok m → length m = c.
Proof.
  destruct ms as [|m0 ms]; [done|]. intros [H0 Hms]%Forall_cons. simpl. revert m0 H0.
  induction Hms as [|m1 ms H1 _ IH]; intros m0 H0; simpl; [by intros [= ->]|].
  case_bool_decide as El; simpl; [|exfalso; lia].
  apply IH. rewrite length_zip_with. lia.
Qed.

(** ** The addresses of a part of the rows *)

Section split.
Variable cfg : FawaWorkerConfig.

(** The keys whose WA rows a request dumps. *)
Definition wa_keys (request : FAWARequestDispatchMeta) : list bytes :=
  if wa_dump_block_wise (fw_fawa cfg) then dump_keys request else last_key (dump_keys request).

(** The rows of a request fit its keys: the FA groups have an entry to a key, the
    WA groups [tail_blocks] entries. *)
Definition dump_rows_fit (request : FAWARequestDispatchMeta) : Prop :=
  Z.of_nat (length (dump_keys request)) = dump_hash_end request - dump_hash_start request ∧
  (∀ gid row, gid ∈ fw_fa_group_ids cfg → dump_vllm_block_ids request !! Z.to_nat gid = Some row →
     length row = length (dump_keys request)) ∧
  (∀ gid row, gid ∈ window_group_ids (fw_fawa cfg) →
     dump_vllm_block_ids request !! Z.to_nat gid = Some row →
     ∃ g, meta_of cfg gid = Ok g ∧ 0 < tail_blocks g ∧
       length row = (length (wa_keys request) * Z.to_nat (tail_blocks g))%nat).

Hypothesis gids_nonneg :
  Forall (λ gid, 0 ≤ gid) (fw_fa_group_ids cfg ++ window_group_ids (fw_fawa cfg)).

Lemma map_groups_ok f (h : Z → list Z → list Z) k rows :
  (∀ i r, rows !! i = Some r → f (k + Z.of_nat i) r = Ok (h (k + Z.of_nat i) r)) →
  ∃ rows', map_groups f k rows = Ok rows' ∧
    ∀ i, rows' !! i = h (k + Z.of_nat i) <$> rows !! i.
Proof.
  revert k. induction rows as [|r rows IH]; intros k Hf; simpl.
  - exists []. split; [done|]. intros i. by rewrite lookup_nil.
  - destruct (IH (k + 1)) as (rows' & -> & Hr).
    { intros i r' Hi. rewrite <- Z.add_assoc. rewrite (Z.add_1_l (Z.of_nat i)), <- Nat2Z.inj_succ.
      by apply (Hf (S i)). }
    pose proof (Hf 0%nat r eq_refl) as H0. simpl in H0. rewrite Z.add_0_r in H0. rewrite H0. simpl.
    eexists. split; [done|]. intros [|i]; simpl; [by rewrite Z.add_0_r|].
    rewrite Hr. do 2 f_equal. lia.
Qed.

Lemma as_uint64_stride l ids k n :
  as_uint64 l = Ok ids → as_uint64 (stride_from k n l) = Ok (stride_from k n ids).
Proof.
  intros [-> H]%as_uint64_Ok. apply as_uint64_Ok. split; [done|]. by apply stride_Forall.
Qed.

Lemma extract_with_offsets_stride lc addr views ids tbs offsets m k n :
  length ids = length offsets →
  extract_addrs_with_offsets lc addr views ids tbs offsets = Ok m →
  extract_addrs_with_offsets lc addr views (stride_from k n ids) tbs (stride_from k n offsets)
    = Ok (stride_from k n m) ∧ length m = length ids.
Proof.
  intros Hl. assert (∀ (l : list Z) c, length l = c → broadcast c l = l) as Hb
    by (by intros [|x [|y l]] c <-).
  unfold extract_addrs_with_offsets. rewrite !Hb by (try apply stride_length; congruence).
  destruct (negb (bool_decide (whole_page_sizes_by_layer lc = ∅))) eqn:Ew; simpl.
  - destruct (forallb (Z.eqb 0) offsets) eqn:Ef; simpl; [|done].
    assert (forallb (Z.eqb 0) (stride_from k n offsets) = true) as ->.
    { by apply Is_true_true, forallb_True, stride_Forall, forallb_True, Is_true_true. }
    simpl. rewrite !bool_decide_eq_true_2 by (try apply stride_length; done). simpl.
    intros [= <-]. rewrite stride_zip_with, length_zip_with. split; [done|lia].
  - rewrite !bool_decide_eq_true_2 by (try apply stride_length; done). simpl.
    intros [= <-]. rewrite stride_zip_with, length_zip_with. split; [done|lia].
Qed.

(** A rank's part of the FA rows gives its part of the FA addresses. *)
Lemma fa_group_ptrs_stride gids rows rows' positions ms k n :
  (∀ gid, gid ∈ gids → rows' !! Z.to_nat gid = stride_from k n <$> rows !! Z.to_nat gid) →
  (∀ gid row, gid ∈ gids → rows !! Z.to_nat gid = Some row → length row = length positions) →
  fa_group_ptrs cfg gids rows positions = Ok ms →
  fa_group_ptrs cfg gids rows' (stride_from k n positions) = Ok (stride_from k n <$> ms) ∧
  Forall (λ m : matrix, length m = length positions) ms.
Proof.
  revert ms. induction gids as [|gid gids IH]; intros ms Hr Hl; simpl; [intros [= <-]; split; [done|constructor]|].
  assert (∀ ms, fa_group_ptrs cfg gids rows positions = Ok ms →
    fa_group_ptrs cfg gids rows' (stride_from k n positions) = Ok (stride_from k n <$> ms) ∧
    Forall (λ m : matrix, length m = length positions) ms) as IH'.
  { intros ms' E. apply IH; [| |done]; intros; [apply Hr|eapply Hl; [|done]]; by apply elem_of_cons; right. }
  destruct (group_layouts cfg !! gid) as [[lc views]|]; [|apply IH'].
  destruct (meta_of cfg gid) as [g|]; simpl; [|done].
  unfold group_row. rewrite Hr by set_solver. destruct (rows !! Z.to_nat gid) as [row|] eqn:Erow; simpl; [|done].
  specialize (Hl gid row ltac:(set_solver) Erow).
  destruct (as_uint64 row) as [ids|] eqn:Eids; simpl; [|done].
  rewrite (as_uint64_stride _ _ k n Eids). simpl.
  assert (length ids = length positions) as Hids by (apply as_uint64_Ok in Eids as [-> _]; done).
  destruct (hash_block_size (fw_fawa cfg) =? token_block_size g); simpl.
  - destruct (fa_group_ptrs cfg gids rows positions) as [ms'|]; simpl; [|done].
    intros [= <-]. destruct (IH' ms' eq_refl) as [-> Hf]. simpl. csimpl.
    unfold extract_addrs. rewrite stride_fmap. split; [done|]. constructor; [|done]. by rewrite length_fmap.
  - set (offs := λ p, (p * hash_block_size (fw_fawa cfg)) mod token_block_size g).
    destruct (extract_addrs_with_offsets lc offset_addr_f64 views ids (token_block_size g) (offs <$> positions))
      as [m|] eqn:Em; simpl; [|done].
    assert (length ids = length (offs <$> positions)) as Ho by by rewrite length_fmap.
    destruct (extract_with_offsets_stride _ _ _ _ _ _ _ k n Ho Em) as [Em' Hm].
    rewrite stride_fmap in Em'. fold offs. rewrite Em'. simpl.
    destruct (fa_group_ptrs cfg gids rows positions) as [ms'|]; simpl; [|done].
    intros [= <-]. destruct (IH' ms' eq_refl) as [-> Hf]. csimpl. split; [done|].
    constructor; [|done]. congruence.
Qed.

Lemma stride_concat_single {A} (c k n : nat) (r : list A) :
  length r = c → concat (stride_from k n (chunks c 1 r)) = stride_from k n r.
Proof.
  intros <-. assert (chunks (length r) 1 r = (λ x, [x]) <$> r) as ->.
  { unfold chunks. induction r as [|x r IH]; csimpl; [done|]. rewrite take_0, drop_0. by f_equal. }
  rewrite stride_fmap. induction (stride_from k n r) as [|x l IH]; csimpl; [done|]. by rewrite IH.
Qed.

(** The WA rows of whole tail blocks: a row holds the addresses of its key's blocks. *)
Lemma reshape_extract (keys : list bytes) views (c : nat) (cs : list (list Z)) :
  keys ≠ [] → length cs = length keys → Forall (λ x, length x = c) cs →
  reshape_rows (zlen keys) (concat (extract_addrs views (concat cs)))
    = Ok ((λ ch, concat (extract_addrs views ch)) <$> cs).
Proof.
  intros Hk Hl Hc.
  assert (∀ ids, length (concat (extract_addrs views ids)) = (length ids * length views)%nat) as Hids.
  { intros ids. rewrite (concat_length_const (length views)); unfold extract_addrs.
    - by rewrite length_fmap.
    - apply Forall_fmap, Forall_true. intros x. simpl. by rewrite length_fmap. }
  assert (concat (extract_addrs views (concat cs)) = concat ((λ ch, concat (extract_addrs views ch)) <$> cs)) as ->.
  { clear. induction cs as [|x cs IH]; csimpl; [done|]. rewrite <- IH. unfold extract_addrs.
    by rewrite fmap_app, concat_app. }
  apply (reshape_rows_concat _ (c * length views)).
  - unfold zlen. by rewrite length_fmap, Hl.
  - unfold zlen. destruct keys; simpl in *; [done|lia].
  - apply Forall_fmap. eapply Forall_impl; [exact Hc|]. intros ch Hch. simpl. by rewrite Hids, Hch.
Qed.

Lemma stride_replicate {A B} (x : B) k n (l : list A) :
  stride_from k n (replicate (length l) x) = replicate (length (stride_from k n l)) x.
Proof.
  rewrite <- (const_fmap (λ _, x) l x), <- (const_fmap (λ _, x) (stride_from k n l) x) by done.
  apply stride_fmap.
Qed.

(** The matrix of one WA group. *)
Lemma wa_matrix_stride lc views g (keys : list bytes) ids m k n :
  keys ≠ [] → stride_from k n keys ≠ [] →
  length ids = (length keys * Z.to_nat (tail_blocks g))%nat →
  let ids' := concat (stride_from k n (chunks (length keys) (Z.to_nat (tail_blocks g)) ids)) in
  let matrix_of (q : Z) (ids : list Z) :=
    if (tail_blocks g =? 1) && (tail_tokens g <? token_block_size g)
    then extract_addrs_with_offsets lc offset_addr views ids (token_block_size g)
           (replicate (length ids) (token_block_size g - tail_tokens g))
    else reshape_rows q (concat (extract_addrs views ids)) in
  matrix_of (zlen keys) ids = Ok m →
  matrix_of (zlen (stride_from k n keys)) ids' = Ok (stride_from k n m) ∧ length m = length keys.
Proof.
  intros Hk Hk' Hl ids' matrix_of. unfold matrix_of. destruct (chunks_spec _ _ _ Hl) as (Ec & Hc & Hcl).
  destruct ((tail_blocks g =? 1) && (tail_tokens g <? token_block_size g)) eqn:Eb.
  - apply andb_true_iff in Eb as [Eb%Z.eqb_eq _]. unfold ids'. rewrite Eb in *. simpl in *.
    rewrite stride_concat_single by lia. rewrite <- stride_replicate. intros Em.
    apply (extract_with_offsets_stride _ _ _ _ _ _ _ k n) in Em as [-> Hm]; [|by rewrite length_replicate].
    split; [done|lia].
  - rewrite <- Ec at 1. rewrite (reshape_extract keys views _ _ Hk Hcl Hc). intros [= <-].
    unfold ids'. rewrite (reshape_extract (stride_from k n keys) views (Z.to_nat (tail_blocks g)) _ Hk').
    + by rewrite stride_fmap, length_fmap.
    + by apply stride_length.
    + by apply stride_Forall.
Qed.

(** A rank's part of the WA rows gives its part of the WA addresses. *)
Lemma wa_group_ptrs_stride gids rows rows' (keys : list bytes) ms k n :
  keys ≠ [] → stride_from k n keys ≠ [] →
  (∀ gid row, gid ∈ gids → rows !! Z.to_nat gid = Some row →
     ∃ g, meta_of cfg gid = Ok g ∧ length row = (length keys * Z.to_nat (tail_blocks g))%nat ∧
       rows' !! Z.to_nat gid = Some (concat (stride_from k n (chunks (length keys) (Z.to_nat (tail_blocks g)) row)))) →
  wa_group_ptrs cfg gids (zlen keys) rows = Ok ms →
  wa_group_ptrs cfg gids (zlen (stride_from k n keys)) rows' = Ok (stride_from k n <$> ms) ∧
  Forall (λ m : matrix, length m = length keys) ms.
Proof.
  intros Hk Hk'. revert ms. induction gids as [|gid gids IH]; intros ms Hr; simpl;
    [intros [= <-]; split; [done|constructor]|].
  assert (∀ ms, wa_group_ptrs cfg gids (zlen keys) rows = Ok ms →
    wa_group_ptrs cfg gids (zlen (stride_from k n keys)) rows' = Ok (stride_from k n <$> ms) ∧
    Forall (λ m : matrix, length m = length keys) ms) as IH'.
  { intros ms'. apply IH. intros. apply Hr; [set_solver|done]. }
  destruct (group_layouts cfg !! gid) as [[lc views]|]; [|apply IH'].
  destruct (meta_of cfg gid) as [g|] eqn:Eg; simpl; [|done].
  destruct (tail_tokens g =? 0); [apply IH'|].
  unfold group_row. destruct (rows !! Z.to_nat gid) as [row|] eqn:Erow; simpl; [|done].
  destruct (Hr gid row ltac:(set_solver) Erow) as (g' & Eg' & Hl & ->).
  rewrite Eg in Eg'. injection Eg' as <-. simpl.
  destruct (as_uint64 row) as [ids|] eqn:Eids; simpl; [|done].
  apply as_uint64_Ok in Eids as [-> Hrow].
  rewrite (proj2 (as_uint64_Ok _ _)) by (split; [done|];
    apply Forall_concat, stride_Forall, Forall_reshape, Hrow). simpl.
  destruct (if _ && _ then _ else reshape_rows (zlen keys) _) as [m|] eqn:Em; simpl; [|done].
  destruct (wa_matrix_stride lc views g keys row m k n Hk Hk' Hl Em) as [-> Hm]. simpl.
  destruct (wa_group_ptrs cfg gids (zlen keys) rows) as [ms'|]; simpl; [|done].
  intros [= <-]. destruct (IH' ms' eq_refl) as [-> Hf]. simpl. split; [done|]. by constructor.
Qed.

Lemma arange_length a b : length (arange a b) = Z.to_nat (b - a).
Proof. unfold arange. by rewrite length_fmap, length_seq. Qed.

Lemma extract_fa_stride request mf k n :
  dump_rows_fit request →
  _extract_fa_ptr cfg (dump_vllm_block_ids request)
    (arange (dump_hash_start request) (dump_hash_end request)) = Ok mf →
  (∃ rows',
     map_groups (λ gid r,
       Ok (if decide (gid ∈ fw_fa_group_ids cfg) then py_slice_step k n r else r)) 0
       (dump_vllm_block_ids request) = Ok rows' ∧
     _extract_fa_ptr cfg rows'
       (py_slice_step k n (arange (dump_hash_start request) (dump_hash_end request)))
       = Ok (py_slice_step k n mf)) ∧
  length mf = length (dump_keys request).
Proof.
  intros (Hp & Hfit & _) E. unfold _extract_fa_ptr in *.
  destruct (fa_group_ptrs cfg _ _ _) as [ms|] eqn:Ems; simpl in E; [|done].
  set (h := λ (gid : Z) (r : list Z), if decide (gid ∈ fw_fa_group_ids cfg) then py_slice_step k n r else r).
  destruct (map_groups_ok (λ gid r, Ok (h gid r)) h 0 (dump_vllm_block_ids request))
    as (rows' & Erows & Hrows); [done|].
  eapply (fa_group_ptrs_stride _ _ rows' _ _ (Z.to_nat k) (Z.to_nat n)) in Ems as [Ems Hms].
  - split; [|rewrite (np_concatenate1_length _ _ _ Hms E), arange_length; lia].
    exists rows'. split; [exact Erows|]. unfold py_slice_step at 1. rewrite Ems. simpl.
    by apply np_concatenate1_stride.
  - intros gid Hgid. rewrite Hrows. apply Forall_app in gids_nonneg as [Hnn _].
    rewrite Forall_forall in Hnn. specialize (Hnn gid Hgid). rewrite Z2Nat.id, Z.add_0_l by done.
    destruct (dump_vllm_block_ids request !! Z.to_nat gid); simpl; [|done].
    unfold h. by rewrite decide_True.
  - intros gid row Hgid Hrow. rewrite arange_length, (Hfit gid row) by done. lia.
Qed.

Lemma extract_wa_stride request mw k n :
  dump_rows_fit request → wa_keys request ≠ [] → py_slice_step k n (wa_keys request) ≠ [] →
  _extract_wa_ptr cfg (wa_keys request) (dump_vllm_block_ids request) = Ok mw →
  (∃ rows', wa_rank_rows cfg k n (dump_vllm_block_ids request) = Ok rows' ∧
     _extract_wa_ptr cfg (py_slice_step k n (wa_keys request)) rows' = Ok (py_slice_step k n mw)) ∧
  length mw = length (wa_keys request).
Proof.
  intros (_ & _ & Hfit) Hk Hk' E. unfold _extract_wa_ptr in *. set (keys := wa_keys request) in *.
  destruct (wa_group_ptrs cfg _ _ _) as [ms|] eqn:Ems; simpl in E; [|done].
  set (h := λ (gid : Z) (r : list Z), if decide (gid ∈ window_group_ids (fw_fawa cfg)) then
    match meta_of cfg gid with
    | Ok g => concat (py_slice_step k n (chunks (length keys) (Z.to_nat (tail_blocks g)) r))
    | Raise _ => r end else r).
  destruct (map_groups_ok (λ gid r,
    if decide (gid ∈ window_group_ids (fw_fawa cfg)) then
      g ← meta_of cfg gid; m ← reshape_cols (tail_blocks g) r;
      Ok (concat (py_slice_step k n (m : list (list Z))))
    else Ok r) h 0 (dump_vllm_block_ids request)) as (rows' & Erows & Hrows).
  { intros i r Hi. rewrite Z.add_0_l. unfold h. destruct (decide _) as [Hin|]; [|done].
    destruct (Hfit (Z.of_nat i) r Hin) as (g & -> & Htb & Hl); [by rewrite Nat2Z.id|].
    simpl. by rewrite (reshape_cols_chunks (length keys)). }
  eapply (wa_group_ptrs_stride _ _ rows' _ _ (Z.to_nat k) (Z.to_nat n) Hk Hk') in Ems as [Ems Hms].
  - split; [|by apply (np_concatenate1_length ms)].
    exists rows'. split; [exact Erows|]. unfold py_slice_step at 1. rewrite Ems. simpl.
    by apply np_concatenate1_stride.
  - intros gid row Hgid Hrow. destruct (Hfit gid row Hgid Hrow) as (g & Eg & _ & Hl).
    exists g. split_and!; [done|done|]. rewrite Hrows, Hrow. simpl.
    apply Forall_app in gids_nonneg as [_ Hnn]. rewrite Forall_forall in Hnn.
    specialize (Hnn gid Hgid). rewrite Z2Nat.id, Z.add_0_l by done. unfold h. by rewrite decide_True, Eg.
Qed.

Lemma wa_keys_nonempty request : dump_keys request ≠ [] → wa_keys request ≠ [].
Proof.
  intros Hk. unfold wa_keys. destruct (wa_dump_block_wise _); [done|].
  unfold last_key, py_slice_from, py_bound, zlen. destruct (dump_keys request) as [|x keys]; [done|].
  intros E%(f_equal length). rewrite length_drop in E. simpl in E.
  lia.
Qed.

Lemma extract_wa_length request mw :
  dump_rows_fit request → dump_keys request ≠ [] →
  _extract_wa_ptr cfg (wa_keys request) (dump_vllm_block_ids request) = Ok mw →
  length mw = length (wa_keys request).
Proof.
  intros Hfit Hk%wa_keys_nonempty E. eapply (extract_wa_stride request mw 0 1 Hfit Hk); [|done].
  by destruct (wa_keys request).
Qed.

(** ** One request *)

(** The same worker as rank [rank] of [size]. *)
Definition fawa_with_tp (rank size : Z) : FawaWorkerConfig :=
  mkFawaWorkerConfig
    (mkWorkerConfig rank size (is_mla (fw_cfg cfg)) (enable_event_sync (fw_cfg cfg))
       (_skip_null_vllm_blocks (fw_cfg cfg)) (block_data_size (fw_cfg cfg)) (worker_store (fw_cfg cfg))
       (request_hasher (fw_cfg cfg)) (DirectWorker.extract_block_addrs (fw_cfg cfg)))
    (fw_fawa cfg) (fw_fa_group_ids cfg) (group_layouts cfg) (file_size cfg) (legacy_engine cfg).

(** What a rank has collected: keys with the addresses of their rows. *)
Definition fa_entries (l : fawa_dumps) : list (bytes * list Z) := zip (fa_dump_keys l) (concat (fa_ptr_rows l)).
Definition wa_entries (l : fawa_dumps) : list (bytes * list Z) := zip (wa_dump_keys l) (concat (wa_ptr_rows l)).

Definition balanced (l : fawa_dumps) : Prop :=
  length (fa_dump_keys l) = length (concat (fa_ptr_rows l)) ∧
  length (wa_dump_keys l) = length (concat (wa_ptr_rows l)).

(** [l'] is [l] with these entries added. *)
Definition extends (l l' : fawa_dumps) (fa wa : list (bytes * list Z)) : Prop :=
  balanced l' ∧ fa_entries l' = fa_entries l ++ fa ∧ wa_entries l' = wa_entries l ++ wa.

Lemma extends_trans l1 l2 l3 fa wa fa' wa' :
  extends l1 l2 fa wa → extends l2 l3 fa' wa' → extends l1 l3 (fa ++ fa') (wa ++ wa').
Proof. unfold extends. intros (_ & E1 & E2) (? & -> & ->). rewrite E1, E2, !(assoc_L (++)). by split_and!. Qed.

Lemma extends_add_fa id (keys : list bytes) (m : matrix) l :
  balanced l → length m = length keys → extends l (add_fa id keys m l) (zip keys m) [].
Proof.
  intros [Hf Hw] Hm. unfold extends, balanced, fa_entries, wa_entries. simpl.
  rewrite concat_app, !length_app, app_nil_r. simpl. rewrite app_nil_r. split_and!; [lia|done| |done].
  by rewrite zip_with_app.
Qed.

Lemma extends_add_wa id (keys : list bytes) (m : matrix) l :
  balanced l → length m = length keys → extends l (add_wa id keys m l) [] (zip keys m).
Proof.
  intros [Hf Hw] Hm. unfold extends, balanced, fa_entries, wa_entries. simpl.
  rewrite concat_app, !length_app, app_nil_r. simpl. rewrite app_nil_r. split_and!; [done|lia|done|].
  by rewrite zip_with_app.
Qed.

(** What the single rank adds for a request. *)
Lemma single_request_extends id request l l' :
  dump_rows_fit request → dump_keys request ≠ [] → balanced l →
  add_request_single (fawa_with_tp 0 1) id request l = Ok l' →
  ∃ mf mw,
    _extract_fa_ptr cfg (dump_vllm_block_ids request)
      (arange (dump_hash_start request) (dump_hash_end request)) = Ok mf ∧
    (window_group_ids (fw_fawa cfg) ≠ [] →
       _extract_wa_ptr cfg (wa_keys request) (dump_vllm_block_ids request) = Ok mw) ∧
    extends l l' (zip (dump_keys request) mf)
      (if bool_decide (window_group_ids (fw_fawa cfg) = []) then [] else zip (wa_keys request) mw).
Proof.
  intros Hfit Hk Hb. unfold add_request_single.
  change (_extract_fa_ptr (fawa_with_tp 0 1)) with (_extract_fa_ptr cfg).
  change (_extract_wa_ptr (fawa_with_tp 0 1)) with (_extract_wa_ptr cfg).
  change (fw_fawa (fawa_with_tp 0 1)) with (fw_fawa cfg). fold (wa_keys request).
  destruct (_extract_fa_ptr cfg _ _) as [mf|] eqn:Ef; simpl; [|done].
  destruct (extract_fa_stride request mf 0 1 Hfit Ef) as [_ Hmf].
  assert (extends l (add_fa id (dump_keys request) mf (add_dump_request id l)) (zip (dump_keys request) mf) [])
    as Hext by by apply (extends_add_fa id _ _ (add_dump_request id l)).
  case_bool_decide as Hw.
  - intros [= <-]. exists mf, []. split_and!; done.
  - destruct (_extract_wa_ptr cfg _ _) as [mw|] eqn:Ew; simpl; [|done].
    intros [= <-]. exists mf, mw. split_and!; [done|done|].
    rewrite <- (app_nil_r (zip _ mf)), <- (app_nil_l (zip _ mw)).
    eapply extends_trans; [exact Hext|]. apply extends_add_wa; [apply Hext|].
    by apply extract_wa_length.
Qed.

Definition rank_slice {A} (n : nat) (start : Z) (r : nat) (l : list A) : list A :=
  stride_from (Z.to_nat ((Z.of_nat r - start) mod Z.of_nat n)) n l.

(** What rank [r] of [n] adds for a request, from what the single rank adds. *)
Definition rank_wa (n r : nat) (start ring : Z) (entries : list (bytes * list Z)) : list (bytes * list Z) :=
  if wa_dump_block_wise (fw_fawa cfg) then rank_slice n start r entries
  else if ring mod Z.of_nat n =? Z.of_nat r then entries else [].

(** The two halves of [add_request_tp], with [first] and [step] the rank's slice. *)
Definition tp_fa (first step : Z) id request (l : fawa_dumps) : outcome fawa_dumps :=
  if bool_decide (py_slice_step first step (dump_keys request) = []) then Ok l
  else
    rows ← map_groups (λ gid r,
             Ok (if decide (gid ∈ fw_fa_group_ids cfg) then py_slice_step first step r else r))
             0 (dump_vllm_block_ids request);
    m ← _extract_fa_ptr cfg rows
          (py_slice_step first step (arange (dump_hash_start request) (dump_hash_end request)));
    Ok (add_fa id (py_slice_step first step (dump_keys request)) m l).

Definition tp_wa (rank first step : Z) id request (l : fawa_dumps) : outcome fawa_dumps :=
  if wa_dump_block_wise (fw_fawa cfg) then
    if bool_decide (py_slice_step first step (dump_keys request) = []) then Ok l
    else
      rows ← wa_rank_rows cfg first step (dump_vllm_block_ids request);
      m ← _extract_wa_ptr cfg (py_slice_step first step (dump_keys request)) rows;
      Ok (add_wa id (py_slice_step first step (dump_keys request)) m l)
  else if wa_dump_ring_idx l mod step =? rank then
    m ← _extract_wa_ptr cfg (last_key (dump_keys request)) (dump_vllm_block_ids request);
    Ok (add_wa id (last_key (dump_keys request)) m l)
  else Ok l.

Lemma add_request_tp_halves rank size id request l :
  add_request_tp (fawa_with_tp rank size) id request l =
    let first := (rank mod size - dump_hash_start request) mod size in
    l1 ← tp_fa first size id request (add_dump_request id l);
    if bool_decide (window_group_ids (fw_fawa cfg) = []) then Ok l1
    else l2 ← tp_wa rank first size id request l1; Ok (next_ring l2).
Proof. reflexivity. Qed.

Lemma extends_refl l : balanced l → extends l l [] [].
Proof. intros. unfold extends. by rewrite !app_nil_r. Qed.

Lemma zip_slice_nil {A B} first step (l : list A) (m : list B) :
  py_slice_step first step l = [] → py_slice_step first step (zip l m) = [].
Proof. unfold py_slice_step. intros E. by rewrite stride_zip_with, E. Qed.

Lemma tp_fa_extends first step id request l mf :
  dump_rows_fit request → balanced l →
  _extract_fa_ptr cfg (dump_vllm_block_ids request)
    (arange (dump_hash_start request) (dump_hash_end request)) = Ok mf →
  ∃ l', tp_fa first step id request l = Ok l' ∧ wa_dump_ring_idx l' = wa_dump_ring_idx l ∧
    extends l l' (py_slice_step first step (zip (dump_keys request) mf)) [].
Proof.
  intros Hfit Hb Ef. unfold tp_fa. case_bool_decide as E.
  - exists l. rewrite (zip_slice_nil _ _ _ _ E). split_and!; [done..|]. by apply extends_refl.
  - destruct (extract_fa_stride request mf first step Hfit Ef) as [(rows' & -> & Ef') Hmf].
    simpl. rewrite Ef'. simpl. eexists. split_and!; [done..|].
    unfold py_slice_step at 3. rewrite stride_zip_with. apply extends_add_fa; [done|].
    by apply stride_length.
Qed.

Lemma tp_wa_extends (n r : nat) id request l mw :
  dump_rows_fit request → dump_keys request ≠ [] → balanced l →
  _extract_wa_ptr cfg (wa_keys request) (dump_vllm_block_ids request) = Ok mw →
  let first := (Z.of_nat r - dump_hash_start request) mod Z.of_nat n in
  ∃ l', tp_wa (Z.of_nat r) first (Z.of_nat n) id request l = Ok l' ∧
    wa_dump_ring_idx l' = wa_dump_ring_idx l ∧
    extends l l' [] (rank_wa n r (dump_hash_start request) (wa_dump_ring_idx l) (zip (wa_keys request) mw)).
Proof.
  intros Hfit Hk Hb Ew first. pose proof (extract_wa_length _ _ Hfit Hk Ew) as Hmw.
  pose proof (extract_wa_stride request mw first (Z.of_nat n) Hfit (wa_keys_nonempty _ Hk)) as Hs.
  unfold tp_wa, rank_wa, wa_keys in *. destruct (wa_dump_block_wise (fw_fawa cfg)) eqn:Ebw.
  - assert (rank_slice n (dump_hash_start request) r (zip (dump_keys request) mw)
      = py_slice_step first (Z.of_nat n) (zip (dump_keys request) mw)) as ->
      by (unfold rank_slice, py_slice_step; by rewrite Nat2Z.id).
    case_bool_decide as E.
    + exists l. rewrite (zip_slice_nil _ _ _ _ E). split_and!; [done..|]. by apply extends_refl.
    + destruct (Hs E Ew) as [(rows' & -> & Ew') _]. simpl. rewrite Ew'. simpl.
      eexists. split_and!; [done..|]. unfold py_slice_step at 3. rewrite stride_zip_with.
      apply extends_add_wa; [done|]. by apply stride_length.
  - destruct (wa_dump_ring_idx l mod Z.of_nat n =? Z.of_nat r).
    + rewrite Ew. simpl. eexists. split_and!; [done..|]. by apply extends_add_wa.
    + exists l. split_and!; [done..|]. by apply extends_refl.
Qed.

Lemma tp_request_extends (n r : nat) id request l mf mw :
  (1 < n)%nat → (r < n)%nat → dump_rows_fit request → dump_keys request ≠ [] → balanced l →
  _extract_fa_ptr cfg (dump_vllm_block_ids request)
    (arange (dump_hash_start request) (dump_hash_end request)) = Ok mf →
  (window_group_ids (fw_fawa cfg) ≠ [] →
     _extract_wa_ptr cfg (wa_keys request) (dump_vllm_block_ids request) = Ok mw) →
  ∃ l', add_request_tp (fawa_with_tp (Z.of_nat r) (Z.of_nat n)) id request l = Ok l' ∧
    extends l l' (rank_slice n (dump_hash_start request) r (zip (dump_keys request) mf))
      (if bool_decide (window_group_ids (fw_fawa cfg) = []) then []
       else rank_wa n r (dump_hash_start request) (wa_dump_ring_idx l) (zip (wa_keys request) mw)) ∧
    wa_dump_ring_idx l' = wa_dump_ring_idx l
      + (if bool_decide (window_group_ids (fw_fawa cfg) = []) then 0 else 1).
Proof.
  intros Hn Hr Hfit Hk Hb Ef Ew. rewrite add_request_tp_halves, (Z.mod_small (Z.of_nat r)) by lia.
  set (first := (Z.of_nat r - _) mod _).
  destruct (tp_fa_extends first (Z.of_nat n) id request (add_dump_request id l) mf Hfit Hb Ef)
    as (l1 & E1 & Hr1 & Hx1).
  replace (py_slice_step first (Z.of_nat n) (zip (dump_keys request) mf))
    with (rank_slice n (dump_hash_start request) r (zip (dump_keys request) mf)) in Hx1
    by (unfold rank_slice, py_slice_step; by rewrite Nat2Z.id).
  cbv zeta. rewrite E1. simpl. case_bool_decide as Hw.
  - exists l1. split_and!; [done|exact Hx1|]. rewrite Hr1. simpl. lia.
  - destruct (tp_wa_extends n r id request l1 mw Hfit Hk (proj1 Hx1) (Ew Hw)) as (l2 & E2 & Hr2 & Hx2).
    fold first in E2. rewrite E2. simpl. eexists. split_and!; [done| |simpl; rewrite Hr2, Hr1; done].
    rewrite Hr1 in Hx2. pose proof (extends_trans _ _ _ _ _ _ _ Hx1 Hx2) as Hx.
    rewrite app_nil_r in Hx. exact Hx.
Qed.

(** ** All requests of a step *)

Definition all_ranks (n : nat) (er : nat → list (bytes * list Z)) : list (bytes * list Z) :=
  concat (er <$> seq 0 n).

Lemma rank_slices_perm n start (entries : list (bytes * list Z)) :
  (0 < n)%nat → all_ranks n (λ r, rank_slice n start r entries) ≡ₚ entries.
Proof. apply rank_strides_perm. Qed.

Lemma rank_wa_perm n start ring entries :
  (0 < n)%nat → all_ranks n (λ r, rank_wa n r start ring entries) ≡ₚ entries.
Proof.
  intros Hn. unfold rank_wa, all_ranks. destruct (wa_dump_block_wise (fw_fawa cfg)).
  - by apply rank_slices_perm.
  - rewrite one_rank_concat; [done|]. apply Z.mod_pos_bound. lia.
Qed.

Lemma all_ranks_nil n : all_ranks n (λ _, []) = [].
Proof. unfold all_ranks. by induction (seq 0 n). Qed.

(** All ranks take the same request. *)
Lemma ranks_request_extend (n : nat) id request mf mw (lr : nat → fawa_dumps) ring :
  (1 < n)%nat → dump_rows_fit request → dump_keys request ≠ [] →
  _extract_fa_ptr cfg (dump_vllm_block_ids request)
    (arange (dump_hash_start request) (dump_hash_end request)) = Ok mf →
  (window_group_ids (fw_fawa cfg) ≠ [] →
     _extract_wa_ptr cfg (wa_keys request) (dump_vllm_block_ids request) = Ok mw) →
  (∀ r, (r < n)%nat → balanced (lr r) ∧ wa_dump_ring_idx (lr r) = ring) →
  ∃ lr1 ring1 far war,
    all_ranks n far ≡ₚ zip (dump_keys request) mf ∧
    all_ranks n war ≡ₚ (if bool_decide (window_group_ids (fw_fawa cfg) = []) then []
                        else zip (wa_keys request) mw) ∧
    ∀ r, (r < n)%nat →
      add_request_tp (fawa_with_tp (Z.of_nat r) (Z.of_nat n)) id request (lr r) = Ok (lr1 r) ∧
      extends (lr r) (lr1 r) (far r) (war r) ∧ wa_dump_ring_idx (lr1 r) = ring1.
Proof.
  intros Hn Hfit Hk Ef Ew Hr. set (start := dump_hash_start request).
  pose (tp := λ r, add_request_tp (fawa_with_tp (Z.of_nat r) (Z.of_nat n)) id request (lr r)).
  exists (λ r, match tp r with Ok l => l | Raise _ => lr r end),
    (ring + (if bool_decide (window_group_ids (fw_fawa cfg) = []) then 0 else 1)),
    (λ r, rank_slice n start r (zip (dump_keys request) mf)),
    (λ r, if bool_decide (window_group_ids (fw_fawa cfg) = []) then []
          else rank_wa n r start ring (zip (wa_keys request) mw)).
  split_and!; [apply rank_slices_perm; lia| |].
  - case_bool_decide; [by rewrite all_ranks_nil|apply rank_wa_perm; lia].
  - intros r Hlt. destruct (Hr r Hlt) as [Hbr <-].
    destruct (tp_request_extends n r id request (lr r) mf mw Hn Hlt Hfit Hk Hbr Ef Ew) as (l' & E & Hx & Hri).
    fold (tp r) in E. fold (tp r). by rewrite E.
Qed.

Lemma collect_split (n : nat) requests l0 l0' (lr : nat → fawa_dumps) ring :
  (1 < n)%nat → Forall (λ p, dump_rows_fit p.2) requests → balanced l0 →
  (∀ r, (r < n)%nat → balanced (lr r) ∧ wa_dump_ring_idx (lr r) = ring) →
  collect_fawa_dumps (fawa_with_tp 0 1) requests l0 = Ok l0' →
  ∃ lr' fa wa far war,
    extends l0 l0' fa wa ∧ all_ranks n far ≡ₚ fa ∧ all_ranks n war ≡ₚ wa ∧
    ∀ r, (r < n)%nat →
      collect_fawa_dumps (fawa_with_tp (Z.of_nat r) (Z.of_nat n)) requests (lr r) = Ok (lr' r) ∧
      extends (lr r) (lr' r) (far r) (war r).
Proof.
  intros Hn Hfits. revert l0 lr ring. induction Hfits as [|[id request] rest Hfit _ IH];
    intros l0 lr ring Hb Hr; simpl.
  { intros [= <-]. exists lr, [], [], (λ _, []), (λ _, []). rewrite all_ranks_nil.
    split_and!; [by apply extends_refl|done|done|]. intros r Hlt. split; [done|]. by apply extends_refl, Hr. }
  case_bool_decide as Hk; [by apply (IH l0 lr ring)|].
  rewrite (proj2 (Z.ltb_lt 1 (Z.of_nat n))) by lia.
  destruct (add_request_single _ id request l0) as [l1|] eqn:E1; simpl; [|done].
  destruct (single_request_extends id request l0 l1 Hfit Hk Hb E1) as (mf & mw & Ef & Ew & Hx1).
  destruct (ranks_request_extend n id request mf mw lr ring Hn Hfit Hk Ef Ew Hr)
    as (lr1 & ring1 & far1 & war1 & Pf1 & Pw1 & H1).
  intros E0. destruct (IH l1 lr1 ring1) as (lr' & fa & wa & far & war & Hx2 & Pf & Pw & H2);
    [apply Hx1| |done|].
  { intros r Hlt. destruct (H1 r Hlt) as (_ & Hx & Hri). split; [apply Hx|done]. }
  eexists lr', (zip (dump_keys request) mf ++ fa), _, (λ r, far1 r ++ far r), (λ r, war1 r ++ war r).
  split_and!; [by eapply extends_trans|..|].
  - unfold all_ranks in *. by rewrite concat_fmap_app, Pf1, Pf.
  - unfold all_ranks in *. by rewrite concat_fmap_app, Pw1, Pw.
  - intros r Hlt. destruct (H1 r Hlt) as (E & Hx & _). destruct (H2 r Hlt) as (E' & Hx').
    rewrite E. split; [exact E'|]. by eapply extends_trans.
Qed.

End split.

(** A rank whose number is not below the number of TP ranks (with pipeline stages the
    number of a process counts over all stages) never takes a turn of the ring, so it
    dumps no window rows when only the last block of a step is dumped. *)
Lemma ring_skips_later_stages (cfg : FawaWorkerConfig) requests l l' :
  wa_dump_block_wise (fw_fawa cfg) = false → 1 < tp_size (fw_cfg cfg) → tp_size (fw_cfg cfg) ≤ tp_rank (fw_cfg cfg) →
  collect_fawa_dumps cfg requests l = Ok l' → wa_dump_keys l' = wa_dump_keys l.
Proof.
  intros Hbw Htp Hrank. revert l. induction requests as [|[id request] requests IH]; intros l; simpl;
    [by intros [= ->]|].
  case_bool_decide; [apply IH|]. rewrite (proj2 (Z.ltb_lt _ _)) by done.
  destruct (add_request_tp cfg id request l) as [l1|] eqn:E1; simpl; [|done]. intros ->%IH.
  revert E1. unfold add_request_tp. rewrite Hbw. cbn [_get_mla_dump_slice].
  assert (∀ ring, (ring mod tp_size (fw_cfg cfg) =? tp_rank (fw_cfg cfg)) = false) as Hring.
  { intros ring. apply Z.eqb_neq. pose proof (Z.mod_pos_bound ring (tp_size (fw_cfg cfg))). lia. }
  unfold mbind, outcome_bind, _get_mla_dump_slice. intros E1.
  repeat (case_match; simplify_eq/=; try done); by rewrite Hring in *.
Qed.

(** Three ranks, a step with one request of four hash blocks that starts at block 5:
    an FA group with an entry to a key, and a WA group with two. *)
Definition ex_split_cfg : FawaWorkerConfig :=
  mkFawaWorkerConfig ex_worker ex_fawa [0]
    {[0 := (ex_layout_config, [mkView 4096 64 16 16 4]);
      1 := (ex_layout_config, [mkView 65536 32 16 16 2; mkView 131072 32 16 16 2])]}
    (λ _, 64) false.

Definition ex_split_request : FAWARequestDispatchMeta :=
  mkFawaDispatch [] 0 0 [] ["f"; "g"; "h"; "i"]%string 5 9
    [[10; 11; 12; 13]; [20; 21; 22; 23; 24; 25; 26; 27]; []] false.

