(* ===== verification/FawaWorkerLoads.v ===== *)
(** * Loads of the FAWA worker: reporting and progress

    The asynchronous loads of [UCMFAWAConnector]
    (src/ucm/integration/vllm/hma_connector.py): [start_load_kv] submits the
    tasks of a request and gives each a future of the thread pool; [get_finished]
    polls the futures and reports the requests.  The pool's threads run between
    any two calls. *)

From Stdlib Require Import ZArith Lia.
From stdpp Require Import base list gmap strings numbers fin_sets.
From S2P Require Import Prelude.
From S2P Require Import Store.
From S2P Require Import RankConsistency.
From S2P Require Import DirectScheduler.
From S2P Require Import DirectWorker.
From S2P Require Import WorkerDumps.
From S2P Require Import FawaScheduler.
From S2P Require Import FawaWorker.
Local Open Scope Z_scope.

Lemma NoDup_drop_middle {K V} (kept rest : list (K * V)) x :
  NoDup (kept ++ x :: rest).*1 → NoDup (kept ++ rest).*1.
Proof.
  rewrite !fmap_app. csimpl. intros (? & Hd & [_ ?]%list.NoDup_cons)%list.NoDup_app.
  apply list.NoDup_app. set_solver.
Qed.

Section loads.
Context {W D : Type} `{StoreWorld W} `{DeviceWorld D} `{PySetOrder}.
Variable cfg : FawaWorkerConfig.

Abbreviation state := (FawaWorker * D * (RankConsistencyManager * W))%type.

(** ** Polling *)

(** The tasks of a pending load whose wait has not ended. *)
Definition waiting (fs : list pool_future) (p : FAWAPendingLoad) : list FAWALoadTask :=
  filter (λ t, future_result fs t = None) (fp_tasks p).

(** The load has failed so far, or one of its waits ended with an exception. *)
Definition load_failed (fs : list pool_future) (p : FAWAPendingLoad) : Prop :=
  fp_failed p = true ∨ ∃ t e, t ∈ fp_tasks p ∧ future_result fs t = Some (Raise e).

Lemma wait_load_raises t e (r : RankConsistencyManager * W) :
  ∃ r' e', wait_load t (Some (lift_outcome (Raise e))) r = (r', Raise e').
Proof.
  destruct r as [m w]. unfold wait_load. mred.
  destruct (_load_task_contexts m !! t) as [[st ctx]|]; simpl; [|by eexists _, _].
  unfold on_world, zoom, lift_outcome. simpl. unfold classify. mred.
  destruct (enabled m && is_not_found e); by eexists _, _.
Qed.

Lemma poll_task_step (t : FAWALoadTask) o (st : state) :
  ∃ r' ok,
    try_except (manager (wait_load (lt_task t) (Some (lift_outcome o))) ;; mret true) (λ _, mret false) st
      = ((st.1, r'), Ok ok) ∧ (∀ e, o = Raise e → ok = false).
Proof.
  destruct st as [sd r]. unfold try_except, mbind, M_bind, manager, zoom. simpl.
  destruct o as [[]|e].
  - destruct (wait_load (lt_task t) _ r) as [r' [[]|e]]; by eexists _, _.
  - destruct (wait_load_raises (lt_task t) e r) as (r' & e' & ->). by eexists r', false.
Qed.

Lemma poll_fawa_tasks_spec tasks remaining failed loaded (st : state) :
  ∃ r' failed' loaded',
    poll_fawa_tasks cfg tasks remaining failed loaded st
      = ((st.1, r'), Ok (mkFawaPending
           (remaining ++ filter (λ t, future_result (futures st.1.1) t = None) tasks) failed' loaded')) ∧
    (failed = true → failed' = true) ∧
    (∀ t e, t ∈ tasks → future_result (futures st.1.1) t = Some (Raise e) → failed' = true).
Proof.
  revert remaining failed loaded st. induction tasks as [|t tasks IH]; intros remaining failed loaded st;
    cbn [poll_fawa_tasks].
  { exists st.2, failed, loaded. rewrite app_nil_r. destruct st. split_and!; [done|done|].
    by intros t e ?%elem_of_nil. }
  erewrite bind_ok by done. destruct (future_result (futures st.1.1) t) as [o|] eqn:Eo.
  - destruct (poll_task_step t o st) as (r1 & ok & E & Hok). erewrite bind_ok by exact E.
    rewrite filter_cons_False by congruence.
    destruct ok.
    + edestruct (IH remaining failed) as (r' & failed' & loaded' & -> & Hf & Hr).
      eexists r', failed', loaded'. simpl. split_and!; [done|done|].
      intros t' e [->|Hin]%elem_of_cons He; [|by eapply Hr].
      rewrite Eo in He. simplify_eq. by specialize (Hok e eq_refl).
    + edestruct (IH remaining true) as (r' & failed' & loaded' & -> & Hf & Hr).
      eexists r', failed', loaded'. simpl. split_and!; [done|by intros _; apply Hf|].
      intros t' e Hin He. by apply Hf.
  - rewrite filter_cons_True by done.
    destruct (IH (remaining ++ [t]) failed loaded st) as (r' & failed' & loaded' & -> & Hf & Hr).
    exists r', failed', loaded'. rewrite <- app_assoc. split_and!; [done|done|].
    intros t' e [->|Hin]%elem_of_cons He; [congruence|by eapply Hr].
Qed.

Definition settled_ids (fs : list pool_future) (pending : list (req_id * FAWAPendingLoad)) : gset string :=
  list_to_set (filter (λ x : req_id * FAWAPendingLoad, waiting fs x.2 = []) pending).*1.

(** What a poll leaves of a pending load. *)
Definition polled (fs : list pool_future) (p p' : FAWAPendingLoad) : Prop :=
  waiting fs p ≠ [] ∧ fp_tasks p' = waiting fs p ∧ (load_failed fs p → fp_failed p' = true).

(** What a poll does not touch. *)
Definition poll_frame (st : state) :=
  (fw_metadata st.1.1, tp_dump_tasks st.1.1, futures st.1.1, _finished_async_load_req_ids (fw_worker st.1.1), st.1.2).

Lemma poll_frame_futures st st' : poll_frame st' = poll_frame st → futures st'.1.1 = futures st.1.1.
Proof. unfold poll_frame. congruence. Qed.

Definition reported_failed (st : state) (id : req_id) : Prop :=
  id ∈ _failed_fawa_loads st.1.1 ∧ id ∈ load_failed_reqs (_connector_worker_meta (fw_worker st.1.1)).

Definition reported_mono (st st' : state) : Prop :=
  _failed_fawa_loads st.1.1 ⊆ _failed_fawa_loads st'.1.1 ∧
  load_failed_reqs (_connector_worker_meta (fw_worker st.1.1))
    ⊆ load_failed_reqs (_connector_worker_meta (fw_worker st'.1.1)).

Lemma reported_failed_mono st st' id : reported_mono st st' → reported_failed st id → reported_failed st' id.
Proof. intros [Hf Hm] [? ?]. split; set_solver. Qed.

Lemma od_set_middle {K V} `{EqDecision K} (kept rest : list (K * V)) k v v' :
  k ∉ kept.*1 → od_set k v' (kept ++ (k, v) :: rest) = kept ++ (k, v') :: rest.
Proof.
  induction kept as [|[k1 v1] kept IH]; csimpl; intros Hk.
  - by rewrite decide_True.
  - apply not_elem_of_cons in Hk as [Hne Hk]. rewrite decide_False by done. by rewrite IH.
Qed.

Lemma od_del_middle {K V} `{EqDecision K} (kept rest : list (K * V)) k v :
  NoDup (kept ++ (k, v) :: rest).*1 → od_del k (kept ++ (k, v) :: rest) = kept ++ rest.
Proof.
  rewrite fmap_app. csimpl. intros (_ & Hd & [Hr _]%list.NoDup_cons)%list.NoDup_app.
  assert (∀ l : list (K * V), k ∉ l.*1 → filter (λ p, p.1 ≠ k) l = l) as Hf.
  { induction l as [|[k1 v1] l IH]; csimpl; [done|]. intros [Hne Hl]%not_elem_of_cons.
    rewrite filter_cons_True by (simpl; congruence). by rewrite IH. }
  unfold od_del. rewrite filter_app, filter_cons_False by (simpl; by intros []).
  rewrite !Hf; [done|done|]. intros Hk. by destruct (Hd k Hk); left.
Qed.

Lemma bind_assoc_M {S A B C} (m : M S A) (f : A → M S B) (g : B → M S C) s :
  ((m ≫= f) ≫= g) s = (m ≫= (λ a, f a ≫= g)) s.
Proof. unfold mbind, M_bind. by destruct (m s) as [s' [a|e]]. Qed.

(** The end of one pending load: it is dropped, and marked when it failed. *)
Lemma poll_settle id (failed : bool) (st : state) :
  ∃ st',
    (on_fawa_worker (λ s, set_fw_pending (od_del id (_pending_fawa_loads s)) s) ;;
     (if failed then
        on_fawa_worker (λ s, set_fw_failed ({[id]} ∪ _failed_fawa_loads s) s) ;;
        direct (worker_mark_failed id)
      else mret tt)) st = (st', Ok tt) ∧
    poll_frame st' = poll_frame st ∧ reported_mono st st' ∧
    _pending_fawa_loads st'.1.1 = od_del id (_pending_fawa_loads st.1.1) ∧
    (failed = true → reported_failed st' id).
Proof.
  destruct st as [[s d] r]. destruct failed; eexists; (split; [reflexivity|]).
  - split_and!; [done|split; simpl; set_solver|done|]. intros _. split; simpl; set_solver.
  - split_and!; [done|split; simpl; set_solver|done|done].
Qed.

Lemma settled_ids_cons fs id p pending :
  settled_ids fs ((id, p) :: pending) =
    (if decide (waiting fs p = []) then {[id]} else ∅) ∪ settled_ids fs pending.
Proof.
  unfold settled_ids. rewrite filter_cons. simpl. case_decide; csimpl; [done|]. by rewrite union_empty_l_L.
Qed.

Lemma poll_fawa_loads_spec pending kept finished bytes (st : state) :
  _pending_fawa_loads st.1.1 = kept ++ pending → NoDup (kept ++ pending).*1 →
  let fs := futures st.1.1 in
  ∃ st' left bytes',
    poll_fawa_loads cfg pending finished bytes st = (st', Ok (settled_ids fs pending ∪ finished, bytes')) ∧
    poll_frame st' = poll_frame st ∧ reported_mono st st' ∧
    _pending_fawa_loads st'.1.1 = kept ++ left ∧
    Forall2 (λ x x', x.1 = x'.1 ∧ polled fs x.2 x'.2) (filter (λ x, waiting fs x.2 ≠ []) pending) left ∧
    (∀ id p, (id, p) ∈ pending → waiting fs p = [] → load_failed fs p → reported_failed st' id).
Proof.
  revert kept finished bytes st. induction pending as [|[id p] pending IH];
    intros kept finished bytes st Hp Hnd fs; cbn [poll_fawa_loads].
  { exists st, [], bytes. unfold settled_ids. csimpl. rewrite union_empty_l_L.
    split_and!; [done|done|done|done|constructor|]. by intros id p ?%elem_of_nil. }
  destruct (poll_fawa_tasks_spec (fp_tasks p) [] (fp_failed p) (successful_bytes p) st)
    as (r1 & failed & loaded & E & Hf & Hr).
  erewrite bind_ok by exact E. cbn [fp_tasks fp_failed successful_bytes app]. fold fs. fold (waiting fs p).
  assert (load_failed fs p → failed = true) as Hfail.
  { intros [?|(t & e & Hin & He)]; [by apply Hf|by eapply Hr]. }
  set (st1 := (st.1, r1)). rewrite settled_ids_cons.
  case_bool_decide as Hw.
  - destruct (poll_settle id failed st1) as (st2 & E2 & Hfr & Hmono & Hpend & Hrep).
    rewrite (decide_True _ _ Hw), filter_cons_False by (simpl; by intros []).
    rewrite <- bind_assoc_M. erewrite bind_ok by exact E2.
    pose proof (poll_frame_futures _ _ Hfr) as Hfs. fold fs in Hfs.
    destruct (IH kept ({[id]} ∪ finished) (if failed then bytes else bytes + loaded) st2)
      as (st' & left & bytes' & E3 & Hfr' & Hmono' & Hpend' & Hleft & Hrep').
    { rewrite Hpend. simpl. rewrite Hp. by apply od_del_middle. }
    { by apply NoDup_drop_middle in Hnd. }
    rewrite Hfs in *. exists st', left, bytes'. split_and!.
    + rewrite E3. do 3 f_equal. set_solver.
    + by rewrite Hfr'.
    + split; etrans; [apply Hmono|apply Hmono'|apply Hmono|apply Hmono'].
    + done.
    + done.
    + intros id' p' [[= -> ->]|Hin]%elem_of_cons Hw' Hl; [|by eapply Hrep'].
      eapply reported_failed_mono; [exact Hmono'|]. by apply Hrep, Hfail.
  - rewrite (decide_False _ _ Hw), filter_cons_True by done.
    set (p' := mkFawaPending (waiting fs p) failed loaded).
    erewrite bind_ok by reflexivity. set (st2 := (_, _, _)).
    destruct (IH (kept ++ [(id, p')]) finished bytes st2)
      as (st' & left & bytes' & E3 & Hfr' & Hmono' & Hpend' & Hleft & Hrep').
    { simpl. rewrite Hp, <- app_assoc. apply od_set_middle. rewrite fmap_app in Hnd. csimpl in Hnd.
      apply list.NoDup_app in Hnd as (_ & Hd & _). intros Hk. destruct (Hd id Hk). left. }
    { rewrite <- app_assoc, fmap_app. by rewrite fmap_app in Hnd. }
    change (futures st2.1.1) with fs in *. exists st', ((id, p') :: left), bytes'. split_and!.
    + rewrite E3. do 3 f_equal. set_solver.
    + by rewrite Hfr'.
    + done.
    + by rewrite Hpend', <- app_assoc.
    + by constructor.
    + intros id' q [[= -> ->]|Hin]%elem_of_cons Hw' Hl; [done|by eapply Hrep'].
Qed.

Lemma poll_spec (st : state) :
  NoDup (_pending_fawa_loads st.1.1).*1 →
  let fs := futures st.1.1 in
  let pending := _pending_fawa_loads st.1.1 in
  ∃ st' left bytes',
    _poll_pending_fawa_loads cfg st
      = (st', Ok (settled_ids fs pending ∪ _finished_async_load_req_ids (fw_worker st.1.1), bytes')) ∧
    fw_metadata st'.1.1 = fw_metadata st.1.1 ∧ tp_dump_tasks st'.1.1 = tp_dump_tasks st.1.1 ∧
    futures st'.1.1 = fs ∧ _finished_async_load_req_ids (fw_worker st'.1.1) = ∅ ∧ st'.1.2 = st.1.2 ∧
    reported_mono st st' ∧ _pending_fawa_loads st'.1.1 = left ∧
    Forall2 (λ x x', x.1 = x'.1 ∧ polled fs x.2 x'.2) (filter (λ x, waiting fs x.2 ≠ []) pending) left ∧
    (∀ id p, (id, p) ∈ pending → waiting fs p = [] → load_failed fs p → reported_failed st' id).
Proof.
  intros Hnd fs pending. unfold _poll_pending_fawa_loads. erewrite bind_ok by reflexivity.
  erewrite bind_ok by reflexivity.
  match goal with |- context [poll_fawa_loads cfg _ ?f 0 ?s] =>
    destruct (poll_fawa_loads_spec pending [] f 0 s eq_refl Hnd)
      as (st' & left & bytes' & E & Hfr & Hm & Hp & Hl & Hrep) end.
  exists st', left, bytes'. unfold poll_frame in Hfr. simpl in Hfr. simplify_eq.
  split_and!; done.
Qed.

(** ** Futures of the pending loads *)

(** The task's wait is a call of the pool. *)
Definition started (fs : list pool_future) (t : FAWALoadTask) : Prop :=
  ∃ i f, wait_future t = Some i ∧ fs !! i = Some f ∧ pf_store f = lt_store t ∧ pf_task f = lt_task t.

(** Inside [start_load_kv] new tasks have no future yet. *)
Definition loads_open (st : state) : Prop :=
  NoDup (_pending_fawa_loads st.1.1).*1 ∧
  ∀ id p t, (id, p) ∈ _pending_fawa_loads st.1.1 → t ∈ fp_tasks p →
    wait_future t = None ∨ started (futures st.1.1) t.

Definition loads_ok (st : state) : Prop :=
  NoDup (_pending_fawa_loads st.1.1).*1 ∧
  ∀ id p t, (id, p) ∈ _pending_fawa_loads st.1.1 → t ∈ fp_tasks p → started (futures st.1.1) t.

Lemma started_app fs new t : started fs t → started (fs ++ new) t.
Proof. intros (i & f & ? & ? & ? & ?). exists i, f. split_and!; try done. by apply lookup_app_l_Some. Qed.

Lemma start_waits_spec tasks fs :
  (∀ t, t ∈ tasks → wait_future t = None ∨ started fs t) →
  ∃ new, (start_waits tasks fs).2 = fs ++ new ∧
    ∀ t, t ∈ (start_waits tasks fs).1 → started (fs ++ new) t.
Proof.
  revert fs. induction tasks as [|t tasks IH]; intros fs Ht; simpl.
  { exists []. rewrite app_nil_r. split; [done|]. by intros t ?%elem_of_nil. }
  destruct (wait_future t) as [i|] eqn:Ei.
  - destruct (IH fs) as (new & E & Hs); [intros; apply Ht; by right|].
    destruct (start_waits tasks fs) as [ts fs'] eqn:E1. simpl in *. exists new. split; [done|].
    intros t' [->|Hin]%elem_of_cons; [|by apply Hs].
    destruct (Ht t) as [?|Hst]; [left|congruence|]. by apply started_app.
  - set (f := mkFuture (lt_store t) (lt_task t) None).
    destruct (IH (fs ++ [f])) as (new & E & Hs).
    { intros t' Hin. destruct (Ht t') as [?|?]; [by right|by left|right]. by apply started_app. }
    destruct (start_waits tasks (fs ++ [f])) as [ts fs'] eqn:E1. simpl in *. exists (f :: new).
    rewrite <- app_assoc in *. split; [done|]. intros t' [->|Hin]%elem_of_cons; [|by apply Hs].
    exists (length fs), f. split_and!; [done| |done|done]. apply list_lookup_middle. done.
Qed.

Lemma start_all_waits_spec pending fs :
  (∀ id p t, (id, p) ∈ pending → t ∈ fp_tasks p → wait_future t = None ∨ started fs t) →
  ∃ new, (start_all_waits pending fs).2 = fs ++ new ∧
    (start_all_waits pending fs).1.*1 = pending.*1 ∧
    ∀ id p t, (id, p) ∈ (start_all_waits pending fs).1 → t ∈ fp_tasks p → started (fs ++ new) t.
Proof.
  revert fs. induction pending as [|[id p] pending IH]; intros fs Ht; simpl.
  { exists []. rewrite app_nil_r. split_and!; [done|done|]. by intros ? ? ? ?%elem_of_nil. }
  destruct (start_waits_spec (fp_tasks p) fs) as (new1 & E1 & Hs1); [intros; eapply Ht; [left|done]|].
  destruct (start_waits (fp_tasks p) fs) as [ts fs1]. simpl in *. subst fs1.
  destruct (IH (fs ++ new1)) as (new2 & E2 & Ek & Hs2).
  { intros id' p' t Hin Hin'. destruct (Ht id' p' t) as [?|?]; [by right|done|by left|].
    right. by apply started_app. }
  destruct (start_all_waits pending (fs ++ new1)) as [rest fs2]. simpl in *. subst fs2.
  exists (new1 ++ new2). rewrite <- app_assoc in *. split_and!; [done|by f_equal|].
  intros id' p' t [[= -> ->]|Hin]%elem_of_cons; [|intros; by eapply Hs2].
  intros Hin%Hs1. rewrite (assoc_L (++)). by apply started_app.
Qed.

Definition loads_view (st : state) := (_pending_fawa_loads st.1.1, futures st.1.1).

Lemma manager_loads {A} (m : M (RankConsistencyManager * W) A) : preserves loads_view (manager (D := D) m).
Proof. intros [sd r]. unfold manager, zoom. simpl. by destruct (m r). Qed.

Lemma direct_loads {A} (m : M (WorkerState * D * (RankConsistencyManager * W)) A) :
  preserves loads_view (direct m).
Proof. intros [[s d] r]. unfold direct, zoom. simpl. by destruct (m _). Qed.

Lemma on_fawa_worker_loads f :
  (∀ s, _pending_fawa_loads (f s) = _pending_fawa_loads s ∧ futures (f s) = futures s) →
  preserves loads_view (on_fawa_worker (W := W) (D := D) f).
Proof. intros Hf [[s d] r]. unfold loads_view. simpl. by destruct (Hf s) as [-> ->]. Qed.

Ltac keep_loads :=
  repeat first
    [ apply preserves_bind; [|intros ?]
    | apply preserves_try; [|intros ?]
    | apply preserves_finally
    | apply preserves_ret | apply preserves_raise | apply preserves_get
    | apply preserves_gets | apply preserves_lift
    | apply manager_loads | apply direct_loads
    | apply on_fawa_worker_loads; done
    | case_match | case_bool_decide ].

Lemma submit_request_loads_view id request : preserves loads_view (submit_request_loads (W := W) (D := D) cfg id request).
Proof. unfold submit_request_loads, _submit_load_task, fawa_stores. keep_loads. Qed.

Lemma wait_all_load_task_view tasks b : preserves loads_view (wait_all_load_task (W := W) (D := D) cfg tasks b).
Proof.
  revert b. induction tasks as [|t tasks IH]; intros b; cbn [wait_all_load_task]; [done|].
  apply preserves_bind; [|intros; apply IH]. unfold _wait_load_task, _handle_load_err. keep_loads.
Qed.

Lemma wait_dump_task_view t : preserves loads_view (wait_dump_task (W := W) (D := D) t).
Proof. unfold wait_dump_task. keep_loads. Qed.

Lemma poll_dump_batch_view tasks inf : preserves loads_view (poll_dump_batch (W := W) (D := D) tasks inf).
Proof.
  revert inf. induction tasks as [|t tasks IH]; intros inf; cbn [poll_dump_batch]; [done|].
  keep_loads; first [apply wait_dump_task_view|apply IH].
Qed.

Lemma poll_dump_batches_view batches : preserves loads_view (poll_dump_batches (W := W) (D := D) batches).
Proof.
  induction batches as [|[ids tasks] batches IH]; cbn [poll_dump_batches]; [done|].
  keep_loads; first [apply poll_dump_batch_view|apply IH].
Qed.

Lemma drain_view ids : preserves loads_view (_drain_best_effort_dump_tasks (W := W) (D := D) ids).
Proof.
  unfold _drain_best_effort_dump_tasks. keep_loads.
  all: induction (concat _) as [|t l IH]; cbn [for_each]; keep_loads; first [apply wait_dump_task_view|apply IH].
Qed.

Lemma wait_for_save_view : preserves loads_view (fawa_wait_for_save (W := W) (D := D) cfg).
Proof.
  unfold fawa_wait_for_save, _poll_completed_dump_tasks, submit_fawa_dump, fawa_stores.
  keep_loads; apply poll_dump_batches_view.
Qed.

(** Every value a method returns satisfies [P]. *)
Definition returns {A} (P : A → Prop) (m : M state A) : Prop := ∀ st st' a, m st = (st', Ok a) → P a.

Lemma returns_ret {A} (P : A → Prop) a : P a → returns P (mret a).
Proof. by intros Ha st st' a' [= _ <-]. Qed.

Lemma returns_bind {A B} (R : A → Prop) (P : B → Prop) (m : M state A) (f : A → M state B) :
  returns R m → (∀ a, R a → returns P (f a)) → returns P (m ≫= f).
Proof.
  intros Hm Hf st st' b. unfold mbind, M_bind. destruct (m st) as [st1 [a|e]] eqn:E; [|done].
  apply Hf. by eapply Hm.
Qed.

Lemma returns_any {A} (m : M state A) : returns (λ _, True) m.
Proof. by intros ? ? ?. Qed.

Lemma returns_try {A} (P : A → Prop) (m : M state A) a st :
  returns P m → P a → ∃ st' x, try_except m (λ _, mret a) st = (st', Ok x) ∧ P x.
Proof.
  intros Hm Ha. unfold try_except. destruct (m st) as [st' [x|e]] eqn:E; eexists _, _; (split; [done|]); [|done].
  by eapply Hm.
Qed.

Definition no_future (o : option FAWALoadTask) : Prop := ∀ t, o = Some t → wait_future t = None.

Lemma submit_no_future id label store keys ptrs :
  returns no_future (t ← _submit_load_task cfg id label store keys ptrs; mret (Some t)).
Proof.
  apply (returns_bind (λ t, wait_future t = None)).
  - unfold _submit_load_task. eapply returns_bind; [apply returns_any|]. intros. by apply returns_ret.
  - intros t Ht. apply returns_ret. by intros ? [= <-].
Qed.

Ltac fresh_tasks :=
  repeat first [apply submit_no_future | eapply returns_bind; [apply returns_any|intros; cbv beta]
               | case_match | by intros ? ? ? ?].

Lemma submit_request_loads_fresh id request (st : state) :
  ∃ st' ts ok, submit_request_loads cfg id request st = (st', Ok (ts, ok)) ∧
    loads_view st' = loads_view st ∧ ∀ t, t ∈ ts → wait_future t = None.
Proof.
  pose proof (submit_request_loads_view id request st) as Hv. revert Hv.
  unfold submit_request_loads. match goal with |- context [mbind _ (try_except ?m _) st] =>
    destruct (returns_try no_future m None st) as (st1 & [t|] & E & Ht); [fresh_tasks|done|..] end.
  - erewrite bind_ok by exact E. cbv iota. case_bool_decide.
    + intros Hv. eexists _, _, _. split_and!; [done|exact Hv|]. intros t' ->%list_elem_of_singleton. by apply Ht.
    + match goal with |- context [mbind _ (try_except ?m _) st1] =>
        destruct (returns_try no_future m None st1) as (st2 & [t2|] & E2 & Ht2); [fresh_tasks|done|..] end;
      erewrite bind_ok by exact E2; cbv iota; intros Hv; eexists _, _, _; (split_and!; [done|exact Hv|]).
      * intros t' [-> | ->%list_elem_of_singleton]%elem_of_cons; [by apply Ht|by apply Ht2].
      * intros t' ->%list_elem_of_singleton. by apply Ht.
  - erewrite bind_ok by exact E. cbv iota. intros Hv. eexists _, _, _. split_and!; [done|exact Hv|].
    by intros t' ?%elem_of_nil.
Qed.

Lemma loads_open_view st st' : loads_view st' = loads_view st → loads_open st → loads_open st'.
Proof. unfold loads_view, loads_open. intros [= -> ->]. done. Qed.

Lemma loads_ok_view st st' : loads_view st' = loads_view st → loads_ok st → loads_ok st'.
Proof. unfold loads_view, loads_ok. intros [= -> ->]. done. Qed.

Lemma set_pending_open id p (st : state) :
  loads_open st → (∀ t, t ∈ fp_tasks p → wait_future t = None) →
  loads_open (set_pending id p st).1.
Proof.
  intros [Hnd Ht] Hp. split; simpl; [by apply od_set_NoDup|].
  intros id' p' t Hin Htin. apply od_get_elem in Hin; [|by apply od_set_NoDup].
  rewrite od_get_set in Hin. case_decide; simplify_eq; [by left; apply Hp|].
  eapply Ht; [by eapply od_get_Some_elem|done].
Qed.

Lemma load_fawa_request_open id request (st : state) :
  loads_open st → ∃ st' ts, load_fawa_request cfg id request st = (st', Ok ts) ∧ loads_open st'.
Proof.
  intros Hst. unfold load_fawa_request. erewrite bind_ok by reflexivity.
  destruct (fd_load_async request && _); [by eexists st, []|].
  destruct (submit_request_loads_fresh id request st) as (st1 & ts & ok & E & Hv & Hts).
  erewrite bind_ok by exact E. cbn [fst snd]. pose proof (loads_open_view _ _ Hv Hst) as Hst1.
  destruct (fd_load_async request); [|destruct ok].
  - destruct ok; [|case_bool_decide]; (eexists _, _; split; [reflexivity|]).
    + by apply (set_pending_open id (mkFawaPending ts false 0) st1).
    + eapply loads_open_view; [|exact Hst1]. done.
    + by apply (set_pending_open id (mkFawaPending ts true 0) st1).
  - eexists _, _. split; [reflexivity|done].
  - eexists _, _. split; [reflexivity|]. eapply loads_open_view; [|exact Hst1]. done.
Qed.

Lemma load_fawa_requests_open requests tasks (st : state) :
  loads_open st → ∃ st' ts, load_fawa_requests cfg requests tasks st = (st', Ok ts) ∧ loads_open st'.
Proof.
  revert tasks st. induction requests as [|[id request] requests IH]; intros tasks st Hst; cbn [load_fawa_requests].
  { by eexists st, tasks. }
  case_bool_decide; [by apply IH|].
  destruct (load_fawa_request_open id request st Hst) as (st1 & ts & E & Hst1).
  erewrite bind_ok by exact E. by apply IH.
Qed.

Lemma start_load_kv_ok (st : state) : loads_ok st → loads_ok (fawa_start_load_kv cfg st).1.
Proof.
  intros Hst. unfold fawa_start_load_kv. erewrite bind_ok by reflexivity. unfold mbind at 1, M_bind at 1.
  match goal with |- context [match ?m with _ => _ end] => destruct m as [st0 o] eqn:E0 end.
  assert (loads_ok st0) as Hst0.
  { eapply loads_ok_view; [|exact Hst]. revert E0. case_match; [|by intros [= <-]].
    intros E0. pose proof (direct_loads (on_device synchronize) st) as Hv. by rewrite E0 in Hv. }
  destruct o as [[]|e]; [|done].
  destruct (load_fawa_requests_open (fawa_request_meta (fw_metadata st.1.1)) [] st0) as (st1 & ts & E1 & [Hnd Ht]).
  { destruct Hst0 as [Hnd Ht]. split; [done|]. intros. right. by eapply Ht. }
  erewrite bind_ok by exact E1. erewrite bind_ok by reflexivity.
  destruct (start_all_waits_spec _ _ Ht) as (new & Efs & Ek & Hs).
  unfold mbind at 1, M_bind at 1.
  match goal with |- context [wait_all_load_task cfg ?l 0 ?s] =>
    pose proof (wait_all_load_task_view l 0 s) as Hv; destruct (wait_all_load_task cfg l 0 s) as [st2 o] end.
  assert (loads_ok st2) as Hok.
  { eapply loads_ok_view; [exact Hv|]. unfold loads_ok. simpl.
    destruct (start_all_waits _ _) as [pending fs]. simpl in *. subst fs. split; [by rewrite Ek|done]. }
  by destruct o.
Qed.

(** ** The pool *)

(** The calls of the pool keep their place; one that ended stays as it is. *)
Definition calls_kept (fs fs' : list pool_future) : Prop :=
  ∀ j f, fs !! j = Some f →
    ∃ f', fs' !! j = Some f' ∧ pf_store f' = pf_store f ∧ pf_task f' = pf_task f ∧
      (pf_result f ≠ None → f' = f).

Lemma calls_kept_refl fs : calls_kept fs fs.
Proof. intros j f Hj. by exists f. Qed.

Lemma calls_kept_trans fs1 fs2 fs3 : calls_kept fs1 fs2 → calls_kept fs2 fs3 → calls_kept fs1 fs3.
Proof.
  intros H12 H23 j f (f2 & Hj & Es & Et & Ef)%H12. apply H23 in Hj as (f3 & Hj & Es' & Et' & Ef').
  exists f3. split_and!; [done|congruence|congruence|].
  intros Hr. rewrite <- (Ef Hr). apply Ef'. by rewrite (Ef Hr).
Qed.

Lemma run_wait_spec i (st : state) :
  ∃ st', run_wait i st = (st', Ok tt) ∧ _pending_fawa_loads st'.1.1 = _pending_fawa_loads st.1.1 ∧
    length (futures st'.1.1) = length (futures st.1.1) ∧ calls_kept (futures st.1.1) (futures st'.1.1) ∧
    (∀ f, futures st'.1.1 !! i = Some f → pf_result f ≠ None).
Proof.
  unfold run_wait. erewrite bind_ok by reflexivity.
  destruct (futures st.1.1 !! i) as [[sto t [o|]]|] eqn:Ei.
  - exists st. split_and!; [done|done|done|apply calls_kept_refl|]. intros f Hf. rewrite Ei in Hf. by simplify_eq.
  - match goal with |- context [mbind _ (try_except ?m ?h) st] =>
      assert (preserves loads_view (try_except m h)) as Hv by keep_loads;
      destruct (try_except_total m h st) as (st1 & o & E); [by intros; eexists _, _|] end.
    specialize (Hv st). rewrite E in Hv. erewrite bind_ok by exact E.
    injection Hv as Ep Ef. eexists. split; [reflexivity|]. simpl. rewrite Ep, Ef.
    split_and!; [done|apply length_insert| |].
    + intros j f Hj. destruct (decide (i = j)) as [<-|Hne].
      * rewrite Ei in Hj. simplify_eq. rewrite list_lookup_insert_eq by (by eapply lookup_lt_Some). by eexists.
      * rewrite list_lookup_insert_ne by done. by exists f.
    + intros f. rewrite list_lookup_insert_eq by (by eapply lookup_lt_Some). by intros [= <-].
  - exists st. split_and!; [done|done|done|apply calls_kept_refl|]. intros f Hf. by rewrite Ei in Hf.
Qed.

Lemma started_kept fs fs' t : calls_kept fs fs' → started fs t → started fs' t.
Proof.
  intros Hk (i & f & Hi & (f' & Hf' & Es & Et & _)%Hk & Hs & Ht).
  exists i, f'. split_and!; [done|done|congruence|congruence].
Qed.

Lemma loads_ok_kept (st st' : state) :
  _pending_fawa_loads st'.1.1 = _pending_fawa_loads st.1.1 → calls_kept (futures st.1.1) (futures st'.1.1) →
  loads_ok st → loads_ok st'.
Proof.
  intros Ep Hk [Hnd Ht]. unfold loads_ok. rewrite Ep. split; [done|].
  intros id p t Hin Htin. eapply started_kept; [done|]. by eapply Ht.
Qed.

Lemma run_waits_spec l (st : state) :
  ∃ st', for_each l run_wait st = (st', Ok tt) ∧ _pending_fawa_loads st'.1.1 = _pending_fawa_loads st.1.1 ∧
    length (futures st'.1.1) = length (futures st.1.1) ∧ calls_kept (futures st.1.1) (futures st'.1.1) ∧
    (∀ i f, i ∈ l → futures st'.1.1 !! i = Some f → pf_result f ≠ None).
Proof.
  revert st. induction l as [|i l IH]; intros st; cbn [for_each].
  { exists st. split_and!; [done|done|done|apply calls_kept_refl|]. by intros i f ?%elem_of_nil. }
  destruct (run_wait_spec i st) as (st1 & E1 & Ep1 & El1 & Hk1 & Hi). erewrite bind_ok by exact E1.
  destruct (IH st1) as (st' & -> & Ep & El & Hk & Hl). exists st'.
  split_and!; [done|congruence|congruence|by eapply calls_kept_trans|].
  intros j f [->|Hj]%elem_of_cons Hf; [|by eapply Hl].
  assert (is_Some (futures st1.1.1 !! i)) as [f1 Hf1].
  { apply lookup_lt_is_Some. rewrite <- El. by eapply lookup_lt_Some. }
  destruct (Hk i f1 Hf1) as (f' & Hf' & _ & _ & Eq). specialize (Hi f1 Hf1).
  rewrite Hf in Hf'. injection Hf' as <-. by rewrite (Eq Hi).
Qed.

(** [shutdown(wait=True)] returns when every call has run. *)
Lemma fawa_shutdown_spec (st : state) :
  ∃ st', fawa_shutdown st = (st', Ok tt) ∧ _pending_fawa_loads st'.1.1 = _pending_fawa_loads st.1.1 ∧
    calls_kept (futures st.1.1) (futures st'.1.1) ∧
    (∀ i f, futures st'.1.1 !! i = Some f → pf_result f ≠ None).
Proof.
  unfold fawa_shutdown. erewrite bind_ok by reflexivity.
  destruct (run_waits_spec (seq 0 (length (futures st.1.1))) st) as (st' & E & Ep & El & Hk & Hl).
  exists st'. split_and!; [done|done|done|]. intros i f Hf. eapply Hl; [|done].
  apply elem_of_seq. apply lookup_lt_Some in Hf. lia.
Qed.

Lemma all_settled fs p :
  (∀ t, t ∈ fp_tasks p → started fs t) → (∀ i f, fs !! i = Some f → pf_result f ≠ None) → waiting fs p = [].
Proof.
  intros Ht Hd. unfold waiting. induction (fp_tasks p) as [|t l IH]; [done|].
  rewrite filter_cons_False; [apply IH; intros; apply Ht; by right|].
  destruct (Ht t) as (i & f & Hi & Hf & _); [left|]. unfold future_result. rewrite Hi. simpl. rewrite Hf. simpl.
  by eapply Hd.
Qed.

Lemma poll_ok (st : state) : loads_ok st → loads_ok (_poll_pending_fawa_loads cfg st).1.
Proof.
  intros [Hnd Ht]. destruct (poll_spec st Hnd) as (st' & left & b & -> & _ & _ & Ef & _ & _ & _ & Ep & Hl & _).
  unfold loads_ok. simpl. rewrite Ef, Ep. split.
  - assert (left.*1 = (filter (λ x, waiting (futures st.1.1) x.2 ≠ []) (_pending_fawa_loads st.1.1)).*1) as ->.
    { clear -Hl. induction Hl as [|x x' l l' [E _] _ IH]; csimpl; [done|]. by rewrite E, IH. }
    by apply NoDup_keys_filter.
  - intros id p' t Hin Htin. apply list_elem_of_lookup in Hin as [i Hi].
    destruct (Forall2_lookup_r _ _ _ _ _ Hl Hi) as ([id0 p] & Hx & _ & _ & Etasks & _). simpl in *.
    apply list_elem_of_lookup_2, list_elem_of_filter in Hx as [_ Hx]. rewrite Etasks in Htin.
    apply list_elem_of_filter in Htin as [_ Htin]. by eapply Ht.
Qed.
End loads.
