(* ===== verification/FawaWorkerDumps.v ===== *)
(** * Dumps and reports of the FAWA worker

    The dump tasks of [UCMFAWAConnector]
    (src/ucm/integration/vllm/hma_connector.py): which batches cover the tasks the
    rank consistency manager knows, what [get_finished] and [handle_preemptions]
    wait for, and what [get_finished] reports. *)

From Stdlib Require Import ZArith Lia.
From stdpp Require Import base list gmap strings numbers fin_sets.
From S2P Require Import Prelude.
From S2P Require Import Store.
From S2P Require Import RankConsistency.
From S2P Require Import DirectScheduler.
From S2P Require Import DirectWorker.
From S2P Require Import WorkerDumps.
From S2P Require Import FawaScheduler.
From S2P Require Import FawaWorker.
From S2P Require Import FawaDumpSplit.
From S2P Require Import FawaWorkerLoads.
Local Open Scope Z_scope.

Abbreviation dump_contexts := (gmap Z (store_id * gmap string (gset string))).
Abbreviation batch := (list req_id * list FAWADumpTask)%type.

Section dumps.
Context {W D : Type} `{StoreWorld W} `{DeviceSpec D} `{PySetOrder}.
Variable cfg : FawaWorkerConfig.

Abbreviation state := (FawaWorker * D * (RankConsistencyManager * W))%type.

Definition contexts (st : state) : dump_contexts := _dump_task_contexts st.2.1.

(** Every task the manager knows is in a batch that names all its requests. *)
Definition covered (c : dump_contexts) (batches : list batch) : Prop :=
  ∀ t x, c !! t = Some x →
    ∃ b d, b ∈ batches ∧ d ∈ b.2 ∧ dt_task d = t ∧ dom x.2 ⊆ list_to_set b.1.

Definition dumps_ok (st : state) : Prop :=
  NoDup (tp_dump_tasks st.1.1).*1 ∧ covered (contexts st) (tp_dump_tasks st.1.1).

(** ** Waiting *)

Lemma wait_dump_task_spec d (st : state) :
  ∃ st', wait_dump_task d st = (st', Ok tt) ∧ st'.1.1 = st.1.1 ∧
    contexts st' = delete (dt_task d) (contexts st) ∧ events st'.1.2 = events st.1.2 ∖ {[dt_event_handle d]}.
Proof.
  destruct st as [[s dv] [m w]]. unfold wait_dump_task, try_finally, try_except, manager, zoom. simpl.
  pose proof (wait_dump_contexts (dt_task d) m w) as Hc.
  destruct (wait_dump (dt_task d) (m, w)) as [[m' w'] o]. simpl in Hc.
  destruct (destroy_event_handle_ok dv (dt_event_handle d)) as [Hok Hev].
  unfold direct, on_device, zoom. simpl.
  destruct o as [[]|e]; simpl; destruct (destroy_event_handle (dt_event_handle d) dv) as [dv' r]; simpl in *; subst r;
    (eexists; split; [done|]); by destruct s.
Qed.

Lemma wait_dump_tasks_spec l (st : state) :
  ∃ st', for_each l wait_dump_task st = (st', Ok tt) ∧ st'.1.1 = st.1.1 ∧
    contexts st' ⊆ contexts st ∧ (∀ d, d ∈ l → contexts st' !! dt_task d = None) ∧
    events st'.1.2 = events st.1.2 ∖ list_to_set (dt_event_handle <$> l).
Proof.
  revert st. induction l as [|d l IH]; intros st; cbn [for_each].
  { exists st. split_and!; [done|done|done|by intros d ?%elem_of_nil|]. csimpl. set_solver. }
  destruct (wait_dump_task_spec d st) as (st1 & E1 & Es1 & Ec1 & Ee1). erewrite bind_ok by exact E1.
  destruct (IH st1) as (st' & -> & Es & Ec & Hl & Ee). exists st'.
  assert (contexts st1 ⊆ contexts st) as Hsub by (rewrite Ec1; apply delete_subseteq).
  split_and!; [done|congruence|by etrans| |].
  - intros d' [->|Hin]%elem_of_cons; [|by apply Hl].
    eapply lookup_weaken_None; [|exact Ec]. rewrite Ec1. apply lookup_delete_eq.
  - rewrite Ee, Ee1. csimpl. set_solver.
Qed.

Lemma covered_mono c c' batches : c' ⊆ c → covered c batches → covered c' batches.
Proof. intros Hc Hcov t x Hx. eapply Hcov, lookup_weaken; done. Qed.

Lemma check_total sto t (st : state) :
  ∃ st' b, try_except (manager (on_world (store_check sto t))) (λ _, mret false) st = (st', Ok b) ∧
    st'.1.1 = st.1.1 ∧ contexts st' = contexts st.
Proof.
  destruct st as [sd [m w]]. unfold try_except, manager, on_world, zoom. simpl.
  destruct (store_check sto t w) as [w1 [b|e]]; by eexists _, _.
Qed.

Lemma poll_dump_batch_spec tasks in_flight (st : state) :
  ∃ st' kept, poll_dump_batch tasks in_flight st = (st', Ok (in_flight ++ kept)) ∧ st'.1.1 = st.1.1 ∧
    contexts st' ⊆ contexts st ∧
    (∀ d, d ∈ tasks → d ∈ kept ∨ contexts st' !! dt_task d = None).
Proof.
  revert in_flight st. induction tasks as [|d tasks IH]; intros in_flight st; cbn [poll_dump_batch].
  { exists st, []. rewrite app_nil_r. split_and!; try done. by intros d ?%elem_of_nil. }
  destruct (check_total (dt_store d) (dt_task d) st) as (st1 & b & E & Es1 & Ec1). erewrite bind_ok by exact E.
  destruct b.
  - destruct (wait_dump_task_spec d st1) as (st2 & E2 & Es2 & Ec2 & _). erewrite bind_ok by exact E2.
    destruct (IH in_flight st2) as (st' & kept & -> & Es & Ec & Hk). exists st', kept.
    assert (contexts st2 ⊆ contexts st) as Hsub by (rewrite Ec2, Ec1; apply delete_subseteq).
    split_and!; [done|congruence|by etrans|].
    intros d' [->|Hin]%elem_of_cons; [right|by apply Hk].
    eapply lookup_weaken_None; [|exact Ec]. rewrite Ec2. apply lookup_delete_eq.
  - destruct (IH (in_flight ++ [d]) st1) as (st' & kept & -> & Es & Ec & Hk). exists st', (d :: kept).
    rewrite <- app_assoc. split_and!; [done|congruence|by rewrite <- Ec1|].
    intros d' [->|Hin]%elem_of_cons; [left; left|]. destruct (Hk d' Hin); [left; by right|by right].
Qed.

(** What is left of a batch covers what the batch covered. *)
Lemma covered_replace c c' kept ids tasks tasks' rest :
  c' ⊆ c → (∀ d, d ∈ tasks → d ∈ tasks' ∨ c' !! dt_task d = None) →
  covered c (kept ++ (ids, tasks) :: rest) →
  covered c' (kept ++ (if bool_decide (tasks' = []) then [] else [(ids, tasks')]) ++ rest).
Proof.
  intros Hsub Hk Hcov t x Hx. destruct (Hcov t x) as (b & d & Hb & Hd & Ht & Hdom); [by eapply lookup_weaken|].
  assert (b = (ids, tasks) ∨ b ∈ kept ++ rest) as [->|Hin] by set_solver.
  - destruct (Hk d Hd) as [Hd'|Hn]; [|by rewrite Ht, Hx in Hn].
    rewrite bool_decide_eq_false_2 by (intros ->; by apply elem_of_nil in Hd').
    exists (ids, tasks'), d. split_and!; [|done..]. set_solver.
  - exists b, d. split_and!; [|done..]. set_solver.
Qed.

Lemma poll_dump_batches_spec batches kept (st : state) :
  tp_dump_tasks st.1.1 = kept ++ batches → NoDup (kept ++ batches).*1 → covered (contexts st) (kept ++ batches) →
  ∃ st', poll_dump_batches batches st = (st', Ok tt) ∧ dumps_ok st'.
Proof.
  revert kept st. induction batches as [|[ids tasks] batches IH]; intros kept st Etp Hnd Hcov;
    cbn [poll_dump_batches].
  { exists st. split; [done|]. unfold dumps_ok. by rewrite Etp. }
  destruct (poll_dump_batch_spec tasks [] st) as (st1 & left & E1 & Es1 & Ec1 & Hk).
  erewrite bind_ok by exact E1. simpl app.
  pose proof (covered_replace _ _ _ ids tasks left _ Ec1 Hk Hcov) as Hcov1.
  case_bool_decide as Hl; erewrite bind_ok by reflexivity.
  - apply (IH kept); [|by apply NoDup_drop_middle in Hnd|done].
    simpl. rewrite Es1, Etp. by apply od_del_middle.
  - apply (IH (kept ++ [(ids, left)])); rewrite <- app_assoc; [| |done].
    + simpl. rewrite Es1, Etp. apply od_set_middle. rewrite fmap_app in Hnd. csimpl in Hnd.
      apply list.NoDup_app in Hnd as (_ & Hd & _). intros Hin. destruct (Hd ids Hin). left.
    + by rewrite fmap_app in *.
Qed.

Lemma elem_of_concat {A} (x : A) ls : x ∈ concat ls ↔ ∃ l, x ∈ l ∧ l ∈ ls.
Proof.
  rewrite list_elem_of_In, in_concat. setoid_rewrite list_elem_of_In. naive_solver.
Qed.

Lemma foldl_od_del {K V} `{EqDecision K} (ks : list K) (d : list (K * V)) :
  foldl (λ d k, od_del k d) d ks = filter (λ p, p.1 ∉ ks) d.
Proof.
  revert d. induction ks as [|k ks IH]; intros d; simpl.
  - symmetry. apply filter_all. intros x _. by intros ?%elem_of_nil.
  - rewrite IH. unfold od_del. rewrite list_filter_filter. apply list_filter_iff. intros x.
    rewrite not_elem_of_cons. tauto.
Qed.

(** Draining waits for the batches that name one of the requests, and keeps the others. *)
Lemma drain_spec ids (st : state) :
  dumps_ok st →
  ∃ st', _drain_best_effort_dump_tasks ids st = (st', Ok tt) ∧ dumps_ok st' ∧
    st'.1.1 = set_fw_dumps (filter (λ b, batch_touches ids b.1 = false) (tp_dump_tasks st.1.1)) st.1.1 ∧
    events st'.1.2 = events st.1.2 ∖ list_to_set (dt_event_handle <$>
      concat (filter (λ b, batch_touches ids b.1 = true) (tp_dump_tasks st.1.1)).*2).
Proof.
  intros [Hnd Hcov]. unfold _drain_best_effort_dump_tasks.
  destruct (match ids with Some r => bool_decide (r = ∅) | None => false end) eqn:Eids.
  { assert (∀ b : batch, batch_touches ids b.1 = false) as Hno.
    { intros b. destruct ids as [r|]; [|done]. apply bool_decide_eq_true_1 in Eids. simpl.
      apply bool_decide_eq_false_2. set_solver. }
    exists st. split_and!; try done.
    - rewrite filter_all by done. by destruct st as [[[]]].
    - assert (filter (λ b : batch, batch_touches ids b.1 = true) (tp_dump_tasks st.1.1) = []) as ->; [|csimpl; set_solver].
      clear -Hno. induction (tp_dump_tasks st.1.1) as [|b l IH]; [done|].
      rewrite filter_cons_False; [done|]. by rewrite Hno. }
  erewrite bind_ok by reflexivity. set (hit := filter _ (tp_dump_tasks st.1.1)).
  destruct (wait_dump_tasks_spec (concat hit.*2) st) as (st1 & E1 & Es1 & Ec1 & Hl & Ee).
  erewrite bind_ok by exact E1. eexists. split; [reflexivity|].
  assert (foldl (λ d k, od_del k d) (tp_dump_tasks st1.1.1) hit.*1 =
    filter (λ b, batch_touches ids b.1 = false) (tp_dump_tasks st.1.1)) as Etp.
  { rewrite foldl_od_del, Es1. apply filter_on. intros b Hb. rewrite list_elem_of_fmap. split.
    - intros Hno. destruct (batch_touches ids b.1) eqn:Et; [|done]. destruct Hno. exists b. split; [done|].
      apply list_elem_of_filter. by rewrite Et.
    - intros Et (b' & Eb & [Ht _]%list_elem_of_filter). rewrite <- Eb, Et in Ht. done. }
  unfold dumps_ok, contexts. simpl. rewrite Etp, Es1.
  split_and!; try done; [by apply NoDup_keys_filter| |].
  - intros t x Hx. destruct (Hcov t x) as (b & d & Hb & Hd & Ht & Hdom); [by eapply lookup_weaken|].
    exists b, d. split_and!; [|done..]. apply list_elem_of_filter. split; [|done].
    destruct (batch_touches ids b.1) eqn:Et; [|done].
    rewrite <- Ht in Hx. unfold contexts in Hl. rewrite Hl in Hx; [done|].
    apply elem_of_concat. exists b.2. split; [done|]. apply list_elem_of_fmap_2, list_elem_of_filter. by rewrite Et.
  - rewrite Ee. unfold hit. rewrite (filter_on _ (λ b : batch, batch_touches ids b.1 = true)); [done|].
    intros b _. destruct (batch_touches ids b.1); done.
Qed.

(** ** Saving *)

(** The tasks of a step name only the requests of its batch. *)
Definition named (l : fawa_dumps) : Prop :=
  dom (fa_dump_blocks l) ⊆ list_to_set (fd_request_ids l) ∧
  dom (wa_dump_blocks l) ⊆ list_to_set (fd_request_ids l).

Lemma named_add_dump_request id l :
  named l → named (add_dump_request id l) ∧ id ∈ fd_request_ids (add_dump_request id l).
Proof. unfold named. simpl. rewrite list_to_set_app. intros []. split_and!; set_solver. Qed.

Lemma named_add_fa id keys m l :
  named l → id ∈ fd_request_ids l → named (add_fa id keys m l) ∧ id ∈ fd_request_ids (add_fa id keys m l).
Proof. unfold named. simpl. rewrite dom_insert. intros [] ?. split_and!; set_solver. Qed.

Lemma named_add_wa id keys m l :
  named l → id ∈ fd_request_ids l → named (add_wa id keys m l).
Proof. unfold named. simpl. rewrite dom_insert. intros [] ?. split_and!; set_solver. Qed.

Lemma add_request_named (tp : bool) id request l l' :
  (if tp then add_request_tp cfg id request l else add_request_single cfg id request l) = Ok l' →
  named l → named l'.
Proof.
  intros E [Hn Hid]%(named_add_dump_request id). revert E.
  unfold add_request_tp, add_request_single. set (l0 := add_dump_request id l) in *. clearbody l0.
  unfold mbind, outcome_bind. intros E.
  repeat (case_match; simplify_eq/=; try done);
    repeat first [done | apply named_add_wa | apply named_add_fa | apply (proj1 (named_add_fa _ _ _ _ _ _))
                 | apply (proj2 (named_add_fa _ _ _ _ Hn Hid)) ].
Qed.

Lemma collect_named requests l l' : collect_fawa_dumps cfg requests l = Ok l' → named l → named l'.
Proof.
  revert l. induction requests as [|[id request] requests IH]; intros l; simpl; [by intros [= ->]|].
  case_bool_decide; [apply IH|]. destruct (if 1 <? _ then _ else _) as [l1|e] eqn:E1; simpl; [|done].
  intros E Hn. eapply IH; [exact E|]. by eapply add_request_named.
Qed.

(** A new task at the end of the batch of its requests. *)
Lemma covered_insert c t sto ctx ids d batches :
  NoDup batches.*1 → covered c batches → dt_task d = t → dom ctx ⊆ list_to_set ids →
  covered (<[t := (sto, ctx)]> c) (od_set ids (default [] (od_get ids batches) ++ [d]) batches).
Proof.
  intros Hnd Hcov Ht Hdom. set (new := default [] (od_get ids batches) ++ [d]).
  assert ((ids, new) ∈ od_set ids new batches) as Hnew.
  { apply od_get_Some_elem. rewrite od_get_set. by rewrite decide_True. }
  intros t' x Hx. apply lookup_insert_Some in Hx as [[<- <-]|[Hne Hx]].
  - exists (ids, new), d. split_and!; [done| |done|done]. apply elem_of_app. right. by apply list_elem_of_singleton.
  - destruct (Hcov t' x Hx) as ([ids' tasks] & d' & Hb & Hd' & Ht' & Hdom').
    apply od_get_elem in Hb; [|done]. destruct (decide (ids' = ids)) as [->|Hids].
    + exists (ids, new), d'. split_and!; [done| |done|done]. unfold new. rewrite Hb. apply elem_of_app. by left.
    + exists (ids', tasks), d'. split_and!; [|done..]. apply od_get_Some_elem. rewrite od_get_set.
      by rewrite decide_False.
Qed.

Lemma submit_fawa_dump_ok label sto keys rows blocks ids (st : state) :
  dumps_ok st → dom blocks ⊆ list_to_set ids →
  dumps_ok (submit_fawa_dump cfg label sto keys rows blocks ids st).1.
Proof.
  intros [Hnd Hcov] Hdom. unfold submit_fawa_dump. case_bool_decide; [done|].
  destruct st as [[s d] [m w]]. unfold mbind at 1, M_bind at 1. unfold direct at 1, zoom at 1. cbn [fst snd].
  destruct (get_handle_spec (fw_cfg cfg) (fw_worker s) d (m, w)) as (d1 & o & -> & _). cbn [fst snd].
  destruct o as [h|e]; [|done]. unfold mbind at 1, M_bind at 1. unfold lift_outcome.
  destruct (np_vstack rows) as [ptrs|e]; [|done].
  unfold try_except, mbind, M_bind. unfold manager at 1, zoom at 1. cbn [fst snd].
  destruct (submit_dump sto blocks keys _ ptrs h (m, w)) as [[m1 w1] o] eqn:E. apply submit_dump_contexts in E.
  destruct o as [t|e].
  - destruct E as (ctx & Ec & Hctx). split; simpl.
    + by apply od_set_NoDup.
    + unfold contexts. simpl. rewrite Ec. apply covered_insert; [done|done|done|]. by etrans.
  - unfold direct, on_device, zoom. simpl. destruct (destroy_event_handle h d1) as [d2 [[]|]]; simpl;
      (split; [done|]); unfold contexts; simpl; by rewrite E.
Qed.

(** [m] keeps [I], also when it raises. *)
Definition keeps {A} (I : state → Prop) (m : M state A) : Prop := ∀ st, I st → I (m st).1.

Lemma keeps_bind {A B} I (m : M state A) (f : A → M state B) :
  keeps I m → (∀ a, keeps I (f a)) → keeps I (m ≫= f).
Proof.
  intros Hm Hf st Hst. specialize (Hm st Hst). unfold mbind, M_bind.
  destruct (m st) as [st1 [a|e]]; [by apply Hf|done].
Qed.

Lemma poll_completed_ok : keeps dumps_ok _poll_completed_dump_tasks.
Proof.
  intros st [Hnd Hcov]. unfold _poll_completed_dump_tasks. erewrite bind_ok by reflexivity.
  destruct (poll_dump_batches_spec (tp_dump_tasks st.1.1) [] st) as (st' & -> & Hok); done.
Qed.

Lemma wait_for_save_ok : keeps dumps_ok (fawa_wait_for_save cfg).
Proof.
  apply keeps_bind; [unfold fawa_stores; intros st; by repeat case_match|]. intros [fa wa].
  apply keeps_bind; [apply poll_completed_ok|]. intros [].
  intros st Hst. erewrite bind_ok by reflexivity. cbn [fst snd]. unfold mbind at 1, M_bind at 1, lift_outcome at 1.
  destruct (collect_fawa_dumps cfg _ no_dumps) as [l|e] eqn:El; [|done].
  assert (named l) as [Hfa Hwa].
  { eapply collect_named; [exact El|]. split; simpl; by rewrite dom_empty. }
  revert st Hst El. intros st Hst _. revert st Hst.
  apply keeps_bind; [intros st Hst; by apply submit_fawa_dump_ok|]. intros b1.
  apply keeps_bind; [|by intros ? ?].
  destruct wa; [intros st Hst; by apply submit_fawa_dump_ok|by intros ? ?].
Qed.

(** ** Runs of the worker *)

(** The calls of the engine, a thread of the pool that runs a queued call, and a change
    of what the stores hold. *)
Inductive fawa_step : state → state → Prop :=
| fawa_bind md st : fawa_step st (fawa_bind_connector_metadata md st).1
| fawa_load st : fawa_step st (fawa_start_load_kv cfg st).1
| fawa_run i st : fawa_step st (run_wait i st).1
| fawa_save st : fawa_step st (fawa_wait_for_save cfg st).1
| fawa_preempt st : fawa_step st (fawa_handle_preemptions st).1
| fawa_finished ids st : fawa_step st (fawa_get_finished cfg ids st).1
| fawa_results ids st : fawa_step st (get_transfer_results cfg ids st).1
| fawa_errors st : fawa_step st (direct get_block_ids_with_load_errors st).1
| fawa_report st : fawa_step st (direct build_connector_worker_meta st).1
| fawa_stores_change sd m w w' : fawa_step (sd, (m, w)) (sd, (m, w'))
| fawa_stop st : fawa_step st (fawa_shutdown st).1.

Inductive fawa_reachable : state → Prop :=
| fawa_init mla use md d w :
    fawa_reachable (mkFawaWorker (WorkerState_init mla) md [] ∅ [] [], d, (RankConsistencyManager_init false use, w))
| fawa_next st st' : fawa_reachable st → fawa_step st st' → fawa_reachable st'.

Definition fawa_ok (st : state) : Prop := loads_ok st ∧ dumps_ok st.

(** What loading leaves alone. *)
Definition dumps_view (st : state) := (tp_dump_tasks st.1.1, contexts st).

Lemma dumps_ok_view st st' : dumps_view st' = dumps_view st → dumps_ok st → dumps_ok st'.
Proof. unfold dumps_view, dumps_ok. intros [= -> ->]. done. Qed.

Lemma manager_dumps {A} (m : M (RankConsistencyManager * W) A) :
  preserves contexts_view m → preserves dumps_view (manager m).
Proof.
  intros Hm [sd r]. specialize (Hm r). unfold manager, zoom, dumps_view, contexts. simpl.
  destruct (m r) as [r' o]. simpl in *. unfold contexts_view in Hm. by rewrite Hm.
Qed.

Lemma direct_worker_dumps f : preserves dumps_view (direct (on_worker f)).
Proof. by intros [[s d] r]. Qed.

Lemma direct_device_dumps {A} (m : M D A) : preserves dumps_view (direct (on_device m)).
Proof. intros [[s d] r]. unfold direct, on_device, zoom. simpl. by destruct (m d). Qed.

(** The inherited calls that keep the manager's tasks. *)
Lemma direct_dumps {A} (m : M (WorkerState * D * (RankConsistencyManager * W)) A) :
  preserves dump_view m → preserves dumps_view (direct m).
Proof.
  intros Hm [[s d] r]. specialize (Hm (fw_worker s, d, r)). unfold direct, zoom, dumps_view, contexts. simpl.
  destruct (m _) as [[[s' d'] r'] o]. unfold dump_view in Hm. simpl in *. by injection Hm as _ _ _ ->.
Qed.

Lemma on_fawa_worker_dumps f :
  (∀ s, tp_dump_tasks (f s) = tp_dump_tasks s) → preserves dumps_view (on_fawa_worker f).
Proof. intros Hf [[s d] r]. unfold dumps_view. simpl. by rewrite Hf. Qed.

Ltac keep_dumps :=
  repeat first
    [ apply preserves_bind; [|intros ?]
    | apply preserves_try; [|intros ?]
    | apply preserves_ret | apply preserves_raise | apply preserves_get
    | apply preserves_gets | apply preserves_lift
    | apply manager_dumps; first [apply on_world_view|apply submit_load_view|apply wait_load_view]
    | apply direct_worker_dumps | apply direct_device_dumps
    | apply on_fawa_worker_dumps; intros ?; try done
    | case_match | case_bool_decide ].

Lemma handle_load_err_dumps id : preserves dumps_view (_handle_load_err id).
Proof. unfold _handle_load_err, _record_load_error, worker_mark_failed. keep_dumps. Qed.

Lemma load_fawa_request_dumps id request : preserves dumps_view (load_fawa_request cfg id request).
Proof.
  unfold load_fawa_request, submit_request_loads, _submit_load_task, set_pending, fawa_stores,
    finish_async_load, worker_mark_failed.
  keep_dumps; apply handle_load_err_dumps.
Qed.

Lemma load_fawa_requests_dumps requests tasks : preserves dumps_view (load_fawa_requests cfg requests tasks).
Proof.
  revert tasks. induction requests as [|[id request] requests IH]; intros tasks; cbn [load_fawa_requests]; [done|].
  case_bool_decide; [apply IH|]. apply preserves_bind; [apply load_fawa_request_dumps|intros; apply IH].
Qed.

Lemma wait_all_load_task_dumps tasks b : preserves dumps_view (wait_all_load_task cfg tasks b).
Proof.
  revert b. induction tasks as [|t tasks IH]; intros b; cbn [wait_all_load_task]; [done|].
  unfold _wait_load_task. keep_dumps; first [apply handle_load_err_dumps|apply IH].
Qed.

Lemma start_load_kv_dumps : preserves dumps_view (fawa_start_load_kv cfg).
Proof.
  unfold fawa_start_load_kv.
  keep_dumps; first [apply load_fawa_requests_dumps|apply wait_all_load_task_dumps|idtac].
  by destruct (start_all_waits _ _).
Qed.

Lemma run_wait_dumps i : preserves dumps_view (run_wait i).
Proof. unfold run_wait. keep_dumps. Qed.

Lemma poll_fawa_tasks_dumps tasks rem f b : preserves dumps_view (poll_fawa_tasks cfg tasks rem f b).
Proof.
  revert rem f b. induction tasks as [|t tasks IH]; intros rem f b; cbn [poll_fawa_tasks]; [done|].
  keep_dumps; apply IH.
Qed.

Lemma poll_fawa_loads_dumps pending fin b : preserves dumps_view (poll_fawa_loads cfg pending fin b).
Proof.
  revert fin b. induction pending as [|[id p] pending IH]; intros fin b; cbn [poll_fawa_loads]; [done|].
  unfold worker_mark_failed, set_pending. keep_dumps; first [apply poll_fawa_tasks_dumps|apply IH].
Qed.

Lemma poll_dumps_view : preserves dumps_view (_poll_pending_fawa_loads cfg).
Proof. unfold _poll_pending_fawa_loads. keep_dumps; apply poll_fawa_loads_dumps. Qed.

(** ** Reporting *)

(** The requests [get_finished] reports as received. *)
Definition received (st : state) : gset string :=
  settled_ids (futures st.1.1) (_pending_fawa_loads st.1.1) ∪ _finished_async_load_req_ids (fw_worker st.1.1).

Definition pending_ids (st : state) : gset string := list_to_set (_pending_fawa_loads st.1.1).*1.

(** No batch and no task of the manager names one of the requests. *)
Definition drained (ids : gset string) (st : state) : Prop :=
  (∀ b, b ∈ tp_dump_tasks st.1.1 → ids ∩ list_to_set b.1 = ∅) ∧
  (∀ t x, contexts st !! t = Some x → ids ∩ dom x.2 = ∅).

Lemma drained_filter ids (st st' : state) :
  dumps_ok st' →
  st'.1.1 = set_fw_dumps (filter (λ b, batch_touches (Some ids) b.1 = false) (tp_dump_tasks st.1.1)) st.1.1 →
  drained ids st'.
Proof.
  intros [_ Hcov] Etp.
  assert (∀ b, b ∈ tp_dump_tasks st'.1.1 → ids ∩ list_to_set b.1 = ∅) as Hb.
  { intros b. rewrite Etp. simpl. intros [Hb _]%list_elem_of_filter. simpl in Hb.
    apply bool_decide_eq_false_1 in Hb. by apply dec_stable. }
  split; [done|]. intros t x Hx. destruct (Hcov t x Hx) as (b & d & Hin & _ & _ & Hdom).
  specialize (Hb b Hin). set_solver.
Qed.

(** An engine without transfer results is stopped once a load has failed. *)
Definition fails_closed (st : state) : bool :=
  legacy_engine cfg && negb (bool_decide (_failed_fawa_loads st.1.1 = ∅)).

Lemma get_finished_spec ids (st : state) :
  fawa_ok st →
  ∃ st' o, fawa_get_finished cfg ids st = (st', o) ∧ fawa_ok st' ∧
    (∃ tp, st'.1.1 = set_fw_dumps tp (_poll_pending_fawa_loads cfg st).1.1.1) ∧
    (fails_closed st' = false → drained ids st') ∧
    o = if fails_closed st' then Raise RuntimeError
        else Ok (or_none (ids ∖ pending_ids st ∖ received st), or_none (received st)).
Proof.
  intros [Hl Hd]. unfold fawa_get_finished. erewrite bind_ok by reflexivity.
  pose proof (poll_ok cfg st Hl) as Hl1. pose proof (poll_dumps_view st) as Hv1.
  destruct (poll_spec cfg st (proj1 Hl)) as (st1 & left & b & E & _ & _ & Ef & _).
  erewrite bind_ok by exact E. rewrite E in *. cbn [fst snd] in *. erewrite bind_ok by reflexivity.
  pose proof (dumps_ok_view _ _ Hv1 Hd) as Hd1. fold (received st).
  destruct (legacy_engine cfg && _) eqn:Eleg.
  { eexists st1, _. split; [reflexivity|]. unfold fails_closed. rewrite Eleg. split; [done|]. split_and!; [|done|done].
    exists (tp_dump_tasks st1.1.1). by destruct st1 as [[[]]]. }
  destruct (drain_spec (Some ids) st1 Hd1) as (st2 & E2 & Hd2 & Es2 & _).
  erewrite bind_ok by exact E2. pose proof (drained_filter ids st1 st2 Hd2 Es2) as Hdr.
  destruct st2 as [sd2 [m2 w2]]. destruct (finish_dump_ok ids m2 w2) as (m3 & E3 & Ec3); [apply Hdr|].
  erewrite bind_ok; [|unfold manager, zoom; simpl; by rewrite E3].
  eexists _, _. split; [reflexivity|]. cbn [fst snd] in *.
  assert (∀ x, contexts (sd2, x) = _dump_task_contexts x.1) as Hctx by done.
  split; [split|split_and!].
  - unfold loads_ok. cbn [fst snd]. by rewrite Es2.
  - destruct Hd2. split; [done|]. rewrite Hctx. cbn [fst snd]. by rewrite Ec3.
  - eauto.
  - intros _. destruct Hdr as [? Hdr]. split; [done|]. rewrite Hctx. cbn [fst snd]. by rewrite Ec3.
  - unfold fails_closed. cbn [fst snd]. rewrite Es2. simpl. by rewrite Eleg.
Qed.

Lemma get_transfer_results_ok ids (st : state) : fawa_ok st → fawa_ok (get_transfer_results cfg ids st).1.
Proof.
  intros Hst. unfold get_transfer_results.
  destruct (get_finished_spec ids st Hst) as (st1 & o & E & Hst1 & _). unfold mbind, M_bind. rewrite E.
  by destruct o as [[]|e].
Qed.

Lemma handle_preemptions_ok (st : state) : fawa_ok st → fawa_ok (fawa_handle_preemptions st).1.
Proof.
  intros [Hl Hd]. unfold fawa_handle_preemptions.
  destruct (drain_spec None st Hd) as (st' & -> & Hd' & Es & _). split; [|done].
  unfold loads_ok. simpl. by rewrite Es.
Qed.

Lemma run_wait_ok i (st : state) : fawa_ok st → fawa_ok (run_wait i st).1.
Proof.
  intros [Hl Hd]. split; [|by eapply dumps_ok_view; [apply run_wait_dumps|]].
  destruct (run_wait_spec i st) as (st' & -> & Ep & _ & Hk & _). by eapply loads_ok_kept.
Qed.

Lemma fawa_shutdown_ok (st : state) : fawa_ok st → fawa_ok (fawa_shutdown st).1.
Proof.
  unfold fawa_shutdown. erewrite bind_ok by reflexivity. generalize (seq 0 (length (futures st.1.1))).
  intros l. revert st. induction l as [|i l IH]; intros st Hst; cbn [for_each]; [done|].
  pose proof (run_wait_ok i st Hst) as Hst1. destruct (run_wait_spec i st) as (st1 & E & _).
  rewrite E in Hst1. erewrite bind_ok by exact E. by apply IH.
Qed.

Lemma fawa_reachable_ok st : fawa_reachable st → fawa_ok st.
Proof.
  induction 1 as [mla use md d w|st st' _ [Hl Hd] Hstep].
  - split; split; simpl; try by constructor.
    + by intros id p t ?%elem_of_nil.
    + intros t x Hx. unfold contexts in Hx. simpl in Hx. by rewrite lookup_empty in Hx.
  - destruct Hstep.
    + done.
    + split; [by apply start_load_kv_ok|]. eapply dumps_ok_view; [apply start_load_kv_dumps|done].
    + by apply run_wait_ok.
    + split; [|by apply wait_for_save_ok]. eapply loads_ok_view; [apply wait_for_save_view|done].
    + by apply handle_preemptions_ok.
    + destruct (get_finished_spec ids st) as (st1 & o & -> & ? & _); [by split|done].
    + by apply get_transfer_results_ok.
    + split; [by eapply loads_ok_view; [apply direct_loads|]|].
      eapply dumps_ok_view; [apply direct_dumps, load_errors_view|done].
    + split; [by eapply loads_ok_view; [apply direct_loads|]|].
      eapply dumps_ok_view; [apply direct_dumps, worker_meta_view|done].
    + by split.
    + by apply fawa_shutdown_ok.
Qed.

Lemma keys_unique {K V} (l : list (K * V)) k v v' : NoDup l.*1 → (k, v) ∈ l → (k, v') ∈ l → v = v'.
Proof.
  induction l as [|[k1 v1] l IH]; csimpl; [by intros _ ?%elem_of_nil|].
  intros [Hk Hl]%list.NoDup_cons [?|Hin]%elem_of_cons [?|Hin']%elem_of_cons; simplify_eq; [done| | |by apply IH];
    by apply (list_elem_of_fmap_2 fst) in Hin || apply (list_elem_of_fmap_2 fst) in Hin'.
Qed.

(** A load's key among those selected by a property of the load. *)
Lemma elem_of_keys_filter {K V} (P : K * V → Prop) `{∀ x, Decision (P x)} (l : list (K * V)) k v :
  NoDup l.*1 → (k, v) ∈ l → k ∈ (filter P l).*1 ↔ P (k, v).
Proof.
  intros Hl Hin. rewrite list_elem_of_fmap. split.
  - intros ([k' v'] & -> & [HP Hin']%list_elem_of_filter). by rewrite (keys_unique _ _ _ _ Hl Hin Hin').
  - intros HP. exists (k, v). split; [done|]. by apply list_elem_of_filter.
Qed.

(** What a poll does to one pending load. *)
Lemma poll_one id p (st : state) :
  loads_ok st → (id, p) ∈ _pending_fawa_loads st.1.1 →
  let fs := futures st.1.1 in
  let st' := (_poll_pending_fawa_loads cfg st).1 in
  (id ∈ received st ↔ waiting fs p = [] ∨ id ∈ _finished_async_load_req_ids (fw_worker st.1.1)) ∧
  (waiting fs p = [] → id ∉ pending_ids st') ∧
  (waiting fs p = [] → load_failed fs p → reported_failed st' id) ∧
  (waiting fs p ≠ [] → ∃ p', (id, p') ∈ _pending_fawa_loads st'.1.1 ∧ polled fs p p').
Proof.
  intros [Hnd _] Hin. cbv zeta. set (fs := futures st.1.1).
  destruct (poll_spec cfg st Hnd) as (st' & left & b & -> & _ & _ & _ & _ & _ & _ & Ep & Hleft & Hrep). cbn [fst snd].
  fold fs in Hleft, Hrep.
  assert (left.*1 = (filter (λ x, waiting fs x.2 ≠ []) (_pending_fawa_loads st.1.1)).*1) as Ekeys.
  { clear -Hleft. induction Hleft as [|x x' l l' [E _] _ IH]; csimpl; [done|]. by rewrite E, IH. }
  split_and!.
  - unfold received, settled_ids. fold fs.
    by rewrite elem_of_union, elem_of_list_to_set, (elem_of_keys_filter _ _ _ _ Hnd Hin).
  - intros Hw. unfold pending_ids. rewrite Ep, Ekeys, elem_of_list_to_set.
    rewrite (elem_of_keys_filter _ _ _ _ Hnd Hin). simpl. by intros [].
  - intros Hw Hf. by eapply Hrep.
  - intros Hw. assert ((id, p) ∈ filter (λ x, waiting fs x.2 ≠ []) (_pending_fawa_loads st.1.1)) as Hx
      by (by apply list_elem_of_filter).
    apply list_elem_of_lookup in Hx as [i Hi]. destruct (Forall2_lookup_l _ _ _ _ _ Hleft Hi) as ([id' p'] & Hi' & Eid & Hp).
    simpl in Eid. subst id'. exists p'. rewrite Ep. split; [|done]. by eapply list_elem_of_lookup_2.
Qed.

(** C38 In every run of the FAWA worker, what [get_finished] reports is true.  On an engine
    without transfer results it raises [RuntimeError] exactly when a failed load is
    recorded; otherwise it returns.  A pending load is reported
    as received exactly when all its waits have ended (or it could not be
    submitted); it is then no longer pending, and is marked as failed, for the engine
    and for the scheduler, when one of its tasks failed.  A request reported as sent
    finished, has no load pending or just received, and no dump task in flight. *)
Theorem fawa_report_sound ids (st : state) :
  fawa_reachable st →
  ∃ st' sending recving,
    fawa_get_finished cfg ids st =
      (st', if fails_closed st' then Raise RuntimeError else Ok (or_none sending, or_none recving)) ∧
    sending ⊆ ids ∧ sending ## pending_ids st ∧ sending ## recving ∧ (fails_closed st' = false → drained ids st') ∧
    ∀ id p, (id, p) ∈ _pending_fawa_loads st.1.1 →
      (id ∈ recving ↔ waiting (futures st.1.1) p = [] ∨ id ∈ _finished_async_load_req_ids (fw_worker st.1.1)) ∧
      (waiting (futures st.1.1) p = [] → id ∉ pending_ids st') ∧
      (waiting (futures st.1.1) p = [] → load_failed (futures st.1.1) p → reported_failed st' id) ∧
      (waiting (futures st.1.1) p ≠ [] →
         ∃ p', (id, p') ∈ _pending_fawa_loads st'.1.1 ∧ polled (futures st.1.1) p p').
Proof.
  intros Hst%fawa_reachable_ok. destruct (get_finished_spec ids st Hst) as (st' & o & E & _ & [tp Es] & Hdr & ->).
  exists st', (ids ∖ pending_ids st ∖ received st), (received st).
  split; [done|]. split; [set_solver|]. split; [set_solver|]. split; [set_solver|]. split; [done|].
  intros id p Hin. pose proof (poll_one id p st (proj1 Hst) Hin) as Hone. unfold pending_ids, reported_failed in *.
  by rewrite Es.
Qed.

(** C39 No asynchronous load of the FAWA worker is left behind: in every run, once the
    pool has run its calls ([shutdown(wait=True)] does, in whatever state the run is
    and whatever the stores answer), no load stays pending after the next [get_finished],
    which reports every load that was; only an engine without transfer results gets a
    [RuntimeError] instead, when a failed load is recorded. *)
Theorem fawa_loads_settle ids (st : state) :
  fawa_reachable st →
  ∃ st1 st' sending recving,
    fawa_shutdown st = (st1, Ok tt) ∧
    fawa_get_finished cfg ids st1 =
      (st', if fails_closed st' then Raise RuntimeError else Ok (or_none sending, or_none recving)) ∧
    pending_ids st ⊆ recving ∧ _pending_fawa_loads st'.1.1 = [].
Proof.
  intros Hst%fawa_reachable_ok. pose proof (fawa_shutdown_ok st Hst) as Hst1.
  destruct (fawa_shutdown_spec st) as (st1 & E1 & Ep & _ & Hdone). rewrite E1 in Hst1. simpl in Hst1.
  destruct (get_finished_spec ids st1 Hst1) as (st' & o & E & _ & [tp Es] & _ & ->).
  exists st1, st', (ids ∖ pending_ids st1 ∖ received st1), (received st1).
  assert (∀ id p, (id, p) ∈ _pending_fawa_loads st1.1.1 → waiting (futures st1.1.1) p = []) as Hw.
  { intros id p Hin. apply all_settled; [|exact Hdone]. intros t. by eapply Hst1. }
  split_and!; [done|done| |].
  - unfold pending_ids. rewrite <- Ep. intros id. rewrite elem_of_list_to_set, list_elem_of_fmap.
    intros ([id' p] & -> & Hin). apply (poll_one id' p st1 (proj1 Hst1) Hin). left. by eapply Hw.
  - rewrite Es. simpl. destruct (poll_spec cfg st1 (proj1 (proj1 Hst1)))
      as (st2 & left & b & -> & _ & _ & _ & _ & _ & _ & Ep2 & Hleft & _). simpl. rewrite Ep2.
    destruct left as [|x left]; [done|]. apply Forall2_cons_inv_r in Hleft as ([id p] & l & [_ [Hne _]] & _ & Ex).
    destruct Hne. apply (Hw id). assert ((id, p) ∈ (id, p) :: l) as Hin by left. rewrite <- Ex in Hin.
    by apply list_elem_of_filter in Hin as [_ ?].
Qed.

(** [handle_preemptions] never raises and leaves no dump in flight: in every run,
    all batches are gone, the manager knows no dump task, and the device has released
    the event handles of the batches. *)
Theorem fawa_preemptions_drain (st : state) :
  fawa_reachable st →
  ∃ st', fawa_handle_preemptions st = (st', Ok tt) ∧ tp_dump_tasks st'.1.1 = [] ∧ contexts st' = ∅ ∧
    events st'.1.2 = events st.1.2 ∖ list_to_set (dt_event_handle <$> concat (tp_dump_tasks st.1.1).*2).
Proof.
  intros [_ Hd]%fawa_reachable_ok. unfold fawa_handle_preemptions.
  destruct (drain_spec None st Hd) as (st' & E & [_ Hcov] & Es & Ee). exists st'.
  assert (tp_dump_tasks st'.1.1 = []) as Etp.
  { rewrite Es. simpl. clear. induction (tp_dump_tasks st.1.1) as [|b l IH]; [done|].
    by rewrite filter_cons_False. }
  split_and!; [done|done| |].
  - rewrite Etp in Hcov. apply map_empty. intros t. destruct (contexts st' !! t) as [x|] eqn:Ex; [|done].
    destruct (Hcov t x Ex) as (b & _ & Hb & _). by apply elem_of_nil in Hb.
  - rewrite Ee. by rewrite filter_all.
Qed.
End dumps.

(** Rank 1 of two: request [r] loads two blocks asynchronously and request [d] dumps
    four.  The first run stops before the pool has run a call, the second after. *)
Definition ex_load_request : FAWARequestDispatchMeta :=
  mkFawaDispatch ["a"; "b"]%string 0 2 [[10; 11]; [20; 21]; []] [] 0 0 [] true.

Definition ex_fawa_start : FawaWorker * RefDevice * (RankConsistencyManager * RefStore) :=
  (mkFawaWorker (WorkerState_init false) (mkFawaMetadata [] ∅) [] ∅ [] [], mkRefDevice ∅,
   (RankConsistencyManager_init false true, 
    mkRefStore {[(0, "a"%string); (0, "b"%string); (1, "b"%string)]} ∅ ∅ [] None)).

Definition ex_fawa_bound :=
  (fawa_bind_connector_metadata
     (mkFawaMetadata [("r"%string, ex_load_request); ("d"%string, ex_split_request)] ∅) ex_fawa_start).1.
Definition ex_fawa_loading := (fawa_start_load_kv ex_split_cfg ex_fawa_bound).1.
Definition ex_fawa_saved := (fawa_wait_for_save ex_split_cfg ex_fawa_loading).1.
Definition ex_fawa_ran := (run_wait 1 (run_wait 0 ex_fawa_saved).1).1.

Lemma ex_fawa_saved_reachable : fawa_reachable ex_split_cfg ex_fawa_saved.
Proof.
  eapply fawa_next; [|apply fawa_save]. eapply fawa_next; [|apply fawa_load].
  eapply fawa_next; [|apply fawa_bind]. apply fawa_init.
Qed.

Lemma ex_fawa_ran_reachable : fawa_reachable ex_split_cfg ex_fawa_ran.
Proof.
  eapply fawa_next; [|apply fawa_run]. eapply fawa_next; [|apply fawa_run]. apply ex_fawa_saved_reachable.
Qed.

Lemma fawa_report_sound_witness :
  ∃ st', fawa_get_finished ex_split_cfg {["d"%string]} ex_fawa_ran
           = (st', Ok (Some {["d"%string]}, Some {["r"%string]})) ∧ drained {["d"%string]} st'.
Proof.
  destruct (fawa_report_sound ex_split_cfg {["d"%string]} ex_fawa_ran ex_fawa_ran_reachable)
    as (st' & sending & recving & E & _ & _ & _ & Hd & _).
  exists st'. split; [|apply Hd; reflexivity].
  assert ((fawa_get_finished ex_split_cfg {["d"%string]} ex_fawa_ran).2
          = Ok (Some {["d"%string]}, Some {["r"%string]})) as Hv by (vm_compute; reflexivity).
  rewrite E in Hv |- *. simpl in Hv. by rewrite Hv.
Defined.

Lemma fawa_loads_settle_witness :
  (_pending_fawa_loads ex_fawa_saved.1.1).*1 = ["r"%string] ∧
  ∃ st1 st', fawa_shutdown ex_fawa_saved = (st1, Ok tt) ∧
    (fawa_get_finished ex_split_cfg ∅ st1).1 = st' ∧ _pending_fawa_loads st'.1.1 = [].
Proof.
  split; [vm_compute; reflexivity|].
  destruct (fawa_loads_settle ex_split_cfg ∅ ex_fawa_saved ex_fawa_saved_reachable)
    as (st1 & st' & sending & recving & E1 & E & _ & Hp).
  exists st1, st'. split; [exact E1|]. split; [by rewrite E|exact Hp].
Defined.
