(* ===== verification/HlaScheduler.v ===== *)
(** * Scheduler side of the hybrid linear attention connector

    Model of the scheduler half of [UCMHybridLinearAttentionConnector]
    (src/ucm/integration/vllm/hla_connector.py), for models that mix
    full-attention KV cache groups with groups whose layers keep a recurrent
    (mamba) state.  A full-attention group is cached block by block, under its
    own chain of hashes; a state group is cached as one state per checkpoint,
    under a hash derived from the prefix that leads to it.  Checkpoints are the
    multiples of the least common multiple of the groups' block sizes.

    The methods of [KVCacheGroupManager] take the two lookups as arguments, as in
    the source.  Logging, traces and metrics are left out. *)

From Stdlib Require Import ZArith Lia.
From stdpp Require Import base list gmap strings numbers fin_sets.
From S2P Require Import Prelude.
From S2P Require Import Store.
From S2P Require Import RankConsistency.
From S2P Require Import RequestHasher.
From S2P Require Import DirectScheduler.
Local Open Scope Z_scope.

(** ** KV cache specs *)

(** The classes of vLLM's specs that the connector tells apart. *)
Inductive SpecClass :=
| FullAttentionSpec
| MambaSpec (mamba_cache_mode : string)
| OtherSpec.

(** What the connector reads of a spec: its block size, its class, and two
    optional attributes.  [UniformTypeKVCacheSpecs] wraps a dictionary with the
    specs of several layers: the names of the layers and their specs. *)
Inductive KVCacheSpec :=
| LayerKVCacheSpec (size : Z) (cls : SpecClass) (prefix_cacheable participates : option bool)
| UniformTypeKVCacheSpecs (size : Z) (names : list string) (specs : list KVCacheSpec).

(** [spec.block_size] *)
Definition spec_block_size (spec : KVCacheSpec) : Z :=
  match spec with
  | LayerKVCacheSpec size _ _ _ => size
  | UniformTypeKVCacheSpecs size _ _ => size
  end.

Definition block_size_from_kv_cache_spec (spec : KVCacheSpec) : outcome Z :=
  match spec with
  | UniformTypeKVCacheSpecs _ _ [] => Raise StopIteration
  | UniformTypeKVCacheSpecs _ _ (sample :: _) => Ok (spec_block_size sample)
  | _ => Ok (spec_block_size spec)
  end.

(** [isinstance(spec, MambaSpec) and spec.mamba_cache_mode == "align"] *)
Definition is_align (cls : SpecClass) : bool :=
  match cls with MambaSpec mode => bool_decide (mode = "align"%string) | _ => false end.

Fixpoint is_mamba_align_kv_cache_spec (spec : KVCacheSpec) : outcome bool :=
  match spec with
  | UniformTypeKVCacheSpecs _ _ [] => Raise StopIteration
  | UniformTypeKVCacheSpecs _ _ (sample :: _) => is_mamba_align_kv_cache_spec sample
  | LayerKVCacheSpec _ cls _ _ => Ok (is_align cls)
  end.

Fixpoint participates_in_prefix_caching (spec : KVCacheSpec) : bool :=
  match spec with
  | UniformTypeKVCacheSpecs _ _ specs => forallb participates_in_prefix_caching specs
  | LayerKVCacheSpec _ _ prefix_cacheable participates =>
      default true prefix_cacheable && default true participates
  end.

(** ** The groups *)

Record GroupInfo := mkGroupInfo {
  gi_group_id : Z;
  gi_block_size : Z;
  gi_layer_names : list string;
  gi_seed : bytes;
  gi_is_mamba_align : bool;
  gi_block_hasher : option (Request → outcome (list bytes));
  gi_participates : bool;
}.

Definition is_full_attention (g : GroupInfo) : bool :=
  gi_participates g && negb (gi_is_mamba_align g).

Record KVCacheGroupManager := mkGroupManager {
  groups_by_id : list GroupInfo;
  full_attn_groups : list GroupInfo;
  state_groups : list GroupInfo;
  non_prefix_groups : list GroupInfo;
  lcm_block_size : Z;
}.

Definition num_groups (gm : KVCacheGroupManager) : Z := zlen (groups_by_id gm).

(** [range(a, b, step)] for [0 < step]. *)
Definition py_range (a b step : Z) : list Z :=
  (λ i : nat, a + Z.of_nat i * step) <$> seq 0 (Z.to_nat (ceil_div (b - a) step)).

(** [math.lcm] of several numbers. *)
Definition py_lcm (l : list Z) : Z := foldr Z.lcm 1 l.

Section groups.
Context {X : Type}.
Variable md5 : bytes → bytes.
Variable pickle_dumps : pickled X → bytes.
Variable generate_block_hash_extra_keys :
  option (Request → Z → Z → Z → outcome (option X * Z)).
Variable request_hasher : RequestHasher.

Abbreviation hash := (call_object md5 pickle_dumps (meta_bytes request_hasher)).

(** A group of [kv_cache_config.kv_cache_groups]: its spec and layer names. *)
Definition make_group (base_seed : bytes) (group_id : Z) (group : KVCacheSpec * list string) :
    outcome GroupInfo :=
  let '(spec, layer_names) := group in
  block_size ← block_size_from_kv_cache_spec spec;
  is_mamba_align ← is_mamba_align_kv_cache_spec spec;
  let seed := hash (PGroupSeed base_seed group_id) in
  block_hasher ← (if is_mamba_align then Ok None
                  else h ← make_request_block_hasher md5 pickle_dumps generate_block_hash_extra_keys
                             request_hasher block_size (Some seed); Ok (Some h));
  Ok (mkGroupInfo group_id block_size layer_names seed is_mamba_align block_hasher
        (participates_in_prefix_caching spec)).

Fixpoint make_groups (base_seed : bytes) (group_id : Z) (groups : list (KVCacheSpec * list string)) :
    outcome (list GroupInfo) :=
  match groups with
  | [] => Ok []
  | group :: rest =>
      info ← make_group base_seed group_id group;
      infos ← make_groups base_seed (group_id + 1) rest;
      Ok (info :: infos)
  end.

(** The assertions on the block sizes; [%] by zero raises. *)
Fixpoint check_divides (lcm : Z) (groups : list GroupInfo) : outcome unit :=
  match groups with
  | [] => Ok tt
  | g :: rest =>
      if gi_block_size g =? 0 then Raise ZeroDivisionError
      else if lcm mod gi_block_size g =? 0 then check_divides lcm rest else Raise AssertionError
  end.

Definition KVCacheGroupManager_init (kv_cache_groups : list (KVCacheSpec * list string))
    (base_seed : bytes) : outcome KVCacheGroupManager :=
  infos ← make_groups base_seed 0 kv_cache_groups;
  let fa := base.filter (λ g, is_full_attention g = true) infos in
  let st := base.filter (λ g, is_full_attention g = false ∧ gi_is_mamba_align g = true) infos in
  let other := base.filter (λ g, is_full_attention g = false ∧ gi_is_mamba_align g = false) infos in
  if bool_decide (fa = []) then Raise AssertionError
  else
    let lcm := py_lcm (gi_block_size <$> fa ++ st) in
    check_divides lcm (fa ++ st) ;;
    if forallb gi_is_mamba_align st then Ok (mkGroupManager infos fa st other lcm)
    else Raise AssertionError.

Definition compute_block_hashes (group : GroupInfo) (request : Request) : outcome (list bytes) :=
  if negb (gi_participates group) then Ok []
  else if gi_is_mamba_align group then
    if gi_block_size group =? 0 then Raise ZeroDivisionError
    else Ok (replicate (Z.to_nat (zlen (all_token_ids request) / gi_block_size group)) ""%string)
  else
    match gi_block_hasher group with
    | None => Raise AssertionError
    | Some block_hasher => block_hasher request
    end.

Fixpoint compute_group_block_ids (groups : list GroupInfo) (request : Request) :
    outcome (list (list bytes)) :=
  match groups with
  | [] => Ok []
  | g :: rest =>
      ids ← compute_block_hashes g request;
      others ← compute_group_block_ids rest request;
      Ok (ids :: others)
  end.

Section manager.
Variable gm : KVCacheGroupManager.
Abbreviation lcm := (lcm_block_size gm).

Definition compute_all_group_block_ids (request : Request) : outcome (list (list bytes)) :=
  compute_group_block_ids (groups_by_id gm) request.

(** The [try] covers both indexings; when the outer one fails, the handler
    raises the same exception again while it formats its message. *)
Definition compute_mamba_align_state_hash (group : GroupInfo) (seq_len : Z)
    (group_block_ids : list (list bytes)) : outcome (option bytes) :=
  if (seq_len <=? 0) || negb (seq_len mod lcm =? 0) then Ok None
  else
    primary ← list_index (full_attn_groups gm) 0;
    let prefix_idx := seq_len / gi_block_size primary - 1 in
    if prefix_idx <? 0 then Ok None
    else
      hashes ← list_index group_block_ids (gi_group_id primary);
      match hashes !! Z.to_nat prefix_idx with
      | None => Ok None
      | Some prefix_hash =>
          if bool_decide (prefix_hash = ""%string) then Ok None
          else Ok (Some (hash (PState (gi_seed group) seq_len prefix_hash)))
      end.

(** ** The two-stage lookup *)

Section lookup.
Context {S : Type}.
Variables (lookup_on_prefix lookup_on_reverse : list bytes → M S Z).

(** Stage 1 for one group: how many of its tokens are hit. *)
Definition full_attn_candidate (num_computed_tokens : Z) (group_block_ids : list (list bytes))
    (fa : GroupInfo) : M S Z :=
  fa_block_ids ← lift_outcome (list_index group_block_ids (gi_group_id fa));
  let fa_external := py_slice_from (num_computed_tokens / gi_block_size fa) fa_block_ids in
  if bool_decide (fa_external = []) then mret 0
  else
    r ← try_except (r ← lookup_on_prefix fa_external; mret (Some r)) (λ _, mret None);
    match r with
    | None => mret 0
    | Some r => mret (Z.max (r + 1) 0 * gi_block_size fa)
    end.

Fixpoint candidates (num_computed_tokens : Z) (group_block_ids : list (list bytes))
    (groups : list GroupInfo) : M S (list Z) :=
  match groups with
  | [] => mret []
  | fa :: rest =>
      c ← full_attn_candidate num_computed_tokens group_block_ids fa;
      cs ← candidates num_computed_tokens group_block_ids rest;
      mret (c :: cs)
  end.

(** [min(l)] *)
Definition py_min (l : list Z) : outcome Z :=
  match l with [] => Raise ValueError | x :: r => Ok (foldl Z.min x r) end.

(** The hashes of a state group at some positions, [b""] where there is none. *)
Fixpoint state_hashes (group_block_ids : list (list bytes)) (sg : GroupInfo) (positions : list Z) :
    outcome (list bytes) :=
  match positions with
  | [] => Ok []
  | pos :: rest =>
      h ← compute_mamba_align_state_hash sg pos group_block_ids;
      hs ← state_hashes group_block_ids sg rest;
      Ok (default ""%string h :: hs)
  end.

(** Stage 2: the loop over the state groups.  [None] is the early return of a
    miss. *)
Fixpoint state_scan (group_block_ids : list (list bytes)) (positions : list Z)
    (groups : list GroupInfo) (best_pos : Z) : M S (option Z) :=
  match groups with
  | [] => mret (Some best_pos)
  | sg :: rest =>
      let sg_positions := base.filter (λ p, p ≤ best_pos) positions in
      sg_hashes ← lift_outcome (state_hashes group_block_ids sg sg_positions);
      r ← try_except (r ← lookup_on_reverse sg_hashes; mret (Some r)) (λ _, mret None);
      match r with
      | None => mret None
      | Some idx =>
          if idx <? 0 then mret None
          else
            sg_pos ← lift_outcome (list_index sg_positions idx);
            state_scan group_block_ids positions rest
              (if sg_pos <? best_pos then sg_pos else best_pos)
      end
  end.

(** The state hashes of every checkpoint up to [best_pos], for the heat update. *)
Fixpoint prefetch_hashes_at (group_block_ids : list (list bytes)) (pos : Z) (groups : list GroupInfo) :
    outcome (list bytes) :=
  match groups with
  | [] => Ok []
  | sg :: rest =>
      h ← compute_mamba_align_state_hash sg pos group_block_ids;
      hs ← prefetch_hashes_at group_block_ids pos rest;
      Ok (match h with Some h => h :: hs | None => hs end)
  end.

Fixpoint prefetch_hashes (group_block_ids : list (list bytes)) (positions : list Z) :
    outcome (list bytes) :=
  match positions with
  | [] => Ok []
  | pos :: rest =>
      hs ← prefetch_hashes_at group_block_ids pos (state_groups gm);
      others ← prefetch_hashes group_block_ids rest;
      Ok (hs ++ others)
  end.

Definition lookup_external_hit_tokens (num_computed_tokens : Z) (group_block_ids : list (list bytes)) :
    M S (Z * Z * list bytes) :=
  py_assert (zlen group_block_ids =? num_groups gm) ;;
  py_assert (num_computed_tokens mod lcm =? 0) ;;
  cs ← candidates num_computed_tokens group_block_ids (full_attn_groups gm);
  min_external_hit_tokens ← lift_outcome (py_min cs);
  let external_hit_tokens := min_external_hit_tokens / lcm * lcm in
  if external_hit_tokens <=? 0 then mret (0, 0, [])
  else
    let total_hit_tokens := num_computed_tokens + external_hit_tokens in
    if bool_decide (state_groups gm = [])
    then mret (external_hit_tokens, external_hit_tokens / lcm, [])
    else
      let positions := py_range (num_computed_tokens + lcm) (total_hit_tokens + lcm) lcm in
      r ← state_scan group_block_ids positions (state_groups gm) total_hit_tokens;
      match r with
      | None => mret (0, 0, [])
      | Some best_pos =>
          let external_hit_tokens := best_pos - num_computed_tokens in
          if external_hit_tokens <=? 0 then mret (0, 0, [])
          else
            mamba_prefetch_hashes ←
              lift_outcome (prefetch_hashes group_block_ids (py_range lcm (best_pos + lcm) lcm));
            mret (external_hit_tokens, external_hit_tokens / lcm, mamba_prefetch_hashes)
      end.
End lookup.
End manager.
End groups.

(** ** The connector *)

Record HLARequestMeta := mkHlaMeta {
  hm_ucm_block_ids : list bytes;
  hm_hbm_hit_block_num : Z;
  hm_total_hit_block_num : Z;
  hm_num_token_ids : Z;
  hm_token_processed : Z;
  group_ucm_block_ids : list (list bytes);
  group_vllm_block_ids : list (list Z);
}.

Record HLARequestDispatchMeta := mkHlaDispatch {
  hd_load_block_ids : list bytes * list Z;
  hd_dump_block_ids : list bytes * list Z;
  load_full_attn_count : Z;
  dump_full_attn_count : Z;
  load_group_ids : list Z;
  dump_group_ids : list Z;
}.

Record HlaMetadata := mkHlaMetadata {
  hla_request_meta : list (req_id * HLARequestDispatchMeta);
  hla_preempted_req_ids : gset string;
}.

(** What the constructor fixes.  It sets [block_size] of the base connector to
    [lcm_block_size]. *)
Record HlaConfig := mkHlaConfig {
  hla_base : SchedulerConfig;
  group_manager : KVCacheGroupManager;
  hla_is_mla : bool;
}.

Abbreviation HlaState := (gmap string HLARequestMeta) (only parsing).

(** The blocks of a plan: a key, a block of the engine, and its group.  The
    source appends to three lists in step. *)
Abbreviation row := (bytes * Z * Z)%type.

Definition extend_non_null (src_ucm_block_ids : list bytes) (src_vllm_block_ids : list Z)
    (group_id : Z) : list row :=
  (λ p, (p, group_id)) <$> base.filter (λ p, p.2 ≠ 0) (zip src_ucm_block_ids src_vllm_block_ids).

(** How the block table of a group follows the engine's. *)
Definition merge_vllm_block_ids (incoming_are_full : bool) (existing incoming : list Z) : list Z :=
  if incoming_are_full then incoming
  else
    match existing, incoming with
    | [], _ => incoming
    | _, [] => existing
    | _, _ =>
        if bool_decide (py_slice_from (- zlen incoming) existing = incoming) then existing
        else existing ++ incoming
    end.

(** The blocks at some indices, without null blocks and repetitions; [None] if
    an index is out of range. *)
Fixpoint pick_state_blocks (block_ids : list Z) (indices : list Z) (acc : list Z) : option (list Z) :=
  match indices with
  | [] => Some acc
  | i :: rest =>
      match block_ids !! Z.to_nat i with
      | None => None
      | Some b =>
          pick_state_blocks block_ids rest
            (if negb (b =? 0) && negb (bool_decide (b ∈ acc)) then acc ++ [b] else acc)
      end
  end.

Section connector.
Context {X : Type}.
Variable md5 : bytes → bytes.
Variable pickle_dumps : pickled X → bytes.
Variable request_hasher : RequestHasher.
Context {W : Type} `{StoreWorld W} `{PySetOrder}.
Variable cfg : HlaConfig.

Abbreviation gm := (group_manager cfg).
Abbreviation lcm := (lcm_block_size gm).
Abbreviation state := (gmap string HLARequestMeta * (RankConsistencyManager * W))%type.
Abbreviation state_hash := (compute_mamba_align_state_hash md5 pickle_dumps request_hasher gm).

Definition on_hla (f : HlaState → HlaState) : M state unit := modify (λ s, (f s.1, s.2)).
Definition on_store_side {A} (m : M (RankConsistencyManager * W) A) : M state A :=
  zoom snd (λ r s, (s.1, r)) m.

(** The part of every group's hashes that a hit may cover. *)
Definition lookup_ids (request : Request) (ids : list (list bytes)) : list (list bytes) :=
  let max_hit := Z.max 0 ((num_tokens request - _get_full_hit_recompute_tokens (hla_base cfg)) / lcm) in
  if max_hit <? num_tokens request / lcm
  then zip_with (λ group l, py_slice_to (max_hit * (lcm / gi_block_size group)) l) (groups_by_id gm) ids
  else ids.

Definition hla_get_num_new_matched_tokens (request : Request) (num_computed_tokens : Z) :
    M state (Z * bool) :=
  py_assert (num_computed_tokens mod lcm =? 0) ;;
  let hbm := num_computed_tokens / lcm in
  if num_tokens request <? persist_token_threshold (hla_base cfg) then mret (0, false)
  else
    match compute_all_group_block_ids gm request with
    | Raise _ => mret (0, false)
    | Ok group_ids =>
        primary ← lift_outcome (list_index (full_attn_groups gm) 0);
        primary_block_ids ← lift_outcome (list_index group_ids (gi_group_id primary));
        hit ← on_store_side (lookup_external_hit_tokens md5 pickle_dumps request_hasher gm
                 (lookup_on_prefix (store (hla_base cfg))) (lookup_on_reverse (store (hla_base cfg)))
                 num_computed_tokens (lookup_ids request group_ids));
        let '(external_hit_tokens, external_hit_lcm_blocks, mamba_prefetch_hashes) := hit in
        let total := hbm + external_hit_lcm_blocks in
        let total_hit_tokens := total * lcm in
        let all_hit_full_attn :=
          py_slice 0 (total_hit_tokens / gi_block_size primary) primary_block_ids in
        let hbm_full_attn :=
          py_slice 0 (num_computed_tokens / gi_block_size primary) primary_block_ids in
        let per_rank_hashes :=
          if hla_is_mla cfg then mamba_prefetch_hashes
          else all_hit_full_attn ++ mamba_prefetch_hashes in
        on_store_side (on_world
          (_prefetch_direct_hit_key_hotness (hla_base cfg) hbm_full_attn per_rank_hashes)) ;;
        on_hla (<[request_id request :=
          mkHlaMeta primary_block_ids hbm total (zlen (all_token_ids request)) total_hit_tokens
            group_ids (replicate (length (groups_by_id gm)) [])]>) ;;
        mret (external_hit_tokens, false)
    end.

(** [block_ids] is [blocks.get_block_ids()]. *)
Definition hla_update_state_after_alloc (request : Request) (block_ids : list (list Z)) :
    M HlaState unit :=
  s ← get_state;
  match s !! request_id request with
  | None => mret tt
  | Some req_meta =>
      py_assert (zlen block_ids =? num_groups gm) ;;
      modify (<[request_id request :=
        mkHlaMeta (hm_ucm_block_ids req_meta) (hm_hbm_hit_block_num req_meta)
          (hm_total_hit_block_num req_meta) (hm_num_token_ids req_meta)
          (hm_token_processed req_meta) (group_ucm_block_ids req_meta) block_ids]>)
  end.

(** [is_load] is [reason == "load"]. *)
Definition _append_mamba_align_state_block (req_meta : HLARequestMeta) (gid seq_len : Z)
    (is_load : bool) (num_scheduled_tokens : Z) : outcome (list row) :=
  group ← list_index (groups_by_id gm) gid;
  let state_idx := Z.max ((seq_len - 1) / gi_block_size group) 0 in
  let running_state_idx := Z.max ((seq_len + num_scheduled_tokens - 1) / gi_block_size group) 0 in
  let state_indices := state_idx :: if is_load then [running_state_idx] else [] in
  block_ids ← list_index (group_vllm_block_ids req_meta) gid;
  match pick_state_blocks block_ids state_indices [] with
  | None | Some [] => Ok []
  | Some vllm_block_ids =>
      ucm_block_id ← state_hash group seq_len (group_ucm_block_ids req_meta);
      match ucm_block_id with
      | None => Ok []
      | Some h => Ok ((λ b, (h, b, gid)) <$> vllm_block_ids)
      end
  end.

(** Pass 1 of a plan: the blocks of the full-attention groups between two token
    positions. *)
Fixpoint full_attn_rows (req_meta : HLARequestMeta) (tok_start tok_end : Z) (gid : Z)
    (groups : list GroupInfo) : outcome (list row) :=
  match groups with
  | [] => Ok []
  | group :: rest =>
      let start_blk := tok_start / gi_block_size group in
      let end_blk := tok_end / gi_block_size group in
      rows ← (if negb (is_full_attention group) || (end_blk <=? start_blk) then Ok []
              else
                ucm ← list_index (group_ucm_block_ids req_meta) gid;
                vllm ← list_index (group_vllm_block_ids req_meta) gid;
                Ok (extend_non_null (py_slice start_blk end_blk ucm)
                      (py_slice start_blk end_blk vllm) gid));
      others ← full_attn_rows req_meta tok_start tok_end (gid + 1) rest;
      Ok (rows ++ others)
  end.

(** Pass 2: the state of the state groups at a token position. *)
Fixpoint state_rows (req_meta : HLARequestMeta) (seq_len : Z) (is_load : bool)
    (num_scheduled_tokens : Z) (gid : Z) (groups : list GroupInfo) : outcome (list row) :=
  match groups with
  | [] => Ok []
  | group :: rest =>
      rows ← (if gi_is_mamba_align group
              then _append_mamba_align_state_block req_meta gid seq_len is_load num_scheduled_tokens
              else Ok []);
      others ← state_rows req_meta seq_len is_load num_scheduled_tokens (gid + 1) rest;
      Ok (rows ++ others)
  end.

(** The two passes: the number of full-attention rows (for MLA) and all rows. *)
Definition load_rows (req_meta : HLARequestMeta) (new_tokens : Z) (need_load : bool) :
    outcome (Z * list row) :=
  let external := hm_total_hit_block_num req_meta - hm_hbm_hit_block_num req_meta in
  let hbm_hit_tokens := hm_hbm_hit_block_num req_meta * lcm in
  let total_hit_tokens := hm_total_hit_block_num req_meta * lcm in
  if need_load && (0 <? external) then
    fa ← full_attn_rows req_meta hbm_hit_tokens total_hit_tokens 0 (groups_by_id gm);
    st ← state_rows req_meta total_hit_tokens true new_tokens 0 (groups_by_id gm);
    Ok (if hla_is_mla cfg then zlen fa else 0, fa ++ st)
  else Ok (0, []).

Definition dump_rows (req_meta : HLARequestMeta) (new_tokens : Z) : outcome (Z * list row) :=
  let dump_tok_start := hm_token_processed req_meta in
  if dump_tok_start <? hm_num_token_ids req_meta then
    let dump_tok_end := Z.min (dump_tok_start + new_tokens) (hm_num_token_ids req_meta) in
    let first_lcm_b := (dump_tok_start / lcm + 1) * lcm in
    let last_lcm_b := dump_tok_end / lcm * lcm in
    fa ← full_attn_rows req_meta dump_tok_start dump_tok_end 0 (groups_by_id gm);
    st ← (if negb (dump_tok_end =? last_lcm_b) || (last_lcm_b <? first_lcm_b) then Ok []
          else state_rows req_meta last_lcm_b false 0 0 (groups_by_id gm));
    Ok (if hla_is_mla cfg then zlen fa else 0, fa ++ st)
  else Ok (0, []).

(** [group_vllm_block_ids] after the merge loop over [range(num_groups)]. *)
Fixpoint merge_groups (incoming_are_full : bool) (existing incoming : list (list Z)) :
    list (list Z) * outcome unit :=
  match incoming, existing with
  | [], _ => (existing, Ok tt)
  | _ :: _, [] => ([], Raise IndexError)
  | i :: incoming', e :: existing' =>
      let '(r, o) := merge_groups incoming_are_full existing' incoming' in
      (merge_vllm_block_ids incoming_are_full e i :: r, o)
  end.

Definition with_vllm (v : list (list Z)) (req_meta : HLARequestMeta) : HLARequestMeta :=
  mkHlaMeta (hm_ucm_block_ids req_meta) (hm_hbm_hit_block_num req_meta)
    (hm_total_hit_block_num req_meta) (hm_num_token_ids req_meta) (hm_token_processed req_meta)
    (group_ucm_block_ids req_meta) v.
Definition with_processed (n : Z) (req_meta : HLARequestMeta) : HLARequestMeta :=
  mkHlaMeta (hm_ucm_block_ids req_meta) (hm_hbm_hit_block_num req_meta)
    (hm_total_hit_block_num req_meta) (hm_num_token_ids req_meta) n
    (group_ucm_block_ids req_meta) (group_vllm_block_ids req_meta).

(** Runs on the metadata of the request, which it mutates. *)
Definition _generate_hla_dispatch_meta (new_tokens : Z) (new_vllm_block_ids_per_group : list (list Z))
    (need_load incoming_block_ids_are_full : bool) : M HLARequestMeta HLARequestDispatchMeta :=
  py_assert (zlen new_vllm_block_ids_per_group =? num_groups gm) ;;
  req_meta ← get_state;
  let '(vllm, o) := merge_groups incoming_block_ids_are_full (group_vllm_block_ids req_meta)
                      new_vllm_block_ids_per_group in
  modify (with_vllm vllm) ;;
  lift_outcome o ;;
  req_meta ← get_state;
  load ← lift_outcome (load_rows req_meta new_tokens need_load);
  dump ← lift_outcome (dump_rows req_meta new_tokens);
  modify (λ m, with_processed (hm_token_processed m + new_tokens) m) ;;
  mret (mkHlaDispatch (load.2.*1.*1, load.2.*1.*2) (dump.2.*1.*1, dump.2.*1.*2)
          load.1 dump.1 load.2.*2 dump.2.*2).

(** ** One scheduling step *)

Abbreviation dispatches := (list (req_id * HLARequestDispatchMeta)) (only parsing).

(** The body shared by the three loops of [build_connector_meta]. *)
Definition hla_dispatch_request (id : req_id) (req_meta : HLARequestMeta) (new_tokens : Z)
    (block_ids : list (list Z)) (need_load are_full : bool) (acc : dispatches) :
    M HlaState dispatches :=
  d ← (λ s, let '(req_meta', o) :=
              _generate_hla_dispatch_meta new_tokens block_ids need_load are_full req_meta in
            (<[id := req_meta']> s, o));
  mret (od_set id d acc).

Fixpoint hla_dispatch_new (num_scheduled : gmap string Z) (reqs : list NewRequestData)
    (acc : dispatches) : M HlaState dispatches :=
  match reqs with
  | [] => mret acc
  | request :: rest =>
      let id := nr_req_id request in
      s ← get_state;
      acc' ← (match s !! id with
              | None => mret acc
              | Some req_meta =>
                  new_tokens ← py_key num_scheduled id;
                  hla_dispatch_request id req_meta new_tokens (nr_block_ids request) true true acc
              end);
      hla_dispatch_new num_scheduled rest acc'
  end.

Fixpoint hla_dispatch_cached (num_scheduled : gmap string Z)
    (new_block_ids : list (option (list (list Z)))) (resumed : resumed_info)
    (i : nat) (ids : list req_id) (acc : dispatches) : M HlaState dispatches :=
  match ids with
  | [] => mret acc
  | id :: rest =>
      s ← get_state;
      acc' ← (match s !! id with
              | None => mret acc
              | Some req_meta =>
                  raw ← py_index new_block_ids i;
                  res ← is_resumed resumed i id;
                  new_tokens ← py_key num_scheduled id;
                  hla_dispatch_request id req_meta new_tokens
                    (default (replicate (length (groups_by_id gm)) []) raw) res res acc
              end);
      hla_dispatch_cached num_scheduled new_block_ids resumed (S i) rest acc'
  end.

Fixpoint hla_dispatch_cached_list (num_scheduled : gmap string Z)
    (reqs : list (req_id * list (list Z) * bool)) (acc : dispatches) : M HlaState dispatches :=
  match reqs with
  | [] => mret acc
  | (id, new_block_ids, res) :: rest =>
      s ← get_state;
      acc' ← (match s !! id with
              | None => mret acc
              | Some req_meta =>
                  new_tokens ← py_key num_scheduled id;
                  hla_dispatch_request id req_meta new_tokens new_block_ids res res acc
              end);
      hla_dispatch_cached_list num_scheduled rest acc'
  end.

Definition hla_dispatch_scheduled_cached (out : SchedulerOutput) (acc : dispatches) :
    M HlaState dispatches :=
  match scheduled_cached_reqs out with
  | CachedRequestData ids new_block_ids resumed =>
      hla_dispatch_cached (num_scheduled_tokens out) new_block_ids resumed 0 ids acc
  | CachedRequestList reqs => hla_dispatch_cached_list (num_scheduled_tokens out) reqs acc
  end.

Definition hla_build_connector_meta (out : SchedulerOutput) : M HlaState HlaMetadata :=
  acc ← hla_dispatch_new (num_scheduled_tokens out) (scheduled_new_reqs out) [];
  acc ← hla_dispatch_scheduled_cached out acc;
  modify (λ s, foldl (λ s id, delete id s) s (set_iter (finished_req_ids out))) ;;
  mret (mkHlaMetadata acc (default ∅ (so_preempted_req_ids out))).

(** ** Following requests *)

(** [update_connector_output] of the base connector, on the metadata of this
    one; its [get_block_size] is [lcm_block_size]. *)
Definition hla_handle_load_failure (missing : gset string) (s : HlaState) (id : req_id) : HlaState :=
  match s !! id with
  | Some req_meta =>
      if decide (id ∈ missing) then
        let hbm := hm_hbm_hit_block_num req_meta in
        <[id := mkHlaMeta (hm_ucm_block_ids req_meta) hbm hbm (hm_num_token_ids req_meta)
                  (hbm * lcm) (group_ucm_block_ids req_meta) (group_vllm_block_ids req_meta)]> s
      else delete id s
  | None => delete id s
  end.

Definition hla_update_connector_output (meta : option UCMWorkerMetadata) : M state unit :=
  match meta with
  | None => mret tt
  | Some meta =>
      on_store_side (on_mgr (apply_worker_meta meta)) ;;
      on_hla (λ s, foldl (hla_handle_load_failure (missing_reqs meta)) s
                     (set_iter (load_failed_reqs meta)))
  end.
End connector.
