(* ===== verification/HlaLookup.v ===== *)
(** * What the hybrid lookup finds

    The two-stage lookup of [KVCacheGroupManager] against its specification: the
    longest prefix that ends at a checkpoint, whose full-attention blocks are all
    usable and whose state is usable in every state group.  Also the invariant
    that the constructor of the manager establishes, and what a state key
    identifies. *)

From Stdlib Require Import ZArith Lia Ascii String.
From stdpp Require Import base list gmap strings pretty numbers fin_sets.
From S2P Require Import Prelude.
From S2P Require Import Store.
From S2P Require Import RankConsistency.
From S2P Require Import RequestHasher.
From S2P Require Import DirectScheduler.
From S2P Require Import HlaScheduler.
Local Open Scope Z_scope.

(** ** The manager *)

Record manager_ok (gm : KVCacheGroupManager) : Prop := {
  mo_ids (i : nat) g : groups_by_id gm !! i = Some g → gi_group_id g = Z.of_nat i;
  mo_fa g : g ∈ full_attn_groups gm ↔ g ∈ groups_by_id gm ∧ is_full_attention g = true;
  mo_st g : g ∈ state_groups gm ↔ g ∈ groups_by_id gm ∧ gi_is_mamba_align g = true;
  mo_primary : ∃ primary, full_attn_groups gm !! 0%nat = Some primary;
  mo_size g : g ∈ full_attn_groups gm ++ state_groups gm →
    0 < gi_block_size g ∧ (gi_block_size g | lcm_block_size gm);
  mo_lcm : 0 < lcm_block_size gm;
}.

Lemma py_lcm_divides l x : x ∈ l → (x | py_lcm l).
Proof.
  induction l as [|y l IH]; [by intros ?%elem_of_nil|]. simpl.
  intros [->|Hx]%elem_of_cons; [apply Z.divide_lcm_l|].
  etrans; [by apply IH|apply Z.divide_lcm_r].
Qed.

Lemma py_lcm_least l n : (∀ x, x ∈ l → (x | n)) → (py_lcm l | n).
Proof.
  induction l as [|y l IH]; intros Hl; simpl; [apply Z.divide_1_l|].
  apply Z.lcm_least; [apply Hl; left|apply IH; intros x Hx; apply Hl; by right].
Qed.

Lemma py_lcm_pos l : (∀ x, x ∈ l → 0 < x) → 0 < py_lcm l.
Proof.
  induction l as [|y l IH]; intros Hl; simpl; [done|].
  pose proof (Hl y ltac:(left)). pose proof (IH ltac:(intros; apply Hl; by right)).
  pose proof (Z.lcm_nonneg y (py_lcm l)).
  assert (Z.lcm y (py_lcm l) ≠ 0) by (rewrite Z.lcm_eq_0; lia). lia.
Qed.

Section manager_init.
Context {X : Type}.
Variable md5 : bytes → bytes.
Variable pickle_dumps : pickled X → bytes.
Variable gen : option (Request → Z → Z → Z → outcome (option X * Z)).
Variable h : RequestHasher.

(** One group: its number, its seed, and its block size. *)
Lemma make_group_spec seed gid group g :
  make_group md5 pickle_dumps gen h seed gid group = Ok g →
  gi_group_id g = gid ∧ block_size_from_kv_cache_spec group.1 = Ok (gi_block_size g) ∧
  gi_seed g = call_object md5 pickle_dumps (meta_bytes h) (PGroupSeed seed gid) ∧
  (gi_is_mamba_align g = false →
   0 < gi_block_size g ∧
   gi_block_hasher g = Some (hash_request md5 pickle_dumps gen h (gi_block_size g) (gi_seed g))).
Proof.
  destruct group as [spec names]. unfold make_group, mbind, outcome_bind. cbn [fst].
  destruct (block_size_from_kv_cache_spec spec) as [size|]; [|done].
  destruct (is_mamba_align_kv_cache_spec spec) as [[]|]; [|..|done].
  { intros [= <-]. by split_and!. }
  unfold make_request_block_hasher. destruct (Z.leb_spec size 0); [done|].
  intros [= <-]. by split_and!.
Qed.

Lemma make_groups_spec seed gid groups infos :
  make_groups md5 pickle_dumps gen h seed gid groups = Ok infos →
  ∀ (i : nat) g, infos !! i = Some g →
    ∃ group, groups !! i = Some group ∧
      make_group md5 pickle_dumps gen h seed (gid + Z.of_nat i) group = Ok g.
Proof.
  revert gid infos. induction groups as [|group groups IH]; intros gid infos; simpl.
  { by intros [= <-]. }
  unfold mbind, outcome_bind. destruct (make_group _ _ _ _ seed gid group) as [g0|] eqn:Hg; [|done].
  destruct (make_groups _ _ _ _ seed (gid + 1) groups) as [infos'|] eqn:Hgs; [|done].
  intros [= <-] [|i] g Hi; simpl in Hi.
  - simplify_eq. exists group. split; [done|]. by rewrite Z.add_0_r.
  - destruct (IH _ _ Hgs i g Hi) as (group' & ? & ?). exists group'. split; [done|].
    by replace (gid + Z.of_nat (S i)) with (gid + 1 + Z.of_nat i) by lia.
Qed.

Lemma manager_init_spec groups base_seed gm :
  (∀ group size, group ∈ groups → block_size_from_kv_cache_spec group.1 = Ok size → 0 < size) →
  KVCacheGroupManager_init md5 pickle_dumps gen h groups base_seed = Ok gm →
  manager_ok gm ∧
  (∀ n, (∀ g, g ∈ full_attn_groups gm ++ state_groups gm → (gi_block_size g | n)) →
        (lcm_block_size gm | n)) ∧
  (∀ g, g ∈ groups_by_id gm →
     gi_seed g = call_object md5 pickle_dumps (meta_bytes h) (PGroupSeed base_seed (gi_group_id g)) ∧
     (gi_is_mamba_align g = false →
      gi_block_hasher g = Some (hash_request md5 pickle_dumps gen h (gi_block_size g) (gi_seed g)))).
Proof.
  intros Hpos. unfold KVCacheGroupManager_init, mbind, outcome_bind.
  destruct (make_groups _ _ _ _ base_seed 0 groups) as [infos|] eqn:Hg; [|done].
  pose proof (make_groups_spec _ _ _ _ Hg) as Hspec. cbv zeta.
  case_bool_decide as Hne; [done|].
  match goal with |- context [check_divides ?l ?gs] => destruct (check_divides l gs); [|done] end.
  case_match; [|done]. intros [= <-].
  assert (∀ g, g ∈ infos → 0 < gi_block_size g) as Hsize.
  { intros g (i & Hi)%list_elem_of_lookup. destruct (Hspec i g Hi) as (group & Hgr & Hmk).
    apply make_group_spec in Hmk as (_ & Hs & _). eapply Hpos; [|exact Hs].
    by eapply list_elem_of_lookup_2. }
  split; [|split]; cbn [groups_by_id full_attn_groups state_groups lcm_block_size].
  - split; cbn [groups_by_id full_attn_groups state_groups lcm_block_size].
    + intros i g Hi. destruct (Hspec i g Hi) as (group & _ & Hmk).
      apply make_group_spec in Hmk as (-> & _). lia.
    + intros g. rewrite list_elem_of_filter. tauto.
    + intros g. rewrite list_elem_of_filter. unfold is_full_attention.
      destruct (gi_is_mamba_align g); rewrite ?andb_false_r; naive_solver.
    + match goal with |- context [?l !! 0%nat] => destruct l eqn:? end; [done|by eexists].
    + intros g Hin. split.
      * apply Hsize. rewrite elem_of_app, !list_elem_of_filter in Hin. tauto.
      * apply py_lcm_divides. by apply list_elem_of_fmap_2.
    + apply py_lcm_pos. intros x (g & -> & Hin)%list_elem_of_fmap. apply Hsize.
      rewrite elem_of_app, !list_elem_of_filter in Hin. tauto.
  - intros n Hn. apply py_lcm_least. intros x (g & -> & Hin)%list_elem_of_fmap. by apply Hn.
  - intros g (i & Hi)%list_elem_of_lookup. destruct (Hspec i g Hi) as (group & _ & Hmk).
    apply make_group_spec in Hmk as (-> & _ & -> & Hh). split; [done|]. intros Hm. by apply Hh.
Qed.

(** A manager that its constructor accepts is well formed: groups are numbered
    as the engine numbers them and split into the full-attention groups (at
    least one) and the state groups; each has its own seed, from which
    the chain of a group that is not a state group starts; and the checkpoint
    distance is the least common multiple of their block sizes, which is
    positive when the block sizes of the specs are. *)
Theorem group_manager_wf groups base_seed gm :
  (∀ group size, group ∈ groups → block_size_from_kv_cache_spec group.1 = Ok size → 0 < size) →
  KVCacheGroupManager_init md5 pickle_dumps gen h groups base_seed = Ok gm →
  manager_ok gm ∧
  (∀ n, (∀ g, g ∈ full_attn_groups gm ++ state_groups gm → (gi_block_size g | n)) →
        (lcm_block_size gm | n)) ∧
  (∀ g, g ∈ groups_by_id gm →
     gi_seed g = call_object md5 pickle_dumps (meta_bytes h) (PGroupSeed base_seed (gi_group_id g)) ∧
     (gi_is_mamba_align g = false →
      gi_block_hasher g = Some (hash_request md5 pickle_dumps gen h (gi_block_size g) (gi_seed g)))).
Proof. apply manager_init_spec. Qed.
End manager_init.

(** ** The lookup *)

(** The checkpoints after [nct], up to [n] of them. *)
Definition checkpoints (nct lcm : Z) (n : nat) : list Z :=
  (λ i : nat, nct + (Z.of_nat i + 1) * lcm) <$> seq 0 n.

Lemma lookup_checkpoints nct lcm n (i : nat) p :
  checkpoints nct lcm n !! i = Some p ↔ (i < n)%nat ∧ p = nct + (Z.of_nat i + 1) * lcm.
Proof.
  unfold checkpoints. rewrite list_lookup_fmap, fmap_Some. setoid_rewrite lookup_seq. split.
  - intros (j & [-> ?] & ->). split; [done|]. f_equal.
  - intros [? ->]. exists i. split; [split; [lia|done]|done].
Qed.

Lemma py_range_checkpoints nct lcm (n : nat) :
  0 < lcm →
  py_range (nct + lcm) (nct + Z.of_nat n * lcm + lcm) lcm = checkpoints nct lcm n.
Proof.
  intros Hl. unfold py_range, checkpoints, ceil_div.
  replace (nct + Z.of_nat n * lcm + lcm - (nct + lcm) + lcm - 1)
    with (lcm - 1 + Z.of_nat n * lcm) by lia.
  rewrite Z.div_add, (Z.div_small (lcm - 1)), Z.add_0_l, Nat2Z.id by lia.
  apply list_fmap_ext. intros ? x _. lia.
Qed.

Lemma filter_checkpoints nct lcm (n k : nat) :
  0 < lcm → (k ≤ n)%nat →
  filter (λ p, p ≤ nct + Z.of_nat k * lcm) (checkpoints nct lcm n) = checkpoints nct lcm k.
Proof.
  intros Hl Hk. unfold checkpoints. replace n with (k + (n - k))%nat by lia.
  rewrite seq_app, fmap_app, filter_app. simpl.
  rewrite filter_all, filter_none, app_nil_r; [done|..];
    intros x (y & -> & [? ?]%elem_of_seq)%list_elem_of_fmap; nia.
Qed.

(** Where a predicate holds on a run of a list. *)
Lemma prefix_count_run {A} (p : A → bool) (l : list A) (a m : nat) :
  (m ≤ prefix_count p (drop a l))%nat ↔
  ∀ i : nat, (a ≤ i < a + m)%nat → ∃ x, l !! i = Some x ∧ p x = true.
Proof.
  split.
  - intros Hm i Hi. pose proof (prefix_count_le p (drop a l)) as Hle. rewrite length_drop in Hle.
    destruct (lookup_lt_is_Some_2 l i) as [x Hx]; [lia|]. exists x. split; [done|].
    apply (prefix_count_spec p (drop a l) (i - a)); [|lia].
    rewrite lookup_drop. by replace (a + (i - a))%nat with i by lia.
  - intros Hall. destruct (decide (m ≤ prefix_count p (drop a l))%nat) as [|Hlt]; [done|].
    destruct (Hall (a + prefix_count p (drop a l))%nat) as (x & Hx & Hp); [lia|].
    rewrite <- lookup_drop in Hx. apply prefix_count_stop in Hx. congruence.
Qed.

Lemma py_min_spec l : l ≠ [] → ∃ x, py_min l = Ok x ∧ x ∈ l ∧ ∀ y, y ∈ l → x ≤ y.
Proof.
  destruct l as [|x l]; [done|]. intros _. simpl. exists (foldl Z.min x l). split; [done|].
  revert x. induction l as [|y l IH]; intros x; simpl.
  - split; [left|]. intros ? ->%list_elem_of_singleton. lia.
  - destruct (IH (Z.min x y)) as [Hin Hle]. split.
    + apply elem_of_cons in Hin as [E|?]; [|do 2 right; done]. rewrite E.
      destruct (Z.min_spec x y) as [[_ ->]|[_ ->]]; [left|right; left].
    + specialize (Hle (Z.min x y)) as Hm. intros z. rewrite !elem_of_cons.
      intros [->|[->|Hz]]; [..|apply Hle; by right];
        (etrans; [apply Hm; left|lia]).
Qed.

Section lookup.
Context {X : Type}.
Variable md5 : bytes → bytes.
Variable pickle_dumps : pickled X → bytes.
Variable h : RequestHasher.
Context {W : Type} `{StoreSpec W} `{PySetOrder}.
Variables (gm : KVCacheGroupManager) (st : store_id).
Hypothesis Hgm : manager_ok gm.

Abbreviation lcm := (lcm_block_size gm).
Abbreviation compute := (compute_mamba_align_state_hash md5 pickle_dumps h gm).

(** One list of hashes per group. *)
Definition ids_fit (ids : list (list bytes)) : Prop := zlen ids = num_groups gm.

(** The key under which the state of a group at a position is stored, as the
    lookup sends it: [b""] when the position has none. *)
Definition state_key (ids : list (list bytes)) (sg : GroupInfo) (pos : Z) : bytes :=
  match compute sg pos ids with Ok (Some k) => k | _ => ""%string end.

(** What it takes to resume [k] checkpoints after [nct]. *)
Definition reusable (w : W) (m : RankConsistencyManager) (ids : list (list bytes)) (nct k : Z) : Prop :=
  0 ≤ k ∧
  (∀ g l (i : nat), g ∈ full_attn_groups gm → ids !! Z.to_nat (gi_group_id g) = Some l →
     nct / gi_block_size g ≤ Z.of_nat i < (nct + k * lcm) / gi_block_size g →
     ∃ b, l !! i = Some b ∧ usable w st m b = true) ∧
  (∀ sg, 0 < k → sg ∈ state_groups gm → usable w st m (state_key ids sg (nct + k * lcm)) = true).

(** The stores answer every lookup. *)
Definition answers : Prop :=
  (∀ ks w, ∃ r, (store_lookup_on_prefix st ks w).2 = Ok r) ∧
  (∀ ks w, ∃ r, (store_lookup_on_reverse st ks w).2 = Ok r).

(** The manager and what the stores hold, which lookups leave alone. *)
Definition same (w : W) (m : RankConsistencyManager) (s : RankConsistencyManager * W) : Prop :=
  s.1 = m ∧ present s.2 = present w.

Lemma try_prefix l w m s :
  same w m s →
  ∃ s' r, try_except (r ← lookup_on_prefix st l; mret (Some r)) (λ _, mret None) s = (s', Ok r) ∧
    same w m s' ∧
    (r = Some (Z.of_nat (prefix_count (usable w st m) l) - 1) ∨ r = None ∧ ¬ answers).
Proof.
  destruct s as [m1 w1]. intros [Hm1 Hp1]. simpl in Hm1, Hp1. subst m1.
  unfold try_except, mbind, M_bind.
  destruct (lookup_on_prefix st l (m, w1)) as [s' r] eqn:E.
  apply lookup_on_prefix_spec in E as (Hm & Hp & _ & Hr).
  assert (same w m s') as Hs by (split; [done|congruence]).
  assert (usable w1 st m = usable w st m) as Hu by (unfold usable; by rewrite Hp1).
  rewrite Hu in Hr. destruct Hr as [->|(e & ks & -> & Hks)]; simpl; (do 2 eexists; split; [done|split; [done|]]).
  - by left.
  - right. split; [done|]. intros [Ha _]. destruct (Ha ks w1) as [? ?]. congruence.
Qed.

Lemma try_reverse l w m s :
  same w m s →
  ∃ s' r, try_except (r ← lookup_on_reverse st l; mret (Some r)) (λ _, mret None) s = (s', Ok r) ∧
    same w m s' ∧
    (r = Some (last_index (usable w st m) l) ∨ r = None ∧ ¬ answers).
Proof.
  destruct s as [m1 w1]. intros [Hm1 Hp1]. simpl in Hm1, Hp1. subst m1.
  unfold try_except, mbind, M_bind.
  destruct (lookup_on_reverse st l (m, w1)) as [s' r] eqn:E.
  apply lookup_on_reverse_spec in E as (Hm & Hp & Hr).
  assert (same w m s') as Hs by (split; [done|congruence]).
  assert (usable w1 st m = usable w st m) as Hu by (unfold usable; by rewrite Hp1).
  rewrite Hu in Hr. destruct Hr as [->|(e & ks & w2 & -> & Hks)]; simpl; (do 2 eexists; split; [done|split; [done|]]).
  - by left.
  - right. split; [done|]. intros [_ Ha]. destruct (Ha ks w2) as [? ?]. congruence.
Qed.

Lemma group_ids_lookup g ids :
  g ∈ full_attn_groups gm → ids_fit ids → ∃ l, ids !! Z.to_nat (gi_group_id g) = Some l.
Proof.
  intros [Hg _]%(mo_fa _ Hgm) Hfit. apply list_elem_of_lookup in Hg as [i Hi].
  rewrite (mo_ids _ Hgm i g Hi), Nat2Z.id. apply lookup_lt_is_Some.
  apply lookup_lt_Some in Hi. unfold ids_fit, num_groups, zlen in Hfit. lia.
Qed.

Lemma list_index_Some {A} (l : list A) i x : l !! Z.to_nat i = Some x → list_index l i = Ok x.
Proof. intros E. unfold list_index. by rewrite E. Qed.

Lemma state_hash_total sg pos ids : ids_fit ids → ∃ o, compute sg pos ids = Ok o.
Proof.
  intros Hfit. unfold compute_mamba_align_state_hash, mbind, outcome_bind.
  case_match; [by eexists|]. destruct (mo_primary _ Hgm) as [primary Hp].
  rewrite (list_index_Some (full_attn_groups gm) 0 primary) by done.
  case_match; [by eexists|].
  destruct (group_ids_lookup primary ids) as [l Hl]; [by eapply list_elem_of_lookup_2|done|].
  rewrite (list_index_Some _ _ _ Hl). repeat case_match; by eexists.
Qed.

Lemma state_hashes_keys ids sg ps :
  ids_fit ids →
  state_hashes md5 pickle_dumps h gm ids sg ps = Ok (state_key ids sg <$> ps).
Proof.
  intros Hfit. induction ps as [|p ps IH]; [done|]. simpl. unfold mbind, outcome_bind.
  unfold state_key at 1. destruct (state_hash_total sg p ids Hfit) as [o ->]. rewrite IH.
  by destruct o.
Qed.

Lemma prefetch_hashes_total ids ps :
  ids_fit ids → ∃ l, prefetch_hashes md5 pickle_dumps h gm ids ps = Ok l.
Proof.
  intros Hfit.
  assert (∀ pos gs, ∃ l, prefetch_hashes_at md5 pickle_dumps h gm ids pos gs = Ok l) as Hat.
  { intros pos gs. induction gs as [|sg gs [l IH]]; [by eexists|]. simpl. unfold mbind, outcome_bind.
    destruct (state_hash_total sg pos ids Hfit) as [o ->]. rewrite IH. by eexists. }
  induction ps as [|p ps [l IH]]; [by eexists|]. simpl. unfold mbind, outcome_bind.
  destruct (Hat p (state_groups gm)) as [l' ->]. rewrite IH. by eexists.
Qed.

(** How many tokens after [nct] the blocks of a group are usable for. *)
Definition reach (w : W) (m : RankConsistencyManager) (ids : list (list bytes)) (nct : Z)
    (g : GroupInfo) : Z :=
  match ids !! Z.to_nat (gi_group_id g) with
  | Some l =>
      Z.of_nat (prefix_count (usable w st m) (drop (Z.to_nat (nct / gi_block_size g)) l))
      * gi_block_size g
  | None => 0
  end.

Lemma candidate_spec w m ids nct g s :
  0 ≤ nct → ids_fit ids → g ∈ full_attn_groups gm → same w m s →
  ∃ s' c, full_attn_candidate (lookup_on_prefix st) nct ids g s = (s', Ok c) ∧ same w m s' ∧
    (c = reach w m ids nct g ∨ c = 0 ∧ ¬ answers).
Proof.
  intros Hn Hfit Hg Hs. destruct (group_ids_lookup g ids Hg Hfit) as [l Hl].
  destruct (mo_size _ Hgm g) as [Hbs _]; [set_solver|].
  unfold full_attn_candidate, reach. rewrite (list_index_Some _ _ _ Hl), Hl.
  erewrite bind_ok; [|done]. cbv zeta.
  rewrite py_slice_from_nonneg by (apply Z.div_pos; lia).
  set (ext := drop _ l). case_bool_decide as He.
  { exists s, 0. rewrite He. split_and!; [done|done|by left]. }
  destruct (try_prefix ext w m s Hs) as (s' & r & E & Hs' & Hr).
  erewrite bind_ok; [|exact E].
  destruct Hr as [->|[-> Hr]]; (do 2 eexists; split; [done|split; [done|]]).
  - left. f_equal. lia.
  - by right.
Qed.

Lemma candidates_spec w m ids nct gs s :
  0 ≤ nct → ids_fit ids → (∀ g, g ∈ gs → g ∈ full_attn_groups gm) → same w m s →
  ∃ s' cs, candidates (lookup_on_prefix st) nct ids gs s = (s', Ok cs) ∧ same w m s' ∧
    Forall2 (λ g c, c = reach w m ids nct g ∨ c = 0 ∧ ¬ answers) gs cs.
Proof.
  intros Hn Hfit. revert s. induction gs as [|g gs IH]; intros s Hgs Hs; [by eexists s, []|].
  destruct (candidate_spec w m ids nct g s) as (s1 & c & E1 & Hs1 & Hc); try done; [apply Hgs; left|].
  destruct (IH s1) as (s2 & cs & E2 & Hs2 & Hcs); [intros; apply Hgs; by right|done|].
  simpl. erewrite bind_ok; [|exact E1]. erewrite bind_ok; [|exact E2].
  do 2 eexists. split; [done|]. split; [done|]. by constructor.
Qed.

(** A run of [k] checkpoints is usable in a group as long as it stays in reach. *)
Lemma reach_run w m ids nct g l k :
  0 ≤ nct → (lcm | nct) → 0 ≤ k → g ∈ full_attn_groups gm →
  ids !! Z.to_nat (gi_group_id g) = Some l →
  k * lcm ≤ reach w m ids nct g ↔
  ∀ i : nat, nct / gi_block_size g ≤ Z.of_nat i < (nct + k * lcm) / gi_block_size g →
    ∃ b, l !! i = Some b ∧ usable w st m b = true.
Proof.
  intros Hn Hdn Hk Hg Hl. destruct (mo_size _ Hgm g) as [Hbs [q Hq]]; [set_solver|].
  assert (0 < lcm) by apply (mo_lcm _ Hgm).
  destruct Hdn as [a Ha]. set (bs := gi_block_size g) in *.
  assert (nct / bs = a * q) as ->.
  { rewrite Ha, Hq, Z.mul_assoc. apply Z.div_mul. lia. }
  assert ((nct + k * lcm) / bs = a * q + k * q) as ->.
  { rewrite Ha, Hq. replace (a * (q * bs) + k * (q * bs)) with ((a * q + k * q) * bs) by lia.
    apply Z.div_mul. lia. }
  assert (0 < q) by nia. assert (0 ≤ a) by nia.
  unfold reach. rewrite Hl. fold bs.
  replace (nct / bs) with (a * q) by (rewrite Ha, Hq, Z.mul_assoc; symmetry; apply Z.div_mul; lia).
  transitivity (Z.to_nat (k * q) ≤ prefix_count (usable w st m) (drop (Z.to_nat (a * q)) l))%nat.
  - rewrite Hq. split; intros; nia.
  - rewrite prefix_count_run. split; intros Hall i Hi; apply Hall; nia.
Qed.

Lemma reach_nonneg w m ids nct g : g ∈ full_attn_groups gm → 0 ≤ reach w m ids nct g.
Proof.
  intros Hg. destruct (mo_size _ Hgm g) as [Hbs _]; [set_solver|].
  unfold reach. case_match; nia.
Qed.

(** Stage 1: the checkpoints in reach of every full-attention group. *)
Lemma stage1_spec w m ids nct s :
  0 ≤ nct → ids_fit ids → same w m s →
  ∃ s' cs x, candidates (lookup_on_prefix st) nct ids (full_attn_groups gm) s = (s', Ok cs) ∧
    py_min cs = Ok x ∧ same w m s' ∧ 0 ≤ x ∧
    (∀ g, g ∈ full_attn_groups gm → x / lcm * lcm ≤ reach w m ids nct g) ∧
    (0 < x / lcm ∨ answers →
     ∀ k, (∀ g, g ∈ full_attn_groups gm → k * lcm ≤ reach w m ids nct g) → k ≤ x / lcm).
Proof.
  intros Hn Hfit Hs. assert (0 < lcm) as Hl by apply (mo_lcm _ Hgm).
  destruct (candidates_spec w m ids nct (full_attn_groups gm) s) as (s' & cs & E & Hs' & Hcs); try done.
  destruct (py_min_spec cs) as (x & Hx & Hin & Hmin).
  { intros ->. destruct (mo_primary _ Hgm) as [p Hp]. inversion Hcs as [E0|].
    rewrite <- E0 in Hp. done. }
  exists s', cs, x. split; [done|]. split; [done|]. split; [done|].
  apply list_elem_of_lookup in Hin as [i Hi].
  destruct (Forall2_lookup_r _ _ _ _ _ Hcs Hi) as (g0 & Hg0 & Hc0).
  apply list_elem_of_lookup_2 in Hg0. pose proof (reach_nonneg w m ids nct g0 Hg0).
  assert (0 ≤ x) as Hx0 by (destruct Hc0 as [->|[-> _]]; lia).
  split; [done|]. split.
  - intros g Hg. pose proof (reach_nonneg w m ids nct g Hg).
    pose proof (Z.mul_div_le x lcm Hl).
    destruct (proj1 (list_elem_of_lookup _ _) Hg) as [j Hj].
    destruct (Forall2_lookup_l _ _ _ _ _ Hcs Hj) as (c & Hc & Hcg).
    specialize (Hmin c (list_elem_of_lookup_2 _ _ _ Hc)). destruct Hcg as [->|[-> _]]; lia.
  - intros Hor k Hk. apply Z.div_le_lower_bound; [done|].
    assert (x = reach w m ids nct g0) as ->; [|specialize (Hk g0 Hg0); lia].
    destruct Hc0 as [->|[-> Hna]]; [done|]. destruct Hor as [Hpos|]; [|done].
    rewrite Z.div_0_l in Hpos; lia.
Qed.

(** One turn of stage 2: the last of the first [k] checkpoints with a usable
    state. *)
Lemma scan_group w m ids nct (n k : nat) sg s :
  ids_fit ids → (k ≤ n)%nat → same w m s →
  ∃ s' r,
    (∀ rest, state_scan md5 pickle_dumps h gm (lookup_on_reverse st) ids (checkpoints nct lcm n)
               (sg :: rest) (nct + Z.of_nat k * lcm) s =
      match r with
      | None => (s', Ok None)
      | Some j => state_scan md5 pickle_dumps h gm (lookup_on_reverse st) ids (checkpoints nct lcm n)
                    rest (nct + Z.of_nat j * lcm) s'
      end) ∧
    same w m s' ∧
    match r with
    | Some j =>
        (1 ≤ j ≤ k)%nat ∧ usable w st m (state_key ids sg (nct + Z.of_nat j * lcm)) = true ∧
        (∀ i, (j < i ≤ k)%nat → usable w st m (state_key ids sg (nct + Z.of_nat i * lcm)) = false)
    | None =>
        ¬ answers ∨
        ∀ i, (1 ≤ i ≤ k)%nat → usable w st m (state_key ids sg (nct + Z.of_nat i * lcm)) = false
    end.
Proof.
  intros Hfit Hk Hs. assert (0 < lcm) as Hl by apply (mo_lcm _ Hgm). cbn [state_scan].
  rewrite filter_checkpoints, state_hashes_keys by done.
  set (P := usable w st m). set (keys := state_key ids sg <$> checkpoints nct lcm k).
  assert (∀ i : nat, (1 ≤ i ≤ k)%nat → keys !! (i - 1)%nat = Some (state_key ids sg (nct + Z.of_nat i * lcm))) as Hkey.
  { intros i Hi. unfold keys. rewrite list_lookup_fmap, fmap_Some.
    exists (nct + Z.of_nat i * lcm). split; [|done]. rewrite lookup_checkpoints. split; [lia|].
    by replace (Z.of_nat (i - 1) + 1) with (Z.of_nat i) by lia. }
  destruct (try_reverse keys w m s Hs) as (s' & r & E & Hs' & Hr). fold P in Hr.
  pose proof (last_index_range P keys) as Hrg.
  assert (zlen keys = Z.of_nat k) as Hlen.
  { unfold keys, checkpoints, zlen. by rewrite !length_fmap, length_seq. }
  destruct Hr as [->|[-> Hna]].
  2:{ exists s', None. split; [|split; [done|by left]]. intros rest.
      erewrite bind_ok; [|done]. erewrite bind_ok; [|exact E]. done. }
  destruct (Z.ltb_spec (last_index P keys) 0) as [Hneg|Hpos].
  { exists s', None. split; [|split; [done|right]].
    - intros rest. erewrite bind_ok; [|done]. erewrite bind_ok; [|exact E]. cbv iota beta.
      by rewrite (proj2 (Z.ltb_lt _ _) Hneg).
    - intros i Hi. apply (last_index_max P keys (i - 1)); [by apply Hkey|lia]. }
  set (j := Z.to_nat (last_index P keys)).
  assert (Z.of_nat j = last_index P keys) as Hj by (subst j; lia).
  exists s', (Some (S j)). split; [|split; [done|]].
  - intros rest. erewrite bind_ok; [|done]. erewrite bind_ok; [|exact E]. cbv iota beta.
    rewrite (proj2 (Z.ltb_ge _ _) Hpos).
    erewrite bind_ok; [|unfold lift_outcome; rewrite (list_index_Some _ _ (nct + (Z.of_nat j + 1) * lcm)); [done|]].
    + f_equal. f_equal. case_match; [lia|]. nia.
    + apply lookup_checkpoints. split; [lia|done].
  - split; [lia|]. split.
    + destruct (last_index_Some P keys j) as (x & Hx & Hp); [lia|].
      specialize (Hkey (S j) ltac:(lia)). replace (S j - 1)%nat with j in Hkey by lia. congruence.
    + intros i Hi. apply (last_index_max P keys (i - 1)); [by apply Hkey; lia|lia].
Qed.

Abbreviation scan := (state_scan md5 pickle_dumps h gm (lookup_on_reverse st)).
Abbreviation hla_lookup :=
  (lookup_external_hit_tokens md5 pickle_dumps h gm (lookup_on_prefix st) (lookup_on_reverse st)).

(** The lookup as stage 1, which leaves [K] checkpoints, followed by stage 2. *)
Lemma lookup_stages w m ids nct s :
  0 ≤ nct → (lcm | nct) → ids_fit ids → same w m s →
  ∃ s1 (K : nat), same w m s1 ∧
    (∀ g, g ∈ full_attn_groups gm → Z.of_nat K * lcm ≤ reach w m ids nct g) ∧
    ((0 < K)%nat ∨ answers →
     ∀ k, (∀ g, g ∈ full_attn_groups gm → k * lcm ≤ reach w m ids nct g) → k ≤ Z.of_nat K) ∧
    (K = 0%nat → hla_lookup nct ids s = (s1, Ok (0, 0, []))) ∧
    ((0 < K)%nat → state_groups gm = [] →
     hla_lookup nct ids s = (s1, Ok (Z.of_nat K * lcm, Z.of_nat K, []))) ∧
    ((0 < K)%nat → state_groups gm ≠ [] →
     ∀ s2 r,
       scan ids (checkpoints nct lcm K) (state_groups gm) (nct + Z.of_nat K * lcm) s1 = (s2, Ok r) →
       (r = None → hla_lookup nct ids s = (s2, Ok (0, 0, []))) ∧
       (∀ j : nat, (1 ≤ j)%nat → r = Some (nct + Z.of_nat j * lcm) →
          ∃ hs, hla_lookup nct ids s = (s2, Ok (Z.of_nat j * lcm, Z.of_nat j, hs)))).
Proof.
  intros Hn [a Ha] Hfit Hs. assert (0 < lcm) as Hl by apply (mo_lcm _ Hgm).
  destruct (stage1_spec w m ids nct s) as (s1 & cs & x & E & Hx & Hs1 & Hx0 & Hreach & Hmax); try done.
  pose proof (Z.div_pos x lcm Hx0 Hl) as HK.
  destruct (Z_of_nat_complete _ HK) as [K EK]. rewrite EK in *.
  exists s1, K. split; [done|]. split; [done|]. split; [intros Hor; apply Hmax; destruct Hor; [left; lia|by right]|].
  assert (hla_lookup nct ids s =
    ((if Z.of_nat K * lcm <=? 0 then mret (0, 0, [])
      else if bool_decide (state_groups gm = [])
      then mret (Z.of_nat K * lcm, Z.of_nat K * lcm / lcm, [])
      else
        r ← scan ids (checkpoints nct lcm K) (state_groups gm) (nct + Z.of_nat K * lcm);
        match r with
        | None => mret (0, 0, [])
        | Some best_pos =>
            if best_pos - nct <=? 0 then mret (0, 0, [])
            else
              hs ← lift_outcome (prefetch_hashes md5 pickle_dumps h gm ids
                                   (py_range lcm (best_pos + lcm) lcm));
              mret (best_pos - nct, (best_pos - nct) / lcm, hs)
        end) : M _ _) s1) as ->.
  { unfold lookup_external_hit_tokens. rewrite (proj2 (Z.eqb_eq _ _) Hfit).
    rewrite Ha, Z_mod_mult. rewrite <- Ha. erewrite bind_ok; [|done]. erewrite bind_ok; [|done].
    erewrite bind_ok; [|exact E]. erewrite bind_ok; [|unfold lift_outcome; rewrite Hx; done].
    cbv zeta. rewrite EK. by rewrite py_range_checkpoints. }
  destruct (Z.leb_spec (Z.of_nat K * lcm) 0).
  { split_and!; [done|intros; exfalso; nia..]. }
  rewrite Z.div_mul by lia. split; [intros ->; lia|]. split; [intros _ ->; done|].
  intros HK0 Hne s2 r Es. rewrite bool_decide_false by done.
  split.
  - intros ->. by erewrite bind_ok; [|exact Es].
  - intros j Hj ->. erewrite bind_ok; [|exact Es]. cbv beta iota.
    replace (nct + Z.of_nat j * lcm - nct) with (Z.of_nat j * lcm) by lia.
    destruct (Z.leb_spec (Z.of_nat j * lcm) 0); [nia|]. rewrite Z.div_mul by lia.
    edestruct (prefetch_hashes_total ids) as [hs Ehs]; [done|].
    exists hs. erewrite bind_ok; [done|]. unfold lift_outcome. by rewrite Ehs.
Qed.

Lemma hla_lookup_spec w m ids nct :
  0 ≤ nct → (lcm | nct) → ids_fit ids → zlen (state_groups gm) ≤ 1 →
  ∃ s' n hs, hla_lookup nct ids (m, w) = (s', Ok (n * lcm, n, hs)) ∧ same w m s' ∧
    reusable w m ids nct n ∧
    (0 < n ∨ answers → ∀ k, reusable w m ids nct k → k ≤ n).
Proof.
  intros Hn Hd Hfit Hone.
  destruct (lookup_stages w m ids nct (m, w)) as (s1 & K & Hs1 & Hreach & Hmax & Hz & Hno & Hst); try done.
  assert (∀ k, 0 ≤ k → k ≤ Z.of_nat K →
    (∀ sg, 0 < k → sg ∈ state_groups gm → usable w st m (state_key ids sg (nct + k * lcm)) = true) →
    reusable w m ids nct k) as Hrun.
  { intros k Hk HkK Hsg. split; [done|split; [|done]]. intros g l i Hg Hl.
    apply (reach_run w m ids nct g l k); try done.
    specialize (Hreach g Hg). pose proof (mo_lcm _ Hgm). nia. }
  assert (∀ k, (0 < K)%nat ∨ answers → reusable w m ids nct k → k ≤ Z.of_nat K) as Hle.
  { intros k Hor (Hk & Hfa & _). apply Hmax; [done|]. intros g Hg.
    destruct (group_ids_lookup g ids Hg Hfit) as [l Hl]. apply (reach_run w m ids nct g l k); try done.
    intros i. by apply (Hfa g l i). }
  assert (reusable w m ids nct 0) as Hzero by (apply Hrun; lia).
  destruct (decide (K = 0%nat)) as [HK|HK].
  { exists s1, 0, []. rewrite (Hz HK). split; [done|]. split; [done|]. split; [done|].
    intros [?|Ha] k Hk; [lia|]. specialize (Hle k (or_intror Ha) Hk). lia. }
  destruct (state_groups gm) as [|sg [|]] eqn:Hsgs; [..|unfold zlen in Hone; simpl in Hone; lia].
  { exists s1, (Z.of_nat K), []. rewrite Hno by (done || lia).
    split; [done|]. split; [done|]. split; [apply Hrun; [lia..|by intros ? _ ?%elem_of_nil]|].
    intros _ k Hk. apply Hle; [left; lia|done]. }
  destruct (scan_group w m ids nct K K sg s1) as (s2 & r & Es & Hs2 & Hr); try done.
  specialize (Es []). specialize (Hst ltac:(lia) ltac:(done) s2).
  destruct r as [j|]; [destruct Hr as (Hj & Hu & Hlast)|];
    apply Hst in Es as [Hnone Hsome].
  - destruct (Hsome j) as [hs ->]; [lia|done|]. exists s2, (Z.of_nat j), hs.
    split; [done|]. split; [done|]. split.
    + apply Hrun; [lia..|]. intros sg' _ ->%list_elem_of_singleton. done.
    + intros _ k Hk. pose proof (Hle k ltac:(left; lia) Hk). destruct Hk as (Hk0 & _ & Hk).
      destruct (decide (k ≤ Z.of_nat j)); [done|].
      specialize (Hk sg ltac:(lia)). rewrite Hsgs in Hk. specialize (Hk ltac:(left)).
      specialize (Hlast (Z.to_nat k) ltac:(lia)). rewrite Z2Nat.id in Hlast by lia. congruence.
  - exists s2, 0, []. rewrite Hnone by done. split; [done|]. split; [done|]. split; [done|].
    intros [?|Ha] k Hk; [lia|]. destruct Hr as [?|Hr]; [done|].
    pose proof (Hle k (or_intror Ha) Hk). destruct Hk as (Hk0 & _ & Hk).
    destruct (decide (k ≤ 0)); [done|].
    specialize (Hk sg ltac:(lia)). rewrite Hsgs in Hk. specialize (Hk ltac:(left)).
    specialize (Hr (Z.to_nat k) ltac:(lia)). rewrite Z2Nat.id in Hr by lia. congruence.
Qed.

(** C22 The two-stage lookup finds the longest reusable prefix.  For a model with
    at most one state group it always returns a number [n] of checkpoints after
    the [nct] computed tokens such that the blocks of every full-attention group
    up to there are usable (held by the store and not known to be missing on a
    rank) and so is the state of the state group at that position.  When [n] is
    positive, or no store lookup raises, no larger number has this property.
    The lookup does not change what the store holds. *)
Theorem hla_lookup_longest w m ids nct :
  0 ≤ nct → (lcm | nct) → ids_fit ids → zlen (state_groups gm) ≤ 1 →
  ∃ s' n hs, hla_lookup nct ids (m, w) = (s', Ok (n * lcm, n, hs)) ∧ same w m s' ∧
    reusable w m ids nct n ∧
    (0 < n ∨ answers → ∀ k, reusable w m ids nct k → k ≤ n).
Proof. apply hla_lookup_spec. Qed.
End lookup.

(** ** What a state key identifies *)

Lemma compute_group_block_ids_lookup groups request ids (i : nat) g :
  compute_group_block_ids groups request = Ok ids → groups !! i = Some g →
  ∃ l, ids !! i = Some l ∧ compute_block_hashes g request = Ok l.
Proof.
  revert ids i. induction groups as [|g0 groups IH]; intros ids i; simpl; [done|].
  unfold mbind, outcome_bind. destruct (compute_block_hashes g0 request) as [l0|] eqn:E0; [|done].
  destruct (compute_group_block_ids groups request) as [others|]; [|done].
  intros [= <-]. destruct i as [|i]; simpl; [intros [= <-]; eauto|]. by apply IH.
Qed.

Lemma length_group_block_ids groups request ids :
  compute_group_block_ids groups request = Ok ids → length ids = length groups.
Proof.
  revert ids. induction groups as [|g groups IH]; intros ids; simpl; [by intros [= <-]|].
  unfold mbind, outcome_bind. destruct (compute_block_hashes g request); [|done].
  destruct (compute_group_block_ids groups request); [|done]. intros [= <-]. simpl. by rewrite (IH _ eq_refl).
Qed.

Section state_keys.
Context {X : Type}.
Variable md5 : bytes → bytes.
Variable pickle_dumps : pickled X → bytes.
Variable gen : option (Request → Z → Z → Z → outcome (option X * Z)).
Variable h : RequestHasher.
(** [pickle.loads] recovers the value. *)
Hypothesis pickle_inj : ∀ v1 v2, pickle_dumps v1 = pickle_dumps v2 → v1 = v2.
Variables (gm : KVCacheGroupManager) (base_seed : bytes).

Abbreviation message v := (meta_bytes h +:+ pickle_dumps v)%string.

(** The hash of the prefix that a state key is derived from. *)
Definition prefix_hash (primary : GroupInfo) (ids : list (list bytes)) (pos : Z) : bytes :=
  default ""%string
    (l ← ids !! Z.to_nat (gi_group_id primary); l !! Z.to_nat (pos / gi_block_size primary - 1)).

(** The strings given to md5 for a state key of a request. *)
Definition state_messages (primary : GroupInfo) (ids : list (list bytes)) (sg : GroupInfo) (pos : Z)
    (ins : list (list Z * option X)) : list bytes :=
  message (PGroupSeed base_seed (gi_group_id sg)) ::
  message (PState (gi_seed sg) pos (prefix_hash primary ids pos)) ::
  messages md5 pickle_dumps (meta_bytes h) (gi_seed primary) ins.

(** A state key is the hash of the group's seed, the position and the prefix. *)
Lemma state_hash_Some primary ids sg pos k :
  full_attn_groups gm !! 0%nat = Some primary →
  compute_mamba_align_state_hash md5 pickle_dumps h gm sg pos ids = Ok (Some k) →
  0 < pos ∧ (lcm_block_size gm | pos) ∧ 1 ≤ pos / gi_block_size primary ∧
  (∃ l, ids !! Z.to_nat (gi_group_id primary) = Some l ∧
        l !! Z.to_nat (pos / gi_block_size primary - 1) = Some (prefix_hash primary ids pos)) ∧
  k = md5 (message (PState (gi_seed sg) pos (prefix_hash primary ids pos))).
Proof.
  intros Hp. unfold compute_mamba_align_state_hash, mbind, outcome_bind, prefix_hash.
  destruct (Z.leb_spec pos 0); simpl; [done|].
  destruct (Z.eqb_spec (pos mod lcm_block_size gm) 0) as [Hm|]; simpl; [|done].
  unfold list_index at 1. change (Z.to_nat 0) with 0%nat. rewrite Hp.
  destruct (Z.ltb_spec (pos / gi_block_size primary - 1) 0); [done|]. unfold list_index.
  destruct (ids !! Z.to_nat (gi_group_id primary)) as [l|] eqn:El; [|done]. simpl.
  destruct (l !! Z.to_nat _) as [ph|] eqn:Eph; [|done]. case_bool_decide; [done|]. intros [= <-].
  split; [done|]. split.
  - destruct (decide (lcm_block_size gm = 0)) as [E|]; [|by apply Z.mod_divide].
    rewrite E, Z.mod_0_r in Hm. lia.
  - split; [lia|]. split; [|done]. by exists l.
Qed.

(** The hashes of the first full-attention group are a chain from its seed. *)
Lemma primary_hashes groups primary request ids :
  KVCacheGroupManager_init md5 pickle_dumps gen h groups base_seed = Ok gm →
  (∀ group size, group ∈ groups → block_size_from_kv_cache_spec group.1 = Ok size → 0 < size) →
  full_attn_groups gm !! 0%nat = Some primary →
  compute_all_group_block_ids gm request = Ok ids →
  ∃ l, ids !! Z.to_nat (gi_group_id primary) = Some l ∧
    hash_request md5 pickle_dumps gen h (gi_block_size primary) (gi_seed primary) request = Ok l ∧
    0 < gi_block_size primary ∧ (gi_block_size primary | lcm_block_size gm).
Proof.
  intros Hinit Hpos Hp Hids.
  pose proof (manager_init_spec md5 pickle_dumps gen h groups base_seed gm Hpos Hinit) as (Hok & _ & Hg).
  apply list_elem_of_lookup_2 in Hp. destruct (mo_size _ Hok primary) as [Hbs Hdiv]; [set_solver|].
  apply (mo_fa _ Hok) in Hp as [Hin Hfa]. unfold is_full_attention in Hfa.
  apply andb_true_iff in Hfa as [Hpart Hm%negb_true_iff].
  destruct (Hg _ Hin) as [_ Hhash]. specialize (Hhash Hm).
  apply list_elem_of_lookup in Hin as [i Hi]. rewrite (mo_ids _ Hok i primary Hi), Nat2Z.id.
  destruct (compute_group_block_ids_lookup _ _ _ i primary Hids Hi) as (l & Hl & Hc).
  exists l. split; [done|]. split; [|done].
  unfold compute_block_hashes in Hc. by rewrite Hpart, Hm, Hhash in Hc.
Qed.

(** C27 A state key identifies everything the state depends on.  For two requests
    hashed in one namespace, as long as md5 does not collide on the strings
    hashed for them, the keys of two states are equal exactly when the states
    belong to the same group, at the same position, and the contents of the
    requests up to that position are equal; equal keys mean equal tokens. *)
Theorem state_key_identifies groups primary r1 r2 ids1 ids2 sg1 sg2 p1 p2 ins1 ins2 k1 k2 :
  KVCacheGroupManager_init md5 pickle_dumps gen h groups base_seed = Ok gm →
  (∀ group size, group ∈ groups → block_size_from_kv_cache_spec group.1 = Ok size → 0 < size) →
  full_attn_groups gm !! 0%nat = Some primary →
  sg1 ∈ groups_by_id gm → sg2 ∈ groups_by_id gm →
  compute_all_group_block_ids gm r1 = Ok ids1 → compute_all_group_block_ids gm r2 = Ok ids2 →
  request_contents gen r1 (gi_block_size primary) = Ok ins1 →
  request_contents gen r2 (gi_block_size primary) = Ok ins2 →
  collision_free md5 (state_messages primary ids1 sg1 p1 ins1 ++ state_messages primary ids2 sg2 p2 ins2) →
  compute_mamba_align_state_hash md5 pickle_dumps h gm sg1 p1 ids1 = Ok (Some k1) →
  compute_mamba_align_state_hash md5 pickle_dumps h gm sg2 p2 ids2 = Ok (Some k2) →
  (k1 = k2 ↔
   gi_group_id sg1 = gi_group_id sg2 ∧ p1 = p2 ∧
   take (Z.to_nat (p1 / gi_block_size primary)) ins1 = take (Z.to_nat (p2 / gi_block_size primary)) ins2) ∧
  (k1 = k2 → py_slice 0 p1 (all_token_ids r1) = py_slice 0 p2 (all_token_ids r2)).
Proof.
  intros Hinit Hpos Hp Hsg1 Hsg2 Hids1 Hids2 Hi1 Hi2 Hcf Hk1 Hk2.
  pose proof (manager_init_spec md5 pickle_dumps gen h groups base_seed gm Hpos Hinit) as (Hok & _ & Hg).
  destruct (primary_hashes _ _ _ _ Hinit Hpos Hp Hids1) as (l1 & El1 & Hh1 & Hbs & Hdiv).
  destruct (primary_hashes _ _ _ _ Hinit Hpos Hp Hids2) as (l2 & El2 & Hh2 & _ & _).
  pose proof (state_hash_Some _ _ _ _ _ Hp Hk1) as (Hp1 & Hd1 & Hge1 & (l1' & E1 & Hph1) & ->).
  pose proof (state_hash_Some _ _ _ _ _ Hp Hk2) as (Hp2 & Hd2 & Hge2 & (l2' & E2 & Hph2) & ->).
  assert (l1' = l1) as -> by congruence. assert (l2' = l2) as -> by congruence.
  set (bs := gi_block_size primary) in *. set (ph1 := prefix_hash primary ids1 p1) in *.
  set (ph2 := prefix_hash primary ids2 p2) in *.
  assert (p1 = p2 →
    (ph1 = ph2 ↔ take (Z.to_nat (p1 / bs)) ins1 = take (Z.to_nat (p2 / bs)) ins2) ∧
    (ph1 = ph2 → py_slice 0 p1 (all_token_ids r1) = py_slice 0 p2 (all_token_ids r2))) as Hpre.
  { intros <-. pose proof (hash_prefix_binds md5 pickle_dumps gen pickle_inj h bs (gi_seed primary)
      r1 r2 l1 l2 ins1 ins2 (Z.to_nat (p1 / bs - 1)) ph1 ph2 Hbs Hh1 Hh2 Hi1 Hi2) as Hb.
    replace (S (Z.to_nat (p1 / bs - 1))) with (Z.to_nat (p1 / bs)) in Hb by lia.
    rewrite Z2Nat.id in Hb by lia.
    rewrite <- (Z.mul_comm bs), <- Z_div_exact_full_2 in Hb by (lia || (apply Z.mod_divide; [lia|by etrans])).
    apply Hb; [|done..]. intros x y [Hx|Hx]%elem_of_app [Hy|Hy]%elem_of_app;
      apply Hcf; unfold state_messages; rewrite elem_of_app, !elem_of_cons; tauto. }
  assert (md5 (message (PState (gi_seed sg1) p1 ph1)) = md5 (message (PState (gi_seed sg2) p2 ph2)) →
    gi_group_id sg1 = gi_group_id sg2 ∧ p1 = p2 ∧ ph1 = ph2) as Hinj.
  { unfold state_messages in Hcf.
    intros E%Hcf; [|rewrite elem_of_app, !elem_of_cons; tauto..]. apply (inj (String.append _)), pickle_inj in E.
    injection E as Es -> ->. split; [|done].
    rewrite (proj1 (Hg _ Hsg1)), (proj1 (Hg _ Hsg2)) in Es.
    apply Hcf in Es; [|rewrite elem_of_app, !elem_of_cons; tauto..].
    apply (inj (String.append _)), pickle_inj in Es. congruence. }
  split; [split|].
  - intros (? & Hpp & Hph)%Hinj. split; [done|]. split; [done|]. by apply Hpre.
  - intros (Hgid & Hpp & Htk). assert (ph1 = ph2) as -> by (by apply Hpre).
    assert (gi_seed sg1 = gi_seed sg2) as ->; [|by rewrite Hpp].
    by rewrite (proj1 (Hg _ Hsg1)), (proj1 (Hg _ Hsg2)), Hgid.
  - intros (_ & Hpp & Hph)%Hinj. by apply Hpre.
Qed.
End state_keys.

(** ** Concrete runs

    A model with one full-attention group and one or two state groups, and a
    small polynomial hash in place of md5. *)

Definition ex_md5 (s : string) : string :=
  pretty (foldl (λ acc c, Z.land (acc * 257 + Z.of_N (Ascii.N_of_ascii c)) 2305843009213693951) 7
            (String.list_ascii_of_string s)).

Definition ex_text (v : pickled string) : string :=
  match v with
  | PStr s => s
  | PBlock p t e => "b" +:+ p +:+ foldr (λ x s, "," +:+ pretty x +:+ s) "" t +:+ default "" e
  | PGroupSeed b g => "g" +:+ b +:+ "," +:+ pretty g
  | PState g n k => "t" +:+ g +:+ "," +:+ pretty n +:+ "," +:+ k
  | PChunk w d r i n k => "c" +:+ i +:+ "," +:+ pretty n +:+ "," +:+ pretty k
  end%string.

Definition ex_fa_spec (size : Z) : KVCacheSpec := LayerKVCacheSpec size FullAttentionSpec None None.
Definition ex_state_spec (size : Z) : KVCacheSpec := LayerKVCacheSpec size (MambaSpec "align") None None.

Definition ex_hla_groups (states : nat) : list (KVCacheSpec * list string) :=
  (UniformTypeKVCacheSpecs 2 ["l0"%string] [ex_fa_spec 2], ["l0"%string]) ::
  replicate states (ex_state_spec 4, ["l1"%string]).

Definition ex_hla_hasher : RequestHasher := RequestHasher_init ex_md5 ex_text "m".

Definition ex_manager (states : nat) : KVCacheGroupManager :=
  match KVCacheGroupManager_init ex_md5 ex_text None ex_hla_hasher (ex_hla_groups states) "s" with
  | Ok gm => gm
  | Raise _ => mkGroupManager [] [] [] [] 0
  end.

Definition ex_hla_request : Request := ex_request [1; 2; 3; 4; 5; 6; 7; 8; 9; 10; 11; 12; 13].

Definition ex_ids (states : nat) : list (list bytes) :=
  match compute_all_group_block_ids (ex_manager states) ex_hla_request with
  | Ok ids => ids
  | Raise _ => []
  end.

Definition ex_state_key (states : nat) (gid : nat) (pos : Z) : bytes :=
  match groups_by_id (ex_manager states) !! gid with
  | Some sg => state_key ex_md5 ex_text ex_hla_hasher (ex_manager states)
                 (ex_ids states) sg pos
  | None => ""%string
  end.

(** The store holds the first four full-attention blocks, and some states. *)
Definition ex_hla_world (states : nat) (keys : list (nat * Z)) : RefStore :=
  rs_init 0 (take 4 (default [] (ex_ids states !! 0%nat)) ++
             ((λ p, ex_state_key states p.1 p.2) <$> keys)).

Lemma ex_groups_positive states group size :
  group ∈ ex_hla_groups states → block_size_from_kv_cache_spec group.1 = Ok size → 0 < size.
Proof.
  unfold ex_hla_groups. intros [->|[-> _]%elem_of_replicate]%elem_of_cons; simpl; intros [= <-]; lia.
Qed.

Lemma ex_manager_init states :
  match KVCacheGroupManager_init ex_md5 ex_text None ex_hla_hasher (ex_hla_groups states) "s" with
  | Ok _ => true | Raise _ => false end = true →
  KVCacheGroupManager_init ex_md5 ex_text None ex_hla_hasher (ex_hla_groups states) "s"
  = Ok (ex_manager states).
Proof.
  unfold ex_manager. by destruct (KVCacheGroupManager_init _ _ _ _ (ex_hla_groups states) "s").
Qed.

Lemma ex_manager_ok : manager_ok (ex_manager 1).
Proof.
  apply (manager_init_spec ex_md5 ex_text None ex_hla_hasher (ex_hla_groups 1) "s" _
           (ex_groups_positive 1)).
  apply ex_manager_init. vm_compute. reflexivity.
Qed.

Abbreviation ex_lookup states keys :=
  (lookup_external_hit_tokens ex_md5 ex_text ex_hla_hasher (ex_manager states)
     (lookup_on_prefix 0) (lookup_on_reverse 0) 0 (ex_ids states)
     (RankConsistencyManager_init true true, ex_hla_world states keys)).

(** The store holds the states at 4 and at 8 tokens: the lookup resumes at 8. *)
Lemma hla_lookup_longest_witness :
  ∃ hs, (ex_lookup 1 [(1%nat, 4); (1%nat, 8)]).2 = Ok (8, 2, hs) ∧
    reusable ex_md5 ex_text ex_hla_hasher (ex_manager 1) 0
      (ex_hla_world 1 [(1%nat, 4); (1%nat, 8)]) (RankConsistencyManager_init true true) (ex_ids 1) 0 2.
Proof.
  destruct (hla_lookup_longest ex_md5 ex_text ex_hla_hasher (ex_manager 1) 0
    ex_manager_ok (ex_hla_world 1 [(1%nat, 4); (1%nat, 8)]) (RankConsistencyManager_init true true)
    (ex_ids 1) 0) as (s' & n & hs & E & _ & Hr & _);
    [lia|by exists 0|vm_compute; reflexivity|vm_compute; congruence|].
  apply (f_equal snd) in E. cbn [snd] in E.
  assert (match (ex_lookup 1 [(1%nat, 4); (1%nat, 8)]).2 with Ok (a, b, _) => (a, b) | _ => (0, 0) end = (8, 2))
    as E2 by (vm_compute; reflexivity).
  rewrite E in E2. assert (n * lcm_block_size (ex_manager 1) = 8) as E8 by congruence.
  assert (n = 2) as -> by congruence. exists hs. split; [|exact Hr]. rewrite E, E8. reflexivity.
Defined.

(** With two state groups the lookup can report a hit at a position where one
    of them has no state.  The first group has its only state at 8 tokens, the
    second at 4: the scan for the second moves the hit back to 4 tokens, and the
    first group is not consulted again.  The comment in the source promises the
    rightmost position where the states of all state groups are present. *)
Theorem state_groups_disagree :
  (∃ hs, (ex_lookup 2 [(1%nat, 8); (2%nat, 4)]).2 = Ok (4, 1, hs)) ∧
  Exists (λ sg, rs_present (ex_hla_world 2 [(1%nat, 8); (2%nat, 4)]) 0
                  (state_key ex_md5 ex_text ex_hla_hasher (ex_manager 2) (ex_ids 2) sg 4) = false)
    (state_groups (ex_manager 2)).
Proof.
  split; [eexists; vm_compute; reflexivity|].
  apply (bool_decide_unpack _). vm_compute. exact I.
Qed.

(** Two requests that agree on four tokens, with an injective encoding in place
    of pickle. *)
Definition ex_bin_kv_groups : list (KVCacheSpec * list string) :=
  [(ex_fa_spec 4, ["l0"%string]); (ex_state_spec 4, ["l1"%string])].

Definition ex_bin_hasher : RequestHasher := RequestHasher_init ex_md5 ex_pickle "m".

Definition ex_bin_manager : KVCacheGroupManager :=
  match KVCacheGroupManager_init ex_md5 ex_pickle None ex_bin_hasher ex_bin_kv_groups "s" with
  | Ok gm => gm
  | Raise _ => mkGroupManager [] [] [] [] 0
  end.

Lemma ex_bin_groups_positive group size :
  group ∈ ex_bin_kv_groups → block_size_from_kv_cache_spec group.1 = Ok size → 0 < size.
Proof. intros [->|[->|[]%elem_of_nil]%elem_of_cons]%elem_of_cons; simpl; intros [= <-]; lia. Qed.

Lemma ex_bin_manager_init :
  KVCacheGroupManager_init ex_md5 ex_pickle None ex_bin_hasher ex_bin_kv_groups "s" = Ok ex_bin_manager.
Proof.
  assert (match KVCacheGroupManager_init ex_md5 ex_pickle None ex_bin_hasher ex_bin_kv_groups "s" with
          | Ok _ => true | Raise _ => false end = true) as E by (vm_compute; reflexivity).
  unfold ex_bin_manager. by destruct (KVCacheGroupManager_init _ _ _ _ ex_bin_kv_groups "s").
Qed.

Definition ex_bin_ids (tokens : list Z) : list (list bytes) :=
  match compute_all_group_block_ids ex_bin_manager (ex_request tokens) with Ok ids => ids | Raise _ => [] end.

Lemma ex_bin_ids_ok tokens :
  match compute_all_group_block_ids ex_bin_manager (ex_request tokens) with Ok _ => true | _ => false end = true →
  compute_all_group_block_ids ex_bin_manager (ex_request tokens) = Ok (ex_bin_ids tokens).
Proof. unfold ex_bin_ids. by destruct (compute_all_group_block_ids _ _). Qed.

Definition ex_bin_key (sg : GroupInfo) (tokens : list Z) : bytes :=
  state_key ex_md5 ex_pickle ex_bin_hasher ex_bin_manager (ex_bin_ids tokens) sg 4.

Definition ex_has_key (sg : GroupInfo) (tokens : list Z) : bool :=
  match compute_mamba_align_state_hash ex_md5 ex_pickle ex_bin_hasher ex_bin_manager sg 4 (ex_bin_ids tokens)
  with Ok (Some _) => true | _ => false end.

Lemma ex_bin_key_ok sg tokens :
  ex_has_key sg tokens = true →
  compute_mamba_align_state_hash ex_md5 ex_pickle ex_bin_hasher ex_bin_manager sg 4 (ex_bin_ids tokens)
  = Ok (Some (ex_bin_key sg tokens)).
Proof.
  unfold ex_has_key, ex_bin_key, state_key.
  by destruct (compute_mamba_align_state_hash _ _ _ _ sg 4 (ex_bin_ids tokens)) as [[]|].
Qed.

Definition ex_bin_messages (p : GroupInfo * GroupInfo) (tokens : list Z) : list bytes :=
  state_messages ex_md5 ex_pickle ex_bin_hasher "s" p.1 (ex_bin_ids tokens) p.2 4
    [([1; 2; 3; 4], None)].

(** The groups of the example: their block size, keys, and no collisions. *)
Definition ex_bin_check (p : GroupInfo * GroupInfo) : bool :=
  let l := ex_bin_messages p [1; 2; 3; 4; 5] ++ ex_bin_messages p [1; 2; 3; 4; 6] in
  (gi_block_size p.1 =? 4) && ex_has_key p.2 [1; 2; 3; 4; 5] && ex_has_key p.2 [1; 2; 3; 4; 6] &&
  bool_decide (Forall (λ x, Forall (λ y, ex_md5 x = ex_md5 y → x = y) l) l).

Lemma ex_bin_groups :
  ∃ primary sg, full_attn_groups ex_bin_manager !! 0%nat = Some primary ∧ sg ∈ groups_by_id ex_bin_manager ∧
    ex_bin_check (primary, sg) = true.
Proof.
  assert (ex_bin_check <$> zip (full_attn_groups ex_bin_manager) (state_groups ex_bin_manager) !! 0%nat = Some true)
    as E by (vm_compute; reflexivity).
  destruct (zip _ _ !! 0%nat) as [[primary sg]|] eqn:Ez; [|done]. simpl in E. injection E as E.
  apply lookup_zip_with_Some in Ez as (? & ? & [= <- <-] & Hp & Hsg).
  exists primary, sg. split; [done|]. split; [|done]. apply list_elem_of_lookup_2 in Hsg.
  pose proof (manager_init_spec ex_md5 ex_pickle None ex_bin_hasher ex_bin_kv_groups "s" _
    ex_bin_groups_positive ex_bin_manager_init) as [Hok _].
  by apply (mo_st _ Hok) in Hsg as [? _].
Qed.

Lemma state_key_identifies_witness :
  ∃ sg, sg ∈ groups_by_id ex_bin_manager ∧
    (ex_bin_key sg [1; 2; 3; 4; 5] = ex_bin_key sg [1; 2; 3; 4; 6] →
     py_slice 0 4 [1; 2; 3; 4; 5] = py_slice 0 4 [1; 2; 3; 4; 6]).
Proof.
  destruct ex_bin_groups as (primary & sg & Hp & Hsg & Hc). exists sg. split; [exact Hsg|].
  apply andb_true_iff in Hc as [[[Hbs Hk1]%andb_true_iff Hk2]%andb_true_iff Hcf%bool_decide_eq_true].
  apply Z.eqb_eq in Hbs. simpl in Hbs. rewrite Forall_forall in Hcf.
  apply (state_key_identifies ex_md5 ex_pickle None ex_bin_hasher ex_pickle_inj ex_bin_manager "s"
    ex_bin_kv_groups primary (ex_request [1; 2; 3; 4; 5]) (ex_request [1; 2; 3; 4; 6])
    (ex_bin_ids [1; 2; 3; 4; 5]) (ex_bin_ids [1; 2; 3; 4; 6]) sg sg 4 4
    [([1; 2; 3; 4], None)] [([1; 2; 3; 4], None)]
    (ex_bin_key sg [1; 2; 3; 4; 5]) (ex_bin_key sg [1; 2; 3; 4; 6]));
    [exact ex_bin_manager_init|exact ex_bin_groups_positive|exact Hp|exact Hsg|exact Hsg
    |apply ex_bin_ids_ok; vm_compute; reflexivity|apply ex_bin_ids_ok; vm_compute; reflexivity
    |rewrite Hbs; vm_compute; reflexivity|rewrite Hbs; vm_compute; reflexivity
    | |apply ex_bin_key_ok; exact Hk1|apply ex_bin_key_ok; exact Hk2].
  intros x y Hx Hy. specialize (Hcf x Hx). rewrite Forall_forall in Hcf. exact (Hcf y Hy).
Defined.
