(* ===== verification/HlaPlanning.v ===== *)
(** * What the hybrid connector plans

    The load and dump plans of the hybrid linear attention connector against a
    declarative description of their rows, and the dumps of consecutive steps. *)

From Stdlib Require Import ZArith Lia.
From stdpp Require Import base list gmap strings numbers fin_sets.
From S2P Require Import Prelude.
From S2P Require Import Store.
From S2P Require Import RankConsistency.
From S2P Require Import RequestHasher.
From S2P Require Import DirectScheduler.
From S2P Require Import HlaScheduler.
From S2P Require Import HlaLookup.
Local Open Scope Z_scope.

(** ** Rows *)

Lemma elem_extend_non_null s e ucm vllm gid k v id :
  0 ≤ s → 0 ≤ e →
  (k, v, id) ∈ extend_non_null (py_slice s e ucm) (py_slice s e vllm) gid ↔
  id = gid ∧ v ≠ 0 ∧ ∃ j : nat, s ≤ Z.of_nat j < e ∧ ucm !! j = Some k ∧ vllm !! j = Some v.
Proof.
  intros Hs He. unfold extend_non_null. rewrite list_elem_of_fmap.
  setoid_rewrite list_elem_of_filter. split.
  - intros ([k' v'] & [= -> -> ->] & Hv & (i & Hi)%list_elem_of_lookup).
    apply lookup_zip_with_Some in Hi as (? & ? & [= <- <-] & Hk & Hv').
    apply lookup_py_slice_Some in Hk as [Hi Hk]; [|done|done].
    apply lookup_py_slice_Some in Hv' as [_ Hv']; [|done|done].
    split; [done|]. split; [done|]. exists (Z.to_nat s + i)%nat. split_and!; [lia|lia|done|done].
  - intros (-> & Hv & j & Hj & Hk & Hv'). exists (k, v). split; [done|]. split; [done|].
    apply (list_elem_of_lookup_2 _ (j - Z.to_nat s)). apply lookup_zip_with_Some.
    exists k, v. split; [done|]. rewrite !lookup_py_slice_Some by done.
    replace (Z.to_nat s + (j - Z.to_nat s))%nat with j by lia. split_and!; (done || lia).
Qed.

(** The state blocks picked: those at the indices, if all are in range. *)
Lemma pick_state_blocks_spec block_ids indices acc :
  match pick_state_blocks block_ids indices acc with
  | Some l =>
      (∀ i, i ∈ indices → is_Some (block_ids !! Z.to_nat i)) ∧
      ∀ v, v ∈ l ↔ v ∈ acc ∨ v ≠ 0 ∧ ∃ i, i ∈ indices ∧ block_ids !! Z.to_nat i = Some v
  | None => ∃ i, i ∈ indices ∧ block_ids !! Z.to_nat i = None
  end.
Proof.
  revert acc. induction indices as [|i indices IH]; intros acc; simpl.
  { split; [by intros i ?%elem_of_nil|]. intros v. split; [by left|].
    intros [|(_ & i & []%elem_of_nil & _)]. done. }
  destruct (block_ids !! Z.to_nat i) as [b|] eqn:Hb; [|exists i; split; [left|done]].
  set (acc' := if negb (b =? 0) && _ then acc ++ [b] else acc). specialize (IH acc').
  assert (∀ v, v ∈ acc' ↔ v ∈ acc ∨ v ≠ 0 ∧ v = b) as Hacc.
  { intros v. subst acc'. destruct (Z.eqb_spec b 0); simpl; [naive_solver|].
    case_bool_decide; simpl; [naive_solver|]. rewrite elem_of_app, list_elem_of_singleton. naive_solver. }
  destruct (pick_state_blocks block_ids indices acc') as [l|].
  - destruct IH as [Hall IH]. split.
    + intros j [->|?]%elem_of_cons; [by eexists|by apply Hall].
    + intros v. rewrite IH, Hacc. setoid_rewrite elem_of_cons. naive_solver.
  - destruct IH as (j & ? & ?). exists j. split; [by right|done].
Qed.

Section planning.
Context {X : Type}.
Variable md5 : bytes → bytes.
Variable pickle_dumps : pickled X → bytes.
Variable h : RequestHasher.
Variable cfg : HlaConfig.
Abbreviation gm := (group_manager cfg).
Abbreviation lcm := (lcm_block_size gm).
Abbreviation compute := (compute_mamba_align_state_hash md5 pickle_dumps h gm).
Hypothesis Hgm : manager_ok gm.

(** One list of hashes and one block table per group. *)
Definition meta_shape (meta : HLARequestMeta) : Prop :=
  ids_fit gm (group_ucm_block_ids meta) ∧ zlen (group_vllm_block_ids meta) = num_groups gm.

(** [k] and [v] are the hash and the block of the engine at position [j] of group
    [gid]. *)
Definition block_at (meta : HLARequestMeta) (gid : Z) (j : nat) (k : bytes) (v : Z) : Prop :=
  ∃ ucm vllm, group_ucm_block_ids meta !! Z.to_nat gid = Some ucm ∧
    group_vllm_block_ids meta !! Z.to_nat gid = Some vllm ∧
    ucm !! j = Some k ∧ vllm !! j = Some v.

(** A full-attention row between two token positions. *)
Definition fa_row (meta : HLARequestMeta) (a b : Z) (r : bytes * Z * Z) : Prop :=
  let '(k, v, gid) := r in
  ∃ g (j : nat), 0 ≤ gid ∧ groups_by_id gm !! Z.to_nat gid = Some g ∧ is_full_attention g = true ∧
    a / gi_block_size g ≤ Z.of_nat j < b / gi_block_size g ∧ block_at meta gid j k v ∧ v ≠ 0.

(** Where the state of a group at [pos] lives in its block table: at the
    checkpoint, and for a load also where the step will run. *)
Definition state_positions (g : GroupInfo) (pos new_tokens : Z) (is_load : bool) : list Z :=
  Z.max ((pos - 1) / gi_block_size g) 0 ::
  if is_load then [Z.max ((pos + new_tokens - 1) / gi_block_size g) 0] else [].

(** A state row at a token position. *)
Definition state_row (meta : HLARequestMeta) (pos new_tokens : Z) (is_load : bool)
    (r : bytes * Z * Z) : Prop :=
  let '(k, v, gid) := r in
  ∃ g vllm i, 0 ≤ gid ∧ groups_by_id gm !! Z.to_nat gid = Some g ∧ gi_is_mamba_align g = true ∧
    compute g pos (group_ucm_block_ids meta) = Ok (Some k) ∧
    group_vllm_block_ids meta !! Z.to_nat gid = Some vllm ∧
    (∀ i, i ∈ state_positions g pos new_tokens is_load → is_Some (vllm !! Z.to_nat i)) ∧
    i ∈ state_positions g pos new_tokens is_load ∧ vllm !! Z.to_nat i = Some v ∧ v ≠ 0.

#[local] Arguments fa_row : simpl never.
#[local] Arguments state_row : simpl never.

Lemma shape_lookup meta (i : nat) g :
  meta_shape meta → groups_by_id gm !! i = Some g →
  (∃ ucm, group_ucm_block_ids meta !! i = Some ucm) ∧ ∃ vllm, group_vllm_block_ids meta !! i = Some vllm.
Proof.
  unfold meta_shape, ids_fit, num_groups, zlen. intros [? ?] Hi%lookup_lt_Some.
  split; apply lookup_lt_is_Some; lia.
Qed.

Lemma drop_cons_lookup {A} (l : list A) (n : nat) x r :
  x :: r = drop n l → l !! n = Some x ∧ r = drop (S n) l.
Proof.
  intros E. split.
  - rewrite <- (Nat.add_0_r n), <- lookup_drop, <- E. done.
  - replace (S n) with (n + 1)%nat by lia. by rewrite <- drop_drop, <- E.
Qed.

Lemma group_size_pos (g : GroupInfo) (i : nat) :
  groups_by_id gm !! i = Some g → is_full_attention g = true → 0 < gi_block_size g.
Proof.
  intros Hi Hfa. apply (mo_size _ Hgm g), elem_of_app. left.
  apply (mo_fa _ Hgm). split; [|done]. by eapply list_elem_of_lookup_2.
Qed.

(** The rows of pass 1 for one group. *)
Lemma group_fa_rows meta a b g (off : nat) :
  meta_shape meta → 0 ≤ a → 0 ≤ b → groups_by_id gm !! off = Some g →
  ∃ rows,
    (if negb (is_full_attention g) || (b / gi_block_size g <=? a / gi_block_size g) then Ok []
     else
       ucm ← list_index (group_ucm_block_ids meta) (Z.of_nat off);
       vllm ← list_index (group_vllm_block_ids meta) (Z.of_nat off);
       Ok (extend_non_null (py_slice (a / gi_block_size g) (b / gi_block_size g) ucm)
             (py_slice (a / gi_block_size g) (b / gi_block_size g) vllm) (Z.of_nat off))) = Ok rows ∧
    ∀ r, r ∈ rows ↔ fa_row meta a b r ∧ r.2 = Z.of_nat off.
Proof.
  intros Hsh Ha Hb Hg. destruct (shape_lookup meta off g Hsh Hg) as ([ucm Hu] & [vllm Hv]).
  rewrite (list_index_Some _ (Z.of_nat off) ucm) by (by rewrite Nat2Z.id).
  rewrite (list_index_Some _ (Z.of_nat off) vllm) by (by rewrite Nat2Z.id).
  destruct (is_full_attention g) eqn:Hfa; simpl.
  2:{ exists []. split; [done|]. intros [[k v] gid]. split; [by intros ?%elem_of_nil|].
      simpl. intros [(g' & j & _ & Hg' & Hfa' & _) ->]. rewrite Nat2Z.id in Hg'. congruence. }
  pose proof (group_size_pos g off Hg Hfa) as Hbs.
  pose proof (Z.div_pos a _ Ha Hbs). pose proof (Z.div_pos b _ Hb Hbs).
  assert (∀ k v gid, fa_row meta a b (k, v, gid) ∧ gid = Z.of_nat off ↔
    gid = Z.of_nat off ∧ v ≠ 0 ∧ ∃ j : nat, a / gi_block_size g ≤ Z.of_nat j < b / gi_block_size g ∧
      ucm !! j = Some k ∧ vllm !! j = Some v) as Hrow.
  { intros k v gid. split.
    - intros [(g' & j & _ & Hg' & _ & Hj & (ucm' & vllm' & Hu' & Hv' & Hk & Hvv) & Hnz) ->].
      rewrite Nat2Z.id in Hg', Hu', Hv'. simplify_eq. split; [done|]. split; [done|]. by exists j.
    - intros (-> & Hnz & j & Hj & Hk & Hvv). split; [|done]. exists g, j. unfold block_at.
      rewrite Nat2Z.id. split_and!; try done; [lia|lia|lia|]. by exists ucm, vllm. }
  destruct (Z.leb_spec (b / gi_block_size g) (a / gi_block_size g)).
  - exists []. split; [done|]. intros [[k v] gid]. simpl. rewrite Hrow.
    split; [by intros ?%elem_of_nil|]. intros (_ & _ & j & ? & _). lia.
  - eexists. split; [done|]. intros [[k v] gid]. rewrite elem_extend_non_null by done.
    simpl. by rewrite Hrow.
Qed.

(** A pass that handles the groups one by one finds the rows of all groups. *)
Lemma pass_rows (pass : Z → list GroupInfo → outcome (list row)) (one : Z → GroupInfo → outcome (list row))
    (P : row → Prop) :
  (∀ off, pass off [] = Ok []) →
  (∀ off g rest, pass off (g :: rest) =
     (rows ← one off g; others ← pass (off + 1) rest; Ok (rows ++ others))) →
  (∀ (off : nat) g, groups_by_id gm !! off = Some g →
     ∃ rows, one (Z.of_nat off) g = Ok rows ∧ ∀ r, r ∈ rows ↔ P r ∧ r.2 = Z.of_nat off) →
  (∀ r, P r → 0 ≤ r.2 < num_groups gm) →
  ∃ rows, pass 0 (groups_by_id gm) = Ok rows ∧ ∀ r, r ∈ rows ↔ P r.
Proof.
  intros Hnil Hcons Hone Hrange.
  assert (∀ groups (off : nat), groups = drop off (groups_by_id gm) →
    ∃ rows, pass (Z.of_nat off) groups = Ok rows ∧ ∀ r, r ∈ rows ↔ P r ∧ Z.of_nat off ≤ r.2) as Hall.
  { intros groups. induction groups as [|g groups IH]; intros off Hoff.
    - exists []. split; [apply Hnil|]. intros r. split; [by intros ?%elem_of_nil|].
      intros [Hr Hle]. apply Hrange in Hr. unfold num_groups, zlen in Hr.
      apply (f_equal length) in Hoff. rewrite length_drop in Hoff. simpl in Hoff. lia.
    - apply drop_cons_lookup in Hoff as [Hg Hrest].
      destruct (IH (S off) Hrest) as (others & Eo & Ho).
      destruct (Hone off g Hg) as (rows & Er & Hr).
      rewrite Hcons, Er. cbn [mbind outcome_bind].
      replace (Z.of_nat off + 1) with (Z.of_nat (S off)) by lia. rewrite Eo.
      eexists. split; [done|]. intros r. rewrite elem_of_app, Hr, Ho.
      destruct (decide (r.2 = Z.of_nat off)); intuition lia. }
  destruct (Hall (groups_by_id gm) 0%nat) as (rows & E & Hr); [done|]. exists rows. split; [done|].
  intros r. rewrite Hr. split; [tauto|]. intros Hp. split; [done|]. by apply Hrange in Hp as [? _].
Qed.

Lemma group_range (gid : Z) g : 0 ≤ gid → groups_by_id gm !! Z.to_nat gid = Some g → 0 ≤ gid < num_groups gm.
Proof. intros ? Hg%lookup_lt_Some. unfold num_groups, zlen. lia. Qed.

(** Pass 1 returns exactly the full-attention rows. *)
Lemma full_attn_rows_spec meta a b :
  meta_shape meta → 0 ≤ a → 0 ≤ b →
  ∃ rows, full_attn_rows meta a b 0 (groups_by_id gm) = Ok rows ∧ ∀ r, r ∈ rows ↔ fa_row meta a b r.
Proof.
  intros Hsh Ha Hb. eapply (pass_rows (full_attn_rows meta a b));
    [reflexivity|intros off g rest; reflexivity| |].
  - intros off g Hg. by apply group_fa_rows.
  - intros [[k v] gid] (g & j & Hge & Hg & _). by eapply group_range.
Qed.

(** Pass 2 returns exactly the state rows. *)
Lemma state_rows_spec meta pos new_tokens is_load :
  meta_shape meta →
  ∃ rows, state_rows md5 pickle_dumps h cfg meta pos is_load new_tokens 0 (groups_by_id gm) = Ok rows ∧
    ∀ r, r ∈ rows ↔ state_row meta pos new_tokens is_load r.
Proof.
  intros Hsh. eapply (pass_rows (state_rows md5 pickle_dumps h cfg meta pos is_load new_tokens));
    [reflexivity|intros off g rest; reflexivity| |].
  2:{ intros [[k v] gid] (g & vllm & i & Hge & Hg & _). by eapply group_range. }
  intros off g Hg. cbv beta. destruct (gi_is_mamba_align g) eqn:Hm.
  2:{ exists []. split; [done|]. intros [[k v] gid]. split; [by intros ?%elem_of_nil|].
      simpl. intros [(g' & vllm & i & _ & Hg' & Hm' & _) ->]. rewrite Nat2Z.id in Hg'. congruence. }
  destruct (shape_lookup meta off g Hsh Hg) as (_ & [vllm Hv]).
  unfold _append_mamba_align_state_block.
  rewrite (list_index_Some _ (Z.of_nat off) g) by (by rewrite Nat2Z.id).
  rewrite (list_index_Some _ (Z.of_nat off) vllm) by (by rewrite Nat2Z.id).
  cbn [mbind outcome_bind]. cbv zeta. fold (state_positions g pos new_tokens is_load).
  destruct (state_hash_total md5 pickle_dumps h gm Hgm g pos (group_ucm_block_ids meta)) as [o Ho];
    [apply Hsh|].
  pose proof (pick_state_blocks_spec vllm (state_positions g pos new_tokens is_load) []) as Hpick.
  assert (∀ k v gid, state_row meta pos new_tokens is_load (k, v, gid) ∧ gid = Z.of_nat off ↔
    gid = Z.of_nat off ∧ o = Some k ∧
    (∀ i, i ∈ state_positions g pos new_tokens is_load → is_Some (vllm !! Z.to_nat i)) ∧
    v ≠ 0 ∧ ∃ i, i ∈ state_positions g pos new_tokens is_load ∧ vllm !! Z.to_nat i = Some v) as Hrow.
  { intros k v gid. split.
    - intros [(g' & vllm' & i & _ & Hg' & _ & Hk & Hv' & Hall & Hi & Hvi & Hnz) ->].
      rewrite Nat2Z.id in Hg', Hv'. simplify_eq. rewrite Ho in Hk. injection Hk as ->.
      split_and!; eauto.
    - intros (-> & -> & Hall & Hnz & i & Hi & Hvi). split; [|done]. exists g, vllm, i.
      rewrite Nat2Z.id. split_and!; (done || lia). }
  destruct (pick_state_blocks _ _ _) as [l|].
  - destruct Hpick as [Hall Hl]. destruct l as [|b l].
    { exists []. split; [done|]. intros [[k v] gid]. simpl. rewrite Hrow.
      split; [by intros ?%elem_of_nil|]. intros (_ & _ & _ & Hnz & Hi).
      by destruct (proj1 (elem_of_nil v) (proj2 (Hl v) (or_intror (conj Hnz Hi)))). }
    rewrite Ho. cbn [mbind outcome_bind]. revert Hl. generalize (b :: l). clear b l. intros l Hl.
    destruct o as [k0|].
    + eexists. split; [done|]. intros [[k v] gid]. cbn [snd]. rewrite Hrow, list_elem_of_fmap. split.
      * intros (v' & [= -> -> ->] & Hv'%Hl). destruct Hv' as [[]%elem_of_nil|?]. tauto.
      * intros (-> & [= ->] & _ & Hnz & Hi). exists v. split; [done|]. apply Hl. by right.
    + exists []. split; [done|]. intros [[k v] gid]. simpl. rewrite Hrow.
      split; [by intros ?%elem_of_nil|]. by intros (_ & ? & _).
  - exists []. split; [done|]. intros [[k v] gid]. simpl. rewrite Hrow.
    split; [by intros ?%elem_of_nil|]. intros (_ & _ & Hall & _).
    destruct Hpick as (i & Hi & Hn). destruct (Hall i Hi). congruence.
Qed.

(** ** One plan *)

(** The rows of a plan, put together from its three lists. *)
Definition plan_rows (blocks : list bytes * list Z) (group_ids : list Z) : list row :=
  zip (zip blocks.1 blocks.2) group_ids.

Lemma plan_rows_unzip (rows : list row) : plan_rows (rows.*1.*1, rows.*1.*2) rows.*2 = rows.
Proof. unfold plan_rows. simpl. by rewrite !zip_fst_snd. Qed.

Lemma merge_groups_spec full existing incoming :
  length existing = length incoming →
  merge_groups full existing incoming = (zip_with (merge_vllm_block_ids full) existing incoming, Ok tt).
Proof.
  revert incoming. induction existing as [|e existing IH]; intros [|i incoming]; simpl; try done.
  intros [= Hlen]. by rewrite IH.
Qed.

(** The groups of the first [n] rows are full-attention groups, those of the
    others state groups. *)
Definition attention_first (n : Z) (group_ids : list Z) : Prop :=
  0 ≤ n ≤ zlen group_ids ∧
  Forall (λ gid, ∃ g, groups_by_id gm !! Z.to_nat gid = Some g ∧ is_full_attention g = true)
    (take (Z.to_nat n) group_ids) ∧
  Forall (λ gid, ∃ g, groups_by_id gm !! Z.to_nat gid = Some g ∧ gi_is_mamba_align g = true)
    (drop (Z.to_nat n) group_ids).

Lemma passes_attention_first meta a b pos new_tokens is_load (fa st : list row) :
  (∀ r, r ∈ fa → fa_row meta a b r) → (∀ r, r ∈ st → state_row meta pos new_tokens is_load r) →
  attention_first (zlen fa) (fa ++ st).*2.
Proof.
  intros Hfa Hst. unfold attention_first, zlen. rewrite fmap_app, length_app, !length_fmap, Nat2Z.id.
  rewrite take_app_length', drop_app_length' by (by rewrite length_fmap). split; [lia|].
  split; apply Forall_forall; intros gid ([[k v] gid'] & -> & Hin)%list_elem_of_fmap.
  - destruct (Hfa _ Hin) as (g & j & _ & Hg & Hf & _). by exists g.
  - destruct (Hst _ Hin) as (g & vllm & i & _ & Hg & Hf & _). by exists g.
Qed.

Lemma attention_first_nil : attention_first 0 [].
Proof. split; [done|]. split; constructor. Qed.

Lemma load_rows_spec meta new_tokens need_load :
  meta_shape meta → 0 ≤ hm_hbm_hit_block_num meta ≤ hm_total_hit_block_num meta →
  ∃ n rows, load_rows md5 pickle_dumps h cfg meta new_tokens need_load = Ok (n, rows) ∧
    (hla_is_mla cfg = true → attention_first n rows.*2) ∧
    ∀ r, r ∈ rows ↔
      need_load = true ∧ hm_hbm_hit_block_num meta < hm_total_hit_block_num meta ∧
      (fa_row meta (hm_hbm_hit_block_num meta * lcm) (hm_total_hit_block_num meta * lcm) r ∨
       state_row meta (hm_total_hit_block_num meta * lcm) new_tokens true r).
Proof.
  intros Hsh Hhit. pose proof (mo_lcm _ Hgm) as Hl. unfold load_rows.
  destruct (full_attn_rows_spec meta (hm_hbm_hit_block_num meta * lcm) (hm_total_hit_block_num meta * lcm))
    as (fa & Efa & Hfa); [done|nia|nia|].
  destruct (state_rows_spec meta (hm_total_hit_block_num meta * lcm) new_tokens true) as (st & Est & Hst);
    [done|].
  destruct need_load; simpl.
  2:{ exists 0, []. split; [done|]. split; [intros _; apply attention_first_nil|].
      intros r. split; [by intros ?%elem_of_nil|]. by intros [? _]. }
  destruct (Z.ltb_spec 0 (hm_total_hit_block_num meta - hm_hbm_hit_block_num meta)).
  - rewrite Efa, Est. cbn [mbind outcome_bind]. do 2 eexists. split; [done|]. split.
    + intros ->. eapply passes_attention_first; intros r; [apply Hfa|apply Hst].
    + intros r. rewrite elem_of_app, Hfa, Hst. intuition lia.
  - exists 0, []. split; [done|]. split; [intros _; apply attention_first_nil|].
    intros r. split; [by intros ?%elem_of_nil|]. intros (_ & ? & _). lia.
Qed.

(** Where the tokens of a step that are hashed end. *)
Definition dump_end (meta : HLARequestMeta) (new_tokens : Z) : Z :=
  Z.min (hm_token_processed meta + new_tokens) (hm_num_token_ids meta).

Lemma dump_rows_spec meta new_tokens :
  meta_shape meta → 0 ≤ hm_token_processed meta → 0 ≤ new_tokens →
  let e := dump_end meta new_tokens in
  ∃ n rows, dump_rows md5 pickle_dumps h cfg meta new_tokens = Ok (n, rows) ∧
    (hla_is_mla cfg = true → attention_first n rows.*2) ∧
    ∀ r, r ∈ rows ↔
      hm_token_processed meta < hm_num_token_ids meta ∧
      (fa_row meta (hm_token_processed meta) e r ∨
       ((lcm | e) ∧ hm_token_processed meta / lcm < e / lcm ∧ state_row meta e 0 false r)).
Proof.
  intros Hsh Hp Hn e. pose proof (mo_lcm _ Hgm) as Hl. unfold dump_rows. cbv zeta. fold (dump_end meta new_tokens).
  fold e. destruct (Z.ltb_spec (hm_token_processed meta) (hm_num_token_ids meta)) as [Hlt|Hge].
  2:{ exists 0, []. split; [done|]. split; [intros _; apply attention_first_nil|].
      intros r. split; [by intros ?%elem_of_nil|]. intros [? _]. lia. }
  destruct (full_attn_rows_spec meta (hm_token_processed meta) e) as (fa & -> & Hfa);
    [done|done|unfold e, dump_end; lia|].
  destruct (state_rows_spec meta (e / lcm * lcm) 0 false) as (st & Est & Hst); [done|].
  cbn [mbind outcome_bind].
  assert (e = e / lcm * lcm ↔ (lcm | e)) as Hdiv.
  { split; [intros ->; apply Z.divide_factor_r|]. intros [q Hq]. rewrite Hq, Z.div_mul; lia. }
  destruct (Z.eqb_spec e (e / lcm * lcm)) as [He|He]; simpl;
    [destruct (Z.ltb_spec (e / lcm * lcm) ((hm_token_processed meta / lcm + 1) * lcm))|].
  - do 2 eexists. split; [done|]. split.
    + intros ->. eapply (passes_attention_first meta _ _ 0 0 false fa []);
        [apply Hfa|by intros r ?%elem_of_nil].
    + intros r. rewrite app_nil_r, Hfa. split; [tauto|]. intros [_ [?|(_ & ? & _)]]; [done|nia].
  - rewrite Est. cbn [mbind outcome_bind]. do 2 eexists. split; [done|]. split.
    + intros ->. eapply passes_attention_first; intros r; [apply Hfa|apply Hst].
    + intros r. rewrite elem_of_app, Hfa, Hst, <- He. split; [|tauto].
      intros [?|?]; (split; [done|]); [by left|right]. split_and!; [by apply Hdiv|nia|done].
  - do 2 eexists. split; [done|]. split.
    + intros ->. eapply (passes_attention_first meta _ _ 0 0 false fa []);
        [apply Hfa|by intros r ?%elem_of_nil].
    + intros r. rewrite app_nil_r, Hfa. split; [tauto|]. intros [_ [?|(? & _)]]; [done|tauto].
Qed.

(** The metadata after a step. *)
Definition planned (meta : HLARequestMeta) (new_tokens : Z) (blocks : list (list Z)) (full : bool) :
    HLARequestMeta :=
  with_processed (hm_token_processed meta + new_tokens)
    (with_vllm (zip_with (merge_vllm_block_ids full) (group_vllm_block_ids meta) blocks) meta).

Lemma planned_shape meta new_tokens blocks full :
  meta_shape meta → zlen blocks = num_groups gm → meta_shape (planned meta new_tokens blocks full).
Proof.
  intros [Hu Hv] Hb. split; [done|]. cbn. unfold zlen in *. rewrite length_zip_with. lia.
Qed.

(** The dispatch put together from the two plans. *)
Definition dispatch_of (load dump : Z * list row) : HLARequestDispatchMeta :=
  mkHlaDispatch (load.2.*1.*1, load.2.*1.*2) (dump.2.*1.*1, dump.2.*1.*2) load.1 dump.1 load.2.*2 dump.2.*2.

Definition merged (meta : HLARequestMeta) (blocks : list (list Z)) (full : bool) : HLARequestMeta :=
  with_vllm (zip_with (merge_vllm_block_ids full) (group_vllm_block_ids meta) blocks) meta.

Lemma generate_eq meta new_tokens blocks need_load full load dump :
  meta_shape meta → zlen blocks = num_groups gm →
  load_rows md5 pickle_dumps h cfg (merged meta blocks full) new_tokens need_load = Ok load →
  dump_rows md5 pickle_dumps h cfg (merged meta blocks full) new_tokens = Ok dump →
  _generate_hla_dispatch_meta md5 pickle_dumps h cfg new_tokens blocks need_load full meta =
    (planned meta new_tokens blocks full, Ok (dispatch_of load dump)).
Proof.
  intros Hsh Hb El Ed. unfold _generate_hla_dispatch_meta. rewrite (proj2 (Z.eqb_eq _ _) Hb).
  erewrite bind_ok; [|done]. erewrite bind_ok; [|done]. rewrite merge_groups_spec.
  2:{ destruct Hsh as [_ Hv]. unfold zlen in *. lia. }
  erewrite bind_ok; [|done]. erewrite bind_ok; [|done]. erewrite bind_ok; [|done].
  fold (merged meta blocks full).
  erewrite bind_ok; [|unfold lift_outcome; rewrite El; done].
  erewrite bind_ok; [|unfold lift_outcome; rewrite Ed; done].
  erewrite bind_ok; [|done]. reflexivity.
Qed.

Lemma hla_plan_spec meta new_tokens blocks need_load full :
  meta_shape meta → zlen blocks = num_groups gm →
  0 ≤ hm_hbm_hit_block_num meta ≤ hm_total_hit_block_num meta → 0 ≤ hm_token_processed meta → 0 ≤ new_tokens →
  let meta' := planned meta new_tokens blocks full in
  let hbm := hm_hbm_hit_block_num meta in
  let total := hm_total_hit_block_num meta in
  let e := dump_end meta new_tokens in
  ∃ d, _generate_hla_dispatch_meta md5 pickle_dumps h cfg new_tokens blocks need_load full meta = (meta', Ok d) ∧
    (∀ r, r ∈ plan_rows (hd_load_block_ids d) (load_group_ids d) ↔
       need_load = true ∧ hbm < total ∧
       (fa_row meta' (hbm * lcm) (total * lcm) r ∨ state_row meta' (total * lcm) new_tokens true r)) ∧
    (∀ r, r ∈ plan_rows (hd_dump_block_ids d) (dump_group_ids d) ↔
       hm_token_processed meta < hm_num_token_ids meta ∧
       (fa_row meta' (hm_token_processed meta) e r ∨
        ((lcm | e) ∧ hm_token_processed meta / lcm < e / lcm ∧ state_row meta' e 0 false r))) ∧
    (hla_is_mla cfg = true →
     attention_first (load_full_attn_count d) (load_group_ids d) ∧
     attention_first (dump_full_attn_count d) (dump_group_ids d)) ∧
    length (hd_load_block_ids d).1 = length (load_group_ids d) ∧
    length (hd_load_block_ids d).2 = length (load_group_ids d) ∧
    length (hd_dump_block_ids d).1 = length (dump_group_ids d) ∧
    length (hd_dump_block_ids d).2 = length (dump_group_ids d).
Proof.
  intros Hsh Hb Hhit Hp Hn meta' hbm total e.
  set (meta1 := merged meta blocks full).
  assert (meta_shape meta1) as Hsh1 by exact (planned_shape meta new_tokens blocks full Hsh Hb).
  destruct (load_rows_spec meta1 new_tokens need_load Hsh1 Hhit) as (n1 & lr & El & Hm1 & Hlr).
  destruct (dump_rows_spec meta1 new_tokens Hsh1 Hp Hn) as (n2 & dr & Ed & Hm2 & Hdr).
  eexists. split; [by apply generate_eq|]. unfold dispatch_of.
  cbn [hd_load_block_ids hd_dump_block_ids load_group_ids dump_group_ids load_full_attn_count
       dump_full_attn_count fst snd].
  rewrite !plan_rows_unzip, !length_fmap. split; [exact Hlr|]. split; [exact Hdr|]. split; [|done]. auto.
Qed.

(** C24 A plan contains exactly the blocks it should.  Planning a step never
    fails on a request with one block table per group.  The load plan, if loading is
    asked for and the match found external hits, has one row for each
    full-attention block between the computed and the matched tokens, with the
    hash and the block of the engine at the same position, and one for each block
    that takes the state at the end of the match; the dump plan has the
    full-attention blocks that the step completes and, when the step ends at a
    checkpoint, the states there.  Null blocks never appear.  For MLA models the
    full-attention rows come first, as many as the plan says. *)
Theorem hla_plan_exact meta new_tokens blocks need_load full :
  meta_shape meta → zlen blocks = num_groups gm →
  0 ≤ hm_hbm_hit_block_num meta ≤ hm_total_hit_block_num meta → 0 ≤ hm_token_processed meta → 0 ≤ new_tokens →
  let meta' := planned meta new_tokens blocks full in
  let hbm := hm_hbm_hit_block_num meta in
  let total := hm_total_hit_block_num meta in
  let e := dump_end meta new_tokens in
  ∃ d, _generate_hla_dispatch_meta md5 pickle_dumps h cfg new_tokens blocks need_load full meta = (meta', Ok d) ∧
    (∀ r, r ∈ plan_rows (hd_load_block_ids d) (load_group_ids d) ↔
       need_load = true ∧ hbm < total ∧
       (fa_row meta' (hbm * lcm) (total * lcm) r ∨ state_row meta' (total * lcm) new_tokens true r)) ∧
    (∀ r, r ∈ plan_rows (hd_dump_block_ids d) (dump_group_ids d) ↔
       hm_token_processed meta < hm_num_token_ids meta ∧
       (fa_row meta' (hm_token_processed meta) e r ∨
        ((lcm | e) ∧ hm_token_processed meta / lcm < e / lcm ∧ state_row meta' e 0 false r))) ∧
    (hla_is_mla cfg = true →
     attention_first (load_full_attn_count d) (load_group_ids d) ∧
     attention_first (dump_full_attn_count d) (dump_group_ids d)) ∧
    length (hd_load_block_ids d).1 = length (load_group_ids d) ∧
    length (hd_load_block_ids d).2 = length (load_group_ids d) ∧
    length (hd_dump_block_ids d).1 = length (dump_group_ids d) ∧
    length (hd_dump_block_ids d).2 = length (dump_group_ids d).
Proof. apply hla_plan_spec. Qed.

(** ** The dumps of consecutive steps *)

Lemma extend_non_null_group ucm vllm gid r : r ∈ extend_non_null ucm vllm gid → r.2 = gid.
Proof. by intros ([k v] & -> & _)%list_elem_of_fmap. Qed.

(** The part of pass 1 that belongs to one group. *)
Lemma full_attn_rows_group meta a b rows (i : nat) g ucm vllm :
  full_attn_rows meta a b 0 (groups_by_id gm) = Ok rows →
  groups_by_id gm !! i = Some g → is_full_attention g = true →
  group_ucm_block_ids meta !! i = Some ucm → group_vllm_block_ids meta !! i = Some vllm →
  0 ≤ a → a ≤ b →
  filter (λ r, r.2 = Z.of_nat i) rows =
  extend_non_null (py_slice (a / gi_block_size g) (b / gi_block_size g) ucm)
    (py_slice (a / gi_block_size g) (b / gi_block_size g) vllm) (Z.of_nat i).
Proof.
  intros Hrows Hg Hfa Hu Hv Ha Hab. pose proof (group_size_pos g i Hg Hfa) as Hbs.
  pose proof (Z.div_pos a _ Ha Hbs). pose proof (Z.div_le_mono a b _ Hbs Hab).
  assert (∀ groups (off : nat) rows, groups = drop off (groups_by_id gm) →
    full_attn_rows meta a b (Z.of_nat off) groups = Ok rows →
    filter (λ r, r.2 = Z.of_nat i) rows =
      if decide (off ≤ i)%nat then
        extend_non_null (py_slice (a / gi_block_size g) (b / gi_block_size g) ucm)
          (py_slice (a / gi_block_size g) (b / gi_block_size g) vllm) (Z.of_nat i)
      else []) as Hall.
  2:{ rewrite (Hall (groups_by_id gm) 0%nat rows); [|done|done]. by rewrite decide_True by lia. }
  clear rows Hrows. intros groups. induction groups as [|g0 groups IH]; intros off rows Hoff; simpl.
  { intros [= <-]. case_decide; [|done]. apply (f_equal length) in Hoff. rewrite length_drop in Hoff.
    simpl in Hoff. apply lookup_lt_Some in Hg. lia. }
  apply drop_cons_lookup in Hoff as [Hg0 Hrest]. unfold mbind at 1, outcome_bind at 1.
  match goal with |- context [if ?c then Ok [] else ?e] => set (here := if c then Ok [] else e) end.
  destruct here as [rows0|] eqn:Ehere; [|done]. unfold mbind, outcome_bind.
  replace (Z.of_nat off + 1) with (Z.of_nat (S off)) by lia.
  destruct (full_attn_rows meta a b (Z.of_nat (S off)) groups) as [others|] eqn:Eo; [|done].
  intros [= <-]. rewrite filter_app, (IH (S off) others Hrest Eo). subst here.
  destruct (decide (off = i)) as [->|Hne].
  - assert (g0 = g) as -> by congruence. rewrite Hfa in Ehere. simpl in Ehere.
    rewrite (decide_False (P := (S i ≤ i)%nat)), app_nil_r, decide_True by lia.
    destruct (Z.leb_spec (b / gi_block_size g) (a / gi_block_size g)).
    + injection Ehere as <-. by rewrite (py_slice_empty _ _ ucm) by lia.
    + rewrite (list_index_Some _ (Z.of_nat i) ucm), (list_index_Some _ (Z.of_nat i) vllm) in Ehere
        by (by rewrite Nat2Z.id). injection Ehere as <-.
      apply filter_all. intros r. apply extend_non_null_group.
  - assert (∀ r, r ∈ rows0 → r.2 ≠ Z.of_nat i) as Hrows0.
    { case_match; [injection Ehere as <-; by intros r ?%elem_of_nil|].
      destruct (list_index (group_ucm_block_ids meta) _); [|done].
      destruct (list_index (group_vllm_block_ids meta) _); [|done]. injection Ehere as <-.
      intros r ->%extend_non_null_group. lia. }
    rewrite (filter_none _ rows0) by done. simpl. repeat case_decide; (done || lia).
Qed.

(** One scheduled step: its tokens, the blocks the engine reports, whether they
    replace the block tables, and whether hits are loaded. *)
Record hla_chunk := mkHlaChunk {
  hc_tokens : Z;
  hc_blocks : list (list Z);
  hc_load : bool;
  hc_full : bool;
}.

Fixpoint run_steps (chunks : list hla_chunk) : M HLARequestMeta (list HLARequestDispatchMeta) :=
  match chunks with
  | [] => mret []
  | c :: rest =>
      d ← _generate_hla_dispatch_meta md5 pickle_dumps h cfg (hc_tokens c) (hc_blocks c) (hc_load c) (hc_full c);
      ds ← run_steps rest;
      mret (d :: ds)
  end.

(** The engine has allocated the blocks that a step completes: before the end of
    the step no full-attention group has a null or missing block. *)
Fixpoint steps_allocated (meta : HLARequestMeta) (chunks : list hla_chunk) : Prop :=
  match chunks with
  | [] => True
  | c :: rest =>
      let meta' := planned meta (hc_tokens c) (hc_blocks c) (hc_full c) in
      0 ≤ hc_tokens c ∧ zlen (hc_blocks c) = num_groups gm ∧
      (∀ (i : nat) g vllm (j : nat),
         groups_by_id gm !! i = Some g → is_full_attention g = true →
         group_vllm_block_ids meta' !! i = Some vllm →
         Z.of_nat j < dump_end meta (hc_tokens c) / gi_block_size g → ∃ v, vllm !! j = Some v ∧ v ≠ 0) ∧
      steps_allocated meta' rest
  end.

(** How many tokens of the request were handled by steps so far. *)
Definition covered_tokens (meta : HLARequestMeta) : Z :=
  Z.min (hm_token_processed meta) (hm_num_token_ids meta).

(** The keys that a plan dumps for a group. *)
Definition dumped_keys (gid : Z) (d : HLARequestDispatchMeta) : list bytes :=
  (filter (λ r, r.2 = gid) (plan_rows (hd_dump_block_ids d) (dump_group_ids d))).*1.*1.

(** Without null or missing blocks no key is left out. *)
Lemma extend_non_null_keys a b (ucm : list bytes) (vllm : list Z) gid :
  0 ≤ a → 0 ≤ b → (∀ j : nat, Z.of_nat j < b → ∃ v, vllm !! j = Some v ∧ v ≠ 0) →
  (extend_non_null (py_slice a b ucm) (py_slice a b vllm) gid).*1.*1 = py_slice a b ucm.
Proof.
  intros Ha Hb Hall. unfold extend_non_null. rewrite filter_all.
  - rewrite <- list_fmap_compose, <- list_fmap_compose.
    etrans; [|apply (fst_zip (py_slice a b ucm) (py_slice a b vllm))].
    + by apply list_fmap_ext.
    + rewrite !py_slice_nonneg, !length_take, !length_drop by done.
      destruct (decide (length vllm < Z.to_nat b)%nat) as [Hlt|]; [|lia].
      destruct (Hall (length vllm)) as (v & Hv & _); [lia|]. apply lookup_lt_Some in Hv. lia.
  - intros [k v] (i & Hi)%list_elem_of_lookup.
    apply lookup_zip_with_Some in Hi as (k' & v' & [= <- <-] & _ & Hv').
    apply lookup_py_slice_Some in Hv' as [Hi Hv']; [|done|done].
    destruct (Hall (Z.to_nat a + i)%nat) as (v' & Hv & Hnz); [lia|]. simpl. congruence.
Qed.

(** The part of a dump plan that belongs to a full-attention group. *)
Lemma dump_rows_group meta new_tokens n rows (i : nat) g ucm vllm :
  meta_shape meta → 0 ≤ hm_token_processed meta → 0 ≤ new_tokens →
  dump_rows md5 pickle_dumps h cfg meta new_tokens = Ok (n, rows) →
  groups_by_id gm !! i = Some g → is_full_attention g = true →
  group_ucm_block_ids meta !! i = Some ucm → group_vllm_block_ids meta !! i = Some vllm →
  filter (λ r, r.2 = Z.of_nat i) rows =
    if hm_token_processed meta <? hm_num_token_ids meta then
      extend_non_null
        (py_slice (hm_token_processed meta / gi_block_size g) (dump_end meta new_tokens / gi_block_size g) ucm)
        (py_slice (hm_token_processed meta / gi_block_size g) (dump_end meta new_tokens / gi_block_size g) vllm)
        (Z.of_nat i)
    else [].
Proof.
  intros Hsh Hp Ht Ed Hg Hfa Hu Hv. revert Ed. unfold dump_rows. cbv zeta. fold (dump_end meta new_tokens).
  destruct (Z.ltb_spec (hm_token_processed meta) (hm_num_token_ids meta)) as [Hlt|Hge]; [|by intros [= _ <-]].
  assert (hm_token_processed meta ≤ dump_end meta new_tokens) by (unfold dump_end; lia).
  destruct (full_attn_rows_spec meta (hm_token_processed meta) (dump_end meta new_tokens))
    as (fa & Efa & _); [done|done|lia|].
  unfold mbind at 1, outcome_bind at 1. rewrite Efa.
  match goal with |- context [if ?c then Ok [] else ?e] => set (stp := if c then Ok [] else e) end.
  assert (∀ st r, stp = Ok st → r ∈ st → r.2 ≠ Z.of_nat i) as Hst.
  { intros st0 [[k v] gid] Est Hr Egid. subst stp. case_match; [injection Est as <-; by apply elem_of_nil in Hr|].
    destruct (state_rows_spec meta (dump_end meta new_tokens / lcm * lcm) 0 false Hsh) as (st1 & Est1 & Hst1).
    assert (st1 = st0) as -> by congruence. apply Hst1 in Hr as (g' & vl & i' & _ & Hg' & Hm' & _).
    simpl in Egid. subst gid. rewrite Nat2Z.id in Hg'. unfold is_full_attention in Hfa.
    assert (g' = g) as -> by congruence. rewrite Hm', andb_false_r in Hfa. done. }
  destruct stp as [st0|]; [|done]. unfold mbind, outcome_bind. intros [= _ <-].
  rewrite filter_app, (filter_none _ st0), app_nil_r by (intros r Hr; by eapply Hst).
  by erewrite full_attn_rows_group.
Qed.

(** What one step dumps of a group: the blocks it completes. *)
Lemma step_dumped_keys meta c :
  meta_shape meta → 0 ≤ hm_hbm_hit_block_num meta ≤ hm_total_hit_block_num meta →
  0 ≤ hm_token_processed meta → 0 ≤ hm_num_token_ids meta → steps_allocated meta [c] →
  let meta' := planned meta (hc_tokens c) (hc_blocks c) (hc_full c) in
  ∃ d, _generate_hla_dispatch_meta md5 pickle_dumps h cfg (hc_tokens c) (hc_blocks c) (hc_load c) (hc_full c) meta
         = (meta', Ok d) ∧
    ∀ (i : nat) g ucm,
      groups_by_id gm !! i = Some g → is_full_attention g = true → group_ucm_block_ids meta !! i = Some ucm →
      dumped_keys (Z.of_nat i) d =
      py_slice (covered_tokens meta / gi_block_size g) (covered_tokens meta' / gi_block_size g) ucm.
Proof.
  intros Hsh Hhit Hp Hnum (Ht & Hb & Halloc & _) meta'. set (meta1 := merged meta (hc_blocks c) (hc_full c)).
  assert (meta_shape meta1) as Hsh1 by exact (planned_shape meta (hc_tokens c) (hc_blocks c) (hc_full c) Hsh Hb).
  destruct (load_rows_spec meta1 (hc_tokens c) (hc_load c) Hsh1 Hhit) as (n1 & lr & El & _).
  destruct (dump_rows_spec meta1 (hc_tokens c) Hsh1 Hp Ht) as (n2 & dr & Ed & _).
  eexists. split; [by apply generate_eq|]. intros i g ucm Hg Hfa Hu.
  pose proof (group_size_pos g i Hg Hfa) as Hbs.
  destruct (shape_lookup meta1 i g Hsh1 Hg) as (_ & [vllm Hv]).
  unfold dumped_keys, dispatch_of. cbn [hd_dump_block_ids dump_group_ids snd]. rewrite plan_rows_unzip.
  rewrite (dump_rows_group meta1 _ _ _ i g ucm vllm Hsh1 Hp Ht Ed Hg Hfa Hu Hv).
  unfold covered_tokens. cbn [meta' planned meta1 merged with_processed with_vllm hm_token_processed hm_num_token_ids].
  fold (dump_end meta (hc_tokens c)). change (dump_end meta1 (hc_tokens c)) with (dump_end meta (hc_tokens c)).
  destruct (Z.ltb_spec (hm_token_processed meta) (hm_num_token_ids meta)) as [Hlt|Hge].
  - rewrite (Z.min_l (hm_token_processed meta)) by lia. apply extend_non_null_keys.
    + by apply Z.div_pos.
    + apply Z.div_pos; unfold dump_end; lia.
    + intros j. by apply (Halloc i g vllm j).
  - unfold dump_end. rewrite !Z.min_r by lia. symmetry. apply py_slice_empty.
    pose proof (Z.div_pos (hm_num_token_ids meta) (gi_block_size g) Hnum Hbs). lia.
Qed.

(** The dumps of a request tile it.  Over any sequence of scheduling steps,
    whatever their sizes, planning succeeds as long as the engine has allocated
    the blocks, and the keys planned for dumping in a full-attention group are,
    in order and without gap or overlap, exactly the hashes of the blocks
    completed between the first and the last step. *)
Theorem hla_dumps_tile meta chunks :
  meta_shape meta → 0 ≤ hm_hbm_hit_block_num meta ≤ hm_total_hit_block_num meta →
  0 ≤ hm_token_processed meta → 0 ≤ hm_num_token_ids meta → steps_allocated meta chunks →
  ∃ meta' ds, run_steps chunks meta = (meta', Ok ds) ∧
    hm_token_processed meta' = hm_token_processed meta + list_sum (hc_tokens <$> chunks) ∧
    covered_tokens meta ≤ covered_tokens meta' ∧
    ∀ (i : nat) g ucm,
      groups_by_id gm !! i = Some g → is_full_attention g = true → group_ucm_block_ids meta !! i = Some ucm →
      concat (dumped_keys (Z.of_nat i) <$> ds) =
      py_slice (covered_tokens meta / gi_block_size g) (covered_tokens meta' / gi_block_size g) ucm.
Proof.
  revert meta. induction chunks as [|c chunks IH]; intros meta Hsh Hhit Hp Hnum Halloc.
  { exists meta, []. split; [done|]. split; [simpl; lia|]. split; [done|].
    intros i g ucm Hg Hfa _. pose proof (group_size_pos g i Hg Hfa) as Hbs. symmetry. apply py_slice_empty.
    pose proof (Z.div_pos (covered_tokens meta) (gi_block_size g)). unfold covered_tokens in *. lia. }
  destruct Halloc as (Ht & Hb & Hal & Hrest).
  destruct (step_dumped_keys meta c Hsh Hhit Hp Hnum ltac:(done)) as (d & Ed & Hd).
  set (meta1 := planned meta (hc_tokens c) (hc_blocks c) (hc_full c)) in *.
  destruct (IH meta1) as (meta' & ds & Eds & Hproc & Hcov & Hds); [by apply planned_shape|done|simpl; lia|done|done|].
  assert (covered_tokens meta ≤ covered_tokens meta1) by (unfold covered_tokens; simpl; lia).
  exists meta', (d :: ds). cbn [run_steps]. erewrite bind_ok; [|exact Ed]. erewrite bind_ok; [|exact Eds].
  split; [done|]. split; [rewrite Hproc, fmap_cons; unfold list_sum; simpl; lia|]. split; [lia|].
  intros i g ucm Hg Hfa Hu. pose proof (group_size_pos g i Hg Hfa) as Hbs. csimpl.
  rewrite (Hd i g ucm Hg Hfa Hu), (Hds i g ucm Hg Hfa Hu). apply py_slice_app.
  - split; [apply Z.div_pos; unfold covered_tokens; lia|by apply Z.div_le_mono].
  - by apply Z.div_le_mono.
Qed.
End planning.

(** ** Concrete plans

    The model of HlaLookup.v with one state group: 8 of 13 tokens are matched, and
    the rest is scheduled in steps of three and two tokens. *)

Definition ex_hla_cfg : HlaConfig :=
  mkHlaConfig (mkSchedulerConfig 4 1 0 false false None 0 (λ _, Ok []) []) (ex_manager 1) true.

Definition ex_hla_meta : HLARequestMeta :=
  mkHlaMeta (default [] (ex_ids 1 !! 0%nat)) 0 2 13 8 (ex_ids 1) [[]; []].

Lemma ex_hla_cfg_ok : manager_ok (group_manager ex_hla_cfg).
Proof. apply ex_manager_ok. Qed.

Lemma ex_hla_shape : meta_shape ex_hla_cfg ex_hla_meta.
Proof. split; vm_compute; reflexivity. Qed.

Lemma hla_plan_exact_witness :
  ∃ d, (_generate_hla_dispatch_meta ex_md5 ex_text ex_hla_hasher ex_hla_cfg 3
          [[10; 11; 12; 13; 14; 15]; [0; 21; 22]] true true ex_hla_meta).2 = Ok d ∧
    load_group_ids d = [0; 0; 0; 0; 1; 1] ∧
    attention_first ex_hla_cfg (load_full_attn_count d) (load_group_ids d).
Proof.
  destruct (hla_plan_exact ex_md5 ex_text ex_hla_hasher ex_hla_cfg ex_hla_cfg_ok ex_hla_meta 3
    [[10; 11; 12; 13; 14; 15]; [0; 21; 22]] true true) as (d & E & _ & _ & Hmla & _);
    [exact ex_hla_shape|vm_compute; reflexivity|simpl; lia|simpl; lia|lia|].
  exists d. apply (f_equal snd) in E. split; [exact E|]. split; [|apply Hmla; reflexivity].
  assert (match (_generate_hla_dispatch_meta ex_md5 ex_text ex_hla_hasher ex_hla_cfg 3
          [[10; 11; 12; 13; 14; 15]; [0; 21; 22]] true true ex_hla_meta).2 with
          | Ok d => load_group_ids d | Raise _ => [] end = [0; 0; 0; 0; 1; 1]) as E2 by (vm_compute; reflexivity).
  rewrite E in E2. exact E2.
Defined.
