(* ===== verification/HlaMatching.v ===== *)
(** * From a hybrid match to the loads it causes

    Matching a request in the hybrid linear attention connector, composed with
    the planning of the step that follows: what is offered leaves enough tokens
    to compute, and what is loaded was found usable. *)

From Stdlib Require Import ZArith Lia.
From stdpp Require Import base list gmap strings numbers fin_sets.
From S2P Require Import Prelude.
From S2P Require Import Store.
From S2P Require Import RankConsistency.
From S2P Require Import RequestHasher.
From S2P Require Import DirectScheduler.
From S2P Require Import SchedulerMatching.
From S2P Require Import HlaScheduler.
From S2P Require Import HlaLookup.
From S2P Require Import HlaPlanning.
Local Open Scope Z_scope.

Section matching.
Context {X : Type}.
Variable md5 : bytes → bytes.
Variable pickle_dumps : pickled X → bytes.
Variable gen : option (Request → Z → Z → Z → outcome (option X * Z)).
Variable h : RequestHasher.
Context {W : Type} `{StoreSpec W} `{PySetOrder}.
Variable cfg : HlaConfig.

Abbreviation gm := (group_manager cfg).
Abbreviation lcm := (lcm_block_size gm).
Abbreviation st := (store (hla_base cfg)).
Abbreviation compute := (compute_mamba_align_state_hash md5 pickle_dumps h gm).
Abbreviation reusable_in := (reusable md5 pickle_dumps h gm st).
Abbreviation recompute := (_get_full_hit_recompute_tokens (hla_base cfg)).

(** The manager was built by its constructor, from specs with positive sizes. *)
Variables (kv_cache_groups : list (KVCacheSpec * list string)) (base_seed : bytes).
Hypothesis Hinit : KVCacheGroupManager_init md5 pickle_dumps gen h kv_cache_groups base_seed = Ok gm.
Hypothesis Hsizes : ∀ group size, group ∈ kv_cache_groups →
  block_size_from_kv_cache_spec group.1 = Ok size → 0 < size.

Lemma matching_manager_ok : manager_ok gm.
Proof. by destruct (manager_init_spec md5 pickle_dumps gen h kv_cache_groups base_seed gm Hsizes Hinit). Qed.

(** The hashes of a full-attention group, one per full block. *)
Lemma fa_group_hashes request ids g (i : nat) :
  compute_all_group_block_ids gm request = Ok ids → g ∈ full_attn_groups gm → groups_by_id gm !! i = Some g →
  ∃ l, ids !! i = Some l ∧ zlen l = zlen (all_token_ids request) / gi_block_size g.
Proof.
  intros Hids Hfa Hi.
  destruct (manager_init_spec md5 pickle_dumps gen h kv_cache_groups base_seed gm Hsizes Hinit) as (Hok & _ & Hg).
  destruct (compute_group_block_ids_lookup _ _ _ i g Hids Hi) as (l & Hl & Hc). exists l. split; [done|].
  destruct (mo_size _ Hok g) as [Hbs _]; [set_solver|].
  apply (mo_fa _ Hok) in Hfa as [Hin Hfa]. unfold is_full_attention in Hfa.
  apply andb_true_iff in Hfa as [Hpart Hm%negb_true_iff].
  unfold compute_block_hashes in Hc. rewrite Hpart, Hm, (proj2 (Hg _ Hin) Hm) in Hc. simpl in Hc.
  by eapply hash_request_length.
Qed.

Lemma all_ids_fit request ids : compute_all_group_block_ids gm request = Ok ids → ids_fit gm ids.
Proof. intros E%length_group_block_ids. unfold ids_fit, num_groups, zlen. lia. Qed.

(** ** Limiting the lookup *)

(** How many checkpoints a hit may reach, so that enough is left to compute. *)
Definition max_hit (request : Request) : Z := Z.max 0 ((num_tokens request - recompute) / lcm).

(** The hashes looked up are prefixes of the request's. *)
Lemma lookup_ids_prefix request ids (i : nat) g l :
  ids_fit gm ids → groups_by_id gm !! i = Some g → ids !! i = Some l →
  ∃ l', lookup_ids cfg request ids !! i = Some l' ∧ l' `prefix_of` l ∧
    (0 < gi_block_size g → (gi_block_size g | lcm) →
     zlen l' * gi_block_size g ≤ max_hit request * lcm ∨
     l' = l ∧ num_tokens request / lcm ≤ max_hit request).
Proof.
  intros Hfit Hg Hl. unfold lookup_ids. fold (max_hit request).
  destruct (Z.ltb_spec (max_hit request) (num_tokens request / lcm)).
  - eexists. split; [apply lookup_zip_with_Some; eauto|].
    pose proof (mo_lcm _ matching_manager_ok) as Hlcm.
    assert (0 ≤ max_hit request) by (unfold max_hit; lia). split.
    + unfold py_slice_to. by apply prefix_take.
    + intros Hbs [q Hq]. left. rewrite Hq, Z.div_mul by lia.
      assert (0 < q) by nia. rewrite py_slice_to_nonneg by nia.
      unfold zlen. rewrite length_take.
      assert (Z.of_nat (Z.to_nat (max_hit request * q) `min` length l) ≤ max_hit request * q) by nia. nia.
  - exists l. split; [done|]. split; [done|]. intros _ _. by right.
Qed.

Lemma lookup_ids_fit request ids : ids_fit gm ids → ids_fit gm (lookup_ids cfg request ids).
Proof.
  unfold ids_fit, num_groups, zlen, lookup_ids. intros Hfit. case_match; [|done].
  rewrite length_zip_with. lia.
Qed.

(** A state hash depends only on the prefix hash it is derived from. *)
Lemma state_hash_ext sg pos ids1 ids2 primary l1 l2 :
  full_attn_groups gm !! 0%nat = Some primary →
  ids1 !! Z.to_nat (gi_group_id primary) = Some l1 → ids2 !! Z.to_nat (gi_group_id primary) = Some l2 →
  l1 !! Z.to_nat (pos / gi_block_size primary - 1) = l2 !! Z.to_nat (pos / gi_block_size primary - 1) →
  compute sg pos ids1 = compute sg pos ids2.
Proof.
  intros Hp Hi1 Hi2 E. unfold compute_mamba_align_state_hash, mbind, outcome_bind. case_match; [done|].
  rewrite (list_index_Some (full_attn_groups gm) 0 primary Hp). case_match; [done|].
  by rewrite (list_index_Some _ _ _ Hi1), (list_index_Some _ _ _ Hi2), E.
Qed.

(** As far as it reports a group usable, the limited lookup saw hashes of it. *)
Lemma limited_prefix request ids (P : bytes → Prop) nct k g l :
  compute_all_group_block_ids gm request = Ok ids → num_tokens request = zlen (all_token_ids request) →
  0 ≤ nct → (lcm | nct) → 0 < k →
  (∀ l (i : nat), lookup_ids cfg request ids !! Z.to_nat (gi_group_id g) = Some l →
     nct / gi_block_size g ≤ Z.of_nat i < (nct + k * lcm) / gi_block_size g →
     ∃ b, l !! i = Some b ∧ P b) →
  g ∈ full_attn_groups gm → ids !! Z.to_nat (gi_group_id g) = Some l →
  ∃ l', lookup_ids cfg request ids !! Z.to_nat (gi_group_id g) = Some l' ∧ l' `prefix_of` l ∧
    (nct + k * lcm) / gi_block_size g ≤ zlen l' ∧ nct + k * lcm ≤ max_hit request * lcm.
Proof.
  intros Hids Hnum Hn [a Ha] Hk Hfa. pose proof matching_manager_ok as Hok.
  pose proof (mo_lcm _ Hok) as Hl. pose proof (all_ids_fit _ _ Hids) as Hfit.
  intros Hg Hlk. destruct (mo_size _ Hok g) as [Hbs Hdiv]; [set_solver|].
  destruct (proj1 (mo_fa _ Hok g) Hg) as [(i & Hi)%list_elem_of_lookup _].
  destruct (fa_group_hashes request ids g i Hids Hg Hi) as (l0 & Hl0 & Hlen).
  rewrite (mo_ids _ Hok i g Hi), Nat2Z.id in *. assert (l0 = l) as -> by congruence.
  destruct (lookup_ids_prefix request ids i g l Hfit Hi Hlk) as (l' & Hl' & Hp & Hb).
  exists l'. split; [done|]. split; [done|]. specialize (Hb Hbs Hdiv).
  destruct Hdiv as [q Hq]. assert (0 < q) by nia.
  assert (nct + k * lcm = (a + k) * q * gi_block_size g) as E by (rewrite Ha, Hq; lia).
  assert ((nct + k * lcm) / gi_block_size g = (a + k) * q) as Ediv by (rewrite E; apply Z.div_mul; lia).
  assert ((a + k) * q ≤ zlen l') as Hle.
  { destruct (Hfa l' (Z.to_nat ((a + k) * q - 1))) as (b & Hlk' & _).
    - done.
    - rewrite Ediv. assert (nct / gi_block_size g = a * q) as ->.
      { rewrite Ha, Hq, Z.mul_assoc. apply Z.div_mul. lia. } nia.
    - apply lookup_lt_Some in Hlk'. unfold zlen. nia. }
  split; [lia|]. destruct Hb as [Hb|[-> Hmax]]; [nia|].
  pose proof (Z.mul_div_le (num_tokens request) (gi_block_size g) Hbs) as Hd. rewrite Hnum, <- Hlen in Hd.
  assert (nct + k * lcm ≤ num_tokens request) as Hle2 by (rewrite Hnum; nia).
  assert (a + k ≤ num_tokens request / lcm) by (apply Z.div_le_lower_bound; lia). nia.
Qed.

(** What is reusable for the limited lookup is reusable, and within the limit. *)
Lemma limited_reusable request ids w m nct k :
  compute_all_group_block_ids gm request = Ok ids → num_tokens request = zlen (all_token_ids request) →
  0 ≤ nct → (lcm | nct) → 0 < k →
  reusable_in w m (lookup_ids cfg request ids) nct k →
  reusable_in w m ids nct k ∧ nct + k * lcm + recompute ≤ num_tokens request.
Proof.
  intros Hids Hnum Hn Hd Hk (_ & Hfa & Hst). pose proof matching_manager_ok as Hok.
  pose proof (mo_lcm _ Hok) as Hl. pose proof (all_ids_fit _ _ Hids) as Hfit.
  assert (∀ g l, g ∈ full_attn_groups gm → ids !! Z.to_nat (gi_group_id g) = Some l →
    ∃ l', lookup_ids cfg request ids !! Z.to_nat (gi_group_id g) = Some l' ∧ l' `prefix_of` l ∧
      (nct + k * lcm) / gi_block_size g ≤ zlen l' ∧ nct + k * lcm ≤ max_hit request * lcm) as Hpre.
  { intros g l Hg Hlk. eapply limited_prefix; try done. intros l' i. by apply (Hfa g l' i). }
  split.
  - split; [lia|]. split.
    + intros g l i Hg Hlk Hi. destruct (Hpre g l Hg Hlk) as (l' & Hl' & Hp & _).
      destruct (Hfa g l' i Hg Hl' Hi) as (b & Hb & Hu). exists b. split; [|done].
      by eapply prefix_lookup_Some.
    + intros sg _ Hsg. specialize (Hst sg Hk Hsg).
      destruct (mo_primary _ Hok) as [primary Hp]. pose proof (list_elem_of_lookup_2 _ _ _ Hp) as Hpin.
      destruct (group_ids_lookup gm Hok primary ids Hpin Hfit) as [l Hlk].
      destruct (Hpre primary l Hpin Hlk) as (l' & Hl' & Hpf & Hle & _).
      destruct (mo_size _ Hok primary) as [Hbs [q Hq]]; [set_solver|].
      assert (0 < (nct + k * lcm) / gi_block_size primary).
      { apply Z.div_str_pos. assert (0 < q) by nia. assert (gi_block_size primary ≤ lcm) by nia. nia. }
      destruct (lookup_lt_is_Some_2 l' (Z.to_nat ((nct + k * lcm) / gi_block_size primary - 1))) as [b Hb];
        [unfold zlen in Hle; lia|].
      unfold state_key in *. erewrite state_hash_ext; [exact Hst|exact Hp|exact Hlk|exact Hl'|].
      rewrite Hb. by eapply prefix_lookup_Some.
  - destruct (mo_primary _ Hok) as [primary Hp]. pose proof (list_elem_of_lookup_2 _ _ _ Hp) as Hpin.
    destruct (group_ids_lookup gm Hok primary ids Hpin Hfit) as [l Hlk].
    destruct (Hpre primary l Hpin Hlk) as (_ & _ & _ & _ & Hle).
    unfold max_hit in Hle. pose proof (Z.mul_div_le (num_tokens request - recompute) lcm Hl). nia.
Qed.

(** ** The match *)

(** Every key of a load plan comes from a row of it. *)
Lemma plan_rows_key (blocks : list bytes * list Z) gids k :
  length blocks.1 = length gids → length blocks.2 = length gids → k ∈ blocks.1 →
  ∃ v gid, (k, v, gid) ∈ plan_rows blocks gids.
Proof.
  intros Hl1 Hl2 (i & Hi)%list_elem_of_lookup. pose proof (lookup_lt_Some _ _ _ Hi) as Hlt.
  destruct (lookup_lt_is_Some_2 blocks.2 i) as [v Hv]; [lia|].
  destruct (lookup_lt_is_Some_2 gids i) as [gid Hgid]; [lia|].
  exists v, gid. apply (list_elem_of_lookup_2 _ i), lookup_zip_with_Some.
  exists (k, v), gid. split; [done|]. split; [|done]. apply lookup_zip_with_Some. eauto.
Qed.

(** What a plan loads after a match of reusable checkpoints is usable. *)
Lemma plan_loads_usable meta w m nct new_tokens blocks full :
  meta_shape cfg meta → zlen blocks = num_groups gm → 0 ≤ new_tokens →
  0 ≤ nct → (lcm | nct) → hm_hbm_hit_block_num meta = nct / lcm →
  nct / lcm ≤ hm_total_hit_block_num meta → 0 ≤ hm_token_processed meta →
  reusable_in w m (group_ucm_block_ids meta) nct (hm_total_hit_block_num meta - nct / lcm) →
  ∃ d, _generate_hla_dispatch_meta md5 pickle_dumps h cfg new_tokens blocks true full meta =
         (planned meta new_tokens blocks full, Ok d) ∧
    ∀ k, k ∈ (hd_load_block_ids d).1 → usable w st m k = true.
Proof.
  intros Hsh Hb Hnew Hn Hd Hhbm Htot Hproc (_ & Hfa & Hst).
  pose proof matching_manager_ok as Hok. pose proof (mo_lcm _ Hok) as Hl.
  assert (nct / lcm * lcm = nct) as Enct by (destruct Hd as [a ->]; by rewrite Z.div_mul by lia).
  pose proof (Z.div_pos nct lcm Hn Hl).
  destruct (hla_plan_spec md5 pickle_dumps h cfg Hok meta new_tokens blocks true full)
    as (d & E & Hload & _ & _ & Hlen1 & Hlen2 & _); try done; [lia|].
  exists d. split; [done|]. intros k Hk.
  destruct (plan_rows_key _ _ _ Hlen1 Hlen2 Hk) as (v & gid & Hrow).
  apply Hload in Hrow as (_ & Hlt & Hrow). rewrite Hhbm in Hlt, Hrow.
  replace (hm_total_hit_block_num meta * lcm)
    with (nct + (hm_total_hit_block_num meta - nct / lcm) * lcm) in Hrow by lia.
  rewrite Enct in Hrow.
  destruct Hrow as [(g & j & Hge & Hg & Hf & Hj & (ucm & vllm & Hu & _ & Hkj & _) & _)
                   |(g & vllm & i & Hge & Hg & Hm & Hkey & _)].
  - assert (gi_group_id g = gid) as Egid by (rewrite (mo_ids _ Hok _ g Hg); lia).
    destruct (Hfa g ucm j) as (b & Hbj & Hus); [|by rewrite Egid|done|congruence].
    apply (mo_fa _ Hok). split; [by eapply list_elem_of_lookup_2|done].
  - specialize (Hst g ltac:(lia)). unfold state_key in Hst. cbn in Hkey. rewrite Hkey in Hst.
    apply Hst, (mo_st _ Hok). split; [by eapply list_elem_of_lookup_2|done].
Qed.

(** Whatever blocks the engine allocates for a matched request, the next plan
    succeeds and loads only keys that were usable. *)
Definition loads_usable (w : W) (m : RankConsistencyManager) (meta : HLARequestMeta) : Prop :=
  ∀ tables new_tokens blocks full,
    zlen tables = num_groups gm → zlen blocks = num_groups gm → 0 ≤ new_tokens →
    ∃ meta' d, _generate_hla_dispatch_meta md5 pickle_dumps h cfg new_tokens blocks true full
                 (with_vllm tables meta) = (meta', Ok d) ∧
      ∀ k, k ∈ (hd_load_block_ids d).1 → usable w st m k = true.

(** C25 A match and the load it leads to agree.  For a model with at most one
    state group, matching a request whose computed tokens end at a checkpoint
    never fails.  When it offers [n > 0] tokens, at least the configured number
    of tokens is left to compute, the tokens are recorded as processed, and
    whatever block tables the engine then allocates, planning the next step
    succeeds and every key it loads, of attention blocks and of the state, was
    held by the store and not known to be missing on a rank when the match was
    made. *)
Theorem hla_match_then_load request nct (s : gmap string HLARequestMeta) m w :
  zlen (state_groups gm) ≤ 1 → num_tokens request = zlen (all_token_ids request) →
  0 ≤ nct → (lcm | nct) →
  ∃ s' n, hla_get_num_new_matched_tokens md5 pickle_dumps h cfg request nct (s, (m, w)) = (s', Ok (n, false)) ∧
    0 ≤ n ∧
    (0 < n →
     nct + n + recompute ≤ num_tokens request ∧
     ∃ meta, s'.1 !! request_id request = Some meta ∧ hm_token_processed meta = nct + n ∧
       loads_usable w m meta).
Proof.
  intros Hone Hnum Hn Hd. pose proof matching_manager_ok as Hok. pose proof (mo_lcm _ Hok) as Hl.
  unfold hla_get_num_new_matched_tokens. rewrite (proj2 (Z.eqb_eq _ _)) by (by apply Z.mod_divide; [lia|]).
  erewrite bind_ok; [|done]. cbv zeta.
  assert (∀ s0 : gmap string HLARequestMeta * (RankConsistencyManager * W), ∃ s' n, (s0, Ok (0, false)) = (s', Ok (n, false)) ∧ 0 ≤ n ∧ (0 < n → False)) as Hskip.
  { intros s0. exists s0, 0. split; [done|]. lia. }
  case_match; [destruct (Hskip (s, (m, w))) as (? & ? & ? & ? & ?); naive_solver|].
  destruct (compute_all_group_block_ids gm request) as [ids|e] eqn:Hids;
    [|destruct (Hskip (s, (m, w))) as (? & ? & ? & ? & ?); naive_solver].
  pose proof (all_ids_fit _ _ Hids) as Hfit.
  destruct (mo_primary _ Hok) as [primary Hp].
  destruct (group_ids_lookup gm Hok primary ids) as [pl Hpl]; [by eapply list_elem_of_lookup_2|done|].
  erewrite bind_ok; [|unfold lift_outcome; rewrite (list_index_Some (full_attn_groups gm) 0 primary Hp); done].
  erewrite bind_ok; [|unfold lift_outcome; rewrite (list_index_Some _ _ _ Hpl); done].
  destruct (hla_lookup_spec md5 pickle_dumps h gm st Hok w m (lookup_ids cfg request ids) nct)
    as (r & k & hs & El & _ & Hre & _); try done; [by apply lookup_ids_fit|].
  erewrite bind_ok; [|unfold on_store_side, zoom; cbn [snd fst]; rewrite El; done]. cbv beta iota.
  set (a1 := py_slice 0 (nct / gi_block_size primary) pl).
  set (a2 := if hla_is_mla cfg then hs else _).
  destruct r as [m1 w1]. destruct (prefetch_total (hla_base cfg) a1 a2 w1) as [w2 Ew].
  erewrite bind_ok; [|unfold on_store_side, on_world, zoom; cbn [snd fst]; rewrite Ew; done].
  erewrite bind_ok; [|done].
  assert (0 ≤ k) as Hk by apply Hre.
  do 2 eexists. split; [done|]. split; [nia|]. intros Hpos.
  assert (0 < k) as Hk0 by nia.
  destruct (limited_reusable request ids w m nct k) as [Hreu Hle]; try done.
  split; [lia|]. eexists. split; [apply lookup_insert_eq|]. cbn [hm_token_processed].
  assert (nct / lcm * lcm = nct) as Enct by (destruct Hd as [a ->]; by rewrite Z.div_mul by lia).
  pose proof (Z.div_pos nct lcm Hn Hl).
  split; [lia|]. intros tables new_tokens blocks full Ht Hbl Hnew.
  eexists. eapply (plan_loads_usable _ w m nct); try done; cbn; try lia.
  by replace (nct / lcm + k - nct / lcm) with k by lia.
Qed.
End matching.

(** ** A concrete match: 8 of 13 tokens. *)

Lemma hla_match_then_load_witness :
  ∃ s', (hla_get_num_new_matched_tokens ex_md5 ex_text ex_hla_hasher ex_hla_cfg ex_hla_request 0
           (∅, (RankConsistencyManager_init true true, ex_hla_world 1 [(1%nat, 8)]))) = (s', Ok (8, false)) ∧
    0 + 8 + 1 ≤ num_tokens ex_hla_request.
Proof.
  destruct (hla_match_then_load ex_md5 ex_text None ex_hla_hasher ex_hla_cfg (ex_hla_groups 1) "s"
    (ex_manager_init 1 ltac:(vm_compute; reflexivity)) (ex_groups_positive 1) ex_hla_request 0 ∅
    (RankConsistencyManager_init true true) (ex_hla_world 1 [(1%nat, 8)])) as (s' & n & E & _ & Hpos);
    [vm_compute; congruence|reflexivity|lia|by exists 0|].
  assert ((hla_get_num_new_matched_tokens ex_md5 ex_text ex_hla_hasher ex_hla_cfg ex_hla_request 0
    (∅, (RankConsistencyManager_init true true, ex_hla_world 1 [(1%nat, 8)]))).2 = Ok (8, false)) as E2
    by (vm_compute; reflexivity).
  rewrite E in E2. cbn [snd] in E2. assert (n = 8) as -> by congruence. exists s'. split; [exact E|].
  apply Hpos. lia.
Defined.
