(* ===== verification/HlaLayout.v ===== *)
(** * Tensor layout of the hybrid connector

    Model of [HybridLinearAttentionLayout] and of the functions on KV cache
    configurations next to it (src/ucm/integration/vllm/hla_connector.py).  The
    tensors of a hybrid model are grouped into pages of a few types; a block has
    one page per (page type, pair), where layers of different groups share a pair.

    Tensors and numpy's uint64 are as in KVCacheLayout.v.  Dictionaries that are
    only looked up are finite maps; those the code walks are lists in insertion
    order.  Warnings are left out. *)

From Stdlib Require Import ZArith Lia.
From stdpp Require Import base list gmap strings numbers sorting.
From S2P Require Import Prelude.
From S2P Require Import KVCacheLayout.
From S2P Require Import HlaScheduler.
Local Open Scope Z_scope.

(** ** KV cache configurations *)

(** A tensor descriptor; attributes of either descriptor format may be missing. *)
Record KVCacheTensorDesc := mkTensorDesc {
  td_layers : option (list string);
  td_shared_by : option (list string);
  td_layer_stride : option Z;
  td_offset : option Z;
  td_block_stride : option Z;
  td_size : option Z;
}.

Record KVCacheConfig := mkKVCacheConfig {
  kc_groups : list (KVCacheSpec * list string);
  kc_tensors : list KVCacheTensorDesc;
  kc_num_blocks : Z;
}.

Definition _kv_cache_tensor_layers (raw_tensor : KVCacheTensorDesc) : list string :=
  match td_layers raw_tensor with
  | Some names => names
  | None => default [] (td_shared_by raw_tensor)
  end.

(** The specs of the layers of one group. *)
Fixpoint group_layer_specs (spec : KVCacheSpec) (names : list string) :
    outcome (list (string * KVCacheSpec)) :=
  match names with
  | [] => Ok []
  | name :: rest =>
      s ← (match spec with
           | UniformTypeKVCacheSpecs _ keys specs =>
               match od_get name (zip keys specs) with Some s => Ok s | None => Raise KeyError end
           | _ => Ok spec
           end);
      others ← group_layer_specs spec rest;
      Ok ((name, s) :: others)
  end.

(** All (layer, spec) pairs, in order; [out[name]] collects those of a name. *)
Fixpoint layer_name_to_kv_cache_spec (groups : list (KVCacheSpec * list string)) :
    outcome (list (string * KVCacheSpec)) :=
  match groups with
  | [] => Ok []
  | (spec, names) :: rest =>
      here ← group_layer_specs spec names;
      others ← layer_name_to_kv_cache_spec rest;
      Ok (here ++ others)
  end.

Definition specs_of (out : list (string * KVCacheSpec)) (name : string) : list KVCacheSpec :=
  snd <$> base.filter (λ p, p.1 = name) out.

Definition is_full_attention_spec (spec : KVCacheSpec) : bool :=
  match spec with LayerKVCacheSpec _ FullAttentionSpec _ _ => true | _ => false end.
Definition is_align_spec (spec : KVCacheSpec) : bool :=
  match spec with LayerKVCacheSpec _ cls _ _ => is_align cls | _ => false end.

(** The loop over the tensors, with its early return. *)
Fixpoint supports_scan (out : list (string * KVCacheSpec)) (tensors : list KVCacheTensorDesc)
    (has_full_attention has_mamba_align : bool) : bool :=
  match tensors with
  | [] => false
  | raw :: rest =>
      let shared_specs := name ← _kv_cache_tensor_layers raw; specs_of out name in
      let fa := has_full_attention || existsb is_full_attention_spec shared_specs in
      let ma := has_mamba_align || existsb is_align_spec shared_specs in
      if fa && ma then true else supports_scan out rest fa ma
  end.

(** [supported_platform] is the test on [current_platform]. *)
Definition supports_kv_cache_layout (supported_platform : bool) (config : option KVCacheConfig) :
    outcome bool :=
  match config with
  | None => Ok false
  | Some config =>
      if negb supported_platform then Ok false
      else
        out ← layer_name_to_kv_cache_spec (kc_groups config);
        Ok (supports_scan out (kc_tensors config) false false)
  end.

(** ** Slots *)

(** The names, layer stride, offset, block stride and size of a descriptor. *)
Record descriptor := mkDescriptor {
  d_names : list string;
  d_layer_stride : Z;
  d_offset : Z;
  d_block_stride : Z;
  d_size : Z;
}.

Definition descriptors (tensors : list KVCacheTensorDesc) : list descriptor :=
  base.filter (λ d, d_names d ≠ [])
    ((λ raw, mkDescriptor (_kv_cache_tensor_layers raw) (default 0 (td_layer_stride raw))
               (default 0 (td_offset raw)) (default 0 (td_block_stride raw)) (default 0 (td_size raw)))
     <$> tensors).

Definition family_bases (ds : list descriptor) : gmap Z Z :=
  foldl (λ fb d,
    if (0 <? d_layer_stride d) && (0 <? d_block_stride d)
    then <[d_block_stride d := Z.min (default (d_offset d) (fb !! d_block_stride d)) (d_offset d)]> fb
    else fb) ∅ ds.

(** The maps that [_map_layers_to_slots] fills. *)
Record slot_maps := mkSlotMaps {
  layer_name_to_slot : gmap string Z;
  layer_alloc_blocks : gmap string Z;
  layer_type : gmap string Z;
  page_types : list Z;
  type_ids : gmap Z Z;
  type_counters : gmap Z Z;
  num_slots : Z;
}.

Definition slot_maps_init : slot_maps := mkSlotMaps ∅ ∅ ∅ [] ∅ ∅ 0.

(** [for pos, name in enumerate(names): d[name] = v(pos)] *)
Fixpoint set_names (names : list string) (pos : Z) (v : Z → Z) (d : gmap string Z) : gmap string Z :=
  match names with
  | [] => d
  | name :: rest => set_names rest (pos + 1) v (<[name := v pos]> d)
  end.

(** The type of a page size, a new one if it was not seen. *)
Definition page_type (m : slot_maps) (block_stride : Z) : Z * slot_maps :=
  match type_ids m !! block_stride with
  | Some type_id => (type_id, m)
  | None =>
      let type_id := zlen (page_types m) in
      (type_id, mkSlotMaps (layer_name_to_slot m) (layer_alloc_blocks m) (layer_type m)
                  (page_types m ++ [block_stride]) (<[block_stride := type_id]> (type_ids m))
                  (<[type_id := 0]> (type_counters m)) (num_slots m))
  end.

Section layout.
Variable config : KVCacheConfig.

(** The body of the loop over the descriptors. *)
Definition map_descriptor (family_base : gmap Z Z) (m : slot_maps) (d : descriptor) : outcome slot_maps :=
  let '(type_id, m) := page_type m (d_block_stride d) in
  let counter := default 0 (type_counters m !! type_id) in
  if d_layer_stride d =? 0 then
    let pair := counter in
    let alloc_blocks :=
      if (0 <? d_block_stride d) && (0 <? d_size d) && (d_size d mod d_block_stride d =? 0)
      then d_size d / d_block_stride d else kc_num_blocks config in
    Ok (mkSlotMaps
      (set_names (d_names d) 0 (λ _, pair) (layer_name_to_slot m))
      (set_names (d_names d) 0 (λ _, alloc_blocks) (layer_alloc_blocks m))
      (set_names (d_names d) 0 (λ _, type_id) (layer_type m))
      (page_types m) (type_ids m) (<[type_id := pair + 1]> (type_counters m))
      (Z.max (num_slots m) (pair + 1)))
  else
    let base := default (d_offset d) (family_base !! d_block_stride d) in
    let rel := d_offset d - base in
    if negb (rel mod d_layer_stride d =? 0) then Raise ValueError
    else
      let base_slot := rel / d_layer_stride d in
      let counter' := Z.max counter (base_slot + zlen (d_names d)) in
      Ok (mkSlotMaps
        (set_names (d_names d) 0 (λ pos, base_slot + pos) (layer_name_to_slot m))
        (set_names (d_names d) 0 (λ _, kc_num_blocks config) (layer_alloc_blocks m))
        (set_names (d_names d) 0 (λ _, type_id) (layer_type m))
        (page_types m) (type_ids m) (<[type_id := counter']> (type_counters m))
        (Z.max (num_slots m) counter')).

Fixpoint map_descriptors (family_base : gmap Z Z) (ds : list descriptor) (m : slot_maps) :
    outcome slot_maps :=
  match ds with
  | [] => Ok m
  | d :: rest => m' ← map_descriptor family_base m d; map_descriptors family_base rest m'
  end.

(** [layer_name_to_group] *)
Fixpoint layer_groups (gid : Z) (groups : list (KVCacheSpec * list string)) (d : gmap string Z) :
    gmap string Z :=
  match groups with
  | [] => d
  | (_, names) :: rest => layer_groups (gid + 1) rest (set_names names 0 (λ _, gid) d)
  end.

Definition layer_name_to_group : gmap string Z := layer_groups 0 (kc_groups config) ∅.

Definition _map_layers_to_slots : outcome slot_maps :=
  let ds := descriptors (kc_tensors config) in
  m ← map_descriptors (family_bases ds) ds slot_maps_init;
  if num_slots m <=? 0 then Raise ValueError
  else if bool_decide (page_types m = []) || existsb (λ page, page <=? 0) (page_types m)
  then Raise ValueError
  else if bool_decide (dom layer_name_to_group ⊆ dom (layer_name_to_slot m)) then Ok m
  else Raise ValueError.

(** ** Components *)

Record KVCacheSegment := mkSegment {
  sg_ptr : Z;
  sg_copy_size : Z;
  sg_block_stride : Z;
  sg_buffer_size : Z;
}.

(** The body of the loop over the tensors, for one that is not empty. *)
Definition component_segment (t : tensor) (allocation_blocks : Z) : outcome KVCacheSegment :=
  match shape t, strides t with
  | rows :: _, stride0 :: _ =>
      if rows <=? 0 then Raise ValueError
      else if allocation_blocks =? 0 then Raise ZeroDivisionError
      else
        let chunks := rows / allocation_blocks in
        if negb (rows mod allocation_blocks =? 0) || (chunks <? 1) then Raise ValueError
        else
          let inner := list_prod (tail (shape t)) in
          if negb (dense_from 1 (packing t)) then Raise ValueError
          else
            let content_size := chunks * inner * element_size t in
            let block_stride := chunks * stride0 * element_size t in
            if block_stride <? content_size then Raise ValueError
            else Ok (mkSegment (data_ptr t) block_stride block_stride (kc_num_blocks config * block_stride))
  | _, _ => Raise ValueError
  end.

Fixpoint component_segments (tensors : list (option tensor)) (allocation_blocks : Z) :
    outcome (list KVCacheSegment) :=
  match tensors with
  | [] => Ok []
  | None :: _ => Raise TypeError
  | Some t :: rest =>
      if list_prod (shape t) =? 0 then component_segments rest allocation_blocks
      else
        s ← component_segment t allocation_blocks;
        others ← component_segments rest allocation_blocks;
        Ok (s :: others)
  end.

Definition _layer_components (layer : kv_layer) (allocation_blocks : Z) : outcome (list KVCacheSegment) :=
  segments ← (match layer with
              | KVTensor t => component_segments [Some t] allocation_blocks
              | KVTuple components => component_segments components allocation_blocks
              | KVOther => Raise TypeError
              end);
  if bool_decide (segments = []) then Raise ValueError else Ok segments.

(** [layer_anchors], in the order of the caches. *)
Fixpoint build_anchors (m : slot_maps) (specs : list (string * KVCacheSpec))
    (kvcaches : list (string * kv_layer)) : outcome (list (string * list KVCacheSegment)) :=
  match kvcaches with
  | [] => Ok []
  | (name, layer) :: rest =>
      here ← (match layer_name_to_group !! name with
              | None => Ok None
              | Some gid =>
                  group ← list_index (kc_groups config) gid;
                  if negb (participates_in_prefix_caching group.1) then Ok None
                  else if bool_decide (specs_of specs name = []) then Ok None
                  else
                    anchors ← _layer_components layer
                      (default (kc_num_blocks config) (layer_alloc_blocks m !! name));
                    Ok (Some anchors)
              end);
      others ← build_anchors m specs rest;
      Ok (match here with Some anchors => (name, anchors) :: others | None => others end)
  end.

Definition _build_layer_anchors (m : slot_maps) (specs : list (string * KVCacheSpec))
    (kvcaches : list (string * kv_layer)) : outcome (list (string * list KVCacheSegment)) :=
  anchors ← build_anchors m specs kvcaches;
  if bool_decide (anchors = []) then Raise ValueError else Ok anchors.

(** ** The arrays *)

(** [d[k]] on a dictionary. *)
Definition map_get {V} (d : gmap string V) (k : string) : outcome V :=
  match d !! k with Some v => Ok v | None => Raise KeyError end.

(** The maps that the first loop of [_finalize_layer_arrays] fills. *)
Record page_maps := mkPageMaps {
  pair_bases : gmap (Z * Z) Z;       (* by (type, pair) *)
  group_owns_type : gset (Z * Z);    (* (group, type) *)
}.

Definition min_ptr (anchors : list KVCacheSegment) : outcome Z :=
  match anchors with
  | [] => Raise ValueError
  | s :: rest => Ok (foldl (λ acc s, Z.min acc (sg_ptr s)) (sg_ptr s) rest)
  end.

Definition add_anchor (m : slot_maps) (pm : page_maps) (name : string) (anchors : list KVCacheSegment) :
    outcome page_maps :=
  type_id ← map_get (layer_type m) name;
  page ← list_index (page_types m) type_id;
  if existsb (λ s, negb (sg_block_stride s =? page)) anchors then Raise ValueError
  else
    slot ← map_get (layer_name_to_slot m) name;
    base ← min_ptr anchors;
    gid ← map_get layer_name_to_group name;
    Ok (mkPageMaps
      (<[(type_id, slot) := Z.min (default base (pair_bases pm !! (type_id, slot))) base]> (pair_bases pm))
      ({[(gid, type_id)]} ∪ group_owns_type pm)).

Fixpoint add_anchors (m : slot_maps) (pm : page_maps) (anchors : list (string * list KVCacheSegment)) :
    outcome page_maps :=
  match anchors with
  | [] => Ok pm
  | (name, a) :: rest => pm' ← add_anchor m pm name a; add_anchors m pm' rest
  end.

(** Pages of the types that a group owns. *)
Definition owned_pages (m : slot_maps) (pm : page_maps) (gid : Z) : list (Z * Z) :=
  base.filter (λ p, (gid, p.1) ∈ group_owns_type pm)
    (imap (λ i page, (Z.of_nat i, page)) (page_types m)).

(** [group_pairs]: the pairs at which a group has a cacheable layer. *)
Fixpoint collect_pairs (m : slot_maps) (anchors : list (string * list KVCacheSegment))
    (acc : gmap Z (gset Z)) : outcome (gmap Z (gset Z)) :=
  match anchors with
  | [] => Ok acc
  | (name, _) :: rest =>
      gid ← map_get layer_name_to_group name;
      slot ← map_get (layer_name_to_slot m) name;
      collect_pairs m rest (<[gid := {[slot]} ∪ default ∅ (acc !! gid)]> acc)
  end.

Record HlaLayout := mkHlaLayout {
  hl_slots : slot_maps;
  hl_anchors : list (string * list KVCacheSegment);
  hl_pages : page_maps;
  hl_group_pairs : gmap Z (gset Z);
  hl_base_ptrs : list Z;
  hl_buffer_sizes : list Z;
  hl_block_strides : list Z;
}.

(** [width], [slot_shard_size] *)
Definition width (l : HlaLayout) : Z := zlen (page_types (hl_slots l)).
Definition slot_shard_size (l : HlaLayout) : Z := list_sum (page_types (hl_slots l)).

Definition layer_column_bytes (l : HlaLayout) (name : string) : outcome Z :=
  match od_get name (hl_anchors l) with
  | None => Raise KeyError
  | Some _ =>
      gid ← map_get layer_name_to_group name;
      Ok (list_sum (snd <$> owned_pages (hl_slots l) (hl_pages l) gid))
  end.

(** The bytes one block of a group transfers. *)
Definition pair_bytes (l : HlaLayout) (gid pair : Z) : Z :=
  list_sum (snd <$> base.filter (λ p : Z * Z, is_Some (pair_bases (hl_pages l) !! (p.1, pair)))
              (owned_pages (hl_slots l) (hl_pages l) gid)).
Definition direct_group_bytes (l : HlaLayout) (gid : Z) : option Z :=
  pairs ← hl_group_pairs l !! gid;
  Some (list_sum (pair_bytes l gid <$> elements pairs)).

(** The sorted keys of [pair_bases], with their pages. *)
Definition sorted_pairs (pm : page_maps) : list (Z * Z) := merge_sort pair_le (elements (dom (pair_bases pm))).

Definition page_of (m : slot_maps) (type_id : Z) : Z := default 0 (page_types m !! Z.to_nat type_id).

Definition _finalize_layer_arrays (m : slot_maps) (anchors : list (string * list KVCacheSegment)) :
    outcome HlaLayout :=
  pm ← add_anchors m (mkPageMaps ∅ ∅) anchors;
  pairs ← collect_pairs m anchors ∅;
  as_uint64 (page_types m) ;;
  let keys := sorted_pairs pm in
  ptrs ← as_uint64 ((λ k, default 0 (pair_bases pm !! k)) <$> keys);
  sizes ← as_uint64 ((λ k : Z * Z, page_of m k.1 * kc_num_blocks config) <$> keys);
  bstrides ← as_uint64 ((λ k : Z * Z, page_of m k.1) <$> keys);
  Ok (mkHlaLayout m anchors pm pairs ptrs sizes bstrides).

(** The whole of [_build_layout]. *)
Definition hla_build_layout (kvcaches : list (string * kv_layer)) : outcome HlaLayout :=
  specs ← layer_name_to_kv_cache_spec (kc_groups config);
  m ← _map_layers_to_slots;
  anchors ← _build_layer_anchors m specs kvcaches;
  _finalize_layer_arrays m anchors.

(** ** Addresses *)

(** The page of a type in a pair, of a block of a group; 0 if the group has none. *)
Definition page_addr (l : HlaLayout) (gid pair type_id page id : Z) : Z :=
  if decide ((gid, type_id) ∈ group_owns_type (hl_pages l)) then
    match pair_bases (hl_pages l) !! (type_id, pair) with
    | Some base => (base + id * page) mod uint64_max
    | None => 0
    end
  else 0.

Definition pair_row (l : HlaLayout) (gid pair id : Z) : list Z :=
  imap (λ t page, page_addr l gid pair (Z.of_nat t) page id) (page_types (hl_slots l)).

Definition extract_layer_addrs (l : HlaLayout) (layer_name : string) (vllm_block_ids : list Z) :
    outcome (list (list Z)) :=
  match od_get layer_name (hl_anchors l) with
  | None => Raise ValueError
  | Some _ =>
      pair ← map_get (layer_name_to_slot (hl_slots l)) layer_name;
      gid ← map_get layer_name_to_group layer_name;
      ids ← as_uint64 vllm_block_ids;
      Ok (pair_row l gid pair <$> (ids : list Z))
  end.

Definition direct_store_config (l : HlaLayout) : list Z * Z * Z :=
  let pages := page_types (hl_slots l) in
  let n := num_slots (hl_slots l) in
  (concat (replicate (Z.to_nat n) pages), list_sum pages * n, list_sum pages * n).

(** [addrs[i, col] = v], for a column that is not negative. *)
Definition set_column (row : list Z) (col v : Z) : outcome (list Z) :=
  if (0 <=? col) && (col <? zlen row) then Ok (<[Z.to_nat col := v]> row) else Raise IndexError.

(** The columns of one pair, for one block. *)
Fixpoint set_pair_columns (l : HlaLayout) (gid pair id : Z) (types : list (Z * Z)) (row : list Z) :
    outcome (list Z) :=
  match types with
  | [] => Ok row
  | (type_id, page) :: rest =>
      row' ← (if decide ((gid, type_id) ∈ group_owns_type (hl_pages l)) then
                match pair_bases (hl_pages l) !! (type_id, pair) with
                | Some base =>
                    set_column row (pair * width l + type_id) ((base + id * page) mod uint64_max)
                | None => Ok row
                end
              else Ok row);
      set_pair_columns l gid pair id rest row'
  end.

Fixpoint set_pairs (l : HlaLayout) (gid id : Z) (pairs : list Z) (row : list Z) : outcome (list Z) :=
  match pairs with
  | [] => Ok row
  | p :: rest =>
      row' ← set_pair_columns l gid p id (imap (λ t page, (Z.of_nat t, page)) (page_types (hl_slots l))) row;
      set_pairs l gid id rest row'
  end.

(** One row of the matrix; the code fills the rows of a group together. *)
Definition block_row (l : HlaLayout) (id gid : Z) : outcome (list Z) :=
  let zeros := replicate (Z.to_nat (num_slots (hl_slots l) * width l)) 0 in
  match hl_group_pairs l !! gid with
  | None => Ok zeros
  | Some pairs => set_pairs l gid id (elements pairs) zeros
  end.

Definition hla_extract_block_addrs (l : HlaLayout) (vllm_block_ids group_ids : list Z) :
    outcome (list (list Z)) :=
  if negb (zlen vllm_block_ids =? zlen group_ids) then Raise ValueError
  else
    ids ← as_uint64 vllm_block_ids;
    map_outcome (λ p : Z * Z, block_row l p.1 p.2) (zip ids group_ids).
End layout.
