(* ===== verification/HlaLayoutFacts.v ===== *)
(** * The hybrid layout is sound

    Which slots the layers get, that the rows of a whole-block transfer agree
    with those of the layerwise transfers, and where the addresses point. *)

From Stdlib Require Import ZArith Lia.
From stdpp Require Import base list gmap strings numbers sorting fin_sets.
From S2P Require Import Prelude.
From S2P Require Import KVCacheLayout.
From S2P Require Import KVCacheLayoutFacts.
From S2P Require Import HlaScheduler.
From S2P Require Import HlaLayout.
Local Open Scope Z_scope.

(** ** Slots *)

Lemma lookup_set_names names pos v (d : gmap string Z) name x :
  set_names names pos v d !! name = Some x →
  (∃ i : nat, names !! i = Some name ∧ x = v (pos + Z.of_nat i)) ∨ d !! name = Some x.
Proof.
  revert pos d. induction names as [|n names IH]; intros pos d; simpl; [by right|].
  intros [(i & Hi & ->)|Hd]%IH.
  - left. exists (S i). split; [done|]. f_equal. lia.
  - destruct (decide (n = name)) as [->|Hne].
    + rewrite lookup_insert_eq in Hd. injection Hd as <-. left. exists 0%nat. split; [done|]. f_equal. lia.
    + rewrite lookup_insert_ne in Hd by done. by right.
Qed.

Lemma set_names_dom names pos v (d : gmap string Z) :
  dom (set_names names pos v d) = list_to_set names ∪ dom d.
Proof.
  revert pos d. induction names as [|n names IH]; intros pos d; simpl; [set_solver|].
  rewrite IH, dom_insert_L. set_solver.
Qed.

(** The invariant of the loop over the descriptors. *)
Record slots_ok (m : slot_maps) : Prop := {
  so_slot name s : layer_name_to_slot m !! name = Some s → 0 ≤ s < num_slots m;
  so_type name t : layer_type m !! name = Some t → 0 ≤ t < zlen (page_types m);
  so_dom : dom (layer_type m) = dom (layer_name_to_slot m);
  so_id b t : type_ids m !! b = Some t → 0 ≤ t < zlen (page_types m);
  so_counter t c : type_counters m !! t = Some c → 0 ≤ c ≤ num_slots m;
  so_slots : 0 ≤ num_slots m;
}.

Lemma page_type_ok m b t m' : slots_ok m → page_type m b = (t, m') →
  slots_ok m' ∧ 0 ≤ t < zlen (page_types m') ∧ num_slots m' = num_slots m ∧
  layer_name_to_slot m' = layer_name_to_slot m ∧ layer_type m' = layer_type m.
Proof.
  intros Hok. unfold page_type. destruct (type_ids m !! b) as [t0|] eqn:E; intros [= <- <-].
  { split; [done|]. split; [by eapply so_id|]. done. }
  pose proof (zlen_nonneg (page_types m)).
  assert (zlen (page_types m ++ [b]) = zlen (page_types m) + 1) as Hlen by (by rewrite zlen_app).
  split; [|split; [cbn; lia|done]].
  split; cbn; rewrite ?Hlen; try apply Hok.
  - intros name t Ht. apply (so_type _ Hok) in Ht. lia.
  - intros b' t. destruct (decide (b = b')) as [->|].
    + rewrite lookup_insert_eq. intros [= <-]. lia.
    + rewrite lookup_insert_ne by done. intros Ht%(so_id _ Hok). lia.
  - intros t c. destruct (decide (zlen (page_types m) = t)) as [->|].
    + rewrite lookup_insert_eq. intros [= <-]. pose proof (so_slots _ Hok). lia.
    + rewrite lookup_insert_ne by done. apply (so_counter _ Hok).
Qed.

(** A layer's place in the regions of its family is not negative. *)
Definition regions_ok (fb : gmap Z Z) (d : descriptor) : Prop :=
  d_layer_stride d = 0 ∨
  0 < d_layer_stride d ∧ default (d_offset d) (fb !! d_block_stride d) ≤ d_offset d.

Lemma map_descriptor_ok config fb m d m' :
  slots_ok m → regions_ok fb d → map_descriptor config fb m d = Ok m' → slots_ok m'.
Proof.
  intros Hok Hreg. unfold map_descriptor. destruct (page_type m (d_block_stride d)) as [t m1] eqn:Hpt.
  apply page_type_ok in Hpt as (Hok1 & Ht & _); [|done]. clear Hok m.
  assert (0 ≤ default 0 (type_counters m1 !! t) ≤ num_slots m1) as Hc.
  { destruct (type_counters m1 !! t) as [c|] eqn:Ec; simpl; [by eapply so_counter|].
    split; [done|apply Hok1]. }
  pose proof (so_slots _ Hok1). set (c := default 0 _) in *.
  assert (∀ (v : Z → Z) alloc c',
    (∀ i : nat, (i < length (d_names d))%nat → 0 ≤ v (Z.of_nat i) < c') → 0 ≤ c' →
    slots_ok (mkSlotMaps (set_names (d_names d) 0 v (layer_name_to_slot m1))
      (set_names (d_names d) 0 alloc (layer_alloc_blocks m1))
      (set_names (d_names d) 0 (λ _, t) (layer_type m1)) (page_types m1) (type_ids m1)
      (<[t := c']> (type_counters m1)) (Z.max (num_slots m1) c'))) as Hnew.
  { intros v alloc c' Hv Hc'. split; cbn.
    - intros name s [(i & Hi & ->)|Hs]%lookup_set_names.
      + rewrite Z.add_0_l. apply lookup_lt_Some in Hi. specialize (Hv i Hi). lia.
      + apply (so_slot _ Hok1) in Hs. lia.
    - intros name x [(i & Hi & ->)|Hs]%lookup_set_names; [done|by eapply so_type].
    - rewrite !set_names_dom. f_equal. apply Hok1.
    - apply Hok1.
    - intros t' c0. destruct (decide (t = t')) as [->|].
      + rewrite lookup_insert_eq. intros [= <-]. lia.
      + rewrite lookup_insert_ne by done. intros Hs%(so_counter _ Hok1). lia.
    - lia. }
  destruct (Z.eqb_spec (d_layer_stride d) 0) as [E0|E0].
  - intros [= <-]. apply (Hnew (λ _, c)); [|lia]. intros i _. lia.
  - destruct Hreg as [?|[Hpos Hbase]]; [done|]. case_match; [done|]. intros [= <-].
    set (rel := d_offset d - _) in *. assert (0 ≤ rel) by lia.
    pose proof (Z.div_pos rel (d_layer_stride d)).
    pose proof (zlen_nonneg (d_names d)). apply (Hnew (λ pos, rel / d_layer_stride d + pos)); [|lia].
    intros i Hi. unfold zlen. lia.
Qed.

Lemma map_descriptors_ok config fb ds m m' :
  slots_ok m → Forall (regions_ok fb) ds → map_descriptors config fb ds m = Ok m' → slots_ok m'.
Proof.
  intros Hok Hds. revert m Hok. induction Hds as [|d ds Hd _ IH]; intros m Hok; simpl; [by intros [= <-]|].
  destruct (map_descriptor config fb m d) as [m1|] eqn:E; simpl; [|done].
  apply IH. by eapply map_descriptor_ok.
Qed.

Lemma family_bases_le ds d b :
  d ∈ ds → family_bases ds !! d_block_stride d = Some b → 0 < d_layer_stride d → 0 < d_block_stride d →
  b ≤ d_offset d.
Proof.
  unfold family_bases. intros Hin Hb Hl Hbs.
  assert (∀ ds (fb : gmap Z Z),
    (∀ b, (foldl (λ fb d, if (0 <? d_layer_stride d) && (0 <? d_block_stride d)
       then <[d_block_stride d := Z.min (default (d_offset d) (fb !! d_block_stride d)) (d_offset d)]> fb
       else fb) fb ds) !! d_block_stride d = Some b →
     (d ∈ ds ∨ ∃ b0, fb !! d_block_stride d = Some b0 ∧ b0 ≤ d_offset d) → b ≤ d_offset d)) as Hall.
  2:{ eapply Hall; [exact Hb|by left]. }
  clear ds b Hin Hb. intros ds. induction ds as [|d0 ds IH]; intros fb b; simpl.
  { intros Hb [[]%elem_of_nil|(b0 & Hb0 & ?)]. congruence. }
  intros Hb Hor. eapply IH; [exact Hb|]. destruct Hor as [[->|?]%elem_of_cons|(b0 & Hb0 & Hle)]; [|by left|].
  - right. rewrite (proj2 (Z.ltb_lt _ _) Hl), (proj2 (Z.ltb_lt _ _) Hbs). simpl.
    rewrite lookup_insert_eq. eexists. split; [done|]. lia.
  - right. destruct (_ && _); [|by exists b0].
    destruct (decide (d_block_stride d0 = d_block_stride d)) as [->|].
    + rewrite Hb0, lookup_insert_eq. eexists. split; [done|]. simpl. lia.
    + rewrite lookup_insert_ne by done. by exists b0.
Qed.

(** The descriptors' strides are not negative. *)
Definition strides_nonneg (config : KVCacheConfig) : Prop :=
  Forall (λ d, 0 ≤ d_layer_stride d) (descriptors (kc_tensors config)).

Lemma family_bases_pos ds s b : family_bases ds !! s = Some b → 0 < s.
Proof.
  unfold family_bases. set (P := λ fb : gmap Z Z, ∀ s b, fb !! s = Some b → 0 < s).
  assert (∀ fb, P fb → P (foldl (λ fb d, if (0 <? d_layer_stride d) && (0 <? d_block_stride d)
    then <[d_block_stride d := Z.min (default (d_offset d) (fb !! d_block_stride d)) (d_offset d)]> fb
    else fb) fb ds)) as Hall.
  2:{ apply Hall. intros ? ?. by rewrite lookup_empty. }
  induction ds as [|d ds IH]; intros fb Hfb; simpl; [done|]. apply IH.
  destruct (Z.ltb_spec 0 (d_layer_stride d)), (Z.ltb_spec 0 (d_block_stride d)); simpl; try done.
  intros s' b'. destruct (decide (d_block_stride d = s')) as [<-|]; [by intros _|].
  rewrite lookup_insert_ne by done. apply Hfb.
Qed.

Lemma map_layers_spec config m :
  strides_nonneg config → _map_layers_to_slots config = Ok m →
  slots_ok m ∧ Forall (λ page, 0 < page) (page_types m) ∧
  ∀ name gid, layer_name_to_group config !! name = Some gid → ∃ s t,
    layer_name_to_slot m !! name = Some s ∧ layer_type m !! name = Some t.
Proof.
  intros Hns. unfold _map_layers_to_slots, mbind, outcome_bind. cbv zeta.
  destruct (map_descriptors _ _ _ _) as [m'|] eqn:E; [|done].
  assert (slots_ok m') as Hok.
  { eapply map_descriptors_ok; [| |exact E].
    - split; cbn; try done; intros ? ?; by rewrite lookup_empty.
    - apply Forall_forall. intros d Hd. unfold strides_nonneg in Hns. rewrite Forall_forall in Hns.
      specialize (Hns d Hd). destruct (decide (d_layer_stride d = 0)); [by left|right]. split; [lia|].
      destruct (family_bases _ !! d_block_stride d) as [b|] eqn:Eb; simpl; [|lia].
      eapply family_bases_le; try done; [lia|by eapply family_bases_pos]. }
  case_match; [done|]. case_match eqn:Hpages; [done|]. apply orb_false_iff in Hpages as [_ Hpages].
  case_bool_decide as Hdom; [|done]. intros [= <-]. split; [done|]. split.
  - apply Forall_forall. intros page Hin. destruct (decide (0 < page)); [done|].
    assert (existsb (λ page, page <=? 0) (page_types m') = true); [|congruence].
    apply existsb_exists. exists page. split; [by apply list_elem_of_In|]. by apply Z.leb_le; lia.
  - intros name gid Hg. assert (name ∈ dom (layer_name_to_slot m')) as Hs.
    { apply Hdom, elem_of_dom. by eexists. }
    assert (name ∈ dom (layer_type m')) as Ht by (by rewrite (so_dom _ Hok)).
    apply elem_of_dom in Hs as [s Hs], Ht as [t Ht]. by exists s, t.
Qed.

(** ** What a built layout records *)

Lemma map_get_Ok {V} (d : gmap string V) k v : map_get d k = Ok v ↔ d !! k = Some v.
Proof. unfold map_get. destruct (d !! k); split; congruence. Qed.

Lemma collect_pairs_spec config m anchors acc r :
  collect_pairs config m anchors acc = Ok r →
  ∀ gid s, s ∈ default ∅ (r !! gid) ↔ s ∈ default ∅ (acc !! gid) ∨
    ∃ name, name ∈ anchors.*1 ∧ layer_name_to_group config !! name = Some gid ∧
      layer_name_to_slot m !! name = Some s.
Proof.
  revert acc. induction anchors as [|[name a] rest IH]; intros acc; csimpl.
  { intros [= <-] gid s. split; [by left|]. intros [?|(name & []%elem_of_nil & _)]. done. }
  destruct (map_get (layer_name_to_group config) name) as [g|] eqn:Eg; simpl; [|done].
  destruct (map_get (layer_name_to_slot m) name) as [s0|] eqn:Es; simpl; [|done].
  apply map_get_Ok in Eg, Es. intros Hr gid s. rewrite (IH _ Hr).
  assert (s ∈ default ∅ (<[g := {[s0]} ∪ default ∅ (acc !! g)]> acc !! gid) ↔
          s ∈ default ∅ (acc !! gid) ∨ (g = gid ∧ s = s0)) as ->.
  { destruct (decide (g = gid)) as [->|].
    - rewrite lookup_insert_eq. cbn [default]. set_solver.
    - rewrite lookup_insert_ne by done. naive_solver. }
  setoid_rewrite elem_of_cons. naive_solver.
Qed.

Lemma min_ptr_attained anchors b :
  min_ptr anchors = Ok b → ∃ sg, sg ∈ anchors ∧ sg_ptr sg = b.
Proof.
  destruct anchors as [|s rest]; simpl; [done|]. intros [= <-].
  assert (∀ rest acc, foldl (λ acc s, Z.min acc (sg_ptr s)) acc rest = acc ∨
    ∃ sg, sg ∈ rest ∧ sg_ptr sg = foldl (λ acc s, Z.min acc (sg_ptr s)) acc rest) as Hm.
  { clear. induction rest as [|s rest IH]; intros acc; simpl; [by left|].
    destruct (IH (Z.min acc (sg_ptr s))) as [->|(sg & ? & ?)]; [|right; exists sg; by rewrite elem_of_cons; auto].
    destruct (Z.min_dec acc (sg_ptr s)) as [->| ->]; [by left|].
    right. exists s. rewrite elem_of_cons. auto. }
  destruct (Hm rest (sg_ptr s)) as [->|(sg & ? & ?)]; [exists s|exists sg]; rewrite elem_of_cons; auto.
Qed.

(** The base of a page comes from a segment of a layer, whose stride is the page. *)
Definition base_of (m : slot_maps) (anchors : list (string * list KVCacheSegment)) (t s b : Z) : Prop :=
  ∃ name a sg, (name, a) ∈ anchors ∧ layer_type m !! name = Some t ∧
    layer_name_to_slot m !! name = Some s ∧ sg ∈ a ∧ sg_ptr sg = b ∧
    page_types m !! Z.to_nat t = Some (sg_block_stride sg).

Lemma list_index_Ok {A} (l : list A) i x : list_index l i = Ok x → l !! Z.to_nat i = Some x.
Proof. unfold list_index. destruct (l !! Z.to_nat i); [by intros [= <-]|done]. Qed.

Lemma add_anchor_spec config m pm name a pm' :
  add_anchor config m pm name a = Ok pm' →
  ∃ gid t s b, layer_name_to_group config !! name = Some gid ∧ layer_type m !! name = Some t ∧
    layer_name_to_slot m !! name = Some s ∧ base_of m [(name, a)] t s b ∧
    pm' = mkPageMaps (<[(t, s) := Z.min (default b (pair_bases pm !! (t, s))) b]> (pair_bases pm))
            ({[(gid, t)]} ∪ group_owns_type pm).
Proof.
  unfold add_anchor, mbind, outcome_bind.
  destruct (map_get (layer_type m) name) as [t|] eqn:Et; [|done]. apply map_get_Ok in Et.
  destruct (list_index (page_types m) t) as [page|] eqn:Ep; [|done]. apply list_index_Ok in Ep.
  destruct (existsb _ a) eqn:Ea; [done|].
  destruct (map_get (layer_name_to_slot m) name) as [s|] eqn:Es; [|done]. apply map_get_Ok in Es.
  destruct (min_ptr a) as [b|] eqn:Eb; [|done]. apply min_ptr_attained in Eb as (sg & Hsg & Hb).
  destruct (map_get (layer_name_to_group config) name) as [gid|] eqn:Eg; [|done]. apply map_get_Ok in Eg.
  intros [= <-]. exists gid, t, s, b. split_and!; try done.
  exists name, a, sg. split_and!; try done; [by apply list_elem_of_singleton|].
  assert (sg_block_stride sg = page) as ->; [|done].
  destruct (Z.eqb_spec (sg_block_stride sg) page) as [|Hne]; [done|].
  assert (existsb (λ s, negb (sg_block_stride s =? page)) a = true); [|congruence].
  apply existsb_exists. exists sg. split; [by apply list_elem_of_In|]. by apply negb_true_iff, Z.eqb_neq.
Qed.

Lemma base_of_incl m l1 l2 t s b : l1 ⊆ l2 → base_of m l1 t s b → base_of m l2 t s b.
Proof. intros Hi (name & a & sg & Hin & ?). exists name, a, sg. split; [by apply Hi|done]. Qed.

Lemma add_anchors_spec config m pm anchors pm' :
  add_anchors config m pm anchors = Ok pm' →
  (∀ t s b, pair_bases pm' !! (t, s) = Some b → pair_bases pm !! (t, s) = Some b ∨ base_of m anchors t s b) ∧
  (∀ t s, is_Some (pair_bases pm !! (t, s)) → is_Some (pair_bases pm' !! (t, s))) ∧
  group_owns_type pm ⊆ group_owns_type pm' ∧
  Forall (λ p, ∃ gid t s, layer_name_to_group config !! p.1 = Some gid ∧ layer_type m !! p.1 = Some t ∧
    layer_name_to_slot m !! p.1 = Some s ∧ (gid, t) ∈ group_owns_type pm' ∧
    is_Some (pair_bases pm' !! (t, s))) anchors.
Proof.
  revert pm. induction anchors as [|[name a] rest IH]; intros pm; simpl.
  { intros [= <-]. split_and!; auto. }
  destruct (add_anchor config m pm name a) as [pm1|] eqn:E1; simpl; [|done].
  apply add_anchor_spec in E1 as (gid & t0 & s0 & b0 & Hg & Ht & Hs & Hb & ->).
  intros (IHb & IHd & IHo & IHf)%IH. cbn in IHb, IHd, IHo. split_and!.
  - intros t s b [Hin|Hrest]%IHb; [|right; eapply base_of_incl, Hrest; set_solver].
    destruct (decide ((t0, s0) = (t, s))) as [[= -> ->]|Hne]; [|left; by rewrite lookup_insert_ne in Hin].
    rewrite lookup_insert_eq in Hin. injection Hin as <-.
    destruct (pair_bases pm !! (t, s)) as [b1|]; simpl.
    + destruct (Z.min_dec b1 b0) as [->| ->]; [by left|right; eapply base_of_incl, Hb; set_solver].
    + right. rewrite Z.min_id. eapply base_of_incl, Hb. set_solver.
  - intros t s Hin. apply IHd. destruct (decide ((t0, s0) = (t, s))) as [->|]; [by rewrite lookup_insert_eq|].
    by rewrite lookup_insert_ne.
  - set_solver.
  - constructor; [|done]. exists gid, t0, s0. split_and!; try done; [set_solver|].
    apply IHd. by rewrite lookup_insert_eq.
Qed.

Record layout_ok (config : KVCacheConfig) (l : HlaLayout) : Prop := {
  lo_slots : slots_ok (hl_slots l);
  lo_pages : Forall (λ page, 0 < page) (page_types (hl_slots l));
  lo_pairs gid s : s ∈ default ∅ (hl_group_pairs l !! gid) ↔
    ∃ name, name ∈ (hl_anchors l).*1 ∧ layer_name_to_group config !! name = Some gid ∧
      layer_name_to_slot (hl_slots l) !! name = Some s;
  lo_bases t s b : pair_bases (hl_pages l) !! (t, s) = Some b → base_of (hl_slots l) (hl_anchors l) t s b;
  lo_anchored name : name ∈ (hl_anchors l).*1 → ∃ gid t s,
    layer_name_to_group config !! name = Some gid ∧ layer_type (hl_slots l) !! name = Some t ∧
    layer_name_to_slot (hl_slots l) !! name = Some s ∧ (gid, t) ∈ group_owns_type (hl_pages l) ∧
    is_Some (pair_bases (hl_pages l) !! (t, s));
  lo_ptrs : hl_base_ptrs l = (λ k, default 0 (pair_bases (hl_pages l) !! k)) <$> sorted_pairs (hl_pages l);
  lo_sizes : hl_buffer_sizes l =
    (λ k : Z * Z, page_of (hl_slots l) k.1 * kc_num_blocks config) <$> sorted_pairs (hl_pages l);
  lo_strides : hl_block_strides l = (λ k : Z * Z, page_of (hl_slots l) k.1) <$> sorted_pairs (hl_pages l);
  lo_range : Forall (λ x, 0 ≤ x < uint64_max) (hl_base_ptrs l);
}.

Lemma build_layout_ok config kvcaches l :
  strides_nonneg config → hla_build_layout config kvcaches = Ok l → layout_ok config l.
Proof.
  intros Hns. unfold hla_build_layout, _finalize_layer_arrays, mbind, outcome_bind.
  destruct (layer_name_to_kv_cache_spec _) as [specs|]; [|done].
  destruct (_map_layers_to_slots config) as [m|] eqn:Em; [|done].
  apply map_layers_spec in Em as (Hm & Hpages & _); [|done].
  destruct (_build_layer_anchors _ _ _ _) as [anchors|]; [|done].
  destruct (add_anchors config m _ anchors) as [pm|] eqn:Epm; [|done].
  destruct (collect_pairs config m anchors ∅) as [pairs|] eqn:Epairs; [|done].
  destruct (as_uint64 (page_types m)); [|done]. cbv zeta.
  destruct (as_uint64 ((λ k : Z * Z, default 0 (pair_bases pm !! k)) <$> _)) as [ptrs|] eqn:Eptrs; [|done].
  destruct (as_uint64 ((λ k : Z * Z, page_of m k.1 * _) <$> _)) as [sizes|] eqn:Esizes; [|done].
  destruct (as_uint64 ((λ k : Z * Z, page_of m k.1) <$> _)) as [strs|] eqn:Estrs; [|done].
  apply as_uint64_Ok in Eptrs as [-> Hr], Esizes as [-> _], Estrs as [-> _]. intros [= <-].
  apply add_anchors_spec in Epm as (Hb & _ & _ & Hanch).
  split; cbn; try done.
  - intros gid s. rewrite (collect_pairs_spec _ _ _ _ _ Epairs), lookup_empty. set_solver.
  - intros t s b [E|?]%Hb; [cbn in E; by rewrite lookup_empty in E|done].
  - intros name (p & -> & Hp)%list_elem_of_fmap. rewrite Forall_forall in Hanch. by apply Hanch.
Qed.

(** ** Rows *)

Section rows.
Context (config : KVCacheConfig) (l : HlaLayout) (Hl : layout_ok config l).
Context (gid id : Z).
Let w := width l.
Let n := num_slots (hl_slots l).

(** The address that belongs in a column of the row. *)
Definition cell (c : Z) : Z := page_addr l gid (c / w) (c mod w) (page_of (hl_slots l) (c mod w)) id.

(** The row of which the columns of [P] are filled. *)
Definition cells (P : Z → bool) : list Z := (λ c, if P c then cell c else 0) <$> seqZ 0 (n * w).

Lemma cells_ext (P Q : Z → bool) : (∀ c, 0 ≤ c < n * w → (if P c then cell c else 0) = (if Q c then cell c else 0)) → cells P = cells Q.
Proof.
  intros Heq. unfold cells. apply list_fmap_ext. intros i c Hc.
  apply lookup_seqZ in Hc as [-> Hi]. apply Heq. lia.
Qed.

Lemma cells_none : cells (λ _, false) = replicate (Z.to_nat (n * w)) 0.
Proof. unfold cells. rewrite (const_fmap _ _ 0) by done. by rewrite length_seqZ. Qed.

Lemma set_cell P c : 0 ≤ c < n * w → set_column (cells P) c (cell c) = Ok (cells (λ x, P x || (x =? c))).
Proof.
  intros Hc. unfold set_column.
  assert (zlen (cells P) = n * w) as -> by (unfold zlen, cells; rewrite length_fmap, length_seqZ; lia).
  rewrite (proj2 (Z.leb_le _ _)), (proj2 (Z.ltb_lt _ _)) by lia. simpl. f_equal.
  apply list_eq. intros i. destruct (decide (i = Z.to_nat c)) as [->|Hne].
  - rewrite list_lookup_insert_eq by (unfold cells; rewrite length_fmap, length_seqZ; lia).
    unfold cells. rewrite list_lookup_fmap, lookup_seqZ_lt by lia. simpl.
    rewrite Z2Nat.id, (proj2 (Z.eqb_eq _ _)), orb_true_r by lia. done.
  - rewrite list_lookup_insert_ne by done. unfold cells. rewrite !list_lookup_fmap.
    destruct (seqZ 0 (n * w) !! i) as [x|] eqn:E; [|done]. apply lookup_seqZ in E as [-> Hi]. simpl.
    rewrite (proj2 (Z.eqb_neq (0 + Z.of_nat i) c)), orb_false_r by lia. done.
Qed.

Lemma cell_column p t page :
  0 ≤ t < w → page_types (hl_slots l) !! Z.to_nat t = Some page → cell (p * w + t) = page_addr l gid p t page id.
Proof.
  intros Ht Hp. unfold cell. rewrite Z.add_comm, Z.div_add, Z.mod_add, Z.div_small, Z.mod_small by lia.
  unfold page_of. by rewrite Hp.
Qed.

Lemma set_pair_cells (pages pre : list Z) p P :
  page_types (hl_slots l) = pre ++ pages → 0 ≤ p < n →
  set_pair_columns l gid p id (imap (λ t page, (zlen pre + Z.of_nat t, page)) pages) (cells P) =
    Ok (cells (λ c, P c || (c / w =? p) && (zlen pre <=? c mod w))).
Proof.
  revert pre P. induction pages as [|page pages IH]; intros pre P Heq Hp; simpl.
  { f_equal. apply cells_ext. intros c Hc. assert (0 < w) by nia. pose proof (Z.mod_pos_bound c w).
    assert (w = zlen pre) as Hw by (unfold w, width; by rewrite Heq, app_nil_r).
    rewrite (proj2 (Z.leb_gt _ _)), andb_false_r, orb_false_r by lia. done. }
  assert (w = zlen pre + 1 + zlen pages) as Hw.
  { unfold w, width. rewrite Heq, zlen_app. unfold zlen. simpl. lia. }
  pose proof (zlen_nonneg pre). pose proof (zlen_nonneg pages).
  set (c0 := p * w + zlen pre). assert (0 ≤ c0 < n * w) by (unfold c0; nia).
  assert (cell c0 = page_addr l gid p (zlen pre) page id) as Hcell.
  { apply cell_column; [lia|]. rewrite Heq. unfold zlen. rewrite Nat2Z.id. by apply list_lookup_middle. }
  rewrite Z.add_0_r.
  assert ((if decide ((gid, zlen pre) ∈ group_owns_type (hl_pages l)) then
      match pair_bases (hl_pages l) !! (zlen pre, p) with
      | Some base => set_column (cells P) (p * w + zlen pre) ((base + id * page) mod uint64_max)
      | None => Ok (cells P) end else Ok (cells P)) = Ok (cells (λ x, P x || (x =? c0)))) as Hset.
  { assert (cell c0 = 0 → cells P = cells (λ x, P x || (x =? c0))) as Hzero.
    { intros E. apply cells_ext. intros c _. destruct (Z.eqb_spec c c0) as [->|];
        rewrite ?orb_false_r, ?orb_true_r; [|done]. rewrite E. by destruct (P c0). }
    unfold page_addr in Hcell. destruct (decide _); [|by rewrite <- Hzero].
    destruct (pair_bases _ !! _); [|by rewrite <- Hzero].
    fold c0. rewrite <- Hcell. by apply set_cell. }
  fold w. rewrite Hset. simpl. specialize (IH (pre ++ [page]) (λ x, P x || (x =? c0))).
  rewrite <- app_assoc in IH. specialize (IH Heq Hp).
  assert (zlen (pre ++ [page]) = zlen pre + 1) as Hlp by (by rewrite zlen_app). rewrite Hlp in IH.
  erewrite imap_ext; [rewrite IH|intros i x _; simpl; f_equal; lia]. f_equal. apply cells_ext.
  intros c Hc. assert (0 < w) by lia. pose proof (Z.div_mod c w). pose proof (Z.mod_pos_bound c w).
  replace (P c || (c =? c0) || (c / w =? p) && (zlen pre + 1 <=? c mod w))
    with (P c || (c / w =? p) && (zlen pre <=? c mod w)); [done|].
  rewrite <- orb_assoc. f_equal. apply eq_bool_prop_intro.
  assert (c = c0 ↔ c / w = p ∧ c mod w = zlen pre) as Hc0.
  { unfold c0. split; [intros ->|intros [<- <-]; lia].
    rewrite Z.add_comm, Z.div_add, Z.mod_add, Z.div_small, Z.mod_small; lia. }
  rewrite orb_True, !andb_True, !Is_true_true, !Z.eqb_eq, !Z.leb_le, Hc0. lia.
Qed.

Lemma set_pairs_cells ps P :
  Forall (λ p, 0 ≤ p < n) ps →
  set_pairs l gid id ps (cells P) = Ok (cells (λ c, P c || bool_decide (c / w ∈ ps))).
Proof.
  intros Hps. revert P. induction Hps as [|p ps Hp Hps IH]; intros P; simpl.
  { f_equal. apply cells_ext. intros c _.
    by rewrite orb_false_r. }
  pose proof (set_pair_cells (page_types (hl_slots l)) [] p P eq_refl Hp) as Hset.
  erewrite imap_ext; [rewrite Hset|by intros i x _]. simpl. rewrite IH. f_equal. apply cells_ext.
  intros c Hc. assert (0 < w) by nia. pose proof (Z.mod_pos_bound c w).
  change (zlen []) with 0. rewrite (proj2 (Z.leb_le 0 _)), andb_true_r, <- orb_assoc by lia.
  replace (_ || bool_decide (c / w ∈ ps)) with (bool_decide (c / w ∈ p :: ps)); [done|].
  apply eq_bool_prop_intro. rewrite orb_True, !bool_decide_spec, Is_true_true, Z.eqb_eq, elem_of_cons. done.
Qed.

Lemma block_row_cells :
  block_row l id gid = Ok (cells (λ c, bool_decide (c / w ∈ default ∅ (hl_group_pairs l !! gid)))).
Proof.
  unfold block_row. cbv zeta. fold w n. rewrite <- cells_none.
  destruct (hl_group_pairs l !! gid) as [pairs|] eqn:E; simpl.
  - rewrite set_pairs_cells.
    + f_equal. apply cells_ext. intros c _. simpl. erewrite bool_decide_ext by apply elem_of_elements. done.
    + apply Forall_forall. intros p Hp%elem_of_elements.
      assert (p ∈ default ∅ (hl_group_pairs l !! gid)) as Hin by (by rewrite E).
      apply (lo_pairs _ _ Hl) in Hin as (name & _ & _ & Hs). by eapply so_slot, Hs; apply Hl.
  - done.
Qed.
Lemma cells_lookup (P : Z → bool) (c : nat) a :
  cells P !! c = Some a ↔ Z.of_nat c < n * w ∧ a = (if P (Z.of_nat c) then cell (Z.of_nat c) else 0).
Proof.
  unfold cells. rewrite list_lookup_fmap. split.
  - intros (x & Hx & ->)%fmap_Some. apply lookup_seqZ in Hx as [-> Hc]. by rewrite Z.add_0_l.
  - intros [Hc ->]. rewrite lookup_seqZ_lt, Z.add_0_l by lia. done.
Qed.

(** The columns of a pair that is filled are the row of the pair. *)
Lemma cells_pair (P : Z → bool) p :
  0 ≤ p < n → (∀ c, c / w = p → P c = true) →
  take (Z.to_nat w) (drop (Z.to_nat (p * w)) (cells P)) = pair_row l gid p id.
Proof.
  intros Hp HP. assert (0 ≤ w) by apply zlen_nonneg. apply list_eq. intros i.
  unfold pair_row. rewrite list_lookup_imap.
  destruct (page_types (hl_slots l) !! i) as [page|] eqn:Ei; simpl.
  - apply lookup_lt_Some in Ei as Hi. assert (Z.of_nat i < w) by (unfold w, width, zlen; lia).
    rewrite lookup_take_lt, lookup_drop by lia. apply cells_lookup.
    assert (Z.of_nat (Z.to_nat (p * w) + i) = p * w + Z.of_nat i) as -> by lia. split; [nia|].
    rewrite HP by (rewrite Z.add_comm, Z.div_add, Z.div_small by lia; lia).
    symmetry. apply cell_column; [lia|by rewrite Nat2Z.id].
  - apply lookup_ge_None in Ei. apply lookup_take_ge. unfold w, width, zlen. lia.
Qed.
End rows.

Lemma extract_rows config l ids gids :
  layout_ok config l → length ids = length gids → Forall (λ x, 0 ≤ x < uint64_max) ids →
  hla_extract_block_addrs l ids gids =
    Ok (zip_with (λ id gid, cells l gid id
          (λ c, bool_decide (c / width l ∈ default ∅ (hl_group_pairs l !! gid)))) ids gids).
Proof.
  intros Hl Hlen Hids. unfold hla_extract_block_addrs, zlen. rewrite Hlen, Z.eqb_refl. simpl.
  rewrite (proj2 (as_uint64_Ok ids ids)) by done. simpl. clear Hids.
  revert gids Hlen. induction ids as [|id ids IH]; intros [|gid gids] Hlen; try done.
  simpl. rewrite (block_row_cells config l Hl). simpl. rewrite IH by (simpl in Hlen; lia). done.
Qed.

(** C28 A whole-block transfer and the layerwise transfers of the same block move
    the same pages.  The rows of [extract_block_addrs] all have one column per
    pair and page type; at the pair of any cacheable layer of the block's group a
    row has exactly the addresses that [extract_layer_addrs] gives for that layer,
    and a column of a pair at which the group has no such layer is null. *)
Theorem hla_rows_agree (config : KVCacheConfig) (kvcaches : list (string * kv_layer)) (l : HlaLayout)
    (ids gids : list Z) :
  strides_nonneg config → hla_build_layout config kvcaches = Ok l →
  length ids = length gids → Forall (λ x, 0 ≤ x < uint64_max) ids →
  ∃ rows, hla_extract_block_addrs l ids gids = Ok rows ∧ length rows = length ids ∧
  ∀ i id gid row, ids !! i = Some id → gids !! i = Some gid → rows !! i = Some row →
    zlen row = num_slots (hl_slots l) * width l ∧
    (∀ name, name ∈ (hl_anchors l).*1 → layer_name_to_group config !! name = Some gid →
       ∃ s, layer_name_to_slot (hl_slots l) !! name = Some s ∧ 0 ≤ s < num_slots (hl_slots l) ∧
         extract_layer_addrs config l name [id] =
           Ok [take (Z.to_nat (width l)) (drop (Z.to_nat (s * width l)) row)]) ∧
    (∀ c a, row !! c = Some a → a ≠ 0 → ∃ name, name ∈ (hl_anchors l).*1 ∧
       layer_name_to_group config !! name = Some gid ∧
       layer_name_to_slot (hl_slots l) !! name = Some (Z.of_nat c / width l)).
Proof.
  intros Hns Hb Hlen Hids. pose proof (build_layout_ok _ _ _ Hns Hb) as Hl.
  eexists. split; [by eapply extract_rows|]. split; [rewrite length_zip_with; lia|].
  intros i id gid row Hi Hg. rewrite lookup_zip_with, Hi, Hg. simpl. intros [= <-]. split_and!.
  - unfold zlen, cells. rewrite length_fmap, length_seqZ. pose proof (so_slots _ (lo_slots _ _ Hl)).
    assert (0 ≤ width l) by apply zlen_nonneg. nia.
  - intros name Hn Hgr. destruct (lo_anchored _ _ Hl _ Hn) as (_ & _ & s & _ & _ & Hs & _). exists s.
    pose proof (so_slot _ (lo_slots _ _ Hl) _ _ Hs) as Hr. split_and!; [done|lia|lia|].
    rewrite cells_pair; [|done|].
    + unfold extract_layer_addrs. destruct (od_get name (hl_anchors l)) eqn:E.
      * rewrite (proj2 (map_get_Ok _ _ _) Hs), (proj2 (map_get_Ok _ _ _) Hgr). cbn [mbind outcome_bind].
        rewrite (proj2 (as_uint64_Ok [id] [id])); [done|]. split; [done|].
        constructor; [|done]. by apply (Forall_lookup_1 _ _ _ _ Hids Hi).
      * by apply od_get_None in E.
    + intros c <-. apply bool_decide_eq_true. apply (lo_pairs _ _ Hl). by exists name.
  - intros c a [_ ->]%cells_lookup Ha. case_bool_decide as Hin; [|done].
    by apply (lo_pairs _ _ Hl) in Hin.
Qed.

Lemma concat_replicate_lookup {A} (n : nat) (l : list A) (c : nat) :
  (c < n * length l)%nat → concat (replicate n l) !! c = l !! (c mod length l)%nat.
Proof.
  revert c. induction n as [|n IH]; intros c Hc; simpl in *; [lia|].
  destruct (decide (c < length l)%nat) as [Hlt|Hge].
  - rewrite lookup_app_l by done. by rewrite Nat.mod_small.
  - rewrite lookup_app_r, IH by lia. f_equal.
    replace c with ((c - length l) + 1 * length l)%nat at 2 by lia.
    symmetry. apply Nat.Div0.mod_add.
Qed.

(** The page of a base, in the arrays that are registered. *)
Lemma base_registered config l t s b :
  layout_ok config l → pair_bases (hl_pages l) !! (t, s) = Some b →
  ∃ k page, page_types (hl_slots l) !! Z.to_nat t = Some page ∧ 0 < page ∧
    hl_base_ptrs l !! k = Some b ∧ hl_buffer_sizes l !! k = Some (page * kc_num_blocks config) ∧
    hl_block_strides l !! k = Some page ∧ 0 ≤ b < uint64_max.
Proof.
  intros Hl Hb. destruct (lo_bases _ _ Hl _ _ _ Hb) as (name & a & sg & _ & Ht & _ & _ & _ & Hpage).
  assert ((t, s) ∈ sorted_pairs (hl_pages l)) as Hin.
  { unfold sorted_pairs. rewrite merge_sort_Permutation. apply elem_of_elements, elem_of_dom. by exists b. }
  apply list_elem_of_lookup_1 in Hin as [k Hk].
  assert (page_of (hl_slots l) t = sg_block_stride sg) as Ep by (unfold page_of; by rewrite Hpage).
  assert (hl_base_ptrs l !! k = Some b) as Hp.
  { rewrite (lo_ptrs _ _ Hl), list_lookup_fmap, Hk. simpl. by rewrite Hb. }
  exists k, (sg_block_stride sg). split_and!; try done.
  - by apply (Forall_lookup_1 _ _ _ _ (lo_pages _ _ Hl) Hpage).
  - rewrite (lo_sizes _ _ Hl), list_lookup_fmap, Hk. simpl. by rewrite Ep.
  - rewrite (lo_strides _ _ Hl), list_lookup_fmap, Hk. simpl. by rewrite Ep.
  - apply (Forall_lookup_1 _ _ _ _ (lo_range _ _ Hl) Hp).
  - apply (Forall_lookup_1 _ _ _ _ (lo_range _ _ Hl) Hp).
Qed.

(** A filled column in terms of the registered arrays. *)
Definition in_region (config : KVCacheConfig) (l : HlaLayout) (c : nat) (id a : Z) : Prop :=
  ∃ k b page, hl_base_ptrs l !! k = Some b ∧ hl_buffer_sizes l !! k = Some (page * kc_num_blocks config) ∧
    hl_block_strides l !! k = Some page ∧ (direct_store_config l).1.1 !! c = Some page ∧ 0 < page ∧
    a = b + id * page ∧ a + page ≤ b + page * kc_num_blocks config.

Lemma cell_in_region config l gid id c :
  layout_ok config l → Forall2 (λ b n, b + n ≤ uint64_max) (hl_base_ptrs l) (hl_buffer_sizes l) →
  0 ≤ id < kc_num_blocks config → Z.of_nat c < num_slots (hl_slots l) * width l →
  (gid, Z.of_nat c mod width l) ∈ group_owns_type (hl_pages l) →
  is_Some (pair_bases (hl_pages l) !! (Z.of_nat c mod width l, Z.of_nat c / width l)) →
  in_region config l c id (cell l gid id (Z.of_nat c)).
Proof.
  intros Hl Hfit Hid Hc Hown [b Hb].
  destruct (base_registered _ _ _ _ _ Hl Hb) as (k & page & Hpage & Hpos & Hp & Hs & Hst & Hr).
  pose proof (Forall2_lookup_lr _ _ _ _ _ _ Hfit Hp Hs) as Htop. simpl in Htop.
  exists k, b, page. assert (0 < width l) as Hw.
  { assert (0 ≤ width l) by apply zlen_nonneg. pose proof (so_slots _ (lo_slots _ _ Hl)). nia. }
  assert (cell l gid id (Z.of_nat c) = b + id * page) as ->.
  { unfold cell, page_addr. rewrite decide_True by done. rewrite Hb. unfold page_of. rewrite Hpage. simpl.
    apply Z.mod_small. nia. }
  split_and!; try done; [|nia].
  - cbn [direct_store_config fst]. rewrite concat_replicate_lookup.
    + rewrite <- Hpage. unfold width, zlen. by rewrite <- Nat2Z.inj_mod, Nat2Z.id.
    + unfold width, zlen in Hc. pose proof (so_slots _ (lo_slots _ _ Hl)). nia.
Qed.

(** Every address of a whole-block transfer that is not null points at a page
    of a registered buffer: it is the buffer's base plus the block's number of
    strides, the page lies inside the buffer, its size is the one the store is
    configured with for that column, and the 64-bit arithmetic does not wrap
    around.  In particular pages of different blocks do not overlap.  And the page
    of every cacheable layer of the block's group is among them. *)
Theorem hla_pages_in_buffers (config : KVCacheConfig) (kvcaches : list (string * kv_layer)) (l : HlaLayout)
    (ids gids : list Z) (rows : list (list Z)) :
  strides_nonneg config → hla_build_layout config kvcaches = Ok l →
  Forall2 (λ b n, b + n ≤ uint64_max) (hl_base_ptrs l) (hl_buffer_sizes l) →
  kc_num_blocks config ≤ uint64_max → Forall (λ id, 0 ≤ id < kc_num_blocks config) ids →
  hla_extract_block_addrs l ids gids = Ok rows →
  ∀ i id gid row, ids !! i = Some id → gids !! i = Some gid → rows !! i = Some row →
    (∀ c a, row !! c = Some a → a ≠ 0 → in_region config l c id a) ∧
    (∀ name, name ∈ (hl_anchors l).*1 → layer_name_to_group config !! name = Some gid →
       ∃ s t a, layer_name_to_slot (hl_slots l) !! name = Some s ∧ layer_type (hl_slots l) !! name = Some t ∧
         row !! Z.to_nat (s * width l + t) = Some a ∧
         in_region config l (Z.to_nat (s * width l + t)) id a).
Proof.
  intros Hns Hb Hfit Hnb Hids Hrows i id gid row Hi Hg Hrow.
  pose proof (build_layout_ok _ _ _ Hns Hb) as Hl.
  assert (length ids = length gids) as Hlen.
  { unfold hla_extract_block_addrs in Hrows. destruct (negb _) eqn:E; [done|].
    apply negb_false_iff, Z.eqb_eq in E. unfold zlen in E. lia. }
  rewrite (extract_rows config) in Hrows; [|done|done|eapply Forall_impl; [exact Hids|simpl; lia]].
  injection Hrows as <-. rewrite lookup_zip_with, Hi, Hg in Hrow. injection Hrow as <-.
  pose proof (Forall_lookup_1 _ _ _ _ Hids Hi) as Hid. simpl in Hid. split.
  - intros c a [Hc ->]%cells_lookup. case_bool_decide as Hin; [|done]. intros Ha.
    unfold cell, page_addr in Ha. case_decide as Hown; [|done].
    destruct (pair_bases _ !! _) eqn:Eb; [|done]. by apply cell_in_region.
  - intros name Hn Hgr. destruct (lo_anchored _ _ Hl _ Hn) as (g & t & s & Hg' & Ht & Hs & Hown & Hbase).
    assert (g = gid) as -> by congruence. exists s, t.
    pose proof (so_slot _ (lo_slots _ _ Hl) _ _ Hs). pose proof (so_type _ (lo_slots _ _ Hl) _ _ Ht) as Hw.
    fold (width l) in Hw. set (c := Z.to_nat (s * width l + t)).
    assert (Z.of_nat c = s * width l + t) as Hc by (unfold c; nia).
    assert (Z.of_nat c / width l = s ∧ Z.of_nat c mod width l = t) as [Ed Em].
    { rewrite Hc, Z.add_comm, Z.div_add, Z.mod_add, Z.div_small, Z.mod_small; lia. }
    exists (cell l gid id (Z.of_nat c)). split_and!; [done|done| |].
    + apply cells_lookup. split; [nia|]. rewrite bool_decide_eq_true_2; [done|].
      apply (lo_pairs _ _ Hl). exists name. by rewrite Ed.
    + apply cell_in_region; try done; [nia|by rewrite Em|by rewrite Em, Ed].
Qed.

(** ** Example *)

(** Two attention layers and a state layer that shares the first one's buffer. *)
Definition ex_kv_config : KVCacheConfig :=
  mkKVCacheConfig
    [(LayerKVCacheSpec 16 FullAttentionSpec None None, ["attn0"; "attn1"]%string);
     (LayerKVCacheSpec 16 (MambaSpec "align") None None, ["ssm0"]%string)]
    [mkTensorDesc None (Some ["attn0"; "ssm0"]%string) None None (Some 64) (Some 256);
     mkTensorDesc None (Some ["attn1"]%string) None None (Some 64) (Some 256)] 4.

Definition ex_kv_caches : list (string * kv_layer) :=
  [("attn0"%string, KVTensor (mkTensor [4; 8; 4] [32; 4; 1] 2 4096));
   ("ssm0"%string, KVTuple [Some (mkTensor [4; 8] [32; 1] 2 4096); Some (mkTensor [4; 24] [32; 1] 2 4112)]);
   ("attn1"%string, KVTensor (mkTensor [4; 8; 4] [32; 4; 1] 2 8192))].

Definition ex_layout : HlaLayout :=
  match hla_build_layout ex_kv_config ex_kv_caches with
  | Ok l => l
  | Raise _ => mkHlaLayout slot_maps_init [] (mkPageMaps ∅ ∅) ∅ [] [] []
  end.

Lemma ex_layout_built : hla_build_layout ex_kv_config ex_kv_caches = Ok ex_layout.
Proof. vm_compute. done. Qed.

Lemma ex_strides : strides_nonneg ex_kv_config.
Proof. apply (bool_decide_unpack _). vm_compute. done. Qed.

Lemma hla_rows_agree_witness :
  hla_extract_block_addrs ex_layout [3; 1] [0; 1] = Ok [[4288; 8384]; [4160; 0]] ∧
  extract_layer_addrs ex_kv_config ex_layout "attn1" [3] = Ok [[8384]].
Proof.
  assert (hla_extract_block_addrs ex_layout [3; 1] [0; 1] = Ok [[4288; 8384]; [4160; 0]]) as E
    by (vm_compute; done).
  split; [done|].
  destruct (hla_rows_agree ex_kv_config ex_kv_caches ex_layout [3; 1] [0; 1] ex_strides ex_layout_built)
    as (rows & Hrows & _ & Hagree); [done|by repeat constructor|].
  rewrite E in Hrows. injection Hrows as <-.
  destruct (Hagree 0%nat 3 0 [4288; 8384] eq_refl eq_refl eq_refl) as (_ & Hname & _).
  destruct (Hname "attn1"%string) as (s & Hs & _ & Hx).
  - apply (bool_decide_unpack _). vm_compute. done.
  - vm_compute. done.
  - assert (s = 1) as -> by (assert (Some s = Some 1) by (rewrite <- Hs; vm_compute; done); congruence).
    exact Hx.
Defined.
