(* ===== verification/HlaWorker.v ===== *)
(** * Worker side of the hybrid connector, direct mode

    Model of the worker half of [UCMHybridLinearAttentionConnector]
    (src/ucm/integration/vllm/hla_connector.py).  Which blocks of a plan a rank
    transfers ([_scope_blocks]), the state of a step's transfers that the direct
    and the layerwise connector share, and the direct transfers: whole blocks,
    waited for where they are submitted.

    A method runs on the connector's state, its device, the rank consistency
    manager and the stores.  The methods inherited from [UCMDirectConnector] run
    on the part of the state they own. *)

From Stdlib Require Import ZArith Lia Ascii.
From stdpp Require Import base list gmap strings numbers fin_sets.
From S2P Require Import Prelude.
From S2P Require Import Store.
From S2P Require Import RankConsistency.
From S2P Require Import DirectScheduler.
From S2P Require Import DirectWorker.
From S2P Require Import HlaScheduler.
From S2P Require Import HlaLayout.
Local Open Scope Z_scope.

(** ** The blocks of a rank *)

(** Hashes for the manager, keys of this rank, KV blocks, groups. *)
Definition _scope_blocks (cfg : WorkerConfig) (ucm_ids : list bytes) (vllm_ids group_ids : list Z)
    (full_attn_count : Z) (is_dump : bool) : list bytes * list bytes * list Z * list Z :=
  let is_rank0 := tp_rank cfg mod tp_size cfg =? 0 in
  if negb (is_mla cfg) then
    (ucm_ids, if is_rank0 then ucm_ids else request_hasher cfg <$> ucm_ids, vllm_ids, group_ids)
  else
    let n := full_attn_count in
    let kda_ucm := py_slice_from n ucm_ids in
    let kda_scoped := if is_rank0 then kda_ucm else request_hasher cfg <$> kda_ucm in
    let rank := tp_rank cfg mod tp_size cfg in
    let start := n * rank / tp_size cfg in
    let stop := n * (rank + 1) / tp_size cfg in
    let cut := is_dump && negb (n =? 0) && (1 <? tp_size cfg) in
    let mla_ucm := if cut then py_slice start stop (py_slice_to n ucm_ids) else py_slice_to n ucm_ids in
    let mla_vllm := if cut then py_slice start stop (py_slice_to n vllm_ids) else py_slice_to n vllm_ids in
    let mla_groups := if cut then py_slice start stop (py_slice_to n group_ids) else py_slice_to n group_ids in
    (mla_ucm ++ kda_ucm, mla_ucm ++ kda_scoped,
     mla_vllm ++ py_slice_from n vllm_ids, mla_groups ++ py_slice_from n group_ids).

(** ** State *)

(** An element of [request_data]. *)
Record load_item := mkLoadItem {
  li_request_id : req_id;
  li_unscoped_ucm : list bytes;
  li_scoped_ucm : list bytes;
  li_scoped_vllm : list Z;
  li_scoped_groups : list Z;
}.

#[export] Instance load_item_eq_dec : EqDecision load_item.
Proof. solve_decision. Defined.

(** A (group, slot) pair. *)
Abbreviation pair_key := (Z * Z)%type.

(** What a step loads. *)
Record HlaLoads := mkHlaLoads {
  request_data : list load_item;
  load_tasks : list (pair_key * list (req_id * task));
  _load_bytes_by_pair : gmap pair_key Z;
  _failure_req_ids : gset string;
  _submitted_positions : gset Z;
  _waited_layers : gset string;
  _submitted_group_slots : gset pair_key;
  _waited_group_slots : gset pair_key;
  need_load : bool;
  _load_bytes_total : Z;
  _load_bytes_recorded : bool;
}.

(** The tuple [_dump_plan]. *)
Record DumpPlan := mkDumpPlan {
  dp_ucm_ids : list bytes;
  dp_vllm_ids : list Z;
  dp_group_ids : list Z;
  dp_request_ids : gset string;
  dp_block_ids_by_request : gmap string (gset string);
}.

(** What it dumps. *)
Record HlaDumps := mkHlaDumps {
  _dump_plan : option DumpPlan;
  _dump_tasks : list PendingDumpTask;
  _dumped_layers : gset string;
  _dumped_group_slots : gset pair_key;
  hla_is_save : bool;
  _save_bytes_total : Z;
}.

Record HlaWorker := mkHlaWorker {
  hw_worker : WorkerState;              (* of [UCMDirectConnector] *)
  hw_metadata : option HlaMetadata;     (* [_connector_metadata] *)
  hw_loads : HlaLoads;
  hw_dumps : HlaDumps;
}.

Definition HlaLoads_init : HlaLoads := mkHlaLoads [] [] ∅ ∅ ∅ ∅ ∅ ∅ false 0 false.
Definition HlaDumps_init : HlaDumps := mkHlaDumps None [] ∅ ∅ false 0.
Definition HlaWorker_init (mla : bool) : HlaWorker :=
  mkHlaWorker (WorkerState_init mla) None HlaLoads_init HlaDumps_init.

Definition set_hw_worker v (s : HlaWorker) := mkHlaWorker v (hw_metadata s) (hw_loads s) (hw_dumps s).
Definition set_hw_loads v (s : HlaWorker) := mkHlaWorker (hw_worker s) (hw_metadata s) v (hw_dumps s).
Definition set_hw_dumps v (s : HlaWorker) := mkHlaWorker (hw_worker s) (hw_metadata s) (hw_loads s) v.

(** Updates of the loads. *)
Definition add_item (i : load_item) (l : HlaLoads) : HlaLoads :=
  mkHlaLoads (request_data l ++ [i]) (load_tasks l) (_load_bytes_by_pair l) (_failure_req_ids l)
    (_submitted_positions l) (_waited_layers l) (_submitted_group_slots l) (_waited_group_slots l)
    true (_load_bytes_total l) (_load_bytes_recorded l).
Definition add_failure (id : req_id) (l : HlaLoads) : HlaLoads :=
  mkHlaLoads (request_data l) (load_tasks l) (_load_bytes_by_pair l) ({[id]} ∪ _failure_req_ids l)
    (_submitted_positions l) (_waited_layers l) (_submitted_group_slots l) (_waited_group_slots l)
    (need_load l) (_load_bytes_total l) (_load_bytes_recorded l).
Definition set_load_bytes (n : Z) (l : HlaLoads) : HlaLoads :=
  mkHlaLoads (request_data l) (load_tasks l) (_load_bytes_by_pair l) (_failure_req_ids l)
    (_submitted_positions l) (_waited_layers l) (_submitted_group_slots l) (_waited_group_slots l)
    (need_load l) n (_load_bytes_recorded l).
(** [load_tasks[key][id] = t] and [_load_bytes_by_pair[key] += n]; the latter
    alone where the former is done already. *)
Definition add_task (key : pair_key) (id : req_id) (t : task) (l : HlaLoads) : HlaLoads :=
  mkHlaLoads (request_data l)
    (od_set key (od_set id t (default [] (od_get key (load_tasks l)))) (load_tasks l))
    (_load_bytes_by_pair l) (_failure_req_ids l) (_submitted_positions l) (_waited_layers l)
    (_submitted_group_slots l) (_waited_group_slots l) (need_load l) (_load_bytes_total l)
    (_load_bytes_recorded l).
Definition add_pair_bytes (key : pair_key) (n : Z) (l : HlaLoads) : HlaLoads :=
  mkHlaLoads (request_data l) (load_tasks l)
    (<[key := default 0 (_load_bytes_by_pair l !! key) + n]> (_load_bytes_by_pair l))
    (_failure_req_ids l) (_submitted_positions l) (_waited_layers l)
    (_submitted_group_slots l) (_waited_group_slots l) (need_load l) (_load_bytes_total l)
    (_load_bytes_recorded l).
(** [load_tasks.pop(key)] and [_load_bytes_by_pair.pop(key)]. *)
Definition drop_tasks (key : pair_key) (l : HlaLoads) : HlaLoads :=
  mkHlaLoads (request_data l) (od_del key (load_tasks l)) (_load_bytes_by_pair l) (_failure_req_ids l)
    (_submitted_positions l) (_waited_layers l) (_submitted_group_slots l) (_waited_group_slots l)
    (need_load l) (_load_bytes_total l) (_load_bytes_recorded l).
Definition take_pair_bytes (key : pair_key) (l : HlaLoads) : HlaLoads :=
  mkHlaLoads (request_data l) (load_tasks l) (delete key (_load_bytes_by_pair l)) (_failure_req_ids l)
    (_submitted_positions l) (_waited_layers l) (_submitted_group_slots l) (_waited_group_slots l)
    (need_load l) (_load_bytes_total l + default 0 (_load_bytes_by_pair l !! key)) (_load_bytes_recorded l).
Definition add_submitted (pos : Z) (keys : gset pair_key) (l : HlaLoads) : HlaLoads :=
  mkHlaLoads (request_data l) (load_tasks l) (_load_bytes_by_pair l) (_failure_req_ids l)
    ({[pos]} ∪ _submitted_positions l) (_waited_layers l) (keys ∪ _submitted_group_slots l)
    (_waited_group_slots l) (need_load l) (_load_bytes_total l) (_load_bytes_recorded l).
Definition add_waited (names : gset string) (keys : gset pair_key) (l : HlaLoads) : HlaLoads :=
  mkHlaLoads (request_data l) (load_tasks l) (_load_bytes_by_pair l) (_failure_req_ids l)
    (_submitted_positions l) (names ∪ _waited_layers l) (_submitted_group_slots l)
    (keys ∪ _waited_group_slots l) (need_load l) (_load_bytes_total l) (_load_bytes_recorded l).
Definition set_recorded (l : HlaLoads) : HlaLoads :=
  mkHlaLoads (request_data l) (load_tasks l) (_load_bytes_by_pair l) (_failure_req_ids l)
    (_submitted_positions l) (_waited_layers l) (_submitted_group_slots l) (_waited_group_slots l)
    (need_load l) (_load_bytes_total l) true.
(** [_submitted_group_slots.clear()] and [_waited_group_slots.clear()]. *)
Definition clear_group_slots (l : HlaLoads) : HlaLoads :=
  mkHlaLoads (request_data l) (load_tasks l) (_load_bytes_by_pair l) (_failure_req_ids l)
    (_submitted_positions l) (_waited_layers l) ∅ ∅
    (need_load l) (_load_bytes_total l) (_load_bytes_recorded l).

(** Updates of the dumps. *)
Definition set_dump_plan p (d : HlaDumps) : HlaDumps :=
  mkHlaDumps p (_dump_tasks d) (_dumped_layers d) (_dumped_group_slots d) (hla_is_save d) (_save_bytes_total d).
Definition set_dump_tasks ts (d : HlaDumps) : HlaDumps :=
  mkHlaDumps (_dump_plan d) ts (_dumped_layers d) (_dumped_group_slots d) (hla_is_save d) (_save_bytes_total d).
Definition add_dumped (names : gset string) (keys : gset pair_key) (d : HlaDumps) : HlaDumps :=
  mkHlaDumps (_dump_plan d) (_dump_tasks d) (names ∪ _dumped_layers d) (keys ∪ _dumped_group_slots d)
    (hla_is_save d) (_save_bytes_total d).
Definition add_saved (n : Z) (d : HlaDumps) : HlaDumps :=
  mkHlaDumps (_dump_plan d) (_dump_tasks d) (_dumped_layers d) (_dumped_group_slots d) true
    (_save_bytes_total d + n).

(** What the configuration and [_register_common] fix. *)
Record HlaWorkerConfig := mkHlaWorkerConfig {
  hw_base : WorkerConfig;
  hw_kv : KVCacheConfig;
  hw_layout : HlaLayout;
  layer_order : list string;
}.

(** ** Registration *)

(** [s.split(".")[-1]] *)
Fixpoint last_part (acc s : string) : string :=
  match s with
  | EmptyString => acc
  | String c r => if Ascii.eqb c "."%char then last_part "" r else last_part (acc +:+ String c "") r
  end.

(** Layers in the order of the model: by index, then by name. *)
Definition layer_le (index : string → Z) (a b : string) : Prop :=
  index a < index b ∨ index a = index b ∧ String.leb a b = true.

#[export] Instance layer_le_dec index a b : Decision (layer_le index a b).
Proof. unfold layer_le. apply _. Defined.

Definition sorted_layers (index : string → Z) (l : HlaLayout) : list string :=
  sorting.merge_sort (layer_le index) (hl_anchors l).*1.

(** [_register_common], for tensors that need not be unpacked; [index] is the
    engine's [extract_layer_index], [layout_name] the name of its cache layout. *)
Definition _register_common (index : string → Z) (layout_name : string) (base : WorkerConfig)
    (kv : KVCacheConfig) (kv_caches : list (string * KVCacheLayout.kv_layer)) : outcome HlaWorkerConfig :=
  if bool_decide (String.prefix "B" (last_part "" layout_name) = true) then Raise ValueError
  else
    layout ← hla_build_layout kv kv_caches;
    let order := sorted_layers index layout in
    if bool_decide (order = []) then Raise RuntimeError
    else Ok (mkHlaWorkerConfig base kv layout order).

Section hla_worker.
Context {W D : Type} `{StoreWorld W} `{DeviceWorld D} `{PySetOrder}.
Variable cfg : HlaWorkerConfig.

Abbreviation state := (HlaWorker * D * (RankConsistencyManager * W))%type.
Abbreviation wcfg := (hw_base cfg).
Abbreviation layout := (hw_layout cfg).

Definition on_loads (f : HlaLoads → HlaLoads) : M state unit :=
  modify (λ s, (set_hw_loads (f (hw_loads s.1.1)) s.1.1, s.1.2, s.2)).
Definition on_dumps (f : HlaDumps → HlaDumps) : M state unit :=
  modify (λ s, (set_hw_dumps (f (hw_dumps s.1.1)) s.1.1, s.1.2, s.2)).
Definition on_base {A} (m : M (WorkerState * D * (RankConsistencyManager * W)) A) : M state A :=
  zoom (λ s, (hw_worker s.1.1, s.1.2, s.2))
    (λ t s, (set_hw_worker t.1.1 s.1.1, t.1.2, t.2)) m.
Definition on_rcm {A} (m : M (RankConsistencyManager * W) A) : M state A := on_base (on_manager m).

Definition hla_get_connector_metadata : M state HlaMetadata :=
  s ← get_state;
  match hw_metadata s.1.1 with Some md => mret md | None => raise AssertionError end.

(** ** Shared steps *)

Definition _mark_load_failed (metadata : HlaMetadata) (id : req_id) : M state unit :=
  match od_get id (hla_request_meta metadata) with
  | Some request => on_base (_record_load_error (hd_load_block_ids request).2)
  | None => mret tt
  end ;;
  on_loads (add_failure id) ;;
  on_base (worker_mark_failed id).

(** Whether the dumps of a step are under way. *)
Definition dumps_started (d : HlaDumps) : bool :=
  negb (bool_decide (_dump_tasks d = [])) || negb (bool_decide (_dumped_layers d = ∅)) ||
  negb (bool_decide (_dumped_group_slots d = ∅)) ||
  match _dump_plan d with Some _ => true | None => false end || hla_is_save d.

Definition _reset_transfer_state : M state unit :=
  on_loads (λ l, mkHlaLoads [] [] ∅ ∅ ∅ ∅ (_submitted_group_slots l) (_waited_group_slots l) false 0 false) ;;
  s ← get_state;
  if dumps_started (hw_dumps s.1.1) then mret tt
  else
    on_dumps (λ _, HlaDumps_init) ;;
    on_loads clear_group_slots.

Definition prepare_request (p : req_id * HLARequestDispatchMeta) : M state unit :=
  let '(id, request) := p in
  if bool_decide ((hd_load_block_ids request).1 = []) then mret tt
  else
    let '(_, scoped_ucm, scoped_vllm, scoped_groups) :=
      _scope_blocks wcfg (hd_load_block_ids request).1 (hd_load_block_ids request).2
        (load_group_ids request) (load_full_attn_count request) false in
    if bool_decide (scoped_ucm = []) then mret tt
    else on_loads (add_item (mkLoadItem id (hd_load_block_ids request).1 scoped_ucm scoped_vllm scoped_groups)).

Definition _prepare_load_plan (metadata : HlaMetadata) : M state unit :=
  for_each (hla_request_meta metadata) prepare_request.

(** One turn of the loop of [_ensure_dump_plan]. *)
Definition add_to_plan (plan : DumpPlan) (p : req_id * HLARequestDispatchMeta) : DumpPlan :=
  let '(id, request) := p in
  if bool_decide ((hd_dump_block_ids request).1 = []) then plan
  else
    let '(context_ucm, s_ucm, s_vllm, s_groups) :=
      _scope_blocks wcfg (hd_dump_block_ids request).1 (hd_dump_block_ids request).2
        (dump_group_ids request) (dump_full_attn_count request) true in
    let ids := {[id]} ∪ dp_request_ids plan in
    if bool_decide (s_ucm = [])
    then mkDumpPlan (dp_ucm_ids plan) (dp_vllm_ids plan) (dp_group_ids plan) ids (dp_block_ids_by_request plan)
    else mkDumpPlan (dp_ucm_ids plan ++ s_ucm) (dp_vllm_ids plan ++ s_vllm) (dp_group_ids plan ++ s_groups)
           ids (<[id := list_to_set context_ucm]> (dp_block_ids_by_request plan)).

Definition hla_dump_plan (metadata : HlaMetadata) : DumpPlan :=
  foldl add_to_plan (mkDumpPlan [] [] [] ∅ ∅) (hla_request_meta metadata).

Definition _ensure_dump_plan : M state DumpPlan :=
  s ← get_state;
  match _dump_plan (hw_dumps s.1.1) with
  | Some plan => mret plan
  | None =>
      metadata ← hla_get_connector_metadata;
      let plan := hla_dump_plan metadata in
      on_dumps (set_dump_plan (Some plan)) ;;
      mret plan
  end.

(** ** Direct loads *)

(** [sum(layout.direct_group_bytes.get(gid, 0) for gid in group_ids)] *)
Definition group_bytes (group_ids : list Z) : Z :=
  list_sum ((λ gid, default 0 (direct_group_bytes layout gid)) <$> group_ids).

(** A task, its request and its number of blocks. *)
Abbreviation request_task := (req_id * task * Z)%type.

(** The [try] body of the inner loop: one of the two parts of a request. *)
Definition submit_direct_part (i : load_item) (start stop : Z) (distribute_load : bool) : M state task :=
  ptrs ← lift_outcome (hla_extract_block_addrs layout (py_slice start stop (li_scoped_vllm i))
                         (py_slice start stop (li_scoped_groups i)));
  t ← on_rcm (submit_load (worker_store wcfg) {[li_request_id i := py_slice start stop (li_unscoped_ucm i)]}
                (py_slice start stop (li_scoped_ucm i)) (replicate (Z.to_nat (stop - start)) 0) ptrs
                distribute_load);
  on_loads (λ l, set_load_bytes (_load_bytes_total l +
    group_bytes (py_slice start stop (li_scoped_groups i))) l) ;;
  mret t.

(** The inner loop; a failure leaves it. *)
Fixpoint submit_direct_parts (metadata : HlaMetadata) (i : load_item) (parts : list (Z * Z * bool))
    (tasks : list request_task) : M state (list request_task) :=
  match parts with
  | [] => mret tasks
  | (start, stop, distribute_load) :: rest =>
      if start =? stop then submit_direct_parts metadata i rest tasks
      else
        submitted ← try_except (t ← submit_direct_part i start stop distribute_load; mret (Some t))
          (λ _, _mark_load_failed metadata (li_request_id i) ;; mret None);
        match submitted with
        | Some t => submit_direct_parts metadata i rest (tasks ++ [(li_request_id i, t, stop - start)])
        | None => mret tasks
        end
  end.

(** [metadata.request_meta[request_id].load_full_attn_count], of an MLA model. *)
Definition mla_count (metadata : HlaMetadata) (id : req_id) : M state Z :=
  if is_mla wcfg then
    match od_get id (hla_request_meta metadata) with
    | Some request => mret (load_full_attn_count request)
    | None => raise KeyError
    end
  else mret 0.

Fixpoint submit_direct_loads (metadata : HlaMetadata) (items : list load_item) (tasks : list request_task) :
    M state (list request_task) :=
  match items with
  | [] => mret tasks
  | i :: rest =>
      s ← get_state;
      if bool_decide (li_request_id i ∈ _failure_req_ids (hw_loads s.1.1))
      then submit_direct_loads metadata rest tasks
      else
        n ← mla_count metadata (li_request_id i);
        tasks' ← submit_direct_parts metadata i [(0, n, true); (n, zlen (li_scoped_ucm i), false)] tasks;
        submit_direct_loads metadata rest tasks'
  end.

(** The second loop; [num] is [num_loaded_block]. *)
Fixpoint wait_direct_loads (metadata : HlaMetadata) (tasks : list request_task) (num : Z) : M state Z :=
  match tasks with
  | [] => mret num
  | (id, t, n_blocks) :: rest =>
      num' ← try_except (on_rcm (wait_load t None) ;; mret num)
               (λ _, _mark_load_failed metadata id ;; mret (num - n_blocks));
      wait_direct_loads metadata rest num'
  end.

(** Returns the number of requests and of blocks loaded, and the bytes. *)
Definition hla_start_load_kv : M state (option (Z * Z * Z)) :=
  metadata ← hla_get_connector_metadata;
  _reset_transfer_state ;;
  _prepare_load_plan metadata ;;
  s ← get_state;
  if negb (need_load (hw_loads s.1.1)) || bool_decide (layer_order cfg = []) then mret None
  else
    on_base (on_device synchronize) ;;
    tasks ← submit_direct_loads metadata (request_data (hw_loads s.1.1)) [];
    num ← wait_direct_loads metadata tasks (list_sum (snd <$> tasks));
    s ← get_state;
    on_loads (set_load_bytes 0) ;;
    mret (Some (Z.of_nat (size (list_to_set ((λ p : request_task, p.1.1) <$> tasks) ∖
                                  _failure_req_ids (hw_loads s.1.1) : gset string)),
                num, _load_bytes_total (hw_loads s.1.1))).

(** ** Direct dumps *)

Definition release_event (event_handle : Z) : M state unit :=
  if enable_event_sync wcfg && negb (event_handle =? 0)
  then on_base (on_device (destroy_event_handle event_handle)) else mret tt.

(** The first [try] statement, from the addresses on; [None] is its early
    return.  A failure before the event handle is assigned leaves nothing to
    release. *)
Definition submit_direct_dump (plan : DumpPlan) : M state (option (task * Z)) :=
  let abandon := on_rcm (finish_dump (dom (dp_block_ids_by_request plan))) ;; mret None in
  match hla_extract_block_addrs layout (dp_vllm_ids plan) (dp_group_ids plan) with
  | Raise _ => abandon
  | Ok ptrs =>
      handle ← try_except (h ← on_base (_get_dump_event_handle wcfg); mret (Some h)) (λ _, mret None);
      match handle with
      | None => abandon
      | Some h =>
          try_except
            (t ← on_rcm (submit_dump (worker_store wcfg) (dp_block_ids_by_request plan) (dp_ucm_ids plan)
                   (replicate (length (dp_ucm_ids plan)) 0) ptrs h);
             mret (Some (t, h)))
            (λ _, release_event h ;; abandon)
      end
  end.

(** The body of [wait_for_save]: the bytes saved, if it got to the end. *)
Definition save_direct : M state (option Z) :=
  plan ← _ensure_dump_plan;
  if bool_decide (dp_ucm_ids plan = []) then mret None
  else
    submitted ← submit_direct_dump plan;
    match submitted with
    | None => mret None
    | Some (t, h) =>
        waited ← try_finally
          (try_except (on_rcm (wait_dump t) ;; mret true)
             (λ _, on_rcm (finish_dump (dom (dp_block_ids_by_request plan))) ;; mret false))
          (release_event h);
        if waited : bool then
          on_rcm (finish_dump (dom (dp_block_ids_by_request plan))) ;;
          mret (Some (group_bytes (dp_group_ids plan)))
        else mret None
    end.

(** The [finally] clause. *)
Definition clear_dumps : M state unit :=
  on_dumps (λ d, mkHlaDumps None [] ∅ ∅ false (_save_bytes_total d)) ;;
  on_loads clear_group_slots.

Definition hla_wait_for_save : M state (option Z) :=
  s ← get_state;
  match hw_metadata s.1.1 with
  | None => on_dumps (set_dump_plan None) ;; mret None
  | Some _ => try_finally save_direct clear_dumps
  end.
End hla_worker.
