(* ===== verification/HlaLayerWise.v ===== *)
(** * The hybrid connector, layerwise mode

    Model of [UCMHybridLinearAttentionLayerWiseConnector]
    (src/ucm/integration/vllm/hla_connector.py).  A block has one shard per slot;
    the layers of a group at the same slot share it.  Loads are pipelined two
    layers ahead; a layer is dumped when it is computed, except those at the last
    slot, whose shard commits the block: they are dumped by one task at the end
    of the step. *)

From Stdlib Require Import ZArith Lia.
From stdpp Require Import base list gmap strings numbers fin_sets sorting.
From S2P Require Import Prelude.
From S2P Require Import Store.
From S2P Require Import RankConsistency.
From S2P Require Import DirectScheduler.
From S2P Require Import DirectWorker.
From S2P Require Import KVCacheLayout.
From S2P Require Import HlaScheduler.
From S2P Require Import HlaLayout.
From S2P Require Import HlaWorker.
Local Open Scope Z_scope.

(** [destroy_event_handles()] of src/ucm/integration/vllm/device.py: drops all. *)
Class DeviceReset (D : Type) := destroy_event_handles : M D unit.

Class DeviceResetSpec (D : Type) `{DeviceSpec D} `{DeviceReset D} := {
  destroy_event_handles_ok d : ∃ d', destroy_event_handles d = (d', Ok tt) ∧ events d' = ∅;
}.

(** ** Registration *)

(** What [register_kv_caches] adds. *)
Record HlaLayerConfig := mkHlaLayerConfig {
  hlw_cfg : HlaWorkerConfig;
  _max_slot : Z;
  _deferred_dump_layers : gset string;
  _group_commit_layer : gmap Z string;
}.

(** The layers at the last slot. *)
Definition deferred_layers (cfg : HlaWorkerConfig) (max_slot : Z) : outcome (list string) :=
  let slots := layer_name_to_slot (hl_slots (hw_layout cfg)) in
  flagged ← map_outcome (λ name, s ← map_get slots name; Ok (name, s)) (layer_order cfg);
  Ok (base.filter (λ p : string * Z, p.2 = max_slot) flagged).*1.

(** The loop over the deferred layers: of each group the one with the highest
    index. *)
Fixpoint commit_layers (index : string → Z) (kv : KVCacheConfig) (names : list string) (acc : gmap Z string) :
    outcome (gmap Z string) :=
  match names with
  | [] => Ok acc
  | name :: rest =>
      gid ← map_get (layer_name_to_group kv) name;
      commit_layers index kv rest
        (match acc !! gid with
         | None => <[gid := name]> acc
         | Some existing => if index existing <? index name then <[gid := name]> acc else acc
         end)
  end.

Definition hlw_register_kv_caches `{PySetOrder} (index : string → Z) (layout_name : string)
    (base : WorkerConfig) (kv : KVCacheConfig) (kv_caches : list (string * kv_layer)) :
    outcome HlaLayerConfig :=
  cfg ← _register_common index layout_name base kv kv_caches;
  let max_slot := num_slots (hl_slots (hw_layout cfg)) - 1 in
  names ← deferred_layers cfg max_slot;
  commits ← commit_layers index kv (set_iter (list_to_set names)) ∅;
  Ok (mkHlaLayerConfig cfg max_slot (list_to_set names) commits).

(** ** Selecting the blocks of a group *)

(** [[i for i, group_id in enumerate(group_ids) if group_id == gid]] *)
Definition selected (gid : Z) (group_ids : list Z) : list Z :=
  (imap (λ i g, (Z.of_nat i, g)) group_ids ≫= λ p : Z * Z, if p.2 =? gid then [p.1] else []).

(** [[l[i] for i in idx]] *)
Definition pick {A} (l : list A) (idx : list Z) : outcome (list A) := map_outcome (list_index l) idx.

(** [addrs[idx] = rows] *)
Fixpoint set_rows (addrs : list (list Z)) (idx : list Z) (rows : list (list Z)) : outcome (list (list Z)) :=
  match idx, rows with
  | i :: idx', row :: rows' =>
      if i <? zlen addrs then set_rows (<[Z.to_nat i := row]> addrs) idx' rows' else Raise IndexError
  | _, _ => Ok addrs
  end.

(** [np.asarray(l, dtype=np.int64)] *)
Definition as_int64 (l : list Z) : outcome (list Z) :=
  if forallb (λ x, (- 2 ^ 63 <=? x) && (x <? 2 ^ 63)) l then Ok l else Raise OverflowError.

(** [np.unique(l)] *)
Definition np_unique (l : list Z) : list Z := merge_sort Z.le (remove_dups l).

Section hla_layerwise.
Context {W D : Type} `{StoreWorld W} `{DeviceWorld D} `{DeviceReset D} `{PySetOrder}.
Variable cfg : HlaLayerConfig.

Abbreviation state := (HlaWorker * D * (RankConsistencyManager * W))%type.
Abbreviation hcfg := (hlw_cfg cfg).
Abbreviation wcfg := (hw_base hcfg).
Abbreviation kv := (hw_kv hcfg).
Abbreviation layout := (hw_layout hcfg).

(** [(self.layer_to_group[name], self.layer_to_slot[name])] *)
Definition key_of (name : string) : outcome pair_key :=
  gid ← map_get (layer_name_to_group kv) name;
  slot ← map_get (layer_name_to_slot (hl_slots layout)) name;
  Ok (gid, slot).

(** [self.layer_pos.get(name)] *)
Definition layer_pos (name : string) : option Z :=
  (λ p, Z.of_nat p.1) <$> list_find (λ n, n = name) (layer_order hcfg).

(** [except Exception: log]. *)
Definition ignore_failure (m : M state unit) : M state unit := try_except m (λ _, mret tt).

(** ** Loads *)

(** [self.is_mla and not is_mamba_align_kv_cache_spec(...)] *)
Definition distribute_group (gid : Z) : outcome bool :=
  if is_mla wcfg then
    group ← list_index (kc_groups kv) gid;
    align ← is_mamba_align_kv_cache_spec group.1;
    Ok (negb align)
  else Ok false.

(** The loop over [request_data], for one request. *)
Definition submit_request_layer (metadata : HlaMetadata) (name : string) (key : pair_key) (i : load_item) :
    M state unit :=
  s ← get_state;
  if bool_decide (li_request_id i ∈ _failure_req_ids (hw_loads s.1.1)) then mret tt
  else
    let sel := selected key.1 (li_scoped_groups i) in
    if bool_decide (sel = []) then mret tt
    else
      sel_vllm ← lift_outcome (pick (li_scoped_vllm i) sel);
      sel_scoped ← lift_outcome (pick (li_scoped_ucm i) sel);
      sel_unscoped ← lift_outcome (pick (li_unscoped_ucm i) sel);
      try_except
        (ptrs ← lift_outcome (extract_layer_addrs kv layout name sel_vllm);
         distribute ← lift_outcome (distribute_group key.1);
         t ← on_rcm (submit_load (worker_store wcfg) {[li_request_id i := sel_unscoped]} sel_scoped
               (replicate (length sel_scoped) key.2) ptrs distribute);
         on_loads (add_task key (li_request_id i) t) ;;
         bytes ← lift_outcome (layer_column_bytes kv layout name);
         on_loads (add_pair_bytes key (zlen sel_scoped * bytes)))
        (λ _, _mark_load_failed metadata (li_request_id i)).

Definition _submit_layer_load (pos : Z) : M state unit :=
  s ← get_state;
  if (pos <? 0) || (zlen (layer_order hcfg) <=? pos) ||
     bool_decide (pos ∈ _submitted_positions (hw_loads s.1.1)) then mret tt
  else
    name ← lift_outcome (list_index (layer_order hcfg) pos);
    key ← lift_outcome (key_of name);
    if bool_decide (key ∈ _submitted_group_slots (hw_loads s.1.1)) then on_loads (add_submitted pos ∅)
    else
      metadata ← hla_get_connector_metadata;
      for_each (request_data (hw_loads s.1.1)) (submit_request_layer metadata name key) ;;
      on_loads (add_submitted pos {[key]}).

Definition wait_pair_task (metadata : HlaMetadata) (p : req_id * task) : M state unit :=
  try_except (on_rcm (wait_load p.2 None)) (λ _, _mark_load_failed metadata p.1).

Definition _wait_layer_load_pair (key : pair_key) : M state unit :=
  metadata ← hla_get_connector_metadata;
  s ← get_state;
  on_loads (drop_tasks key) ;;
  for_each (default [] (od_get key (load_tasks (hw_loads s.1.1)))) (wait_pair_task metadata) ;;
  on_loads (take_pair_bytes key).

(** Returns what is added to [load_bytes_total]. *)
Definition _record_load_bytes : M state (option Z) :=
  s ← get_state;
  if _load_bytes_recorded (hw_loads s.1.1) then mret None
  else
    on_loads set_recorded ;;
    mret (if 0 <? _load_bytes_total (hw_loads s.1.1) then Some (_load_bytes_total (hw_loads s.1.1)) else None).

Definition hlw_start_load_kv : M state unit :=
  metadata ← hla_get_connector_metadata;
  _reset_transfer_state ;;
  _prepare_load_plan hcfg metadata ;;
  s ← get_state;
  if negb (need_load (hw_loads s.1.1)) || bool_decide (layer_order hcfg = []) then mret tt
  else
    on_base (on_device synchronize) ;;
    _submit_layer_load 0 ;;
    _submit_layer_load 1.

Definition hlw_wait_for_layer_load (layer_name : string) : M state (option Z) :=
  s ← get_state;
  match hw_metadata s.1.1, layer_pos layer_name with
  | None, _ | _, None => mret None
  | Some _, Some pos =>
      if negb (need_load (hw_loads s.1.1)) ||
         bool_decide (layer_name ∈ _waited_layers (hw_loads s.1.1)) then mret None
      else
        on_loads (add_waited {[layer_name]} ∅) ;;
        key ← lift_outcome (key_of layer_name);
        recorded ← (if bool_decide (key ∈ _waited_group_slots (hw_loads s.1.1)) then mret None
                    else
                      on_loads (add_waited ∅ {[key]}) ;;
                      _wait_layer_load_pair key ;;
                      if pos =? zlen (layer_order hcfg) - 1 then _record_load_bytes else mret None);
        _submit_layer_load (pos + 1) ;;
        _submit_layer_load (pos + 2) ;;
        mret recorded
  end.

(** ** Dumps *)

(** Submitting a task and keeping it; the event handle is taken first. *)
Definition submit_pending_dump (plan : DumpPlan) (ucm_ids : list bytes) (slot : Z) (ptrs : list (list Z))
    : M state unit :=
  h ← on_base (_get_dump_event_handle wcfg);
  t ← on_rcm (submit_dump (worker_store wcfg) (dp_block_ids_by_request plan) ucm_ids
        (replicate (length ucm_ids) slot) ptrs h);
  on_dumps (λ d, set_dump_tasks (_dump_tasks d ++ [mkPendingDump t (dp_request_ids plan) h]) d).

Definition _submit_layer_dump (layer_name : string) : M state unit :=
  on_dumps (add_dumped {[layer_name]} ∅) ;;
  key ← lift_outcome (key_of layer_name);
  s ← get_state;
  if bool_decide (key ∈ _dumped_group_slots (hw_dumps s.1.1)) then mret tt
  else
    plan ← _ensure_dump_plan hcfg;
    let sel := selected key.1 (dp_group_ids plan) in
    if bool_decide (dp_ucm_ids plan = []) || bool_decide (sel = [])
    then on_dumps (add_dumped ∅ {[key]})
    else
      sel_vllm ← lift_outcome (pick (dp_vllm_ids plan) sel);
      sel_ucm ← lift_outcome (pick (dp_ucm_ids plan) sel);
      ignore_failure
        (ptrs ← lift_outcome (extract_layer_addrs kv layout layer_name sel_vllm);
         submit_pending_dump plan sel_ucm key.2 ptrs ;;
         bytes ← lift_outcome (layer_column_bytes kv layout layer_name);
         on_dumps (add_saved (zlen sel_ucm * bytes)) ;;
         on_dumps (add_dumped ∅ {[key]})).

(** The rows of the commit: those of the commit layer for the groups that have
    one, null for the others; and their bytes. *)
Fixpoint commit_rows (vllm_ids group_ids gids : list Z) (addrs : list (list Z)) (bytes : Z) :
    outcome (list (list Z) * Z) :=
  match gids with
  | [] => Ok (addrs, bytes)
  | gid :: rest =>
      match _group_commit_layer cfg !! gid with
      | None => commit_rows vllm_ids group_ids rest addrs bytes
      | Some layer =>
          let sel := selected gid group_ids in
          sel_vllm ← pick vllm_ids sel;
          rows ← extract_layer_addrs kv layout layer sel_vllm;
          addrs' ← set_rows addrs sel rows;
          n ← layer_column_bytes kv layout layer;
          commit_rows vllm_ids group_ids rest addrs' (bytes + zlen sel * n)
      end
  end.

Definition commit_addrs (plan : DumpPlan) : outcome (list (list Z) * Z) :=
  group_ids ← as_int64 (dp_group_ids plan);
  commit_rows (dp_vllm_ids plan) group_ids (np_unique group_ids)
    (replicate (length (dp_vllm_ids plan)) (replicate (Z.to_nat (width layout)) 0)) 0.

Definition _submit_commit_dump : M state unit :=
  s ← get_state;
  match _dump_plan (hw_dumps s.1.1) with
  | None => mret tt
  | Some plan =>
      if bool_decide (dp_ucm_ids plan = []) then mret tt
      else
        rows ← lift_outcome (commit_addrs plan);
        ignore_failure
          (submit_pending_dump plan (dp_ucm_ids plan) (_max_slot cfg) rows.1 ;;
           on_dumps (add_saved rows.2))
  end.

(** The [while] loop of [_wait_dump_tasks]; [fuel] bounds the tests of its
    condition. *)
Fixpoint wait_dump_loop (fuel : nat) : M state unit :=
  match fuel with
  | O => raise RuntimeError
  | S fuel' =>
      s ← get_state;
      match _dump_tasks (hw_dumps s.1.1) with
      | [] => mret tt
      | p :: rest =>
          on_dumps (set_dump_tasks rest) ;;
          ignore_failure (on_rcm (wait_dump (pd_task p))) ;;
          wait_dump_loop fuel'
      end
  end.

Definition _wait_dump_tasks : M state unit :=
  s ← get_state;
  wait_dump_loop (S (length (_dump_tasks (hw_dumps s.1.1)))).

Definition hlw_save_kv_layer (layer_name : string) : M state unit :=
  s ← get_state;
  match hw_metadata s.1.1 with
  | None => mret tt
  | Some _ =>
      if bool_decide (layer_name ∈ _dumped_layers (hw_dumps s.1.1)) then mret tt
      else if bool_decide (layer_name ∈ _deferred_dump_layers cfg) then
        on_dumps (add_dumped {[layer_name]} ∅) ;;
        key ← lift_outcome (key_of layer_name);
        on_dumps (add_dumped ∅ {[key]})
      else if bool_decide (layer_pos layer_name = None) then mret tt
      else _submit_layer_dump layer_name
  end.

(** The catch-up loop of [wait_for_save], for one layer. *)
Definition catch_up (layer_name : string) : M state unit :=
  s ← get_state;
  if bool_decide (layer_name ∈ _dumped_layers (hw_dumps s.1.1)) then mret tt
  else if bool_decide (layer_name ∈ _deferred_dump_layers cfg)
  then on_dumps (add_dumped {[layer_name]} ∅)
  else _submit_layer_dump layer_name.

(** Returns what is added to [load_bytes_total] and to [save_bytes_total]. *)
Definition hlw_wait_for_save : M state (option Z * option Z) :=
  s ← get_state;
  match hw_metadata s.1.1 with
  | None => mret tt
  | Some _ => _ensure_dump_plan hcfg ;; for_each (layer_order hcfg) catch_up
  end ;;
  _submit_commit_dump ;;
  _wait_dump_tasks ;;
  loaded ← _record_load_bytes;
  s ← get_state;
  let d := hw_dumps s.1.1 in
  if negb (hla_is_save d) then
    on_dumps (λ d, mkHlaDumps None [] ∅ ∅ (hla_is_save d) (_save_bytes_total d)) ;;
    on_loads clear_group_slots ;;
    mret (loaded, None)
  else
    on_rcm (finish_dump (match _dump_plan d with Some plan => dp_request_ids plan | None => ∅ end)) ;;
    on_dumps (λ d, mkHlaDumps None [] ∅ ∅ false
      (if 0 <? _save_bytes_total d then 0 else _save_bytes_total d)) ;;
    on_loads clear_group_slots ;;
    (if enable_event_sync wcfg then on_base (on_device destroy_event_handles) else mret tt) ;;
    mret (loaded, if 0 <? _save_bytes_total d then Some (_save_bytes_total d) else None).
End hla_layerwise.
