(* ===== verification/HlaTransfers.v ===== *)
(** * The hybrid worker: direct transfers are correct

    The ranks together dump what each of them will load, and a direct load either
    completes for a request or is reported.  What was submitted and waited for is
    read off the log of the stores. *)

From Stdlib Require Import ZArith Lia List.
From stdpp Require Import base list gmap strings numbers fin_sets.
From S2P Require Import Prelude.
From S2P Require Import Store.
From S2P Require Import RankConsistency.
From S2P Require Import StoreLog.
From S2P Require Import DirectScheduler.
From S2P Require Import DirectWorker.
From S2P Require Import WorkerDumps.
From S2P Require Import WorkerLoads.
From S2P Require Import HlaScheduler.
From S2P Require Import HlaLayout.
From S2P Require Import HlaLayoutFacts.
From S2P Require Import HlaWorker.
Local Open Scope Z_scope.

(** ** The blocks of a rank *)

(** Slices between increasing bounds put together. *)
Lemma slices_concat {A} (f : Z → Z) (l : list A) (k : nat) :
  f 0 = 0 → (∀ i, 0 ≤ i → f i ≤ f (i + 1)) →
  concat ((λ i, py_slice (f i) (f (i + 1)) l) <$> seqZ 0 (Z.of_nat k)) = take (Z.to_nat (f (Z.of_nat k))) l.
Proof.
  intros Hf0 Hmono. induction k as [|k IH]; [change (Z.of_nat 0) with 0; by rewrite Hf0|].
  assert (∀ j : nat, 0 ≤ f (Z.of_nat j)) as Hpos.
  { induction j as [|j IHj]; [change (Z.of_nat 0) with 0; lia|]. rewrite Nat2Z.inj_succ, <- Z.add_1_r.
    specialize (Hmono (Z.of_nat j)). lia. }
  rewrite seqZ_S, Nat2Z.inj_succ, fmap_app, concat_app, IH. csimpl. rewrite app_nil_r.
  rewrite Z.add_0_l, <- Z.add_1_r. specialize (Hpos k). specialize (Hmono (Z.of_nat k) ltac:(lia)).
  rewrite py_slice_nonneg by lia.
  revert Hpos Hmono. generalize (f (Z.of_nat k)), (f (Z.of_nat k + 1)). intros a b Ha Hab.
  replace (Z.to_nat b) with (Z.to_nat a + Z.to_nat (b - a))%nat by lia.
  by rewrite take_take_drop.
Qed.

(** The key, KV block and group of each block of a rank, for a plan of rows. *)
Definition scoped_rows (cfg : WorkerConfig) (rows : list row) (n : Z) (is_dump : bool) : list row :=
  let '(_, keys, blocks, groups) :=
    _scope_blocks cfg (rows.*1.*1) (rows.*1.*2) (rows.*2) n is_dump in
  zip (zip keys blocks) groups.

(** The key a rank uses for a block that is not shared. *)
Definition own_key (cfg : WorkerConfig) (r : row) : row :=
  (if tp_rank cfg mod tp_size cfg =? 0 then r.1.1 else request_hasher cfg r.1.1, r.1.2, r.2).

Lemma zip_rows (f : bytes → bytes) (rows : list row) :
  zip (zip (f <$> rows.*1.*1) (rows.*1.*2)) (rows.*2) = (λ r : row, (f r.1.1, r.1.2, r.2)) <$> rows.
Proof. induction rows as [|[[k b] g] rows IH]; csimpl; [done|]. by rewrite IH. Qed.

Lemma zip_rows_id (rows : list row) : zip (zip (rows.*1.*1) (rows.*1.*2)) (rows.*2) = rows.
Proof. induction rows as [|[[k b] g] rows IH]; csimpl; [done|]. by rewrite IH. Qed.

Lemma zip_own cfg (rows : list row) :
  zip (zip (if tp_rank cfg mod tp_size cfg =? 0 then rows.*1.*1 else request_hasher cfg <$> rows.*1.*1)
         (rows.*1.*2)) (rows.*2) = own_key cfg <$> rows.
Proof.
  unfold own_key. destruct (_ =? 0); [|apply zip_rows].
  rewrite zip_rows_id. symmetry. rewrite <- (list_fmap_id rows) at 2. apply list_fmap_ext. intros i [[k b] g] _. done.
Qed.

(** [zip] of rows in two parts. *)
Lemma zip_rows_app (keys : list bytes) (a b : list row) :
  length keys = length b →
  zip (zip (a.*1.*1 ++ keys) (a.*1.*2 ++ b.*1.*2)) (a.*2 ++ b.*2) = a ++ zip (zip keys (b.*1.*2)) (b.*2).
Proof.
  intros Hl. rewrite !zip_with_app; rewrite ?length_zip_with, ?length_fmap; try lia.
  by rewrite zip_rows_id.
Qed.

Lemma py_slice_fmap {A B} (f : A → B) a b l : f <$> py_slice a b l = py_slice a b (f <$> l).
Proof. unfold py_slice. cbv zeta. unfold zlen. rewrite length_fmap. by rewrite fmap_take, fmap_drop. Qed.

Lemma scoped_rows_eq cfg rows n is_dump :
  0 ≤ n ≤ zlen rows →
  scoped_rows cfg rows n is_dump =
    if negb (is_mla cfg) then own_key cfg <$> rows
    else
      (if is_dump && negb (n =? 0) && (1 <? tp_size cfg)
       then let rank := tp_rank cfg mod tp_size cfg in
            py_slice (n * rank / tp_size cfg) (n * (rank + 1) / tp_size cfg) (take (Z.to_nat n) rows)
       else take (Z.to_nat n) rows) ++ (own_key cfg <$> drop (Z.to_nat n) rows).
Proof.
  intros Hn. unfold scoped_rows, _scope_blocks. destruct (is_mla cfg); simpl; [|apply zip_own].
  rewrite !py_slice_from_nonneg, !py_slice_to_nonneg by lia.
  rewrite <- !fmap_take, <- !fmap_drop.
  set (cut := if is_dump && _ && _ then _ else take (Z.to_nat n) rows).
  assert (∀ B (f : list row → list B), (∀ a b l, f (py_slice a b l) = py_slice a b (f l)) →
    (if is_dump && negb (n =? 0) && (1 <? tp_size cfg)
     then py_slice (n * (tp_rank cfg mod tp_size cfg) / tp_size cfg)
            (n * (tp_rank cfg mod tp_size cfg + 1) / tp_size cfg) (f (take (Z.to_nat n) rows))
     else f (take (Z.to_nat n) rows)) = f cut) as Hcut.
  { intros B f Hf. unfold cut. destruct (_ && _); [by rewrite Hf|done]. }
  rewrite (Hcut _ (λ l, l.*1.*1)), (Hcut _ (λ l, l.*1.*2)), (Hcut _ (λ l, l.*2))
    by (intros; by rewrite !py_slice_fmap).
  rewrite zip_rows_app; [by rewrite zip_own|]. destruct (tp_rank cfg mod tp_size cfg =? 0); by rewrite !length_fmap.
Qed.

(** The TP ranks of a deployment share the dump of a plan so that each of them
    can load its part again.  Every row (key, KV block, group) that some rank would
    load of a plan is dumped by some rank, with the same key.  Where the full
    attention blocks are replicated (MLA), the slices of the ranks put together in
    order are exactly these blocks, none dumped twice; every rank loads all of
    them, and both dumps and loads all state blocks under its own key. *)
Theorem hla_ranks_cover (cfg : WorkerConfig) (rows : list row) (n : Z) :
  0 < tp_size cfg → 0 ≤ n ≤ zlen rows →
  let ranks := seqZ 0 (tp_size cfg) in
  let load r := scoped_rows (with_rank cfg r) rows n false in
  let dump r := scoped_rows (with_rank cfg r) rows n true in
  (∀ r x, r ∈ ranks → x ∈ load r → ∃ r', r' ∈ ranks ∧ x ∈ dump r') ∧
  (is_mla cfg = true → 1 < tp_size cfg → ∃ share : Z → list row,
     concat (share <$> ranks) = take (Z.to_nat n) rows ∧
     ∀ r, r ∈ ranks →
       dump r = share r ++ (own_key (with_rank cfg r) <$> drop (Z.to_nat n) rows) ∧
       load r = take (Z.to_nat n) rows ++ (own_key (with_rank cfg r) <$> drop (Z.to_nat n) rows)).
Proof.
  intros Htp Hn ranks load dump.
  set (share r := py_slice (n * r / tp_size cfg) (n * (r + 1) / tp_size cfg) (take (Z.to_nat n) rows)).
  assert (concat (share <$> ranks) = take (Z.to_nat n) rows) as Hshare.
  { unfold ranks, share. rewrite <- (Z2Nat.id (tp_size cfg)) at 1 by lia.
    rewrite (slices_concat (λ r, n * r / tp_size cfg)).
    - rewrite Z2Nat.id, Z.div_mul by lia. rewrite take_take. f_equal. lia.
    - by rewrite Z.mul_0_r, Z.div_0_l by lia.
    - intros i Hi. apply Z.div_le_mono; nia. }
  assert (∀ r, r ∈ ranks → is_mla cfg = true → 1 < tp_size cfg →
    dump r = share r ++ (own_key (with_rank cfg r) <$> drop (Z.to_nat n) rows)) as Hdump.
  { intros r Hr%elem_of_seqZ Hm Ht. unfold dump. rewrite scoped_rows_eq by done. simpl.
    rewrite Hm, (Z.mod_small r), (proj2 (Z.ltb_lt _ _)), andb_true_r by lia. simpl. f_equal.
    destruct (Z.eqb_spec n 0) as [->|]; simpl; [|done].
    unfold share. by rewrite take_0. }
  assert (∀ r, r ∈ ranks → load r =
    if is_mla cfg then take (Z.to_nat n) rows ++ (own_key (with_rank cfg r) <$> drop (Z.to_nat n) rows)
    else own_key (with_rank cfg r) <$> rows) as Hload.
  { intros r _. unfold load. rewrite scoped_rows_eq by done. simpl. by destruct (is_mla cfg). }
  split.
  - intros r x Hr. rewrite Hload by done. destruct (is_mla cfg) eqn:Hm.
    + destruct (decide (1 < tp_size cfg)) as [Ht|Ht].
      * intros [Hx|Hx]%elem_of_app.
        -- rewrite <- Hshare in Hx. apply list_elem_of_In, in_concat in Hx as (l & Hl%list_elem_of_In & Hx%list_elem_of_In).
           apply list_elem_of_fmap in Hl as (r' & -> & Hr'). exists r'. split; [done|].
           rewrite Hdump by done. apply elem_of_app. by left.
        -- exists r. split; [done|]. rewrite Hdump by done. apply elem_of_app. by right.
      * intros Hx. exists r. split; [done|]. unfold dump. rewrite scoped_rows_eq by done. simpl.
        rewrite Hm, (proj2 (Z.ltb_ge _ _)), andb_false_r by lia. done.
    + intros Hx. exists r. split; [done|]. unfold dump. rewrite scoped_rows_eq by done. simpl. by rewrite Hm.
  - intros Hm Ht. exists share. split; [done|]. intros r Hr. rewrite Hload, Hm by done. auto.
Qed.

(** Rank 0 of two with replicated attention blocks; hashing marks the rank. *)
Definition ex_mla_worker : WorkerConfig :=
  mkWorkerConfig 0 2 true true true 8 0 (λ b, String.append "1:" b) (λ _, Ok []).

(** ** Runs *)

Lemma set_hw_worker_id s : set_hw_worker (hw_worker s) s = s.
Proof. by destruct s. Qed.
Lemma set_hw_loads_id s : set_hw_loads (hw_loads s) s = s.
Proof. by destruct s. Qed.

Section loads.
Context {W D : Type} `{StoreWorld W} `{DeviceWorld D} `{PySetOrder}.
Variable cfg : HlaWorkerConfig.

Abbreviation state := (HlaWorker * D * (RankConsistencyManager * Logged W))%type.
Abbreviation wcfg := (hw_base cfg).
Abbreviation store := (worker_store wcfg).
Abbreviation entry := (req_id * HLARequestDispatchMeta)%type.

Definition failures (st : state) : gset string := _failure_req_ids (hw_loads st.1.1).

(** A run that logs [es] and keeps the plan of the step and its dumps. *)
Record hruns (st st' : state) (es : list store_event) : Prop := {
  hr_log : log st'.2.2 = log st.2.2 ++ es;
  hr_at : loads_at store st.2.1 → loads_at store st'.2.1;
  hr_metadata : hw_metadata st'.1.1 = hw_metadata st.1.1;
  hr_dumps : hw_dumps st'.1.1 = hw_dumps st.1.1;
  hr_data : request_data (hw_loads st'.1.1) = request_data (hw_loads st.1.1);
  hr_need : need_load (hw_loads st'.1.1) = need_load (hw_loads st.1.1);
}.

Lemma hruns_same st st' :
  st'.2 = st.2 → hw_metadata st'.1.1 = hw_metadata st.1.1 → hw_dumps st'.1.1 = hw_dumps st.1.1 →
  request_data (hw_loads st'.1.1) = request_data (hw_loads st.1.1) →
  need_load (hw_loads st'.1.1) = need_load (hw_loads st.1.1) → hruns st st' [].
Proof. intros E. split; rewrite ?E; try done. by rewrite app_nil_r. Qed.

Lemma hruns_trans st st1 st' es es' : hruns st st1 es → hruns st1 st' es' → hruns st st' (es ++ es').
Proof.
  intros [E1 A1 M1 D1 R1 N1] [E2 A2 M2 D2 R2 N2].
  split; [by rewrite E2, E1, app_assoc|auto|congruence..].
Qed.

(** The reports changed by the failures [F]: the requests, and the KV blocks
    they were to load. *)
Definition hreports (F : gset string) (md : HlaMetadata) (s s' : HlaWorker) : Prop :=
  load_failed_reqs (_connector_worker_meta (hw_worker s')) =
    load_failed_reqs (_connector_worker_meta (hw_worker s)) ∪ F ∧
  (∀ b, b ∈ _invalid_block_ids (hw_worker s') ↔ b ∈ _invalid_block_ids (hw_worker s) ∨
     ∃ p, p ∈ hla_request_meta md ∧ p.1 ∈ F ∧ b ∈ (hd_load_block_ids p.2).2).

Lemma hreports_refl md s s' : hw_worker s' = hw_worker s → hreports ∅ md s s'.
Proof. intros E. unfold hreports. rewrite E. split; [set_solver|]. intros b. set_solver. Qed.

Lemma hreports_trans F1 F2 md s s1 s' :
  hreports F1 md s s1 → hreports F2 md s1 s' → hreports (F1 ∪ F2) md s s'.
Proof.
  intros [E1 I1] [E2 I2]. split; [rewrite E2, E1; set_solver|].
  intros b. rewrite I2, I1. setoid_rewrite elem_of_union. naive_solver.
Qed.

(** A step that fails the requests [F] of [ids] and reports them. *)
Record hfails (md : HlaMetadata) (ids : list req_id) (F : gset string) (st st' : state) : Prop := {
  hf_failures : failures st' = F ∪ failures st;
  hf_ids id : id ∈ F → id ∈ ids;
  hf_reports : hreports F md st.1.1 st'.1.1;
}.

Lemma hfails_none md ids st st' :
  hw_worker st'.1.1 = hw_worker st.1.1 → failures st' = failures st → hfails md ids ∅ st st'.
Proof.
  intros Ew Ef. split; [by rewrite Ef, union_empty_l_L|by intros id ?%elem_of_empty|by apply hreports_refl].
Qed.

Lemma hfails_trans md ids1 ids2 F1 F2 st st1 st' :
  hfails md ids1 F1 st st1 → hfails md ids2 F2 st1 st' → hfails md (ids1 ++ ids2) (F1 ∪ F2) st st'.
Proof.
  intros [E1 I1 R1] [E2 I2 R2]. split; [rewrite E2, E1; set_solver| |by eapply hreports_trans].
  intros id. rewrite elem_of_union, elem_of_app. naive_solver.
Qed.

Lemma hfails_weaken md ids ids' F st st' :
  (∀ id, id ∈ ids → id ∈ ids') → hfails md ids F st st' → hfails md ids' F st st'.
Proof. intros Hsub [E I R]. split; auto. Qed.

(** What [_mark_load_failed] does. *)
Lemma mark_failed_spec md id (st : state) :
  NoDup (hla_request_meta md).*1 →
  ∃ w', _mark_load_failed md id st =
      ((mkHlaWorker w' (hw_metadata st.1.1) (add_failure id (hw_loads st.1.1)) (hw_dumps st.1.1),
        st.1.2, st.2), Ok tt) ∧
    hreports {[id]} md st.1.1
      (mkHlaWorker w' (hw_metadata st.1.1) (add_failure id (hw_loads st.1.1)) (hw_dumps st.1.1)).
Proof.
  intros Hnd. destruct st as [[s d] r]. simpl. unfold _mark_load_failed.
  destruct (od_get id (hla_request_meta md)) as [req|] eqn:E.
  - apply od_get_Some_elem in E as Hin. eexists. split; [reflexivity|]. split; simpl; [apply union_comm_L|].
    intros b. rewrite elem_of_union, elem_of_list_to_set. split; (intros [?|Hb]; [by left|right]).
    + exists (id, req). split_and!; [done|by apply elem_of_singleton|done].
    + destruct Hb as ([id' req'] & Hp & Hi & Hb). apply elem_of_singleton in Hi. simpl in Hi. subst id'.
      assert (req' = req) as ->; [|done]. apply (od_get_elem _ _ _ Hnd) in Hp. congruence.
  - apply od_get_None in E. eexists. split; [reflexivity|]. split; simpl; [apply union_comm_L|].
    intros b. split; [by left|]. intros [?|(p & Hp & Hi & _)]; [done|].
    apply elem_of_singleton in Hi. destruct E. apply list_elem_of_fmap. eauto.
Qed.

(** Waiting for a load on the manager. *)
Lemma hla_wait_run t (st : state) :
  loads_at store st.2.1 →
  ∃ r' o es, on_rcm (wait_load t None) st = ((st.1, r'), o) ∧ hruns st (st.1, r') es ∧
    (o = Ok tt → EvWait store t (Ok tt) ∈ es).
Proof.
  intros Hl. destruct st as [[s d] r]. unfold on_rcm, on_base, zoom at 1. cbn [fst snd].
  destruct (manager_wait_run wcfg t (hw_worker s, d, r) Hl) as (r' & o & es & -> & [L A] & Hw).
  exists r', o, es. cbn [fst snd]. rewrite set_hw_worker_id. split_and!; [done|by split|done].
Qed.

(** Submitting a load to the manager. *)
Lemma hla_submit_run ctx ks sh ps d (st : state) :
  ∃ r' o es, on_rcm (submit_load store ctx ks sh ps d) st = ((st.1, r'), o) ∧ hruns st (st.1, r') es ∧
    (∀ t, o = Ok t → EvLoad store ks sh ps
       (if supports_distributed_backend_load (W := W) store then Some d else None) (Ok t) ∈ es).
Proof.
  destruct st as [[s dv] r]. unfold on_rcm, on_base, zoom at 1, on_manager, zoom. cbn [fst snd].
  destruct (submit_load_log store ctx ks sh ps d r) as (m' & w' & o & -> & Hm).
  eexists _, o, [_]. cbn [fst snd]. rewrite set_hw_worker_id. split; [done|]. split.
  - split; try done. simpl. intros Hl. destruct o as [t|e]; [|by eapply loads_at_eq].
    destruct Hm as [c Hm]. by eapply loads_at_insert.
  - intros t ->. left.
Qed.
End loads.

(** ** Direct loads *)

Section direct_loads.
Context {W D : Type} `{StoreWorld W} `{DeviceWorld D} `{PySetOrder}.
Variable cfg : HlaWorkerConfig.

Abbreviation state := (HlaWorker * D * (RankConsistencyManager * Logged W))%type.
Abbreviation wcfg := (hw_base cfg).
Abbreviation store := (worker_store wcfg).
Abbreviation entry := (req_id * HLARequestDispatchMeta)%type.

(** What a rank loads of a request. *)
Definition load_of (p : entry) : option load_item :=
  let '(_, keys, blocks, groups) :=
    _scope_blocks wcfg (hd_load_block_ids p.2).1 (hd_load_block_ids p.2).2
      (load_group_ids p.2) (load_full_attn_count p.2) false in
  if bool_decide ((hd_load_block_ids p.2).1 = []) || bool_decide (keys = []) then None
  else Some (mkLoadItem p.1 (hd_load_block_ids p.2).1 keys blocks groups).

Definition items (md : HlaMetadata) : list load_item := omap load_of (hla_request_meta md).

(** The ids of a plan are those of its requests, in order. *)
Lemma items_ids (l : list entry) : li_request_id <$> omap load_of l `sublist_of` l.*1.
Proof.
  induction l as [|p l IH]; [constructor|]. csimpl.
  destruct (load_of p) as [i|] eqn:E; csimpl; [|by apply sublist_cons].
  assert (li_request_id i = p.1) as ->; [|by apply sublist_skip].
  unfold load_of in E. repeat case_match; by simplify_eq.
Qed.

Lemma items_NoDup md : NoDup (hla_request_meta md).*1 → NoDup (li_request_id <$> items md).
Proof. intros Hnd. eapply sublist_NoDup; [exact Hnd|apply items_ids]. Qed.

Lemma items_in md id : id ∈ li_request_id <$> items md → id ∈ (hla_request_meta md).*1.
Proof. intros Hid. eapply elem_of_submseteq; [done|apply sublist_submseteq, items_ids]. Qed.

Lemma prepare_loop (l : list entry) (st : state) :
  ∃ lo, for_each l (prepare_request cfg) st = ((set_hw_loads lo st.1.1, st.1.2, st.2), Ok tt) ∧
    request_data lo = request_data (hw_loads st.1.1) ++ omap load_of l ∧
    need_load lo = need_load (hw_loads st.1.1) || bool_decide (omap load_of l ≠ []) ∧
    load_tasks lo = load_tasks (hw_loads st.1.1) ∧
    _failure_req_ids lo = _failure_req_ids (hw_loads st.1.1) ∧
    _submitted_positions lo = _submitted_positions (hw_loads st.1.1) ∧
    _waited_layers lo = _waited_layers (hw_loads st.1.1) ∧
    _submitted_group_slots lo = _submitted_group_slots (hw_loads st.1.1) ∧
    _waited_group_slots lo = _waited_group_slots (hw_loads st.1.1).
Proof.
  revert st. induction l as [|[id req] l IH]; intros [[s d] r]; cbn [for_each].
  { exists (hw_loads s). simpl. rewrite set_hw_loads_id, app_nil_r, orb_false_r. done. }
  assert (∃ lo, prepare_request cfg (id, req) (s, d, r) = ((set_hw_loads lo s, d, r), Ok tt) ∧
    request_data lo = request_data (hw_loads s) ++ omap load_of [(id, req)] ∧
    need_load lo = need_load (hw_loads s) || bool_decide (omap load_of [(id, req)] ≠ []) ∧
    load_tasks lo = load_tasks (hw_loads s) ∧ _failure_req_ids lo = _failure_req_ids (hw_loads s) ∧
    _submitted_positions lo = _submitted_positions (hw_loads s) ∧
    _waited_layers lo = _waited_layers (hw_loads s) ∧
    _submitted_group_slots lo = _submitted_group_slots (hw_loads s) ∧
    _waited_group_slots lo = _waited_group_slots (hw_loads s)) as (lo1 & E1 & Hone).
  { unfold prepare_request. csimpl. unfold load_of. cbn [fst snd].
    destruct (_scope_blocks _ _ _ _ _ _) as [[[ctx keys] blocks] groups].
    destruct (bool_decide ((hd_load_block_ids req).1 = [])); [|destruct (bool_decide (keys = []))]; simpl.
    - exists (hw_loads s). rewrite set_hw_loads_id. split_and!; try done; by rewrite ?app_nil_r, ?orb_false_r.
    - exists (hw_loads s). rewrite set_hw_loads_id. split_and!; try done; by rewrite ?app_nil_r, ?orb_false_r.
    - eexists. split; [reflexivity|]. simpl. by rewrite orb_true_r. }
  erewrite bind_ok; [|exact E1].
  destruct (IH (set_hw_loads lo1 s, d, r)) as (lo & E & Hlo). exists lo. split; [exact E|].
  simpl in *. destruct Hone as (D1 & N1 & ? & ? & ? & ? & ? & ?), Hlo as (D2 & N2 & ? & ? & ? & ? & ? & ?).
  split_and!; try congruence.
  - rewrite D2, D1. csimpl. rewrite <- app_assoc. by destruct (load_of (id, req)).
  - rewrite N2, N1, <- orb_assoc. f_equal. csimpl. by destruct (load_of (id, req)); simpl.
Qed.

(** The two parts of a load: the replicated blocks and the others. *)
Definition parts (md : HlaMetadata) (i : load_item) : list (Z * Z * bool) :=
  let n := if is_mla wcfg then
             default 0 (load_full_attn_count <$> od_get (li_request_id i) (hla_request_meta md)) else 0 in
  [(0, n, true); (n, zlen (li_scoped_ucm i), false)].

(** Among the events, the load of a part of a request was submitted: the rank's
    keys, the whole blocks, and whether other ranks read the same. *)
Definition part_submitted (es : list store_event) (i : load_item) (p : Z * Z * bool) (t : task) : Prop :=
  ∃ ptrs, hla_extract_block_addrs (hw_layout cfg) (py_slice p.1.1 p.1.2 (li_scoped_vllm i))
      (py_slice p.1.1 p.1.2 (li_scoped_groups i)) = Ok ptrs ∧
    EvLoad store (py_slice p.1.1 p.1.2 (li_scoped_ucm i)) (replicate (Z.to_nat (p.1.2 - p.1.1)) 0) ptrs
      (if supports_distributed_backend_load (W := W) store then Some p.2 else None) (Ok t) ∈ es.

Lemma part_submitted_mono es es' i p t : es ⊆ es' → part_submitted es i p t → part_submitted es' i p t.
Proof. intros Hsub (ptrs & E & Hin). exists ptrs. auto. Qed.

Lemma submit_part_run md i start stop d (st : state) :
  NoDup (hla_request_meta md).*1 →
  ∃ st' o F es,
    try_except (t ← submit_direct_part cfg i start stop d; mret (Some t))
      (λ _, _mark_load_failed md (li_request_id i) ;; mret None) st = (st', Ok o) ∧
    hruns cfg st st' es ∧ hfails md [li_request_id i] F st st' ∧
    match o with
    | Some t => F = ∅ ∧ part_submitted es i (start, stop, d) t
    | None => li_request_id i ∈ F
    end.
Proof.
  intros Hnd.
  assert (∀ r' es, hruns cfg st (st.1, r') es → ∃ st' F,
    (_mark_load_failed md (li_request_id i) ;; mret (None : option task)) (st.1, r') = (st', Ok None) ∧
    hruns cfg st st' es ∧ hfails md [li_request_id i] F st st' ∧ li_request_id i ∈ F) as Hfail.
  { intros r' es Hrun. destruct (mark_failed_spec md (li_request_id i) (st.1, r') Hnd) as (w' & E & Hrep).
    erewrite bind_ok; [|exact E]. eexists _, {[li_request_id i]}. split; [reflexivity|].
    split; [by destruct Hrun; split|]. split; [|by apply elem_of_singleton].
    split; [done| |exact Hrep]. intros x ->%elem_of_singleton. left. }
  unfold try_except, submit_direct_part, lift_outcome. unfold mbind at 1, M_bind at 1. unfold mbind at 1, M_bind at 1.
  destruct (hla_extract_block_addrs _ _ _) as [ptrs|e] eqn:Ep.
  2:{ destruct (Hfail st.2 []) as (st' & F & E & Hrun & Hf & Hi); [by apply hruns_same|].
      destruct st as [s r]. exists st', None, F, []. done. }
  unfold mbind at 1, M_bind at 1.
  destruct (hla_submit_run cfg {[li_request_id i := py_slice start stop (li_unscoped_ucm i)]}
    (py_slice start stop (li_scoped_ucm i)) (replicate (Z.to_nat (stop - start)) 0) ptrs d st)
    as (r' & o & es & -> & Hrun & Hev).
  destruct o as [t|e].
  - eexists _, (Some t), ∅, es. split; [reflexivity|].
    split; [by destruct Hrun; split|]. split; [by apply hfails_none|]. split; [done|].
    exists ptrs. simpl. auto.
  - destruct (Hfail r' es Hrun) as (st' & F & E & Hrun' & Hf & Hi). exists st', None, F, es. done.
Qed.

(** A failed part ends the loop over the parts; otherwise all are submitted. *)
Lemma submit_parts_spec md i ps tasks (st : state) :
  NoDup (hla_request_meta md).*1 →
  ∃ st' T F es, submit_direct_parts cfg md i ps tasks st = (st', Ok (tasks ++ T)) ∧
    hruns cfg st st' es ∧ hfails md [li_request_id i] F st st' ∧
    (∀ x, x ∈ T → x.1.1 = li_request_id i) ∧
    (li_request_id i ∉ F → ∀ p, p ∈ ps → p.1.1 ≠ p.1.2 →
       ∃ t n, (li_request_id i, t, n) ∈ T ∧ part_submitted es i p t).
Proof.
  intros Hnd. revert tasks st.
  induction ps as [|[[start stop] d] ps IH]; intros tasks st; cbn [submit_direct_parts].
  { exists st, [], ∅, []. rewrite app_nil_r.
    split_and!; [done|by apply hruns_same|by apply hfails_none|set_solver|set_solver]. }
  destruct (Z.eqb_spec start stop) as [->|Hne].
  { destruct (IH tasks st) as (st' & T & F & es & -> & Hrun & Hf & HT & Hps). exists st', T, F, es.
    split_and!; try done. intros Hi p [->|Hp]%elem_of_cons Hp'; [done|auto]. }
  destruct (submit_part_run md i start stop d st Hnd) as (st1 & o & F1 & es1 & E1 & Hrun1 & Hf1 & Ho).
  erewrite bind_ok; [|exact E1]. destruct o as [t|].
  - destruct Ho as [-> Hsub]. destruct (IH (tasks ++ [(li_request_id i, t, stop - start)]) st1)
      as (st' & T & F & es & -> & Hrun & Hf & HT & Hps).
    exists st', ((li_request_id i, t, stop - start) :: T), F, (es1 ++ es). split_and!.
    + by rewrite <- app_assoc.
    + by eapply hruns_trans.
    + rewrite <- (union_empty_l_L F). eapply hfails_weaken; [|by eapply hfails_trans]. set_solver.
    + intros x [->|Hx]%elem_of_cons; [done|auto].
    + intros Hi p [->|Hp]%elem_of_cons Hp'.
      * exists t, (stop - start). split; [left|]. eapply part_submitted_mono; [|done]. set_solver.
      * destruct (Hps Hi p Hp Hp') as (t' & n & Ht & Hs). exists t', n. split; [by right|].
        eapply part_submitted_mono; [|done]. set_solver.
  - exists st1, [], F1, es1. rewrite app_nil_r. split_and!; [done|done|done|set_solver|done].
Qed.

(** A part of a request that has not failed is waited for by a task of [T]. *)
Definition tasks_of (md : HlaMetadata) (es : list store_event) (T : list (req_id * task * Z))
    (i : load_item) : Prop :=
  ∀ p, p ∈ parts md i → p.1.1 ≠ p.1.2 →
    ∃ t n, (li_request_id i, t, n) ∈ T ∧ part_submitted es i p t.

Lemma tasks_of_mono md es es' T T' i : es ⊆ es' → T ⊆ T' → tasks_of md es T i → tasks_of md es' T' i.
Proof.
  intros Hes HT Hi p Hp Hne. destruct (Hi p Hp Hne) as (t & n & Ht & Hs). exists t, n.
  split; [auto|by eapply part_submitted_mono].
Qed.

Lemma submit_direct_loads_spec md its tasks (st : state) :
  NoDup (hla_request_meta md).*1 → NoDup (li_request_id <$> its) →
  (∀ id, id ∈ li_request_id <$> its → id ∈ (hla_request_meta md).*1) →
  ∃ st' T F es, submit_direct_loads cfg md its tasks st = (st', Ok (tasks ++ T)) ∧
    hruns cfg st st' es ∧ hfails md (li_request_id <$> its) F st st' ∧
    (∀ x, x ∈ T → x.1.1 ∈ li_request_id <$> its) ∧
    (∀ i, i ∈ its → li_request_id i ∉ failures st' → tasks_of md es T i).
Proof.
  intros Hnd. revert tasks st. induction its as [|i its IH]; intros tasks st Hits Hin; cbn [submit_direct_loads].
  { exists st, [], ∅, []. rewrite app_nil_r.
    split_and!; [done|by apply hruns_same|by apply hfails_none|set_solver|set_solver]. }
  change (li_request_id <$> i :: its) with (li_request_id i :: (li_request_id <$> its)) in *.
  apply list.NoDup_cons in Hits as [Hi Hits].
  unfold mbind at 1, M_bind at 1, get_state. case_bool_decide as Hdead.
  { destruct (IH tasks st Hits) as (st' & T & F & es & -> & Hrun & Hf & HT & Hts); [intros; apply Hin; by right|].
    exists st', T, F, es. split_and!; [done|done|eapply hfails_weaken; [|done]; by right| |].
    - intros x Hx. right. by apply HT.
    - intros j [->|Hj]%elem_of_cons Hn; [|by apply Hts].
      destruct Hn. rewrite (hf_failures _ _ _ _ _ Hf). set_solver. }
  assert (∃ n, mla_count cfg md (li_request_id i) st = (st, Ok n) ∧
    parts md i = [(0, n, true); (n, zlen (li_scoped_ucm i), false)]) as (n & En & Hparts).
  { unfold mla_count, parts. destruct (is_mla wcfg); [|by eexists].
    destruct (od_get (li_request_id i) (hla_request_meta md)) as [req|] eqn:E; [by eexists|].
    apply od_get_None in E. destruct E. apply Hin. left. }
  erewrite bind_ok; [|exact En]. cbv beta. rewrite <- Hparts.
  destruct (submit_parts_spec md i (parts md i) tasks st Hnd) as (st1 & T1 & F1 & es1 & E1 & Hrun1 & Hf1 & HT1 & Hs1).
  erewrite bind_ok; [|exact E1].
  destruct (IH (tasks ++ T1) st1 Hits) as (st' & T & F & es & -> & Hrun & Hf & HT & Hts); [intros; apply Hin; by right|].
  exists st', (T1 ++ T), (F1 ∪ F), (es1 ++ es). split_and!.
  - by rewrite app_assoc.
  - by eapply hruns_trans.
  - by apply (hfails_trans md [_] _ F1 F st st1 st').
  - intros x [Hx|Hx]%elem_of_app; [rewrite (HT1 x Hx); left|right; by apply HT].
  - intros j [->|Hj]%elem_of_cons Hn.
    + apply (tasks_of_mono md es1 _ T1); [set_solver|set_solver|]. refine (Hs1 _).
      rewrite (hf_failures _ _ _ _ _ Hf), (hf_failures _ _ _ _ _ Hf1) in Hn. set_solver.
    + apply (tasks_of_mono md es _ T); [set_solver|set_solver|]. by apply Hts.
Qed.

Lemma wait_direct_loads_spec md T num (st : state) :
  NoDup (hla_request_meta md).*1 → loads_at store st.2.1 →
  ∃ st' num' F es, wait_direct_loads md T num st = (st', Ok num') ∧
    hruns cfg st st' es ∧ hfails md ((λ x, x.1.1) <$> T) F st st' ∧
    (∀ x, x ∈ T → x.1.1 ∉ F → EvWait store x.1.2 (Ok tt) ∈ es).
Proof.
  intros Hnd. revert num st. induction T as [|[[id t] n] T IH]; intros num st Hl; cbn [wait_direct_loads].
  { exists st, num, ∅, []. split_and!; [done|by apply hruns_same|by apply hfails_none|set_solver]. }
  assert (∃ st1 num1 F1 es1, try_except (on_rcm (wait_load t None) ;; mret num)
      (λ _, _mark_load_failed md id ;; mret (num - n)) st = (st1, Ok num1) ∧
    hruns cfg st st1 es1 ∧ hfails md [id] F1 st st1 ∧ (id ∉ F1 → EvWait store t (Ok tt) ∈ es1))
    as (st1 & num1 & F1 & es1 & E1 & Hrun1 & Hf1 & Hw1).
  { unfold try_except. unfold mbind at 1, M_bind at 1.
    destruct (hla_wait_run cfg t st Hl) as (r' & o & es & -> & Hrun & Hw). destruct o as [[]|e].
    - eexists _, num, ∅, es. split; [reflexivity|]. split; [done|]. split; [by apply hfails_none|auto].
    - destruct (mark_failed_spec md id (st.1, r') Hnd) as (w' & E & Hrep).
      erewrite bind_ok; [|exact E]. eexists _, _, {[id]}, es. split; [reflexivity|].
      split; [by destruct Hrun; split|]. split; [|set_solver].
      split; [done| |exact Hrep]. intros x ->%elem_of_singleton. left. }
  erewrite bind_ok; [|exact E1].
  destruct (IH num1 st1) as (st' & num' & F & es & -> & Hrun & Hf & Hw); [by apply Hrun1|].
  exists st', num', (F1 ∪ F), (es1 ++ es). split_and!; [done|by eapply hruns_trans| |].
  - by apply (hfails_trans md [id] _ F1 F st st1 st').
  - intros x [->|Hx]%elem_of_cons Hn; apply elem_of_app; [left; apply Hw1|right; apply Hw]; set_solver.
Qed.

Lemma reset_spec (st : state) :
  let started := dumps_started (hw_dumps st.1.1) in
  _reset_transfer_state st =
    ((mkHlaWorker (hw_worker st.1.1) (hw_metadata st.1.1)
        (mkHlaLoads [] [] ∅ ∅ ∅ ∅
           (if started then _submitted_group_slots (hw_loads st.1.1) else ∅)
           (if started then _waited_group_slots (hw_loads st.1.1) else ∅) false 0 false)
        (if started then hw_dumps st.1.1 else HlaDumps_init), st.1.2, st.2), Ok tt).
Proof.
  destruct st as [[s d] r]. unfold _reset_transfer_state. unfold mbind, M_bind, get_state. cbn.
  by destruct (dumps_started (hw_dumps s)).
Qed.

(** What both kinds of [start_load_kv] do before they submit anything. *)
Lemma begin_loads md (st : state) :
  let started := dumps_started (hw_dumps st.1.1) in
  ∃ lo st1, _reset_transfer_state st = (st1, Ok tt) ∧ _prepare_load_plan cfg md st1 =
      ((mkHlaWorker (hw_worker st.1.1) (hw_metadata st.1.1) lo
          (if started then hw_dumps st.1.1 else HlaDumps_init), st.1.2, st.2), Ok tt) ∧
    request_data lo = items md ∧ need_load lo = bool_decide (items md ≠ []) ∧ load_tasks lo = [] ∧
    _failure_req_ids lo = ∅ ∧ _submitted_positions lo = ∅ ∧ _waited_layers lo = ∅ ∧
    _submitted_group_slots lo = (if started then _submitted_group_slots (hw_loads st.1.1) else ∅) ∧
    _waited_group_slots lo = (if started then _waited_group_slots (hw_loads st.1.1) else ∅).
Proof.
  intros started. unfold _prepare_load_plan.
  edestruct prepare_loop as (lo & E & Hlo). eexists lo, _. split; [apply reset_spec|]. split; [exact E|].
  exact Hlo.
Qed.

(** A direct load is complete or reported.  Whatever the layout, the stores and
    the manager raise, [start_load_kv] returns; the requests [F] are reported as
    failed together with exactly the KV blocks they were to load; and every other
    request with blocks to load has been loaded: the replicated blocks and the
    blocks of its own were each submitted, at the addresses the layout gives for
    their KV blocks, and the wait for them succeeded. *)
Theorem hla_direct_loads (md : HlaMetadata) (st : state) :
  NoDup (hla_request_meta md).*1 → hw_metadata st.1.1 = Some md → layer_order cfg ≠ [] →
  loads_at store st.2.1 → (synchronize st.1.2).2 = Ok tt →
  ∃ st' r F es, hla_start_load_kv cfg st = (st', Ok r) ∧ log st'.2.2 = log st.2.2 ++ es ∧
    hreports F md st.1.1 st'.1.1 ∧ (∀ id, id ∈ F → id ∈ li_request_id <$> items md) ∧
    ∀ i p, i ∈ items md → li_request_id i ∉ F → p ∈ parts md i → p.1.1 ≠ p.1.2 →
      ∃ t, part_submitted es i p t ∧ EvWait store t (Ok tt) ∈ es.
Proof.
  intros Hnd Hmd Hlo Hat Hsync. unfold hla_start_load_kv.
  erewrite bind_ok by (unfold hla_get_connector_metadata, mbind, M_bind, get_state; by rewrite Hmd).
  destruct (begin_loads md st) as (lo & st1 & E0 & E1 & Hdata & Hneed & _ & Hfail & _).
  erewrite bind_ok; [|exact E0]. erewrite bind_ok; [|exact E1]. clear E0 E1 st1.
  set (s1 := mkHlaWorker _ _ lo _). unfold mbind at 1, M_bind at 1, get_state. cbn [fst snd hw_loads s1].
  rewrite Hneed, (bool_decide_eq_false_2 (layer_order cfg = [])), orb_false_r by done.
  case_bool_decide as Hitems; cbn [negb].
  2:{ assert (items md = []) as E0 by (destruct (items md); [done|by destruct Hitems]).
      exists (s1, st.1.2, st.2), None, ∅, []. rewrite app_nil_r. split_and!; [done|done| |set_solver|].
      - by apply hreports_refl.
      - intros i p Hi. rewrite E0 in Hi. by apply elem_of_nil in Hi. }
  destruct (synchronize st.1.2) as [d' o] eqn:Ed. simpl in Hsync. subst o.
  assert (on_base (W := Logged W) (on_device synchronize) (s1, st.1.2, st.2) = ((s1, d', st.2), Ok tt)) as Es.
  { unfold on_base, on_device, zoom. cbn [fst snd]. rewrite Ed. cbn [fst snd]. by rewrite set_hw_worker_id. }
  erewrite bind_ok; [|exact Es]. rewrite Hdata.
  destruct (submit_direct_loads_spec md (items md) [] (s1, d', st.2)) as (st2 & T & F1 & es1 & E2 & Hrun1 & Hf1 & HT & Hts);
    [done|by apply items_NoDup|apply items_in|].
  erewrite bind_ok; [|exact E2]. cbn [app].
  destruct (wait_direct_loads_spec md T (list_sum (snd <$> T)) st2) as (st3 & num & F2 & es2 & E3 & Hrun2 & Hf2 & Hw);
    [done|by apply Hrun1|].
  erewrite bind_ok; [|exact E3]. unfold mbind at 1, M_bind at 1, get_state.
  eexists _, _, (F1 ∪ F2), (es1 ++ es2). split; [reflexivity|]. split_and!.
  - cbn. rewrite (hr_log _ _ _ _ Hrun2), (hr_log _ _ _ _ Hrun1). simpl. by rewrite app_assoc.
  - eapply hreports_trans; [apply (hf_reports _ _ _ _ _ Hf1)|]. apply (hf_reports _ _ _ _ _ Hf2).
  - intros id [Hid|Hid]%elem_of_union; [by apply (hf_ids _ _ _ _ _ Hf1)|].
    apply (hf_ids _ _ _ _ _ Hf2), list_elem_of_fmap in Hid as (x & -> & Hx). by apply HT.
  - intros i p Hi Hn Hp Hne.
    destruct (Hts i Hi) with (p := p) as (t & k & Ht & Hs); [|done|done|].
    + rewrite (hf_failures _ _ _ _ _ Hf1). unfold failures. cbn. rewrite Hfail. set_solver.
    + exists t. split; [eapply part_submitted_mono; [|done]; set_solver|].
      apply elem_of_app. right. apply (Hw (li_request_id i, t, k)); [done|]. simpl. set_solver.
Qed.
End direct_loads.

(** ** Example *)

(** Rank 0 of two, and a request that loads two attention blocks and a state. *)
Definition ex_hla_worker : HlaWorkerConfig :=
  mkHlaWorkerConfig ex_mla_worker ex_kv_config ex_layout ["attn0"; "ssm0"; "attn1"]%string.

Definition ex_dispatch : HLARequestDispatchMeta :=
  mkHlaDispatch (["a"; "b"; "s"]%string, [1; 3; 2]) (["c"; "t"]%string, [1; 3]) 2 1 [0; 0; 1] [0; 1].

Definition ex_hla_md : HlaMetadata := mkHlaMetadata [("r"%string, ex_dispatch)] ∅.

Definition ex_hla_start : HlaWorker * RefDevice * (RankConsistencyManager * Logged RefStore) :=
  (mkHlaWorker (WorkerState_init true) (Some ex_hla_md) HlaLoads_init HlaDumps_init, mkRefDevice ∅,
   (RankConsistencyManager_init false true, mkLogged (rs_init 0 ["a"; "b"; "s"]%string) [])).
