(* ===== verification/HlaSaves.v ===== *)
(** * The hybrid worker: direct dumps leave nothing behind

    In direct mode a step's dump is submitted, waited for and reported by one
    call of [wait_for_save].  Between calls the manager has no dump to account
    for, and the device holds no event of one. *)

From Stdlib Require Import ZArith Lia.
From stdpp Require Import base list gmap strings numbers fin_sets.
From S2P Require Import Prelude.
From S2P Require Import Store.
From S2P Require Import RankConsistency.
From S2P Require Import StoreLog.
From S2P Require Import DumpAccounting.
From S2P Require Import DirectScheduler.
From S2P Require Import DirectWorker.
From S2P Require Import WorkerDumps.
From S2P Require Import HlaScheduler.
From S2P Require Import HlaLayout.
From S2P Require Import HlaLayoutFacts.
From S2P Require Import HlaWorker.
From S2P Require Import HlaTransfers.
Local Open Scope Z_scope.

(** ** The manager's accounts *)

(** The manager has no dump to account for. *)
Record idle (m : RankConsistencyManager) : Prop := {
  id_contexts : _dump_task_contexts m = ∅;
  id_blocks r : ctx_blocks (_dump_blocks_by_request m) r = ∅;
  id_failed r : ctx_blocks (_dump_failed_blocks_by_request m) r = ∅;
}.

Section manager.
Context {W : Type} `{StoreWorld W} `{PySetOrder}.
Abbreviation mstate := (RankConsistencyManager * Logged W)%type.

(** What is accounted for: nothing unless the manager is enabled. *)
Definition accounted_for (m : RankConsistencyManager) (ctx : gmap string (gset string)) :
    gmap string (gset string) := if enabled m then ctx else ∅.

Lemma submit_dump_idle s ctx ks sh ps h m (l : Logged W) :
  idle m →
  ∃ m' w' o, submit_dump s ctx ks sh ps h (m, l) = ((m', mkLogged w' (log l ++ [EvDump s ks sh ps h o])), o) ∧
    enabled m' = enabled m ∧ _dump_succeeded_blocks m' = _dump_succeeded_blocks m ∧
    (∀ r, ctx_blocks (_dump_blocks_by_request m') r = ctx_blocks (accounted_for m ctx) r) ∧
    (∀ r, ctx_blocks (_dump_failed_blocks_by_request m') r =
       match o with Ok _ => ∅ | Raise _ => ctx_blocks (accounted_for m ctx) r end) ∧
    _dump_task_contexts m' = match o with Ok t => {[t := (s, accounted_for m ctx)]} | Raise _ => ∅ end.
Proof.
  intros [Ec Eb Ef]. unfold submit_dump, accounted_for. mred. unfold logging.
  destruct (store_dump_data s ks sh ps h (world l)) as [w' [t|e]]; simpl; eexists _, _, _;
    (split; [reflexivity|]); simpl; split_and!; try done; intros; rewrite ?ctx_blocks_add, ?Eb, ?Ef, ?Ec;
    by rewrite ?union_empty_r_L.
Qed.

Lemma wait_dump_single s ctx t m (l : Logged W) :
  _dump_task_contexts m = {[t := (s, ctx)]} →
  ∃ m' w' o o', wait_dump t (m, l) = ((m', mkLogged w' (log l ++ [EvWait s t o])), o') ∧
    enabled m' = enabled m ∧ _dump_succeeded_blocks m' = _dump_succeeded_blocks m ∧
    _dump_blocks_by_request m' = _dump_blocks_by_request m ∧
    (∀ r, ctx_blocks (_dump_failed_blocks_by_request m') r =
       match o with Ok _ => ∅ | Raise _ => ctx_blocks ctx r end ∪
       ctx_blocks (_dump_failed_blocks_by_request m) r) ∧
    _dump_task_contexts m' = ∅.
Proof.
  intros Ec. unfold wait_dump. mred. rewrite Ec, lookup_singleton_eq. simpl. unfold logging.
  destruct (store_wait s t (world l)) as [w' [[]|e]]; simpl; [|destruct (is_unhealthy e)];
    eexists _, _, _, _; (split; [reflexivity|]); simpl; rewrite Ec, delete_singleton_eq;
    split_and!; try done; intros; rewrite ?ctx_blocks_add; by rewrite ?union_empty_l_L.
Qed.

Lemma finish_dump_settled ids ctx m (l : Logged W) :
  dom ctx ⊆ ids → _dump_task_contexts m = ∅ →
  (∀ r, ctx_blocks (_dump_blocks_by_request m) r ⊆ ctx_blocks (accounted_for m ctx) r) →
  (∀ r, ctx_blocks (_dump_failed_blocks_by_request m) r ⊆ ctx_blocks (accounted_for m ctx) r) →
  ∃ m', finish_dump ids (m, l) = ((m', l), Ok tt) ∧ idle m' ∧ enabled m' = enabled m ∧
    ∀ b, b ∈ _dump_succeeded_blocks m' ↔ b ∈ _dump_succeeded_blocks m ∨
      ∃ r, b ∈ ctx_blocks (_dump_blocks_by_request m) r ∧
           b ∉ ctx_blocks (_dump_failed_blocks_by_request m) r.
Proof.
  intros Hids Ec Eb Ef. unfold finish_dump, accounted_for in *. mred. destruct (enabled m) eqn:Hen; simpl.
  - assert (pending_request_ids m = ∅) as -> by (unfold pending_request_ids; by rewrite Ec, map_to_list_empty).
    rewrite decide_True by set_solver. eexists. split; [reflexivity|].
    assert (∀ r, r ∈ set_iter ids ↔ r ∈ ids) as Hit.
    { intros r. rewrite (set_iter_perm _). apply elem_of_elements. }
    assert (∀ r, r ∉ ids → ctx_blocks ctx r = ∅) as Hout.
    { intros r Hr. unfold ctx_blocks. assert (r ∉ dom ctx) as Hd by set_solver.
      apply not_elem_of_dom in Hd. by rewrite Hd. }
    pose proof (finish_fold_blocks (set_iter ids) m) as Hfold.
    split; [split|split]; cbn [fst snd].
    + destruct (Hfold EmptyString) as (_ & _ & -> & _). done.
    + intros r. destruct (Hfold r) as (-> & _). case_decide as Hr; [done|].
      specialize (Eb r). rewrite Hout in Eb by (by rewrite <- Hit). set_solver.
    + intros r. destruct (Hfold r) as (_ & -> & _). case_decide as Hr; [done|].
      specialize (Ef r). rewrite Hout in Ef by (by rewrite <- Hit). set_solver.
    + destruct (Hfold EmptyString) as (_ & _ & _ & ->). done.
    + intros b. rewrite finish_fold_report by apply set_iter_NoDup.
      split; (intros [?|(r & Hb)]; [by left|right; exists r]); [tauto|]. split; [|done]. apply Hit.
      destruct (decide (r ∈ ids)); [done|]. specialize (Eb r). rewrite Hout in Eb by done. set_solver.
  - assert (∀ r, ctx_blocks (_dump_blocks_by_request m) r = ∅) as Eb'.
    { intros r. specialize (Eb r). set_solver. }
    eexists. split; [reflexivity|]. split; [split|split]; try done.
    + intros r. specialize (Ef r). set_solver.
    + intros b. setoid_rewrite Eb'. set_solver.
Qed.
End manager.

(** ** Direct dumps *)

Section saves.
Context {W D : Type} `{StoreWorld W} `{DeviceSpec D} `{PySetOrder}.
Variable cfg : HlaWorkerConfig.

Abbreviation state := (HlaWorker * D * (RankConsistencyManager * Logged W))%type.
Abbreviation wcfg := (hw_base cfg).
Abbreviation store := (worker_store wcfg).

Lemma release_spec h s (d : D) (r : RankConsistencyManager * Logged W) :
  ∃ d', release_event cfg h (s, d, r) = ((s, d', r), Ok tt) ∧
    events d' = events d ∖ (if enable_event_sync wcfg && negb (h =? 0) then {[h]} else ∅).
Proof.
  unfold release_event. destruct (_ && _); [|exists d; split; [done|set_solver]].
  unfold on_base, on_device, zoom. cbn [fst snd].
  destruct (destroy_event_handle_ok d h) as [Hok Hev].
  destruct (destroy_event_handle h d) as [d' o]. simpl in Hok. subst o. exists d'.
  cbn [fst snd]. by rewrite set_hw_worker_id.
Qed.

(** The event of a dump is taken, and released again. *)
Definition event_taken (h : Z) (d d' : D) : Prop :=
  (h = 0 ∧ events d' = events d) ∨
  (enable_event_sync wcfg = true ∧ h ≠ 0 ∧ (h ∉ events d) ∧ events d' = ({[h]} ∪ events d)).

Lemma event_released h d d' :
  event_taken h d d' →
  events d' ∖ (if enable_event_sync wcfg && negb (h =? 0) then {[h]} else ∅) = events d.
Proof.
  intros [[-> ->]|(-> & Hz & Hn & ->)].
  - rewrite andb_false_r. set_solver.
  - rewrite (proj2 (Z.eqb_neq h 0)) by done. simpl. set_solver.
Qed.

Lemma handle_spec s (d : D) (r : RankConsistencyManager * Logged W) :
  ∃ d' o, on_base (_get_dump_event_handle wcfg) (s, d, r) = ((s, d', r), o) ∧
    match o with Ok h => event_taken h d d' | Raise _ => events d' = events d end.
Proof.
  unfold on_base, zoom. cbn [fst snd]. destruct (get_handle_spec wcfg (hw_worker s) d r) as (d' & o & -> & Ho).
  exists d', o. cbn [fst snd]. by rewrite set_hw_worker_id.
Qed.

Lemma on_rcm_eq {A} (m : M (RankConsistencyManager * Logged W) A) s (d : D) r :
  on_rcm m (s, d, r) = ((s, d, (m r).1), (m r).2).
Proof.
  unfold on_rcm, on_base, on_manager, zoom. cbn [fst snd]. destruct (m r) as [r' o].
  cbn [fst snd]. by rewrite set_hw_worker_id.
Qed.

Lemma ensure_plan_fresh md (st : state) :
  hw_metadata st.1.1 = Some md → _dump_plan (hw_dumps st.1.1) = None →
  _ensure_dump_plan cfg st =
    ((set_hw_dumps (set_dump_plan (Some (hla_dump_plan cfg md)) (hw_dumps st.1.1)) st.1.1, st.1.2, st.2),
     Ok (hla_dump_plan cfg md)).
Proof.
  intros Hmd Hplan. unfold _ensure_dump_plan, hla_get_connector_metadata, mbind, M_bind, get_state.
  by rewrite Hplan, Hmd.
Qed.

(** The dump of a plan was submitted, and the wait for it succeeded. *)
Definition dumped (es : list store_event) (plan : DumpPlan) : Prop :=
  ∃ ptrs h t, hla_extract_block_addrs (hw_layout cfg) (dp_vllm_ids plan) (dp_group_ids plan) = Ok ptrs ∧
    EvDump store (dp_ucm_ids plan) (replicate (length (dp_ucm_ids plan)) 0) ptrs h (Ok t) ∈ es ∧
    EvWait store t (Ok tt) ∈ es.

(** Giving up a dump that was not accepted: nothing is reported. *)
Lemma abandon_spec plan s (d : D) m (l : Logged W) :
  _dump_task_contexts m = ∅ →
  (∀ r, ctx_blocks (_dump_blocks_by_request m) r ⊆ ctx_blocks (accounted_for m (dp_block_ids_by_request plan)) r) →
  (∀ r, ctx_blocks (_dump_failed_blocks_by_request m) r ⊆ ctx_blocks (accounted_for m (dp_block_ids_by_request plan)) r) →
  (∀ r, ctx_blocks (_dump_blocks_by_request m) r ⊆ ctx_blocks (_dump_failed_blocks_by_request m) r) →
  ∃ m', on_rcm (finish_dump (dom (dp_block_ids_by_request plan))) (s, d, (m, l)) = ((s, d, (m', l)), Ok tt) ∧
    idle m' ∧ _dump_succeeded_blocks m' = _dump_succeeded_blocks m.
Proof.
  intros Ec Eb Ef Ebf. rewrite on_rcm_eq.
  destruct (finish_dump_settled (dom (dp_block_ids_by_request plan)) (dp_block_ids_by_request plan) m l) as (m' & -> & Hid & _ & Hs); try done.
  exists m'. split_and!; [done|done|]. apply set_eq. intros b. rewrite Hs.
  split; [|by left]. intros [?|(r & Hb & Hn)]; [done|]. specialize (Ebf r). set_solver.
Qed.

(** How a submission ends: abandoned, or with a task in flight. *)
Definition submit_end (plan : DumpPlan) (st st' : state) (o : option (task * Z)) (es : list store_event) : Prop :=
  match o with
  | None => idle st'.2.1 ∧ _dump_succeeded_blocks st'.2.1 = _dump_succeeded_blocks st.2.1 ∧
      events st'.1.2 = events st.1.2 ∧ ∀ s t r, EvWait s t r ∉ es
  | Some (t, h) => ∃ ptrs,
      hla_extract_block_addrs (hw_layout cfg) (dp_vllm_ids plan) (dp_group_ids plan) = Ok ptrs ∧
      es = [EvDump store (dp_ucm_ids plan) (replicate (length (dp_ucm_ids plan)) 0) ptrs h (Ok t)] ∧
      enabled st'.2.1 = enabled st.2.1 ∧
      _dump_succeeded_blocks st'.2.1 = _dump_succeeded_blocks st.2.1 ∧
      (∀ r, ctx_blocks (_dump_blocks_by_request st'.2.1) r =
         ctx_blocks (accounted_for st.2.1 (dp_block_ids_by_request plan)) r) ∧
      (∀ r, ctx_blocks (_dump_failed_blocks_by_request st'.2.1) r = ∅) ∧
      _dump_task_contexts st'.2.1 = {[t := (store, accounted_for st.2.1 (dp_block_ids_by_request plan))]} ∧
      event_taken h st.1.2 st'.1.2
  end.

Lemma submit_direct_dump_spec plan (st : state) :
  idle st.2.1 →
  ∃ st' o es, submit_direct_dump cfg plan st = (st', Ok o) ∧ st'.1.1 = st.1.1 ∧
    log st'.2.2 = log st.2.2 ++ es ∧ submit_end plan st st' o es.
Proof.
  destruct st as [[s d] [m l]]. cbn [fst snd]. intros Hid. unfold submit_direct_dump. cbv zeta.
  assert (∀ d', events d' = events d → ∃ st' o es,
    (on_rcm (finish_dump (dom (dp_block_ids_by_request plan))) ;; mret None) (s, d', (m, l)) = (st', Ok o) ∧
    st'.1.1 = s ∧ log st'.2.2 = log l ++ es ∧ submit_end plan (s, d, (m, l)) st' o es) as Hgive.
  { intros d' Hd. destruct Hid as [Ec Eb Ef].
    destruct (abandon_spec plan s d' m l Ec) as (m' & E & Hid' & Hs); [intros r; rewrite ?Eb, ?Ef; set_solver..|].
    erewrite bind_ok; [|exact E]. eexists _, None, []. split; [reflexivity|]. rewrite app_nil_r.
    split; [done|]. split; [done|]. unfold submit_end. split_and!; try done. intros ? ? ?. apply not_elem_of_nil. }
  destruct (hla_extract_block_addrs _ _ _) as [ptrs|e] eqn:Ep; [|by apply Hgive].
  unfold mbind at 1, M_bind at 1, try_except at 1. unfold mbind at 1, M_bind at 1.
  destruct (handle_spec s d (m, l)) as (d1 & o & -> & Ho). destruct o as [h|e]; [|by apply Hgive].
  cbn [mret M_ret]. unfold try_except. unfold mbind at 1, M_bind at 1. rewrite on_rcm_eq.
  destruct (submit_dump_idle store (dp_block_ids_by_request plan) (dp_ucm_ids plan)
    (replicate (length (dp_ucm_ids plan)) 0) ptrs h m l Hid) as (m1 & w1 & o & -> & He & Hs & Hb & Hf & Hc).
  cbn [fst snd]. destruct o as [t|e].
  - eexists _, (Some (t, h)), _. split; [reflexivity|]. split; [done|]. split; [done|].
    exists ptrs. done.
  - destruct (release_spec h s d1 (m1, mkLogged w1 (log l ++ [EvDump store (dp_ucm_ids plan)
      (replicate (length (dp_ucm_ids plan)) 0) ptrs h (Raise e)]))) as (d2 & E2 & Hev).
    erewrite bind_ok; [|exact E2].
    assert (accounted_for m1 (dp_block_ids_by_request plan) = accounted_for m (dp_block_ids_by_request plan))
      as Ea by (unfold accounted_for; by rewrite He).
    destruct (abandon_spec plan s d2 m1 (mkLogged w1 (log l ++ [EvDump store (dp_ucm_ids plan)
      (replicate (length (dp_ucm_ids plan)) 0) ptrs h (Raise e)])) Hc) as (m2 & E3 & Hid' & Hs');
      [intros r; rewrite ?Ea, ?Hb, ?Hf; set_solver..|].
    erewrite bind_ok; [|exact E3]. eexists _, None, _. split; [reflexivity|]. split; [done|]. split; [done|].
    unfold submit_end. cbn [fst snd]. split_and!; [done|by rewrite Hs', Hs|by rewrite Hev, (event_released h d d1)|].
    intros s' t' r' [Hx|[]%elem_of_nil]%elem_of_cons. discriminate.
Qed.

(** What [save_direct] leaves: nothing in flight, and an exact report. *)
Definition save_end (plan : DumpPlan) (st st' : state) (es : list store_event) : Prop :=
  idle st'.2.1 ∧ events st'.1.2 = events st.1.2 ∧
  ∀ b, b ∈ _dump_succeeded_blocks st'.2.1 ↔ b ∈ _dump_succeeded_blocks st.2.1 ∨
    enabled st.2.1 = true ∧ dumped es plan ∧ ∃ r, b ∈ ctx_blocks (dp_block_ids_by_request plan) r.

Lemma save_none plan (st st' : state) es :
  idle st'.2.1 → events st'.1.2 = events st.1.2 →
  _dump_succeeded_blocks st'.2.1 = _dump_succeeded_blocks st.2.1 → (∀ s t r, EvWait s t r ∉ es) →
  save_end plan st st' es.
Proof.
  intros Hid Hev Hs Hno. split_and!; [done|done|]. intros b. rewrite Hs. split; [by left|].
  intros [?|(_ & (ptrs & h & t & _ & _ & Hw) & _)]; [done|]. by destruct (Hno _ _ _ Hw).
Qed.

(** The second half: waiting for the task and reporting. *)
Lemma wait_direct_dump plan t h (st st1 : state) es :
  submit_end plan st st1 (Some (t, h)) es →
  ∃ st2 b es', try_finally
      (try_except (on_rcm (wait_dump t) ;; mret true)
         (λ _, on_rcm (finish_dump (dom (dp_block_ids_by_request plan))) ;; mret false))
      (release_event cfg h) st1 = (st2, Ok b) ∧ st2.1.1 = st1.1.1 ∧ log st2.2.2 = log st1.2.2 ++ es' ∧
    ∃ st', (if b : bool then on_rcm (finish_dump (dom (dp_block_ids_by_request plan))) st2 else (st2, Ok tt)) =
      (st', Ok tt) ∧ st'.1.1 = st1.1.1 ∧ st'.2.2 = st2.2.2 ∧ save_end plan st st' (es ++ es').
Proof.
  destruct st1 as [[s d1] [m1 l1]]. intros (ptrs & Ep & -> & He & Hs & Hb & Hf & Hc & Hh). cbn [fst snd] in *.
  set (ctx := dp_block_ids_by_request plan) in *.
  destruct (wait_dump_single store (accounted_for st.2.1 ctx) t m1 l1 Hc)
    as (m2 & w2 & o & o' & Ew & He2 & Hs2 & Hb2 & Hf2 & Hc2).
  assert (accounted_for m2 ctx = accounted_for st.2.1 ctx) as Ea by (unfold accounted_for; by rewrite He2, He).
  destruct (finish_dump_settled (dom ctx) ctx m2 (mkLogged w2 (log l1 ++ [EvWait store t o])) ltac:(done) Hc2)
    as (m3 & E3 & Hid & He3 & Hs3);
    [intros r; rewrite Ea, ?Hb2, ?Hb, ?Hf2, ?Hf; destruct o; set_solver..|].
  assert (∀ d', events d' = events d1 ∖ (if enable_event_sync wcfg && negb (h =? 0) then {[h]} else ∅) →
    save_end plan st (s, d', (m3, mkLogged w2 (log l1 ++ [EvWait store t o])))
      [EvDump store (dp_ucm_ids plan) (replicate (length (dp_ucm_ids plan)) 0) ptrs h (Ok t);
       EvWait store t o]) as Hend.
  { intros d' Hd'. split_and!; cbn [fst snd]; [done|by rewrite Hd', (event_released h st.1.2 d1)|].
    intros b. rewrite Hs3, Hs2, Hs. setoid_rewrite Hf2. setoid_rewrite Hb2. setoid_rewrite Hb. setoid_rewrite Hf.
    split; (intros [?|Hb']; [by left|right]).
    - destruct Hb' as (r & Hbr & Hnr). unfold accounted_for in *. destruct (enabled st.2.1); [|set_solver].
      destruct o as [[]|e]; [|set_solver]. split; [done|]. split; [|eauto].
      exists ptrs, h, t. split_and!; [done|left|right; left].
    - destruct Hb' as (Hen & (ptrs' & h' & t' & _ & Hd & Hw) & r & Hr). exists r.
      unfold accounted_for. rewrite Hen. split; [done|].
      assert (o = Ok tt) as ->; [|set_solver].
      rewrite !elem_of_cons, elem_of_nil in Hd, Hw.
      destruct Hd as [[= <- <-]|[?|[]]]; [|done]. destruct Hw as [?|[[= <-]|[]]]; done. }
  unfold try_finally, try_except. unfold mbind at 1, M_bind at 1. rewrite on_rcm_eq, Ew. cbn [fst snd].
  destruct o' as [[]|e].
  - cbn [mret M_ret]. destruct (release_spec h s d1 (m2, mkLogged w2 (log l1 ++ [EvWait store t o])))
      as (d3 & -> & Hev).
    eexists _, true, _. split; [reflexivity|]. split; [done|]. split; [done|].
    rewrite on_rcm_eq, E3. cbn [fst snd]. eexists. split; [reflexivity|]. split_and!; [done|done|by apply Hend].
  - unfold mbind, M_bind. rewrite on_rcm_eq, E3. cbn [fst snd mret M_ret].
    destruct (release_spec h s d1 (m3, mkLogged w2 (log l1 ++ [EvWait store t o]))) as (d3 & -> & Hev).
    eexists _, false, _. split; [reflexivity|]. split; [done|]. split; [done|].
    eexists. split; [reflexivity|]. split_and!; [done|done|by apply Hend].
Qed.

(** A direct dump leaves nothing behind and reports exactly what was written.
    If the manager accounts for no dump, then whatever the layout, the device and
    the stores raise, [wait_for_save] returns with the manager idle again, every
    device event it took released, and the transfer state cleared; and the blocks
    it adds to the report are those of the step's plan if the dump was accepted and
    completed, and none otherwise. *)
Theorem hla_direct_save (md : HlaMetadata) (st : state) :
  hw_metadata st.1.1 = Some md → _dump_plan (hw_dumps st.1.1) = None → idle st.2.1 →
  let plan := hla_dump_plan cfg md in
  ∃ st' r es, hla_wait_for_save cfg st = (st', Ok r) ∧ log st'.2.2 = log st.2.2 ++ es ∧
    idle st'.2.1 ∧ events st'.1.2 = events st.1.2 ∧ dumps_started (hw_dumps st'.1.1) = false ∧
    ∀ b, b ∈ _dump_succeeded_blocks st'.2.1 ↔ b ∈ _dump_succeeded_blocks st.2.1 ∨
      enabled st.2.1 = true ∧ dumped es plan ∧ ∃ r, b ∈ ctx_blocks (dp_block_ids_by_request plan) r.
Proof.
  intros Hmd Hplan Hid plan.
  assert (∃ st' r es, save_direct cfg st = (st', Ok r) ∧ log st'.2.2 = log st.2.2 ++ es ∧
    save_end plan st st' es) as (st' & r & es & E & Hlog & Hend & Hev & Hrep).
  { unfold save_direct. erewrite bind_ok; [|by apply ensure_plan_fresh]. fold plan.
    set (st0 := (set_hw_dumps (set_dump_plan (Some plan) (hw_dumps st.1.1)) st.1.1, st.1.2, st.2)).
    case_bool_decide as Hu.
    { exists st0, None, []. rewrite app_nil_r. split_and!; [done|done|].
      apply save_none; [done|done|done|]. intros ? ? ?. apply not_elem_of_nil. }
    destruct (submit_direct_dump_spec plan st0 Hid) as (st1 & o & es & E1 & _ & Hlog & Hsub).
    erewrite bind_ok; [|exact E1]. destruct o as [[t h]|].
    2:{ exists st1, None, es. split_and!; [done|done|]. destruct Hsub as (? & ? & ? & ?). by apply save_none. }
    destruct (wait_direct_dump plan t h st0 st1 es Hsub) as (st2 & b & es' & E2 & _ & Hl2 & st' & E3 & _ & Hl3 & Hend).
    erewrite bind_ok; [|exact E2]. assert (log st'.2.2 = log st.2.2 ++ (es ++ es')) as Hl.
    { rewrite Hl3, Hl2, Hlog. by rewrite app_assoc. }
    destruct b.
    - erewrite bind_ok; [|exact E3]. exists st', (Some (group_bytes cfg (dp_group_ids plan))), (es ++ es'). done.
    - injection E3 as ->. exists st', None, (es ++ es'). done. }
  unfold hla_wait_for_save. unfold mbind at 1, M_bind at 1, get_state. rewrite Hmd.
  unfold try_finally. rewrite E. destruct st' as [[s' d'] r']. eexists _, r, es.
  split; [reflexivity|]. cbn. split_and!; done.
Qed.
End saves.

