(* ===== verification/HlaLayerLoads.v ===== *)
(** * Layerwise loading of the hybrid connector: correctness

    Loads are submitted per (group, slot) pair, two layers ahead of the hooks.
    As long as no two hooks in a row are skipped, the data of a layer has been
    loaded when its hook returns, for every request that is not reported. *)

From Stdlib Require Import ZArith Lia.
From stdpp Require Import base list gmap strings numbers fin_sets.
From S2P Require Import Prelude.
From S2P Require Import Store.
From S2P Require Import RankConsistency.
From S2P Require Import StoreLog.
From S2P Require Import DirectScheduler.
From S2P Require Import DirectWorker.
From S2P Require Import WorkerDumps.
From S2P Require Import KVCacheLayout.
From S2P Require Import KVCacheLayoutFacts.
From S2P Require Import HlaScheduler.
From S2P Require Import HlaLayout.
From S2P Require Import HlaLayoutFacts.
From S2P Require Import HlaWorker.
From S2P Require Import HlaLayerWise.
From S2P Require Import HlaTransfers.
Local Open Scope Z_scope.

(** ** Selecting *)

(** The elements of a list at the positions of a group. *)
Definition group_part {A} (gid : Z) (groups : list Z) (l : list A) : list A :=
  (base.filter (λ p : Z * A, p.1 = gid) (zip groups l)).*2.

Lemma group_part_cons {A} gid g groups (x : A) l :
  group_part gid (g :: groups) (x :: l) = (if g =? gid then [x] else []) ++ group_part gid groups l.
Proof.
  unfold group_part. cbn [zip_with]. rewrite filter_cons. cbn [fst].
  destruct (Z.eqb_spec g gid); [by rewrite decide_True|by rewrite decide_False].
Qed.

Lemma pick_from {A} gid groups (pre l : list A) :
  length l = length groups →
  pick (pre ++ l) (imap (λ i g, (Z.of_nat (length pre + i), g)) groups ≫=
                     λ p : Z * Z, if p.2 =? gid then [p.1] else []) = Ok (group_part gid groups l).
Proof.
  revert pre l. induction groups as [|g groups IH]; intros pre [|x l] Hl; try done.
  cbn [imap]. rewrite bind_cons. cbn [fst snd].
  specialize (IH (pre ++ [x]) l). rewrite <- app_assoc, length_app in IH. simpl in IH.
  rewrite (imap_ext _ (λ i g, (Z.of_nat (length pre + 1 + i), g))) by (intros; simpl; f_equal; lia).
  rewrite group_part_cons. destruct (Z.eqb_spec g gid) as [->|Hne].
  - cbn [app]. unfold pick in *. cbn [map_outcome].
    assert (list_index (pre ++ x :: l) (Z.of_nat (length pre + 0)) = Ok x) as ->.
    { unfold list_index. by rewrite Nat.add_0_r, Nat2Z.id, list_lookup_middle by done. }
    cbn [mbind outcome_bind]. rewrite IH by (simpl in Hl; lia). done.
  - apply IH. simpl in Hl. lia.
Qed.

Lemma pick_selected {A} gid groups (l : list A) :
  length l = length groups → pick l (selected gid groups) = Ok (group_part gid groups l).
Proof. apply (pick_from gid groups []). Qed.

Lemma selected_some gid groups : gid ∈ groups → selected gid groups ≠ [].
Proof.
  intros Hin Hsel. pose proof (pick_selected gid groups groups eq_refl) as Hp. rewrite Hsel in Hp.
  injection Hp as Hp. unfold group_part in Hp. symmetry in Hp. apply fmap_nil_inv in Hp.
  apply list_elem_of_lookup_1 in Hin as [i Hi].
  assert ((gid, gid) ∈ base.filter (λ p : Z * Z, p.1 = gid) (zip groups groups)) as Hx.
  { apply list_elem_of_filter. split; [done|]. apply list_elem_of_lookup. exists i.
    by rewrite lookup_zip_with, Hi. }
  rewrite Hp in Hx. by apply elem_of_nil in Hx.
Qed.

(** ** Items *)

(** The lists of an item are in step. *)
Definition aligned (i : load_item) : Prop :=
  length (li_unscoped_ucm i) = length (li_scoped_groups i) ∧
  length (li_scoped_ucm i) = length (li_scoped_groups i) ∧
  length (li_scoped_vllm i) = length (li_scoped_groups i).

(** So are those of the plans the scheduler makes. *)
Definition loads_aligned (p : req_id * HLARequestDispatchMeta) : Prop :=
  length (hd_load_block_ids p.2).1 = length (load_group_ids p.2) ∧
  length (hd_load_block_ids p.2).2 = length (load_group_ids p.2) ∧ 0 ≤ load_full_attn_count p.2.

Lemma load_of_aligned cfg p i : loads_aligned p → load_of cfg p = Some i → aligned i.
Proof.
  intros (H1 & H2 & Hn). unfold load_of, _scope_blocks. destruct (is_mla _); simpl.
  - rewrite !py_slice_to_nonneg, !py_slice_from_nonneg by done.
    destruct (_ || _); [done|]. intros [= <-]. unfold aligned. cbn.
    rewrite take_drop, take_drop. split; [done|]. split; [|done].
    destruct (_ =? 0); [by rewrite take_drop|].
    rewrite length_app, length_fmap, <- length_app, take_drop. done.
  - destruct (_ || _); [done|]. intros [= <-]. unfold aligned. cbn. split; [done|]. split; [|done].
    destruct (_ =? 0); by rewrite ?length_fmap.
Qed.

Lemma items_aligned cfg md i :
  Forall loads_aligned (hla_request_meta md) → i ∈ items cfg md → aligned i.
Proof.
  intros Hmd (p & Hp & Hi)%list_elem_of_omap. rewrite Forall_forall in Hmd.
  by eapply load_of_aligned, Hi; apply Hmd.
Qed.

Section layer_loads.
Context {W D : Type} `{StoreWorld W} `{DeviceWorld D} `{DeviceReset D} `{PySetOrder}.
Variable cfg : HlaLayerConfig.

Abbreviation state := (HlaWorker * D * (RankConsistencyManager * Logged W))%type.
Abbreviation hcfg := (hlw_cfg cfg).
Abbreviation wcfg := (hw_base hcfg).
Abbreviation layout := (hw_layout hcfg).
Abbreviation store := (worker_store wcfg).
Abbreviation order := (layer_order hcfg).

(** Among the events, the load of the blocks of a request at one pair was
    submitted: the rank's keys of the group's blocks, the shard of the slot, and
    the addresses of the pair's pages; and it was waited for. *)
Definition pair_submitted (es : list store_event) (i : load_item) (key : pair_key) (t : task) : Prop :=
  ∃ d, EvLoad store (group_part key.1 (li_scoped_groups i) (li_scoped_ucm i))
      (replicate (length (group_part key.1 (li_scoped_groups i) (li_scoped_ucm i))) key.2)
      (pair_row layout key.1 key.2 <$> group_part key.1 (li_scoped_groups i) (li_scoped_vllm i)) d (Ok t) ∈ es.

Definition pair_loaded (es : list store_event) (i : load_item) (key : pair_key) : Prop :=
  ∃ t, pair_submitted es i key t ∧ EvWait store t (Ok tt) ∈ es.

Lemma pair_submitted_mono es es' i key t : es ⊆ es' → pair_submitted es i key t → pair_submitted es' i key t.
Proof. intros Hsub (d & Hin). exists d. auto. Qed.

Lemma pair_loaded_mono es es' i key : es ⊆ es' → pair_loaded es i key → pair_loaded es' i key.
Proof. intros Hsub (t & Hs & Hw). exists t. split; [by eapply pair_submitted_mono|auto]. Qed.

Lemma extract_pair name key vs ptrs :
  key_of cfg name = Ok key → extract_layer_addrs (hw_kv hcfg) layout name vs = Ok ptrs →
  ptrs = pair_row layout key.1 key.2 <$> vs.
Proof.
  unfold key_of, extract_layer_addrs, mbind, outcome_bind. intros Hk.
  destruct (map_get _ name) as [gid|]; [|done]. destruct (map_get _ name) as [slot|]; [|done].
  injection Hk as <-. destruct (od_get name _); [|done].
  destruct (as_uint64 vs) as [ids|] eqn:E; [|done]. apply as_uint64_Ok in E as [-> _]. by intros [= <-].
Qed.

(** The tasks of a pair. *)
Definition tasks_at (st : state) (key : pair_key) : list (req_id * task) :=
  default [] (od_get key (load_tasks (hw_loads st.1.1))).

(** The parts of the loads that submitting leaves alone. *)
Definition marks (l : HlaLoads) :=
  (_submitted_positions l, _waited_layers l, _submitted_group_slots l, _waited_group_slots l).

Lemma od_set_elem id (t : task) (ts : list (req_id * task)) : (id, t) ∈ od_set id t ts.
Proof.
  induction ts as [|[k v] ts IH]; simpl; [left|]. case_decide; [left|by right].
Qed.

Lemma od_set_keep id (t : task) (ts : list (req_id * task)) x : x.1 ≠ id → x ∈ ts → x ∈ od_set id t ts.
Proof.
  intros Hne. induction ts as [|[k v] ts IH]; [by intros ?%elem_of_nil|]. simpl.
  intros [->|Hx]%elem_of_cons; case_decide as Hk; simpl in *; [congruence|left|by right|right; auto].
Qed.

Lemma od_set_inv id (t : task) (ts : list (req_id * task)) x : x ∈ od_set id t ts → x = (id, t) ∨ x ∈ ts.
Proof.
  induction ts as [|[k v] ts IH]; simpl.
  - intros ->%list_elem_of_singleton. by left.
  - case_decide; rewrite !elem_of_cons; naive_solver.
Qed.

(** What submitting the loads of some requests at one pair does. *)
Record pair_step (md : HlaMetadata) (rs : list load_item) (key : pair_key) (st st' : state)
    (F : gset string) (es : list store_event) : Prop := {
  ps_runs : hruns hcfg st st' es;
  ps_fails : hfails md (li_request_id <$> rs) F st st';
  ps_marks : marks (hw_loads st'.1.1) = marks (hw_loads st.1.1);
  ps_others key' : key' ≠ key → tasks_at st' key' = tasks_at st key';
  ps_keep x : x ∈ tasks_at st key → x.1 ∉ li_request_id <$> rs → x ∈ tasks_at st' key;
  ps_new x : x ∈ tasks_at st' key → x ∈ tasks_at st key ∨ x.1 ∈ li_request_id <$> rs;
  ps_tasks i : i ∈ rs → key.1 ∈ li_scoped_groups i → li_request_id i ∉ failures st' →
    ∃ t, (li_request_id i, t) ∈ tasks_at st' key ∧ pair_submitted es i key t;
}.

Lemma tasks_at_add st key id t :
  let l := hw_loads st.1.1 in
  ∀ s' : state, load_tasks (hw_loads s'.1.1) = load_tasks (add_task key id t l) →
  tasks_at s' key = od_set id t (tasks_at st key) ∧ ∀ key', key' ≠ key → tasks_at s' key' = tasks_at st key'.
Proof.
  intros l s' E. unfold tasks_at. rewrite E. cbn. split.
  - by rewrite od_get_set, decide_True.
  - intros key' Hne. by rewrite od_get_set, decide_False.
Qed.

Lemma pair_step_skip md i key (st : state) :
  li_request_id i ∈ failures st ∨ key.1 ∉ li_scoped_groups i → pair_step md [i] key st st ∅ [].
Proof.
  intros Hor. split; try done; [by apply hruns_same|by apply hfails_none|by left|].
  intros j ->%list_elem_of_singleton Hg Hn. by destruct Hor.
Qed.

(** A request that fails after [st1] was reached, with or without its task. *)
Lemma pair_step_fail md i key (st st1 : state) es :
  NoDup (hla_request_meta md).*1 → hruns hcfg st st1 es → hw_worker st1.1.1 = hw_worker st.1.1 →
  failures st1 = failures st → marks (hw_loads st1.1.1) = marks (hw_loads st.1.1) →
  (tasks_at st1 = tasks_at st ∨ ∃ t, tasks_at st1 key = od_set (li_request_id i) t (tasks_at st key) ∧
     ∀ key', key' ≠ key → tasks_at st1 key' = tasks_at st key') →
  ∃ st', _mark_load_failed md (li_request_id i) st1 = (st', Ok tt) ∧
    pair_step md [i] key st st' {[li_request_id i]} es.
Proof.
  intros Hnd Hrun Hw Hf Hm Ht. destruct (mark_failed_spec md (li_request_id i) st1 Hnd) as (w' & -> & Hrep).
  eexists. split; [reflexivity|].
  assert (∀ key', tasks_at (mkHlaWorker w' (hw_metadata st1.1.1) (add_failure (li_request_id i) (hw_loads st1.1.1))
    (hw_dumps st1.1.1), st1.1.2, st1.2) key' = tasks_at st1 key') as Hsame by done.
  split.
  - by destruct Hrun; split.
  - split; [unfold failures; cbn; fold (failures st1); by rewrite Hf| |].
    + intros x ->%elem_of_singleton. left.
    + destruct Hrep as [R1 R2]. rewrite Hw in R1, R2. by split.
  - done.
  - intros key' Hne. rewrite Hsame. destruct Ht as [->|(t & _ & ->)]; done.
  - intros x Hx Hn. rewrite Hsame. destruct Ht as [->|(t & -> & _)]; [done|]. apply od_set_keep; [|done]. set_solver.
  - intros x Hx. rewrite Hsame in Hx. destruct Ht as [E|(t & E & _)]; rewrite E in Hx; [by left|].
    apply od_set_inv in Hx as [->|?]; [right; left|by left].
  - intros j ->%list_elem_of_singleton _ Hn. destruct Hn. unfold failures. cbn. set_solver.
Qed.

Lemma submit_request_step md name key i (st : state) :
  NoDup (hla_request_meta md).*1 → aligned i → key_of cfg name = Ok key →
  ∃ st' F es, submit_request_layer cfg md name key i st = (st', Ok tt) ∧ pair_step md [i] key st st' F es.
Proof.
  intros Hnd (Lu & Ls & Lv) Hkey. unfold submit_request_layer. unfold mbind at 1, M_bind at 1, get_state.
  case_bool_decide as Hdead; [exists st, ∅, []; split; [done|]; apply pair_step_skip; by left|].
  case_bool_decide as Hsel.
  { exists st, ∅, []. split; [done|]. apply pair_step_skip. right. intros Hin. by apply selected_some in Hin. }
  rewrite !pick_selected by done. do 3 (erewrite bind_ok; [|reflexivity]). cbv beta.
  assert (∀ st1 es, hruns hcfg st st1 es → hw_worker st1.1.1 = hw_worker st.1.1 →
    failures st1 = failures st → marks (hw_loads st1.1.1) = marks (hw_loads st.1.1) →
    (tasks_at st1 = tasks_at st ∨ ∃ t, tasks_at st1 key = od_set (li_request_id i) t (tasks_at st key) ∧
       ∀ key', key' ≠ key → tasks_at st1 key' = tasks_at st key') →
    ∃ st' F es', _mark_load_failed md (li_request_id i) st1 = (st', Ok tt) ∧
      pair_step md [i] key st st' F es') as Hfail.
  { intros st1 es Hrun Hw Hf Hm Ht.
    destruct (pair_step_fail md i key st st1 es Hnd Hrun Hw Hf Hm Ht) as (st' & -> & Hst). eauto. }
  unfold try_except. unfold mbind at 1, M_bind at 1, lift_outcome at 1.
  destruct (extract_layer_addrs _ _ _ _) as [ptrs|e] eqn:Ep; [|apply (Hfail st []); eauto; by apply hruns_same].
  apply (extract_pair _ _ _ _ Hkey) in Ep as ->.
  unfold mbind at 1, M_bind at 1, lift_outcome at 1.
  destruct (distribute_group cfg key.1) as [dist|e]; [|apply (Hfail st []); eauto; by apply hruns_same].
  unfold mbind at 1, M_bind at 1.
  destruct (hla_submit_run hcfg {[li_request_id i := group_part key.1 (li_scoped_groups i) (li_unscoped_ucm i)]}
    (group_part key.1 (li_scoped_groups i) (li_scoped_ucm i))
    (replicate (length (group_part key.1 (li_scoped_groups i) (li_scoped_ucm i))) key.2)
    (pair_row layout key.1 key.2 <$> group_part key.1 (li_scoped_groups i) (li_scoped_vllm i)) dist st)
    as (r' & o & es & -> & Hrun & Hev).
  destruct o as [t|e]; [|apply (Hfail _ es); eauto].
  unfold mbind at 1, M_bind at 1, on_loads at 1, modify at 1.
  set (st1 := (set_hw_loads (add_task key (li_request_id i) t (hw_loads (st.1, r').1.1)) (st.1, r').1.1,
    (st.1, r').1.2, (st.1, r').2)).
  destruct (tasks_at_add st key (li_request_id i) t st1 eq_refl) as [Hk Hothers].
  assert (hruns hcfg st st1 es) as Hrun1 by (by destruct Hrun; split).
  unfold mbind at 1, M_bind at 1, lift_outcome at 1.
  destruct (layer_column_bytes _ _ _) as [n|e]; [|apply (Hfail st1 es); try done; right; by exists t].
  eexists _, ∅, es. split; [reflexivity|].
  split; try done.
  - by destruct Hrun1; split.
  - by apply hfails_none.
  - intros x Hx Hn. change (x ∈ tasks_at st1 key). rewrite Hk. apply od_set_keep; [set_solver|done].
  - intros x Hx. change (x ∈ tasks_at st1 key) in Hx. rewrite Hk in Hx.
    apply od_set_inv in Hx as [->|?]; [right; left|by left].
  - intros j ->%list_elem_of_singleton _ _. exists t. split.
    + change ((li_request_id i, t) ∈ tasks_at st1 key). rewrite Hk. apply od_set_elem.
    + eexists. by apply Hev.
Qed.

Lemma pair_step_cons md i rs key (st st1 st' : state) F1 F es1 es :
  li_request_id i ∉ li_request_id <$> rs →
  pair_step md [i] key st st1 F1 es1 → pair_step md rs key st1 st' F es →
  pair_step md (i :: rs) key st st' (F1 ∪ F) (es1 ++ es).
Proof.
  intros Hi [R1 F1' M1 O1 K1 N1 T1] [R2 F2' M2 O2 K2 N2 T2]. split.
  - by eapply hruns_trans.
  - by apply (hfails_trans md [_] _ F1 F st st1 st').
  - congruence.
  - intros key' Hne. by rewrite O2, O1.
  - intros x Hx Hn. apply K2; [apply K1|]; set_solver.
  - intros x Hx%N2. destruct Hx as [Hx%N1|Hx]; [|right; by right].
    destruct Hx as [?|Hx]; [by left|]. right. apply list_elem_of_singleton in Hx. rewrite Hx. left.
  - intros j [->|Hj]%elem_of_cons Hg Hn.
    + destruct (T1 i) as (t & Ht & Hs); [left|done|rewrite (hf_failures _ _ _ _ _ F2') in Hn; set_solver|].
      exists t. split; [by apply K2|]. eapply pair_submitted_mono; [|done]. set_solver.
    + destruct (T2 j Hj Hg Hn) as (t & Ht & Hs). exists t. split; [done|].
      eapply pair_submitted_mono; [|done]. set_solver.
Qed.

Lemma submit_requests_step md name key rs (st : state) :
  NoDup (hla_request_meta md).*1 → NoDup (li_request_id <$> rs) → Forall aligned rs → key_of cfg name = Ok key →
  ∃ st' F es, for_each rs (submit_request_layer cfg md name key) st = (st', Ok tt) ∧
    pair_step md rs key st st' F es.
Proof.
  intros Hnd Hrs Hal Hkey. revert st. induction rs as [|i rs IH]; intros st; cbn [for_each].
  { exists st, ∅, []. split; [done|].
    split; try done; [by apply hruns_same|by apply hfails_none|by left|set_solver]. }
  apply list.NoDup_cons in Hrs as [Hi Hrs]. apply Forall_cons in Hal as [Hai Hal].
  destruct (submit_request_step md name key i st Hnd Hai Hkey) as (st1 & F1 & es1 & E1 & Hs1).
  erewrite bind_ok; [|exact E1].
  destruct (IH Hrs Hal st1) as (st' & F & es & -> & Hs). eexists st', _, _. split; [done|].
  by eapply pair_step_cons.
Qed.

(** ** Waiting *)

Lemma wait_tasks_step md ts (st : state) :
  NoDup (hla_request_meta md).*1 → loads_at store st.2.1 →
  ∃ st' F es, for_each ts (wait_pair_task md) st = (st', Ok tt) ∧
    hruns hcfg st st' es ∧ hfails md ts.*1 F st st' ∧ marks (hw_loads st'.1.1) = marks (hw_loads st.1.1) ∧
    load_tasks (hw_loads st'.1.1) = load_tasks (hw_loads st.1.1) ∧
    (∀ x, x ∈ ts → x.1 ∉ F → EvWait store x.2 (Ok tt) ∈ es).
Proof.
  intros Hnd. revert st. induction ts as [|[id t] ts IH]; intros st Hl; cbn [for_each].
  { exists st, ∅, []. split_and!; [done|by apply hruns_same|by apply hfails_none|done|done|set_solver]. }
  assert (∃ st1 F1 es1, wait_pair_task md (id, t) st = (st1, Ok tt) ∧
    hruns hcfg st st1 es1 ∧ hfails md [id] F1 st st1 ∧ marks (hw_loads st1.1.1) = marks (hw_loads st.1.1) ∧
    load_tasks (hw_loads st1.1.1) = load_tasks (hw_loads st.1.1) ∧
    (id ∉ F1 → EvWait store t (Ok tt) ∈ es1)) as (st1 & F1 & es1 & E1 & Hrun1 & Hf1 & Hm1 & Ht1 & Hw1).
  { unfold wait_pair_task, try_except. cbn [fst snd].
    destruct (hla_wait_run hcfg t st Hl) as (r' & o & es & -> & Hrun & Hw). destruct o as [[]|e].
    - eexists _, ∅, es. split; [reflexivity|]. split_and!; [done|by apply hfails_none|done|done|auto].
    - destruct (mark_failed_spec md id (st.1, r') Hnd) as (w' & -> & Hrep).
      eexists _, {[id]}, es. split; [reflexivity|].
      split; [by destruct Hrun; split|]. split; [|split_and!; [done|done|set_solver]].
      split; [done| |exact Hrep]. intros x ->%elem_of_singleton. left. }
  erewrite bind_ok; [|exact E1].
  destruct (IH st1) as (st' & F & es & -> & Hrun & Hf & Hm & Ht & Hw); [by apply Hrun1|].
  exists st', (F1 ∪ F), (es1 ++ es). split_and!; [done|by eapply hruns_trans| |congruence|congruence|].
  - by apply (hfails_trans md [id] _ F1 F st st1 st').
  - intros x [->|Hx]%elem_of_cons Hn; apply elem_of_app; [left; apply Hw1|right; apply Hw]; set_solver.
Qed.

(** ** The pipeline of a step *)

(** Which hooks a step may call: none is more than two positions ahead of all
    that were called before. *)
Fixpoint hooks_ok (hi : Z) (names : list string) : bool :=
  match names with
  | [] => true
  | name :: rest =>
      match layer_pos cfg name with
      | None => hooks_ok hi rest
      | Some pos => (pos <=? hi) && hooks_ok (Z.max hi (pos + 2)) rest
      end
  end.
Hypothesis Hkeys : ∀ name, name ∈ order → ∃ key, key_of cfg name = Ok key.

Section batch.
Variable md : HlaMetadata.
Hypothesis Hnd : NoDup (hla_request_meta md).*1.
Hypothesis Hal : Forall loads_aligned (hla_request_meta md).
Abbreviation plan := (items hcfg md).

Definition subm (st : state) : gset pair_key := _submitted_group_slots (hw_loads st.1.1).
Definition wtd (st : state) : gset pair_key := _waited_group_slots (hw_loads st.1.1).

(** A request has something to load at a pair, and has not failed. *)
Definition wants (st : state) (key : pair_key) (i : load_item) : Prop :=
  i ∈ plan ∧ key.1 ∈ li_scoped_groups i ∧ li_request_id i ∉ failures st.

(** Since [s0], with the events [es]: the positions up to [hi] are submitted;
    what is submitted is in flight or has been waited for. *)
Record pipeline (ex : gset string) (s0 : HlaWorker) (hi : Z) (st : state) (es : list store_event) : Prop := {
  pl_metadata : hw_metadata st.1.1 = Some md;
  pl_data : request_data (hw_loads st.1.1) = plan;
  pl_need : need_load (hw_loads st.1.1) = bool_decide (plan ≠ []);
  pl_at : loads_at store st.2.1;
  pl_reports : hreports (failures st) md s0 st.1.1;
  pl_failures id : id ∈ failures st → id ∈ li_request_id <$> plan;
  pl_positions pos : pos ∈ _submitted_positions (hw_loads st.1.1) →
    ∃ name key, order !! Z.to_nat pos = Some name ∧ key_of cfg name = Ok key ∧ key ∈ subm st;
  pl_upto pos : plan ≠ [] → 0 ≤ pos ≤ hi → pos < zlen order → pos ∈ _submitted_positions (hw_loads st.1.1);
  pl_waited name : name ∈ _waited_layers (hw_loads st.1.1) → name ∉ ex →
    ∃ pos key, layer_pos cfg name = Some pos ∧ pos + 2 ≤ hi ∧ key_of cfg name = Ok key ∧ key ∈ wtd st;
  pl_sub : wtd st ⊆ subm st;
  pl_ids key x : x ∈ tasks_at st key → x.1 ∈ li_request_id <$> plan;
  pl_pending key i : key ∈ subm st → key ∉ wtd st → wants st key i →
    ∃ t, (li_request_id i, t) ∈ tasks_at st key ∧ pair_submitted es i key t;
  pl_loaded key i : key ∈ wtd st → wants st key i → pair_loaded es i key;
}.

(** Changes of the marks only. *)
Lemma pipeline_mark ex s0 hi hi' (st : state) es l' :
  let l := hw_loads st.1.1 in
  let st' := (set_hw_loads l' st.1.1, st.1.2, st.2) in
  pipeline ex s0 hi st es →
  request_data l' = request_data l → load_tasks l' = load_tasks l → need_load l' = need_load l →
  _failure_req_ids l' = _failure_req_ids l →
  _submitted_group_slots l' = _submitted_group_slots l → _waited_group_slots l' = _waited_group_slots l →
  (∀ pos, pos ∈ _submitted_positions l' → ∃ name key,
     order !! Z.to_nat pos = Some name ∧ key_of cfg name = Ok key ∧ key ∈ subm st) →
  (∀ pos, plan ≠ [] → 0 ≤ pos ≤ hi' → pos < zlen order → pos ∈ _submitted_positions l') →
  (∀ name, name ∈ _waited_layers l' → name ∉ ex →
     ∃ pos key, layer_pos cfg name = Some pos ∧ pos + 2 ≤ hi' ∧ key_of cfg name = Ok key ∧ key ∈ wtd st) →
  pipeline ex s0 hi' st' es.
Proof.
  intros l st' [] E1 E2 E3 E4 E5 E6 Hpos Hup Hw.
  assert (failures st' = failures st) as Ef by done.
  assert (subm st' = subm st) as Es by done. assert (wtd st' = wtd st) as Ew by done.
  assert (∀ key, tasks_at st' key = tasks_at st key) as Et by (intros; unfold tasks_at; cbn; by rewrite E2).
  assert (∀ key i, wants st' key i ↔ wants st key i) as Ewants by (intros; unfold wants; by rewrite Ef).
  split; rewrite ?Ef, ?Es, ?Ew; try done.
  - cbn. by rewrite E1.
  - cbn. by rewrite E3.
  - intros key x. rewrite Et. by apply pl_ids0.
  - intros key i Hs Hn Hwa. rewrite Et. apply pl_pending0; [done|done|by apply Ewants].
  - intros key i Hs Hwa. apply pl_loaded0; [done|by apply Ewants].
Qed.

(** The loads of a pair were submitted. *)
Lemma pipeline_submitted ex s0 hi pos name key (st st1 : state) F es es1 :
  0 ≤ pos ≤ hi + 1 → order !! Z.to_nat pos = Some name → key_of cfg name = Ok key →
  pipeline ex s0 hi st es → pair_step md plan key st st1 F es1 →
  pipeline ex s0 (Z.max hi pos)
    (set_hw_loads (add_submitted pos {[key]} (hw_loads st1.1.1)) st1.1.1, st1.1.2, st1.2) (es ++ es1).
Proof.
  intros Hpos Hname Hkey [] [Hrun Hf Hm Ho Hk Hn Ht].
  injection Hm as Em1 Em2 Em3 Em4. fold (subm st1) (subm st) in Em3. fold (wtd st1) (wtd st) in Em4.
  assert (∀ x, 0 ≤ x ≤ Z.max hi pos → x ≤ hi ∨ x = pos) as Hcases by lia.
  assert (∀ k i, wants st1 k i → wants st k i) as Hwants.
  { intros k i (? & ? & Hno). split_and!; [done|done|]. rewrite (hf_failures _ _ _ _ _ Hf) in Hno. set_solver. }
  split; cbn [fst snd].
  - cbn. rewrite (hr_metadata _ _ _ _ Hrun). done.
  - cbn. by rewrite (hr_data _ _ _ _ Hrun).
  - cbn. by rewrite (hr_need _ _ _ _ Hrun).
  - by apply Hrun.
  - change (hreports (failures st1) md s0 st1.1.1). rewrite (hf_failures _ _ _ _ _ Hf), union_comm_L.
    eapply hreports_trans; [done|]. apply Hf.
  - change (∀ id, id ∈ failures st1 → id ∈ li_request_id <$> plan). intros id.
    rewrite (hf_failures _ _ _ _ _ Hf). intros [?|?]%elem_of_union; [by apply Hf|auto].
  - intros x. cbn. rewrite Em1. intros [Hx%elem_of_singleton|Hx]%elem_of_union.
    + subst x. exists name, key. split_and!; [done|done|set_solver].
    + destruct (pl_positions0 x Hx) as (n & k & ? & ? & ?). exists n, k. split_and!; [done|done|].
      change (k ∈ {[key]} ∪ subm st1). rewrite Em3. set_solver.
  - intros x Hne Hx Hlx. cbn. rewrite Em1. destruct (Hcases x Hx) as [Hle|Hxp]; [|subst x; set_solver].
    apply elem_of_union_r, pl_upto0; [done|lia|done].
  - intros n. cbn. rewrite Em2. intros Hna Hex.
    destruct (pl_waited0 n Hna Hex) as (p & k & ? & ? & ? & ?). exists p, k.
    split_and!; [done|lia|done|]. change (k ∈ wtd st1). by rewrite Em4.
  - change (wtd st1 ⊆ {[key]} ∪ subm st1). rewrite Em3, Em4. set_solver.
  - change (∀ k x, x ∈ tasks_at st1 k → x.1 ∈ li_request_id <$> plan). intros k x.
    destruct (decide (k = key)) as [->|Hne]; [|rewrite Ho by done; apply pl_ids0].
    intros [?|?]%Hn; [by eapply pl_ids0|done].
  - change (∀ k i, k ∈ {[key]} ∪ subm st1 → k ∉ wtd st1 → wants st1 k i →
      ∃ t, (li_request_id i, t) ∈ tasks_at st1 k ∧ pair_submitted (es ++ es1) i k t).
    intros k i Hk' Hnw Hwa. destruct (decide (k = key)) as [->|Hne].
    + destruct Hwa as (? & ? & ?). destruct (Ht i) as (t & ? & ?); [done..|].
      exists t. split; [done|]. eapply pair_submitted_mono; [|done]. set_solver.
    + rewrite Ho by done. destruct (pl_pending0 k i) as (t & ? & ?).
      * rewrite Em3 in Hk'. set_solver.
      * by rewrite <- Em4.
      * by apply Hwants.
      * exists t. split; [done|]. eapply pair_submitted_mono; [|done]. set_solver.
  - change (∀ k i, k ∈ wtd st1 → wants st1 k i → pair_loaded (es ++ es1) i k).
    intros k i Hk' Hwa. eapply pair_loaded_mono; [|apply pl_loaded0; [by rewrite <- Em4|by apply Hwants]]. set_solver.
Qed.

Lemma submit_layer_step ex s0 hi pos (st : state) es :
  0 ≤ pos ≤ hi + 1 → plan ≠ [] → pipeline ex s0 hi st es →
  ∃ st' es', _submit_layer_load cfg pos st = (st', Ok tt) ∧ log st'.2.2 = log st.2.2 ++ es' ∧
    pipeline ex s0 (Z.max hi pos) st' (es ++ es') ∧ wtd st' = wtd st ∧ subm st ⊆ subm st'.
Proof.
  intros Hpos Hplan Hp. unfold _submit_layer_load. unfold mbind at 1, M_bind at 1, get_state.
  destruct ((pos <? 0) || (zlen order <=? pos) ||
    bool_decide (pos ∈ _submitted_positions (hw_loads st.1.1))) eqn:Hskip.
  { exists st, []. rewrite !app_nil_r. split_and!; [done|done| |done|done]. destruct Hp. split; try done.
    - intros x _ Hx Hlt. destruct (decide (x ≤ hi)) as [?|Hgt]; [apply pl_upto0; [done|lia|done]|].
      assert (x = pos) as -> by lia.
      apply orb_true_iff in Hskip as [Hb|Hb%bool_decide_eq_true]; [|done].
      apply orb_true_iff in Hb as [?%Z.ltb_lt|?%Z.leb_le]; lia.
    - intros name Hna Hex. destruct (pl_waited0 name Hna Hex) as (p & key & ? & ? & ? & ?). exists p, key. split_and!; [done|lia|done|done]. }
  apply orb_false_iff in Hskip as [[_ Hlt%Z.leb_gt]%orb_false_iff Hnew%bool_decide_eq_false].
  destruct (lookup_lt_is_Some_2 order (Z.to_nat pos)) as [name Hname]; [unfold zlen in Hlt; lia|].
  unfold list_index. rewrite Hname. erewrite bind_ok; [|reflexivity].
  destruct (Hkeys name) as [key Hkey]; [by eapply list_elem_of_lookup_2|].
  rewrite Hkey. erewrite bind_ok; [|reflexivity].
  assert (∀ x, 0 ≤ x ≤ Z.max hi pos → x ≤ hi ∨ x = pos) as Hcases by lia.
  case_bool_decide as Hin.
  { eexists _, []. rewrite !app_nil_r. split; [reflexivity|]. split; [done|]. split; [|split; [done|cbn; set_solver]].
    apply (pipeline_mark ex s0 hi); try done; cbn.
    - by rewrite union_empty_l_L.
    - intros x [Hx%elem_of_singleton|Hx]%elem_of_union; [subst x; by exists name, key|]. by apply (pl_positions _ _ _ _ _ Hp).
    - intros x Hne Hx Hlx. destruct (Hcases x Hx) as [Hle|Hxp]; [|subst x; set_solver].
      apply elem_of_union_r. apply (pl_upto _ _ _ _ _ Hp); [done|lia|done].
    - intros n Hna Hex. destruct (pl_waited _ _ _ _ _ Hp n Hna Hex) as (p & k & ? & ? & ? & ?). exists p, k. split_and!; [done|lia|done|done]. }
  erewrite bind_ok by (unfold hla_get_connector_metadata, mbind, M_bind, get_state; by rewrite (pl_metadata _ _ _ _ _ Hp)).
  rewrite (pl_data _ _ _ _ _ Hp).
  destruct (submit_requests_step md name key plan st Hnd) as (st1 & F & es1 & E1 & Hs);
    [by apply items_NoDup| |done|].
  { apply Forall_forall. intros i. by apply items_aligned. }
  erewrite bind_ok; [|exact E1]. eexists _, es1. split; [reflexivity|]. split; [apply Hs|].
  split; [by eapply pipeline_submitted|].
  pose proof (ps_marks _ _ _ _ _ _ _ Hs) as [= _ _ Em3 Em4]. split; [exact Em4|cbn; set_solver].
Qed.

(** The tasks of a pair were waited for. *)
Lemma wait_pair_step ex s0 hi key (st : state) es :
  key ∈ subm st → key ∉ wtd st → pipeline ex s0 hi st es →
  ∃ st' es', _wait_layer_load_pair key
      (set_hw_loads (add_waited ∅ {[key]} (hw_loads st.1.1)) st.1.1, st.1.2, st.2) = (st', Ok tt) ∧
    log st'.2.2 = log st.2.2 ++ es' ∧ pipeline ex s0 hi st' (es ++ es') ∧ wtd st' = {[key]} ∪ wtd st ∧
    subm st' = subm st ∧ _waited_layers (hw_loads st'.1.1) = _waited_layers (hw_loads st.1.1).
Proof.
  intros Hin Hout [].
  unfold _wait_layer_load_pair.
  erewrite bind_ok by (unfold hla_get_connector_metadata, mbind, M_bind, get_state; cbn; by rewrite pl_metadata0).
  unfold mbind at 1, M_bind at 1, get_state. unfold mbind at 1, M_bind at 1, on_loads at 1, modify. cbn [fst snd].
  set (st1 := (set_hw_loads (drop_tasks key (add_waited ∅ {[key]} (hw_loads st.1.1))) st.1.1, st.1.2, st.2)).
  fold (tasks_at st key).
  destruct (wait_tasks_step md (tasks_at st key) st1 Hnd pl_at0)
    as (st2 & F & es' & E & Hrun & Hf & Hm & Ht & Hw).
  erewrite bind_ok; [|exact E]. injection Hm as Em1 Em2 Em3 Em4. cbn in Em1, Em2, Em3, Em4.
  fold (subm st2) (subm st) in Em3. fold (wtd st2) (wtd st) in Em4.
  eexists _, es'. split; [reflexivity|]. split; [apply Hrun|].
  rewrite union_empty_l_L in Em2. split; [|by split_and!].
  assert (failures st2 = F ∪ failures st) as Ef by apply Hf.
  assert (∀ k i, wants st2 k i → wants st k i) as Hwants.
  { intros k i (? & ? & Hno). split_and!; [done|done|]. rewrite Ef in Hno. set_solver. }
  assert (∀ k, tasks_at st2 k = if decide (k = key) then [] else tasks_at st k) as Htasks.
  { intros k. unfold tasks_at. rewrite Ht. change (load_tasks (hw_loads st1.1.1)) with (od_del key (load_tasks (hw_loads st.1.1))).
    rewrite od_get_del. by destruct (decide (k = key)). }
  split; cbn [fst snd].
  - cbn. by rewrite (hr_metadata _ _ _ _ Hrun).
  - cbn. by rewrite (hr_data _ _ _ _ Hrun).
  - cbn. by rewrite (hr_need _ _ _ _ Hrun).
  - by apply Hrun.
  - change (hreports (failures st2) md s0 st2.1.1). rewrite Ef, union_comm_L.
    eapply hreports_trans; [exact pl_reports0|]. apply (hf_reports _ _ _ _ _ Hf).
  - change (∀ id, id ∈ failures st2 → id ∈ li_request_id <$> plan). intros id. rewrite Ef.
    intros [Hid|?]%elem_of_union; [|auto].
    apply (hf_ids _ _ _ _ _ Hf), list_elem_of_fmap in Hid as (x & -> & Hx). by eapply pl_ids0.
  - intros x. cbn. rewrite Em1. intros (n & k & ? & ? & ?)%pl_positions0. exists n, k.
    split_and!; [done|done|]. change (k ∈ subm st2). by rewrite Em3.
  - intros x. cbn. rewrite Em1. apply pl_upto0.
  - intros n. cbn. rewrite Em2. intros Hna Hex.
    destruct (pl_waited0 n Hna Hex) as (p & k & ? & ? & ? & ?). exists p, k.
    split_and!; [done|lia|done|]. change (k ∈ wtd st2). rewrite Em4. set_solver.
  - change (wtd st2 ⊆ subm st2). rewrite Em3, Em4. set_solver.
  - change (∀ k x, x ∈ tasks_at st2 k → x.1 ∈ li_request_id <$> plan). intros k x. rewrite Htasks.
    case_decide; [by intros ?%elem_of_nil|apply pl_ids0].
  - change (∀ k i, k ∈ subm st2 → k ∉ wtd st2 → wants st2 k i →
      ∃ t, (li_request_id i, t) ∈ tasks_at st2 k ∧ pair_submitted (es ++ es') i k t).
    intros k i Hk Hnw Hwa. rewrite Em3 in Hk. rewrite Em4 in Hnw.
    rewrite Htasks, decide_False by set_solver.
    destruct (pl_pending0 k i) as (t & ? & ?); [done|set_solver|by apply Hwants|].
    exists t. split; [done|]. eapply pair_submitted_mono; [|done]. set_solver.
  - change (∀ k i, k ∈ wtd st2 → wants st2 k i → pair_loaded (es ++ es') i k).
    intros k i Hk Hwa. rewrite Em4 in Hk. destruct (decide (k = key)) as [->|Hne].
    + destruct (pl_pending0 key i Hin Hout (Hwants _ _ Hwa)) as (t & Hti & Hs). exists t.
      split; [eapply pair_submitted_mono; [|done]; set_solver|]. apply elem_of_app. right.
      apply (Hw (li_request_id i, t) Hti). destruct Hwa as (_ & _ & Hno). rewrite Ef in Hno. set_solver.
    + eapply pair_loaded_mono; [|apply pl_loaded0; [set_solver|by apply Hwants]]. set_solver.
Qed.

Lemma pipeline_hi ex s0 hi hi' (st : state) es :
  hi ≤ hi' → plan = [] ∨ (∀ pos, hi < pos ≤ hi' → pos < zlen order → pos ∈ _submitted_positions (hw_loads st.1.1)) →
  pipeline ex s0 hi st es → pipeline ex s0 hi' st es.
Proof.
  intros Hle Hor []. split; try done.
  - intros pos Hne Hpos Hlt. destruct Hor as [?|Hor]; [done|].
    destruct (decide (pos ≤ hi)); [apply pl_upto0|apply Hor]; (done || lia).
  - intros name Hna Hex. destruct (pl_waited0 name Hna Hex) as (p & k & ? & ? & ? & ?). exists p, k. split_and!; [done|lia|done|done].
Qed.

Lemma record_step ex s0 hi (st : state) es :
  pipeline ex s0 hi st es → ∃ st' r, _record_load_bytes st = (st', Ok r) ∧ st'.2 = st.2 ∧
    pipeline ex s0 hi st' es ∧ wtd st' = wtd st ∧ _waited_layers (hw_loads st'.1.1) = _waited_layers (hw_loads st.1.1).
Proof.
  intros Hp. unfold _record_load_bytes. unfold mbind at 1, M_bind at 1, get_state.
  destruct (_load_bytes_recorded (hw_loads st.1.1)); [by exists st, None|].
  eexists _, _. split; [reflexivity|]. split; [done|]. split; [|done].
  apply (pipeline_mark ex s0 hi); try done; cbn; apply Hp.
Qed.

(** The wait of a hook, unless the pair has been waited for. *)
Lemma hook_wait ex s0 hi name key pos (st : state) es :
  plan ≠ [] → layer_pos cfg name = Some pos → key_of cfg name = Ok key → pos ≤ hi → pipeline ex s0 hi st es →
  ∃ st' r es', (if bool_decide (key ∈ wtd st) then mret None
      else on_loads (add_waited ∅ {[key]}) ;; _wait_layer_load_pair key ;;
           if pos =? zlen order - 1 then _record_load_bytes else mret None) st = (st', Ok r) ∧
    log st'.2.2 = log st.2.2 ++ es' ∧ pipeline ex s0 hi st' (es ++ es') ∧ key ∈ wtd st' ∧ wtd st ⊆ wtd st' ∧
    _waited_layers (hw_loads st'.1.1) = _waited_layers (hw_loads st.1.1).
Proof.
  intros Hplan Hpos Hkey Hle Hp. case_bool_decide as Hin.
  { exists st, None, []. rewrite !app_nil_r. done. }
  unfold layer_pos in Hpos. apply fmap_Some in Hpos as ([n x] & [Hn [-> _]]%list_find_Some & ->). simpl in *.
  assert (key ∈ subm st) as Hsub.
  { apply lookup_lt_Some in Hn as Hlt.
    destruct (pl_positions _ _ _ _ _ Hp (Z.of_nat n)) as (name' & key' & Hn' & Hk' & ?).
    - apply (pl_upto _ _ _ _ _ Hp); [done|lia|unfold zlen; lia].
    - rewrite Nat2Z.id in Hn'. assert (key' = key) as <- by congruence. done. }
  destruct (wait_pair_step ex s0 hi key st es Hsub Hin Hp) as (st1 & es1 & E1 & Hlog1 & Hp1 & Hw1 & _ & Hl1).
  erewrite bind_ok; [|reflexivity]. erewrite bind_ok; [|exact E1].
  destruct (_ =? _).
  - destruct (record_step ex s0 hi st1 _ Hp1) as (st' & r & -> & E2 & Hp' & Hw' & Hl').
    exists st', r, es1. rewrite E2, Hw', Hl'. split_and!; [done|done|done|set_solver|set_solver|done].
  - exists st1, None, es1. split_and!; [done|done|done|set_solver|set_solver|done].
Qed.

(** The marks of some hooks hold after all. *)
Lemma pipeline_exempt ex s0 hi (st : state) es :
  pipeline ex s0 hi st es →
  (∀ name, name ∈ ex → ∃ pos key, layer_pos cfg name = Some pos ∧ pos + 2 ≤ hi ∧ key_of cfg name = Ok key ∧
     key ∈ wtd st) →
  pipeline ∅ s0 hi st es.
Proof.
  intros [] Hex. split; try done. intros name Hna _.
  destruct (decide (name ∈ ex)); [by apply Hex|by apply pl_waited0].
Qed.

Lemma hook_step s0 hi name (st : state) es :
  0 ≤ hi → (∀ pos, layer_pos cfg name = Some pos → pos ≤ hi) → pipeline ∅ s0 hi st es →
  ∃ st' r es', hlw_wait_for_layer_load cfg name st = (st', Ok r) ∧ log st'.2.2 = log st.2.2 ++ es' ∧
    pipeline ∅ s0 (match layer_pos cfg name with Some pos => Z.max hi (pos + 2) | None => hi end) st' (es ++ es') ∧
    wtd st ⊆ wtd st' ∧
    (plan ≠ [] → layer_pos cfg name ≠ None → ∃ key, key_of cfg name = Ok key ∧ key ∈ wtd st').
Proof.
  intros Hhi Hle Hp. unfold hlw_wait_for_layer_load. unfold mbind at 1, M_bind at 1, get_state.
  rewrite (pl_metadata _ _ _ _ _ Hp), (pl_need _ _ _ _ _ Hp).
  destruct (layer_pos cfg name) as [pos|] eqn:Hpos.
  2:{ exists st, None, []. rewrite !app_nil_r. done. }
  specialize (Hle pos eq_refl). case_bool_decide as Hplan; cbn [negb orb].
  2:{ exists st, None, []. rewrite !app_nil_r. split_and!; [done|done| |done|done].
      apply (pipeline_hi ∅ s0 hi); [lia| |done]. left. destruct plan; [done|by destruct Hplan]. }
  case_bool_decide as Hw.
  { exists st, None, []. rewrite !app_nil_r.
    destruct (pl_waited _ _ _ _ _ Hp name Hw) as (p & key & Ep & ? & ? & ?); [set_solver|].
    assert (p = pos) as -> by congruence. rewrite Z.max_l by lia. split_and!; [done|done|done|done|eauto]. }
  pose proof Hpos as ([n x] & [Hn [Hx _]]%list_find_Some & Epos)%fmap_Some. simpl in Hx, Epos. subst x.
  destruct (Hkeys name) as [key Hkey]; [by eapply list_elem_of_lookup_2|].
  unfold mbind at 1, M_bind at 1, on_loads at 1, modify. rewrite Hkey. erewrite bind_ok; [|reflexivity].
  change (_waited_group_slots (hw_loads st.1.1)) with (wtd st).
  set (st0 := (set_hw_loads (add_waited {[name]} ∅ (hw_loads st.1.1)) st.1.1, st.1.2, st.2)).
  assert (wtd st0 = wtd st) as Ew0 by (unfold wtd; cbn; by rewrite union_empty_l_L).
  assert (pipeline {[name]} s0 hi st0 es) as Hp0.
  { destruct Hp. apply (pipeline_mark {[name]} s0 hi); cbn; try done.
    - split; try done. intros n' Hn' _. apply pl_waited0; [done|set_solver].
    - intros n' [?|Hn']%elem_of_union Hne; [done|]. apply pl_waited0; [done|set_solver]. }
  destruct (hook_wait {[name]} s0 hi name key pos st0 es Hplan Hpos Hkey Hle Hp0)
    as (st1 & r & es1 & E1 & Hlog1 & Hp1 & Hk1 & Hsub1 & _).
  rewrite Ew0 in E1, Hsub1. erewrite bind_ok; [|exact E1].
  destruct (submit_layer_step {[name]} s0 hi (pos + 1) st1 _ ltac:(lia) Hplan Hp1)
    as (st2 & es2 & E2 & Hlog2 & Hp2 & Hw2 & _). erewrite bind_ok; [|exact E2].
  destruct (submit_layer_step {[name]} s0 (Z.max hi (pos + 1)) (pos + 2) st2 _ ltac:(lia) Hplan Hp2)
    as (st3 & es3 & E3 & Hlog3 & Hp3 & Hw3 & _). erewrite bind_ok; [|exact E3].
  eexists st3, r, ((es1 ++ es2) ++ es3). split; [done|].
  split; [rewrite Hlog3, Hlog2, Hlog1; by rewrite !app_assoc|].
  rewrite Hw3, Hw2. split; [|split; [done|eauto]].
  replace (Z.max hi (pos + 2)) with (Z.max (Z.max hi (pos + 1)) (pos + 2)) by lia. rewrite !app_assoc.
  apply (pipeline_exempt {[name]}); [done|]. intros n' ->%elem_of_singleton.
  exists pos, key. split_and!; [done|lia|done|]. by rewrite Hw3, Hw2.
Qed.

(** Hooks called in some order; those of layers without cache do nothing. *)
Definition run_hooks (names : list string) : M state unit :=
  for_each names (λ name, hlw_wait_for_layer_load cfg name ;; mret tt).

Lemma hooks_step s0 hi names (st : state) es :
  0 ≤ hi → hooks_ok hi names = true → pipeline ∅ s0 hi st es →
  ∃ st' hi' es', run_hooks names st = (st', Ok tt) ∧ log st'.2.2 = log st.2.2 ++ es' ∧
    pipeline ∅ s0 hi' st' (es ++ es') ∧ wtd st ⊆ wtd st' ∧
    (plan ≠ [] → ∀ name, name ∈ names → layer_pos cfg name ≠ None →
       ∃ key, key_of cfg name = Ok key ∧ key ∈ wtd st').
Proof.
  revert hi st es. unfold run_hooks. induction names as [|name names IH]; intros hi st es Hhi Hok Hp; cbn [for_each].
  { exists st, hi, []. rewrite !app_nil_r. split_and!; [done|done|done|done|set_solver]. }
  assert (∀ pos, layer_pos cfg name = Some pos → pos ≤ hi) as Hle.
  { intros pos E. cbn in Hok. rewrite E in Hok. by apply andb_true_iff in Hok as [?%Z.leb_le _]. }
  destruct (hook_step s0 hi name st es Hhi Hle Hp) as (st1 & r & es1 & E1 & Hlog1 & Hp1 & Hs1 & Hk1).
  erewrite bind_ok; [|by erewrite bind_ok; [|exact E1]].
  set (hi1 := match layer_pos cfg name with Some pos => Z.max hi (pos + 2) | None => hi end) in Hp1.
  assert (0 ≤ hi1) as Hhi1 by (unfold hi1; destruct (layer_pos cfg name); lia).
  assert (hooks_ok hi1 names = true) as Hok1.
  { unfold hi1. cbn in Hok. destruct (layer_pos cfg name); [|done]. by apply andb_true_iff in Hok as [_ ?]. }
  destruct (IH hi1 st1 _ Hhi1 Hok1 Hp1) as (st' & hi' & es' & -> & Hlog & Hp' & Hs & Hk).
  exists st', hi', (es1 ++ es'). split; [done|]. rewrite Hlog, Hlog1, !app_assoc.
  split_and!; [done|done|set_solver|]. intros Hne n [->|Hn]%elem_of_cons Hpos; [|by apply Hk].
  destruct (Hk1 Hne Hpos) as (key & ? & ?). exists key. split; [done|set_solver].
Qed.

(** The state after [start_load_kv]. *)
Lemma start_step (st : state) :
  hw_metadata st.1.1 = Some md → order ≠ [] → dumps_started (hw_dumps st.1.1) = false →
  loads_at store st.2.1 → (synchronize st.1.2).2 = Ok tt →
  ∃ st' es, hlw_start_load_kv cfg st = (st', Ok tt) ∧ log st'.2.2 = log st.2.2 ++ es ∧
    pipeline ∅ st.1.1 1 st' es.
Proof.
  intros Hmd Horder Hst Hat Hsync. unfold hlw_start_load_kv.
  erewrite bind_ok by (unfold hla_get_connector_metadata, mbind, M_bind, get_state; by rewrite Hmd).
  destruct (begin_loads hcfg md st)
    as (lo & st1 & E0 & E1 & Hdata & Hneed & Htasks & Hfail & Hpos & Hlay & Hsub & Hwt).
  rewrite Hst in Hsub, Hwt, E1. erewrite bind_ok; [|exact E0]. erewrite bind_ok; [|exact E1]. clear E0 E1 st1.
  set (s1 := mkHlaWorker _ _ lo _). unfold mbind at 1, M_bind at 1, get_state. cbn [fst snd hw_loads s1].
  rewrite Hneed, (bool_decide_eq_false_2 (order = [])), orb_false_r by done.
  assert (∀ d, pipeline ∅ st.1.1 (-1) (s1, d, st.2) []) as Hp.
  { intros d. assert (failures (s1, d, st.2) = ∅) as Ef by done.
    split; rewrite ?Ef; unfold subm, wtd, tasks_at; cbn; rewrite ?Hsub, ?Hwt, ?Hlay, ?Hpos, ?Htasks; try done.
    - by apply hreports_refl.
    - lia.
    - intros k x Hx. simpl in Hx. by apply elem_of_nil in Hx. }
  case_bool_decide as Hplan; cbn [negb].
  2:{ exists (s1, st.1.2, st.2), []. rewrite app_nil_r. split_and!; [done|done|].
      apply (pipeline_hi ∅ _ (-1)); [lia| |done]. left. destruct plan; [done|by destruct Hplan]. }
  destruct (synchronize st.1.2) as [d' o] eqn:Ed. simpl in Hsync. subst o.
  assert (on_base (W := Logged W) (on_device synchronize) (s1, st.1.2, st.2) = ((s1, d', st.2), Ok tt)) as Es.
  { unfold on_base, on_device, zoom. cbn [fst snd]. rewrite Ed. cbn [fst snd]. by rewrite set_hw_worker_id. }
  erewrite bind_ok; [|exact Es].
  destruct (submit_layer_step ∅ st.1.1 (-1) 0 (s1, d', st.2) [] ltac:(lia) Hplan (Hp d'))
    as (st2 & es2 & E2 & Hlog2 & Hp2 & _). erewrite bind_ok; [|exact E2].
  destruct (submit_layer_step ∅ st.1.1 0 1 st2 _ ltac:(lia) Hplan Hp2) as (st3 & es3 & -> & Hlog3 & Hp3 & _).
  exists st3, (es2 ++ es3). rewrite Hlog3, Hlog2, <- app_assoc. done.
Qed.
End batch.
End layer_loads.

(** ** Registered connectors *)

Lemma registered_spec `{PySetOrder} index layout_name base kv caches cfg :
  strides_nonneg kv → hlw_register_kv_caches index layout_name base kv caches = Ok cfg →
  layout_ok kv (hw_layout (hlw_cfg cfg)) ∧ hw_kv (hlw_cfg cfg) = kv ∧ layer_order (hlw_cfg cfg) ≠ [] ∧
  layer_order (hlw_cfg cfg) ≡ₚ (hl_anchors (hw_layout (hlw_cfg cfg))).*1.
Proof.
  intros Hns. unfold hlw_register_kv_caches, _register_common, mbind, outcome_bind.
  destruct (bool_decide _); [done|]. destruct (hla_build_layout kv caches) as [l|] eqn:El; [|done]. cbv zeta.
  case_bool_decide as Hne; [done|]. destruct (deferred_layers _ _); [|done].
  destruct (commit_layers _ _ _ _); [|done]. intros [= <-]. cbn.
  split_and!; [by eapply build_layout_ok|done|done|]. apply sorting.merge_sort_Permutation.
Qed.

Lemma registered_keys `{PySetOrder} index layout_name base kv caches cfg name :
  strides_nonneg kv → hlw_register_kv_caches index layout_name base kv caches = Ok cfg →
  name ∈ layer_order (hlw_cfg cfg) → ∃ key, key_of cfg name = Ok key.
Proof.
  intros Hns Hreg. destruct (registered_spec _ _ _ _ _ _ Hns Hreg) as (Hl & Hkv & _ & ->). intros Hn.
  destruct (lo_anchored _ _ Hl _ Hn) as (gid & t & s & Hg & _ & Hs & _). exists (gid, s).
  unfold key_of. rewrite Hkv, (proj2 (map_get_Ok _ _ _) Hg), (proj2 (map_get_Ok _ _ _) Hs). done.
Qed.

(** C23 Layerwise loads arrive in time.  When a step starts with [start_load_kv] and
    then calls the hooks of its layers, in any order in which no hook is more than
    two positions ahead of those called before (so hooks may be repeated, and single
    hooks skipped), no call raises; and when a layer's hook has returned, all blocks
    of its group at its slot have been loaded for every request that is not reported
    as failed: submitted once for the layers that share the slot, at the addresses
    of the slot's pages, and waited for. *)
Theorem hla_layer_loads {W D : Type} `{StoreWorld W} `{DeviceWorld D} `{PySetOrder}
    (index : string → Z) (layout_name : string) (base : WorkerConfig) (kv : KVCacheConfig)
    (caches : list (string * kv_layer)) (cfg : HlaLayerConfig) (md : HlaMetadata)
    (st : HlaWorker * D * (RankConsistencyManager * Logged W)) (names : list string) :
  strides_nonneg kv → hlw_register_kv_caches index layout_name base kv caches = Ok cfg →
  NoDup (hla_request_meta md).*1 → Forall loads_aligned (hla_request_meta md) →
  hw_metadata st.1.1 = Some md → dumps_started (hw_dumps st.1.1) = false →
  loads_at (worker_store (hw_base (hlw_cfg cfg))) st.2.1 → (synchronize st.1.2).2 = Ok tt →
  hooks_ok cfg 1 names = true →
  ∃ st' F es, (hlw_start_load_kv cfg ;; run_hooks cfg names) st = (st', Ok tt) ∧
    log st'.2.2 = log st.2.2 ++ es ∧ hreports F md st.1.1 st'.1.1 ∧
    (∀ id, id ∈ F → id ∈ li_request_id <$> items (hlw_cfg cfg) md) ∧
    ∀ name, name ∈ names → layer_pos cfg name ≠ None → ∃ key, key_of cfg name = Ok key ∧
      ∀ i, i ∈ items (hlw_cfg cfg) md → li_request_id i ∉ F → key.1 ∈ li_scoped_groups i →
        pair_loaded cfg es i key.
Proof.
  intros Hns Hreg Hnd Hal Hmd Hst Hat Hsync Hok.
  assert (∀ name, name ∈ layer_order (hlw_cfg cfg) → ∃ key, key_of cfg name = Ok key) as Hkeys
    by (intros name; by eapply registered_keys).
  destruct (registered_spec _ _ _ _ _ _ Hns Hreg) as (_ & _ & Hne & _).
  destruct (start_step cfg Hkeys md Hnd Hal st Hmd Hne Hst Hat Hsync) as (st1 & es1 & E1 & Hlog1 & Hp1).
  erewrite bind_ok; [|exact E1].
  destruct (hooks_step cfg Hkeys md Hnd Hal st.1.1 1 names st1 es1 ltac:(lia) Hok Hp1)
    as (st' & hi & es' & -> & Hlog & Hp & _ & Hk).
  exists st', (failures st'), (es1 ++ es'). split; [done|]. rewrite Hlog, Hlog1, app_assoc.
  split_and!; [done|apply Hp|apply Hp|]. intros name Hn Hpos.
  destruct (Hkeys name) as [key Hkey].
  { destruct (layer_pos cfg name) as [pos|] eqn:E; [|done].
    apply fmap_Some in E as ([n x] & [Hx [-> _]]%list_find_Some & _). by eapply list_elem_of_lookup_2. }
  exists key. split; [done|]. intros i Hi Hf Hg.
  destruct (Hk ltac:(by intros Hnil; rewrite Hnil in Hi; apply elem_of_nil in Hi) name Hn Hpos) as (key' & Hk' & Hw).
  assert (key' = key) as -> by congruence. by eapply pl_loaded.
Qed.

(** ** Example *)

Definition ex_index (name : string) : Z :=
  if bool_decide (name = "attn0"%string) then 0 else if bool_decide (name = "ssm0"%string) then 1 else 2.

Definition ex_hlw_cfg : HlaLayerConfig :=
  match hlw_register_kv_caches ex_index "LBHN" ex_mla_worker ex_kv_config ex_kv_caches with
  | Ok cfg => cfg
  | Raise _ => mkHlaLayerConfig ex_hla_worker 0 ∅ ∅
  end.

Lemma ex_registered :
  hlw_register_kv_caches ex_index "LBHN" ex_mla_worker ex_kv_config ex_kv_caches = Ok ex_hlw_cfg.
Proof. vm_compute. reflexivity. Qed.

Definition ex_item : load_item := mkLoadItem "r" ["a"; "b"; "s"] ["a"; "b"; "s"] [1; 3; 2] [0; 0; 1].

(** The hook of the first layer is skipped. *)
Lemma hla_layer_loads_witness :
  ∃ es, pair_loaded ex_hlw_cfg es ex_item (0, 1).
Proof.
  assert (NoDup (hla_request_meta ex_hla_md).*1) as Hnd by (apply (bool_decide_unpack _); vm_compute; done).
  assert (Forall loads_aligned (hla_request_meta ex_hla_md)) as Hal
    by (repeat constructor; vm_compute; done).
  assert (loads_at (worker_store (hw_base (hlw_cfg ex_hlw_cfg))) ex_hla_start.2.1) as Hat
    by (intros t x Hx; vm_compute in Hx; done).
  assert ((synchronize ex_hla_start.1.2).2 = Ok tt) as Hsync by reflexivity.
  assert (hooks_ok ex_hlw_cfg 1 ["ssm0"; "attn1"]%string = true) as Hok by (vm_compute; done).
  destruct (hla_layer_loads (W := RefStore) (D := RefDevice) ex_index "LBHN" ex_mla_worker ex_kv_config
    ex_kv_caches ex_hlw_cfg ex_hla_md ex_hla_start ["ssm0"; "attn1"]%string ex_strides ex_registered Hnd Hal
    eq_refl eq_refl Hat Hsync Hok) as (st' & F & es & E & _ & [HF _] & _ & Hloads).
  assert (bool_decide (load_failed_reqs (_connector_worker_meta (hw_worker
    ((hlw_start_load_kv (W := Logged RefStore) (D := RefDevice) ex_hlw_cfg ;;
      run_hooks ex_hlw_cfg ["ssm0"; "attn1"]%string) ex_hla_start).1.1.1)) = ∅) = true) as Hd
    by (vm_compute; done).
  rewrite E in Hd. apply bool_decide_eq_true in Hd. cbn [fst] in Hd. rewrite Hd in HF.
  assert (F = ∅) as -> by (clear -HF; set_solver).
  destruct (Hloads "attn1"%string) as (key & Hkey & Hl); [right; left|by vm_compute|].
  assert (Ok key = Ok (0, 1)) as [= ->] by (rewrite <- Hkey; vm_compute; reflexivity).
  exists es. apply Hl; [|by apply not_elem_of_empty|left].
  apply (bool_decide_unpack _). vm_compute. done.
Defined.
