(* ===== verification/HlaLayerDumps.v ===== *)
(** * Layerwise dumping of the hybrid connector: plan and commit

    What the layerwise dumps are made of: the step's plan, of which all lists are
    in step, and the commit of the last slot, which writes the pages of the groups
    that have a layer there and null rows for the blocks of the others. *)

From Stdlib Require Import ZArith Lia.
From stdpp Require Import base list gmap strings numbers fin_sets sorting.
From S2P Require Import Prelude.
From S2P Require Import Store.
From S2P Require Import RankConsistency.
From S2P Require Import StoreLog.
From S2P Require Import DirectScheduler.
From S2P Require Import DirectWorker.
From S2P Require Import WorkerDumps.
From S2P Require Import KVCacheLayout.
From S2P Require Import KVCacheLayoutFacts.
From S2P Require Import HlaScheduler.
From S2P Require Import HlaLayout.
From S2P Require Import HlaLayoutFacts.
From S2P Require Import HlaWorker.
From S2P Require Import HlaLayerWise.
From S2P Require Import HlaTransfers.
From S2P Require Import HlaSaves.
From S2P Require Import HlaLayerLoads.
Local Open Scope Z_scope.

(** ** The plan *)

(** The lists of a plan are in step, and its numbers fit the arrays. *)
Record plan_ok (plan : DumpPlan) : Prop := {
  po_ucm : length (dp_ucm_ids plan) = length (dp_group_ids plan);
  po_vllm : length (dp_vllm_ids plan) = length (dp_group_ids plan);
  po_blocks : Forall (λ b, 0 ≤ b < uint64_max) (dp_vllm_ids plan);
  po_groups : Forall (λ g, 0 ≤ g < 2 ^ 63) (dp_group_ids plan);
}.

(** So are those of the requests the scheduler plans. *)
Record dumps_aligned (p : req_id * HLARequestDispatchMeta) : Prop := {
  da_ucm : length (hd_dump_block_ids p.2).1 = length (dump_group_ids p.2);
  da_vllm : length (hd_dump_block_ids p.2).2 = length (dump_group_ids p.2);
  da_count : 0 ≤ dump_full_attn_count p.2;
  da_blocks : Forall (λ b, 0 ≤ b < uint64_max) (hd_dump_block_ids p.2).2;
  da_groups : Forall (λ g, 0 ≤ g < 2 ^ 63) (dump_group_ids p.2);
}.

Lemma py_slice_length {A B} a b (l : list A) (l' : list B) :
  length l = length l' → length (py_slice a b l) = length (py_slice a b l').
Proof. intros E. unfold py_slice, zlen. cbv zeta. rewrite !length_take, !length_drop, E. done. Qed.

Lemma take_sub {A} n (l : list A) x : x ∈ take n l → x ∈ l.
Proof. intros Hx. rewrite <- (take_drop n l). apply elem_of_app. by left. Qed.

Lemma drop_sub {A} n (l : list A) x : x ∈ drop n l → x ∈ l.
Proof. intros Hx. rewrite <- (take_drop n l). apply elem_of_app. by right. Qed.

Lemma py_slice_sub {A} a b (l : list A) x : x ∈ py_slice a b l → x ∈ l.
Proof. unfold py_slice. cbv zeta. intros Hx. by eapply drop_sub, take_sub. Qed.

Lemma scope_dump_ok cfg ucm vllm groups n ctx s_ucm s_vllm s_groups :
  length ucm = length groups → length vllm = length groups → 0 ≤ n →
  _scope_blocks cfg ucm vllm groups n true = (ctx, s_ucm, s_vllm, s_groups) →
  length s_ucm = length s_groups ∧ length s_vllm = length s_groups ∧
  (∀ b, b ∈ s_vllm → b ∈ vllm) ∧ (∀ g, g ∈ s_groups → g ∈ groups).
Proof.
  intros Hu Hv Hn. unfold _scope_blocks. destruct (is_mla cfg); cbn [negb].
  2:{ intros [= <- <- <- <-]. split_and!; try done. destruct (_ =? 0); by rewrite ?length_fmap. }
  cbv zeta. rewrite !py_slice_to_nonneg, !py_slice_from_nonneg by done. intros [= <- <- <- <-].
  assert (∀ {A B} (l : list A) (l' : list B), length l = length l' →
    length (take (Z.to_nat n) l) = length (take (Z.to_nat n) l')) as Ht
    by (intros A B l l' E; by rewrite !length_take, E).
  assert (∀ {A B} (l : list A) (l' : list B), length l = length l' →
    length (drop (Z.to_nat n) l) = length (drop (Z.to_nat n) l')) as Hd
    by (intros A B l l' E; by rewrite !length_drop, E).
  split_and!.
  - rewrite !length_app. f_equal.
    + destruct (_ && _); [apply py_slice_length|]; by apply Ht.
    + transitivity (length (drop (Z.to_nat n) ucm)); [destruct (_ =? 0); by rewrite ?length_fmap|by apply Hd].
  - rewrite !length_app. f_equal; [|by apply Hd]. destruct (_ && _); [apply py_slice_length|]; by apply Ht.
  - intros b [Hb|Hb]%elem_of_app; [|by eapply drop_sub].
    destruct (_ && _); [apply py_slice_sub in Hb|]; by eapply take_sub.
  - intros b [Hb|Hb]%elem_of_app; [|by eapply drop_sub].
    destruct (_ && _); [apply py_slice_sub in Hb|]; by eapply take_sub.
Qed.

Lemma dump_plan_ok cfg md : Forall dumps_aligned (hla_request_meta md) → plan_ok (hla_dump_plan cfg md).
Proof.
  unfold hla_dump_plan. intros Hmd.
  assert (plan_ok (mkDumpPlan [] [] [] ∅ ∅)) as Hp by (split; simpl; auto).
  revert Hp. generalize (mkDumpPlan [] [] [] ∅ ∅). induction Hmd as [|[id req] l [Hu Hv Hn Hb Hg] _ IH];
    intros plan [Pu Pv Pb Pg]; simpl; [done|]. apply IH. cbn in *.
  case_bool_decide; [done|]. destruct (_scope_blocks _ _ _ _ _ _) as [[[ctx ku] kb] kg] eqn:E.
  apply scope_dump_ok in E as (L1 & L2 & S1 & S2); [|done..]. case_bool_decide; [done|].
  split; cbn; rewrite ?length_app; [lia|lia| |]; apply Forall_app; (split; [done|]); apply Forall_forall.
  - intros b ?%S1. by eapply Forall_forall in Hb.
  - intros g ?%S2. by eapply Forall_forall in Hg.
Qed.

(** ** Rows of the commit *)

(** Replacing the rows of a group. *)
Fixpoint fill {A} (gid : Z) (f : A → list Z) (groups : list Z) (l : list A) (rows : list (list Z)) :
    list (list Z) :=
  match groups, l, rows with
  | g :: groups', x :: l', row :: rows' => (if g =? gid then f x else row) :: fill gid f groups' l' rows'
  | _, _, _ => rows
  end.

Lemma set_rows_fill {A} gid (f : A → list Z) groups (l : list A) (pre rows : list (list Z)) :
  length l = length groups → length rows = length groups →
  set_rows (pre ++ rows) (imap (λ i g, (Z.of_nat (length pre + i), g)) groups ≫=
                     λ p : Z * Z, if p.2 =? gid then [p.1] else []) (f <$> group_part gid groups l) =
    Ok (pre ++ fill gid f groups l rows).
Proof.
  revert pre l rows. induction groups as [|g groups IH]; intros pre [|x l] [|row rows] Hl Hr; try done.
  cbn [imap fill]. rewrite bind_cons. cbn [fst snd].
  rewrite (imap_ext _ (λ i g, (Z.of_nat (length pre + 1 + i), g))) by (intros; simpl; f_equal; lia).
  rewrite group_part_cons. destruct (Z.eqb_spec g gid) as [->|Hne]; csimpl.
  - rewrite Nat.add_0_r.
    assert ((Z.of_nat (length pre) <? zlen (pre ++ row :: rows)) = true) as ->.
    { apply Z.ltb_lt. unfold zlen. rewrite length_app. simpl. lia. }
    rewrite Nat2Z.id.
    replace (<[length pre:=f x]> (pre ++ row :: rows)) with ((pre ++ [f x]) ++ rows)
      by (rewrite <- app_assoc; rewrite insert_app_r_alt by lia; rewrite Nat.sub_diag; done).
    specialize (IH (pre ++ [f x]) l rows). rewrite length_app in IH. simpl in IH.
    rewrite IH by (simpl in *; lia). by rewrite <- app_assoc.
  - specialize (IH (pre ++ [row]) l rows).
    rewrite length_app, <- !app_assoc in IH. simpl in IH. rewrite IH by (simpl in *; lia). done.
Qed.

Lemma set_rows_selected {A} gid (f : A → list Z) groups (l : list A) rows :
  length l = length groups → length rows = length groups →
  set_rows rows (selected gid groups) (f <$> group_part gid groups l) = Ok (fill gid f groups l rows).
Proof. apply (set_rows_fill gid f groups l []). Qed.

(** The rows where the groups of [done] that [has] accepts are filled. *)
Definition partial_rows (f : Z → Z → list Z) (zero : list Z) (P : Z → bool) (groups l : list Z) :
    list (list Z) := zip_with (λ g x, if P g then f g x else zero) groups l.

Lemma fill_partial f zero P gid groups l :
  length l = length groups →
  fill gid (f gid) groups l (partial_rows f zero P groups l) =
    partial_rows f zero (λ g, P g || (g =? gid)) groups l.
Proof.
  unfold partial_rows. revert l. induction groups as [|g groups IH]; intros [|x l] Hl; try done.
  cbn [zip_with fill]. rewrite IH by (simpl in Hl; lia). f_equal.
  destruct (Z.eqb_spec g gid) as [->|]; [by rewrite orb_true_r|by rewrite orb_false_r].
Qed.

Lemma partial_rows_ext f zero P Q groups l :
  (∀ g, g ∈ groups → P g = Q g) → partial_rows f zero P groups l = partial_rows f zero Q groups l.
Proof.
  unfold partial_rows. revert l. induction groups as [|g groups IH]; intros [|x l] HP; try done.
  cbn [zip_with]. rewrite (HP g) by left. rewrite IH; [done|]. intros g' Hg'. apply HP. by right.
Qed.

Lemma np_unique_elem l g : g ∈ np_unique l ↔ g ∈ l.
Proof. unfold np_unique. rewrite merge_sort_Permutation. apply elem_of_remove_dups. Qed.

(** ** The layers that commit *)

Lemma commit_layers_spec index kv names acc r :
  commit_layers index kv names acc = Ok r →
  ∀ gid, match r !! gid with
         | Some name => acc !! gid = Some name ∨ name ∈ names ∧ layer_name_to_group kv !! name = Some gid
         | None => acc !! gid = None ∧ ∀ name, name ∈ names → layer_name_to_group kv !! name ≠ Some gid
         end.
Proof.
  revert acc. induction names as [|name names IH]; intros acc; simpl.
  { intros [= <-] gid. destruct (acc !! gid); [by left|]. split; [done|]. by intros ? ?%elem_of_nil. }
  destruct (map_get _ name) as [g|] eqn:Eg; simpl; [|done]. apply map_get_Ok in Eg.
  intros Hr gid. specialize (IH _ Hr gid).
  assert (∀ acc', acc' = acc ∨ acc' = <[g := name]> acc → is_Some (acc' !! g) →
    match r !! gid with
    | Some n => acc' !! gid = Some n ∨ n ∈ names ∧ layer_name_to_group kv !! n = Some gid
    | None => acc' !! gid = None ∧ ∀ n, n ∈ names → layer_name_to_group kv !! n ≠ Some gid
    end →
    match r !! gid with
    | Some n => acc !! gid = Some n ∨ n ∈ name :: names ∧ layer_name_to_group kv !! n = Some gid
    | None => acc !! gid = None ∧ ∀ n, n ∈ name :: names → layer_name_to_group kv !! n ≠ Some gid
    end) as Hstep.
  { intros acc' Hacc Hg. destruct (decide (g = gid)) as [<-|Hne].
    - destruct (r !! g) as [n|]; [|by intros [E _]; rewrite E in Hg; destruct Hg].
      intros [E|[? ?]]; [|right; split; [by right|done]].
      destruct Hacc as [->| ->]; [by left|]. rewrite lookup_insert_eq in E. injection E as <-.
      right. split; [left|done].
    - assert (acc' !! gid = acc !! gid) as -> by (destruct Hacc as [->| ->]; [done|by rewrite lookup_insert_ne]).
      destruct (r !! gid); [intros [?|[? ?]]; [by left|right; split; [by right|done]]|].
      intros [? Hn]. split; [done|]. intros n [->|?]%elem_of_cons; [congruence|by apply Hn]. }
  destruct (acc !! g) as [existing|] eqn:Ea.
  - destruct (_ <? _); (eapply Hstep; [| |exact IH]); [by right|by rewrite lookup_insert_eq|by left|by rewrite Ea].
  - eapply Hstep; [by right|by rewrite lookup_insert_eq|exact IH].
Qed.

(** What the layerwise registration computes. *)
Record commits_ok (cfg : HlaLayerConfig) : Prop := {
  co_deferred name : name ∈ _deferred_dump_layers cfg ↔
    name ∈ layer_order (hlw_cfg cfg) ∧
    layer_name_to_slot (hl_slots (hw_layout (hlw_cfg cfg))) !! name = Some (_max_slot cfg);
  co_some gid name : _group_commit_layer cfg !! gid = Some name →
    name ∈ _deferred_dump_layers cfg ∧ layer_name_to_group (hw_kv (hlw_cfg cfg)) !! name = Some gid;
  co_none gid name : _group_commit_layer cfg !! gid = None → name ∈ _deferred_dump_layers cfg →
    layer_name_to_group (hw_kv (hlw_cfg cfg)) !! name ≠ Some gid;
}.

Lemma deferred_spec cfg max_slot names :
  deferred_layers cfg max_slot = Ok names →
  ∀ name, name ∈ names ↔ name ∈ layer_order cfg ∧
    layer_name_to_slot (hl_slots (hw_layout cfg)) !! name = Some max_slot.
Proof.
  unfold deferred_layers, mbind, outcome_bind. cbv zeta.
  destruct (map_outcome _ _) as [flagged|] eqn:E; [|done]. intros [= <-] name.
  apply map_outcome_Forall2 in E.
  rewrite list_elem_of_fmap. setoid_rewrite list_elem_of_filter. split.
  - intros ([n s] & -> & Hs & Hin). simpl in Hs |- *. subst s. apply list_elem_of_lookup_1 in Hin as [k Hk].
    destruct (Forall2_lookup_r _ _ _ _ _ E Hk) as (n' & Hn' & Heq).
    destruct (map_get _ n') as [s'|] eqn:Es; [|done]. injection Heq as -> ->.
    apply map_get_Ok in Es. split; [by eapply list_elem_of_lookup_2|done].
  - intros [Hin Hs]. apply list_elem_of_lookup_1 in Hin as [k Hk].
    destruct (Forall2_lookup_l _ _ _ _ _ E Hk) as ([n s] & Hn' & Heq).
    rewrite (proj2 (map_get_Ok _ _ _) Hs) in Heq. injection Heq as <- <-.
    exists (name, max_slot). split_and!; [done|done|]. by eapply list_elem_of_lookup_2.
Qed.

Lemma registered_commits `{PySetOrder} index layout_name base kv caches cfg :
  hlw_register_kv_caches index layout_name base kv caches = Ok cfg → commits_ok cfg.
Proof.
  unfold hlw_register_kv_caches, mbind, outcome_bind.
  destruct (_register_common _ _ _ _ _) as [c|] eqn:Ec; [|done]. cbv zeta.
  assert (hw_kv c = kv) as Ekv.
  { unfold _register_common, mbind, outcome_bind in Ec. destruct (bool_decide _); [done|].
    destruct (hla_build_layout _ _); [|done]. cbv zeta in Ec. by destruct (bool_decide _); simplify_eq. }
  destruct (deferred_layers c _) as [names|] eqn:Ed; [|done].
  destruct (commit_layers _ _ _ _) as [commits|] eqn:Em; [|done]. intros [= <-].
  pose proof (commit_layers_spec _ _ _ _ _ Em) as Hc.
  assert (∀ name, name ∈ set_iter (list_to_set names) ↔ name ∈ (list_to_set names : gset string)) as Hit.
  { intros name. rewrite (set_iter_perm _). apply elem_of_elements. }
  split; cbn.
  - intros name. rewrite elem_of_list_to_set. by apply deferred_spec.
  - intros gid name Hs. specialize (Hc gid). rewrite Hs, lookup_empty in Hc.
    destruct Hc as [?|[Hin Hg]]; [done|]. rewrite Ekv. split; [by apply Hit|done].
  - intros gid name Hs Hin. specialize (Hc gid). rewrite Hs in Hc. rewrite Ekv. apply Hc. by apply Hit.
Qed.

Section layer_dumps.
Context {W D : Type} `{StoreWorld W} `{DeviceSpec D} `{DeviceReset D} `{PySetOrder}.
Variable cfg : HlaLayerConfig.

Abbreviation state := (HlaWorker * D * (RankConsistencyManager * Logged W))%type.
Abbreviation hcfg := (hlw_cfg cfg).
Abbreviation wcfg := (hw_base hcfg).
Abbreviation layout := (hw_layout hcfg).
Abbreviation store := (worker_store wcfg).
Abbreviation order := (layer_order hcfg).

Hypothesis Hlayout : layout_ok (hw_kv hcfg) layout.
Hypothesis Horder : order ≡ₚ (hl_anchors layout).*1.
Hypothesis Hcommits : commits_ok cfg.

(** A layer of the order: its pair, and that its addresses can be computed. *)
Lemma order_layer name :
  name ∈ order → ∃ key, key_of cfg name = Ok key ∧
    layer_name_to_group (hw_kv hcfg) !! name = Some key.1 ∧ layer_name_to_slot (hl_slots layout) !! name = Some key.2 ∧
    (∀ vs, Forall (λ b, 0 ≤ b < uint64_max) vs →
       extract_layer_addrs (hw_kv hcfg) layout name vs = Ok (pair_row layout key.1 key.2 <$> vs)) ∧
    ∃ n, layer_column_bytes (hw_kv hcfg) layout name = Ok n.
Proof.
  rewrite Horder. intros Hn. destruct (lo_anchored _ _ Hlayout _ Hn) as (gid & t & s & Hg & _ & Hs & _).
  exists (gid, s). unfold key_of, extract_layer_addrs, layer_column_bytes.
  rewrite (proj2 (map_get_Ok _ _ _) Hg), (proj2 (map_get_Ok _ _ _) Hs).
  destruct (od_get name (hl_anchors layout)) eqn:Eo; [|by apply od_get_None in Eo].
  split_and!; try done; [|by eexists]. intros vs Hvs. cbn. by rewrite (proj2 (as_uint64_Ok vs vs)).
Qed.

(** The row of a block in the commit: of its group's pair at the last slot, if a
    layer of the group is there. *)
Definition commits_group (gid : Z) : bool := bool_decide (is_Some (_group_commit_layer cfg !! gid)).
Definition null_row : list Z := replicate (Z.to_nat (width layout)) 0.
Definition commit_row (gid b : Z) : list Z :=
  if commits_group gid then pair_row layout gid (_max_slot cfg) b else null_row.

Lemma commits_group_spec gid :
  commits_group gid = true ↔ ∃ name, name ∈ order ∧ key_of cfg name = Ok (gid, _max_slot cfg).
Proof.
  unfold commits_group. rewrite bool_decide_eq_true. split.
  - intros [name Hs]. destruct (co_some _ Hcommits _ _ Hs) as [Hd Hg].
    apply (co_deferred _ Hcommits) in Hd as [Ho Hsl]. exists name. split; [done|].
    unfold key_of. by rewrite (proj2 (map_get_Ok _ _ _) Hg), (proj2 (map_get_Ok _ _ _) Hsl).
  - intros (name & Ho & Hk). destruct (order_layer name Ho) as (key & Hk' & Hg & Hs & _).
    assert (key = (gid, _max_slot cfg)) as -> by congruence. simpl in *.
    destruct (_group_commit_layer cfg !! gid) eqn:E; [by eexists|].
    destruct (co_none _ Hcommits gid name E); [by apply (co_deferred _ Hcommits)|done].
Qed.

Lemma commit_rows_spec vllm groups gids P bytes :
  length vllm = length groups → Forall (λ b, 0 ≤ b < uint64_max) vllm →
  let f g b := pair_row layout g (_max_slot cfg) b in
  ∃ n, commit_rows cfg vllm groups gids (partial_rows f null_row P groups vllm) bytes =
    Ok (partial_rows f null_row (λ g, P g || bool_decide (g ∈ gids) && commits_group g) groups vllm, n).
Proof.
  intros Hl Hb f. revert P bytes. induction gids as [|gid gids IH]; intros P bytes; cbn [commit_rows].
  { exists bytes. do 2 f_equal. apply partial_rows_ext. intros g _. simpl. by rewrite orb_false_r. }
  assert (∀ Q, (∀ g, Q g = P g || (g =? gid) && commits_group gid) → ∀ g,
    (Q g || bool_decide (g ∈ gids) && commits_group g) = (P g || bool_decide (g ∈ gid :: gids) && commits_group g))
    as Hstep.
  { intros Q HQ g. rewrite HQ, <- orb_assoc. f_equal.
    rewrite (bool_decide_ext (g ∈ gid :: gids) (g = gid ∨ g ∈ gids)) by apply elem_of_cons. rewrite bool_decide_or.
    destruct (Z.eqb_spec g gid) as [->|]; [rewrite (bool_decide_eq_true_2 (gid = gid)) by done|rewrite (bool_decide_eq_false_2 (g = gid)) by done]; simpl; [|done].
    by destruct (commits_group gid), (bool_decide (gid ∈ gids)). }
  destruct (_group_commit_layer cfg !! gid) as [name|] eqn:Ec.
  - destruct (co_some _ Hcommits _ _ Ec) as [Hd Hg]. apply (co_deferred _ Hcommits) in Hd as [Ho Hs].
    destruct (order_layer name Ho) as (key & _ & Hg' & Hs' & Hx & (n & Hn)).
    assert (key.1 = gid) as E1 by congruence. assert (key.2 = _max_slot cfg) as E2 by congruence.
    rewrite pick_selected by done. cbn [mbind outcome_bind].
    rewrite Hx; cycle 1.
    { apply Forall_forall. intros b Hin. unfold group_part in Hin.
      apply list_elem_of_fmap in Hin as ([g b'] & -> & [_ Hz]%list_elem_of_filter).
      apply elem_of_zip_r in Hz. by eapply Forall_forall in Hb. }
    rewrite E1, E2. change (pair_row layout gid (_max_slot cfg)) with (f gid). cbn [mbind outcome_bind].
    rewrite set_rows_selected; [|done|unfold partial_rows; rewrite length_zip_with; lia].
    cbn [mbind outcome_bind]. rewrite Hn. cbn [mbind outcome_bind]. rewrite (fill_partial f) by done.
    destruct (IH (λ g, P g || (g =? gid)) (bytes + zlen (selected gid groups) * n)) as [k ->]. exists k.
    do 2 f_equal. apply partial_rows_ext. intros g _. apply (Hstep (λ g, P g || (g =? gid))). intros g'.
    assert (commits_group gid = true) as -> by (apply bool_decide_eq_true; by eexists). by rewrite andb_true_r.
  - destruct (IH P bytes) as [k ->]. exists k. do 2 f_equal. apply partial_rows_ext. intros g _.
    apply Hstep. intros g'. assert (commits_group gid = false) as ->.
    { apply bool_decide_eq_false. rewrite Ec. by intros [? ?]. }
    by rewrite andb_false_r, orb_false_r.
Qed.

Lemma commit_addrs_spec plan :
  plan_ok plan →
  ∃ n, commit_addrs cfg plan = Ok (zip_with commit_row (dp_group_ids plan) (dp_vllm_ids plan), n).
Proof.
  intros [_ Hv Hb Hg]. unfold commit_addrs, as_int64.
  assert (forallb (λ x, (- 2 ^ 63 <=? x) && (x <? 2 ^ 63)) (dp_group_ids plan) = true) as ->.
  { apply forallb_forall. intros g Hin%list_elem_of_In. eapply Forall_forall in Hg; [|done]. simpl in Hg.
    apply andb_true_iff. rewrite Z.leb_le, Z.ltb_lt. lia. }
  cbn [mbind outcome_bind]. fold null_row.
  assert (replicate (length (dp_vllm_ids plan)) null_row =
    partial_rows (λ g b, pair_row layout g (_max_slot cfg) b) null_row (λ _, false)
      (dp_group_ids plan) (dp_vllm_ids plan)) as ->.
  { unfold partial_rows. clear Hb Hg. revert Hv. generalize (dp_group_ids plan), (dp_vllm_ids plan).
    intros gs vs. revert gs. induction vs as [|v vs IH]; intros [|g gs] Hl; try done.
    simpl. f_equal. apply IH. simpl in Hl. lia. }
  destruct (commit_rows_spec (dp_vllm_ids plan) (dp_group_ids plan) (np_unique (dp_group_ids plan))
    (λ _, false) 0 Hv Hb) as [n ->]. exists n. do 2 f_equal. unfold commit_row.
  apply (partial_rows_ext (λ g b, pair_row layout g (_max_slot cfg) b)). intros g Hin. simpl.
  rewrite bool_decide_eq_true_2 by (by apply np_unique_elem). done.
Qed.
End layer_dumps.
