(* ===== verification/HlaLayerSaves.v ===== *)
(** * Layerwise dumping of the hybrid connector: the save of a step

    A block is committed by the shard of the last slot.  However many of the
    layers' hooks were called, when [wait_for_save] submits the commit all other
    shards of the step's blocks have been submitted, and none was accepted twice;
    then it waits for all tasks and reports the blocks if nothing failed. *)

From Stdlib Require Import ZArith Lia.
From stdpp Require Import base list gmap strings numbers fin_sets sorting.
From S2P Require Import Prelude.
From S2P Require Import Store.
From S2P Require Import RankConsistency.
From S2P Require Import StoreLog.
From S2P Require Import DumpAccounting.
From S2P Require Import DirectScheduler.
From S2P Require Import DirectWorker.
From S2P Require Import WorkerDumps.
From S2P Require Import KVCacheLayout.
From S2P Require Import KVCacheLayoutFacts.
From S2P Require Import HlaScheduler.
From S2P Require Import HlaLayout.
From S2P Require Import HlaLayoutFacts.
From S2P Require Import HlaWorker.
From S2P Require Import HlaLayerWise.
From S2P Require Import HlaTransfers.
From S2P Require Import HlaSaves.
From S2P Require Import HlaLayerLoads.
From S2P Require Import HlaLayerDumps.
Local Open Scope Z_scope.

(** ** Waiting for the tasks *)

Section waits.
Context {W : Type} `{StoreWorld W}.
Abbreviation mstate := (RankConsistencyManager * Logged W)%type.

(** Waiting for tasks one after the other, whatever the waits raise. *)
Definition run_waits (ts : list task) (r : mstate) : mstate := foldl (λ r t, (wait_dump t r).1) r ts.

(** The tasks the stores were asked to wait for. *)
Definition waited (es : list store_event) : list task :=
  es ≫= λ e, match e with EvWait _ t _ => [t] | _ => [] end.

Lemma wait_dump_log t m (l : Logged W) :
  ∃ m' w' es o, wait_dump t (m, l) = ((m', mkLogged w' (log l ++ es)), o) ∧
    _dump_task_contexts m' = delete t (_dump_task_contexts m) ∧
    match _dump_task_contexts m !! t with
    | Some (s, ctx) => ∃ r, es = [EvWait s t r]
    | None => es = []
    end.
Proof.
  unfold wait_dump. mred. destruct (_dump_task_contexts m !! t) as [[s ctx]|] eqn:E; simpl.
  - unfold logging. destruct (store_wait s t (world l)) as [w' [[]|e]]; simpl; [|destruct (is_unhealthy e)];
      eexists _, _, [_], _; (split; [reflexivity|]); simpl; eauto.
  - eexists m, (world l), [], _. rewrite app_nil_r. destruct l. split; [reflexivity|]. by rewrite delete_id.
Qed.

Lemma run_waits_contexts ts m (l : Logged W) :
  ∃ m' w' es, run_waits ts (m, l) = (m', mkLogged w' (log l ++ es)) ∧
    (∀ t, _dump_task_contexts m' !! t = if decide (t ∈ ts) then None else _dump_task_contexts m !! t) ∧
    NoDup (waited es) ∧ (∀ t, t ∈ waited es ↔ t ∈ ts ∧ is_Some (_dump_task_contexts m !! t)).
Proof.
  revert m l. induction ts as [|t ts IH]; intros m l.
  { exists m, (world l), []. rewrite app_nil_r. destruct l. split_and!; [done| |constructor|].
    - intros t. by rewrite decide_False by apply not_elem_of_nil.
    - intros t. split; [|intros [Ht _]]; [|]; by intros ?%elem_of_nil || by apply elem_of_nil in Ht. }
  destruct (wait_dump_log t m l) as (m1 & w1 & e1 & o & E & Hc & He).
  destruct (IH m1 (mkLogged w1 (log l ++ e1))) as (m' & w' & es & Er & Hc' & Hnd & Hw).
  exists m', w', (e1 ++ es). unfold run_waits in *. cbn [foldl]. rewrite E. cbn [fst]. rewrite Er.
  cbn [log]. rewrite app_assoc. split; [done|]. split.
  { intros u. rewrite Hc', Hc. destruct (decide (u = t)) as [->|Hne].
    - rewrite lookup_delete_eq, (decide_True (P := t ∈ t :: ts)) by left. by destruct (decide _).
    - rewrite lookup_delete_ne by done. apply decide_ext. set_solver. }
  unfold waited in *. rewrite bind_app. assert (t ∉ (es ≫= λ e, match e with EvWait _ t _ => [t] | _ => [] end)) as Hnt.
  { rewrite Hw, Hc, lookup_delete_eq. by intros [_ [? ?]]. }
  assert (∀ u, u ≠ t → u ∈ (es ≫= λ e, match e with EvWait _ t _ => [t] | _ => [] end) ↔
    u ∈ t :: ts ∧ is_Some (_dump_task_contexts m !! u)) as Hother.
  { intros u Hne. rewrite Hw, Hc, lookup_delete_ne by done. set_solver. }
  destruct (_dump_task_contexts m !! t) as [[s ctx]|] eqn:Et.
  - destruct He as [r ->]. simpl. split; [by constructor|]. intros u. rewrite elem_of_cons.
    destruct (decide (u = t)) as [->|Hne]; [|rewrite Hother; naive_solver].
    split; [|by left]. intros _. split; [left|by rewrite Et].
  - subst e1. simpl. split; [done|]. intros u. destruct (decide (u = t)) as [->|Hne]; [|by apply Hother].
    split; [done|]. rewrite Et. by intros [_ [? ?]].
Qed.
End waits.

Section loop.
Context {W D : Type} `{StoreWorld W} `{DeviceWorld D}.
Abbreviation state := (HlaWorker * D * (RankConsistencyManager * Logged W))%type.

Definition pending (st : state) : list task := pd_task <$> _dump_tasks (hw_dumps st.1.1).

Lemma wait_loop_run fuel (st : state) :
  (length (_dump_tasks (hw_dumps st.1.1)) < fuel)%nat →
  wait_dump_loop fuel st =
    ((set_hw_dumps (set_dump_tasks [] (hw_dumps st.1.1)) st.1.1, st.1.2, run_waits (pending st) st.2), Ok tt).
Proof.
  revert st. induction fuel as [|fuel IH]; intros [[s d] r] Hf; [lia|]. unfold pending. cbn [fst snd] in *.
  cbn [wait_dump_loop]. unfold mbind at 1, M_bind at 1, get_state. cbn [fst snd].
  destruct (_dump_tasks (hw_dumps s)) as [|p ts] eqn:Et.
  { destruct s as [? ? ? []]. simpl in *. by subst. }
  unfold mbind at 1, M_bind at 1. unfold on_dumps, modify. cbn [fst snd].
  unfold ignore_failure, try_except. unfold mbind at 1, M_bind at 1. rewrite on_rcm_eq. cbn [fmap list_fmap].
  unfold run_waits. cbn [foldl]. simpl in Hf.
  destruct (wait_dump (pd_task p) r) as [r' [[]|e]]; cbn [fst snd]; unfold mret, M_ret;
    rewrite IH by (simpl; lia); reflexivity.
Qed.

(** C26 Waiting for the dumps terminates.  Whatever the pending tasks and whatever the
    stores raise, [_wait_dump_tasks] returns with no task pending: as many turns of
    its loop as there are tasks are enough, and any larger bound gives the same.  It
    waits once for each task the manager has a context for and for no other, drops
    the contexts of these tasks and keeps those of all others. *)
Theorem hla_wait_dumps_ends (fuel : nat) (st : state) :
  ∃ st' es, _wait_dump_tasks st = (st', Ok tt) ∧
    wait_dump_loop (S (length (pending st)) + fuel) st = (st', Ok tt) ∧ pending st' = [] ∧
    log st'.2.2 = log st.2.2 ++ es ∧ NoDup (waited es) ∧
    (∀ t, t ∈ waited es ↔ t ∈ pending st ∧ is_Some (_dump_task_contexts st.2.1 !! t)) ∧
    ∀ t, _dump_task_contexts st'.2.1 !! t =
      if decide (t ∈ pending st) then None else _dump_task_contexts st.2.1 !! t.
Proof.
  unfold _wait_dump_tasks. unfold mbind at 1, M_bind at 1, get_state.
  rewrite !wait_loop_run by (unfold pending; rewrite ?length_fmap; lia).
  destruct st as [[s d] [m l]]. cbn [fst snd].
  destruct (run_waits_contexts (pending (s, d, (m, l))) m l) as (m' & w' & es & -> & Hc & Hnd & Hw).
  eexists _, es. do 2 (split; [reflexivity|]). split_and!; done.
Qed.
End loop.

(** ** The manager's accounts during a step *)

Definition event_ok (e : store_event) : bool :=
  match e with
  | EvLoad _ _ _ _ _ (Raise _) | EvDump _ _ _ _ _ (Raise _) | EvWait _ _ (Raise _) | EvCheck _ _ (Raise _) => false
  | _ => true
  end.

Section accounts.
Context {W : Type} `{StoreWorld W} `{PySetOrder}.
Abbreviation mstate := (RankConsistencyManager * Logged W)%type.
Variable store : store_id.
Variable ctx : gmap string (gset string).
Variable m0 : RankConsistencyManager.

(** After the events [es] of dumps of the context [ctx], with the tasks [ts] to be
    waited for, if [m0] was idle: the blocks are accounted for once a dump was
    tried, and failed once something raised. *)
Record accounts (es : list store_event) (ts : list task) (m : RankConsistencyManager) : Prop := {
  ac_none : es = [] → ts = [];
  ac_enabled : enabled m = enabled m0;
  ac_succeeded : _dump_succeeded_blocks m = _dump_succeeded_blocks m0;
  ac_blocks r : ctx_blocks (_dump_blocks_by_request m) r =
    if bool_decide (es = []) then ∅ else ctx_blocks (accounted_for m0 ctx) r;
  ac_failed r : ctx_blocks (_dump_failed_blocks_by_request m) r =
    if forallb event_ok es then ∅ else ctx_blocks (accounted_for m0 ctx) r;
  ac_contexts t x : _dump_task_contexts m !! t = Some x → x = (store, accounted_for m0 ctx) ∧ t ∈ ts;
  ac_waited t : t ∈ ts → is_Some (_dump_task_contexts m !! t) ∨ ∃ r, EvWait store t r ∈ es;
  ac_tasks s ks sh ps h t : EvDump s ks sh ps h (Ok t) ∈ es → t ∈ ts ∨ ∃ r, EvWait store t r ∈ es;
}.

Lemma accounts_idle : idle m0 → accounts [] [] m0.
Proof.
  intros [Ec Eb Ef]. split; try done.
  - intros t x Hx. by rewrite Ec, lookup_empty in Hx.
  - intros t Ht. by apply elem_of_nil in Ht.
  - intros s ks sh ps h t Ht. by apply elem_of_nil in Ht.
Qed.

Lemma accounts_submit es ts ks sh ps h m (l : Logged W) :
  accounts es ts m →
  ∃ m' w' o, submit_dump store ctx ks sh ps h (m, l) =
      ((m', mkLogged w' (log l ++ [EvDump store ks sh ps h o])), o) ∧
    accounts (es ++ [EvDump store ks sh ps h o]) (match o with Ok t => ts ++ [t] | Raise _ => ts end) m'.
Proof.
  intros [_ Hen Hsu Hb Hf Hc Hw Ht]. unfold submit_dump. mred. rewrite Hen.
  change (if enabled m0 then ctx else ∅) with (accounted_for m0 ctx). unfold logging.
  assert (∀ e : store_event, bool_decide (es ++ [e] = []) = false) as Hne
    by (intros e; apply bool_decide_eq_false; by destruct es).
  destruct (store_dump_data store ks sh ps h (world l)) as [w' [t|e]]; simpl;
    eexists _, _, _; (split; [reflexivity|]); split; simpl; try done; try (intros E; by destruct es).
  - intros r. rewrite ctx_blocks_add, Hb, Hne. destruct (bool_decide _); set_solver.
  - intros r. rewrite Hf, forallb_app. simpl. by rewrite andb_true_r.
  - intros u x. destruct (decide (u = t)) as [->|Hu]; [rewrite lookup_insert_eq; intros [= <-]|rewrite lookup_insert_ne by done].
    + split; [done|]. apply elem_of_app. right. left.
    + intros [-> ?]%Hc. split; [done|]. apply elem_of_app. by left.
  - intros u [Hu|Hu]%elem_of_app.
    + destruct (Hw u Hu) as [?|(r & ?)]; [left|right; exists r; apply elem_of_app; by left].
      destruct (decide (u = t)) as [->|?]; [by rewrite lookup_insert_eq|by rewrite lookup_insert_ne].
    + apply list_elem_of_singleton in Hu as ->. left. by rewrite lookup_insert_eq.
  - intros s ks' sh' ps' h' u [Hu|Hu]%elem_of_app.
    + destruct (Ht _ _ _ _ _ _ Hu) as [?|(r & ?)]; [left|right; exists r]; apply elem_of_app; by left.
    + apply list_elem_of_singleton in Hu as [= -> -> -> -> -> ->]. left. apply elem_of_app. right. left.
  - intros r. rewrite ctx_blocks_add, Hb, Hne. destruct (bool_decide _); set_solver.
  - intros r. rewrite ctx_blocks_add, Hf, forallb_app. simpl. rewrite andb_false_r. destruct (forallb _ _); set_solver.
  - intros u Hu. destruct (Hw u Hu) as [?|(r & ?)]; [by left|right; exists r; apply elem_of_app; by left].
  - intros s ks' sh' ps' h' u [Hu|Hu]%elem_of_app; [|by apply list_elem_of_singleton in Hu].
    destruct (Ht _ _ _ _ _ _ Hu) as [?|(r & ?)]; [by left|right; exists r; apply elem_of_app; by left].
Qed.

Lemma accounts_wait es t ts m (l : Logged W) :
  accounts es (t :: ts) m → es ≠ [] →
  ∃ m' w' es' o, wait_dump t (m, l) = ((m', mkLogged w' (log l ++ es')), o) ∧
    accounts (es ++ es') ts m' ∧ Forall (λ e, ∃ u r, e = EvWait store u r) es'.
Proof.
  intros [_ Hen Hsu Hb Hf Hc Hw Ht] Hne. unfold wait_dump. mred.
  assert (∀ es', bool_decide (es ++ es' = []) = bool_decide (es = [])) as Hne'
    by (intros e; apply bool_decide_ext; by destruct es).
  destruct (_dump_task_contexts m !! t) as [x|] eqn:Et; simpl.
  2:{ eexists m, (world l), [], _. rewrite !app_nil_r. destruct l. split; [reflexivity|]. split; [|constructor].
      split; try done.
      - intros u x Hx. destruct (Hc u x Hx) as [? [->|?]%elem_of_cons]; [congruence|done].
      - intros u Hu. apply Hw. by right.
      - intros s ks sh ps h u [[->|?]%elem_of_cons|?]%Ht; [|by left|by right].
        destruct (Hw t) as [Hs|?]; [left|rewrite Et in Hs; by destruct Hs|by right]. }
  destruct (Hc _ _ Et) as [-> _]. simpl. unfold logging.
  assert (∀ r0 : outcome unit, (∀ u : task, u ∈ ts → is_Some (delete t (_dump_task_contexts m) !! u) ∨
     ∃ r, EvWait store u r ∈ es ++ [EvWait store t r0])) as Hw'.
  { intros r0 u Hu. destruct (decide (u = t)) as [->|Hut].
    - right. exists r0. apply elem_of_app. right. left.
    - destruct (Hw u ltac:(by right)) as [?|(r & ?)]; [left; by rewrite lookup_delete_ne|].
      right. exists r. apply elem_of_app. by left. }
  assert (∀ r0 : outcome unit, ∀ s ks sh ps h u, EvDump s ks sh ps h (Ok u) ∈ es ++ [EvWait store t r0] →
     u ∈ ts ∨ ∃ r, EvWait store u r ∈ es ++ [EvWait store t r0]) as Ht'.
  { intros r0 s ks sh ps h u [Hu|Hu]%elem_of_app; [|by apply list_elem_of_singleton in Hu].
    destruct (Ht _ _ _ _ _ _ Hu) as [[->|?]%elem_of_cons|(r & ?)]; [right; exists r0|by left|right; exists r];
      apply elem_of_app; [right; left|by left]. }
  assert (∀ u x, delete t (_dump_task_contexts m) !! u = Some x → x = (store, accounted_for m0 ctx) ∧ u ∈ ts) as Hc'.
  { intros u x [Hu Hx]%lookup_delete_Some. destruct (Hc u x Hx) as [? [->|?]%elem_of_cons]; done. }
  destruct (store_wait store t (world l)) as [w' [[]|e]]; simpl; [|destruct (is_unhealthy e)];
    eexists _, _, [_], _; (split; [reflexivity|]); (split; [|by repeat econstructor]); split; simpl; try done;
    try (intros E; by destruct es);
    intros r; rewrite ?Hne', ?forallb_app, ?ctx_blocks_add, ?Hb, ?Hf; simpl;
    rewrite ?andb_true_r, ?andb_false_r; try done;
    destruct (forallb _ _); first [by rewrite union_empty_r_L|by rewrite union_idemp_L|set_solver].
Qed.

Lemma accounts_waits es ts m (l : Logged W) :
  accounts es ts m → es ≠ [] →
  ∃ m' w' es', run_waits ts (m, l) = (m', mkLogged w' (log l ++ es')) ∧
    accounts (es ++ es') [] m' ∧ Forall (λ e, ∃ u r, e = EvWait store u r) es'.
Proof.
  revert es m l. induction ts as [|t ts IH]; intros es m l Ha Hne.
  { exists m, (world l), []. rewrite !app_nil_r. by destruct l. }
  destruct (accounts_wait es t ts m l Ha Hne) as (m1 & w1 & e1 & o & E & Ha1 & Hf1).
  destruct (IH (es ++ e1) m1 (mkLogged w1 (log l ++ e1)) Ha1 ltac:(by destruct es))
    as (m' & w' & e2 & Er & Ha2 & Hf2).
  exists m', w', (e1 ++ e2). unfold run_waits in *. cbn [foldl]. rewrite E. cbn [fst]. rewrite Er, !app_assoc.
  split_and!; [done|done|by apply Forall_app].
Qed.

(** The report of a step all whose tasks have been waited for. *)
Lemma accounts_finish es ids m (l : Logged W) :
  accounts es [] m → es ≠ [] → dom ctx ⊆ ids →
  ∃ m', finish_dump ids (m, l) = ((m', l), Ok tt) ∧ idle m' ∧
    ∀ b, b ∈ _dump_succeeded_blocks m' ↔ b ∈ _dump_succeeded_blocks m0 ∨
      enabled m0 = true ∧ forallb event_ok es = true ∧ ∃ r, b ∈ ctx_blocks ctx r.
Proof.
  intros [_ Hen Hsu Hb Hf Hc _ _] Hne Hids.
  assert (accounted_for m ctx = accounted_for m0 ctx) as Ea by (unfold accounted_for; by rewrite Hen).
  destruct (finish_dump_settled ids ctx m l) as (m' & E & Hid & _ & Hs); [done| | | |].
  - apply map_empty. intros t. destruct (_ !! t) eqn:Et; [|done]. by apply Hc in Et as [_ ?%elem_of_nil].
  - intros r. rewrite Hb, Ea. destruct (bool_decide _); set_solver.
  - intros r. rewrite Hf, Ea. destruct (forallb _ _); set_solver.
  - exists m'. split_and!; [done|done|]. intros b. rewrite Hs, Hsu. setoid_rewrite Hb. setoid_rewrite Hf.
    rewrite bool_decide_eq_false_2 by done. unfold accounted_for.
    destruct (enabled m0), (forallb event_ok es); set_solver.
Qed.
End accounts.

(** ** The dumps of a step *)

(** The dump of the shard of a pair: of the plan's blocks of its group. *)
Definition layer_event (cfg : HlaLayerConfig) (plan : DumpPlan) (x : pair_key * Z * outcome task) : store_event :=
  let '(gid, slot, h, o) := x in
  let ids := group_part gid (dp_group_ids plan) (dp_ucm_ids plan) in
  EvDump (worker_store (hw_base (hlw_cfg cfg))) ids (replicate (length ids) slot)
    (pair_row (hw_layout (hlw_cfg cfg)) gid slot <$> group_part gid (dp_group_ids plan) (dp_vllm_ids plan)) h o.

(** The dump that commits the plan's blocks. *)
Definition commit_event (cfg : HlaLayerConfig) (plan : DumpPlan) (h : Z) (o : outcome task) : store_event :=
  EvDump (worker_store (hw_base (hlw_cfg cfg))) (dp_ucm_ids plan)
    (replicate (length (dp_ucm_ids plan)) (_max_slot cfg))
    (zip_with (commit_row cfg) (dp_group_ids plan) (dp_vllm_ids plan)) h o.

Definition accepted (x : pair_key * Z * outcome task) : bool :=
  match x.2 with Ok _ => true | Raise _ => false end.

Section saving.
Context {W D : Type} `{StoreWorld W} `{DeviceSpec D} `{DeviceReset D} `{!DeviceResetSpec D} `{PySetOrder}.
Variable cfg : HlaLayerConfig.

Abbreviation state := (HlaWorker * D * (RankConsistencyManager * Logged W))%type.
Abbreviation hcfg := (hlw_cfg cfg).
Abbreviation wcfg := (hw_base hcfg).
Abbreviation layout := (hw_layout hcfg).
Abbreviation store := (worker_store wcfg).
Abbreviation order := (layer_order hcfg).

Hypothesis Hlayout : layout_ok (hw_kv hcfg) layout.
Hypothesis Horder : order ≡ₚ (hl_anchors layout).*1.
Hypothesis Hcommits : commits_ok cfg.
Hypothesis Hdevice : ∀ d : D, (synchronize d).2 = Ok tt ∧ ∃ h, (get_event_handle d).2 = Ok h.
Variable md : HlaMetadata.
Abbreviation plan := (hla_dump_plan hcfg md).
Hypothesis Hplan : plan_ok plan.
Variable st0 : state.

Lemma handle_ok s (d : D) (r : RankConsistencyManager * Logged W) :
  ∃ d' h, on_base (_get_dump_event_handle wcfg) (s, d, r) = ((s, d', r), Ok h) ∧
    (enable_event_sync wcfg = false → events d' = events d).
Proof.
  destruct (handle_spec hcfg s d r) as (d' & o & E & Ho). destruct o as [h|e].
  - exists d', h. split; [done|]. intros Hs. destruct Ho as [[_ ?]|[? _]]; [done|congruence].
  - exfalso. assert (∃ h, (on_base (_get_dump_event_handle wcfg) (s, d, r)).2 = Ok h) as [h Hh];
      [|rewrite E in Hh; done]. clear E Ho.
    unfold on_base, zoom, _get_dump_event_handle, on_device, mbind, M_bind. cbn [fst snd].
    assert (∀ d1 : D, ∃ d2, synchronize d1 = (d2, Ok tt)) as Hsync.
    { intros d1. destruct (Hdevice d1) as [E _]. destruct (synchronize d1) as [d2 o]. simpl in E. subst. by eexists. }
    destruct (enable_event_sync wcfg); simpl; unfold zoom; cbn [fst snd].
    + destruct (Hdevice d) as [_ [h E]]. destruct (get_event_handle d) as [d1 o]. simpl in E. subst o.
      cbn. destruct (h =? 0); [|by eexists]. cbn [fst snd]. destruct (Hsync d1) as [d2 ->]. by eexists.
    + destruct (Hsync d) as [d2 ->]. by eexists.
Qed.

Abbreviation accounts_now es st :=
  (accounts store (dp_block_ids_by_request plan) st0.2.1 es (pending st) st.2.1).

(** What a submission leaves. *)
Record submitted (ids : list bytes) (slot : Z) (ptrs : list (list Z)) (es : list store_event) (st st' : state)
    (h : Z) (o : outcome task) : Prop := {
  su_log : log st'.2.2 = log st.2.2 ++ [EvDump store ids (replicate (length ids) slot) ptrs h o];
  su_accounts : accounts_now (es ++ [EvDump store ids (replicate (length ids) slot) ptrs h o]) st';
  su_events : enable_event_sync wcfg = false → events st'.1.2 = events st.1.2;
  su_worker : ∃ ts, st'.1.1 = set_hw_dumps (set_dump_tasks ts (hw_dumps st.1.1)) st.1.1;
}.

Lemma submit_pending_spec ids slot ptrs es (st : state) :
  accounts_now es st →
  ∃ st' h o, submit_pending_dump cfg plan ids slot ptrs st =
      (st', match o with Ok _ => Ok tt | Raise e => Raise e end) ∧ submitted ids slot ptrs es st st' h o.
Proof.
  destruct st as [[s d] [m l]]. cbn [fst snd]. intros Ha. unfold submit_pending_dump.
  destruct (handle_ok s d (m, l)) as (d1 & h & E & Hev). erewrite bind_ok; [|exact E].
  unfold mbind at 1, M_bind at 1. rewrite on_rcm_eq.
  destruct (accounts_submit _ _ _ es (pending (s, d, (m, l))) ids (replicate (length ids) slot) ptrs h m l Ha)
    as (m' & w' & o & -> & Ha'). cbn [fst snd]. destruct o as [t|e].
  - eexists _, h, (Ok t). split; [reflexivity|]. split; [done| |done|by eexists].
    unfold pending in *. cbn. by rewrite fmap_app.
  - eexists _, h, (Raise e). split; [reflexivity|]. split; [done|done|done|].
    exists (_dump_tasks (hw_dumps s)). cbn. by destruct s as [? ? ? []].
Qed.

(** The pair is at the last slot, or has no blocks, or is in [ks]. *)
Definition covered (ks : list (pair_key * Z * outcome task)) (key : pair_key) : Prop :=
  key.2 = _max_slot cfg ∨ (key.1 ∉ dp_group_ids plan) ∨ ∃ x, x ∈ ks ∧ x.1.1 = key.

(** After the submissions [ks] of layers; the layers of [ex] are still to be dumped. *)
Record saving (ex : gset string) (ks : list (pair_key * Z * outcome task)) (st : state) : Prop := {
  sv_metadata : hw_metadata st.1.1 = Some md;
  sv_plan : _dump_plan (hw_dumps st.1.1) = None ∨ _dump_plan (hw_dumps st.1.1) = Some plan;
  sv_log : log st.2.2 = log st0.2.2 ++ (layer_event cfg plan <$> ks);
  sv_keys : Forall (λ x, x.1.1.2 ≠ _max_slot cfg ∧ x.1.1.1 ∈ dp_group_ids plan) ks;
  sv_once : NoDup ((λ x, x.1.1) <$> base.filter (λ x, accepted x = true) ks);
  sv_slots key : key ∈ _dumped_group_slots (hw_dumps st.1.1) → covered ks key;
  sv_accepted x : x ∈ ks → accepted x = true → x.1.1 ∈ _dumped_group_slots (hw_dumps st.1.1);
  sv_layers name key : name ∈ _dumped_layers (hw_dumps st.1.1) → name ∉ ex → key_of cfg name = Ok key → covered ks key;
  sv_is_save : hla_is_save (hw_dumps st.1.1) = existsb accepted ks;
  sv_accounts : accounts_now (layer_event cfg plan <$> ks) st;
  sv_events : enable_event_sync wcfg = false ∨ ks = [] → events st.1.2 = events st0.1.2;
}.

Lemma covered_app ks ks' key : covered ks key → covered (ks ++ ks') key.
Proof.
  intros [?|[?|(x & Hx & ?)]]; [by left|by right; left|right; right]. exists x. split; [|done].
  apply elem_of_app. by left.
Qed.

(** Marking layers and pairs that are covered. *)
Lemma saving_mark ex ks names keys s d r :
  saving ex ks (s, d, r) → (∀ key, key ∈ keys → covered ks key) →
  (∀ name key, name ∈ names → name ∉ ex → key_of cfg name = Ok key → covered ks key) →
  saving ex ks (set_hw_dumps (add_dumped names keys (hw_dumps s)) s, d, r).
Proof.
  intros [] Hk Hn. split; cbn in *; try done.
  - intros key [?|?]%elem_of_union; auto.
  - intros x ? ?. apply elem_of_union. auto.
  - intros name key [?|?]%elem_of_union; eauto.
Qed.

Lemma saving_ensure ex ks (st : state) :
  saving ex ks st →
  ∃ st', _ensure_dump_plan hcfg st = (st', Ok plan) ∧ saving ex ks st' ∧
    hw_dumps st'.1.1 = set_dump_plan (Some plan) (hw_dumps st.1.1).
Proof.
  destruct st as [[s d] r]. intros Hs. destruct (sv_plan _ _ _ Hs) as [E|E]; cbn [fst snd] in E.
  - rewrite (ensure_plan_fresh hcfg md) by (done || apply Hs). eexists. split; [reflexivity|]. split; [|done].
    destruct Hs. split; cbn in *; try done. by right.
  - exists (s, d, r). split_and!; [|done|].
    + unfold _ensure_dump_plan, mbind, M_bind, get_state. cbn [fst snd]. by rewrite E.
    + cbn. destruct s as [? ? ? []]. cbn in *. by subst.
Qed.

Lemma group_part_nil {A} gid groups (l : list A) : gid ∉ groups → group_part gid groups l = [].
Proof.
  intros Hn. unfold group_part.
  destruct (base.filter _ _) as [|[g x] rest] eqn:E; [done|].
  assert ((g, x) ∈ base.filter (λ p : Z * A, p.1 = gid) (zip groups l)) as Hin by (rewrite E; left).
  apply list_elem_of_filter in Hin as [Hg Hin%elem_of_zip_l]. simpl in Hg. by subst.
Qed.

Lemma saving_less ex ex' ks (st : state) :
  saving ex ks st → (∀ name key, name ∈ ex → name ∉ ex' → key_of cfg name = Ok key → covered ks key) →
  saving ex' ks st.
Proof.
  intros [] Hex. split; try done. intros name key Hn Hn' Hk.
  destruct (decide (name ∈ ex)); eauto.
Qed.

(** The submission of a pair. *)
Lemma saving_submit ex ks gid slot h o n (st st' : state) :
  saving ex ks st → (gid, slot) ∉ _dumped_group_slots (hw_dumps st.1.1) →
  slot ≠ _max_slot cfg → gid ∈ dp_group_ids plan →
  submitted (group_part gid (dp_group_ids plan) (dp_ucm_ids plan)) slot
    (pair_row layout gid slot <$> group_part gid (dp_group_ids plan) (dp_vllm_ids plan))
    (layer_event cfg plan <$> ks) st st' h o →
  saving ex (ks ++ [(gid, slot, h, o)])
    (match o with
     | Ok _ => set_hw_dumps (add_dumped ∅ {[(gid, slot)]} (add_saved n (hw_dumps st'.1.1))) st'.1.1
     | Raise _ => st'.1.1
     end, st'.1.2, st'.2).
Proof.
  intros [Emd Ep El Hk Ho Hs Ha Hl Hi Hac Hev] Hnew Hmax Hg [Sl Sa Se [ts Sw]].
  set (x := (gid, slot, h, o)). destruct st' as [[s' d'] r']. cbn [fst snd] in *. subst s'.
  assert (covered (ks ++ [x]) (gid, slot)) as Hcov.
  { right. right. exists x. split; [|done]. apply elem_of_app. right. left. }
  assert (layer_event cfg plan <$> ks ++ [x] = (layer_event cfg plan <$> ks) ++ [layer_event cfg plan x]) as Ex
    by (by rewrite fmap_app).
  split.
  - by destruct o.
  - by destruct o.
  - cbn [snd]. rewrite Sl, El, Ex, app_assoc. done.
  - apply Forall_app. split; [done|]. repeat constructor; done.
  - rewrite filter_app, fmap_app. apply NoDup_app. split_and!; [done| |].
    + intros key (y & -> & [Hy Hin]%list_elem_of_filter)%list_elem_of_fmap Hin'.
      assert (y.1.1 = (gid, slot)) as E.
      { destruct o; [|by apply elem_of_nil in Hin']. by apply list_elem_of_singleton in Hin'. }
      apply Hnew. rewrite <- E. by apply Ha.
    + destruct o; simpl; [apply NoDup_singleton|constructor].
  - intros key Hin. assert (key ∈ _dumped_group_slots (hw_dumps st.1.1) ∨ key = (gid, slot)) as [?| ->];
      [destruct o; cbn in Hin; [apply elem_of_union in Hin as [?%elem_of_singleton|?]|]; auto
      |by apply covered_app, Hs|done].
  - intros y [Hy|Hy]%elem_of_app Hok.
    + apply (Ha y Hy) in Hok. destruct o; cbn; [by apply elem_of_union_r|done].
    + apply list_elem_of_singleton in Hy as ->. destruct o; [|done]. cbn. by apply elem_of_union_l, elem_of_singleton.
  - intros name key Hin Hex Hkey. apply covered_app. eapply (Hl name key); try done.
    destruct o; cbn in Hin; [by apply elem_of_union in Hin as [?%elem_of_empty|?]|done].
  - rewrite existsb_app. unfold x. destruct o; cbn; [by rewrite orb_true_r|by rewrite !orb_false_r].
  - rewrite Ex. destruct o; apply Sa.
  - cbn [fst snd]. intros [E|E]; [|by destruct ks]. rewrite Se by done. apply Hev. by left.
Qed.

(** The layer is marked, and the plan stays. *)
Definition layer_done (name : string) (st st' : state) : Prop :=
  _dumped_layers (hw_dumps st'.1.1) = {[name]} ∪ _dumped_layers (hw_dumps st.1.1) ∧
  (_dump_plan (hw_dumps st.1.1) = Some plan → _dump_plan (hw_dumps st'.1.1) = Some plan).

(** [_submit_layer_dump] for a layer before the last slot. *)
Lemma layer_dump_step name ks (st : state) :
  saving ∅ ks st → name ∈ order → name ∉ _deferred_dump_layers cfg →
  ∃ st' ks', _submit_layer_dump cfg name st = (st', Ok tt) ∧ saving ∅ (ks ++ ks') st' ∧
    layer_done name st st'.
Proof.
  destruct st as [[s d] r]. intros Hs Hn Hd. unfold _submit_layer_dump.
  destruct (order_layer cfg Hlayout Horder name Hn) as ([gid slot] & Hk & Hg & Hsl & Hx & (n & Hb)).
  cbn [fst snd] in *.
  assert (slot ≠ _max_slot cfg) as Hmax by (intros ->; apply Hd, (co_deferred _ Hcommits); done).
  erewrite bind_ok; [|reflexivity]. rewrite Hk. erewrite bind_ok; [|reflexivity].
  unfold mbind at 1, M_bind at 1, get_state. cbn [fst snd].
  set (s1 := set_hw_dumps (add_dumped {[name]} ∅ (hw_dumps s)) s).
  assert (saving {[name]} ks (s1, d, r)) as Hs1.
  { apply saving_mark; [eapply saving_less; [exact Hs|]| |done].
    - by intros ? ? ?%elem_of_empty.
    - by intros ? ?%elem_of_empty. }
  assert (∀ ks' st', saving {[name]} ks' st' → covered ks' (gid, slot) → saving ∅ ks' st') as Hdone.
  { intros ks' st' H' Hc. eapply saving_less; [exact H'|]. intros n' key ->%elem_of_singleton _ Hkey.
    assert (key = (gid, slot)) as -> by congruence. done. }
  case_bool_decide as Hin.
  { eexists _, []. rewrite app_nil_r. split; [reflexivity|]. split; [|done].
    apply Hdone; [done|]. apply (sv_slots _ _ _ Hs1). done. }
  destruct (saving_ensure _ _ _ Hs1) as ([[s2 d2] r2] & E & Hs2 & Hd2). erewrite bind_ok; [|exact E].
  cbn [fst snd] in *.
  assert (gid ∉ dp_group_ids plan → ∃ st' ks', on_dumps (add_dumped ∅ {[(gid, slot)]}) (s2, d2, r2) = (st', Ok tt) ∧
    saving ∅ (ks ++ ks') st' ∧ layer_done name (s, d, r) st') as Hnone.
  { intros Hng. eexists _, []. rewrite app_nil_r. split; [reflexivity|].
    assert (covered ks (gid, slot)) as Hc by (right; by left). split; [|split; cbn; rewrite Hd2; cbn; by rewrite ?union_empty_l_L].
    apply Hdone; [|done]. apply saving_mark; [done|by intros ? ->%elem_of_singleton|by intros ? ? ?%elem_of_empty]. }
  case_bool_decide as Hu; cbn [orb].
  { apply Hnone. destruct Hplan as [Eu _ _ _]. rewrite Hu in Eu. destruct (dp_group_ids plan); [apply not_elem_of_nil|done]. }
  case_bool_decide as Hsel.
  { apply Hnone. intros Hin'. by apply (selected_some gid (dp_group_ids plan)). }
  assert (gid ∈ dp_group_ids plan) as Hin'.
  { destruct (decide (gid ∈ dp_group_ids plan)) as [|Hng]; [done|]. destruct Hsel.
    pose proof (pick_selected gid (dp_group_ids plan) (dp_group_ids plan) eq_refl) as Hp.
    rewrite (group_part_nil gid) in Hp by done. unfold pick in Hp. apply map_outcome_Forall2 in Hp.
    by apply Forall2_nil_inv_r in Hp. }
  destruct Hplan as [Pu Pv Pb _]. rewrite !pick_selected by done.
  do 2 (erewrite bind_ok; [|reflexivity]).
  assert (Forall (λ b, 0 ≤ b < uint64_max) (group_part gid (dp_group_ids plan) (dp_vllm_ids plan))) as Hbs.
  { apply Forall_forall. intros b Hin2. unfold group_part in Hin2.
    apply list_elem_of_fmap in Hin2 as ([g b'] & -> & [_ Hz%elem_of_zip_r]%list_elem_of_filter).
    by eapply Forall_forall in Pb. }
  unfold ignore_failure, try_except. rewrite Hx by done. erewrite bind_ok; [|reflexivity].
  destruct (submit_pending_spec (group_part gid (dp_group_ids plan) (dp_ucm_ids plan)) slot
    (pair_row layout gid slot <$> group_part gid (dp_group_ids plan) (dp_vllm_ids plan))
    _ _ (sv_accounts _ _ _ Hs2)) as ([[s3 d3] r3] & h & o & E3 & Hsub).
  assert ((gid, slot) ∉ _dumped_group_slots (hw_dumps s2)) as Hnew by (by rewrite Hd2).
  assert (layer_done name (s, d, r) (s3, d3, r3)) as [Hlay1 Hlay2].
  { destruct (su_worker _ _ _ _ _ _ _ _ Hsub) as [ts E']. cbn in E'. subst s3. split; cbn; by rewrite Hd2. }
  set (k := zlen (group_part gid (dp_group_ids plan) (dp_ucm_ids plan)) * n).
  pose proof (saving_submit {[name]} ks gid slot h o k (s2, d2, r2) (s3, d3, r3) Hs2 Hnew Hmax Hin' Hsub) as Hs3.
  assert (covered (ks ++ [(gid, slot, h, o)]) (gid, slot)) as Hc.
  { right. right. eexists. split; [apply elem_of_app; right; left|done]. }
  apply Hdone in Hs3; [|done]. unfold mbind at 1, M_bind at 1. rewrite E3. destruct o as [t|e].
  - rewrite Hb. eexists _, [_]. split; [reflexivity|]. split; [exact Hs3|].
    cbn in Hlay1. split; [cbn; by rewrite union_empty_l_L, Hlay1|exact Hlay2].
  - eexists _, [_]. split; [reflexivity|]. split; [exact Hs3|done].
Qed.

Lemma layer_pos_order name : layer_pos cfg name ≠ None → name ∈ order.
Proof.
  intros Hp. destruct (layer_pos cfg name) as [pos|] eqn:E; [|done].
  apply fmap_Some in E as ([n x] & [Hx [-> _]]%list_find_Some & _). by eapply list_elem_of_lookup_2.
Qed.

(** A layer at the last slot is left to the commit. *)
Lemma deferred_covered name ks key :
  name ∈ _deferred_dump_layers cfg → key_of cfg name = Ok key → covered ks key.
Proof.
  intros [Ho Hs]%(co_deferred _ Hcommits) Hk. left.
  destruct (order_layer cfg Hlayout Horder name Ho) as (key' & Hk' & _ & Hs' & _). congruence.
Qed.

Lemma save_hook_step name ks (st : state) :
  saving ∅ ks st →
  ∃ st' ks', hlw_save_kv_layer cfg name st = (st', Ok tt) ∧ saving ∅ (ks ++ ks') st'.
Proof.
  intros Hs. unfold hlw_save_kv_layer. unfold mbind at 1, M_bind at 1, get_state.
  rewrite (sv_metadata _ _ _ Hs).
  assert (∃ st' ks', (mret tt : M state unit) st = (st', Ok tt) ∧ saving ∅ (ks ++ ks') st') as Hskip.
  { exists st, []. by rewrite app_nil_r. }
  case_bool_decide; [done|]. case_bool_decide as Hd.
  { destruct st as [[s d] r]. erewrite bind_ok; [|reflexivity]. pose proof Hd as [Ho _]%(co_deferred _ Hcommits).
    destruct (order_layer cfg Hlayout Horder name Ho) as (key & Hk & _). rewrite Hk.
    erewrite bind_ok; [|reflexivity]. eexists _, []. rewrite app_nil_r. split; [reflexivity|].
    apply (saving_mark ∅ ks ∅ {[key]}).
    - apply saving_mark; [done|by intros ? ?%elem_of_empty|].
      intros n k ->%elem_of_singleton _. by apply deferred_covered.
    - intros k ->%elem_of_singleton. by eapply deferred_covered.
    - by intros ? ? ?%elem_of_empty. }
  case_bool_decide as Hp; [done|].
  destruct (layer_dump_step name ks st Hs (layer_pos_order name Hp) Hd) as (st' & ks' & E & Hs' & _). by exists st', ks'.
Qed.

Lemma catch_up_step name ks (st : state) :
  saving ∅ ks st → name ∈ order →
  ∃ st' ks', catch_up cfg name st = (st', Ok tt) ∧ saving ∅ (ks ++ ks') st' ∧
    layer_done name st st'.
Proof.
  intros Hs Ho. unfold catch_up. unfold mbind at 1, M_bind at 1, get_state.
  case_bool_decide as Hn.
  { exists st, []. rewrite app_nil_r. split; [done|]. split; [done|]. split; [set_solver +Hn|done]. }
  case_bool_decide as Hd; [|by apply layer_dump_step].
  destruct st as [[s d] r]. eexists _, []. rewrite app_nil_r. split; [reflexivity|]. split; [|done].
  apply saving_mark; [done|by intros ? ?%elem_of_empty|].
  intros n k ->%elem_of_singleton _. by apply deferred_covered.
Qed.

Lemma catch_up_all names ks (st : state) :
  saving ∅ ks st → (∀ name, name ∈ names → name ∈ order) →
  ∃ st' ks', for_each names (catch_up cfg) st = (st', Ok tt) ∧ saving ∅ (ks ++ ks') st' ∧
    (_dump_plan (hw_dumps st.1.1) = Some plan → _dump_plan (hw_dumps st'.1.1) = Some plan) ∧
    ∀ name, name ∈ names ∨ name ∈ _dumped_layers (hw_dumps st.1.1) → name ∈ _dumped_layers (hw_dumps st'.1.1).
Proof.
  revert ks st. induction names as [|name names IH]; intros ks st Hs Ho.
  { exists st, []. rewrite app_nil_r. split_and!; [done|done|done|]. by intros n [?%elem_of_nil|?]. }
  destruct (catch_up_step name ks st Hs) as (st1 & ks1 & E1 & Hs1 & Hd1 & Hp1); [apply Ho; left|].
  destruct (IH _ _ Hs1) as (st' & ks' & E & Hs' & Hp & Hd); [intros n Hn; apply Ho; by right|].
  exists st', (ks1 ++ ks'). cbn [for_each]. erewrite bind_ok; [|exact E1]. rewrite app_assoc.
  split_and!; [done|done|auto|]. intros n Hn. apply Hd. rewrite Hd1, elem_of_union, elem_of_singleton.
  rewrite elem_of_cons in Hn. tauto.
Qed.

Lemma save_hooks names ks (st : state) :
  saving ∅ ks st →
  ∃ st' ks', for_each names (hlw_save_kv_layer cfg) st = (st', Ok tt) ∧ saving ∅ (ks ++ ks') st'.
Proof.
  revert ks st. induction names as [|name names IH]; intros ks st Hs.
  { exists st, []. by rewrite app_nil_r. }
  destruct (save_hook_step name ks st Hs) as (st1 & ks1 & E1 & Hs1).
  destruct (IH _ _ Hs1) as (st' & ks' & E & Hs'). exists st', (ks1 ++ ks').
  cbn [for_each]. erewrite bind_ok; [|exact E1]. by rewrite app_assoc.
Qed.

Lemma commit_step ks (st : state) :
  saving ∅ ks st → _dump_plan (hw_dumps st.1.1) = Some plan → dp_ucm_ids plan ≠ [] →
  ∃ st' h o, _submit_commit_dump cfg st = (st', Ok tt) ∧
    log st'.2.2 = log st.2.2 ++ [commit_event cfg plan h o] ∧
    accounts_now ((layer_event cfg plan <$> ks) ++ [commit_event cfg plan h o]) st' ∧
    hla_is_save (hw_dumps st'.1.1) = existsb accepted ks || event_ok (commit_event cfg plan h o) ∧
    _dump_plan (hw_dumps st'.1.1) = Some plan ∧
    (enable_event_sync wcfg = false → events st'.1.2 = events st0.1.2).
Proof.
  intros Hs Hp Hu. unfold _submit_commit_dump. unfold mbind at 1, M_bind at 1, get_state. rewrite Hp.
  rewrite bool_decide_eq_false_2 by done.
  destruct (commit_addrs_spec cfg Hlayout Horder Hcommits plan Hplan) as [n ->].
  erewrite bind_ok; [|reflexivity]. cbn [fst snd]. unfold ignore_failure, try_except.
  destruct (submit_pending_spec (dp_ucm_ids plan) (_max_slot cfg)
    (zip_with (commit_row cfg) (dp_group_ids plan) (dp_vllm_ids plan)) _ _ (sv_accounts _ _ _ Hs))
    as ([[s' d'] r'] & h & o & E & [Sl Sa Se [ts Sw]]).
  cbn [fst snd] in *. subst s'. unfold mbind at 1, M_bind at 1. rewrite E.
  assert (enable_event_sync wcfg = false → events d' = events st0.1.2) as Hev.
  { intros Es. rewrite Se by done. apply (sv_events _ _ _ Hs). by left. }
  destruct o as [t|e]; eexists _, h, _; (split; [reflexivity|]); cbn [fst snd];
    (split; [exact Sl|]); (split; [exact Sa|]); (split; [|split; [exact Hp|exact Hev]]); cbn.
  - by rewrite orb_true_r.
  - by rewrite orb_false_r, (sv_is_save _ _ _ Hs).
Qed.

(** What the dumps of a step are, in this order. *)
Record save_order (ks : list (pair_key * Z * outcome task)) (h : Z) (o : outcome task)
    (ws es : list store_event) : Prop := {
  so_events : es = (layer_event cfg plan <$> ks) ++ [commit_event cfg plan h o] ++ ws;
  so_waits : Forall (λ e, ∃ t r, e = EvWait store t r) ws;
  so_keys : Forall (λ x, x.1.1.2 ≠ _max_slot cfg ∧ x.1.1.1 ∈ dp_group_ids plan) ks;
  so_once : NoDup ((λ x, x.1.1) <$> base.filter (λ x, accepted x = true) ks);
  so_all name key : name ∈ order → key_of cfg name = Ok key → covered ks key;
  so_waited s ids sh ps h' t : EvDump s ids sh ps h' (Ok t) ∈ es → ∃ r, EvWait store t r ∈ es;
}.

(** The end of [wait_for_save], after the waits. *)
Definition report_step (loaded : option Z) : M state (option Z * option Z) :=
  s ← get_state;
  let d := hw_dumps s.1.1 in
  if negb (hla_is_save d) then
    on_dumps (λ d, mkHlaDumps None [] ∅ ∅ (hla_is_save d) (_save_bytes_total d)) ;;
    on_loads clear_group_slots ;;
    mret (loaded, None)
  else
    on_rcm (finish_dump (match _dump_plan d with Some plan => dp_request_ids plan | None => ∅ end)) ;;
    on_dumps (λ d, mkHlaDumps None [] ∅ ∅ false
      (if 0 <? _save_bytes_total d then 0 else _save_bytes_total d)) ;;
    on_loads clear_group_slots ;;
    (if enable_event_sync wcfg then on_base (on_device destroy_event_handles) else mret tt) ;;
    mret (loaded, if 0 <? _save_bytes_total d then Some (_save_bytes_total d) else None).

Abbreviation save_tail := ((_wait_dump_tasks ;; _record_load_bytes) ≫= report_step).

Lemma record_load_bytes_frame (st : state) :
  ∃ l r, _record_load_bytes st = ((set_hw_loads l st.1.1, st.1.2, st.2), Ok r).
Proof.
  destruct st as [[s d] r]. unfold _record_load_bytes, mbind, M_bind, get_state. cbn [fst snd].
  destruct (_load_bytes_recorded (hw_loads s)); [|by eexists _, _].
  exists (hw_loads s). eexists. by destruct s.
Qed.

Lemma plan_requests : dom (dp_block_ids_by_request plan) ⊆ dp_request_ids plan.
Proof.
  unfold hla_dump_plan. assert (dom (dp_block_ids_by_request (mkDumpPlan [] [] [] ∅ ∅)) ⊆
    dp_request_ids (mkDumpPlan [] [] [] ∅ ∅)) as Hp by (cbn; set_solver).
  revert Hp. generalize (mkDumpPlan [] [] [] ∅ ∅). induction (hla_request_meta md) as [|[id req] l IH];
    intros p Hp; simpl; [done|]. apply IH. case_bool_decide; [done|].
  destruct (_scope_blocks _ _ _ _ _ _) as [[[ctx ku] kb] kg]. case_bool_decide; cbn; set_solver.
Qed.

(** What is left when [wait_for_save] returns. *)
Record saved (es : list store_event) (st' : state) : Prop := {
  sd_started : dumps_started (hw_dumps st'.1.1) = false;
  sd_contexts : _dump_task_contexts st'.2.1 = ∅;
  sd_idle : es = [] ∨ (∃ s ids sh ps h t, EvDump s ids sh ps h (Ok t) ∈ es) →
    idle st'.2.1 ∧ events st'.1.2 ⊆ events st0.1.2;
  sd_report b : b ∈ _dump_succeeded_blocks st'.2.1 ↔ b ∈ _dump_succeeded_blocks st0.2.1 ∨
    enabled st0.2.1 = true ∧ es ≠ [] ∧ forallb event_ok es = true ∧
    ∃ r, b ∈ ctx_blocks (dp_block_ids_by_request plan) r;
}.

Lemma tail_waits es (st : state) :
  accounts_now es st → es ≠ [] →
  ∃ st1 w r ws, (_wait_dump_tasks ;; _record_load_bytes) st = (st1, Ok r) ∧
    st1.1.2 = st.1.2 ∧ st1.2.2 = mkLogged w (log st.2.2 ++ ws) ∧
    hw_dumps st1.1.1 = set_dump_tasks [] (hw_dumps st.1.1) ∧
    accounts store (dp_block_ids_by_request plan) st0.2.1 (es ++ ws) [] st1.2.1 ∧
    Forall (λ e, ∃ t r, e = EvWait store t r) ws.
Proof.
  intros Ha Hne. unfold _wait_dump_tasks. unfold mbind at 1, M_bind at 1.
  unfold mbind at 1, M_bind at 1, get_state. rewrite wait_loop_run by lia.
  destruct st as [[s d] [m l]]. cbn [fst snd] in *.
  destruct (accounts_waits _ _ _ es _ m l Ha Hne) as (m' & w' & ws & -> & Ha' & Hws).
  destruct (record_load_bytes_frame (set_hw_dumps (set_dump_tasks [] (hw_dumps s)) s, d,
    (m', mkLogged w' (log l ++ ws)))) as (ld & r & ->).
  eexists _, w', r, ws. split; [reflexivity|]. cbn. split_and!; done.
Qed.

Lemma save_tail_spec es (st : state) :
  accounts_now es st → es ≠ [] → _dump_plan (hw_dumps st.1.1) = Some plan →
  (hla_is_save (hw_dumps st.1.1) = false → forallb event_ok es = false ∧
     ∀ s ids sh ps h t, EvDump s ids sh ps h (Ok t) ∉ es) →
  (enable_event_sync wcfg = false → events st.1.2 = events st0.1.2) →
  ∃ st' r ws, save_tail st = (st', Ok r) ∧ log st'.2.2 = log st.2.2 ++ ws ∧
    Forall (λ e, ∃ t r, e = EvWait store t r) ws ∧ saved (es ++ ws) st' ∧
    (∀ s ids sh ps h t, EvDump s ids sh ps h (Ok t) ∈ es ++ ws → ∃ r, EvWait store t r ∈ es ++ ws).
Proof.
  intros Ha Hne Hp Hsave Hev.
  destruct (tail_waits es st Ha Hne) as ([[s1 d1] [m1 l1]] & w & r & ws & E & Edev & El & Ed & Ha1 & Hws).
  cbn [fst snd] in *. subst l1 d1. erewrite bind_ok; [|exact E].
  unfold report_step. unfold mbind at 1, M_bind at 1, get_state. cbn [fst snd]. rewrite Ed. cbn [hla_is_save set_dump_tasks _dump_plan _save_bytes_total]. rewrite Hp.
  assert (es ++ ws ≠ []) as Hne' by (by destruct es).
  assert (∀ s ids sh ps h t, EvDump s ids sh ps h (Ok t) ∈ es ++ ws → ∃ r, EvWait store t r ∈ es ++ ws) as Hwt.
  { intros ? ? ? ? ? ? [?%elem_of_nil|?]%(ac_tasks _ _ _ _ _ _ Ha1); done. }
  assert (_dump_task_contexts m1 = ∅) as Hc.
  { apply map_empty. intros t. destruct (_ !! t) eqn:Et; [|done].
    by apply (ac_contexts _ _ _ _ _ _ Ha1) in Et as [_ ?%elem_of_nil]. }
  destruct (hla_is_save (hw_dumps st.1.1)) eqn:Es; cbn [negb].
  - unfold mbind at 1, M_bind at 1. rewrite on_rcm_eq. cbn [fst snd].
    destruct (accounts_finish _ _ _ _ (dp_request_ids plan) m1 (mkLogged w (log st.2.2 ++ ws)) Ha1 Hne' plan_requests)
      as (m2 & -> & Hid & Hrep). cbn [fst snd]. do 2 (erewrite bind_ok; [|reflexivity]).
    assert (∀ s d, dumps_started (hw_dumps s) = false → events d ⊆ events st0.1.2 →
      saved (es ++ ws) (s, d, (m2, mkLogged w (log st.2.2 ++ ws)))) as Hsv.
    { intros s d Hst Hevs. split; cbn; [done|apply Hid|done|]. intros b. rewrite Hrep. tauto. }
    destruct (enable_event_sync wcfg) eqn:Esync.
    + unfold mbind at 1, M_bind at 1. unfold on_base at 1, on_device at 1, zoom. cbn [fst snd].
      destruct (destroy_event_handles_ok st.1.2) as (d2 & -> & Hd2). cbn [fst snd]. eexists _, _, ws. split; [reflexivity|].
      split_and!; [done|done|apply Hsv; [done|by rewrite Hd2]|done].
    + eexists _, _, ws. split; [reflexivity|]. split_and!; [done|done|apply Hsv; [done|cbn; by rewrite Hev]|done].
  - destruct (Hsave eq_refl) as [Hbad Hno].
    do 2 (erewrite bind_ok; [|reflexivity]). eexists _, _, ws. split; [reflexivity|].
    split_and!; [done|done| |done]. split; cbn.
    + rewrite Ed. cbn. by rewrite Es.
    + done.
    + intros [?|(? & ? & ? & ? & ? & ? & [Hin|Hin]%elem_of_app)]; [done| |].
      * by apply Hno in Hin.
      * eapply Forall_forall in Hws; [|exact Hin]. by destruct Hws as (? & ? & ?).
    + intros b. rewrite (ac_succeeded _ _ _ _ _ _ Ha1), forallb_app, Hbad. cbn. split; [by left|].
      intros [?|(_ & _ & ? & _)]; done.
Qed.

(** A step without blocks to dump. *)
Lemma save_nothing (st : state) :
  saving ∅ [] st → _dump_plan (hw_dumps st.1.1) = Some plan → dp_ucm_ids plan = [] → idle st0.2.1 →
  ∃ st' r, (_submit_commit_dump cfg ;; save_tail) st = (st', Ok r) ∧ log st'.2.2 = log st.2.2 ∧ saved [] st'.
Proof.
  intros Hs Hp Hu Hid. destruct st as [[s d] [m l]]. cbn [fst snd] in *.
  assert (_submit_commit_dump cfg (s, d, (m, l)) = ((s, d, (m, l)), Ok tt)) as E.
  { unfold _submit_commit_dump, mbind, M_bind, get_state. cbn [fst snd]. rewrite Hp.
    by rewrite bool_decide_eq_true_2. }
  erewrite bind_ok; [|exact E]. destruct (sv_accounts _ _ _ Hs) as [Hts Hen Hsu Hb Hf Hc _ _]. cbn [fst snd] in *.
  specialize (Hts eq_refl).
  assert (_dump_task_contexts m = ∅) as Ec.
  { apply map_empty. intros t. destruct (_ !! t) eqn:Et; [|done].
    apply Hc in Et as [_ Hin]. rewrite Hts in Hin. by apply elem_of_nil in Hin. }
  assert (idle m) as Hm by (split; [done|intros; by rewrite Hb|intros; by rewrite Hf]).
  assert (∃ ld r, (_wait_dump_tasks ;; _record_load_bytes) (s, d, (m, l)) =
    ((set_hw_loads ld (set_hw_dumps (set_dump_tasks [] (hw_dumps s)) s), d, (m, l)), Ok r)) as (ld & r & E1).
  { unfold _wait_dump_tasks. unfold mbind at 1, M_bind at 1. unfold mbind at 1, M_bind at 1, get_state.
    rewrite wait_loop_run, Hts by lia. cbn [fst snd]. unfold run_waits. cbn [foldl].
    destruct (record_load_bytes_frame (set_hw_dumps (set_dump_tasks [] (hw_dumps s)) s, d, (m, l))) as (ld & r & ->).
    by exists ld, r. }
  erewrite bind_ok; [|exact E1]. unfold report_step. unfold mbind at 1, M_bind at 1, get_state. cbn [fst snd].
  assert (hla_is_save (hw_dumps s) = false) as Ei by apply (sv_is_save _ _ _ Hs).
  cbn [hw_dumps set_hw_loads set_hw_dumps hla_is_save set_dump_tasks]. rewrite Ei. cbn [negb].
  do 2 (erewrite bind_ok; [|reflexivity]). eexists _, _. split; [reflexivity|]. split; [done|]. split; cbn; try done.
  - intros _. split; [done|]. rewrite <- (sv_events _ _ _ Hs) by (by right). done.
  - intros b. rewrite Hsu. split; [by left|]. intros [?|(_ & ? & _)]; done.
Qed.

Lemma wait_for_save_eq (st : state) :
  hw_metadata st.1.1 = Some md →
  hlw_wait_for_save cfg st =
    ((_ensure_dump_plan hcfg ;; for_each order (catch_up cfg)) ≫= λ _, _submit_commit_dump cfg ;; save_tail) st.
Proof.
  intros Emd. unfold hlw_wait_for_save, report_step, mbind, M_bind, get_state. rewrite Emd.
  destruct (_ensure_dump_plan hcfg st) as [st1 [p|e]]; [|done].
  destruct (for_each order (catch_up cfg) st1) as [st2 [[]|e]]; [|done].
  destruct (_submit_commit_dump cfg st2) as [st3 [[]|e]]; [|done].
  by destruct (_wait_dump_tasks st3) as [st4 [[]|e]].
Qed.

Lemma events_refused ks h e s ids sh ps h' t :
  existsb accepted ks = false →
  EvDump s ids sh ps h' (Ok t) ∉ (layer_event cfg plan <$> ks) ++ [commit_event cfg plan h (Raise e)].
Proof.
  intros Hno [Hin|Hin]%elem_of_app; [|by apply list_elem_of_singleton in Hin].
  apply list_elem_of_fmap in Hin as ([[[gid slot] h''] o] & Heq & Hin). cbn in Heq. simplify_eq.
  assert (existsb accepted ks = true) as Hyes; [|congruence]. apply existsb_exists.
  eexists. split; [by apply list_elem_of_In|done].
Qed.

(** The hooks called in any number, and then [wait_for_save]. *)
Lemma save_step names :
  saving ∅ [] st0 → idle st0.2.1 →
  ∃ st' r es, (for_each names (hlw_save_kv_layer cfg) ;; hlw_wait_for_save cfg) st0 = (st', Ok r) ∧
    log st'.2.2 = log st0.2.2 ++ es ∧ saved es st' ∧
    if bool_decide (dp_ucm_ids plan = []) then es = [] else ∃ ks h o ws, save_order ks h o ws es.
Proof.
  intros Hst0 Hid. destruct (save_hooks names [] st0 Hst0) as (st1 & ks1 & E1 & Hs1). erewrite bind_ok; [|exact E1].
  rewrite wait_for_save_eq by apply Hs1.
  destruct (saving_ensure _ _ _ Hs1) as (st2 & E2 & Hs2 & Hd2).
  destruct (catch_up_all order _ _ Hs2) as (st3 & ks3 & E3 & Hs3 & Hp3 & Hd3); [done|].
  erewrite bind_ok; [|erewrite bind_ok; [exact E3|exact E2]]. set (ks := ([] ++ ks1) ++ ks3) in *.
  specialize (Hp3 ltac:(by rewrite Hd2)).
  case_bool_decide as Hu.
  - assert (ks = []) as Eks.
    { pose proof (sv_keys _ _ _ Hs3) as Hk. destruct ks as [|x ks']; [done|]. apply Forall_inv in Hk as [_ Hg].
      destruct Hplan as [Eu _ _ _]. rewrite Hu in Eu. destruct (dp_group_ids plan); [by apply elem_of_nil in Hg|done]. }
    rewrite Eks in Hs3. destruct (save_nothing st3 Hs3 Hp3 Hu Hid) as (st' & r & E & Hl & Hsv).
    exists st', r, []. rewrite Hl, (sv_log _ _ _ Hs3). done.
  - destruct (commit_step _ _ Hs3 Hp3 Hu) as (st4 & h & o & E4 & Hl4 & Ha4 & Hi4 & Hp4 & Hev4).
    erewrite bind_ok; [|exact E4].
    destruct (save_tail_spec _ st4 Ha4) as (st' & r & ws & E & Hl & Hws & Hsv & Hwt); [by destruct (layer_event _ _ <$> _)|done| |done|].
    { intros Hno. rewrite Hi4 in Hno. apply orb_false_iff in Hno as [Hno1 Hno2]. destruct o as [|e]; [done|].
      split; [rewrite forallb_app; cbn; apply andb_false_r|]. intros. by apply events_refused. }
    rewrite E. eexists _, r, _. split; [reflexivity|]. rewrite Hl, Hl4, (sv_log _ _ _ Hs3), <- !app_assoc.
    split; [reflexivity|]. rewrite <- !app_assoc in Hsv, Hwt. split; [exact Hsv|].
    exists ks, h, o, ws. split; [done|done|apply Hs3|apply Hs3| |exact Hwt].
    intros name key Hn Hk. apply (sv_layers _ _ _ Hs3 name); [|apply not_elem_of_empty|done]. apply Hd3. by left.
Qed.
End saving.


(** ** Example *)

#[export] Instance RefDevice_reset : DeviceReset RefDevice := λ d, (mkRefDevice ∅, Ok tt).
#[export] Instance RefDevice_reset_spec : DeviceResetSpec RefDevice.
Proof. split. intros d. by exists (mkRefDevice ∅). Qed.


(** The example with a store that refuses every submission, and with one that is up. *)
Definition ex_store (down : option exn) (st : HlaWorker * RefDevice * (RankConsistencyManager * Logged RefStore)) :
    HlaWorker * RefDevice * (RankConsistencyManager * Logged RefStore) :=
  (st.1, (st.2.1, mkLogged (mkRefStore ∅ ∅ ∅ [] down) [])).
Definition ex_refused := (hlw_wait_for_save ex_hlw_cfg (ex_store (Some StoreError) ex_hla_start)).1.
Definition ex_retried := (hlw_wait_for_save ex_hlw_cfg (ex_store None ex_refused)).1.

(** A step whose dumps are all refused is not closed.  [is_save] is set by accepted
    dumps only, so after such a step [wait_for_save] skips [finish_dump] and the release
    of the events: the blocks stay on the failure account of the request, and the
    device keeps the events.  If the request dumps the same blocks again and every
    submission and wait succeeds, they are still not reported; in a first step they are. *)
Theorem refused_dumps_linger :
  ctx_blocks (_dump_failed_blocks_by_request ex_refused.2.1) "r" = {["t"%string]} ∧
  (rd_events ex_refused.1.2 ≠ ∅) ∧
  forallb event_ok (log ex_retried.2.2) = true ∧ _dump_succeeded_blocks ex_retried.2.1 = ∅ ∧
  _dump_succeeded_blocks (hlw_wait_for_save ex_hlw_cfg (ex_store None ex_hla_start)).1.2.1 = {["t"%string]}.
Proof. apply (bool_decide_unpack _). vm_compute. done. Qed.
