(* ===== verification/EncoderCache.v ===== *)
(** * The encoder cache connector: layout, keys and scheduler side

    Model of src/ucm/integration/vllm/ucm_ec_connector.py, which caches the outputs
    of multimodal encoders.  An item is a tensor of [num_embeds] rows; the store
    holds it as chunks of a fixed number of rows.  The scheduler tracks which items
    the active requests use, finds out which of them the store holds, and hands the
    loads of a step to the workers.

    An [IdentifierState] is shared by the connector and by all requests that use the
    item, and its reference count is updated in place, so these objects live in a
    heap and are referred to by locations.  Logging is left out. *)

From Stdlib Require Import ZArith Lia.
From stdpp Require Import base list gmap strings numbers fin_sets.
From S2P Require Import Prelude.
From S2P Require Import Store.
From S2P Require Import RequestHasher.
Local Open Scope Z_scope.

(** ** Layout *)

(** A [torch.dtype]: [str(dtype)] and [dtype.itemsize]. *)
Record EcDtype := mkEcDtype { dt_name : string; itemsize : Z }.

#[export] Instance EcDtype_eq_dec : EqDecision EcDtype.
Proof. solve_decision. Defined.

Record EncoderCacheLayout := mkEncoderCacheLayout {
  ec_width : Z;
  ec_dtype : EcDtype;
  rows_per_chunk : Z;
  chunk_bytes : Z;
}.

(** A configured [chunk_size]: an integer, a Boolean (also an [int] in Python), or
    something else. *)
Inductive size_value := SizeInt (n : Z) | SizeBool (b : bool) | SizeOther.

Record EncoderConfig := mkEncoderConfig {
  encoder_cache_hidden_dim : option Z;
  chunk_size : option size_value;
}.

(** [hidden_dim] is what vLLM's [_get_encoder_cache_hidden_dim] returns. *)
Definition resolve_encoder_cache_layout (hidden_dim : outcome Z) (dtype : EcDtype) (encoder_config : EncoderConfig) :
    outcome EncoderCacheLayout :=
  width ← match encoder_cache_hidden_dim encoder_config with Some w => Ok w | None => hidden_dim end;
  if width <=? 0 then Raise ValueError
  else
    match chunk_size encoder_config with
    | None => Raise KeyError
    | Some (SizeInt rows) =>
        if rows <=? 0 then Raise ValueError
        else Ok (mkEncoderCacheLayout width dtype rows (rows * width * itemsize dtype))
    | Some _ => Raise ValueError
    end.

(** ** Keys *)

Section keys.
Context {X : Type}.
Variable md5 : bytes → bytes.
Variable pickle_dumps : pickled X → bytes.

Definition num_chunks (layout : EncoderCacheLayout) (num_embeds : Z) : Z :=
  (num_embeds + rows_per_chunk layout - 1) / rows_per_chunk layout.

Definition chunk_key (hasher : RequestHasher) (layout : EncoderCacheLayout) (identifier : string)
    (num_embeds : Z) (chunk_index : nat) : bytes :=
  call_object md5 pickle_dumps (meta_bytes hasher)
    (PChunk (ec_width layout) (dt_name (ec_dtype layout)) (rows_per_chunk layout) identifier num_embeds
       (Z.of_nat chunk_index)).

Definition make_chunk_ids (identifier : string) (num_embeds : Z) (layout : EncoderCacheLayout)
    (hasher : RequestHasher) : outcome (list bytes) :=
  if bool_decide (identifier = ""%string) then Raise ValueError
  else if num_embeds <=? 0 then Raise ValueError
  else Ok (chunk_key hasher layout identifier num_embeds <$> seq 0 (Z.to_nat (num_chunks layout num_embeds))).
End keys.

(** ** State of the scheduler side *)

Abbreviation loc := Z (only parsing).

Record IdentifierState := mkIdentifierState {
  is_num_embeds : Z;
  is_chunk_ids : list bytes;
  request_ref_count : Z;
}.

Record RequestState := mkRequestState {
  processed_feature_count : Z;
  identifier_states : list (string * loc);
  hit_identifiers : gset string;
}.

Record ECLoadSpec := mkLoadSpec { ls_num_embeds : Z; ls_chunk_ids : list bytes }.

(** The attributes of a request that the connector reads; a feature is its
    identifier and what [get_num_encoder_embeds] returns or raises for it. *)
Record EcRequest := mkEcRequest {
  ecr_id : req_id;
  ecr_features : list (string * outcome Z);
}.

Record EcSchedulerOutput := mkEcOutput {
  ec_num_scheduled_tokens : list (req_id * Z);
  free_encoder_mm_hashes : list string;
}.

Record EcScheduler := mkEcScheduler {
  ec_heap : gmap loc IdentifierState;
  req_to_state : gmap string RequestState;
  identifier_to_blocks : gmap string loc;
  step_verified_hits : gset string;
  pending_loads : list (string * ECLoadSpec);
  ec_store_open : bool;                       (* [self.store is not None] *)
}.

Definition EcScheduler_init : EcScheduler := mkEcScheduler ∅ ∅ ∅ ∅ [] true.

Definition set_object (l : loc) (o : IdentifierState) (s : EcScheduler) : EcScheduler :=
  mkEcScheduler (<[l := o]> (ec_heap s)) (req_to_state s) (identifier_to_blocks s) (step_verified_hits s)
    (pending_loads s) (ec_store_open s).
Definition set_requests r (s : EcScheduler) : EcScheduler :=
  mkEcScheduler (ec_heap s) r (identifier_to_blocks s) (step_verified_hits s) (pending_loads s) (ec_store_open s).
Definition set_blocks b (s : EcScheduler) : EcScheduler :=
  mkEcScheduler (ec_heap s) (req_to_state s) b (step_verified_hits s) (pending_loads s) (ec_store_open s).
Definition set_step (hits : gset string) loads (s : EcScheduler) : EcScheduler :=
  mkEcScheduler (ec_heap s) (req_to_state s) (identifier_to_blocks s) hits loads (ec_store_open s).

Definition add_refs (n : Z) (o : IdentifierState) : IdentifierState :=
  mkIdentifierState (is_num_embeds o) (is_chunk_ids o) (request_ref_count o + n).

(** What the constructor fixes. *)
Record EcConfig := mkEcConfig {
  ec_layout : EncoderCacheLayout;
  ec_hasher : RequestHasher;
  is_producer : bool;
  is_consumer : bool;
  is_save_rank : bool;
  ec_event_sync : bool;
  ec_store : store_id;
}.

(** ** Operations *)

Section scheduler.
Context {X : Type}.
Variable md5 : bytes → bytes.
Variable pickle_dumps : pickled X → bytes.
Context {W : Type} `{StoreWorld W}.
Variable cfg : EcConfig.

(** A reference is followed; no reference dangles. *)
Definition object (l : loc) : M EcScheduler IdentifierState :=
  s ← get_state;
  match ec_heap s !! l with Some o => mret o | None => raise RuntimeError end.

(** A new object, at a location that was not in use. *)
Definition new_object (o : IdentifierState) : M EcScheduler loc :=
  s ← get_state;
  let l := fresh_Z (dom (ec_heap s)) in
  modify (set_object l o) ;; mret l.

(** The loop over the features not yet processed. *)
Fixpoint validate_features (registered_states : list (string * loc)) (features : list (string * outcome Z))
    (new_states : list (string * loc)) : M EcScheduler (list (string * loc)) :=
  match features with
  | [] => mret new_states
  | (identifier, get_num_encoder_embeds) :: rest =>
      num_embeds ← lift_outcome get_num_encoder_embeds;
      s ← get_state;
      let seen := match od_get identifier registered_states with
                  | Some l => Some l
                  | None => od_get identifier new_states
                  end in
      match seen, identifier_to_blocks s !! identifier with
      | Some l, _ =>
          o ← object l;
          if is_num_embeds o =? num_embeds then validate_features registered_states rest new_states
          else raise ValueError
      | None, Some l =>
          o ← object l;
          if is_num_embeds o =? num_embeds
          then validate_features registered_states rest (od_set identifier l new_states)
          else raise ValueError
      | None, None =>
          ids ← lift_outcome (make_chunk_ids md5 pickle_dumps identifier num_embeds (ec_layout cfg) (ec_hasher cfg));
          l ← new_object (mkIdentifierState num_embeds ids 0);
          validate_features registered_states rest (od_set identifier l new_states)
      end
  end.

(** The loop that commits the new states. *)
Fixpoint commit_states (new_states registered_states : list (string * loc)) :
    M EcScheduler (list (string * loc)) :=
  match new_states with
  | [] => mret registered_states
  | (identifier, candidate) :: rest =>
      s ← get_state;
      let l := default candidate (identifier_to_blocks s !! identifier) in
      modify (set_blocks (<[identifier := l]> (identifier_to_blocks s))) ;;
      o ← object l;
      modify (set_object l (add_refs 1 o)) ;;
      commit_states rest (od_set identifier l registered_states)
  end.

Definition ensure_cache_available (request : EcRequest) : M EcScheduler bool :=
  s ← get_state;
  let state := default (mkRequestState 0 [] ∅) (req_to_state s !! ecr_id request) in
  let num_features := zlen (ecr_features request) in
  if num_features <? processed_feature_count state then raise ValueError
  else if num_features =? processed_feature_count state then mret true
  else
    new_states ← validate_features (identifier_states state)
      (drop (Z.to_nat (processed_feature_count state)) (ecr_features request)) [];
    registered ← commit_states new_states (identifier_states state);
    modify (λ s, set_requests
      (<[ecr_id request := mkRequestState num_features registered (hit_identifiers state)]> (req_to_state s)) s) ;;
    mret true.

Abbreviation state := (EcScheduler * W)%type.

Definition on_sched {A} (m : M EcScheduler A) : M state A := zoom fst (λ t s, (t, s.2)) m.
Definition on_ec_world {A} (m : M W A) : M state A := zoom snd (λ t s, (s.1, t)) m.

Definition has_cache_item (identifier : string) : M state bool :=
  if negb (is_consumer cfg) then mret false
  else
    s ← get_state;
    match identifier_to_blocks s.1 !! identifier with
    | None => mret false
    | Some l =>
        if negb (ec_store_open s.1) then raise RuntimeError
        else
          o ← on_sched (object l);
          last ← on_ec_world (store_lookup_on_prefix (ec_store cfg) (is_chunk_ids o));
          if last =? zlen (is_chunk_ids o) - 1 then
            on_sched (modify (λ s, set_step ({[identifier]} ∪ step_verified_hits s) (pending_loads s) s)) ;;
            mret true
          else mret false
    end.

Definition ec_update_state_after_alloc (request : EcRequest) (index : Z) : M EcScheduler unit :=
  feature ← lift_outcome (list_index (ecr_features request) index);
  let identifier := feature.1 in
  s ← get_state;
  if negb (is_consumer cfg) || negb (bool_decide (identifier ∈ step_verified_hits s)) then mret tt
  else
    match req_to_state s !! ecr_id request with
    | None => mret tt
    | Some r =>
        modify (set_requests (<[ecr_id request := mkRequestState (processed_feature_count r) (identifier_states r)
                                   ({[identifier]} ∪ hit_identifiers r)]> (req_to_state s)))
    end ;;
    match od_get identifier (pending_loads s) with
    | Some _ => mret tt
    | None =>
        match identifier_to_blocks s !! identifier with
        | None => raise RuntimeError
        | Some l =>
            o ← object l;
            modify (λ s, set_step (step_verified_hits s)
              (od_set identifier (mkLoadSpec (is_num_embeds o) (is_chunk_ids o)) (pending_loads s)) s)
        end
    end.

(** The items of the requests that compute something in the step. *)
Definition needed_identifiers (s : EcScheduler) (scheduled : list (req_id * Z)) : gset string :=
  ⋃ ((λ p : req_id * Z,
        if 0 <? p.2 then
          match req_to_state s !! p.1 with Some r => list_to_set (identifier_states r).*1 | None => ∅ end
        else ∅) <$> scheduled).

Definition ec_build_connector_meta (out : EcSchedulerOutput) : M EcScheduler (list (string * ECLoadSpec)) :=
  s ← get_state;
  let needed := needed_identifiers s (ec_num_scheduled_tokens out) in
  let loads := base.filter (λ p : string * ECLoadSpec,
                 p.1 ∈ needed ∧ p.1 ∉ free_encoder_mm_hashes out) (pending_loads s) in
  modify (set_step ∅ []) ;;
  mret loads.

(** The loop over the items of a finished request. *)
Definition release_item (p : string * loc) : M EcScheduler unit :=
  s ← get_state;
  match identifier_to_blocks s !! p.1 with
  | None => mret tt
  | Some l =>
      o ← object l;
      modify (set_object l (add_refs (-1) o)) ;;
      if request_ref_count o - 1 <=? 0
      then modify (set_blocks (delete p.1 (identifier_to_blocks s)))
      else mret tt
  end.

Definition ec_request_finished (request : EcRequest) : M EcScheduler bool :=
  s ← get_state;
  match req_to_state s !! ecr_id request with
  | None => mret false
  | Some r =>
      modify (set_requests (delete (ecr_id request) (req_to_state s))) ;;
      for_each (identifier_states r) release_item ;;
      mret false
  end.

Definition ec_scheduler_shutdown : M EcScheduler unit :=
  modify (λ s, mkEcScheduler (ec_heap s) ∅ ∅ ∅ [] false).
End scheduler.
