(* ===== verification/EncoderScheduler.v ===== *)
(** * The encoder cache scheduler is correct

    An item is tracked exactly while a request uses it, its reference count is the
    number of these requests, and the keys it is looked up and loaded under are
    those of its chunks, over every sequence of calls of the engine. *)

From Stdlib Require Import ZArith Lia.
From stdpp Require Import base list gmap strings numbers fin_sets pretty.
From S2P Require Import Prelude.
From S2P Require Import Store.
From S2P Require Import RequestHasher.
From S2P Require Import EncoderCache.
Local Open Scope Z_scope.

(** ** The requests that use an item *)

Definition users (reqs : gmap string RequestState) (id : string) : gset string :=
  dom (base.filter (λ p : string * RequestState, id ∈ (identifier_states p.2).*1) reqs).

Lemma elem_of_users reqs id rid :
  rid ∈ users reqs id ↔ ∃ r, reqs !! rid = Some r ∧ id ∈ (identifier_states r).*1.
Proof.
  unfold users. rewrite elem_of_dom. split.
  - intros [r [Hr Hid]%map_lookup_filter_Some]. eauto.
  - intros (r & Hr & Hid). exists r. by apply map_lookup_filter_Some.
Qed.

Lemma users_insert reqs rid r id :
  users (<[rid := r]> reqs) id =
    if decide (id ∈ (identifier_states r).*1) then {[rid]} ∪ users reqs id else users reqs id ∖ {[rid]}.
Proof.
  apply set_eq. intros x. rewrite elem_of_users. destruct (decide (x = rid)) as [->|Hne].
  - setoid_rewrite lookup_insert_eq. case_decide as Hd; [set_solver|].
    split; [intros (r' & [= <-] & ?); done|set_solver].
  - setoid_rewrite lookup_insert_ne; [|done]. rewrite <- elem_of_users. case_decide; set_solver.
Qed.

Lemma users_delete reqs rid id : users (delete rid reqs) id = users reqs id ∖ {[rid]}.
Proof.
  apply set_eq. intros x. rewrite elem_of_difference, !elem_of_users. destruct (decide (x = rid)) as [->|Hne].
  - setoid_rewrite lookup_delete_eq. set_solver.
  - setoid_rewrite lookup_delete_ne; [|done]. set_solver.
Qed.

Section invariant.
Context {X : Type}.
Variable md5 : bytes → bytes.
Variable pickle_dumps : pickled X → bytes.
Context {W : Type} `{StoreSpec W}.
Variable cfg : EcConfig.

Abbreviation state := (EcScheduler * W)%type.

Definition keys_of (id : string) (num_embeds : Z) (ids : list bytes) : Prop :=
  make_chunk_ids md5 pickle_dumps id num_embeds (ec_layout cfg) (ec_hasher cfg) = Ok ids.

(** The invariant; the items of [extra] have one reference more than users. *)
Record ec_inv (extra : gset string) (s : EcScheduler) : Prop := {
  ei_blocks id l : identifier_to_blocks s !! id = Some l → ∃ o, ec_heap s !! l = Some o ∧
    request_ref_count o = Z.of_nat (size (users (req_to_state s) id)) + (if decide (id ∈ extra) then 1 else 0) ∧
    0 < request_ref_count o ∧ keys_of id (is_num_embeds o) (is_chunk_ids o);
  ei_requests rid r : req_to_state s !! rid = Some r →
    NoDup (identifier_states r).*1 ∧
    ∀ id l, (id, l) ∈ identifier_states r → identifier_to_blocks s !! id = Some l;
  ei_extra id : id ∈ extra → is_Some (identifier_to_blocks s !! id);
  ei_inj id id' l : identifier_to_blocks s !! id = Some l → identifier_to_blocks s !! id' = Some l → id = id';
  ei_pending id spec : (id, spec) ∈ pending_loads s →
    id ∈ step_verified_hits s ∧ keys_of id (ls_num_embeds spec) (ls_chunk_ids spec);
  ei_pending_once : NoDup (pending_loads s).*1;
}.

Lemma init_inv : ec_inv ∅ EcScheduler_init.
Proof.
  split; cbn.
  - intros id l. by rewrite lookup_empty.
  - intros rid r. by rewrite lookup_empty.
  - by intros id ?%elem_of_empty.
  - intros id id' l. by rewrite lookup_empty.
  - by intros id spec ?%elem_of_nil.
  - constructor.
Qed.

Lemma inv_object extra s id l :
  ec_inv extra s → identifier_to_blocks s !! id = Some l → ∃ o, object l s = (s, Ok o) ∧ ec_heap s !! l = Some o.
Proof.
  intros Hs Hl. destruct (ei_blocks _ _ Hs id l Hl) as (o & Ho & _). exists o.
  unfold object, mbind, M_bind, get_state. by rewrite Ho.
Qed.

(** Objects that nothing refers to do not matter. *)
Lemma inv_new_object extra s l o :
  ec_inv extra s → ec_heap s !! l = None → ec_inv extra (set_object l o s).
Proof.
  intros [Hb Hr He Hi Hp Hn] Hl. split; cbn; try done.
  intros id l' Hid. destruct (Hb id l' Hid) as (o' & Ho' & ?). exists o'. split; [|done].
  rewrite lookup_insert_ne; [done|]. intros ->. congruence.
Qed.

(** ** Registering the items of a request *)

(** The states found for the items of a request that are not registered for it. *)
Record new_ok (s : EcScheduler) (registered new : list (string * Z)) : Prop := {
  nw_once : NoDup new.*1;
  nw_other id l : (id, l) ∈ new → id ∉ registered.*1;
  nw_state id l : (id, l) ∈ new → identifier_to_blocks s !! id = Some l ∨
    identifier_to_blocks s !! id = None ∧ (∀ id', identifier_to_blocks s !! id' ≠ Some l) ∧
    ∃ o, ec_heap s !! l = Some o ∧ request_ref_count o = 0 ∧ keys_of id (is_num_embeds o) (is_chunk_ids o);
  nw_inj id id' l : (id, l) ∈ new → (id', l) ∈ new → id = id';
}.

Lemma new_ok_object s registered new id l :
  ec_inv ∅ s → new_ok s registered new → (id, l) ∈ new → ∃ o, object l s = (s, Ok o).
Proof.
  intros Hs Hn Hin. unfold object, mbind, M_bind, get_state.
  destruct (nw_state _ _ _ Hn id l Hin) as [Hb|(_ & _ & o & Ho & _)]; [|exists o; by rewrite Ho].
  destruct (ei_blocks _ _ Hs id l Hb) as (o & Ho & _). exists o. by rewrite Ho.
Qed.

(** Only objects were created. *)
Definition only_heap (s s' : EcScheduler) : Prop :=
  s' = mkEcScheduler (ec_heap s') (req_to_state s) (identifier_to_blocks s) (step_verified_hits s)
         (pending_loads s) (ec_store_open s) ∧ ec_heap s ⊆ ec_heap s'.

Definition has_rows (s : EcScheduler) (l n : Z) : Prop := ∃ o, ec_heap s !! l = Some o ∧ is_num_embeds o = n.

Lemma only_heap_refl s : only_heap s s.
Proof. split; [by destruct s|done]. Qed.

Lemma only_heap_trans s1 s2 s3 : only_heap s1 s2 → only_heap s2 s3 → only_heap s1 s3.
Proof. intros [E1 H1] [E2 H2]. split; [rewrite E2; cbn; by rewrite E1|by etrans]. Qed.

Lemma only_heap_rows s s' l n : only_heap s s' → has_rows s l n → has_rows s' l n.
Proof. intros [_ Hh] (o & Ho & Hn). exists o. split; [by eapply lookup_weaken|done]. Qed.

Lemma new_ok_heap s s' registered new : only_heap s s' → new_ok s registered new → new_ok s' registered new.
Proof.
  intros [E Hh] [Ho Hr Hs Hi]. split; try done. intros id l Hin. rewrite E. cbn.
  destruct (Hs id l Hin) as [?|(? & ? & o & ? & ?)]; [by left|right]. split_and!; [done|done|].
  exists o. split; [by eapply lookup_weaken|done].
Qed.

Lemma new_ok_known s registered new id l :
  ec_inv ∅ s → new_ok s registered new → identifier_to_blocks s !! id = Some l → id ∉ registered.*1 →
  id ∉ new.*1 → new_ok s registered (od_set id l new).
Proof.
  intros Hs [Ho Hr Hst Hi] Hl Hreg Hnew. rewrite od_set_fresh by done.
  assert (∀ id' l', (id', l') ∈ new ++ [(id, l)] → (id', l') ∈ new ∨ id' = id ∧ l' = l) as Hin.
  { intros id' l' [?|[= -> ->]%list_elem_of_singleton]%elem_of_app; [by left|by right]. }
  assert (∀ id', (id', l) ∈ new → id' = id) as Hsame.
  { intros id' Hin'. destruct (Hst id' l Hin') as [Hb|(_ & Hno & _)]; [by eapply ei_inj|by destruct (Hno id)]. }
  split.
  - rewrite fmap_app. apply list.NoDup_app. split_and!; [done| |apply NoDup_singleton].
    intros x Hx ->%list_elem_of_singleton. done.
  - intros id' l' [?|[-> ->]]%Hin; [by eapply Hr|done].
  - intros id' l' [?|[-> ->]]%Hin; [by apply Hst|by left].
  - intros id1 id2 l' [?|[-> ->]]%Hin [?|[? ?]]%Hin; subst; [by eapply Hi|by apply Hsame|symmetry; by apply Hsame|done].
Qed.

Lemma new_ok_fresh s registered new id l o :
  ec_inv ∅ s → new_ok s registered new → identifier_to_blocks s !! id = None → id ∉ registered.*1 →
  id ∉ new.*1 → ec_heap s !! l = None → request_ref_count o = 0 → keys_of id (is_num_embeds o) (is_chunk_ids o) →
  new_ok (set_object l o s) registered (od_set id l new).
Proof.
  intros Hs Hn Hb Hreg Hnew Hl H0o Hk. rewrite od_set_fresh by done.
  assert (only_heap s (set_object l o s)) as Hoh by (split; [done|by apply insert_subseteq]).
  assert (∀ id', identifier_to_blocks s !! id' ≠ Some l) as Hunused.
  { intros id' Hid. destruct (ei_blocks _ _ Hs id' l Hid) as (? & ? & _). congruence. }
  assert (∀ id', (id', l) ∈ new → False) as Hnot.
  { intros id' Hin. destruct (nw_state _ _ _ Hn id' l Hin) as [?|(_ & _ & ? & ? & _)]; [by eapply Hunused|congruence]. }
  apply (new_ok_heap _ _ _ _ Hoh) in Hn as [Ho Hr Hst Hi].
  assert (∀ id' l', (id', l') ∈ new ++ [(id, l)] → (id', l') ∈ new ∨ id' = id ∧ l' = l) as Hin.
  { intros id' l' [?|[= -> ->]%list_elem_of_singleton]%elem_of_app; [by left|by right]. }
  split.
  - rewrite fmap_app. apply list.NoDup_app. split_and!; [done| |apply NoDup_singleton].
    intros x Hx ->%list_elem_of_singleton. done.
  - intros id' l' [?|[-> ->]]%Hin; [by eapply Hr|done].
  - intros id' l' [?|[-> ->]]%Hin; [by apply Hst|right]. cbn. split_and!; [done|done|].
    exists o. by rewrite lookup_insert_eq.
  - intros id1 id2 l' [?|[-> ->]]%Hin [?|[? ?]]%Hin; subst; [by eapply Hi|by destruct (Hnot id1)|by destruct (Hnot id2)|done].
Qed.

Definition found (s : EcScheduler) (states : list (string * Z)) (features : list (string * outcome Z)) : Prop :=
  ∀ id r, (id, r) ∈ features → ∃ l n, r = Ok n ∧ (id, l) ∈ states ∧ has_rows s l n.

(** Why an item is refused: its rows cannot be counted, or their number is wrong. *)
Definition refused (features : list (string * outcome Z)) (e : exn) : Prop :=
  e = ValueError ∨ ∃ id, (id, Raise e) ∈ features.

Lemma refused_cons f features e : refused features e → refused (f :: features) e.
Proof. intros [->|[id Hin]]; [by left|right]. exists id. by right. Qed.

Lemma validate_spec registered features new s :
  ec_inv ∅ s → (∀ id l, (id, l) ∈ registered → identifier_to_blocks s !! id = Some l) →
  new_ok s registered new →
  ∃ s' o, validate_features md5 pickle_dumps cfg registered features new s = (s', o) ∧ ec_inv ∅ s' ∧ only_heap s s' ∧
    match o with
    | Ok new' => new_ok s' registered new' ∧ (∀ p, p ∈ new → p ∈ new') ∧ found s' (registered ++ new') features
    | Raise e => refused features e
    end.
Proof.
  revert new s. induction features as [|[id [n|e]] features IH]; intros new s Hs Hreg Hn; cbn [validate_features].
  { exists s, (Ok new). split_and!; try done; [apply only_heap_refl|]. by intros id n ?%elem_of_nil. }
  2:{ exists s, (Raise e). split_and!; [done|done|apply only_heap_refl|]. right. exists id. left. }
  erewrite bind_ok; [|reflexivity]. unfold mbind at 1, M_bind at 1, get_state.
  assert (∀ l s1 new1, (id, l) ∈ registered ∨ (id, l) ∈ new1 → has_rows s1 l n → ec_inv ∅ s1 → only_heap s s1 →
    new_ok s1 registered new1 → (∀ p, p ∈ new → p ∈ new1) →
    ∃ s' o, validate_features md5 pickle_dumps cfg registered features new1 s1 = (s', o) ∧ ec_inv ∅ s' ∧ only_heap s s' ∧
    match o with
    | Ok new' => new_ok s' registered new' ∧ (∀ p, p ∈ new → p ∈ new') ∧ found s' (registered ++ new') ((id, Ok n) :: features)
    | Raise e => refused ((id, Ok n) :: features) e
    end) as Hrest.
  { intros l s1 new1 Hin Hrows Hs1 Hoh Hn1 Hsub. destruct (IH new1 s1 Hs1) as (s' & o & E & Hs' & Hoh' & Ho); [|done|].
    { intros id' l' Hin'. destruct Hoh as [-> _]. cbn. by apply Hreg. }
    exists s', o. split_and!; [done|done|by eapply only_heap_trans|]. destruct o as [new'|e]; [|by apply refused_cons].
    destruct Ho as (Hn' & Hsub' & Hf). split_and!; [done|by auto|].
    intros id' r [[= -> ->]|?]%elem_of_cons; [|by apply Hf]. exists l, n. split_and!; [done| |by eapply only_heap_rows].
    apply elem_of_app. destruct Hin; auto. }
  assert (∀ l new1 o, (id, l) ∈ registered ∨ (id, l) ∈ new1 → object l s = (s, Ok o) → new_ok s registered new1 →
    (∀ p, p ∈ new → p ∈ new1) →
    ∃ s' r, (o ← object l; if is_num_embeds o =? n
               then validate_features md5 pickle_dumps cfg registered features new1 else raise ValueError) s = (s', r) ∧
      ec_inv ∅ s' ∧ only_heap s s' ∧
      match r with
      | Ok new' => new_ok s' registered new' ∧ (∀ p, p ∈ new → p ∈ new') ∧
          found s' (registered ++ new') ((id, Ok n) :: features)
      | Raise e => refused ((id, Ok n) :: features) e
      end) as Hcheck.
  { intros l new1 o Hin Eo Hn1 Hsub. erewrite bind_ok; [|exact Eo].
    destruct (Z.eqb_spec (is_num_embeds o) n) as [En|_].
    - eapply Hrest; [exact Hin| |done|apply only_heap_refl|done|done].
      unfold object, mbind, M_bind, get_state in Eo. destruct (ec_heap s !! l) as [o'|] eqn:Eh; [|done].
      injection Eo as ->. by exists o.
    - exists s, (Raise ValueError). split_and!; [done|done|apply only_heap_refl|by left]. }
  destruct (od_get id registered) as [l|] eqn:Er.
  { apply od_get_Some_elem in Er. destruct (inv_object _ _ _ _ Hs (Hreg _ _ Er)) as (o & Eo & _).
    by eapply Hcheck; [left| | |]. }
  destruct (od_get id new) as [l|] eqn:En.
  { apply od_get_Some_elem in En. destruct (new_ok_object _ _ _ _ _ Hs Hn En) as (o & Eo).
    by eapply Hcheck; [right| | |]. }
  apply od_get_None in Er, En. destruct (identifier_to_blocks s !! id) as [l|] eqn:Eb.
  { destruct (inv_object _ _ _ _ Hs Eb) as (o & Eo & _).
    eapply Hcheck; [right|exact Eo|by apply new_ok_known|]; rewrite od_set_fresh by done.
    - apply elem_of_app. right. left.
    - intros p ?. apply elem_of_app. by left. }
  unfold mbind at 1, M_bind at 1, lift_outcome.
  destruct (make_chunk_ids md5 pickle_dumps id n (ec_layout cfg) (ec_hasher cfg)) as [ids|e] eqn:Ek.
  2:{ exists s, (Raise e). split_and!; [done|done|apply only_heap_refl|]. left. unfold make_chunk_ids in Ek.
      repeat case_match; by simplify_eq. }
  set (l := fresh_Z (dom (ec_heap s))). set (o := mkIdentifierState n ids 0).
  assert (ec_heap s !! l = None) as Hl by (apply not_elem_of_dom, fresh_Z_spec).
  assert (new_object o s = (set_object l o s, Ok l)) as Enew by reflexivity.
  erewrite bind_ok; [|exact Enew]. apply (Hrest l).
  - right. rewrite od_set_fresh by done. apply elem_of_app. right. left.
  - exists o. cbn. by rewrite lookup_insert_eq.
  - by apply inv_new_object.
  - split; [done|by apply insert_subseteq].
  - by apply new_ok_fresh.
  - intros p ?. rewrite od_set_fresh by done. apply elem_of_app. by left.
Qed.

Lemma unused_users extra s id :
  ec_inv extra s → identifier_to_blocks s !! id = None → users (req_to_state s) id = ∅.
Proof.
  intros Hs Hb. apply set_eq. intros rid. rewrite elem_of_users. split; [|by intros ?%elem_of_empty].
  intros (r & Hr & ([id' l] & -> & Hin)%list_elem_of_fmap).
  destruct (ei_requests _ _ Hs rid r Hr) as [_ Hall]. apply Hall in Hin. simpl in *. congruence.
Qed.

(** One turn of the commit loop. *)
Lemma commit_one extra s registered new id l :
  ec_inv extra s → new_ok s registered new → (id, l) ∈ new → id ∉ extra →
  ∃ o, (∀ o', ec_heap s !! l = Some o' → o' = o) ∧ ec_heap s !! l = Some o ∧
    default l (identifier_to_blocks s !! id) = l ∧
    ec_inv ({[id]} ∪ extra)
      (set_object l (add_refs 1 o) (set_blocks (<[id := l]> (identifier_to_blocks s)) s)).
Proof.
  intros Hs Hn Hin Hex.
  assert (∃ o, ec_heap s !! l = Some o ∧ request_ref_count o = Z.of_nat (size (users (req_to_state s) id)) ∧
    keys_of id (is_num_embeds o) (is_chunk_ids o)) as (o & Ho & Hrc & Hk).
  { destruct (nw_state _ _ _ Hn id l Hin) as [Hb|(Hb & _ & o & Ho & H0o & Hk)].
    - destruct (ei_blocks _ _ Hs id l Hb) as (o & Ho & Hrc & _ & Hk). rewrite decide_False in Hrc by done.
      exists o. split_and!; [done|lia|done].
    - exists o. rewrite (unused_users _ _ _ Hs Hb), size_empty. done. }
  assert (∀ id', identifier_to_blocks s !! id' = Some l → id' = id) as Hsame.
  { intros id' Hid. destruct (nw_state _ _ _ Hn id l Hin) as [Hb|(_ & Hno & _)]; [by eapply ei_inj|by destruct (Hno id')]. }
  assert (∀ id' l', identifier_to_blocks s !! id' = Some l' → <[id := l]> (identifier_to_blocks s) !! id' = Some l') as Hkeep.
  { intros id' l' Hid. destruct (decide (id' = id)) as [->|Hne]; [|by rewrite lookup_insert_ne].
    rewrite lookup_insert_eq. destruct (nw_state _ _ _ Hn id l Hin) as [Hb|(Hb & _)]; congruence. }
  exists o. split; [intros; congruence|]. split; [done|]. split.
  { destruct (nw_state _ _ _ Hn id l Hin) as [Hb|[Hb _]]; by rewrite Hb. }
  destruct Hs as [Hb Hr He Hi Hp Hpo]. split; cbn; try done.
  - intros id' l' Hid. destruct (decide (id' = id)) as [->|Hne].
    + rewrite lookup_insert_eq in Hid. injection Hid as <-. exists (add_refs 1 o). rewrite lookup_insert_eq.
      rewrite decide_True by set_solver. cbn. split_and!; [done|lia|lia|done].
    + rewrite lookup_insert_ne in Hid by done. destruct (Hb id' l' Hid) as (o' & Ho' & Hrc' & ?).
      exists o'. rewrite lookup_insert_ne by (intros ->; by apply Hne, Hsame). split; [done|]. split; [|done].
      rewrite Hrc'. f_equal. by apply decide_ext; set_solver.
  - intros rid r Hrid. destruct (Hr rid r Hrid) as [? Hall]. split; [done|]. intros id' l' ?. by apply Hkeep, Hall.
  - intros id' [->%elem_of_singleton|Hid]%elem_of_union; [by rewrite lookup_insert_eq|].
    destruct (He id' Hid) as [l' ?]. exists l'. by apply Hkeep.
  - intros id1 id2 l'. destruct (decide (id1 = id)) as [->|]; destruct (decide (id2 = id)) as [->|]; try done.
    + rewrite lookup_insert_eq, lookup_insert_ne by done. intros [= <-] ?. symmetry. by apply Hsame.
    + rewrite lookup_insert_eq, lookup_insert_ne by done. intros ? [= <-]. by apply Hsame.
    + rewrite !lookup_insert_ne by done. apply Hi.
Qed.

Lemma commit_spec new : ∀ extra registered s,
  ec_inv extra s → new_ok s registered new → (∀ id, id ∈ new.*1 → id ∉ extra) →
  ∃ s', commit_states new registered s = (s', Ok (registered ++ new)) ∧
    ec_inv (extra ∪ list_to_set new.*1) s' ∧ req_to_state s' = req_to_state s ∧
    (∀ id l, identifier_to_blocks s !! id = Some l ∨ (id, l) ∈ new → identifier_to_blocks s' !! id = Some l) ∧
    (∀ l n, has_rows s l n → has_rows s' l n).
Proof.
  induction new as [|[id l] new IH]; intros extra registered s Hs Hn Hex; cbn [commit_states].
  { exists s. rewrite app_nil_r. cbn. rewrite union_empty_r_L. split_and!; try done.
    by intros id l [?|?%elem_of_nil]. }
  destruct (commit_one extra s registered _ id l Hs Hn ltac:(left) ltac:(apply Hex; left)) as (o & _ & Ho & El & Hs1).
  set (s1 := set_object l (add_refs 1 o) (set_blocks (<[id := l]> (identifier_to_blocks s)) s)) in *.
  destruct Hn as [Hnd Hoth Hst Hinj]. change ((id, l) :: new).*1 with (id :: new.*1) in *.
  apply NoDup_cons in Hnd as [Hidn Hnd].
  assert (id ∉ registered.*1) as Hidr by (eapply Hoth; left).
  destruct (IH ({[id]} ∪ extra) (registered ++ [(id, l)]) s1 Hs1) as (s' & E & Hs' & Hreq & Hbl & Hrows).
  { split; [done| | |].
    - intros id' l' Hin. rewrite fmap_app. intros [?|Heq%list_elem_of_singleton]%elem_of_app; [|subst id'].
      + by eapply (Hoth id' l'); [right|].
      + apply Hidn. apply list_elem_of_fmap. by exists (id, l').
    - intros id' l' Hin. assert (id' ≠ id) as Hne.
      { intros ->. apply Hidn, list_elem_of_fmap. by exists (id, l'). }
      assert (l' ≠ l) as Hnl. { intros ->. apply Hne. eapply (Hinj id' id l); [by right|left]. }
      cbn. rewrite !lookup_insert_ne by done.
      destruct (Hst id' l' ltac:(by right)) as [?|(? & Hno & ?)]; [by left|right]. split_and!; [done| |done].
      intros id''. destruct (decide (id'' = id)) as [->|]; [rewrite lookup_insert_eq; congruence|by rewrite lookup_insert_ne].
    - intros id1 id2 l' ? ?. eapply Hinj; by right. }
  { intros id' Hin [->%elem_of_singleton|?]%elem_of_union; [done|]. by eapply Hex; [right|]. }
  exists s'. unfold mbind at 1, M_bind at 1, get_state. rewrite El. erewrite bind_ok; [|reflexivity].
  assert (object l (set_blocks (<[id:=l]> (identifier_to_blocks s)) s) =
    (set_blocks (<[id:=l]> (identifier_to_blocks s)) s, Ok o)) as Eo.
  { unfold object, mbind, M_bind, get_state. cbn. by rewrite Ho. }
  erewrite bind_ok; [|exact Eo]. erewrite bind_ok; [|reflexivity]. fold s1.
  rewrite od_set_fresh, E, <- app_assoc by done. split_and!; [done| |done| |].
  - cbn. replace (extra ∪ ({[id]} ∪ list_to_set new.*1)) with ({[id]} ∪ extra ∪ list_to_set new.*1 : gset string) by set_solver.
    done.
  - intros id' l' Hor. apply Hbl. destruct Hor as [Hb|[[= -> ->]|Hin]%elem_of_cons]; [left|left|by right]; cbn.
    + destruct (decide (id' = id)) as [->|]; [|by rewrite lookup_insert_ne].
      rewrite lookup_insert_eq. rewrite Hb in El. simpl in El. congruence.
    + by rewrite lookup_insert_eq.
  - intros l' n (o' & Ho' & Hn'). apply Hrows. unfold has_rows. cbn. destruct (decide (l' = l)) as [->|].
    + rewrite lookup_insert_eq. eexists. split; [done|]. cbn. congruence.
    + rewrite lookup_insert_ne by done. by exists o'.
Qed.

(** Recording the committed items for the request. *)
Lemma record_inv s rid n states new hits :
  ec_inv (list_to_set new.*1) s → NoDup (states ++ new).*1 →
  (∀ r, req_to_state s !! rid = Some r → identifier_states r = states) →
  (req_to_state s !! rid = None → states = []) →
  (∀ id l, (id, l) ∈ states ++ new → identifier_to_blocks s !! id = Some l) →
  ec_inv ∅ (set_requests (<[rid := mkRequestState n (states ++ new) hits]> (req_to_state s)) s).
Proof.
  intros [Hb Hr He Hi Hp Hpo] Hnd Hold Hfresh Hall. split; cbn; try done.
  - intros id l Hid. destruct (Hb id l Hid) as (o & Ho & Hrc & Hpos & Hk). exists o. split; [done|].
    split; [|done]. rewrite (decide_False (P := id ∈ ∅)) by apply not_elem_of_empty.
    rewrite Hrc, users_insert. cbn [identifier_states]. rewrite fmap_app.
    assert (rid ∈ users (req_to_state s) id ↔ id ∈ states.*1) as Hu.
    { rewrite elem_of_users. split.
      - intros (r & Hrid & Hin). by rewrite <- (Hold r Hrid).
      - intros Hin. destruct (req_to_state s !! rid) as [r|] eqn:Er; [exists r; by rewrite (Hold r eq_refl)|].
        rewrite (Hfresh eq_refl) in Hin. by apply elem_of_nil in Hin. }
    rewrite fmap_app in Hnd. apply list.NoDup_app in Hnd as (_ & Hdis & _).
    destruct (decide (id ∈ new.*1)) as [Hn|Hn].
    + rewrite (decide_True (P := id ∈ list_to_set new.*1)) by (by apply elem_of_list_to_set).
      rewrite decide_True by (apply elem_of_app; by right).
      rewrite size_union, size_singleton; [lia|]. intros x ->%elem_of_singleton Hin%Hu. by apply (Hdis id).
    + rewrite (decide_False (P := id ∈ list_to_set new.*1)) by (by rewrite elem_of_list_to_set).
      destruct (decide (id ∈ states.*1)) as [Hst|Hst].
      * rewrite decide_True by (apply elem_of_app; by left). rewrite subseteq_union_1_L by set_solver. lia.
      * rewrite decide_False by (rewrite elem_of_app; tauto). rewrite difference_disjoint_L by set_solver. lia.
  - intros rid' r. destruct (decide (rid' = rid)) as [->|Hne]; [rewrite lookup_insert_eq; intros [= <-]; done|].
    rewrite lookup_insert_ne by done. apply Hr.
Qed.

(** What [ensure_cache_available] promises: the items of all features are tracked,
    with the row counts of the request; or it raises and nothing changes that
    matters. *)
Lemma ensure_spec request s :
  ec_inv ∅ s →
  ∃ s' o, ensure_cache_available md5 pickle_dumps cfg request s = (s', o) ∧ ec_inv ∅ s' ∧
    match o with
    | Ok b => b = true ∧ ∃ r, 
        (req_to_state s' !! ecr_id request = Some r ∨ r = mkRequestState 0 [] ∅ ∧ ecr_features request = []) ∧
        processed_feature_count r = zlen (ecr_features request) ∧
        found s' (identifier_states r)
          (drop (Z.to_nat (processed_feature_count (default (mkRequestState 0 [] ∅) (req_to_state s !! ecr_id request))))
             (ecr_features request))
    | Raise e => refused (ecr_features request) e ∧ only_heap s s'
    end.
Proof.
  intros Hs. unfold ensure_cache_available. unfold mbind at 1, M_bind at 1, get_state. cbv zeta.
  set (old := default (mkRequestState 0 [] ∅) (req_to_state s !! ecr_id request)).
  destruct (Z.ltb_spec (zlen (ecr_features request)) (processed_feature_count old)) as [Hlt|Hge].
  { exists s, (Raise ValueError). split_and!; [done|done|by left|apply only_heap_refl]. }
  destruct (Z.eqb_spec (zlen (ecr_features request)) (processed_feature_count old)) as [Heq|Hneq].
  { exists s, (Ok true). split_and!; [done|done|done|]. exists old. split_and!.
    - unfold old in *. destruct (req_to_state s !! ecr_id request); [by left|right]. split; [done|].
      simpl in Heq. unfold zlen in Heq. destruct (ecr_features request); [done|simpl in Heq; lia].
    - done.
    - rewrite drop_ge by (unfold zlen in Heq; lia). by intros ? ? ?%elem_of_nil. }
  assert (NoDup (identifier_states old).*1 ∧
    ∀ id l, (id, l) ∈ identifier_states old → identifier_to_blocks s !! id = Some l) as [Hnd Hreg].
  { unfold old. destruct (req_to_state s !! ecr_id request) as [r|] eqn:Er; [by eapply (ei_requests _ _ Hs)|].
    split; [constructor|by intros ? ? ?%elem_of_nil]. }
  assert (new_ok s (identifier_states old) []) as Hnil.
  { split; [constructor|..]; by intros * ?%elem_of_nil. }
  destruct (validate_spec (identifier_states old) (drop (Z.to_nat (processed_feature_count old)) (ecr_features request))
    [] s Hs Hreg Hnil) as (s1 & o & E1 & Hs1 & Hoh & Ho).
  unfold mbind at 1, M_bind at 1. rewrite E1. destruct o as [new|e].
  2:{ exists s1, (Raise e). split_and!; [done|done| |done]. destruct Ho as [?|[id Hin]]; [by left|right].
      exists id. rewrite <- (take_drop (Z.to_nat (processed_feature_count old))). apply elem_of_app. by right. }
  destruct Ho as (Hn & _ & Hf). destruct Hoh as [Es1 _].
  destruct (commit_spec new ∅ (identifier_states old) s1 Hs1 Hn) as (s2 & E2 & Hs2 & Hreq & Hbl & Hrows).
  { by intros ? _ ?%elem_of_empty. }
  erewrite bind_ok; [|exact E2]. rewrite union_empty_l_L in Hs2.
  assert (req_to_state s2 = req_to_state s) as Hreq' by (rewrite Hreq, Es1; done).
  eexists _, (Ok true). split; [reflexivity|]. split.
  - apply record_inv; [done| | | |].
    + rewrite fmap_app. apply list.NoDup_app. split_and!; [done| |apply Hn].
      intros id Hid ([id' l] & -> & Hin)%list_elem_of_fmap. by eapply (nw_other _ _ _ Hn).
    + intros r. rewrite Hreq'. unfold old. by intros ->.
    + rewrite Hreq'. unfold old. by intros ->.
    + intros id l [Hin|Hin]%elem_of_app; apply Hbl; [left|by right]. rewrite Es1. cbn. by apply Hreg.
  - split; [done|]. eexists. split; [left; cbn; apply lookup_insert_eq|]. cbn. split; [done|].
    intros id r Hin. destruct (Hf id r Hin) as (l & n & ? & ? & ?). exists l, n. split_and!; [done|done|]. by apply Hrows.
Qed.

(** ** Finished requests *)

Lemma release_spec_item extra s id l :
  ec_inv extra s → id ∈ extra →
  ∃ s', release_item (id, l) s = (s', Ok tt) ∧ ec_inv (extra ∖ {[id]}) s'.
Proof.
  intros Hs Hex. destruct (ei_extra _ _ Hs id Hex) as [l' Hl]. unfold release_item.
  unfold mbind at 1, M_bind at 1, get_state. cbn [fst]. rewrite Hl.
  destruct (ei_blocks _ _ Hs id l' Hl) as (o & Ho & Hrc & Hpos & Hk). rewrite decide_True in Hrc by done.
  assert (object l' s = (s, Ok o)) as Eo by (unfold object, mbind, M_bind, get_state; by rewrite Ho).
  erewrite bind_ok; [|exact Eo]. erewrite bind_ok; [|reflexivity]. destruct Hs as [Hb Hr He Hi Hp Hpo].
  assert (∀ id', id' ≠ id → identifier_to_blocks s !! id' ≠ Some l') as Hother by (intros id' Hne ?; by apply Hne, (Hi _ _ l')).
  destruct (Z.leb_spec (request_ref_count o - 1) 0) as [Hz|Hz]; (eexists; split; [reflexivity|]); split; cbn; try done.
  - intros id' l'' [Hne Hid]%lookup_delete_Some. destruct (Hb id' l'' Hid) as (o' & Ho' & Hrc' & ?). exists o'.
    rewrite lookup_insert_ne by (intros ->; by apply (Hother id')). split; [done|]. split; [|done].
    rewrite Hrc'. f_equal. by apply decide_ext; set_solver.
  - intros rid r Hrid. destruct (Hr rid r Hrid) as [? Hall]. split; [done|]. intros id' l'' Hin.
    rewrite lookup_delete_ne; [by apply Hall|]. intros <-.
    assert (rid ∈ users (req_to_state s) id) as Hu.
    { apply elem_of_users. exists r. split; [done|]. apply list_elem_of_fmap. by exists (id, l''). }
    assert (size (users (req_to_state s) id) = 0%nat) as Hsz by lia.
    apply size_empty_inv in Hsz. set_solver.
  - intros id' [Hin Hn]%elem_of_difference. rewrite lookup_delete_ne by set_solver. by apply He.
  - intros id1 id2 l'' [_ ?]%lookup_delete_Some [_ ?]%lookup_delete_Some. by eapply Hi.
  - intros id' l'' Hid. destruct (decide (id' = id)) as [->|Hne].
    + assert (l'' = l') as -> by congruence. exists (add_refs (-1) o). rewrite lookup_insert_eq. cbn.
      rewrite decide_False by set_solver. split_and!; [done|lia|lia|done].
    + destruct (Hb id' l'' Hid) as (o' & Ho' & Hrc' & ?). exists o'.
      rewrite lookup_insert_ne by (intros ->; by apply (Hother id')). split; [done|]. split; [|done].
      rewrite Hrc'. f_equal. by apply decide_ext; set_solver.
  - intros id' [Hin _]%elem_of_difference. by apply He.
Qed.

Lemma release_all items : ∀ extra s,
  ec_inv extra s → NoDup items.*1 → extra = list_to_set items.*1 →
  ∃ s', for_each items release_item s = (s', Ok tt) ∧ ec_inv ∅ s'.
Proof.
  induction items as [|[id l] items IH]; intros extra s Hs Hnd ->; [by exists s|].
  change ((id, l) :: items).*1 with (id :: items.*1) in *. apply NoDup_cons in Hnd as [Hid Hnd].
  destruct (release_spec_item _ s id l Hs ltac:(set_solver)) as (s1 & E1 & Hs1).
  cbn [for_each]. erewrite bind_ok; [|exact E1]. eapply IH; [exact Hs1|done|]. set_solver.
Qed.

Lemma finished_spec request s :
  ec_inv ∅ s → ∃ s', ec_request_finished request s = (s', Ok false) ∧ ec_inv ∅ s'.
Proof.
  intros Hs. unfold ec_request_finished. unfold mbind at 1, M_bind at 1, get_state.
  destruct (req_to_state s !! ecr_id request) as [r|] eqn:Er; [|by exists s].
  erewrite bind_ok; [|reflexivity]. destruct (ei_requests _ _ Hs _ _ Er) as [Hnd Hall].
  assert (ec_inv (list_to_set (identifier_states r).*1) (set_requests (delete (ecr_id request) (req_to_state s)) s)) as Hs1.
  { destruct Hs as [Hb Hr He Hi Hp Hpo]. split; cbn; try done.
    - intros id l Hid. destruct (Hb id l Hid) as (o & Ho & Hrc & ?). exists o. split; [done|]. split; [|done].
      rewrite Hrc, users_delete, decide_False by apply not_elem_of_empty.
      assert (ecr_id request ∈ users (req_to_state s) id ↔ id ∈ (identifier_states r).*1) as Hu.
      { rewrite elem_of_users. split; [|by exists r]. intros (r' & ? & ?). congruence. }
      destruct (decide (id ∈ list_to_set (identifier_states r).*1)) as [Hin|Hin]; rewrite elem_of_list_to_set in Hin.
      + rewrite size_difference by set_solver. rewrite size_singleton.
        assert (size (users (req_to_state s) id) ≠ 0%nat); [|lia]. intros Hz%size_empty_inv. set_solver.
      + rewrite difference_disjoint_L by set_solver. lia.
    - intros rid' r' [_ ?]%lookup_delete_Some. by eapply Hr.
    - intros id ([id' l] & -> & Hin)%elem_of_list_to_set%list_elem_of_fmap. exists l. by apply Hall. }
  destruct (release_all (identifier_states r) _ _ Hs1 Hnd eq_refl) as (s2 & E2 & Hs2).
  erewrite bind_ok; [|exact E2]. by exists s2.
Qed.

(** ** Hits and loads *)

Lemma inv_step hits loads s :
  ec_inv ∅ s → (∀ id spec, (id, spec) ∈ loads → id ∈ hits ∧ keys_of id (ls_num_embeds spec) (ls_chunk_ids spec)) →
  NoDup loads.*1 → ec_inv ∅ (set_step hits loads s).
Proof. intros [] Hl Hnd. by split. Qed.

Lemma has_cache_item_inv identifier s (w : W) :
  ec_inv ∅ s → ∃ s' w' o, has_cache_item cfg identifier (s, w) = ((s', w'), o) ∧ ec_inv ∅ s'.
Proof.
  intros Hs. unfold has_cache_item. destruct (is_consumer cfg); cbn [negb]; [|by eexists s, w, _].
  unfold mbind at 1, M_bind at 1, get_state. cbn [fst]. destruct (identifier_to_blocks s !! identifier) as [l|] eqn:El;
    [|by eexists s, w, _]. destruct (ec_store_open s); cbn [negb]; [|by eexists s, w, _].
  destruct (inv_object _ _ _ _ Hs El) as (o & Eo & _). unfold mbind at 1, M_bind at 1, on_sched at 1, zoom. cbn [fst snd].
  rewrite Eo. cbn [fst snd]. unfold mbind at 1, M_bind at 1, on_ec_world, zoom. cbn [fst snd].
  destruct (store_lookup_on_prefix _ _ w) as [w' [last|e]]; cbn [fst snd]; [|by eexists s, w', _].
  destruct (last =? _); [|by eexists s, w', _]. eexists _, w', _. split; [reflexivity|]. cbn.
  apply inv_step; [done| |apply Hs]. intros id spec Hin. destruct (ei_pending _ _ Hs id spec Hin). split; [set_solver|done].
Qed.

Lemma update_inv request index s :
  ec_inv ∅ s → ∃ s' o, ec_update_state_after_alloc cfg request index s = (s', o) ∧ ec_inv ∅ s' ∧
    (∀ e, o = Raise e → e = IndexError ∨
       ∃ id n, list_index (ecr_features request) index = Ok (id, n) ∧ identifier_to_blocks s !! id = None).
Proof.
  intros Hs. unfold ec_update_state_after_alloc. unfold mbind at 1, M_bind at 1, lift_outcome.
  destruct (list_index _ _) as [[id n]|e] eqn:Ei.
  2:{ exists s, (Raise e). split_and!; [done|done|]. intros ? [= <-]. left. unfold list_index in Ei. case_match; by simplify_eq. }
  unfold mbind at 1, M_bind at 1, get_state. cbn [fst]. destruct (_ || _) eqn:Eg; [by exists s, (Ok tt)|].
  apply orb_false_iff in Eg as [_ Hhit%negb_false_iff%bool_decide_eq_true].
  set (s1 := match req_to_state s !! ecr_id request with
             | None => s
             | Some r => set_requests (<[ecr_id request := mkRequestState (processed_feature_count r) (identifier_states r)
                 ({[id]} ∪ hit_identifiers r)]> (req_to_state s)) s
             end).
  assert (ec_inv ∅ s1) as Hs1.
  { unfold s1. destruct (req_to_state s !! ecr_id request) as [r|] eqn:Er; [|done].
    destruct Hs as [Hb Hr He Hi Hp Hpo]. split; cbn; try done.
    - intros id' l Hid. destruct (Hb id' l Hid) as (o & Ho & Hrc & ?). exists o. split; [done|]. split; [|done].
      rewrite Hrc. f_equal. f_equal. f_equal. rewrite users_insert. cbn [identifier_states].
      assert (ecr_id request ∈ users (req_to_state s) id' ↔ id' ∈ (identifier_states r).*1) as Hu.
      { rewrite elem_of_users. split; [|by exists r]. intros (r' & ? & ?). congruence. }
      destruct (decide (id' ∈ (identifier_states r).*1)) as [Hd|Hd].
      + by rewrite subseteq_union_1_L by (apply singleton_subseteq_l; by apply Hu).
      + by rewrite difference_disjoint_L by (apply disjoint_singleton_r; by rewrite Hu).
    - intros rid r'. destruct (decide (rid = ecr_id request)) as [->|]; [rewrite lookup_insert_eq; intros [= <-]; by apply Hr in Er|].
      rewrite lookup_insert_ne by done. apply Hr. }
  assert (∃ E : unit, (match req_to_state s !! ecr_id request with
     | None => mret tt
     | Some r => modify (set_requests (<[ecr_id request := mkRequestState (processed_feature_count r) (identifier_states r)
                 ({[id]} ∪ hit_identifiers r)]> (req_to_state s)))
     end : M EcScheduler unit) s = (s1, Ok E)) as [[] E1].
  { exists tt. unfold s1. by destruct (req_to_state s !! ecr_id request). }
  erewrite bind_ok; [|exact E1]. destruct (od_get id (pending_loads s)) eqn:Ep; [by exists s1, (Ok tt)|].
  destruct (identifier_to_blocks s !! id) as [l|] eqn:El.
  2:{ exists s1, (Raise RuntimeError). split_and!; [done|done|]. intros ? _. right. by exists id, n. }
  assert (identifier_to_blocks s1 !! id = Some l) as El1 by (unfold s1; by case_match).
  assert (pending_loads s1 = pending_loads s ∧ step_verified_hits s1 = step_verified_hits s) as [Epl Ehits]
    by (unfold s1; by case_match).
  destruct (inv_object _ _ _ _ Hs1 El1) as (o & Eo & Ho). erewrite bind_ok; [|exact Eo].
  eexists _, (Ok tt). split; [reflexivity|]. split; [|done]. rewrite Epl, Ehits.
  apply inv_step; [done| |apply od_set_NoDup, Hs]. apply od_get_None in Ep. rewrite od_set_fresh by done.
  intros id' spec [Hin|[= -> ->]%list_elem_of_singleton]%elem_of_app; [by apply (ei_pending _ _ Hs)|].
  split; [done|]. cbn. destruct (ei_blocks _ _ Hs1 id l El1) as (o' & Ho' & _ & _ & Hk). congruence.
Qed.

(** ** Runs *)

(** The states the engine can bring the scheduler side to; the stores may change
    at any time. *)
Inductive ec_reach : state → Prop :=
| reach_init w : ec_reach (EcScheduler_init, w)
| reach_stores s w w' : ec_reach (s, w) → ec_reach (s, w')
| reach_ensure request st : ec_reach st →
    ec_reach (on_sched (ensure_cache_available md5 pickle_dumps cfg request) st).1
| reach_lookup identifier st : ec_reach st → ec_reach (has_cache_item cfg identifier st).1
| reach_alloc request index st : ec_reach st → ec_reach (on_sched (ec_update_state_after_alloc cfg request index) st).1
| reach_build out st : ec_reach st → ec_reach (on_sched (ec_build_connector_meta out) st).1
| reach_finished request st : ec_reach st → ec_reach (on_sched (ec_request_finished request) st).1
| reach_shutdown st : ec_reach st → ec_reach (on_sched ec_scheduler_shutdown st).1.

Lemma on_sched_fst {A} (m : M EcScheduler A) (s : EcScheduler) (w : W) s' o :
  m s = (s', o) → (on_sched m (s, w)).1.1 = s'.
Proof. intros E. unfold on_sched, zoom. cbn [fst]. by rewrite E. Qed.

Lemma reach_inv st : ec_reach st → ec_inv ∅ st.1.
Proof.
  induction 1 as [w|s w w' _ IH|request [s w] _ IH|id [s w] _ IH|request index [s w] _ IH|out [s w] _ IH
    |request [s w] _ IH|[s w] _ IH]; cbn [fst] in *.
  - apply init_inv.
  - done.
  - destruct (ensure_spec request s IH) as (s' & o & E & Hs & _). by erewrite on_sched_fst.
  - destruct (has_cache_item_inv id s w IH) as (s' & w' & o & -> & Hs). done.
  - destruct (update_inv request index s IH) as (s' & o & E & Hs & _). by erewrite on_sched_fst.
  - apply inv_step; [done|by intros ? ? ?%elem_of_nil|constructor].
  - destruct (finished_spec request s IH) as (s' & E & Hs). by erewrite on_sched_fst.
  - split; cbn; try done; try (intros *; by rewrite lookup_empty); [by intros ? ? ?%elem_of_nil|constructor].
Qed.

(** C12 Items are tracked exactly while they are used.  After every sequence of calls of
    the engine, an item is in [identifier_to_blocks] if and only if some tracked
    request has it among its features; its reference count is the number of these
    requests, all of them refer to the same shared object, and the keys in this object
    are those of the item's chunks.  Different items never share an object. *)
Theorem ec_references (st : state) :
  ec_reach st →
  (∀ id, is_Some (identifier_to_blocks st.1 !! id) ↔ users (req_to_state st.1) id ≠ ∅) ∧
  (∀ id l, identifier_to_blocks st.1 !! id = Some l → ∃ o, ec_heap st.1 !! l = Some o ∧
     request_ref_count o = Z.of_nat (size (users (req_to_state st.1) id)) ∧
     keys_of id (is_num_embeds o) (is_chunk_ids o)) ∧
  (∀ rid r id l, req_to_state st.1 !! rid = Some r → (id, l) ∈ identifier_states r →
     identifier_to_blocks st.1 !! id = Some l) ∧
  (∀ id id' l, identifier_to_blocks st.1 !! id = Some l → identifier_to_blocks st.1 !! id' = Some l → id = id').
Proof.
  intros Hs%reach_inv. split_and!.
  - intros id. split.
    + intros [l Hl]. destruct (ei_blocks _ _ Hs id l Hl) as (o & _ & Hrc & Hpos & _).
      rewrite decide_False in Hrc by apply not_elem_of_empty. intros Hu. rewrite Hu, size_empty in Hrc. lia.
    + intros Hne. destruct (identifier_to_blocks st.1 !! id) eqn:E; [by eexists|].
      by destruct Hne, (unused_users _ _ _ Hs E).
  - intros id l Hl. destruct (ei_blocks _ _ Hs id l Hl) as (o & Ho & Hrc & _ & Hk).
    rewrite decide_False in Hrc by apply not_elem_of_empty. exists o. split_and!; [done|lia|done].
  - intros rid r id l Hr. apply (ei_requests _ _ Hs rid r Hr).
  - apply (ei_inj _ _ Hs).
Qed.

(** The index of the last chunk of the present prefix tells whether all are present. *)
Lemma prefix_all (p : bytes → bool) l :
  (Z.of_nat (prefix_count p l) - 1 =? zlen l - 1) = true ↔ ∀ k, k ∈ l → p k = true.
Proof.
  rewrite Z.eqb_eq. unfold zlen. split.
  - intros Hc k [i Hi]%list_elem_of_lookup. apply (prefix_count_spec p l i k Hi).
    apply lookup_lt_Some in Hi. lia.
  - intros Hall. pose proof (prefix_count_le p l). destruct (decide (prefix_count p l = length l)) as [->|Hne]; [done|].
    destruct (lookup_lt_is_Some_2 l (prefix_count p l)) as [k Hk]; [lia|]. pose proof (prefix_count_stop p l k Hk) as Hf.
    rewrite (Hall k) in Hf by (by eapply list_elem_of_lookup_2). done.
Qed.

(** What a lookup answers, and what it records. *)
Definition item_held (s : EcScheduler) (w : W) (identifier : string) : Prop :=
  ∃ l o, identifier_to_blocks s !! identifier = Some l ∧ ec_heap s !! l = Some o ∧
    ∀ k, k ∈ is_chunk_ids o → present w (ec_store cfg) k = true.

Definition lookup_fails (s : EcScheduler) (w : W) (identifier : string) (e : exn) : Prop :=
  is_consumer cfg = true ∧ ∃ l o, identifier_to_blocks s !! identifier = Some l ∧ ec_heap s !! l = Some o ∧
    ((ec_store_open s = false ∧ e = RuntimeError) ∨
     (store_lookup_on_prefix (ec_store cfg) (is_chunk_ids o) w).2 = Raise e).

Lemma lookup_spec identifier s (w : W) :
  ec_inv ∅ s →
  ∃ s' w' r, has_cache_item cfg identifier (s, w) = ((s', w'), r) ∧ pending_loads s' = pending_loads s ∧
    match r with
    | Ok b => (b = true ↔ is_consumer cfg = true ∧ item_held s w identifier) ∧
        step_verified_hits s' = (if b then {[identifier]} ∪ step_verified_hits s else step_verified_hits s)
    | Raise e => lookup_fails s w identifier e ∧ step_verified_hits s' = step_verified_hits s
    end.
Proof.
  intros Hs. unfold has_cache_item, lookup_fails, item_held. destruct (is_consumer cfg); cbn [negb].
  2:{ exists s, w, (Ok false). split_and!; [done|done| |done]. split; [done|]. by intros []. }
  unfold mbind at 1, M_bind at 1, get_state. cbn [fst]. destruct (identifier_to_blocks s !! identifier) as [l|] eqn:El.
  2:{ exists s, w, (Ok false). split_and!; [done|done| |done]. split; [done|]. by intros (_ & l & o & ? & _). }
  destruct (inv_object _ _ _ _ Hs El) as (o & Eo & Ho). destruct (ec_store_open s) eqn:Eopen; cbn [negb].
  2:{ exists s, w, (Raise RuntimeError). split_and!; [done|done|done| |done]. exists l, o. split_and!; [done|done|by left]. }
  unfold mbind at 1, M_bind at 1, on_sched at 1, zoom. cbn [fst snd].
  rewrite Eo. cbn [fst snd]. unfold mbind at 1, M_bind at 1, on_ec_world, zoom. cbn [fst snd].
  destruct (store_lookup_on_prefix _ _ w) as [w' [last|e]] eqn:Eq; cbn [fst snd].
  2:{ exists s, w', (Raise e). split_and!; [done|done|done| |done]. exists l, o. split_and!; [done|done|]. right. by rewrite Eq. }
  apply lookup_on_prefix_ok in Eq as ->. pose proof (prefix_all (present w (ec_store cfg)) (is_chunk_ids o)) as Hall.
  destruct (_ =? _); (eexists _, w', (Ok _); split; [reflexivity|]; split; [done|]; split; [|done]).
  - split; [|done]. intros _. split; [done|]. exists l, o. split_and!; [done|done|by apply Hall].
  - split; [done|]. intros (_ & l' & o' & ? & ? & Hp). simplify_eq. by apply Hall in Hp.
Qed.

(** What an allocation does with an item that was found. *)
Lemma update_spec request index s id n :
  ec_inv ∅ s → list_index (ecr_features request) index = Ok (id, n) →
  (is_consumer cfg = false → step_verified_hits s = ∅) →
  ∃ s' r, ec_update_state_after_alloc cfg request index s = (s', r) ∧
    step_verified_hits s' = step_verified_hits s ∧
    match r with
    | Ok _ => (id ∈ step_verified_hits s → id ∈ (pending_loads s).*1 ∨ is_Some (identifier_to_blocks s !! id)) ∧
        list_to_set (pending_loads s').*1 = (if decide (id ∈ step_verified_hits s)
          then {[id]} ∪ list_to_set (pending_loads s).*1 else list_to_set (pending_loads s).*1 : gset string)
    | Raise e => e = RuntimeError ∧ id ∈ step_verified_hits s ∧ (id ∉ (pending_loads s).*1) ∧
        identifier_to_blocks s !! id = None ∧ pending_loads s' = pending_loads s
    end.
Proof.
  intros Hs Ei Hcons. unfold ec_update_state_after_alloc. rewrite Ei. erewrite bind_ok; [|reflexivity].
  unfold mbind at 1, M_bind at 1, get_state. cbn [fst].
  destruct (decide (id ∈ step_verified_hits s)) as [Hhit|Hno].
  2:{ rewrite (bool_decide_eq_false_2 _ Hno), orb_true_r. exists s, (Ok tt). split_and!; [done|done|done|done]. }
  rewrite bool_decide_eq_true_2 by done. destruct (is_consumer cfg); cbn [negb orb]; [|by rewrite Hcons in Hhit].
  set (hit := match req_to_state s !! ecr_id request with Some _ => _ | None => _ end).
  assert (∃ q, hit s = (set_requests q s, Ok tt)) as [q Eq].
  { unfold hit. destruct (req_to_state s !! _); [by eexists|]. exists (req_to_state s). by destruct s. }
  erewrite bind_ok; [|exact Eq]. clear hit Eq. destruct (od_get id (pending_loads s)) as [spec|] eqn:Ep.
  { assert (id ∈ (pending_loads s).*1) as Hin by (apply od_get_Some_elem in Ep; by apply list_elem_of_fmap_2' with (id, spec)).
    eexists _, (Ok tt). split; [reflexivity|]. split_and!; [done|by left|]. cbn. set_solver. }
  apply od_get_None in Ep. destruct (identifier_to_blocks s !! id) as [l|] eqn:El.
  2:{ by eexists _, (Raise RuntimeError). }
  destruct (inv_object _ _ _ _ Hs El) as (o & Eo & Ho).
  assert (object l (set_requests q s) = (set_requests q s, Ok o)) as Eo' by (unfold object, mbind, M_bind, get_state; cbn; by rewrite Ho).
  erewrite bind_ok; [|exact Eo']. eexists _, (Ok tt). split; [reflexivity|]. split_and!; [done|by right|].
  cbn. rewrite od_set_fresh by done. rewrite fmap_app, list_to_set_app_L. cbn. set_solver.
Qed.

(** ** What the calls of a step have found and announced *)

Definition step_view (s : EcScheduler) := (step_verified_hits s, pending_loads s).

Ltac keep_step :=
  repeat first
    [ apply preserves_bind; [|intros ?]
    | apply preserves_ret | apply preserves_raise | apply preserves_get | apply preserves_lift
    | apply preserves_modify; intros ?; done
    | case_match ].

Lemma object_step l : preserves step_view (object l).
Proof. unfold object. keep_step. Qed.

Lemma validate_step registered features new :
  preserves step_view (validate_features md5 pickle_dumps cfg registered features new).
Proof.
  revert new. induction features as [|[id n] features IH]; intros new; cbn [validate_features]; [apply preserves_ret|].
  unfold new_object. keep_step; first [apply object_step|apply IH].
Qed.

Lemma commit_keeps_step new registered : preserves step_view (commit_states new registered).
Proof.
  revert registered. induction new as [|[id l] new IH]; intros registered; cbn [commit_states]; [apply preserves_ret|].
  keep_step; first [apply object_step|apply IH].
Qed.

Lemma ensure_step request : preserves step_view (ensure_cache_available md5 pickle_dumps cfg request).
Proof. unfold ensure_cache_available. keep_step; first [apply validate_step|apply commit_keeps_step]. Qed.

Lemma finished_step request : preserves step_view (ec_request_finished request).
Proof.
  unfold ec_request_finished. keep_step.
  generalize (identifier_states r). intros items. induction items as [|p items IH]; cbn [for_each]; [apply preserves_ret|].
  apply preserves_bind; [|intros ?; apply IH]. unfold release_item. keep_step; apply object_step.
Qed.

Lemma elem_of_needed s scheduled id :
  id ∈ needed_identifiers s scheduled ↔ ∃ rid n, (rid, n) ∈ scheduled ∧ 0 < n ∧ rid ∈ users (req_to_state s) id.
Proof.
  unfold needed_identifiers. rewrite elem_of_union_list. setoid_rewrite list_elem_of_fmap. split.
  - intros (x & ([rid n] & -> & Hin) & Hid). cbn [fst snd] in Hid. destruct (Z.ltb_spec 0 n); [|by apply elem_of_empty in Hid].
    destruct (req_to_state s !! rid) as [r|] eqn:Er; [|by apply elem_of_empty in Hid].
    apply elem_of_list_to_set in Hid. exists rid, n. split_and!; [done|done|]. apply elem_of_users. by exists r.
  - intros (rid & n & Hin & Hn & (r & Hr & Hid)%elem_of_users). eexists. split; [by exists (rid, n)|].
    cbn [fst snd]. rewrite (proj2 (Z.ltb_lt 0 n) Hn), Hr. by apply elem_of_list_to_set.
Qed.

(** Runs with what the engine was told since the last step: the items a lookup
    reported as [found], and of these the ones it [announced] the allocation of.  Both
    are computed from the answers of the calls alone. *)
Definition answered (r : outcome bool) (id : string) (found : gset string) : gset string :=
  match r with Ok true => {[id]} ∪ found | _ => found end.

Definition announce (request : EcRequest) (index : Z) (r : outcome unit) (found announced : gset string) : gset string :=
  match r, list_index (ecr_features request) index with
  | Ok _, Ok feature => if decide (feature.1 ∈ found) then {[feature.1]} ∪ announced else announced
  | _, _ => announced
  end.

Inductive ec_run : state → gset string → gset string → Prop :=
| run_init w : ec_run (EcScheduler_init, w) ∅ ∅
| run_stores s w w' f a : ec_run (s, w) f a → ec_run (s, w') f a
| run_ensure request st f a : ec_run st f a →
    ec_run (on_sched (ensure_cache_available md5 pickle_dumps cfg request) st).1 f a
| run_lookup id st f a : ec_run st f a →
    ec_run (has_cache_item cfg id st).1 (answered (has_cache_item cfg id st).2 id f) a
| run_alloc request index st f a : ec_run st f a →
    ec_run (on_sched (ec_update_state_after_alloc cfg request index) st).1 f
      (announce request index (on_sched (ec_update_state_after_alloc cfg request index) st).2 f a)
| run_build out st f a : ec_run st f a → ec_run (on_sched (ec_build_connector_meta out) st).1 ∅ ∅
| run_finished request st f a : ec_run st f a → ec_run (on_sched (ec_request_finished request) st).1 f a
| run_shutdown st f a : ec_run st f a → ec_run (on_sched ec_scheduler_shutdown st).1 ∅ ∅.

Lemma run_reach st f a : ec_run st f a → ec_reach st.
Proof. induction 1; by econstructor. Qed.

(** The state records what the calls told. *)
Record recorded (s : EcScheduler) (f a : gset string) : Prop := {
  rc_found : step_verified_hits s = f;
  rc_announced : list_to_set (pending_loads s).*1 = a;
  rc_consumer : is_consumer cfg = false → f = ∅;
}.

Lemma recorded_view s s' f a : step_view s' = step_view s → recorded s f a → recorded s' f a.
Proof. intros [= E1 E2] [Hf Ha Hc]. split; [congruence..|done]. Qed.

Lemma on_sched_eq {A} (m : M EcScheduler A) (s : EcScheduler) (w : W) s' o :
  m s = (s', o) → on_sched m (s, w) = ((s', w), o).
Proof. intros E. unfold on_sched, zoom. cbn [fst snd]. by rewrite E. Qed.

Lemma run_recorded st f a : ec_run st f a → recorded st.1 f a.
Proof.
  induction 1 as [w|s w w' f a _ IH|request [s w] f a _ IH|id [s w] f a Hr IH|request index [s w] f a Hr IH|out [s w] f a _ IH
    |request [s w] f a _ IH|[s w] f a _ IH]; cbn [fst snd] in *.
  - done.
  - done.
  - eapply recorded_view; [|exact IH]. rewrite <- (ensure_step request s).
    destruct (ensure_cache_available _ _ _ request s) as [s' o] eqn:E. by rewrite (on_sched_eq _ _ _ _ _ E).
  - apply run_reach, reach_inv in Hr. destruct IH as [Hf Ha Hc].
    destruct (lookup_spec id s w Hr) as (s' & w' & r & -> & Ep & Ho). cbn [fst snd].
    destruct r as [[]|e]; cbn [answered]; destruct Ho as [Ho Ev]; (split; [congruence..|]); try done.
    intros Hno. destruct Ho as [Ho _]. destruct Ho; congruence.
  - apply run_reach, reach_inv in Hr. destruct IH as [Hf Ha Hc]. unfold announce.
    destruct (list_index (ecr_features request) index) as [[id n]|e] eqn:Ei.
    + destruct (update_spec request index s id n Hr Ei) as (s' & r & E & Ev & Ho); [by rewrite Hf|].
      rewrite (on_sched_eq _ _ _ _ _ E). cbn [fst snd]. rewrite <- Hf, <- Ha. destruct r as [[]|e].
      * destruct Ho as [_ Ho]. split; [done|by rewrite Ho|by rewrite Hf].
      * destruct Ho as (_ & _ & _ & _ & Ho). split; [done|by rewrite Ho|by rewrite Hf].
    + assert (ec_update_state_after_alloc cfg request index s = (s, Raise e)) as E.
      { unfold ec_update_state_after_alloc. by rewrite Ei. }
      rewrite (on_sched_eq _ _ _ _ _ E). done.
  - done.
  - eapply recorded_view; [|exact IH]. rewrite <- (finished_step request s).
    destruct (ec_request_finished request s) as [s' o] eqn:E. by rewrite (on_sched_eq _ _ _ _ _ E).
  - done.
Qed.

(** The loads that a step is given. *)
Lemma build_spec out s f a :
  ec_inv ∅ s → recorded s f a →
  ∃ loads, ec_build_connector_meta out s = (set_step ∅ [] s, Ok loads) ∧ NoDup loads.*1 ∧
    (∀ id spec, (id, spec) ∈ loads → keys_of id (ls_num_embeds spec) (ls_chunk_ids spec)) ∧
    ∀ id, id ∈ loads.*1 ↔ id ∈ a ∧ (id ∉ free_encoder_mm_hashes out) ∧
      ∃ rid n, (rid, n) ∈ ec_num_scheduled_tokens out ∧ 0 < n ∧ rid ∈ users (req_to_state s) id.
Proof.
  intros Hs [_ <- _]. eexists. split.
  { unfold ec_build_connector_meta, mbind, M_bind, get_state, modify. cbv zeta. reflexivity. }
  split_and!.
  - eapply sublist_NoDup; [apply (ei_pending_once _ _ Hs)|]. apply fmap_sublist, sublist_filter.
  - intros id spec [_ Hin]%list_elem_of_filter. apply (ei_pending _ _ Hs id spec Hin).
  - intros id. rewrite <- elem_of_needed, elem_of_list_to_set, !list_elem_of_fmap. split.
    + intros ([id' spec] & -> & [[Hn Hf] Hin]%list_elem_of_filter). split_and!; [by exists (id', spec)|done|done].
    + intros (([id' spec] & -> & Hin) & Hf & Hn). exists (id', spec). split; [done|]. by apply list_elem_of_filter.
Qed.

(** C13 When a lookup hits, and which items a step loads.  In every run: [has_cache_item]
    answers true exactly when the connector consumes, the item is tracked and the store
    holds all of its chunks; it raises only for a tracked item of a consumer, when the
    connector was shut down or the store's own lookup raises.  The allocation of a
    feature is accepted, unless its item was found in this step and is neither announced
    nor tracked any more.  The loads of [build_connector_meta] are exactly the items that
    a lookup of this step found and whose allocation was then announced, that a request
    computing in this step uses and that the engine did not free; each is loaded once,
    with the keys of its chunks, and nothing is left for the next step. *)
Theorem ec_step_loads (st : state) found announced :
  ec_run st found announced →
  (∀ identifier, ∃ st' r, has_cache_item cfg identifier st = (st', r) ∧
     match r with
     | Ok b => b = true ↔ is_consumer cfg = true ∧ item_held st.1 st.2 identifier
     | Raise e => lookup_fails st.1 st.2 identifier e
     end) ∧
  (∀ request index id n, list_index (ecr_features request) index = Ok (id, n) →
     ((ec_update_state_after_alloc cfg request index st.1).2 = Ok tt ↔
      (id ∈ found → id ∈ announced ∨ is_Some (identifier_to_blocks st.1 !! id)))) ∧
  ∀ out, ∃ s' loads, ec_build_connector_meta out st.1 = (s', Ok loads) ∧ pending_loads s' = [] ∧
    step_verified_hits s' = ∅ ∧ NoDup loads.*1 ∧
    (∀ id spec, (id, spec) ∈ loads → keys_of id (ls_num_embeds spec) (ls_chunk_ids spec)) ∧
    ∀ id, id ∈ loads.*1 ↔ id ∈ announced ∧ (id ∉ free_encoder_mm_hashes out) ∧
      ∃ rid n, (rid, n) ∈ ec_num_scheduled_tokens out ∧ 0 < n ∧ rid ∈ users (req_to_state st.1) id.
Proof.
  intros Hr. pose proof (run_recorded _ _ _ Hr) as Hrec. apply run_reach, reach_inv in Hr.
  destruct st as [s w]. cbn [fst snd] in *. split_and!.
  - intros identifier. destruct (lookup_spec identifier s w Hr) as (s' & w' & r & E & _ & Ho).
    exists (s', w'), r. split; [done|]. destruct r; apply Ho.
  - intros request index id n Ei. destruct Hrec as [<- <- Hc].
    destruct (update_spec request index s id n Hr Ei Hc) as (s' & r & -> & _ & Ho). cbn [snd].
    rewrite elem_of_list_to_set. destruct r as [[]|e]; [by destruct Ho|].
    destruct Ho as (_ & Hhit & Hno & Hb & _). split; [done|]. intros Himp. by destruct (Himp Hhit) as [|[]]; congruence.
  - intros out. destruct (build_spec out s _ _ Hr Hrec) as (loads & E & ? & ? & ?). by exists (set_step ∅ [] s), loads.
Qed.
End invariant.

(** ** A concrete run

    Two requests share an image; the first has another one. *)

Definition ex_ec_text (v : pickled unit) : string :=
  match v with PChunk _ _ _ i n k => i +:+ "," +:+ pretty n +:+ "," +:+ pretty k | _ => "" end%string.
Definition ex_ec_layout : EncoderCacheLayout := mkEncoderCacheLayout 2 (mkEcDtype "torch.uint8" 1) 2 4.
Definition ex_ec_cfg : EcConfig :=
  mkEcConfig ex_ec_layout (RequestHasher_init (λ s, s) ex_ec_text "m") true true true true 0.
Definition ex_ec_world : RefStore :=
  mkRefStore {[(0, "ma,3,0"%string); (0, "ma,3,1"%string)]} ∅ ∅ [] None.
Definition ex_ec_first : EcRequest := mkEcRequest "r1" [("a"%string, Ok 3); ("b"%string, Ok 2)].
Definition ex_ec_second : EcRequest := mkEcRequest "r2" [("a"%string, Ok 3)].

Definition ex_ec_ensure (request : EcRequest) (st : EcScheduler * RefStore) : EcScheduler * RefStore :=
  (on_sched (ensure_cache_available (λ s, s) ex_ec_text ex_ec_cfg request) st).1.
Definition ex_ec_shared : EcScheduler * RefStore :=
  ex_ec_ensure ex_ec_second (ex_ec_ensure ex_ec_first (EcScheduler_init, ex_ec_world)).
Definition ex_ec_released : EcScheduler * RefStore := (on_sched (ec_request_finished ex_ec_first) ex_ec_shared).1.
Definition ex_ec_verified : EcScheduler * RefStore := (has_cache_item ex_ec_cfg "a" ex_ec_shared).1.
Definition ex_ec_allocated : EcScheduler * RefStore :=
  (on_sched (ec_update_state_after_alloc ex_ec_cfg ex_ec_first 0) ex_ec_verified).1.

Lemma ec_references_witness :
  ec_reach (λ s, s) ex_ec_text ex_ec_cfg ex_ec_released ∧
  identifier_to_blocks ex_ec_released.1 !! "b"%string = None ∧
  ∃ l o, identifier_to_blocks ex_ec_released.1 !! "a"%string = Some l ∧ ec_heap ex_ec_released.1 !! l = Some o ∧
    request_ref_count o = 1 ∧ is_num_embeds o = 3.
Proof.
  assert (ec_reach (λ s, s) ex_ec_text ex_ec_cfg ex_ec_released) as Hr.
  { apply reach_finished, reach_ensure, reach_ensure, reach_init. }
  split; [exact Hr|]. split; [vm_compute; reflexivity|].
  destruct (ec_references (λ s, s) ex_ec_text ex_ec_cfg ex_ec_released Hr) as (Hiff & Hcount & _).
  destruct (proj2 (Hiff "a"%string)) as [l Hl]; [vm_compute; discriminate|].
  destruct (Hcount _ _ Hl) as (o & Ho & Hc & _). exists l, o. split_and!; [done|done| |].
  - rewrite Hc. vm_compute. reflexivity.
  - revert Hl Ho. vm_compute. intros [= <-] [= <-]. reflexivity.
Defined.

Lemma ec_step_loads_witness :
  ec_run (λ s, s) ex_ec_text ex_ec_cfg ex_ec_allocated {["a"%string]} {["a"%string]} ∧
  ∃ s' loads, ec_build_connector_meta (mkEcOutput [("r2"%string, 4)] []) ex_ec_allocated.1 = (s', Ok loads) ∧
    "a"%string ∈ loads.*1 ∧ step_verified_hits s' = ∅.
Proof.
  assert (ec_run (λ s, s) ex_ec_text ex_ec_cfg ex_ec_allocated {["a"%string]} {["a"%string]}) as Hr.
  { assert (ec_run (λ s, s) ex_ec_text ex_ec_cfg ex_ec_shared ∅ ∅) as H0 by (apply run_ensure, run_ensure, run_init).
    apply (run_lookup _ _ _ "a") in H0.
    assert (answered (has_cache_item ex_ec_cfg "a" ex_ec_shared).2 "a" ∅ = {["a"%string]}) as E1 by (vm_compute; reflexivity).
    rewrite E1 in H0. apply (run_alloc _ _ _ ex_ec_first 0) in H0.
    assert (announce ex_ec_first 0 (on_sched (ec_update_state_after_alloc ex_ec_cfg ex_ec_first 0)
      (has_cache_item ex_ec_cfg "a" ex_ec_shared).1).2 {["a"%string]} ∅ = {["a"%string]}) as E2 by (vm_compute; reflexivity).
    rewrite E2 in H0. exact H0. }
  split; [exact Hr|].
  destruct (ec_step_loads (λ s, s) ex_ec_text ex_ec_cfg ex_ec_allocated _ _ Hr) as (_ & _ & Hbuild).
  destruct (Hbuild (mkEcOutput [("r2"%string, 4)] [])) as (s' & loads & E & _ & Hv & _ & _ & Hl).
  exists s', loads. split; [exact E|]. split; [|exact Hv]. apply Hl. split; [by apply elem_of_singleton|]. split; [apply not_elem_of_nil|].
  exists "r2"%string, 4. split; [left|]. split; [lia|]. apply (bool_decide_unpack _). vm_compute. exact I.
Defined.
