(* ===== verification/EncoderWorker.v ===== *)
(** * The encoder cache connector: worker side

    Model of the worker part of src/ucm/integration/vllm/ucm_ec_connector.py: the
    items of a step are loaded from the store into new tensors of the encoder cache,
    and the outputs of the encoder are saved to it.

    The model is at the level of bytes.  Device memory maps addresses to bytes, in the
    order in which the work on it is issued; a tensor is a view of a storage, a run of
    bytes that stays allocated as long as something refers to the tensor.  The store
    moves bytes between memory and its blocks at any time between the submission of a
    transfer and the end of the wait for it ([DataStoreSpec]); torch returns storages
    that do not overlap those in use ([TorchSpec]).  EncoderRuns.v has executable
    instances of both.  Logging and timing are left out. *)

From Stdlib Require Import ZArith Lia.
From stdpp Require Import base list gmap strings numbers fin_sets list_numbers.
From S2P Require Import Prelude.
From S2P Require Import Store.
From S2P Require Import RequestHasher.
From S2P Require Import DirectWorker.
From S2P Require Import EncoderCache.
Local Open Scope Z_scope.

(** ** Memory *)

Definition mem : Type := Z → Z.

Definition read (m : mem) (a n : Z) : list Z := m <$> seqZ a n.

Definition write (m : mem) (a : Z) (l : list Z) : mem := λ x,
  if (a <=? x) && (x <? a + zlen l) then nth (Z.to_nat (x - a)) l 0 else m x.

(** A run of bytes: its address and its length. *)
Definition region : Type := Z * Z.

Definition within (x : Z) (r : region) : Prop := r.1 ≤ x < r.1 + r.2.
Definition disjoint_regions (r r' : region) : Prop := ∀ x, within x r → within x r' → False.

(** A tensor: its shape, the address of its first element, whether its elements
    follow each other in memory, and its storage. *)
Record EcTensor := mkEcTensor {
  et_shape : list Z;
  et_dtype : EcDtype;
  data_ptr : Z;
  is_contiguous : bool;
  et_storage : region;
}.

(** ** What the worker calls *)

(** The transfers of [UcmKVStoreBaseV1], with their effect on memory.  The last
    argument of a submission is the prerequisite event, 0 for none. *)
Class DataStore (W : Type) := {
  ds_load_data : store_id → list bytes → list Z → list (list Z) → Z → M (W * mem) task;
  ds_dump_data : store_id → list bytes → list Z → list (list Z) → Z → M (W * mem) task;
  ds_wait : store_id → task → M (W * mem) unit;
}.

(** A transfer in flight, as the pairs of a block and an address. *)
Inductive transfer :=
| TLoad (s : store_id) (blocks : list (bytes * Z))
| TDump (s : store_id) (blocks : list (bytes * Z)) (prerequisite : Z).

Section spec.
Context {W : Type}.
Variable shard_bytes : store_id → Z.
Variable content : W → store_id → bytes → list Z → Prop.

(** What may happen while the transfers [F] are in flight: a block gets the bytes at
    the address a dump gives for it, if the dump waits for an event that follows the
    writes to these bytes; and memory changes only where loads go. *)
Definition evolves (F : gmap task transfer) (st st' : W * mem) : Prop :=
  (∀ s k c, content st'.1 s k c → content st.1 s k c ∨
     ∃ t l h a, F !! t = Some (TDump s l h) ∧ (k, a) ∈ l ∧ (h ≠ 0 → c = read st.2 a (shard_bytes s))) ∧
  (∀ x, (∀ t s l k a, F !! t = Some (TLoad s l) → (k, a) ∈ l → ¬ within x (a, shard_bytes s)) →
     st'.2 x = st.2 x).

(** The runs that the loads of [F] write do not overlap. *)
Definition separated (F : gmap task transfer) : Prop :=
  ∀ t t' s s' l l' (i j : nat) p p', F !! t = Some (TLoad s l) → F !! t' = Some (TLoad s' l') →
    l !! i = Some p → l' !! j = Some p' → (t, i) ≠ (t', j) →
    disjoint_regions (p.2, shard_bytes s) (p'.2, shard_bytes s').
End spec.

(** [content w s k c]: a load of block [k] may deliver the bytes [c]. *)
Class DataStoreSpec (W : Type) `{DataStore W} := {
  shard_bytes : store_id → Z;
  content : W → store_id → bytes → list Z → Prop;
  in_flight : W → gmap task transfer;

  ds_load_data_ok s ks sh ps h st st' t :
    ds_load_data s ks sh ps h st = (st', Ok t) →
    in_flight st.1 !! t = None ∧ in_flight st'.1 = <[t := TLoad s (zip ks (concat ps))]> (in_flight st.1) ∧
    evolves shard_bytes content (in_flight st'.1) st st';
  ds_dump_data_ok s ks sh ps h st st' t :
    ds_dump_data s ks sh ps h st = (st', Ok t) →
    in_flight st.1 !! t = None ∧ in_flight st'.1 = <[t := TDump s (zip ks (concat ps)) h]> (in_flight st.1) ∧
    evolves shard_bytes content (in_flight st'.1) st st';
  ds_load_data_raise s ks sh ps h st st' e :
    ds_load_data s ks sh ps h st = (st', Raise e) →
    in_flight st'.1 = in_flight st.1 ∧ evolves shard_bytes content (in_flight st.1) st st';
  ds_dump_data_raise s ks sh ps h st st' e :
    ds_dump_data s ks sh ps h st = (st', Raise e) →
    in_flight st'.1 = in_flight st.1 ∧ evolves shard_bytes content (in_flight st.1) st st';
  (** [wait] blocks until the transfer has ended; a load has then delivered its
      blocks unless it raises. *)
  ds_wait_ends s t st st' o :
    ds_wait s t st = (st', o) →
    in_flight st'.1 = delete t (in_flight st.1) ∧ evolves shard_bytes content (in_flight st.1) st st';
  ds_wait_load s t st st' l :
    ds_wait s t st = (st', Ok tt) → in_flight st.1 !! t = Some (TLoad s l) →
    separated shard_bytes (in_flight st.1) →
    ∀ k a, (k, a) ∈ l → content st'.1 s k (read st'.2 a (shard_bytes s));
}.

(** [torch.empty]: a new storage of the given length.  The first argument lists the
    storages in use. *)
Class Torch (A : Type) := torch_empty : list region → Z → M A Z.

Class TorchSpec (A : Type) `{Torch A} := torch_empty_ok live n a a' p :
  torch_empty live n a = (a', Ok p) →
  0 ≤ p ∧ p + n ≤ 2 ^ 64 ∧ ∀ r, r ∈ live → disjoint_regions (p, n) r.

(** ** State *)

Record PendingECSave := mkPendingECSave {
  es_identifier : string;
  es_task : task;
  es_tensor : EcTensor;
  es_tail : option EcTensor;
  es_event_handle : Z;
}.

(** A submitted load: an entry of the local list [pending] of [start_load_caches]. *)
Record PendingECLoad := mkPendingECLoad {
  el_identifier : string;
  el_spec : ECLoadSpec;
  el_storage : EcTensor;
  el_task : task;
  el_event_handle : Z;
}.

Section worker.
Context {X : Type}.
Variable md5 : bytes → bytes.
Variable pickle_dumps : pickled X → bytes.
Context {A D W : Type} `{Torch A} `{DeviceWorld D} `{DataStore W}.
Variable cfg : EcConfig.

(** The connector, the engine's encoder cache and what lies outside. *)
Record EcWorker := mkEcWorker {
  ew_pending_saves : list PendingECSave;
  ew_store_open : bool;                    (* [self.store is not None] *)
  encoder_cache : gmap string EcTensor;
  ew_torch : A;
  ew_device : D;
  ew_world : W;
  ew_mem : mem;
}.

Definition set_saves l (s : EcWorker) : EcWorker :=
  mkEcWorker l (ew_store_open s) (encoder_cache s) (ew_torch s) (ew_device s) (ew_world s) (ew_mem s).
Definition set_open b (s : EcWorker) : EcWorker :=
  mkEcWorker (ew_pending_saves s) b (encoder_cache s) (ew_torch s) (ew_device s) (ew_world s) (ew_mem s).
Definition set_cache c (s : EcWorker) : EcWorker :=
  mkEcWorker (ew_pending_saves s) (ew_store_open s) c (ew_torch s) (ew_device s) (ew_world s) (ew_mem s).
Definition set_torch a (s : EcWorker) : EcWorker :=
  mkEcWorker (ew_pending_saves s) (ew_store_open s) (encoder_cache s) a (ew_device s) (ew_world s) (ew_mem s).
Definition set_device d (s : EcWorker) : EcWorker :=
  mkEcWorker (ew_pending_saves s) (ew_store_open s) (encoder_cache s) (ew_torch s) d (ew_world s) (ew_mem s).
Definition set_world (st : W * mem) (s : EcWorker) : EcWorker :=
  mkEcWorker (ew_pending_saves s) (ew_store_open s) (encoder_cache s) (ew_torch s) (ew_device s) st.1 st.2.

Definition on_ec_device {B} (m : M D B) : M EcWorker B := zoom ew_device set_device m.
Definition on_ec_store {B} (m : M (W * mem) B) : M EcWorker B :=
  zoom (λ s, (ew_world s, ew_mem s)) set_world m.

(** The storages in use: those of the tensors of the cache, of the pending saves and
    of the pending loads. *)
Definition save_regions (save : PendingECSave) : list region :=
  et_storage (es_tensor save) :: from_option (λ t, [et_storage t]) [] (es_tail save).
Definition live_regions (loads : list PendingECLoad) (s : EcWorker) : list region :=
  ((λ p, et_storage p.2) <$> map_to_list (encoder_cache s)) ++
  (ew_pending_saves s ≫= save_regions) ++ ((λ p, et_storage (el_storage p)) <$> loads).

(** [torch.empty] of the given shape, while [loads] are held. *)
Definition new_tensor (loads : list PendingECLoad) (shape : list Z) : M EcWorker EcTensor :=
  s ← get_state;
  let n := list_prod shape * itemsize (ec_dtype (ec_layout cfg)) in
  p ← zoom ew_torch set_torch (torch_empty (live_regions loads s) n);
  mret (mkEcTensor shape (ec_dtype (ec_layout cfg)) p true (p, n)).

(** The outcome of a computation, as a value. *)
Definition attempt {S B} (m : M S B) : M S (outcome B) := λ s, let '(s', o) := m s in (s', Ok o).

(** ** Operations *)

Definition uint64 (n : Z) : Z := n mod 2 ^ 64.

Definition chunk_addresses (tensor : EcTensor) (n : Z) : list (list Z) :=
  (λ i, [uint64 (uint64 (i * chunk_bytes (ec_layout cfg)) + uint64 (data_ptr tensor))]) <$> seqZ 0 n.

Definition get_load_event_handle : M EcWorker Z :=
  if negb (ec_event_sync cfg) then on_ec_device synchronize ;; mret 0
  else
    event_handle ← on_ec_device get_event_handle;
    (if event_handle =? 0 then on_ec_device synchronize else mret tt) ;;
    mret event_handle.

(** The body of the loop that submits the loads, [None] for an item that is skipped. *)
Definition ec_submit_load (pending : list PendingECLoad) (p : string * ECLoadSpec) : M EcWorker (option PendingECLoad) :=
  let '(identifier, spec) := p in
  s ← get_state;
  if bool_decide (is_Some (encoder_cache s !! identifier)) then mret None
  else
    let expected_chunks := num_chunks (ec_layout cfg) (ls_num_embeds spec) in
    if (ls_num_embeds spec <=? 0) || negb (zlen (ls_chunk_ids spec) =? expected_chunks) then raise ValueError
    else
      storage ← new_tensor pending [expected_chunks; rows_per_chunk (ec_layout cfg); ec_width (ec_layout cfg)];
      let dst_addrs := chunk_addresses storage expected_chunks in
      event_handle ← get_load_event_handle;
      task ← try_except
        (on_ec_store (ds_load_data (ec_store cfg) (ls_chunk_ids spec) (replicate (Z.to_nat expected_chunks) 0)
                        dst_addrs event_handle))
        (λ _, (if event_handle =? 0 then mret tt else on_ec_device (destroy_event_handle event_handle)) ;;
              raise RuntimeError);
      mret (Some (mkPendingECLoad identifier spec storage task event_handle)).

(** The loop that submits the loads: what was submitted, and how it ended. *)
Fixpoint ec_submit_loads (loads : list (string * ECLoadSpec)) (pending : list PendingECLoad) :
    M EcWorker (list PendingECLoad * outcome unit) :=
  match loads with
  | [] => mret (pending, Ok tt)
  | p :: rest =>
      r ← attempt (ec_submit_load pending p);
      match r with
      | Ok None => ec_submit_loads rest pending
      | Ok (Some load) => ec_submit_loads rest (pending ++ [load])
      | Raise e => mret (pending, Raise e)
      end
  end.

(** [storage.view(-1, width)[: spec.num_embeds]]. *)
Definition loaded_view (load : PendingECLoad) : EcTensor :=
  mkEcTensor [ls_num_embeds (el_spec load); ec_width (ec_layout cfg)] (et_dtype (el_storage load))
    (data_ptr (el_storage load)) true (et_storage (el_storage load)).

(** The body of the loop that drains the loads; [err] is [wait_error]. *)
Definition drain_load (load : PendingECLoad) (err : option exn) : M EcWorker (option exn) :=
  try_finally
    (try_except
       (on_ec_store (ds_wait (ec_store cfg) (el_task load)) ;;
        modify (λ s, set_cache (<[el_identifier load := loaded_view load]> (encoder_cache s)) s) ;;
        mret err)
       (λ e, modify (λ s, set_cache (delete (el_identifier load) (encoder_cache s)) s) ;;
             mret (Some (default e err))))
    (if el_event_handle load =? 0 then mret tt else on_ec_device (destroy_event_handle (el_event_handle load))).

Fixpoint drain_loads (pending : list PendingECLoad) (err : option exn) : M EcWorker (option exn) :=
  match pending with
  | [] => mret err
  | load :: rest => err' ← drain_load load err; drain_loads rest err'
  end.

(** [metadata] is what [_get_connector_metadata] returns, [None] when it is not a
    [UCMECConnectorMetadata]. *)
Definition ec_start_load_caches (metadata : outcome (option (list (string * ECLoadSpec)))) : M EcWorker unit :=
  md ← lift_outcome metadata;
  match md with
  | None => raise TypeError
  | Some loads =>
      s ← get_state;
      if negb (ew_store_open s) then raise RuntimeError
      else
        '(pending, submitted) ← ec_submit_loads loads [];
        wait_error ← drain_loads pending None;
        lift_outcome submitted ;;
        match wait_error with None => mret tt | Some _ => raise RuntimeError end
  end.

Definition validate_encoder_tensor (tensor : EcTensor) : outcome unit :=
  match et_shape tensor with
  | [rows; width] =>
      if rows <=? 0 then Raise ValueError
      else if negb (width =? ec_width (ec_layout cfg)) then Raise ValueError
      else if negb (bool_decide (et_dtype tensor = ec_dtype (ec_layout cfg))) then Raise ValueError
      else if negb (is_contiguous tensor) then Raise ValueError
      else Ok tt
  | _ => Raise ValueError
  end.

Definition row_bytes : Z := ec_width (ec_layout cfg) * itemsize (ec_dtype (ec_layout cfg)).

(** [torch.zeros] for one chunk, and the copy of the last rows into it. *)
Definition pad_tail (tensor : EcTensor) (num_full_chunks tail_rows : Z) : M EcWorker EcTensor :=
  tail ← new_tensor [] [rows_per_chunk (ec_layout cfg); ec_width (ec_layout cfg)];
  modify (λ s,
    let m := write (ew_mem s) (data_ptr tail) (replicate (Z.to_nat (et_storage tail).2) 0) in
    let rest := read m (data_ptr tensor + num_full_chunks * rows_per_chunk (ec_layout cfg) * row_bytes)
                  (tail_rows * row_bytes) in
    set_world (ew_world s, write m (data_ptr tail) rest) s) ;;
  mret tail.

(** The part of the [try] of [save_caches] before there is an event. *)
Definition prepare_save (tensor : EcTensor) (num_embeds n : Z) : M EcWorker (list (list Z) * option EcTensor * Z) :=
  let num_full_chunks := num_embeds / rows_per_chunk (ec_layout cfg) in
  let tail_rows := num_embeds mod rows_per_chunk (ec_layout cfg) in
  let addrs := chunk_addresses tensor n in
  '(src_addrs, tail) ←
    (if tail_rows =? 0 then mret (addrs, None)
     else tail ← pad_tail tensor num_full_chunks tail_rows;
          mret (<[(length addrs - 1)%nat := [uint64 (data_ptr tail)]]> addrs, Some tail));
  event_handle ← on_ec_device get_event_handle;
  if event_handle =? 0 then raise RuntimeError else mret (src_addrs, tail, event_handle).

Definition ec_save_caches (mm_hash : string) : M EcWorker unit :=
  if negb (is_producer cfg) || negb (is_save_rank cfg) then mret tt
  else
    s ← get_state;
    if negb (ew_store_open s) then raise RuntimeError
    else
      tensor ← match encoder_cache s !! mm_hash with Some t => mret t | None => raise KeyError end;
      lift_outcome (validate_encoder_tensor tensor) ;;
      num_embeds ← lift_outcome (list_index (et_shape tensor) 0);
      chunk_ids ← lift_outcome (make_chunk_ids md5 pickle_dumps mm_hash num_embeds (ec_layout cfg) (ec_hasher cfg));
      prepared ← attempt (prepare_save tensor num_embeds (zlen chunk_ids));
      match prepared with
      | Raise _ => mret tt
      | Ok (src_addrs, tail, event_handle) =>
          try_except
            (task ← on_ec_store (ds_dump_data (ec_store cfg) chunk_ids (replicate (length chunk_ids) 0)
                                   src_addrs event_handle);
             modify (λ s, set_saves (ew_pending_saves s ++ [mkPendingECSave mm_hash task tensor tail event_handle]) s))
            (λ _, on_ec_device (destroy_event_handle event_handle))
      end.

Definition wait_save (save : PendingECSave) : M EcWorker unit :=
  try_finally
    (try_except (on_ec_store (ds_wait (ec_store cfg) (es_task save))) (λ _, mret tt))
    (if es_event_handle save =? 0 then mret tt else on_ec_device (destroy_event_handle (es_event_handle save))).

(** The list of the saves being waited for is local, so their tensors stay alive. *)
Definition wait_pending_saves : M EcWorker unit :=
  s ← get_state;
  match ew_pending_saves s with
  | [] => mret tt
  | pending =>
      if negb (ew_store_open s) then raise RuntimeError
      else modify (set_saves []) ;; for_each pending wait_save
  end.

Definition ec_get_finished : M EcWorker unit := wait_pending_saves.

(** The scheduler's maps, which [shutdown] also clears, are those of
    [ec_scheduler_shutdown]. *)
Definition ec_worker_shutdown : M EcWorker unit :=
  wait_pending_saves ;; modify (set_open false).
End worker.

Arguments EcWorker : clear implicits.
