(* ===== verification/EncoderTransfers.v ===== *)
(** * Encoder outputs survive the trip through the store

    The worker side of the encoder cache connector keeps the encoder cache coherent:
    whatever the order of saves, loads, waits, evictions and of the engine's own work,
    a tensor in the cache of any item holds the encoder output of this item, and so
    does every chunk that the store can deliver. *)

From Stdlib Require Import ZArith Lia.
From stdpp Require Import base list gmap strings numbers fin_sets list_numbers.
From S2P Require Import Prelude.
From S2P Require Import Store.
From S2P Require Import RequestHasher.
From S2P Require Import DirectWorker.
From S2P Require Import EncoderCache.
From S2P Require Import EncoderWorker.
Local Open Scope Z_scope.

(** ** Memory *)

Lemma length_read m a n : length (read m a n) = Z.to_nat n.
Proof. unfold read. by rewrite length_fmap, length_seqZ. Qed.

Lemma lookup_read m a n (i : nat) v : read m a n !! i = Some v ↔ Z.of_nat i < n ∧ v = m (a + Z.of_nat i).
Proof.
  unfold read. rewrite list_lookup_fmap_Some. setoid_rewrite lookup_seqZ. split.
  - intros (x & -> & -> & ?). done.
  - intros [? ->]. eauto.
Qed.

Lemma read_ext m m' a n : (∀ x, within x (a, n) → m' x = m x) → read m' a n = read m a n.
Proof.
  intros Hx. apply list_eq. intros i. apply option_eq. intros v. rewrite !lookup_read.
  split; intros [? ->]; (split; [done|]); [|symmetry]; apply Hx; unfold within; cbn; lia.
Qed.

Lemma write_out m a l x : ¬ within x (a, zlen l) → write m a l x = m x.
Proof.
  unfold within, write. cbn. intros Hx.
  destruct (Z.leb_spec a x), (Z.ltb_spec x (a + zlen l)); cbn; try done. lia.
Qed.

Lemma read_write_same m a l n : zlen l = n → read (write m a l) a n = l.
Proof.
  intros <-. apply list_eq. intros i. apply option_eq. intros v. rewrite lookup_read. unfold write, zlen. split.
  - intros [Hi ->]. rewrite (proj2 (Z.leb_le _ _)), (proj2 (Z.ltb_lt _ _)) by lia. cbn [andb].
    rewrite Z.add_simpl_l, Nat2Z.id. destruct (lookup_lt_is_Some_2 l i) as [x Hx]; [lia|].
    by rewrite Hx, (nth_lookup_Some _ _ _ _ Hx).
  - intros Hv. pose proof (lookup_lt_Some _ _ _ Hv). split; [lia|].
    rewrite (proj2 (Z.leb_le _ _)), (proj2 (Z.ltb_lt _ _)) by lia. cbn [andb].
    by rewrite Z.add_simpl_l, Nat2Z.id, (nth_lookup_Some _ _ _ _ Hv).
Qed.

Lemma read_app m a n1 n2 : 0 ≤ n1 → 0 ≤ n2 → read m a (n1 + n2) = read m a n1 ++ read m (a + n1) n2.
Proof. intros. unfold read. by rewrite seqZ_app, fmap_app. Qed.

(** ** Tensors and chunks *)

Section coherence.
Context {X : Type}.
Variable md5 : bytes → bytes.
Variable pickle_dumps : pickled X → bytes.
Context {A D W : Type} `{TorchSpec A} `{DeviceSpec D} `{DataStoreSpec W}.
Variable cfg : EcConfig.

(** The items that occur, their number of rows and the encoder's output for them. *)
Variable items : gset string.
Variable item_rows : string → Z.
Variable emb : string → list Z.

Abbreviation rows := (rows_per_chunk (ec_layout cfg)).
Abbreviation cb := (chunk_bytes (ec_layout cfg)).
Abbreviation nb := (row_bytes cfg).
Abbreviation nc id := (num_chunks (ec_layout cfg) (item_rows id)).
Abbreviation key id i := (chunk_key md5 pickle_dumps (ec_hasher cfg) (ec_layout cfg) id (item_rows id) i).

(** The layout is one that [resolve_encoder_cache_layout] returns, the store was
    created for it, and an item has an identifier, rows, and the bytes of its rows. *)
Record setting : Prop := {
  st_layout : ∃ hidden_dim dtype encoder_config,
    resolve_encoder_cache_layout hidden_dim dtype encoder_config = Ok (ec_layout cfg) ∧ 0 < itemsize dtype;
  st_shard : shard_bytes (ec_store cfg) = cb;
  st_items id : id ∈ items → id ≠ ""%string ∧ 0 < item_rows id ∧ zlen (emb id) = item_rows id * nb;
  (** No two chunks of these items have the same key. *)
  st_keys id id' i i' : id ∈ items → id' ∈ items → Z.of_nat i < nc id → Z.of_nat i' < nc id' →
    key id i = key id' i' → id = id' ∧ i = i';
}.
Hypothesis Hset : setting.

Lemma layout_facts : 0 < rows ∧ 0 < nb ∧ cb = rows * nb.
Proof.
  destruct (st_layout Hset) as (hd & dt & ec & E & Hi). unfold row_bytes. revert E.
  unfold resolve_encoder_cache_layout. destruct (match encoder_cache_hidden_dim ec with Some w => Ok w | None => hd end)
    as [width|e]; cbn; [|done].
  destruct (Z.leb_spec width 0); [done|]. destruct (chunk_size ec) as [[n| |]|]; try done.
  destruct (Z.leb_spec n 0); [done|]. intros [= <-]. cbn. nia.
Qed.

(** The bytes of a chunk: its part of the item, padded with zeros. *)
Definition chunk_data (id : string) (i : nat) : list Z :=
  let part := take (Z.to_nat cb) (drop (i * Z.to_nat cb) (emb id)) in
  part ++ replicate (Z.to_nat cb - length part) 0.

Definition good_block (k : bytes) (c : list Z) : Prop :=
  ∀ id i, id ∈ items → Z.of_nat i < nc id → k = key id i → c = chunk_data id i.

(** A valid tensor of an item holds the encoder's output for it. *)
Definition right (m : mem) (id : string) (t : EcTensor) : Prop :=
  validate_encoder_tensor cfg t = Ok tt →
  id ∈ items ∧ et_shape t = [item_rows id; ec_width (ec_layout cfg)] ∧
  read m (data_ptr t) (item_rows id * nb) = emb id ∧
  (∀ x, within x (data_ptr t, item_rows id * nb) → within x (et_storage t)) ∧
  0 ≤ data_ptr t ∧ data_ptr t + item_rows id * nb ≤ 2 ^ 64.

Lemma length_chunk_data id i : length (chunk_data id i) = Z.to_nat cb.
Proof. unfold chunk_data. rewrite length_app, length_replicate, length_take. lia. Qed.

Lemma num_chunks_spec id : 0 < item_rows id → 0 < nc id ∧ (nc id - 1) * rows < item_rows id ≤ nc id * rows.
Proof.
  intros Hn. destruct layout_facts as (Hr & _). unfold num_chunks.
  pose proof (Z.div_mod (item_rows id + rows - 1) rows). pose proof (Z.mod_pos_bound (item_rows id + rows - 1) rows).
  nia.
Qed.

(** Byte [j] of a chunk is the byte of the item at its place. *)
Lemma lookup_chunk_data id i (j : nat) v :
  (j < Z.to_nat cb)%nat → emb id !! (i * Z.to_nat cb + j)%nat = Some v → chunk_data id i !! j = Some v.
Proof.
  intros Hj Hv. unfold chunk_data. rewrite lookup_app_l; [by rewrite lookup_take_lt, lookup_drop|].
  apply lookup_lt_Some in Hv. rewrite length_take, length_drop. lia.
Qed.

(** A whole chunk, read from a tensor of the item. *)
Lemma full_chunk m id p (i : nat) :
  id ∈ items → read m p (item_rows id * nb) = emb id → (Z.of_nat i + 1) * rows ≤ item_rows id →
  read m (p + Z.of_nat i * cb) cb = chunk_data id i.
Proof.
  intros Hid Hm Hi. destruct layout_facts as (Hr & Hn & Hcb). apply list_eq_same_length with (n := Z.to_nat cb);
    [apply length_chunk_data|by rewrite length_read|].
  intros j x y Hj [Hjc ->]%lookup_read Hy.
  assert (emb id !! (i * Z.to_nat cb + j)%nat = Some (m (p + Z.of_nat (i * Z.to_nat cb + j)))) as He.
  { rewrite <- Hm. apply lookup_read. split; [nia|done]. }
  rewrite (lookup_chunk_data _ _ _ _ Hj He) in Hy. injection Hy as <-. f_equal. nia.
Qed.

(** The last chunk, when its rows are fewer than those of a chunk. *)
Lemma tail_chunk m id p (i : nat) tail_rows :
  id ∈ items → read m p (item_rows id * nb) = emb id → Z.of_nat i * rows + tail_rows = item_rows id →
  0 ≤ tail_rows ≤ rows →
  chunk_data id i = read m (p + Z.of_nat i * cb) (tail_rows * nb) ++ replicate (Z.to_nat cb - Z.to_nat (tail_rows * nb)) 0.
Proof.
  intros Hid Hm Hi Ht. destruct layout_facts as (Hr & Hn & Hcb). unfold chunk_data.
  assert (drop (i * Z.to_nat cb) (emb id) = read m (p + Z.of_nat i * cb) (tail_rows * nb)) as ->.
  { rewrite <- Hm. replace (item_rows id * nb) with (Z.of_nat i * cb + tail_rows * nb) by nia.
    rewrite read_app by nia. rewrite drop_app_length' by (rewrite length_read; nia). done. }
  rewrite take_ge by (rewrite length_read; nia). by rewrite length_read.
Qed.

(** The chunks of an item make up the item. *)
Lemma chunks_item m id p :
  id ∈ items → (∀ i : nat, Z.of_nat i < nc id → read m (p + Z.of_nat i * cb) cb = chunk_data id i) →
  read m p (item_rows id * nb) = emb id.
Proof.
  intros Hid Hch. destruct layout_facts as (Hr & Hn & Hcb). destruct (st_items Hset id Hid) as (_ & Hpos & Hlen).
  destruct (num_chunks_spec id Hpos) as (_ & _ & Hup). unfold zlen in Hlen.
  apply list_eq_same_length with (n := length (emb id)); [done|rewrite length_read; lia|].
  intros j x y Hj [Hjc ->]%lookup_read Hy. set (i := (j / Z.to_nat cb)%nat).
  pose proof (Nat.div_mod_eq j (Z.to_nat cb)) as Hdm. fold i in Hdm.
  pose proof (Nat.mod_upper_bound j (Z.to_nat cb) ltac:(nia)) as Hlt. set (r := (j mod Z.to_nat cb)%nat) in *.
  assert (chunk_data id i !! r = Some y) as Hd by (apply lookup_chunk_data; [done|]; rewrite <- Hy; f_equal; lia).
  rewrite <- Hch in Hd by nia. apply lookup_read in Hd as [_ ->]. f_equal. nia.
Qed.

(** ** Addresses *)

Lemma chunk_addresses_lookup t n (i : nat) :
  0 ≤ data_ptr t → Z.of_nat i < n → data_ptr t + Z.of_nat i * cb < 2 ^ 64 →
  chunk_addresses cfg t n !! i = Some [data_ptr t + Z.of_nat i * cb].
Proof.
  intros Hp Hi Hb. destruct layout_facts as (Hr & Hn & Hcb). unfold chunk_addresses. rewrite list_lookup_fmap.
  rewrite (proj2 (lookup_seqZ 0 n i (Z.of_nat i))) by lia. cbn. unfold uint64.
  rewrite !(Z.mod_small (Z.of_nat i * _)), (Z.mod_small (data_ptr t)) by nia. rewrite Z.mod_small by nia.
  do 2 f_equal. lia.
Qed.

Lemma length_chunk_addresses t n : length (chunk_addresses cfg t n) = Z.to_nat n.
Proof. unfold chunk_addresses. by rewrite length_fmap, length_seqZ. Qed.

(** The rows of an address array have one entry. *)
Lemma lookup_concat_single {B} (l : list (list B)) (i : nat) :
  Forall (λ r, length r = 1%nat) l → concat l !! i = (l !! i) ≫= head.
Proof.
  intros Hl. revert i. induction Hl as [|[|x [|]] l Hx Hl IH]; intros [|i]; try done. simpl. apply IH.
Qed.

Lemma chunk_addresses_single t n : Forall (λ r, length r = 1%nat) (chunk_addresses cfg t n).
Proof. unfold chunk_addresses. rewrite Forall_fmap. by apply Forall_true. Qed.

Lemma zip_rows_lookup (ks : list bytes) (l : list (list Z)) (i : nat) (k : bytes) (a : Z) :
  Forall (λ r, length r = 1%nat) l → zip ks (concat l) !! i = Some (k, a) → ks !! i = Some k ∧ l !! i = Some [a].
Proof.
  intros Hl Hi. apply lookup_zip_with_Some in Hi as (x & y & [= <- <-] & Hx & Hy).
  split; [done|]. rewrite lookup_concat_single in Hy by done. destruct (l !! i) as [r|] eqn:Er; [|done].
  apply (Forall_lookup_1 _ _ _ _ Hl) in Er as Hlen. destruct r as [|b [|]]; simpl in *; congruence.
Qed.

(** ** The invariant *)

(** What the scheduler hands out for an item, see [ec_step_loads]. *)
Definition spec_ok (id : string) (spec : ECLoadSpec) : Prop :=
  id ∈ items ∧ ls_num_embeds spec = item_rows id ∧
  make_chunk_ids md5 pickle_dumps id (item_rows id) (ec_layout cfg) (ec_hasher cfg) = Ok (ls_chunk_ids spec).

Definition load_transfer (p : PendingECLoad) : transfer :=
  TLoad (ec_store cfg) (zip (ls_chunk_ids (el_spec p))
    (concat (chunk_addresses cfg (el_storage p) (num_chunks (ec_layout cfg) (ls_num_embeds (el_spec p)))))).

Record load_ok (p : PendingECLoad) : Prop := {
  lo_spec : spec_ok (el_identifier p) (el_spec p);
  lo_storage : et_storage (el_storage p) = (data_ptr (el_storage p), nc (el_identifier p) * cb);
  lo_dtype : et_dtype (el_storage p) = ec_dtype (ec_layout cfg);
  lo_range : 0 ≤ data_ptr (el_storage p) ∧ data_ptr (el_storage p) + nc (el_identifier p) * cb ≤ 2 ^ 64;
}.

(** A dump reads the right bytes from storages its save retains. *)
Definition dump_ok (m : mem) (save : PendingECSave) (tr : transfer) : Prop :=
  ∃ l, tr = TDump (ec_store cfg) l (es_event_handle save) ∧ es_event_handle save ≠ 0 ∧
    ∀ k a, (k, a) ∈ l → good_block k (read m a cb) ∧ ∃ r, r ∈ save_regions save ∧ ∀ x, within x (a, cb) → within x r.

(** [F] are the transfers in flight, [saves] and [loads] the saves and the loads not
    yet waited for. *)
Record coherent (F : gmap task transfer) (saves : list PendingECSave) (loads : list PendingECLoad)
    (cache : gmap string EcTensor) (st : W * mem) : Prop := {
  co_cache id t : cache !! id = Some t → right st.2 id t;
  co_content k c : content st.1 (ec_store cfg) k c → good_block k c;
  co_flight t tr : F !! t = Some tr →
    (∃ save, save ∈ saves ∧ es_task save = t ∧ dump_ok st.2 save tr) ∨
    (∃ p, p ∈ loads ∧ el_task p = t ∧ tr = load_transfer p);
  co_loads p : p ∈ loads → F !! el_task p = Some (load_transfer p) ∧ load_ok p;
  co_tasks : NoDup (el_task <$> loads);
  co_cache_apart p id t : p ∈ loads → cache !! id = Some t →
    disjoint_regions (et_storage (el_storage p)) (et_storage t);
  co_saves_apart p save r : p ∈ loads → save ∈ saves → r ∈ save_regions save →
    disjoint_regions (et_storage (el_storage p)) r;
  co_loads_apart (i j : nat) p q : loads !! i = Some p → loads !! j = Some q → i ≠ j →
    disjoint_regions (et_storage (el_storage p)) (et_storage (el_storage q));
}.

Lemma chunk_ids_lookup id spec (i : nat) k :
  spec_ok id spec → ls_chunk_ids spec !! i = Some k → Z.of_nat i < nc id ∧ k = key id i.
Proof.
  intros (_ & _ & E). revert E. unfold make_chunk_ids. case_bool_decide; [done|]. destruct (_ <=? _); [done|].
  intros [= <-]. rewrite list_lookup_fmap_Some. intros (x & -> & Hx). apply lookup_seq in Hx as [-> ?]. split; [lia|done].
Qed.

(** The pairs of a load: chunk [i] of the item goes to place [i] of the storage. *)
Lemma load_pair p l (i : nat) k a :
  load_ok p → load_transfer p = TLoad (ec_store cfg) l → l !! i = Some (k, a) →
  Z.of_nat i < nc (el_identifier p) ∧ k = key (el_identifier p) i ∧ a = data_ptr (el_storage p) + Z.of_nat i * cb ∧
  ∀ x, within x (a, cb) → within x (et_storage (el_storage p)).
Proof.
  intros Hp [= <-] [Hk Ha]%zip_rows_lookup; [|apply chunk_addresses_single].
  destruct (chunk_ids_lookup _ _ _ _ (lo_spec p Hp) Hk) as [Hi ->]. destruct (lo_range p Hp) as [H0p Hend].
  destruct layout_facts as (Hr & Hn & Hcb). destruct (lo_spec p Hp) as (_ & En & _).
  rewrite chunk_addresses_lookup in Ha by (rewrite ?En; nia). injection Ha as <-. split_and!; [done|done|done|].
  rewrite (lo_storage p Hp). unfold within. cbn. nia.
Qed.

(** ** How the invariant is kept *)

Lemma right_ext m m' id t : (∀ x, within x (et_storage t) → m' x = m x) → right m id t → right m' id t.
Proof.
  intros Hx Hr Hv. destruct (Hr Hv) as (? & ? & Hm & Hin & ?). split_and!; try done; [|by apply Hr..].
  rewrite <- Hm. apply read_ext. intros x Hw. by apply Hx, Hin.
Qed.

Lemma dump_ok_ext m m' save tr :
  (∀ r x, r ∈ save_regions save → within x r → m' x = m x) → dump_ok m save tr → dump_ok m' save tr.
Proof.
  intros Hx (l & -> & Hh & Hl). exists l. split_and!; [done|done|]. intros k a Hin.
  destruct (Hl k a Hin) as (Hg & r & Hr & Hw). split; [|by exists r].
  rewrite (read_ext m m'); [done|]. intros x Hxa. by apply (Hx r), Hw.
Qed.

Section keep.
Context {F : gmap task transfer} {saves : list PendingECSave} {loads : list PendingECLoad}.
Context {cache : gmap string EcTensor} {st : W * mem}.
Hypothesis Hco : coherent F saves loads cache st.

(** Loads write only to their storages. *)
Lemma load_target t s l k a x :
  F !! t = Some (TLoad s l) → (k, a) ∈ l → within x (a, shard_bytes s) →
  ∃ p, p ∈ loads ∧ within x (et_storage (el_storage p)).
Proof.
  intros Ht [i Hi]%list_elem_of_lookup Hx. destruct (co_flight _ _ _ _ _ Hco _ _ Ht) as
    [(save & _ & _ & l' & E & _)|(p & Hp & _ & E)]; [done|]. exists p. split; [done|].
  assert (s = ec_store cfg) as -> by (unfold load_transfer in E; congruence). rewrite (st_shard Hset) in Hx.
  destruct (co_loads _ _ _ _ _ Hco p Hp) as [_ Hok]. by apply (load_pair p l i k a Hok (eq_sym E) Hi).
Qed.

Lemma evolve_retains st' r x :
  evolves shard_bytes content F st st' → (∀ p, p ∈ loads → disjoint_regions (et_storage (el_storage p)) r) →
  within x r → st'.2 x = st.2 x.
Proof.
  intros [_ Hm] Hdis Hx. apply Hm. intros t s l k a Ht Hin Hw.
  destruct (load_target _ _ _ _ _ _ Ht Hin Hw) as (p & Hp & Hpx). by apply (Hdis p Hp x).
Qed.

Lemma coherent_evolve st' : evolves shard_bytes content F st st' → coherent F saves loads cache st'.
Proof.
  intros He. pose proof (evolve_retains st') as Hret. split; try apply Hco.
  - intros id t Ht. apply (right_ext st.2); [|by apply (co_cache _ _ _ _ _ Hco)]. intros x Hx.
    eapply Hret; [done| |done]. intros p Hp. by apply (co_cache_apart _ _ _ _ _ Hco p id).
  - intros k c Hc. destruct He as [He _]. destruct (He _ _ _ Hc) as [Hold|(t & l & h & a & Ht & Hin & Hh)];
      [by apply (co_content _ _ _ _ _ Hco)|].
    destruct (co_flight _ _ _ _ _ Hco _ _ Ht) as [(save & _ & _ & l' & [= -> ->] & Hne & Hl)|(p & _ & _ & E)]; [|done].
    rewrite (Hh Hne), (st_shard Hset). by apply (Hl k a Hin).
  - intros t tr Ht. destruct (co_flight _ _ _ _ _ Hco _ _ Ht) as [(save & Hs & Et & Hd)|Hp]; [left|by right].
    exists save. split_and!; [done|done|]. apply (dump_ok_ext st.2); [|done]. intros r x Hr Hx.
    eapply Hret; [done| |done]. intros p Hp. by apply (co_saves_apart _ _ _ _ _ Hco p save).
Qed.

(** The loads in flight go to runs that do not overlap. *)
Lemma coherent_separated : separated shard_bytes F.
Proof.
  intros t t' s s' l l' i j [k a] [k' a'] Ht Ht' Hi Hj Hne x Hx Hx'. cbn [snd] in *.
  destruct (co_flight _ _ _ _ _ Hco _ _ Ht) as [(? & _ & _ & ? & [=] & _)|(p & Hp & Ep & E)].
  destruct (co_flight _ _ _ _ _ Hco _ _ Ht') as [(? & _ & _ & ? & [=] & _)|(p' & Hp' & Ep' & E')].
  assert (s = ec_store cfg) as -> by (unfold load_transfer in E; congruence).
  assert (s' = ec_store cfg) as -> by (unfold load_transfer in E'; congruence).
  rewrite (st_shard Hset) in *. destruct (co_loads _ _ _ _ _ Hco p Hp) as [_ Hok].
  destruct (co_loads _ _ _ _ _ Hco p' Hp') as [_ Hok'].
  destruct (load_pair p l i k a Hok (eq_sym E) Hi) as (_ & _ & Ea & Hw).
  destruct (load_pair p' l' j k' a' Hok' (eq_sym E') Hj) as (_ & _ & Ea' & Hw').
  apply list_elem_of_lookup in Hp as [n Hn], Hp' as [n' Hn']. destruct (decide (n = n')) as [<-|Hnn].
  - assert (p' = p) as -> by congruence. destruct layout_facts as (Hr & Hb & Hcb).
    assert (i ≠ j) by (intros ->; apply Hne; congruence). unfold within in Hx, Hx'. cbn in Hx, Hx'. nia.
  - by apply (co_loads_apart _ _ _ _ _ Hco n n' p p' Hn Hn' Hnn x); [apply Hw|apply Hw'].
Qed.
End keep.

Lemma coherent_cache_sub F saves loads cache cache' st :
  coherent F saves loads cache st → cache' ⊆ cache → coherent F saves loads cache' st.
Proof.
  intros Hco Hsub. split; try apply Hco.
  - intros id t Ht. eapply (co_cache _ _ _ _ _ Hco), lookup_weaken; done.
  - intros p id t Hp Ht. eapply (co_cache_apart _ _ _ _ _ Hco); [done|]. by eapply lookup_weaken.
Qed.

Lemma coherent_cache_insert F saves loads cache st id t :
  coherent F saves loads cache st → right st.2 id t →
  (∀ p, p ∈ loads → disjoint_regions (et_storage (el_storage p)) (et_storage t)) →
  coherent F saves loads (<[id := t]> cache) st.
Proof.
  intros Hco Ht Hdis. split; try apply Hco.
  - intros id' t' [[<- <-]|[_ ?]]%lookup_insert_Some; [done|]. by apply (co_cache _ _ _ _ _ Hco).
  - intros p id' t' Hp [[<- <-]|[_ ?]]%lookup_insert_Some; [by apply Hdis|]. by eapply (co_cache_apart _ _ _ _ _ Hco).
Qed.

Lemma coherent_del_load F saves p loads cache st :
  coherent F saves (p :: loads) cache st → coherent (delete (el_task p) F) saves loads cache st.
Proof.
  intros Hco. pose proof (co_tasks _ _ _ _ _ Hco) as Hnd. rewrite fmap_cons in Hnd. apply NoDup_cons in Hnd as [Hp Hnd].
  split; try apply Hco; try done.
  - intros t tr [Hne Ht]%lookup_delete_Some. destruct (co_flight _ _ _ _ _ Hco t tr Ht) as [Hs|(q & Hq & Et & Etr)];
      [by left|right]. exists q. split_and!; [|done|done]. apply elem_of_cons in Hq as [->|]; [congruence|done].
  - intros q Hq. destruct (co_loads _ _ _ _ _ Hco q) as [Hf Hok]; [by right|]. split; [|done].
    rewrite lookup_delete_ne; [done|]. intros E. apply Hp. rewrite E. by apply list_elem_of_fmap_2.
  - intros q id t Hq. apply (co_cache_apart _ _ _ _ _ Hco). by right.
  - intros q save r Hq. apply (co_saves_apart _ _ _ _ _ Hco). by right.
  - intros i j q q' Hi Hj Hne. apply (co_loads_apart _ _ _ _ _ Hco (S i) (S j)); [done|done|congruence].
Qed.

Lemma coherent_add_load F saves p loads cache st :
  coherent F saves loads cache st → F !! el_task p = None → load_ok p →
  (∀ id t, cache !! id = Some t → disjoint_regions (et_storage (el_storage p)) (et_storage t)) →
  (∀ save r, save ∈ saves → r ∈ save_regions save → disjoint_regions (et_storage (el_storage p)) r) →
  (∀ q, q ∈ loads → disjoint_regions (et_storage (el_storage p)) (et_storage (el_storage q))) →
  coherent (<[el_task p := load_transfer p]> F) saves (loads ++ [p]) cache st.
Proof.
  intros Hco Hf Hok Hc Hs Hl. assert (∀ q, q ∈ loads → el_task q ≠ el_task p) as Hne.
  { intros q Hq E. destruct (co_loads _ _ _ _ _ Hco q Hq) as [Hq' _]. congruence. }
  split; try apply Hco.
  - intros t tr [[<- <-]|[_ Ht]]%lookup_insert_Some; [right; exists p; split_and!; [set_solver|done|done]|].
    destruct (co_flight _ _ _ _ _ Hco t tr Ht) as [Hsv|(q & Hq & ?)]; [by left|right]. exists q. split; [set_solver|done].
  - intros q [Hq| ->%list_elem_of_singleton]%elem_of_app; [|by rewrite lookup_insert_eq].
    rewrite lookup_insert_ne by (intros E; by apply (Hne q)). by apply (co_loads _ _ _ _ _ Hco).
  - rewrite fmap_app. apply list.NoDup_app. split_and!; [apply Hco| |apply NoDup_singleton].
    intros t (q & -> & Hq)%list_elem_of_fmap Ht%list_elem_of_singleton. by apply (Hne q).
  - intros q id t [Hq| ->%list_elem_of_singleton]%elem_of_app; [by apply (co_cache_apart _ _ _ _ _ Hco)|apply Hc].
  - intros q save r [Hq| ->%list_elem_of_singleton]%elem_of_app; [by apply (co_saves_apart _ _ _ _ _ Hco)|apply Hs].
  - intros i j q q' [Hi|[Hi [Ei Eq]%list_lookup_singleton_Some]]%lookup_app_Some
      [Hj|[Hj [Ej Eq']%list_lookup_singleton_Some]]%lookup_app_Some Hij; subst; try lia.
    + by eapply (co_loads_apart _ _ _ _ _ Hco i j).
    + intros x Hx Hx'. by eapply (Hl q); [by eapply list_elem_of_lookup_2|..].
    + apply Hl. by eapply list_elem_of_lookup_2.
Qed.

Lemma coherent_del_save F save saves cache st :
  coherent F (save :: saves) [] cache st → coherent (delete (es_task save) F) saves [] cache st.
Proof.
  intros Hco. split; try apply Hco; try by intros * ?%elem_of_nil.
  intros t tr [Hne Ht]%lookup_delete_Some.
  destruct (co_flight _ _ _ _ _ Hco t tr Ht) as [(sv & Hs & Et & Hd)|(q & []%elem_of_nil & _)]. left.
  exists sv. split_and!; [|done|done]. apply elem_of_cons in Hs as [->|]; [congruence|done].
Qed.

Lemma coherent_add_save F save tr saves cache st :
  coherent F saves [] cache st → dump_ok st.2 save tr →
  coherent (<[es_task save := tr]> F) (saves ++ [save]) [] cache st.
Proof.
  intros Hco Hd. split; try apply Hco; try by intros * ?%elem_of_nil.
  intros t tr' [[<- <-]|[_ Ht]]%lookup_insert_Some; [left; exists save; split_and!; [set_solver|done|done]|].
  destruct (co_flight _ _ _ _ _ Hco t tr' Ht) as [(sv & Hs & ?)|(q & []%elem_of_nil & _)]. left.
  exists sv. split; [set_solver|done].
Qed.

(** ** Loads *)

(** What a wait that does not raise has delivered. *)
Lemma loaded_right saves p loads cache st st' :
  coherent (in_flight st.1) saves (p :: loads) cache st →
  ds_wait (ec_store cfg) (el_task p) st = (st', Ok tt) →
  right st'.2 (el_identifier p) (loaded_view cfg p).
Proof.
  intros Hco E _. destruct (co_loads _ _ _ _ _ Hco p) as [Hf Hok]; [by left|].
  destruct (lo_spec p Hok) as (Hid & Hn & Hk). destruct (ds_wait_ends _ _ _ _ _ E) as [_ Hev].
  pose proof (coherent_evolve Hco st' Hev) as Hco'. destruct (st_items Hset _ Hid) as (_ & Hpos & _).
  destruct (num_chunks_spec _ Hpos) as (Hnc & _ & Hup). destruct layout_facts as (Hr & Hb & Hcb).
  destruct (lo_range p Hok) as [Hp0 Hend]. cbn [loaded_view et_shape data_ptr et_storage]. rewrite Hn.
  split_and!; [done|done| | |done|nia].
  2:{ rewrite (lo_storage p Hok). unfold within. cbn. nia. }
  apply chunks_item; [done|]. intros i Hi. set (l := zip (ls_chunk_ids (el_spec p))
    (concat (chunk_addresses cfg (el_storage p) (num_chunks (ec_layout cfg) (ls_num_embeds (el_spec p)))))).
  assert (l !! i = Some (key (el_identifier p) i, data_ptr (el_storage p) + Z.of_nat i * cb)) as Hl.
  { apply lookup_zip_with_Some. eexists _, _. split; [reflexivity|]. split.
    - revert Hk. unfold make_chunk_ids. case_bool_decide; [done|]. destruct (_ <=? _); [done|]. intros [= <-].
      rewrite list_lookup_fmap. by rewrite (proj2 (lookup_seq _ _ _ i)) by lia.
    - rewrite lookup_concat_single by apply chunk_addresses_single.
      by rewrite chunk_addresses_lookup by (rewrite ?Hn; nia). }
  pose proof (ds_wait_load _ _ _ _ l E Hf (coherent_separated Hco) _ _ (list_elem_of_lookup_2 _ _ _ Hl)) as Hc.
  rewrite (st_shard Hset) in Hc. by apply (co_content _ _ _ _ _ Hco') in Hc; [apply Hc|..].
Qed.

Abbreviation worker := (EcWorker A D W).

(** The invariant of a state; [saves] may be held by a local variable. *)
Definition ok (saves : list PendingECSave) (loads : list PendingECLoad) (s : worker) : Prop :=
  coherent (in_flight (ew_world s)) saves loads (encoder_cache s) (ew_world s, ew_mem s).

(** The connector and the encoder cache are as before. *)
Definition same_worker (s s' : worker) : Prop :=
  ew_pending_saves s' = ew_pending_saves s ∧ ew_store_open s' = ew_store_open s ∧ encoder_cache s' = encoder_cache s.

(** Events that a handle stands for. *)
Definition handle (h : Z) : gset Z := if h =? 0 then ∅ else {[h]}.

Lemma wait_step saves p loads s st' o :
  ok saves (p :: loads) s → ds_wait (ec_store cfg) (el_task p) (ew_world s, ew_mem s) = (st', o) →
  ok saves loads (set_world st' s).
Proof.
  intros Hs E. destruct (ds_wait_ends _ _ _ _ _ E) as [Hf Hev]. unfold ok, set_world. cbn.
  rewrite Hf. destruct st' as [w' m']. apply coherent_del_load. by eapply coherent_evolve.
Qed.

Lemma destroy_step h (s : worker) :
  ∃ d, (if h =? 0 then mret tt else on_ec_device (destroy_event_handle h)) s = (set_device d s, Ok tt) ∧
    events d = events (ew_device s) ∖ handle h.
Proof.
  unfold handle. destruct (h =? 0).
  - exists (ew_device s). split; [by destruct s|set_solver].
  - destruct (destroy_event_handle_ok (ew_device s) h) as [Ho He].
    exists (destroy_event_handle h (ew_device s)).1. split; [|done].
    unfold on_ec_device, zoom. destruct (destroy_event_handle h (ew_device s)) as [d o]. cbn in *. by rewrite Ho.
Qed.

Lemma drain_load_spec saves p loads s err :
  ok saves (p :: loads) s →
  ∃ s' err', drain_load cfg p err s = (s', Ok err') ∧ ok saves loads s' ∧
    ew_pending_saves s' = ew_pending_saves s ∧ ew_store_open s' = ew_store_open s ∧
    events (ew_device s') = events (ew_device s) ∖ handle (el_event_handle p) ∧
    (err' = err ∧ encoder_cache s' = <[el_identifier p := loaded_view cfg p]> (encoder_cache s) ∨
     is_Some err' ∧ encoder_cache s' = delete (el_identifier p) (encoder_cache s)).
Proof.
  intros Hs. unfold drain_load, try_finally, try_except, mbind, M_bind, on_ec_store, zoom.
  destruct (ds_wait (ec_store cfg) (el_task p) (ew_world s, ew_mem s)) as [st' o] eqn:E.
  pose proof (wait_step _ _ _ _ _ _ Hs E) as Hw. destruct o as [[]|e]; cbn.
  - set (s1 := set_cache _ _). destruct (destroy_step (el_event_handle p) s1) as (d & -> & Hd).
    eexists _, _. split; [reflexivity|]. cbn. split; [|split_and!; [done|done|done|by left]].
    unfold ok in *. cbn in *. apply coherent_cache_insert; [done| |].
    + exact (loaded_right saves p loads _ (ew_world s, ew_mem s) st' Hs E).
    + intros q [j Hj]%list_elem_of_lookup. by apply (co_loads_apart _ _ _ _ _ Hs (S j) 0%nat).
  - set (s1 := set_cache _ _). destruct (destroy_step (el_event_handle p) s1) as (d & -> & Hd).
    eexists _, _. split; [reflexivity|]. cbn. split; [|split_and!; [done|done|done|right; by eauto]].
    unfold ok in *. cbn in *. eapply coherent_cache_sub; [done|]. apply delete_subseteq.
Qed.

Definition handles (loads : list PendingECLoad) : gset Z := ⋃ ((λ p, handle (el_event_handle p)) <$> loads).

Lemma loaded_valid p : load_ok p → validate_encoder_tensor cfg (loaded_view cfg p) = Ok tt.
Proof.
  intros Hp. destruct (lo_spec p Hp) as (Hid & Hn & _). destruct (st_items Hset _ Hid) as (_ & Hpos & _).
  unfold validate_encoder_tensor. cbn. rewrite Hn, (lo_dtype p Hp), Z.eqb_refl, bool_decide_eq_true_2 by done.
  by destruct (Z.leb_spec (item_rows (el_identifier p)) 0); [lia|].
Qed.

Lemma drain_loads_spec saves loads : ∀ s err,
  ok saves loads s →
  ∃ s' err', drain_loads cfg loads err s = (s', Ok err') ∧ ok saves [] s' ∧
    ew_pending_saves s' = ew_pending_saves s ∧ ew_store_open s' = ew_store_open s ∧
    events (ew_device s') = events (ew_device s) ∖ handles loads ∧
    (∀ id, id ∉ el_identifier <$> loads → encoder_cache s' !! id = encoder_cache s !! id) ∧
    (∀ id t, encoder_cache s' !! id = Some t → encoder_cache s !! id = Some t ∨ validate_encoder_tensor cfg t = Ok tt) ∧
    (err' = None → err = None ∧
       ∀ id, is_Some (encoder_cache s !! id) ∨ id ∈ el_identifier <$> loads → is_Some (encoder_cache s' !! id)) ∧
    (NoDup (el_identifier <$> loads) → is_Some err' → is_Some err ∨
       ∃ id, id ∈ el_identifier <$> loads ∧ encoder_cache s' !! id = None).
Proof.
  induction loads as [|p loads IH]; intros s err Hs.
  { exists s, err. split_and!; [done|done|done|done|unfold handles; set_solver|done|by left| |by left].
    intros ->. split; [done|]. by intros id [?|?%elem_of_nil]. }
  destruct (drain_load_spec saves p loads s err Hs) as (s1 & err1 & E1 & Hs1 & Hp1 & Ho1 & He1 & Hc1).
  destruct (IH s1 err1 Hs1) as (s2 & err2 & E2 & Hs2 & Hp2 & Ho2 & He2 & Hold & Hvalid & Hall & Hbad).
  exists s2, err2. cbn [drain_loads]. erewrite bind_ok; [|exact E1]. rewrite fmap_cons. split_and!; try congruence.
  - rewrite He2, He1. unfold handles. rewrite fmap_cons. cbn [union_list]. set_solver.
  - intros id [Hne Hnin]%not_elem_of_cons. rewrite Hold by done. destruct Hc1 as [[_ ->]|[_ ->]].
    + by apply lookup_insert_ne.
    + by apply lookup_delete_ne.
  - intros id t Ht. destruct (Hvalid id t Ht) as [Ht1|]; [|by right]. destruct Hc1 as [[_ Hc]|[_ Hc]]; rewrite Hc in Ht1.
    + apply lookup_insert_Some in Ht1 as [[<- <-]|[_ ?]]; [right|by left].
      by apply loaded_valid, (co_loads _ _ _ _ _ Hs); left.
    + apply lookup_delete_Some in Ht1 as [_ ?]. by left.
  - intros Hnone. destruct (Hall Hnone) as [-> Hsome]. destruct Hc1 as [[<- Hc]|[[? ?] _]]; [|done]. split; [done|].
    intros id Hid. apply Hsome. rewrite elem_of_cons in Hid. rewrite Hc. destruct (decide (id = el_identifier p)) as [->|Hne].
    + left. by rewrite lookup_insert_eq.
    + rewrite lookup_insert_ne by done. naive_solver.
  - intros [Hp Hnd]%NoDup_cons Herr. destruct (Hbad Hnd Herr) as [Herr1|(id & Hid & Hnone)];
      [|right; exists id; split; [by right|done]].
    destruct Hc1 as [[-> _]|[_ Hdel]]; [by left|right]. exists (el_identifier p). split; [by left|].
    by rewrite Hold, Hdel, lookup_delete_eq.
Qed.

(** A new tensor lies apart from everything in use. *)
Lemma new_tensor_spec loads shape (s : worker) :
  ∃ a o, new_tensor cfg loads shape s = (set_torch a s, o) ∧
    ∀ t, o = Ok t → let n := list_prod shape * itemsize (ec_dtype (ec_layout cfg)) in
      t = mkEcTensor shape (ec_dtype (ec_layout cfg)) (data_ptr t) true (data_ptr t, n) ∧
      0 ≤ data_ptr t ∧ data_ptr t + n ≤ 2 ^ 64 ∧ ∀ r, r ∈ live_regions loads s → disjoint_regions (et_storage t) r.
Proof.
  unfold new_tensor, mbind, M_bind, get_state, zoom.
  destruct (torch_empty (live_regions loads s) _ (ew_torch s)) as [a [p|e]] eqn:E.
  - exists a. eexists. split; [reflexivity|]. intros t [= <-]. cbn.
    destruct (torch_empty_ok _ _ _ _ _ E) as (Hp & Hend & Hdis). done.
  - exists a. eexists. split; [reflexivity|done].
Qed.

Lemma load_handle_spec (s : worker) :
  ∃ d o, get_load_event_handle cfg s = (set_device d s, o) ∧
    match o with
    | Ok h => handle h ## events (ew_device s) ∧ events d = events (ew_device s) ∪ handle h
    | Raise _ => events d = events (ew_device s)
    end.
Proof.
  assert (∀ s1 : worker, ∃ d o, on_ec_device synchronize s1 = (set_device d s1, o) ∧ events d = events (ew_device s1)) as Hsync.
  { intros s1. unfold on_ec_device, zoom. pose proof (synchronize_events (ew_device s1)) as He.
    destruct (synchronize (ew_device s1)) as [d o]. eauto. }
  unfold get_load_event_handle. destruct (ec_event_sync cfg); cbn [negb].
  - unfold mbind at 1, M_bind at 1, on_ec_device at 1, zoom.
    destruct (get_event_handle (ew_device s)) as [d [h|e]] eqn:E; cbn [fst snd].
    2:{ exists d, (Raise e). split; [done|]. by apply get_event_handle_raise in E. }
    unfold handle. apply get_event_handle_ok in E as [[-> He]|(Hh & Hn & He)].
    + rewrite Z.eqb_refl. destruct (Hsync (set_device d s)) as (d' & o & E' & He'). cbn in He'.
      unfold mbind, M_bind. rewrite E'. exists d'. destruct o as [[]|e]; eexists; (split; [reflexivity|]); cbn; [|congruence].
      split; [set_solver|]. rewrite He', He. set_solver.
    + apply Z.eqb_neq in Hh as Hb. rewrite Hb. exists d, (Ok h). split; [done|]. rewrite Hb. split; set_solver.
  - destruct (Hsync s) as (d & o & E & He). unfold mbind, M_bind. rewrite E. exists d.
    destruct o as [[]|e]; eexists; (split; [reflexivity|]); [|done]. unfold handle. cbn. split; set_solver.
Qed.

Lemma elem_of_live loads (s : worker) r :
  r ∈ live_regions loads s ↔ (∃ id t, encoder_cache s !! id = Some t ∧ r = et_storage t) ∨
    (∃ save, save ∈ ew_pending_saves s ∧ r ∈ save_regions save) ∨ (∃ p, p ∈ loads ∧ r = et_storage (el_storage p)).
Proof.
  unfold live_regions. rewrite !elem_of_app, !list_elem_of_fmap, list_elem_of_bind.
  setoid_rewrite elem_of_map_to_list'. split.
  - intros [([id t] & -> & Ht)|[(save & Hr & Hs)|(p & -> & Hp)]]; cbn in *; eauto 8.
  - intros [(id & t & Ht & ->)|[(save & Hs & Hr)|(p & Hp & ->)]]; [left; by exists (id, t)|right; left|right; right]; eauto.
Qed.

Lemma num_chunk_ids id spec : spec_ok id spec → zlen (ls_chunk_ids spec) = nc id.
Proof.
  intros (Hid & _ & E). destruct (st_items Hset id Hid) as (Hne & Hpos & _). destruct (num_chunks_spec id Hpos) as [Hnc _].
  revert E. unfold make_chunk_ids. case_bool_decide; [done|]. destruct (_ <=? _); [done|]. intros [= <-].
  unfold zlen. rewrite length_fmap, length_seq. lia.
Qed.

Lemma submitted_coherent loads id spec t h tk s sh st' :
  ok (ew_pending_saves s) loads s → spec_ok id spec →
  t = mkEcTensor [nc id; rows; ec_width (ec_layout cfg)] (ec_dtype (ec_layout cfg)) (data_ptr t) true (data_ptr t, nc id * cb) →
  0 ≤ data_ptr t → data_ptr t + nc id * cb ≤ 2 ^ 64 →
  (∀ r, r ∈ live_regions loads s → disjoint_regions (et_storage t) r) →
  ds_load_data (ec_store cfg) (ls_chunk_ids spec) sh (chunk_addresses cfg t (nc id)) h (ew_world s, ew_mem s) = (st', Ok tk) →
  coherent (in_flight st'.1) (ew_pending_saves s) (loads ++ [mkPendingECLoad id spec t tk h]) (encoder_cache s) st'.
Proof.
  intros Hs Hspec Et Hp0 Hend Hdis (Hf & Hf' & Hev)%ds_load_data_ok. set (p := mkPendingECLoad id spec t tk h).
  assert (load_transfer p = TLoad (ec_store cfg) (zip (ls_chunk_ids spec) (concat (chunk_addresses cfg t (nc id))))) as Etr.
  { unfold load_transfer. cbn. by destruct Hspec as (_ & -> & _). }
  eapply coherent_evolve; [|exact Hev]. rewrite Hf', <- Etr. apply (coherent_add_load _ _ p); [done|done| | | |].
  - split; cbn; [done|by rewrite Et|by rewrite Et|done].
  - intros id' t' Ht'. apply Hdis, elem_of_live. left. eauto.
  - intros save r Hsv Hr. apply Hdis, elem_of_live. right. left. eauto.
  - intros q Hq. apply Hdis, elem_of_live. right. right. eauto.
Qed.

(** Submitting one load. *)
Lemma ec_submit_load_spec loads id spec s :
  ok (ew_pending_saves s) loads s → spec_ok id spec →
  ∃ s' o, ec_submit_load cfg loads (id, spec) s = (s', o) ∧ same_worker s s' ∧
    match o with
    | Ok None => ok (ew_pending_saves s) loads s' ∧ is_Some (encoder_cache s !! id) ∧ events (ew_device s') = events (ew_device s)
    | Ok (Some p) => ok (ew_pending_saves s) (loads ++ [p]) s' ∧ el_identifier p = id ∧ encoder_cache s !! id = None ∧
        handle (el_event_handle p) ## events (ew_device s) ∧
        events (ew_device s') = events (ew_device s) ∪ handle (el_event_handle p)
    | Raise _ => ok (ew_pending_saves s) loads s' ∧ encoder_cache s !! id = None ∧
        events (ew_device s') = events (ew_device s)
    end.
Proof.
  intros Hs Hspec. pose proof (num_chunk_ids id spec Hspec) as Hlen. pose proof Hspec as (Hid & Hn & Hk).
  destruct (st_items Hset id Hid) as (Hne & Hpos & _). destruct layout_facts as (Hr & Hb & Hcb).
  unfold ec_submit_load. unfold mbind at 1, M_bind at 1, get_state. case_bool_decide as Hc.
  { exists s, (Ok None). done. }
  apply eq_None_not_Some in Hc.
  rewrite Hn, Hlen, Z.eqb_refl. destruct (Z.leb_spec (item_rows id) 0); [lia|]. cbn [orb negb].
  destruct (new_tensor_spec loads [nc id; rows; ec_width (ec_layout cfg)] s) as (a & o1 & E1 & Ht).
  unfold mbind at 1, M_bind at 1. rewrite E1. destruct o1 as [t|e]; [|by exists (set_torch a s), (Raise e)].
  destruct (Ht t eq_refl) as (Et & Hp0 & Hend & Hdis). clear Ht E1. set (s1 := set_torch a s).
  assert (list_prod [nc id; rows; ec_width (ec_layout cfg)] * itemsize (ec_dtype (ec_layout cfg)) = nc id * cb) as Hbytes
    by (rewrite Hcb; unfold row_bytes; cbn; lia).
  destruct (load_handle_spec s1) as (d & o2 & E2 & Hh). unfold mbind at 1, M_bind at 1. rewrite E2.
  destruct o2 as [h|e]; [|by exists (set_device d s1), (Raise e)]. destruct Hh as [Hfresh Hev].
  set (s2 := set_device d s1). unfold mbind at 1, M_bind at 1, try_except, on_ec_store, zoom.
  change (ew_world s2, ew_mem s2) with (ew_world s, ew_mem s).
  destruct (ds_load_data _ _ _ _ h (ew_world s, ew_mem s)) as [st' [tk|e]] eqn:E3.
  - eexists _, (Ok (Some (mkPendingECLoad id spec t tk h))). split; [reflexivity|]. split; [done|].
    split; [|done]. destruct st' as [w' m']. rewrite Hbytes in *. by eapply (submitted_coherent _ _ _ _ _ _ s).
  - destruct (destroy_step h (set_world st' s2)) as (d3 & E4 & Hev4). unfold mbind, M_bind. rewrite E4.
    eexists _, (Raise RuntimeError). split; [reflexivity|]. split; [done|]. apply ds_load_data_raise in E3 as [Hf Hev3].
    split; [|split; [done|cbn; rewrite Hev4; cbn; rewrite Hev; set_solver]]. unfold ok. cbn. cbn in Hf. rewrite Hf.
    destruct st' as [w' m']. by eapply coherent_evolve.
Qed.

Lemma same_worker_trans s1 s2 s3 : same_worker s1 s2 → same_worker s2 s3 → same_worker s1 s3.
Proof. intros (? & ? & ?) (? & ? & ?). split_and!; congruence. Qed.

Lemma ec_submit_loads_spec todo : ∀ pending s,
  ok (ew_pending_saves s) pending s → (∀ id spec, (id, spec) ∈ todo → spec_ok id spec) →
  ∃ s' new o, ec_submit_loads cfg todo pending s = (s', Ok (pending ++ new, o)) ∧ same_worker s s' ∧
    ok (ew_pending_saves s) (pending ++ new) s' ∧
    handles new ## events (ew_device s) ∧ events (ew_device s') = events (ew_device s) ∪ handles new ∧
    (∀ id, id ∈ el_identifier <$> new → encoder_cache s !! id = None) ∧
    (o = Ok tt → ∀ id, id ∈ todo.*1 → is_Some (encoder_cache s !! id) ∨ id ∈ el_identifier <$> new) ∧
    (el_identifier <$> new) `sublist_of` todo.*1 ∧
    (NoDup todo.*1 → ∀ e, o = Raise e → ∃ id, id ∈ todo.*1 ∧ encoder_cache s !! id = None ∧ id ∉ el_identifier <$> new).
Proof.
  assert (handles [] = ∅) as Hnil by done.
  induction todo as [|[id spec] todo IH]; intros pending s Hs Htodo.
  { exists s, [], (Ok tt). rewrite app_nil_r, Hnil. split_and!; try done; set_solver. }
  destruct (ec_submit_load_spec pending id spec s Hs) as (s1 & o1 & E1 & Hsame & Ho1); [apply Htodo; by left|].
  assert (∀ id spec, (id, spec) ∈ todo → spec_ok id spec) as Hrest by (intros; apply Htodo; by right).
  cbn [ec_submit_loads]. unfold mbind at 1, M_bind at 1, attempt at 1. rewrite E1. pose proof Hsame as (Hp & _ & Hc).
  destruct o1 as [[p|]|e].
  - destruct Ho1 as (Hs1 & Eid & Hnone & Hfr & He). rewrite <- Hp in Hs1.
    destruct (IH (pending ++ [p]) s1 Hs1 Hrest) as (s2 & new & o & E2 & Hsame2 & Hs2 & Hfr2 & He2 & Hn2 & Hall2 & Hsub & Hbad).
    exists s2, (p :: new), o. rewrite E2, <- app_assoc. split; [done|]. rewrite Hp, <- app_assoc in Hs2. rewrite Hc in *.
    assert (handles (p :: new) = handle (el_event_handle p) ∪ handles new) as Eh by (unfold handles; by rewrite fmap_cons).
    rewrite fmap_cons, Eh. rewrite He in Hfr2.
    split_and!; [by eapply same_worker_trans|done|set_solver +Hfr Hfr2|by rewrite He2, He, (assoc_L (∪))| | | |].
    + intros id' [->|Hin]%elem_of_cons; [by rewrite Eid|by apply Hn2].
    + intros Ho id' Hin. rewrite fmap_cons in Hin. cbn in Hin. rewrite elem_of_cons in *.
      destruct Hin as [->|Hin]; [right; by left|]. destruct (Hall2 Ho id' Hin); [by left|right; by right].
    + rewrite fmap_cons. cbn. rewrite <- Eid. by constructor.
    + intros [Hid Hnd]%NoDup_cons e Ho. destruct (Hbad Hnd e Ho) as (id' & Hin & Hn' & Hnin). exists id'.
      split; [by right|]. split; [done|]. apply not_elem_of_cons. split; [|done]. intros ->. by rewrite Eid in Hin.
  - destruct Ho1 as (Hs1 & Hin1 & He). rewrite <- Hp in Hs1.
    destruct (IH pending s1 Hs1 Hrest) as (s2 & new & o & E2 & Hsame2 & Hs2 & Hfr2 & He2 & Hn2 & Hall2 & Hsub & Hbad).
    exists s2, new, o. rewrite E2. rewrite Hp in Hs2. rewrite Hc, He in *.
    split_and!; [done|by eapply same_worker_trans|done|done|done|done| | |].
    + intros Ho id' Hin. rewrite fmap_cons in Hin. cbn in Hin. apply elem_of_cons in Hin as [->|Hin]; [by left|by apply Hall2].
    + rewrite fmap_cons. by constructor.
    + intros [_ Hnd]%NoDup_cons e Ho. destruct (Hbad Hnd e Ho) as (id' & Hin & ?). exists id'. split; [by right|done].
  - destruct Ho1 as (Hs1 & Hnone & He). exists s1, [], (Raise e). rewrite app_nil_r, Hnil, He.
    split_and!; try done; [set_solver|set_solver|apply sublist_nil_l|].
    intros _ e' _. exists id. split; [by left|]. split; [done|apply not_elem_of_nil].
Qed.

(** What [start_load_caches] promises for the loads of a step. *)
Lemma start_load_spec loads s :
  ok (ew_pending_saves s) [] s → (∀ id spec, (id, spec) ∈ loads → spec_ok id spec) →
  ∃ s' o, ec_start_load_caches cfg (Ok (Some loads)) s = (s', o) ∧ ok (ew_pending_saves s') [] s' ∧
    ew_pending_saves s' = ew_pending_saves s ∧ ew_store_open s' = ew_store_open s ∧
    events (ew_device s') = events (ew_device s) ∧ encoder_cache s ⊆ encoder_cache s' ∧
    (∀ id t, encoder_cache s' !! id = Some t → encoder_cache s !! id = Some t ∨ validate_encoder_tensor cfg t = Ok tt) ∧
    (NoDup loads.*1 → ew_store_open s = true → o = Ok tt ↔ ∀ id, id ∈ loads.*1 → is_Some (encoder_cache s' !! id)).
Proof.
  intros Hs Hspec. unfold ec_start_load_caches. unfold mbind at 1, M_bind at 1, lift_outcome at 1.
  unfold mbind at 1, M_bind at 1, get_state. destruct (ew_store_open s) eqn:Eo; cbn [negb];
    [|exists s, (Raise RuntimeError); split_and!; try done; by left].
  destruct (ec_submit_loads_spec loads [] s Hs Hspec) as (s1 & new & o & E1 & (Hp1 & Ho1 & Hc1) & Hs1 & Hfr & He & Hn & Hall & Hsub & Hbad).
  erewrite bind_ok; [|exact E1]. cbn [app] in *.
  destruct (drain_loads_spec _ _ s1 None Hs1) as (s2 & err & E2 & Hs2 & Hp2 & Ho2 & He2 & Hold & Hvalid & Hres & Hwbad).
  erewrite bind_ok; [|exact E2].
  assert (∃ r, (lift_outcome o ;; match err with None => mret tt | Some _ => raise RuntimeError end) s2 = (s2, r) ∧
    (r = Ok tt ↔ o = Ok tt ∧ err = None)) as (r & -> & Hr).
  { destruct o as [[]|e]; [destruct err|]; (eexists; split; [reflexivity|naive_solver]). }
  exists s2, r. split_and!; [done|by rewrite Hp2, Hp1|congruence|congruence|rewrite He2, He; set_solver +Hfr| |by rewrite <- Hc1|].
  - apply map_subseteq_spec. intros id t Ht. rewrite Hold, Hc1; [done|]. intros Hin. apply Hn in Hin. congruence.
  - intros Hnd _. split.
    + intros [-> ->]%Hr id Hin. destruct (Hres eq_refl) as [_ Hsome]. apply Hsome. rewrite Hc1. by apply Hall.
    + intros Hsome. apply Hr. split.
      * destruct o as [[]|e]; [done|]. destruct (Hbad Hnd e eq_refl) as (id & Hin & Hnone & Hnin).
        destruct (Hsome id Hin) as [t Ht]. rewrite Hold, Hc1, Hnone in Ht by done. done.
      * destruct err as [e|]; [|done]. destruct Hwbad as [[]|(id & Hin & Hnone)];
          [by eapply sublist_NoDup|by eexists|done|].
        destruct (Hsome id) as [t Ht]; [|congruence]. by eapply elem_of_sublist.
Qed.

(** ** Saves *)

(** Memory may change outside of what is retained. *)
Lemma coherent_mem F saves cache (w : W) m m' :
  coherent F saves [] cache (w, m) →
  (∀ id t x, cache !! id = Some t → within x (et_storage t) → m' x = m x) →
  (∀ save r x, save ∈ saves → r ∈ save_regions save → within x r → m' x = m x) →
  coherent F saves [] cache (w, m').
Proof.
  intros Hco Hc Hs. split; try apply Hco.
  - intros id t Ht. apply (right_ext m); [|by apply (co_cache _ _ _ _ _ Hco)]. intros x. by apply (Hc id).
  - intros t tr Ht. destruct (co_flight _ _ _ _ _ Hco t tr Ht) as [(save & Hin & Et & Hd)|(q & []%elem_of_nil & _)]. left.
    exists save. split_and!; [done|done|]. apply (dump_ok_ext m); [|done]. intros r x. by apply (Hs save).
Qed.

Lemma pad_bytes m p n rest :
  zlen rest ≤ n → read (write (write m p (replicate (Z.to_nat n) 0)) p rest) p n = rest ++ replicate (Z.to_nat n - length rest) 0.
Proof.
  unfold zlen. intros Hn. replace n with (zlen rest + (n - zlen rest)) at 2 by lia.
  rewrite read_app by (unfold zlen; lia). rewrite read_write_same by done. f_equal.
  apply list_eq_same_length with (n := (Z.to_nat n - length rest)%nat);
    [apply length_replicate|rewrite length_read; unfold zlen; lia|].
  intros i x y Hi [Hi' ->]%lookup_read [-> _]%lookup_replicate. rewrite write_out by (unfold within, zlen; cbn; lia).
  unfold write, zlen. rewrite length_replicate.
  destruct (_ && _) eqn:E; [|apply andb_false_iff in E as [?%Z.leb_gt|?%Z.ltb_ge]; unfold zlen in *; lia].
  by rewrite nth_lookup, lookup_replicate_2 by (unfold zlen in *; lia).
Qed.

Lemma good_chunk id i : id ∈ items → Z.of_nat i < nc id → good_block (key id i) (chunk_data id i).
Proof. intros Hid Hi id' i' Hid' Hi' E. by destruct (st_keys Hset id id' i i' Hid Hid' Hi Hi' E) as [-> ->]. Qed.

(** Padding the last rows of a tensor of the cache. *)
Lemma pad_tail_spec id t s :
  ok (ew_pending_saves s) [] s → encoder_cache s !! id = Some t → validate_encoder_tensor cfg t = Ok tt →
  item_rows id mod rows ≠ 0 →
  ∃ s' o, pad_tail cfg t (item_rows id / rows) (item_rows id mod rows) s = (s', o) ∧ same_worker s s' ∧
    ew_device s' = ew_device s ∧ ew_world s' = ew_world s ∧ ok (ew_pending_saves s) [] s' ∧
    ∀ tail, o = Ok tail → 0 ≤ data_ptr tail < 2 ^ 64 ∧ et_storage tail = (data_ptr tail, cb) ∧
      read (ew_mem s') (data_ptr tail) cb = chunk_data id (Z.to_nat (item_rows id / rows)).
Proof.
  intros Hs Ht Hv Htail. destruct (co_cache _ _ _ _ _ Hs id t Ht Hv) as (Hid & Hshape & Hm & Hin & Hp0 & Hend).
  destruct (st_items Hset id Hid) as (Hne & Hpos & _). destruct layout_facts as (Hr & Hb & Hcb).
  pose proof (Z.mod_pos_bound (item_rows id) rows Hr) as Hmod. pose proof (Z.div_mod (item_rows id) rows ltac:(lia)) as Hdm.
  pose proof (Z.div_pos (item_rows id) rows ltac:(lia) Hr) as Hdiv.
  destruct (new_tensor_spec [] [rows; ec_width (ec_layout cfg)] s) as (a & o & E1 & Hnew).
  unfold pad_tail. unfold mbind at 1, M_bind at 1. rewrite E1.
  destruct o as [tl|e]; [|exists (set_torch a s), (Raise e); by split_and!].
  destruct (Hnew tl eq_refl) as (Et & Htl0 & Htlend & Hdis). clear Hnew E1.
  assert (list_prod [rows; ec_width (ec_layout cfg)] * itemsize (ec_dtype (ec_layout cfg)) = cb) as Hbytes
    by (rewrite Hcb; unfold row_bytes; cbn; lia). rewrite Hbytes in *.
  assert (et_storage tl = (data_ptr tl, cb)) as Est by (by rewrite Et). unfold mbind, M_bind, modify. rewrite Est. cbn [snd ew_mem ew_world set_torch].
  cbv zeta.
  set (m1 := write (ew_mem s) (data_ptr tl) (replicate (Z.to_nat cb) 0)).
  set (rest := read m1 _ _). eexists _, (Ok tl). split; [reflexivity|].
  assert (length rest = Z.to_nat (item_rows id mod rows * nb)) as Hrest by apply length_read.
  assert (∀ x, ¬ within x (et_storage tl) → write m1 (data_ptr tl) rest x = ew_mem s x ∧ m1 x = ew_mem s x) as Hout.
  { rewrite Est. unfold within. cbn [fst snd]. intros x Hx.
    assert (m1 x = ew_mem s x) as E. { apply write_out. unfold within, zlen. cbn. rewrite length_replicate. nia. }
    split; [|done]. rewrite write_out; [done|]. unfold within, zlen. cbn. rewrite Hrest. nia. }
  assert (∀ x r, r ∈ live_regions [] s → within x r → ¬ within x (et_storage tl)) as Hlive
    by (intros x r Hl Hx Hx'; by apply (Hdis r Hl x)).
  split_and!; try done.
  - eapply coherent_mem; [exact Hs|..].
    + intros id' t' x Ht' Hx. apply Hout, (Hlive x (et_storage t')); [|done]. apply elem_of_live. left. eauto.
    + intros save r x Hsv Hrs Hx. apply Hout, (Hlive x r); [|done]. apply elem_of_live. right. left. eauto.
  - intros tail [= <-]. split_and!; [done|nia|done|]. cbn [ew_mem set_world snd].
    unfold m1 at 1. rewrite pad_bytes by (unfold zlen; rewrite Hrest; nia).
    rewrite (tail_chunk (ew_mem s) id (data_ptr t) _ (item_rows id mod rows)) by (try done; nia).
    rewrite Hrest. f_equal. rewrite Z2Nat.id by done. unfold rest. replace (item_rows id / rows * rows * nb) with (item_rows id / rows * cb) by nia.
    apply read_ext. intros x Hx. apply Hout, (Hlive x (et_storage t)); [apply elem_of_live; left; eauto|].
    apply Hin. unfold within in *. cbn in *. nia.
Qed.

(** The addresses a dump reads a chunk from: those of its rows in the tensor, or the
    padded copy. *)
Definition source_ok (m : mem) (id : string) (t : EcTensor) (src : list (list Z)) (tail : option EcTensor) : Prop :=
  match tail with
  | None => item_rows id mod rows = 0 ∧ src = chunk_addresses cfg t (nc id)
  | Some tl =>
      item_rows id mod rows ≠ 0 ∧
      src = <[(Z.to_nat (nc id) - 1)%nat := [uint64 (data_ptr tl)]]> (chunk_addresses cfg t (nc id)) ∧
      0 ≤ data_ptr tl < 2 ^ 64 ∧ et_storage tl = (data_ptr tl, cb) ∧
      read m (data_ptr tl) cb = chunk_data id (Z.to_nat (item_rows id / rows))
  end.

(** The chunk before the last rows that fill no chunk is the last one. *)
Lemma last_chunk id :
  0 < item_rows id →
  if decide (item_rows id mod rows = 0) then nc id * rows = item_rows id
  else nc id = item_rows id / rows + 1.
Proof.
  intros Hpos. destruct (num_chunks_spec id Hpos) as (Hnc & Hlo & Hup). destruct layout_facts as (Hr & _).
  pose proof (Z.mod_pos_bound (item_rows id) rows Hr). pose proof (Z.div_mod (item_rows id) rows ltac:(lia)).
  set (q := item_rows id / rows) in *. set (n := nc id) in *. case_decide.
  - assert (n = q) by (assert (n - 1 < q) by nia; assert (q ≤ n) by nia; lia). nia.
  - assert (n - 1 < q + 1) by nia. assert (q < n) by nia. lia.
Qed.

Lemma source_single m id t src tail : source_ok m id t src tail → Forall (λ r, length r = 1%nat) src.
Proof.
  destruct tail as [tl|]; [intros (_ & -> & _)|intros [_ ->]]; [|apply chunk_addresses_single].
  apply Forall_insert; [apply chunk_addresses_single|done].
Qed.

(** Each source holds its chunk, in a storage that the save retains. *)
Lemma source_chunk m id t src tail tk h (i : nat) a :
  right m id t → validate_encoder_tensor cfg t = Ok tt → source_ok m id t src tail →
  Z.of_nat i < nc id → src !! i = Some [a] →
  read m a cb = chunk_data id i ∧
  ∃ r, r ∈ save_regions (mkPendingECSave id tk t tail h) ∧ ∀ x, within x (a, cb) → within x r.
Proof.
  intros Hrt Hv Hsrc Hi Ha. destruct (Hrt Hv) as (Hid & _ & Hm & Hin & Hp0 & Hend).
  destruct (st_items Hset id Hid) as (_ & Hpos & _). pose proof (last_chunk id Hpos) as Hlast.
  destruct layout_facts as (Hr & Hb & Hcb). pose proof (Z.div_mod (item_rows id) rows ltac:(lia)) as Hdm.
  pose proof (Z.mod_pos_bound (item_rows id) rows Hr) as Hmod.
  assert ((Z.of_nat i + 1) * rows ≤ item_rows id → chunk_addresses cfg t (nc id) !! i = Some [a] →
    read m a cb = chunk_data id i ∧ ∃ r, r ∈ save_regions (mkPendingECSave id tk t tail h) ∧ ∀ x, within x (a, cb) → within x r)
    as Hfull.
  { intros Hle Ha'. rewrite chunk_addresses_lookup in Ha' by nia. injection Ha' as <-. split; [by apply full_chunk|].
    exists (et_storage t). split; [by left|]. intros x Hx. apply Hin. unfold within in *. cbn in *. nia. }
  destruct tail as [tl|]; cbn in Hsrc.
  - destruct Hsrc as (Hne & -> & Hpt & Est & Hrd). rewrite decide_False in Hlast by done.
    apply list_lookup_insert_Some in Ha as [(<- & [= <-] & _)|[Hni Ha]]; [|apply Hfull; [nia|done]].
    unfold uint64. rewrite Z.mod_small by done. split; [rewrite Hrd; f_equal; lia|].
    exists (et_storage tl). split; [right; by left|]. by rewrite Est.
  - destruct Hsrc as [Hz ->]. rewrite decide_True in Hlast by done. apply Hfull; [nia|done].
Qed.

Lemma save_dump_ok m id t src tail tk h ids :
  right m id t → validate_encoder_tensor cfg t = Ok tt → source_ok m id t src tail → h ≠ 0 →
  make_chunk_ids md5 pickle_dumps id (item_rows id) (ec_layout cfg) (ec_hasher cfg) = Ok ids →
  dump_ok m (mkPendingECSave id tk t tail h) (TDump (ec_store cfg) (zip ids (concat src)) h).
Proof.
  intros Hrt Hv Hsrc Hh Hids. eexists. split; [reflexivity|]. split; [done|].
  intros k a [i [Hk Ha]%zip_rows_lookup]%list_elem_of_lookup; [|by eapply source_single].
  destruct (Hrt Hv) as (Hid & _). destruct (chunk_ids_lookup id (mkLoadSpec (item_rows id) ids) i k) as [Hi ->]; [by split_and!|done|].
  destruct (source_chunk m id t src tail tk h i a Hrt Hv Hsrc Hi Ha) as [-> ?]. split; [by apply good_chunk|done].
Qed.

Lemma prepare_save_spec id t s :
  ok (ew_pending_saves s) [] s → encoder_cache s !! id = Some t → validate_encoder_tensor cfg t = Ok tt →
  ∃ s' o, prepare_save cfg t (item_rows id) (nc id) s = (s', o) ∧ same_worker s s' ∧ ew_world s' = ew_world s ∧
    ok (ew_pending_saves s) [] s' ∧
    match o with
    | Ok (src, tail, h) => source_ok (ew_mem s') id t src tail ∧ h ≠ 0 ∧ (h ∉ events (ew_device s)) ∧
        events (ew_device s') = {[h]} ∪ events (ew_device s)
    | Raise _ => events (ew_device s') = events (ew_device s)
    end.
Proof.
  intros Hs Ht Hv. unfold prepare_save.
  assert (∃ s1 o1, (if item_rows id mod rows =? 0 then mret (chunk_addresses cfg t (nc id), None)
     else tail ← pad_tail cfg t (item_rows id / rows) (item_rows id mod rows);
          mret (<[(length (chunk_addresses cfg t (nc id)) - 1)%nat := [uint64 (data_ptr tail)]]>
                  (chunk_addresses cfg t (nc id)), Some tail)) s = (s1, o1) ∧ same_worker s s1 ∧
     ew_device s1 = ew_device s ∧ ew_world s1 = ew_world s ∧ ok (ew_pending_saves s) [] s1 ∧
     ∀ src tail, o1 = Ok (src, tail) → source_ok (ew_mem s1) id t src tail)
    as (s1 & o1 & E0 & Hsame & Hd & Hw & Hs1 & Hsrc).
  { destruct (Z.eqb_spec (item_rows id mod rows) 0) as [Hz|Hz].
    - eexists s, _. split_and!; try done. intros src tail [= <- <-]. done.
    - destruct (pad_tail_spec id t s Hs Ht Hv Hz) as (s1 & o & E & Hsame & Hd & Hw & Hs1 & Htl).
      unfold mbind, M_bind. rewrite E. destruct o as [tl|e]; eexists s1, _; split_and!; try done; [].
      intros src tail [= <- <-]. destruct (Htl tl eq_refl) as ([? ?] & ? & ?). rewrite length_chunk_addresses. unfold source_ok.
      by split_and!. }
  cbv zeta. unfold mbind at 1, M_bind at 1. rewrite E0.
  destruct o1 as [[src tail]|e]; [|by exists s1, (Raise e); rewrite Hd].
  unfold mbind at 1, M_bind at 1, on_ec_device, zoom.
  destruct (get_event_handle (ew_device s1)) as [d [h|e]] eqn:E; rewrite Hd in E; cbn [fst snd].
  2:{ apply get_event_handle_raise in E. by eexists _, _. }
  apply get_event_handle_ok in E as [[-> He]|(Hh & Hn & He)]; [by eexists _, _|].
  apply Z.eqb_neq in Hh as Hb. rewrite Hb. eexists _, _. split; [reflexivity|]. split_and!; try done; [].
  by apply Hsrc.
Qed.

(** What [save_caches] promises: either nothing is left of the attempt, or a save is
    pending for the tensor. *)
Lemma save_spec id s :
  ok (ew_pending_saves s) [] s →
  ∃ s' o, ec_save_caches md5 pickle_dumps cfg id s = (s', o) ∧ ok (ew_pending_saves s') [] s' ∧
    ew_store_open s' = ew_store_open s ∧ encoder_cache s' = encoder_cache s ∧
    (ew_pending_saves s' = ew_pending_saves s ∧ events (ew_device s') = events (ew_device s) ∨
     ∃ save, ew_pending_saves s' = ew_pending_saves s ++ [save] ∧ es_identifier save = id ∧
       encoder_cache s !! id = Some (es_tensor save) ∧ (es_event_handle save ∉ events (ew_device s)) ∧
       es_event_handle save ≠ 0 ∧ events (ew_device s') = {[es_event_handle save]} ∪ events (ew_device s)).
Proof.
  intros Hs. unfold ec_save_caches. destruct (_ || _); [by exists s, (Ok tt); split_and!; auto|].
  unfold mbind at 1, M_bind at 1, get_state. destruct (ew_store_open s) eqn:Eo; cbn [negb]; [|by exists s, (Raise RuntimeError); split_and!; auto].
  destruct (encoder_cache s !! id) as [t|] eqn:Et; [|by exists s, (Raise KeyError); split_and!; auto].
  erewrite bind_ok; [|reflexivity]. unfold mbind at 1, M_bind at 1, lift_outcome at 1.
  destruct (validate_encoder_tensor cfg t) as [[]|e] eqn:Hv; [|by exists s, (Raise e); split_and!; auto].
  destruct (co_cache _ _ _ _ _ Hs id t Et Hv) as (Hid & Hshape & _). destruct (st_items Hset id Hid) as (Hne & Hpos & _).
  erewrite bind_ok; [|rewrite Hshape; reflexivity].
  set (ids := (λ i, key id i) <$> seq 0 (Z.to_nat (nc id))).
  assert (make_chunk_ids md5 pickle_dumps id (item_rows id) (ec_layout cfg) (ec_hasher cfg) = Ok ids) as Hids.
  { unfold make_chunk_ids. rewrite bool_decide_eq_false_2 by done. by destruct (Z.leb_spec (item_rows id) 0); [lia|]. }
  erewrite bind_ok; [|unfold lift_outcome; rewrite Hids; reflexivity].
  assert (zlen ids = nc id) as -> by (apply (num_chunk_ids id (mkLoadSpec (item_rows id) ids)); by split_and!).
  destruct (prepare_save_spec id t s Hs Et Hv) as (s1 & o1 & E1 & (Hp1 & Ho1 & Hc1) & Hw1 & Hs1 & Hpre).
  erewrite bind_ok; [|unfold attempt; rewrite E1; reflexivity].
  destruct o1 as [[[src tail] h]|e]; [|eexists s1, (Ok tt); rewrite Hp1; split_and!; try done; [congruence|by left]].
  destruct Hpre as (Hsrc & Hh & Hfresh & Hev). unfold try_except, mbind, M_bind, on_ec_store, zoom.
  destruct (ds_dump_data _ _ _ _ _ (ew_world s1, ew_mem s1)) as [[w2 m2] [tk|e]] eqn:E2.
  - apply ds_dump_data_ok in E2 as (_ & Hf & Hev2). cbn in Hf. eexists _, (Ok tt). split; [reflexivity|]. cbn.
    split_and!; [|congruence|done|].
    + unfold ok. cbn. eapply coherent_evolve; [|exact Hev2]. cbn [fst]. rewrite Hf, Hp1.
      apply (coherent_add_save _ (mkPendingECSave id tk t tail h)); [done|]. apply save_dump_ok; try done.
      apply (co_cache _ _ _ _ _ Hs1). by rewrite Hc1.
    + right. eexists. rewrite Hp1. split; [done|]. cbn. by split_and!.
  - apply ds_dump_data_raise in E2 as [Hf Hev2]. cbn in Hf.
    destruct (destroy_event_handle_ok (ew_device s1) h) as [Ed1 Ed2]. unfold on_ec_device, zoom. cbn.
    destruct (destroy_event_handle h (ew_device s1)) as [d o]. cbn in Ed1, Ed2. subst o. eexists _, (Ok tt). split; [reflexivity|].
    cbn. split_and!; [|congruence|done|left; split; [done|set_solver +Ed2 Hev Hfresh]].
    unfold ok. cbn. rewrite Hp1, Hf. eapply coherent_evolve; [exact Hs1|exact Hev2].
Qed.

(** ** Waiting for the saves *)

Definition save_handles (saves : list PendingECSave) : gset Z := ⋃ ((λ sv, handle (es_event_handle sv)) <$> saves).

Lemma wait_save_spec save saves s :
  ok (save :: saves) [] s →
  ∃ s', wait_save cfg save s = (s', Ok tt) ∧ ok saves [] s' ∧ same_worker s s' ∧
    in_flight (ew_world s') = delete (es_task save) (in_flight (ew_world s)) ∧
    events (ew_device s') = events (ew_device s) ∖ handle (es_event_handle save).
Proof.
  intros Hs. unfold wait_save, try_finally, try_except, on_ec_store, zoom.
  destruct (ds_wait (ec_store cfg) (es_task save) (ew_world s, ew_mem s)) as [[w' m'] o] eqn:E.
  destruct (ds_wait_ends _ _ _ _ _ E) as [Hf Hev]. cbn in Hf.
  assert (ok saves [] (set_world (w', m') s)) as Hw.
  { unfold ok. cbn. rewrite Hf. apply coherent_del_save. by eapply coherent_evolve. }
  set (s1 := set_world (w', m') s) in *. destruct (destroy_step (es_event_handle save) s1) as (d & Ed & Hd).
  exists (set_device d s1). split; [|by split_and!]. destruct o as [[]|e]; cbv beta iota; fold s1; [by rewrite Ed|].
  unfold mret at 1, M_ret at 1. by rewrite Ed.
Qed.

Lemma wait_saves_spec saves : ∀ s,
  ok saves [] s →
  ∃ s', for_each saves (wait_save cfg) s = (s', Ok tt) ∧ ok [] [] s' ∧ same_worker s s' ∧
    events (ew_device s') = events (ew_device s) ∖ save_handles saves.
Proof.
  induction saves as [|save saves IH]; intros s Hs.
  { exists s. split_and!; try done. unfold save_handles. set_solver. }
  destruct (wait_save_spec save saves s Hs) as (s1 & E1 & Hs1 & Hsame1 & _ & He1).
  destruct (IH s1 Hs1) as (s2 & E2 & Hs2 & Hsame2 & He2). exists s2. cbn [for_each]. erewrite bind_ok; [|exact E1].
  split_and!; [done|done|by apply (same_worker_trans _ s1)..|]. rewrite He2, He1. unfold save_handles. rewrite fmap_cons.
  cbn [union_list]. set_solver +.
Qed.

(** What waiting for all pending saves promises; only a closed store makes it raise. *)
Lemma wait_pending_spec s :
  ok (ew_pending_saves s) [] s →
  ∃ s' o, wait_pending_saves cfg s = (s', o) ∧ encoder_cache s' = encoder_cache s ∧ ew_store_open s' = ew_store_open s ∧
    ok (ew_pending_saves s') [] s' ∧
    (o = Ok tt ∧ ew_pending_saves s' = [] ∧ in_flight (ew_world s') = ∅ ∧
       events (ew_device s') = events (ew_device s) ∖ save_handles (ew_pending_saves s) ∨
     o = Raise RuntimeError ∧ s' = s ∧ ew_store_open s = false ∧ ew_pending_saves s ≠ []).
Proof.
  intros Hs. assert (∀ s1, ok [] [] s1 → in_flight (ew_world s1) = ∅) as Hnone.
  { intros s1 Hs1. apply map_eq. intros t. rewrite lookup_empty. apply eq_None_not_Some. intros [tr Ht].
    by destruct (co_flight _ _ _ _ _ Hs1 t tr Ht) as [(? & []%elem_of_nil & _)|(? & []%elem_of_nil & _)]. }
  unfold wait_pending_saves. unfold mbind at 1, M_bind at 1, get_state.
  destruct (ew_pending_saves s) as [|save saves] eqn:Ep.
  { exists s, (Ok tt). rewrite Ep. split_and!; try done. left. split_and!; [done|done|by apply Hnone|].
    unfold save_handles. cbn. set_solver +. }
  destruct (ew_store_open s) eqn:Eo; cbn [negb].
  - erewrite bind_ok; [|reflexivity]. destruct (wait_saves_spec (save :: saves) (set_saves [] s)) as (s' & E & Hs' & (Hp & Ho & Hc) & He).
    { done. }
    exists s', (Ok tt). cbn in Hp, Ho, Hc, He. rewrite Hp. split_and!; [done|done|congruence|done|left].
    split_and!; [done|done|by apply Hnone|done].
  - exists s, (Raise RuntimeError). rewrite Ep, Eo. split_and!; try done. by right.
Qed.
End coherence.
