(* ===== verification/EncoderRuns.v ===== *)
(** * The encoder cache over whole runs of a worker

    The runs of a worker interleave the calls of the connector with the engine's own
    work and with what happens in the store.  In every state of such a run the encoder
    cache and the store hold the encoder's outputs, the loads of a step settle within
    it, and waiting for the saves leaves nothing behind. *)

From Stdlib Require Import ZArith Lia.
From stdpp Require Import base list gmap strings numbers fin_sets list_numbers pretty.
From S2P Require Import Prelude.
From S2P Require Import Store.
From S2P Require Import RequestHasher.
From S2P Require Import DirectWorker.
From S2P Require Import WorkerDumps.
From S2P Require Import EncoderCache.
From S2P Require Import EncoderScheduler.
From S2P Require Import EncoderWorker.
From S2P Require Import EncoderTransfers.
Local Open Scope Z_scope.

Section runs.
Context {X : Type}.
Variable md5 : bytes → bytes.
Variable pickle_dumps : pickled X → bytes.
Context {A D W : Type} `{TorchSpec A} `{DeviceSpec D} `{DataStoreSpec W}.
Variable cfg : EcConfig.
Variable items : gset string.
Variable item_rows : string → Z.
Variable emb : string → list Z.

Abbreviation worker := (EcWorker A D W).
Abbreviation good := (good_block md5 pickle_dumps cfg items item_rows emb).
Abbreviation holds := (right cfg items item_rows emb).
Abbreviation asked := (spec_ok md5 pickle_dumps cfg items item_rows).

(** The states of a worker. *)
Inductive worker_reach : worker → Prop :=
| run_init s :
    ew_pending_saves s = [] → encoder_cache s = ∅ → in_flight (ew_world s) = ∅ →
    (∀ k c, content (ew_world s) (ec_store cfg) k c → good k c) → worker_reach s
| run_load s metadata :
    worker_reach s → (∀ loads id spec, metadata = Ok (Some loads) → (id, spec) ∈ loads → asked id spec) →
    worker_reach (ec_start_load_caches cfg metadata s).1
| run_save s mm_hash :
    worker_reach s → worker_reach (ec_save_caches md5 pickle_dumps cfg mm_hash s).1
| run_finished s : worker_reach s → worker_reach (ec_get_finished cfg s).1
| run_shutdown s : worker_reach s → worker_reach (ec_worker_shutdown cfg s).1
(** The engine drops tensors from its cache, adds outputs of the encoder to it, and
    writes to memory that no tensor of the cache and no pending save retains. *)
| run_engine s cache a m :
    worker_reach s →
    (∀ id t, cache !! id = Some t →
       encoder_cache s !! id = Some t ∧ (∀ x, within x (et_storage t) → m x = ew_mem s x) ∨ holds m id t) →
    (∀ save r x, save ∈ ew_pending_saves s → r ∈ save_regions save → within x r → m x = ew_mem s x) →
    worker_reach (mkEcWorker (ew_pending_saves s) (ew_store_open s) cache a (ew_device s) (ew_world s) m)
(** Dumps proceed, blocks are evicted, and other workers store chunks. *)
| run_store s w :
    worker_reach s → in_flight w = in_flight (ew_world s) →
    (∀ k c, content w (ec_store cfg) k c → content (ew_world s) (ec_store cfg) k c ∨ good k c ∨
       ∃ t l h a, in_flight w !! t = Some (TDump (ec_store cfg) l h) ∧ (k, a) ∈ l ∧
         (h ≠ 0 → c = read (ew_mem s) a (chunk_bytes (ec_layout cfg)))) →
    worker_reach (set_world (w, ew_mem s) s).

Abbreviation wf s := (ok md5 pickle_dumps cfg items item_rows emb (ew_pending_saves s) [] s).
Hypothesis Hset : setting md5 pickle_dumps cfg items item_rows emb.

Lemma load_wf metadata (s : worker) :
  wf s → (∀ loads id spec, metadata = Ok (Some loads) → (id, spec) ∈ loads → asked id spec) →
  wf (ec_start_load_caches cfg metadata s).1.
Proof.
  intros Hs Hmd. destruct metadata as [[loads|]|e]; [|done|done].
  destruct (start_load_spec _ _ _ _ _ _ Hset loads s Hs) as (s' & o & -> & Hs' & _); [|done].
  intros id spec. by apply (Hmd loads).
Qed.

Lemma engine_wf (s : worker) cache (a : A) m :
  wf s →
  (∀ id t, cache !! id = Some t →
     encoder_cache s !! id = Some t ∧ (∀ x, within x (et_storage t) → m x = ew_mem s x) ∨ holds m id t) →
  (∀ save r x, save ∈ ew_pending_saves s → r ∈ save_regions save → within x r → m x = ew_mem s x) →
  wf (mkEcWorker (ew_pending_saves s) (ew_store_open s) cache a (ew_device s) (ew_world s) m).
Proof.
  intros Hs Hc Hm. assert (coherent md5 pickle_dumps cfg items item_rows emb (in_flight (ew_world s))
    (ew_pending_saves s) [] ∅ (ew_world s, m)) as Hm'.
  { eapply coherent_mem; [eapply coherent_cache_sub; [exact Hs|apply map_empty_subseteq]|done|done]. }
  unfold ok. cbn. split; try apply Hm'; [|by intros * ?%elem_of_nil]. intros id t Ht. cbn [snd].
  destruct (Hc id t Ht) as [[Ht' Hx]|]; [|done]. eapply right_ext; [exact Hx|]. by apply (co_cache _ _ _ _ _ _ _ _ _ _ _ Hs).
Qed.

Lemma reach_wf s : worker_reach s → wf s.
Proof.
  induction 1 as [s Hp Hc Hf Hk|s md Hr IH Hmd|s id Hr IH|s Hr IH|s Hr IH|s cache a m Hr IH Hc Hm|s w Hr IH Hf Hk].
  - unfold ok. rewrite Hp, Hc, Hf. split; cbn; try done; try by intros * ?%elem_of_nil. constructor.
  - by apply load_wf.
  - by destruct (save_spec _ _ _ _ _ _ Hset id s IH) as (s' & o & -> & Hs' & _).
  - unfold ec_get_finished. by destruct (wait_pending_spec _ _ _ _ _ _ Hset s IH) as (s' & o & -> & _ & _ & Hs' & _).
  - unfold ec_worker_shutdown, mbind, M_bind.
    by destruct (wait_pending_spec _ _ _ _ _ _ Hset s IH) as (s' & [[]|e] & -> & _ & _ & Hs' & _).
  - by apply engine_wf.
  - assert (in_flight (ew_world (set_world (w, ew_mem s) s)) = in_flight (ew_world s)) as Hf' by exact Hf.
    unfold ok. rewrite Hf'. cbn. split; try apply IH. intros k c Hcont. destruct (Hk k c Hcont) as [Hold|[Hg|(t & l & h & a & Ht & Hin & Hh)]].
    + by apply (co_content _ _ _ _ _ _ _ _ _ _ _ IH).
    + done.
    + rewrite Hf in Ht. destruct (co_flight _ _ _ _ _ _ _ _ _ _ _ IH t _ Ht) as
        [(save & _ & _ & l' & [= -> ->] & Hne & Hl)|(p & []%elem_of_nil & _)].
      rewrite (Hh Hne). by apply (Hl k a Hin).
Qed.

(** C11 The encoder cache and the store hold the encoder's outputs.  Whatever the order
    of loads, saves, waits, evictions, of the engine's own writes and of the progress of
    the transfers, a valid tensor in the cache under an identifier has the shape and the
    bytes of this item, whether the encoder produced it or it was loaded; and whatever
    the store can deliver for a chunk of an item is this chunk, padded with zeros.  The
    keys of the chunks of the items that occur are assumed to be distinct. *)
Theorem ec_cache_coherent (s : worker) :
  worker_reach s →
  (∀ id t, encoder_cache s !! id = Some t → validate_encoder_tensor cfg t = Ok tt →
     et_shape t = [item_rows id; ec_width (ec_layout cfg)] ∧
     read (ew_mem s) (data_ptr t) (item_rows id * row_bytes cfg) = emb id) ∧
  (∀ id i c, id ∈ items → Z.of_nat i < num_chunks (ec_layout cfg) (item_rows id) →
     content (ew_world s) (ec_store cfg)
       (chunk_key md5 pickle_dumps (ec_hasher cfg) (ec_layout cfg) id (item_rows id) i) c →
     c = chunk_data cfg emb id i).
Proof.
  intros Hs%reach_wf. split.
  - intros id t Ht Hv. by destruct (co_cache _ _ _ _ _ _ _ _ _ _ _ Hs id t Ht Hv) as (_ & ? & ? & _).
  - intros id i c Hid Hi Hc. by apply (co_content _ _ _ _ _ _ _ _ _ _ _ Hs _ _ Hc).
Qed.

(** C14 Transfers settle.  In every reachable state with an open store:
    [start_load_caches] returns normally exactly when it leaves all items of the step in
    the cache, each new tensor is valid, no tensor that was there is touched, and no
    event and no transfer of a load is left, also when a load fails; [get_finished]
    does not raise, and leaves no pending save, no transfer and no event of a save. *)
Theorem ec_transfers_settle (s : worker) loads :
  worker_reach s → ew_store_open s = true → NoDup loads.*1 → (∀ id spec, (id, spec) ∈ loads → asked id spec) →
  (∃ s' o, ec_start_load_caches cfg (Ok (Some loads)) s = (s', o) ∧
     (o = Ok tt ↔ ∀ id, id ∈ loads.*1 → is_Some (encoder_cache s' !! id)) ∧
     (∀ id t, encoder_cache s' !! id = Some t → encoder_cache s !! id = Some t ∨ validate_encoder_tensor cfg t = Ok tt) ∧
     encoder_cache s ⊆ encoder_cache s' ∧ events (ew_device s') = events (ew_device s) ∧
     ∀ t, is_Some (in_flight (ew_world s') !! t) → t ∈ es_task <$> ew_pending_saves s') ∧
  (∃ s', ec_get_finished cfg s = (s', Ok tt) ∧ ew_pending_saves s' = [] ∧ in_flight (ew_world s') = ∅ ∧
     encoder_cache s' = encoder_cache s ∧
     events (ew_device s') = events (ew_device s) ∖ save_handles (ew_pending_saves s)).
Proof.
  intros Hs%reach_wf Ho Hnd Hall. split.
  - destruct (start_load_spec _ _ _ _ _ _ Hset loads s Hs Hall) as (s' & o & E & Hs' & _ & _ & He & Hsub & Hv & Hok).
    exists s', o. split; [done|]. split; [exact (Hok Hnd Ho)|]. split_and!; [done|done|done|]. intros t [tr Ht].
    destruct (co_flight _ _ _ _ _ _ _ _ _ _ _ Hs' t tr Ht) as [(sv & Hin & <- & _)|(p & []%elem_of_nil & _)].
    by apply list_elem_of_fmap_2.
  - destruct (wait_pending_spec _ _ _ _ _ _ Hset s Hs) as (s' & o & E & Hc & _ & _ & [(-> & Hp & Hf & He)|(_ & _ & ? & _)]);
      [|congruence]. exists s'. by split_and!.
Qed.
End runs.

(** ** An in-memory store of bytes

    Blocks of [n] bytes; a transfer takes place when it is waited for. *)

Section refdata.
Variable n : Z.

Record RefData := mkRefData {
  rd_blocks : gmap (store_id * string) (list Z);
  rd_tasks : gmap task transfer;
}.

Definition rd_content (w : RefData) (s : store_id) (k : bytes) (c : list Z) : Prop :=
  ∃ b, rd_blocks w !! (s, k) = Some b ∧ c = resize (Z.to_nat n) 0 b.

Definition rd_submit (tr : transfer) : M (RefData * mem) task := λ st,
  let t := fresh_Z (dom (rd_tasks st.1)) in
  ((mkRefData (rd_blocks st.1) (<[t := tr]> (rd_tasks st.1)), st.2), Ok t).

(** The blocks of a load, written to memory. *)
Definition rd_deliver (w : RefData) (s : store_id) (l : list (bytes * Z)) (m : mem) : mem :=
  foldl (λ m p, write m p.2 (resize (Z.to_nat n) 0 (default [] (rd_blocks w !! (s, p.1))))) m l.

(** The blocks of a dump, read from memory. *)
Definition rd_collect (s : store_id) (l : list (bytes * Z)) (m : mem) (blocks : gmap (store_id * string) (list Z)) :
    gmap (store_id * string) (list Z) :=
  foldl (λ b p, <[(s, p.1) := read m p.2 n]> b) blocks l.

Definition rd_wait (t : task) : M (RefData * mem) unit := λ st,
  let '(w, m) := st in
  let tasks := delete t (rd_tasks w) in
  match rd_tasks w !! t with
  | Some (TLoad s l) =>
      if bool_decide (Forall (λ p, is_Some (rd_blocks w !! (s, p.1))) l)
      then ((mkRefData (rd_blocks w) tasks, rd_deliver w s l m), Ok tt)
      else ((mkRefData (rd_blocks w) tasks, m), Raise StoreNotFoundError)
  | Some (TDump s l _) => ((mkRefData (rd_collect s l m (rd_blocks w)) tasks, m), Ok tt)
  | None => ((mkRefData (rd_blocks w) tasks, m), Ok tt)
  end.

Definition RefData_store : DataStore RefData := {|
  ds_load_data s ks sh ps h := rd_submit (TLoad s (zip ks (concat ps)));
  ds_dump_data s ks sh ps h := rd_submit (TDump s (zip ks (concat ps)) h);
  ds_wait s t := rd_wait t;
|}.

Lemma rd_collect_content s l m : ∀ b s' k c,
  rd_collect s l m b !! (s', k) = Some c → b !! (s', k) = Some c ∨ s' = s ∧ ∃ a, (k, a) ∈ l ∧ c = read m a n.
Proof.
  induction l as [|[k a] l IH]; intros b s' k' c; cbn; [by left|]. intros [Hb|(-> & a' & Hin & ->)]%IH.
  - apply lookup_insert_Some in Hb as [[[= <- <-] <-]|[_ ?]]; [right|by left]. split; [done|]. exists a. split; [by left|done].
  - right. split; [done|]. exists a'. split; [by right|done].
Qed.

Lemma rd_deliver_out w s l : ∀ m x,
  (∀ k a, (k, a) ∈ l → ¬ within x (a, n)) → 0 ≤ n → rd_deliver w s l m x = m x.
Proof.
  induction l as [|[k a] l IH]; intros m x Hx Hn; [done|]. unfold rd_deliver in *. cbn [foldl]. rewrite IH.
  - apply write_out. unfold zlen. rewrite length_resize, Z2Nat.id by done. apply (Hx k). by left.
  - intros k' a' Hin. apply (Hx k'). by right.
  - done.
Qed.

Lemma rd_deliver_in w s l : ∀ m (i : nat) k a,
  0 ≤ n → l !! i = Some (k, a) →
  (∀ (j : nat) p, l !! j = Some p → i ≠ j → disjoint_regions (a, n) (p.2, n)) →
  read (rd_deliver w s l m) a n = resize (Z.to_nat n) 0 (default [] (rd_blocks w !! (s, k))).
Proof.
  induction l as [|[k' a'] l IH]; intros m i k a Hn Hi Hsep; [done|]. destruct i as [|i]; cbn in Hi; unfold rd_deliver; cbn [foldl].
  - injection Hi as -> ->. erewrite read_ext; [apply read_write_same|].
    + unfold zlen. rewrite length_resize. lia.
    + intros x Hx. apply (rd_deliver_out w s l); [|done]. intros k2 a2 [j Hj]%list_elem_of_lookup Hx'.
      by apply (Hsep (S j) (k2, a2) Hj ltac:(done) x).
  - apply (IH _ i); [done|done|]. intros j p Hj Hne. apply (Hsep (S j)); [done|congruence].
Qed.

Lemma rd_submit_ok tr st st' t :
  rd_submit tr st = (st', Ok t) →
  rd_tasks st.1 !! t = None ∧ rd_tasks st'.1 = <[t := tr]> (rd_tasks st.1) ∧
  evolves (λ _, n) rd_content (rd_tasks st'.1) st st'.
Proof.
  intros [= <- <-]. destruct st as [w m]. cbn. split; [|split; [done|]].
  - apply not_elem_of_dom, fresh_Z_spec.
  - split; cbn; [by left|done].
Qed.

Lemma rd_wait_evolves t st st' o :
  0 ≤ n → rd_wait t st = (st', o) →
  rd_tasks st'.1 = delete t (rd_tasks st.1) ∧ evolves (λ _, n) rd_content (rd_tasks st.1) st st'.
Proof.
  intros Hn. unfold rd_wait. destruct st as [w m]. cbn [fst].
  destruct (rd_tasks w !! t) as [[s l|s l h]|] eqn:Et; [case_bool_decide|..]; intros [= <- <-]; (split; [done|]);
    split; cbn; try done; try by left.
  - intros x Hx. apply rd_deliver_out; [|done]. intros k a. by apply (Hx t s l).
  - intros s' k c (b & [Hb|(-> & a & Hin & ->)]%rd_collect_content & ->); [left; by exists b|right].
    exists t, l, h, a. split_and!; [done|done|]. intros _. apply resize_all_alt. by rewrite length_read.
Qed.

Definition RefData_spec : 0 ≤ n → DataStoreSpec RefData (H := RefData_store).
Proof.
  intros Hn. refine {| shard_bytes := λ _, n; content := rd_content; in_flight := rd_tasks |}; cbn.
  - intros s ks _ ps _. apply rd_submit_ok.
  - intros s ks _ ps h. apply rd_submit_ok.
  - done.
  - done.
  - intros _ t st st' o. by apply rd_wait_evolves.
  - intros s t st st' l E Ht Hsep k a [i Hi]%list_elem_of_lookup. revert E. unfold rd_wait. destruct st as [w m]. cbn [fst] in *.
    rewrite Ht. case_bool_decide as Hall; [|done]. intros [= <-]. cbn. rewrite (rd_deliver_in w s l m i k a Hn Hi).
    + destruct (Forall_lookup_1 _ _ _ _ Hall Hi) as [b Hb]. cbn in Hb. exists b. by rewrite Hb.
    + intros j p Hj Hne. apply (Hsep t t s s l l i j _ _ Ht Ht Hi Hj). congruence.
Defined.
End refdata.

(** ** A torch allocator

    A new storage starts after all those in use. *)

Definition end_of (live : list region) : Z := foldr (λ r, Z.max (r.1 + r.2)) 0 live.

#[export] Instance RefTorch : Torch unit := λ live n a,
  if end_of live + n <=? 2 ^ 64 then (a, Ok (end_of live)) else (a, Raise RuntimeError).

#[export] Instance RefTorch_spec : TorchSpec unit.
Proof.
  intros live n a a' p. unfold torch_empty, RefTorch. destruct (Z.leb_spec (end_of live + n) (2 ^ 64)); [|done].
  intros [= <- <-]. assert (0 ≤ end_of live ∧ ∀ r, r ∈ live → r.1 + r.2 ≤ end_of live) as [Hp Hr].
  { clear. induction live as [|r l [IH IH']]; [split; [done|by intros r ?%elem_of_nil]|].
    change (end_of (r :: l)) with (Z.max (r.1 + r.2) (end_of l)).
    split; [lia|]. intros r' [->|Hin%IH']%elem_of_cons; lia. }
  split_and!; [done|done|]. intros r Hin x Hx Hx'. specialize (Hr r Hin). unfold within in *. cbn in *. lia.
Qed.

(** ** A concrete run

    The encoder computes an image of three rows, which is saved in two chunks, evicted
    and loaded again at another place. *)

#[export] Instance ex_data : DataStore RefData := RefData_store 4.
#[export] Instance ex_data_spec : DataStoreSpec RefData.
Proof. refine (RefData_spec 4 _). lia. Defined.

Definition ex_items : gset string := {["a"%string]}.
Definition ex_rows (id : string) : Z := 3.
Definition ex_emb (id : string) : list Z := [1; 2; 3; 4; 5; 6].

Abbreviation ex_worker := (EcWorker unit RefDevice RefData).

Definition ex_start : ex_worker := mkEcWorker [] true ∅ tt (mkRefDevice ∅) (mkRefData ∅ ∅) (λ _, 0).
Definition ex_image : EcTensor := mkEcTensor [3; 2] (mkEcDtype "torch.uint8" 1) 0 true (0, 6).
Definition ex_engine (cache : gmap string EcTensor) (m : mem) (s : ex_worker) : ex_worker :=
  mkEcWorker (ew_pending_saves s) (ew_store_open s) cache tt (ew_device s) (ew_world s) m.
Definition ex_encoded : ex_worker := ex_engine {["a"%string := ex_image]} (write (λ _, 0) 0 (ex_emb "a")) ex_start.
Definition ex_saved : ex_worker := (ec_save_caches (λ s, s) ex_ec_text ex_ec_cfg "a" ex_encoded).1.
Definition ex_waited : ex_worker := (ec_get_finished ex_ec_cfg ex_saved).1.
Definition ex_evicted : ex_worker := ex_engine ∅ (λ _, 9) ex_waited.
Definition ex_loads : list (string * ECLoadSpec) :=
  [("a"%string, mkLoadSpec 3 ["ma,3,0"%string; "ma,3,1"%string])].
Definition ex_reloaded : ex_worker := (ec_start_load_caches ex_ec_cfg (Ok (Some ex_loads)) ex_evicted).1.

Lemma ex_setting : setting (λ s, s) ex_ec_text ex_ec_cfg ex_items ex_rows ex_emb.
Proof.
  split.
  - exists (Ok 2), (mkEcDtype "torch.uint8" 1), (mkEncoderConfig None (Some (SizeInt 2))). done.
  - done.
  - intros id ->%elem_of_singleton. done.
  - intros id id' i i' ->%elem_of_singleton ->%elem_of_singleton Hi Hi' E. split; [done|].
    change (Z.of_nat i < 2) in Hi. change (Z.of_nat i' < 2) in Hi'.
    destruct i as [|[|i]], i' as [|[|i']]; try lia; revert E; vm_compute; done.
Qed.

Lemma ex_asked id spec : (id, spec) ∈ ex_loads → spec_ok (λ s, s) ex_ec_text ex_ec_cfg ex_items ex_rows id spec.
Proof.
  intros [= -> ->]%list_elem_of_singleton. split; [by apply elem_of_singleton|]. split; [done|vm_compute; reflexivity].
Qed.

Lemma ex_reach_waited : worker_reach (λ s, s) ex_ec_text ex_ec_cfg ex_items ex_rows ex_emb ex_waited.
Proof.
  apply run_finished, run_save. apply (run_engine _ _ _ _ _ _ ex_start).
  - apply run_init; try done. intros k c (b & Hb & _). cbn in Hb. by rewrite lookup_empty in Hb.
  - intros id t [<- <-]%lookup_singleton_Some. right. intros _. split; [by apply elem_of_singleton|].
    split_and!; try done.
  - by intros save r x ?%elem_of_nil.
Qed.

Lemma ex_reach_evicted : worker_reach (λ s, s) ex_ec_text ex_ec_cfg ex_items ex_rows ex_emb ex_evicted.
Proof.
  apply (run_engine _ _ _ _ _ _ ex_waited); [apply ex_reach_waited|done|].
  assert (ew_pending_saves ex_waited = []) as -> by (vm_compute; reflexivity). by intros save r x ?%elem_of_nil.
Qed.

Lemma ec_cache_coherent_witness :
  worker_reach (λ s, s) ex_ec_text ex_ec_cfg ex_items ex_rows ex_emb ex_reloaded ∧
  ∃ t, encoder_cache ex_reloaded !! "a"%string = Some t ∧ read (ew_mem ex_reloaded) (data_ptr t) 6 = ex_emb "a".
Proof.
  assert (worker_reach (λ s, s) ex_ec_text ex_ec_cfg ex_items ex_rows ex_emb ex_reloaded) as Hr.
  { apply run_load; [apply ex_reach_evicted|]. intros loads id spec [= <-]. apply ex_asked. }
  split; [exact Hr|].
  destruct (ec_cache_coherent (λ s, s) ex_ec_text ex_ec_cfg ex_items ex_rows ex_emb ex_setting ex_reloaded Hr) as [Hc _].
  destruct (encoder_cache ex_reloaded !! "a"%string) as [t|] eqn:Et; [|revert Et; vm_compute; discriminate].
  exists t. split; [done|]. apply (Hc _ _ Et). revert Et. vm_compute. intros [= <-]. reflexivity.
Defined.

Lemma ec_transfers_settle_witness :
  ew_store_open ex_evicted = true ∧
  ∃ s', ec_start_load_caches ex_ec_cfg (Ok (Some ex_loads)) ex_evicted = (s', Ok tt) ∧
    events (ew_device s') = events (ew_device ex_evicted).
Proof.
  split; [vm_compute; reflexivity|].
  destruct (ec_transfers_settle (λ s, s) ex_ec_text ex_ec_cfg ex_items ex_rows ex_emb ex_setting ex_evicted ex_loads
    ex_reach_evicted) as [(s' & o & E & _ & _ & _ & He & _) _].
  - vm_compute. reflexivity.
  - apply NoDup_singleton.
  - apply ex_asked.
  - exists s'. split; [|exact He]. rewrite E. f_equal.
    change o with ((s', o).2). rewrite <- E. vm_compute. reflexivity.
Defined.
