(* ===== verification/OffsetAllocator.v ===== *)
(** * The offset allocator of the buffer pools

    Model of src/ucm/shared/pool/detail/offset_allocator.cc, which hands out offsets of
    a region.  Its metadata are nodes in an array: all nodes of the region are linked in
    the order of their offsets, the free ones also in one of 256 bins by their size, and
    two levels of bit masks tell which bins have nodes.

    The locks make the operations atomic, so they are functions of the state.  Unsigned
    integers wrap around.  What C++ leaves undefined raises an exception of the model:
    an access outside of an array [IndexError], a shift by 32 or more bits
    [OverflowError], the bit scans of zero [ValueError]; a failed assertion raises
    [AssertionError].  Allocating the arrays is assumed to succeed. *)

From Stdlib Require Import ZArith Lia.
From stdpp Require Import base list gmap numbers list_numbers.
From S2P Require Import Prelude.
Local Open Scope Z_scope.

Definition u32 (n : Z) : Z := n mod 2 ^ 32.

Definition MANTISSA_BITS : Z := 3.
Definition MANTISSA_VALUE : Z := 8.
Definition MANTISSA_MASK : Z := 7.
Definition TOP_BINS_INDEX_SHIFT : Z := 3.
Definition LEAF_BINS_INDEX_MASK : Z := 7.
Definition NUM_TOP_BINS : Z := 32.
Definition NUM_LEAF_BINS : Z := 256.
Definition BIN_SCAN_LIMIT : nat := 8.
Definition NO_SPACE : Z := 4294967295.
(** [Node::unused] and [NO_SPACE_NODE_INDEX]; node indices have 32 bits. *)
Definition unused : Z := 4294967295.

(** ** Bits *)

(** The number of leading zeros of a positive 32-bit integer. *)
Definition clz (value : Z) : Z := 31 - Z.log2 value.

(** The index of the lowest bit that is set. *)
Definition ctz (value : Z) : Z := from_option snd 32 (list_find (λ i, Z.testbit value i = true) (seqZ 0 32)).

Definition lzcnt_nonzero (value : Z) : outcome Z := if value =? 0 then Raise ValueError else Ok (clz value).
Definition tzcnt_nonzero (value : Z) : outcome Z := if value =? 0 then Raise ValueError else Ok (ctz value).

(** [1U << k]. *)
Definition shl1 (k : Z) : outcome Z := if (0 <=? k) && (k <? 32) then Ok (Z.shiftl 1 k) else Raise OverflowError.

Definition findLowestSetBitAfter (bitMask startBitIndex : Z) : outcome Z :=
  one ← shl1 startBitIndex;
  let maskBeforeStartIndex := u32 (one - 1) in
  let bitsAfter := Z.ldiff bitMask maskBeforeStartIndex in
  if bitsAfter =? 0 then Ok NO_SPACE else tzcnt_nonzero bitsAfter.

(** ** Sizes of bins *)

Module SmallFloat.
(** The exponent and the mantissa, rounded down, of a size of at least 8. *)
Definition mantissa_start (size : Z) : Z := (31 - clz size) - MANTISSA_BITS.

Definition uintToFloatRoundUp (size : Z) : Z :=
  if size <? MANTISSA_VALUE then size
  else
    let start := mantissa_start size in
    let exponent := start + 1 in
    let mantissa := Z.land (Z.shiftr size start) MANTISSA_MASK in
    let lowBitsMask := Z.shiftl 1 start - 1 in
    let mantissa := if Z.land size lowBitsMask =? 0 then mantissa else mantissa + 1 in
    Z.shiftl exponent MANTISSA_BITS + mantissa.

Definition uintToFloatRoundDown (size : Z) : Z :=
  if size <? MANTISSA_VALUE then size
  else
    let start := mantissa_start size in
    let exponent := start + 1 in
    let mantissa := Z.land (Z.shiftr size start) MANTISSA_MASK in
    Z.lor (Z.shiftl exponent MANTISSA_BITS) mantissa.

Definition floatToUint (floatValue : Z) : Z :=
  let exponent := Z.shiftr floatValue MANTISSA_BITS in
  let mantissa := Z.land floatValue MANTISSA_MASK in
  if exponent =? 0 then mantissa
  else u32 (Z.shiftl (Z.lor mantissa MANTISSA_VALUE) (exponent - 1)).
End SmallFloat.

(** ** State *)

Record Node := mkNode {
  dataOffset : Z;
  dataSize : Z;
  binListPrev : Z;
  binListNext : Z;
  neighborPrev : Z;
  neighborNext : Z;
  used : bool;
}.

Definition Node_default : Node := mkNode 0 0 unused unused unused unused false.

Definition set_binListPrev p (n : Node) := mkNode (dataOffset n) (dataSize n) p (binListNext n) (neighborPrev n) (neighborNext n) (used n).
Definition set_binListNext p (n : Node) := mkNode (dataOffset n) (dataSize n) (binListPrev n) p (neighborPrev n) (neighborNext n) (used n).
Definition set_neighborPrev p (n : Node) := mkNode (dataOffset n) (dataSize n) (binListPrev n) (binListNext n) p (neighborNext n) (used n).
Definition set_neighborNext p (n : Node) := mkNode (dataOffset n) (dataSize n) (binListPrev n) (binListNext n) (neighborPrev n) p (used n).
Definition set_taken size (n : Node) := mkNode (dataOffset n) size (binListPrev n) (binListNext n) (neighborPrev n) (neighborNext n) true.

Record Allocation := mkAllocation { offset : Z; nodeIndex : Z }.
Definition no_allocation : Allocation := mkAllocation NO_SPACE unused.

Record Allocator := mkAllocator {
  size_ : Z;
  maxAllocs_ : Z;
  freeStorage_ : Z;
  usedBinsTop_ : Z;
  usedBins_ : gmap Z Z;
  binIndices_ : gmap Z Z;
  nodes_ : gmap Z Node;
  freeNodes_ : gmap Z Z;
  freeOffset_ : Z;
}.

Definition set_storage v (s : Allocator) :=
  mkAllocator (size_ s) (maxAllocs_ s) v (usedBinsTop_ s) (usedBins_ s) (binIndices_ s) (nodes_ s) (freeNodes_ s) (freeOffset_ s).
Definition set_top v (s : Allocator) :=
  mkAllocator (size_ s) (maxAllocs_ s) (freeStorage_ s) v (usedBins_ s) (binIndices_ s) (nodes_ s) (freeNodes_ s) (freeOffset_ s).
Definition set_used v (s : Allocator) :=
  mkAllocator (size_ s) (maxAllocs_ s) (freeStorage_ s) (usedBinsTop_ s) v (binIndices_ s) (nodes_ s) (freeNodes_ s) (freeOffset_ s).
Definition set_bins v (s : Allocator) :=
  mkAllocator (size_ s) (maxAllocs_ s) (freeStorage_ s) (usedBinsTop_ s) (usedBins_ s) v (nodes_ s) (freeNodes_ s) (freeOffset_ s).
Definition set_nodes v (s : Allocator) :=
  mkAllocator (size_ s) (maxAllocs_ s) (freeStorage_ s) (usedBinsTop_ s) (usedBins_ s) (binIndices_ s) v (freeNodes_ s) (freeOffset_ s).
Definition set_free v w (s : Allocator) :=
  mkAllocator (size_ s) (maxAllocs_ s) (freeStorage_ s) (usedBinsTop_ s) (usedBins_ s) (binIndices_ s) (nodes_ s) v w.

(** Array accesses. *)
Definition at_ {V} (a : gmap Z V) (i : Z) : outcome V :=
  match a !! i with Some v => Ok v | None => Raise IndexError end.

Definition node_at (i : Z) : M Allocator Node := s ← get_state; lift_outcome (at_ (nodes_ s) i).
Definition bin_at (b : Z) : M Allocator Z := s ← get_state; lift_outcome (at_ (binIndices_ s) b).
Definition used_at (t : Z) : M Allocator Z := s ← get_state; lift_outcome (at_ (usedBins_ s) t).
Definition free_at (i : Z) : M Allocator Z := s ← get_state; lift_outcome (at_ (freeNodes_ s) i).

Definition put_node (i : Z) (n : Node) : M Allocator unit :=
  node_at i ;; modify (λ s, set_nodes (<[i := n]> (nodes_ s)) s).
Definition upd_node (i : Z) (f : Node → Node) : M Allocator unit := n ← node_at i; put_node i (f n).
Definition put_bin (b i : Z) : M Allocator unit := bin_at b ;; modify (λ s, set_bins (<[b := i]> (binIndices_ s)) s).
Definition put_used (t v : Z) : M Allocator unit := used_at t ;; modify (λ s, set_used (<[t := v]> (usedBins_ s)) s).

(** [freeNodes_[++freeOffset_] = i]. *)
Definition push_free (i : Z) : M Allocator unit :=
  s ← get_state;
  let o := u32 (freeOffset_ s + 1) in
  free_at o ;; modify (λ s, set_free (<[o := i]> (freeNodes_ s)) o s).
(** [freeNodes_[freeOffset_--]]. *)
Definition pop_free : M Allocator Z :=
  s ← get_state;
  i ← free_at (freeOffset_ s);
  modify (λ s, set_free (freeNodes_ s) (u32 (freeOffset_ s - 1)) s) ;;
  mret i.
Definition add_storage (n : Z) : M Allocator unit := modify (λ s, set_storage (u32 (freeStorage_ s + n)) s).

Definition top_of (binIndex : Z) : Z := Z.shiftr binIndex TOP_BINS_INDEX_SHIFT.
Definition leaf_of (binIndex : Z) : Z := Z.land binIndex LEAF_BINS_INDEX_MASK.

(** ** Bins *)

(** The bits of a bin, when it becomes empty or gets its first node. *)
Definition clear_bits (binIndex : Z) : M Allocator unit :=
  let topBinIndex := top_of binIndex in
  leafBit ← lift_outcome (shl1 (leaf_of binIndex));
  bits ← used_at topBinIndex;
  put_used topBinIndex (Z.ldiff bits leafBit) ;;
  bits ← used_at topBinIndex;
  if bits =? 0 then
    topBit ← lift_outcome (shl1 topBinIndex);
    modify (λ s, set_top (Z.ldiff (usedBinsTop_ s) topBit) s)
  else mret tt.

Definition set_bits (binIndex : Z) : M Allocator unit :=
  let topBinIndex := top_of binIndex in
  leafBit ← lift_outcome (shl1 (leaf_of binIndex));
  bits ← used_at topBinIndex;
  put_used topBinIndex (Z.lor bits leafBit mod 2 ^ 8) ;;
  topBit ← lift_outcome (shl1 topBinIndex);
  modify (λ s, set_top (Z.lor (usedBinsTop_ s) topBit) s).

Definition UnlinkNodeFromBin (binIndex nodeIndex : Z) : M Allocator unit :=
  node ← node_at nodeIndex;
  (if negb (binListPrev node =? unused) then upd_node (binListPrev node) (set_binListNext (binListNext node))
   else
     first ← bin_at binIndex;
     py_assert (first =? nodeIndex) ;;
     put_bin binIndex (binListNext node)) ;;
  node ← node_at nodeIndex;
  (if negb (binListNext node =? unused) then upd_node (binListNext node) (set_binListPrev (binListPrev node))
   else mret tt) ;;
  upd_node nodeIndex (λ n, set_binListNext unused (set_binListPrev unused n)) ;;
  first ← bin_at binIndex;
  if first =? unused then clear_bits binIndex else mret tt.

Definition InsertNodeIntoBin (size dataOffset : Z) : M Allocator Z :=
  s ← get_state;
  py_assert (0 <? freeOffset_ s) ;;
  let binIndex := SmallFloat.uintToFloatRoundDown size in
  first ← bin_at binIndex;
  (if first =? unused then set_bits binIndex else mret tt) ;;
  topNodeIndex ← bin_at binIndex;
  nodeIndex ← pop_free;
  put_node nodeIndex (mkNode dataOffset size unused topNodeIndex unused unused false) ;;
  (if negb (topNodeIndex =? unused) then upd_node topNodeIndex (set_binListPrev nodeIndex) else mret tt) ;;
  put_bin binIndex nodeIndex ;;
  add_storage size ;;
  mret nodeIndex.

Definition RemoveNodeFromBin (nodeIndex : Z) : M Allocator unit :=
  node ← node_at nodeIndex;
  (if negb (binListPrev node =? unused) then
     upd_node (binListPrev node) (set_binListNext (binListNext node)) ;;
     node ← node_at nodeIndex;
     if negb (binListNext node =? unused) then upd_node (binListNext node) (set_binListPrev (binListPrev node))
     else mret tt
   else
     let binIndex := SmallFloat.uintToFloatRoundDown (dataSize node) in
     put_bin binIndex (binListNext node) ;;
     (if negb (binListNext node =? unused) then upd_node (binListNext node) (set_binListPrev unused)
      else mret tt) ;;
     first ← bin_at binIndex;
     if first =? unused then clear_bits binIndex else mret tt) ;;
  push_free nodeIndex ;;
  node ← node_at nodeIndex;
  add_storage (- dataSize node).

(** ** Allocation *)

(** The loops over at most [BIN_SCAN_LIMIT] nodes of a bin. *)
Fixpoint scan_bin (limit : nat) (fits : Z → bool) (candidateIndex : Z) : M Allocator Z :=
  match limit with
  | O => mret unused
  | S limit =>
      if candidateIndex =? unused then mret unused
      else
        node ← node_at candidateIndex;
        if fits (dataSize node) then mret candidateIndex
        else scan_bin limit fits (binListNext node)
  end.

(** The search of the bins whose nodes all fit; [None] if they have no node. *)
Definition find_bin (minBinIndex : Z) : M Allocator (option Z) :=
  let minTopBinIndex := top_of minBinIndex in
  s ← get_state;
  topBit ← lift_outcome (shl1 minTopBinIndex);
  leafBinIndex ← (if Z.land (usedBinsTop_ s) topBit =? 0 then mret NO_SPACE
                  else bits ← used_at minTopBinIndex;
                       lift_outcome (findLowestSetBitAfter bits (leaf_of minBinIndex)));
  if negb (leafBinIndex =? NO_SPACE) then
    mret (Some (Z.lor (Z.shiftl minTopBinIndex TOP_BINS_INDEX_SHIFT) leafBinIndex))
  else
    topBinIndex ← lift_outcome (findLowestSetBitAfter (usedBinsTop_ s) (minTopBinIndex + 1));
    if topBinIndex =? NO_SPACE then mret None
    else
      bits ← used_at topBinIndex;
      leafBinIndex ← lift_outcome (tzcnt_nonzero bits);
      mret (Some (Z.lor (Z.shiftl topBinIndex TOP_BINS_INDEX_SHIFT) leafBinIndex)).

(** The bin and the node to allocate from; the node is [unused] if there is none. *)
Definition find_node (size : Z) : M Allocator (Z * Z) :=
  s ← get_state;
  let lowerBinIndex := SmallFloat.uintToFloatRoundDown size in
  if freeOffset_ s =? 0 then
    first ← bin_at lowerBinIndex;
    node ← scan_bin BIN_SCAN_LIMIT (λ n, n =? size) first;
    mret (lowerBinIndex, node)
  else
    let minBinIndex := SmallFloat.uintToFloatRoundUp size in
    found ← find_bin minBinIndex;
    '(binIndex, node) ← match found with
                        | Some binIndex => node ← bin_at binIndex; mret (binIndex, node)
                        | None => mret (NO_SPACE, unused)
                        end;
    if (node =? unused) && negb (lowerBinIndex =? minBinIndex) then
      first ← bin_at lowerBinIndex;
      node ← scan_bin BIN_SCAN_LIMIT (λ n, size <=? n) first;
      mret (lowerBinIndex, node)
    else mret (binIndex, node).

(** The rest of [Allocate], from a node that was found. *)
Definition take_node (size binIndex nodeIndex : Z) : M Allocator Allocation :=
  node ← node_at nodeIndex;
  let nodeTotalSize := dataSize node in
  if nodeTotalSize <? size then mret no_allocation
  else
    let remainderSize := u32 (nodeTotalSize - size) in
    s ← get_state;
    if (0 <? remainderSize) && (freeOffset_ s =? 0) then mret no_allocation
    else
      upd_node nodeIndex (set_taken size) ;;
      UnlinkNodeFromBin binIndex nodeIndex ;;
      add_storage (- nodeTotalSize) ;;
      (if 0 <? remainderSize then
         newNodeIndex ← InsertNodeIntoBin remainderSize (u32 (dataOffset node + size));
         node ← node_at nodeIndex;
         (if negb (neighborNext node =? unused) then upd_node (neighborNext node) (set_neighborPrev newNodeIndex)
          else mret tt) ;;
         upd_node newNodeIndex (set_neighborPrev nodeIndex) ;;
         node ← node_at nodeIndex;
         upd_node newNodeIndex (set_neighborNext (neighborNext node)) ;;
         upd_node nodeIndex (set_neighborNext newNodeIndex)
       else mret tt) ;;
      node ← node_at nodeIndex;
      mret (mkAllocation (dataOffset node) nodeIndex).

Definition Allocate (size : Z) : M Allocator Allocation :=
  s ← get_state;
  if (size =? 0) || (size_ s <? size) then mret no_allocation
  else
    '(binIndex, nodeIndex) ← find_node size;
    if nodeIndex =? unused then mret no_allocation
    else take_node size binIndex nodeIndex.

(** ** Release *)

(** Merging with the free neighbour before a node: the new offset and size. *)
Definition merge_prev (nodeIndex size : Z) : M Allocator (Z * Z) :=
  node ← node_at nodeIndex;
  if neighborPrev node =? unused then mret (dataOffset node, size)
  else
    previousNode ← node_at (neighborPrev node);
    if used previousNode then mret (dataOffset node, size)
    else
      RemoveNodeFromBin (neighborPrev node) ;;
      previousNode' ← node_at (neighborPrev node);
      py_assert (neighborNext previousNode' =? nodeIndex) ;;
      upd_node nodeIndex (set_neighborPrev (neighborPrev previousNode')) ;;
      mret (dataOffset previousNode, u32 (size + dataSize previousNode)).

Definition merge_next (nodeIndex size : Z) : M Allocator Z :=
  node ← node_at nodeIndex;
  if neighborNext node =? unused then mret size
  else
    nextNode ← node_at (neighborNext node);
    if used nextNode then mret size
    else
      RemoveNodeFromBin (neighborNext node) ;;
      nextNode' ← node_at (neighborNext node);
      py_assert (neighborPrev nextNode' =? nodeIndex) ;;
      upd_node nodeIndex (set_neighborNext (neighborNext nextNode')) ;;
      mret (u32 (size + dataSize nextNode)).

Definition Free (allocation : Allocation) : M Allocator bool :=
  s ← get_state;
  if (nodeIndex allocation =? unused) || (maxAllocs_ s <=? nodeIndex allocation) then mret false
  else
    let nodeIndex := nodeIndex allocation in
    node ← node_at nodeIndex;
    if negb (used node) || negb (dataOffset node =? offset allocation) then mret false
    else
      '(dataOffset, size) ← merge_prev nodeIndex (dataSize node);
      size ← merge_next nodeIndex size;
      node ← node_at nodeIndex;
      push_free nodeIndex ;;
      combinedNodeIndex ← InsertNodeIntoBin size dataOffset;
      (if negb (neighborNext node =? unused) then
         upd_node combinedNodeIndex (set_neighborNext (neighborNext node)) ;;
         upd_node (neighborNext node) (set_neighborPrev combinedNodeIndex)
       else mret tt) ;;
      (if negb (neighborPrev node =? unused) then
         upd_node combinedNodeIndex (set_neighborPrev (neighborPrev node)) ;;
         upd_node (neighborPrev node) (set_neighborNext combinedNodeIndex)
       else mret tt) ;;
      mret true.

(** ** Construction and reports *)

Definition array {V} (n : Z) (f : Z → V) : gmap Z V := list_to_map ((λ i, (i, f i)) <$> seqZ 0 n).

Definition Reset : M Allocator unit :=
  modify (λ s, mkAllocator (size_ s) (maxAllocs_ s) 0 0 (array NUM_TOP_BINS (λ _, 0)) (array NUM_LEAF_BINS (λ _, unused))
    (array (maxAllocs_ s) (λ _, Node_default)) (array (maxAllocs_ s) (λ i, u32 (maxAllocs_ s - i - 1)))
    (u32 (maxAllocs_ s - 1))) ;;
  s ← get_state;
  InsertNodeIntoBin (size_ s) 0 ;;
  mret tt.

(** The constructor. *)
Definition Allocator_new (size maxAllocs : Z) : outcome Allocator :=
  if size =? 0 then Raise ValueError
  else if maxAllocs <? 3 then Raise ValueError
  else if unused <? maxAllocs then Raise ValueError
  else
    let '(s, o) := Reset (mkAllocator size maxAllocs 0 0 ∅ ∅ ∅ ∅ 0) in
    match o with Ok _ => Ok s | Raise e => Raise e end.

Definition GetAllocationSize (allocation : Allocation) : M Allocator Z :=
  s ← get_state;
  if (nodeIndex allocation =? unused) || (maxAllocs_ s <=? nodeIndex allocation) then mret 0
  else
    node ← node_at (nodeIndex allocation);
    mret (if negb (used node) || negb (dataOffset node =? offset allocation) then 0 else dataSize node).

(** The free storage and a lower bound of the largest free region. *)
Definition GetStorageReport : M Allocator (Z * Z) :=
  s ← get_state;
  if usedBinsTop_ s =? 0 then mret (freeStorage_ s, 0)
  else
    topZeros ← lift_outcome (lzcnt_nonzero (usedBinsTop_ s));
    let topBinIndex := 31 - topZeros in
    bits ← used_at topBinIndex;
    leafZeros ← lift_outcome (lzcnt_nonzero bits);
    let largestFreeRegion :=
      SmallFloat.floatToUint (Z.lor (Z.shiftl topBinIndex TOP_BINS_INDEX_SHIFT) (31 - leafZeros)) in
    py_assert (largestFreeRegion <=? freeStorage_ s) ;;
    mret (freeStorage_ s, largestFreeRegion).

(** The [while] loop over the nodes of a bin; [None] when the fuel does not suffice. *)
Fixpoint count_bin (fuel : nat) (nodeIndex count : Z) : M Allocator (option Z) :=
  if nodeIndex =? unused then mret (Some count)
  else
    match fuel with
    | O => mret None
    | S fuel => node ← node_at nodeIndex; count_bin fuel (binListNext node) (u32 (count + 1))
    end.

(** The regions of [GetStorageReportFull]: the sizes of the bins and their numbers of
    nodes. *)
Fixpoint report_bins (fuel : nat) (bins : list Z) : M Allocator (list (Z * option Z)) :=
  match bins with
  | [] => mret []
  | b :: rest =>
      first ← bin_at b;
      count ← count_bin fuel first 0;
      regions ← report_bins fuel rest;
      mret ((SmallFloat.floatToUint b, count) :: regions)
  end.

Definition GetStorageReportFull : M Allocator (list (Z * option Z)) :=
  s ← get_state;
  report_bins (Z.to_nat (maxAllocs_ s)) (seqZ 0 NUM_LEAF_BINS).
