(* ===== verification/AllocatorBins.v ===== *)
(** * Sizes of bins, bit masks and linked lists

    What the offset allocator relies on: rounding a size to a bin brackets the size,
    bit scans find the first bit, and the lists linked through arrays stay lists when
    elements are inserted and removed. *)

From Stdlib Require Import ZArith Lia.
From stdpp Require Import base list gmap numbers list_numbers.
From S2P Require Import Prelude.
From S2P Require Import OffsetAllocator.
Local Open Scope Z_scope.

(** ** Rounding *)

(** The smallest size of the bin [f]. *)
Definition bin_size (f : Z) : Z := if f <? 8 then f else (8 + f mod 8) * 2 ^ (f / 8 - 1).

Lemma lor_add e m : 0 ≤ m < 8 → Z.lor (Z.shiftl e 3) m = 8 * e + m.
Proof.
  intros Hm. assert (Z.land (Z.shiftl e 3) m = 0) as Hz.
  { replace m with (Z.land m (Z.ones 3)) by (rewrite Z.land_ones by lia; by apply Z.mod_small).
    rewrite (Z.land_comm m), Z.land_assoc, Z.land_ones, Z.shiftl_mul_pow2 by lia.
    change (2 ^ 3) with 8. rewrite Z.mod_mul by lia. apply Z.land_0_l. }
  rewrite <- Z.lxor_lor, <- Z.add_nocarry_lxor, Z.shiftl_mul_pow2 by done. lia.
Qed.

(** A size of at least 8 has a mantissa from 8 to 15. *)
Lemma mantissa_spec n :
  8 ≤ n → let k := SmallFloat.mantissa_start n in
  0 ≤ k ∧ 8 ≤ n / 2 ^ k < 16 ∧ n = 2 ^ k * (n / 2 ^ k) + n mod 2 ^ k ∧ 0 ≤ n mod 2 ^ k < 2 ^ k ∧ k = Z.log2 n - 3.
Proof.
  intros Hn k. assert (k = Z.log2 n - 3) as Hk by (unfold k, SmallFloat.mantissa_start, clz, MANTISSA_BITS; lia).
  destruct (Z.log2_spec n ltac:(lia)) as [Hlo Hhi]. assert (3 ≤ Z.log2 n) as H3 by (by apply (Z.log2_le_mono 8 n)).
  assert (0 < 2 ^ k) as Hp by (apply Z.pow_pos_nonneg; lia).
  assert (2 ^ Z.log2 n = 8 * 2 ^ k) as E by (replace (Z.log2 n) with (3 + k) by lia; rewrite Z.pow_add_r by lia; done).
  rewrite Z.pow_succ_r, E in * by lia. pose proof (Z.div_mod n (2 ^ k) ltac:(lia)). pose proof (Z.mod_pos_bound n (2 ^ k) Hp).
  split_and!; try lia; nia.
Qed.

Lemma round_down_eq n :
  8 ≤ n → let k := SmallFloat.mantissa_start n in SmallFloat.uintToFloatRoundDown n = 8 * k + n / 2 ^ k.
Proof.
  intros Hn k. destruct (mantissa_spec n Hn) as (Hk & Hq & _). fold k in Hk, Hq. unfold SmallFloat.uintToFloatRoundDown, MANTISSA_VALUE.
  rewrite (proj2 (Z.ltb_ge _ _)) by lia. fold k. unfold MANTISSA_MASK, MANTISSA_BITS. change 7 with (Z.ones 3).
  rewrite Z.shiftr_div_pow2, Z.land_ones by lia. change (2 ^ 3) with 8. rewrite lor_add by (apply Z.mod_pos_bound; lia).
  assert ((n / 2 ^ k) mod 8 = n / 2 ^ k - 8); [|lia]. symmetry. apply (Z.mod_unique_pos _ _ 1); lia.
Qed.

Lemma round_up_eq n :
  8 ≤ n → let k := SmallFloat.mantissa_start n in
  SmallFloat.uintToFloatRoundUp n = 8 * k + n / 2 ^ k + (if n mod 2 ^ k =? 0 then 0 else 1).
Proof.
  intros Hn k. destruct (mantissa_spec n Hn) as (Hk & Hq & _). fold k in Hk, Hq. unfold SmallFloat.uintToFloatRoundUp, MANTISSA_VALUE.
  rewrite (proj2 (Z.ltb_ge _ _)) by lia. fold k. unfold MANTISSA_MASK, MANTISSA_BITS. change 7 with (Z.ones 3).
  replace (Z.shiftl 1 k - 1) with (Z.ones k) by (by rewrite Z.ones_equiv, Z.shiftl_mul_pow2, Z.mul_1_l, Z.sub_1_r by lia).
  rewrite Z.shiftr_div_pow2, !Z.land_ones, Z.shiftl_mul_pow2 by lia. change (2 ^ 3) with 8.
  assert ((n / 2 ^ k) mod 8 = n / 2 ^ k - 8) as -> by (symmetry; apply (Z.mod_unique_pos _ _ 1); lia).
  destruct (_ =? 0); lia.
Qed.

Lemma bin_size_eq k q : 0 ≤ k → 8 ≤ q ≤ 16 → bin_size (8 * k + q) = q * 2 ^ k.
Proof.
  intros Hk Hq. unfold bin_size. rewrite (proj2 (Z.ltb_ge _ _)) by lia. destruct (decide (q = 16)) as [->|].
  - replace (8 * k + 16) with (0 + (k + 2) * 8) by lia. rewrite Z.mod_add, Z.div_add by lia. change (0 mod 8) with 0. change (0 / 8) with 0.
    replace (0 + (k + 2) - 1) with (Z.succ k) by lia. rewrite Z.pow_succ_r by lia. lia.
  - replace (8 * k + q) with (q - 8 + (k + 1) * 8) by lia. rewrite Z.mod_add, Z.div_add by lia.
    rewrite Z.mod_small, Z.div_small by lia. rewrite Z.add_0_l, Z.add_simpl_r. f_equal. lia.
Qed.

Lemma bin_size_step f : 0 ≤ f → bin_size f < bin_size (f + 1).
Proof.
  intros Hf. destruct (Z.ltb_spec f 8) as [H8|H8].
  - assert (f = 0 ∨ f = 1 ∨ f = 2 ∨ f = 3 ∨ f = 4 ∨ f = 5 ∨ f = 6 ∨ f = 7) as Hc by lia.
    destruct_or! Hc; subst; done.
  - pose proof (Z.div_mod f 8 ltac:(lia)) as Hdm. pose proof (Z.mod_pos_bound f 8 ltac:(lia)) as Hm.
    assert (1 ≤ f / 8) as Hd by (apply Z.div_le_lower_bound; lia).
    set (k := f / 8 - 1) in *. assert (f = 8 * k + (f mod 8 + 8)) as -> by lia.
    rewrite <- Z.add_assoc, !bin_size_eq by lia. assert (0 < 2 ^ k) by (apply Z.pow_pos_nonneg; lia). nia.
Qed.

Lemma bin_size_mono f g : 0 ≤ f ≤ g → bin_size f ≤ bin_size g.
Proof.
  intros [Hf Hg]. replace g with (f + Z.of_nat (Z.to_nat (g - f))) by lia.
  induction (Z.to_nat (g - f)) as [|n IH]; [rewrite Z.add_0_r; lia|].
  rewrite Nat2Z.inj_succ. pose proof (bin_size_step (f + Z.of_nat n) ltac:(lia)). 
  replace (f + Z.succ (Z.of_nat n)) with (f + Z.of_nat n + 1) by lia. lia.
Qed.

(** Rounding brackets a size. *)
Lemma round_down_bracket n :
  0 ≤ n → 0 ≤ SmallFloat.uintToFloatRoundDown n ∧
  bin_size (SmallFloat.uintToFloatRoundDown n) ≤ n < bin_size (SmallFloat.uintToFloatRoundDown n + 1).
Proof.
  intros Hn. destruct (Z.ltb_spec n 8) as [H8|H8].
  - unfold SmallFloat.uintToFloatRoundDown, MANTISSA_VALUE. rewrite (proj2 (Z.ltb_lt _ _) H8).
    assert (bin_size n = n) as E by (unfold bin_size; by rewrite (proj2 (Z.ltb_lt _ _) H8)).
    pose proof (bin_size_step n Hn). rewrite E in *. lia.
  - rewrite round_down_eq by done. destruct (mantissa_spec n H8) as (Hk & Hq & He & Hr & _).
    set (k := SmallFloat.mantissa_start n) in *. rewrite <- Z.add_assoc, !bin_size_eq by lia. lia.
Qed.

Lemma round_up_bracket n : 0 ≤ n → 0 ≤ SmallFloat.uintToFloatRoundUp n ∧ n ≤ bin_size (SmallFloat.uintToFloatRoundUp n).
Proof.
  intros Hn. destruct (Z.ltb_spec n 8) as [H8|H8].
  - unfold SmallFloat.uintToFloatRoundUp, MANTISSA_VALUE. rewrite (proj2 (Z.ltb_lt _ _) H8).
    unfold bin_size. rewrite (proj2 (Z.ltb_lt _ _) H8). lia.
  - rewrite round_up_eq by done. destruct (mantissa_spec n H8) as (Hk & Hq & He & Hr & _).
    set (k := SmallFloat.mantissa_start n) in *. destruct (Z.eqb_spec (n mod 2 ^ k) 0); rewrite <- Z.add_assoc, bin_size_eq by lia; lia.
Qed.

(** Every node of a bin from the rounded-up size on is large enough. *)
Lemma round_fits size n :
  0 ≤ size → 0 ≤ n → SmallFloat.uintToFloatRoundUp size ≤ SmallFloat.uintToFloatRoundDown n → size ≤ n.
Proof.
  intros Hs Hn Hle. destruct (round_up_bracket size Hs) as [H0 Hup]. destruct (round_down_bracket n Hn) as [_ [Hdown _]].
  pose proof (bin_size_mono _ _ (conj H0 Hle)). lia.
Qed.

Lemma round_range n :
  0 ≤ n < 2 ^ 32 → 0 ≤ SmallFloat.uintToFloatRoundDown n < 240 ∧ 0 ≤ SmallFloat.uintToFloatRoundUp n ≤ 240.
Proof.
  intros Hn. destruct (Z.ltb_spec n 8) as [H8|H8].
  - unfold SmallFloat.uintToFloatRoundDown, SmallFloat.uintToFloatRoundUp, MANTISSA_VALUE. rewrite (proj2 (Z.ltb_lt _ _) H8). lia.
  - rewrite round_down_eq, round_up_eq by done. destruct (mantissa_spec n H8) as (Hk & Hq & _ & _ & Ek).
    assert (Z.log2 n < 32) by (apply Z.log2_lt_pow2; lia).
    destruct (n mod 2 ^ SmallFloat.mantissa_start n =? 0); lia.
Qed.

(** [floatToUint] gives the size of a bin. *)
Lemma float_size f : 0 ≤ f < 240 → SmallFloat.floatToUint f = bin_size f.
Proof.
  intros Hf. assert (Forall (λ f, SmallFloat.floatToUint f = bin_size f) (seqZ 0 240)) as Hall.
  { apply (bool_decide_unpack _). vm_compute. done. }
  rewrite Forall_forall in Hall. apply Hall, elem_of_seqZ. lia.
Qed.

(** The bins grow by at most an eighth. *)
Lemma bin_ratio f n : 0 ≤ f → n < bin_size (f + 1) → 8 * (n - bin_size f) ≤ bin_size f.
Proof.
  intros Hf Hn. destruct (Z.ltb_spec f 8) as [H8|H8].
  - assert (f = 0 ∨ f = 1 ∨ f = 2 ∨ f = 3 ∨ f = 4 ∨ f = 5 ∨ f = 6 ∨ f = 7) as Hc by lia.
    assert (bin_size f = f ∧ bin_size (f + 1) = f + 1) as [? ?] by (destruct_or! Hc; subst; done). lia.
  - pose proof (Z.div_mod f 8 ltac:(lia)) as Hdm. pose proof (Z.mod_pos_bound f 8 ltac:(lia)) as Hm.
    assert (1 ≤ f / 8) as Hd by (apply Z.div_le_lower_bound; lia).
    pose proof (bin_size_eq (f / 8 - 1) (f mod 8 + 8) ltac:(lia) ltac:(lia)) as E1.
    pose proof (bin_size_eq (f / 8 - 1) (f mod 8 + 9) ltac:(lia) ltac:(lia)) as E2.
    replace (8 * (f / 8 - 1) + (f mod 8 + 8)) with f in E1 by lia. replace (8 * (f / 8 - 1) + (f mod 8 + 9)) with (f + 1) in E2 by lia.
    assert (0 < 2 ^ (f / 8 - 1)) by (apply Z.pow_pos_nonneg; lia). nia.
Qed.

Lemma round_mono m n : 0 ≤ m ≤ n → SmallFloat.uintToFloatRoundDown m ≤ SmallFloat.uintToFloatRoundDown n.
Proof.
  intros Hmn. destruct (round_down_bracket m ltac:(lia)) as [Hm0 [Hm _]]. destruct (round_down_bracket n ltac:(lia)) as [Hn0 [_ Hn]].
  destruct (decide (SmallFloat.uintToFloatRoundDown m ≤ SmallFloat.uintToFloatRoundDown n)) as [|Hgt]; [done|].
  pose proof (bin_size_mono (SmallFloat.uintToFloatRoundDown n + 1) (SmallFloat.uintToFloatRoundDown m) ltac:(lia)). lia.
Qed.

Lemma round_up_down n :
  0 ≤ n → SmallFloat.uintToFloatRoundUp n ≤ SmallFloat.uintToFloatRoundDown n + 1 ∧
  8 * (bin_size (SmallFloat.uintToFloatRoundUp n) - n) ≤ n.
Proof.
  intros Hn. destruct (Z.ltb_spec n 8) as [H8|H8].
  - unfold SmallFloat.uintToFloatRoundDown, SmallFloat.uintToFloatRoundUp, MANTISSA_VALUE. rewrite (proj2 (Z.ltb_lt _ _) H8).
    unfold bin_size. rewrite (proj2 (Z.ltb_lt _ _) H8). lia.
  - rewrite round_up_eq, round_down_eq by done. destruct (mantissa_spec n H8) as (Hk & Hq & He & Hr & _).
    set (k := SmallFloat.mantissa_start n) in *. destruct (Z.eqb_spec (n mod 2 ^ k) 0); rewrite <- Z.add_assoc, bin_size_eq by lia; nia.
Qed.

(** A size that is larger by an eighth is in a bin whose sizes all fit. *)
Lemma round_enough size n :
  0 ≤ size → 9 * size ≤ 8 * n → SmallFloat.uintToFloatRoundUp size ≤ SmallFloat.uintToFloatRoundDown n.
Proof.
  intros Hs Hn. destruct (round_down_bracket n ltac:(lia)) as [Hn0 [_ Hlt]]. destruct (round_up_down size Hs) as [_ Hup].
  destruct (decide (SmallFloat.uintToFloatRoundUp size ≤ SmallFloat.uintToFloatRoundDown n)) as [|Hgt]; [done|].
  pose proof (bin_size_mono (SmallFloat.uintToFloatRoundDown n + 1) (SmallFloat.uintToFloatRoundUp size) ltac:(lia)). lia.
Qed.

(** ** Bit scans *)

Lemma ctz_spec v i :
  0 ≤ i < 32 → Z.testbit v i = true →
  0 ≤ ctz v ≤ i ∧ Z.testbit v (ctz v) = true ∧ ∀ j, 0 ≤ j < ctz v → Z.testbit v j = false.
Proof.
  intros Hi Hb. unfold ctz. destruct (list_find (λ i, Z.testbit v i = true) (seqZ 0 32)) as [[n r]|] eqn:E.
  - apply list_find_Some in E as (Hn & Hr & Hmin). apply lookup_seqZ in Hn as [-> Hn]. cbn.
    assert (∀ j, 0 ≤ j < 0 + Z.of_nat n → Z.testbit v j = false) as Hbelow.
    { intros j Hj. apply not_true_is_false. apply (Hmin (Z.to_nat j)); [|lia]. apply lookup_seqZ. lia. }
    split_and!; [lia| |done|done]. destruct (decide (0 + Z.of_nat n ≤ i)); [done|].
    rewrite Hbelow in Hb by lia. done.
  - apply list_find_None in E. rewrite Forall_forall in E. by destruct (E i ltac:(apply elem_of_seqZ; lia)).
Qed.

Lemma zero_bits v : 0 ≤ v → (∀ i, 0 ≤ i → Z.testbit v i = false) → v = 0.
Proof. intros Hv Hb. apply Z.bits_inj'. intros i Hi. by rewrite Hb, Z.bits_0. Qed.

Lemma nonzero_bit v : 0 ≤ v < 2 ^ 32 → v ≠ 0 → ∃ i, 0 ≤ i < 32 ∧ Z.testbit v i = true.
Proof.
  intros Hv Hne. exists (Z.log2 v). split; [|apply Z.bit_log2; lia].
  split; [apply Z.log2_nonneg|apply Z.log2_lt_pow2; lia].
Qed.

Lemma testbit_high v i : 0 ≤ v < 2 ^ 32 → 32 ≤ i → Z.testbit v i = false.
Proof.
  intros Hv Hi. destruct (decide (v = 0)) as [->|]; [apply Z.bits_0|]. apply Z.bits_above_log2; [lia|].
  assert (Z.log2 v < 32) by (apply Z.log2_lt_pow2; lia). lia.
Qed.

Lemma shl1_ok k : 0 ≤ k < 32 → shl1 k = Ok (2 ^ k).
Proof.
  intros Hk. unfold shl1. rewrite (proj2 (Z.leb_le _ _)), (proj2 (Z.ltb_lt _ _)) by lia. cbn [andb].
  by rewrite Z.shiftl_mul_pow2, Z.mul_1_l by lia.
Qed.

Lemma lowest_after mask start :
  0 ≤ mask < 2 ^ 32 → 0 ≤ start < 32 →
  (findLowestSetBitAfter mask start = Ok NO_SPACE ∧ ∀ i, start ≤ i → Z.testbit mask i = false) ∨
  ∃ r, findLowestSetBitAfter mask start = Ok r ∧ start ≤ r < 32 ∧ Z.testbit mask r = true.
Proof.
  intros Hm Hs. unfold findLowestSetBitAfter. rewrite shl1_ok by done. unfold mbind, outcome_bind.
  assert (u32 (2 ^ start - 1) = Z.ones start) as Hones.
  { unfold u32. rewrite Z.mod_small; [rewrite Z.ones_equiv; lia|].
    assert (0 < 2 ^ start < 2 ^ 32) by (split; [apply Z.pow_pos_nonneg|apply Z.pow_lt_mono_r]; lia). lia. }
  rewrite Hones. set (v := Z.ldiff mask (Z.ones start)).
  assert (∀ i, 0 ≤ i → Z.testbit v i = Z.testbit mask i && (start <=? i)) as Hbit.
  { intros i Hi. unfold v. rewrite Z.ldiff_spec. f_equal. destruct (Z.leb_spec start i).
    - by rewrite Z.ones_spec_high by lia.
    - by rewrite Z.ones_spec_low by lia. }
  destruct (Z.eqb_spec v 0) as [Hz|Hz].
  - left. split; [done|]. intros i Hi. specialize (Hbit i ltac:(lia)). rewrite Hz, Z.bits_0, (proj2 (Z.leb_le _ _) Hi) in Hbit.
    by rewrite andb_true_r in Hbit.
  - right. unfold tzcnt_nonzero. rewrite (proj2 (Z.eqb_neq _ _) Hz). exists (ctz v). split; [done|].
    destruct (nonzero_bit v) as (i & Hi & Hb); [|done|].
    { assert (0 ≤ v) by (apply Z.ldiff_nonneg; by left; lia). split; [done|]. destruct (decide (v < 2 ^ 32)) as [|Hge]; [done|].
      assert (Z.testbit v (Z.log2 v) = true) as Ht by (apply Z.bit_log2; lia).
      assert (32 ≤ Z.log2 v) by (apply (Z.log2_le_mono (2 ^ 32)); lia).
      rewrite Hbit, testbit_high in Ht by lia. done. }
    destruct (ctz_spec v i Hi Hb) as (Hle & Ht & _). rewrite Hbit in Ht by lia.
    apply andb_true_iff in Ht as [Ht Hst%Z.leb_le]. split; [lia|done].
Qed.

(** The highest bit. *)
Lemma lzcnt_spec v :
  0 < v < 2 ^ 32 → ∃ z, lzcnt_nonzero v = Ok z ∧ 0 ≤ 31 - z < 32 ∧ Z.testbit v (31 - z) = true ∧
    ∀ i, 31 - z < i → Z.testbit v i = false.
Proof.
  intros Hv. exists (clz v). unfold lzcnt_nonzero. rewrite (proj2 (Z.eqb_neq _ _)) by lia. split; [done|].
  unfold clz. replace (31 - (31 - Z.log2 v)) with (Z.log2 v) by lia. split_and!.
  - apply Z.log2_nonneg.
  - apply Z.log2_lt_pow2; lia.
  - apply Z.bit_log2. lia.
  - intros i Hi. apply Z.bits_above_log2; lia.
Qed.

(** ** Lists linked through arrays *)

(** The first element of a list, or what follows it; the last one, or what precedes. *)
Definition first_or (q : Z) (l : list Z) : Z := from_option id q (head l).
Definition last_or (p : Z) (l : list Z) : Z := from_option id p (last l).

(** [l] is linked by the arrays [P] of predecessors and [N] of successors, between [p]
    and [q]. *)
Fixpoint linked (P N : gmap Z Z) (p : Z) (l : list Z) (q : Z) : Prop :=
  match l with
  | [] => True
  | x :: r => P !! x = Some p ∧ N !! x = Some (first_or q r) ∧ linked P N x r q
  end.

Lemma first_or_app q a b : first_or q (a ++ b) = first_or (first_or q b) a.
Proof. by destruct a. Qed.

Lemma last_or_app p a b : last_or p (a ++ b) = last_or (last_or p a) b.
Proof. unfold last_or. rewrite last_app. by destruct (last b). Qed.

Lemma last_or_snoc p a x : last_or p (a ++ [x]) = x.
Proof. by rewrite last_or_app. Qed.

Lemma last_or_cons p x a : last_or p (x :: a) = last_or x a.
Proof. unfold last_or. rewrite last_cons. by destruct (last a). Qed.

Lemma linked_app P N p a b q : linked P N p (a ++ b) q ↔ linked P N p a (first_or q b) ∧ linked P N (last_or p a) b q.
Proof.
  revert p. induction a as [|x a IH]; intros p; cbn; [tauto|]. rewrite IH, first_or_app, last_or_cons. tauto.
Qed.

(** Arrays that agree on the elements link the same lists. *)
Lemma linked_ext P N P' N' p l q :
  (∀ x, x ∈ l → P' !! x = P !! x) → (∀ x, x ∈ l → N' !! x = N !! x) → linked P N p l q → linked P' N' p l q.
Proof.
  revert p. induction l as [|x l IH]; intros p HP HN; [done|]. intros (H1 & H2 & H3). cbn.
  rewrite HP, HN by left. split_and!; [done|done|]. apply IH; [..|done]; intros y Hy; [apply HP|apply HN]; by right.
Qed.

(** Changing what precedes or what follows a list. *)
Lemma linked_first P N p p' x l q :
  x ∉ l → linked P N p (x :: l) q → linked (<[x := p']> P) N p' (x :: l) q.
Proof.
  intros Hx (_ & HN & Hl). cbn. rewrite lookup_insert_eq. split_and!; [done|done|]. revert Hl. apply linked_ext; [|done].
  intros y Hy. apply lookup_insert_ne. by intros ->.
Qed.

Lemma linked_last P N p l x q q' :
  x ∉ l → linked P N p (l ++ [x]) q → linked P (<[x := q']> N) p (l ++ [x]) q'.
Proof.
  intros Hx [Hl (HP & _ & _)]%linked_app. apply linked_app. split.
  - revert Hl. apply linked_ext; [done|]. intros y Hy. apply lookup_insert_ne. by intros ->.
  - cbn. by rewrite lookup_insert_eq.
Qed.

(** Replacing a part of a linked list: the elements around it keep their links, except
    the two that border on the part. *)
Lemma linked_splice P N P' N' u v a mid mid' c :
  linked P N u (a ++ mid ++ c) v →
  linked P' N' (last_or u a) mid' (first_or v c) →
  (∀ x, x ∈ a → P' !! x = P !! x) → (∀ x, x ∈ c → N' !! x = N !! x) →
  (∀ a0 z, a = a0 ++ [z] → N' !! z = Some (first_or v (mid' ++ c)) ∧ ∀ x, x ∈ a0 → N' !! x = N !! x) →
  (∀ z c0, c = z :: c0 → P' !! z = Some (last_or u (a ++ mid')) ∧ ∀ x, x ∈ c0 → P' !! x = P !! x) →
  linked P' N' u (a ++ mid' ++ c) v.
Proof.
  rewrite !linked_app. intros (Ha & _ & Hc) Hmid HPa HNc Hlast Hfirst. split_and!; [|done|].
  - destruct a as [|z a0 _] using rev_ind; [done|]. destruct (Hlast a0 z eq_refl) as [Hz HN].
    apply linked_app in Ha as [Ha0 (HP & _ & _)]. apply linked_app. split.
    + revert Ha0. apply linked_ext; [|done]. intros x Hx. apply HPa, elem_of_app. by left.
    + cbn. split; [|done]. rewrite HPa; [done|]. apply elem_of_app. right. by left.
  - destruct c as [|z c0]; [done|]. destruct (Hfirst z c0 eq_refl) as [Hz HP]. destruct Hc as (_ & HN & Hc0). cbn.
    rewrite Hz, HNc, <- last_or_app by left. split_and!; [done|done|]. revert Hc0. apply linked_ext; [done|].
    intros x Hx. apply HNc. by right.
Qed.

(** ** Masks of the bins with nodes *)

(** [E] tells which bins have nodes. *)
Definition bits_ok (U : gmap Z Z) (top : Z) (E : Z → bool) : Prop :=
  (∀ t, 0 ≤ t < 32 → ∃ v, U !! t = Some v ∧ 0 ≤ v < 2 ^ 8 ∧ (∀ j, 0 ≤ j < 8 → Z.testbit v j = E (8 * t + j)) ∧
     Z.testbit top t = negb (v =? 0)) ∧
  0 ≤ top < 2 ^ 32 ∧ (∀ t, is_Some (U !! t) → 0 ≤ t < 32).

Definition upd_bin {V} (b : Z) (v : V) (f : Z → V) : Z → V := λ b', if b' =? b then v else f b'.

Lemma upd_bin_eq {V} b (v : V) f : upd_bin b v f b = v.
Proof. unfold upd_bin. by rewrite Z.eqb_refl. Qed.
Lemma upd_bin_ne {V} b b' (v : V) f : b' ≠ b → upd_bin b v f b' = f b'.
Proof. intros Hne. unfold upd_bin. by rewrite (proj2 (Z.eqb_neq _ _) Hne). Qed.

Lemma bin_parts b : 0 ≤ b < 256 → b = 8 * top_of b + leaf_of b ∧ 0 ≤ top_of b < 32 ∧ 0 ≤ leaf_of b < 8.
Proof.
  intros Hb. unfold top_of, leaf_of, TOP_BINS_INDEX_SHIFT, LEAF_BINS_INDEX_MASK. change 7 with (Z.ones 3).
  rewrite Z.shiftr_div_pow2, Z.land_ones by lia. change (2 ^ 3) with 8.
  pose proof (Z.div_mod b 8 ltac:(lia)). pose proof (Z.mod_pos_bound b 8 ltac:(lia)).
  split_and!; lia.
Qed.

(** Changing one bit of a mask, and the bit of the mask above it. *)
Lemma bits_update U top E b v v' top' e :
  bits_ok U top E → 0 ≤ b < 256 → U !! top_of b = Some v →
  0 ≤ v' < 2 ^ 8 → (∀ j, 0 ≤ j < 8 → Z.testbit v' j = if j =? leaf_of b then e else Z.testbit v j) →
  0 ≤ top' < 2 ^ 32 →
  (∀ t, 0 ≤ t < 32 → Z.testbit top' t = if t =? top_of b then negb (v' =? 0) else Z.testbit top t) →
  bits_ok (<[top_of b := v']> U) top' (upd_bin b e E).
Proof.
  intros (HU & Htop & Hdom) Hb Hv Hv' Hbit Htop' Hbit'. destruct (bin_parts b Hb) as (Eb & Ht & Hl).
  split_and!; [|lia|lia|].
  - intros t Hrt. rewrite Hbit' by done. destruct (Z.eqb_spec t (top_of b)) as [->|Hne].
    + exists v'. rewrite lookup_insert_eq. split_and!; [done|lia|lia| |done]. intros j Hj. rewrite Hbit by done.
      destruct (HU _ Ht) as (v0 & Hv0 & _ & Hold & _). simplify_eq. destruct (Z.eqb_spec j (leaf_of b)) as [->|Hnj].
      * by rewrite <- Eb, upd_bin_eq.
      * rewrite upd_bin_ne by lia. by apply Hold.
    + destruct (HU t Hrt) as (v0 & Hv0 & Hr & Hold & Hn). exists v0. rewrite lookup_insert_ne by done.
      split_and!; [done|lia|lia| |done]. intros j Hj. rewrite upd_bin_ne by lia. by apply Hold.
  - intros t [x Hx]. destruct (decide (t = top_of b)) as [->|Hne]; [done|].
    rewrite lookup_insert_ne in Hx by done. apply Hdom. by exists x.
Qed.

Lemma ldiff_pow2 v k j : 0 ≤ k → Z.testbit (Z.ldiff v (2 ^ k)) j = if j =? k then false else Z.testbit v j.
Proof.
  intros Hk. rewrite Z.ldiff_spec, Z.pow2_bits_eqb by done. rewrite (Z.eqb_sym k j).
  destruct (Z.eqb_spec j k); [apply andb_false_r|by rewrite andb_true_r].
Qed.

Lemma lor_pow2 v k j : 0 ≤ k → Z.testbit (Z.lor v (2 ^ k)) j = if j =? k then true else Z.testbit v j.
Proof.
  intros Hk. rewrite Z.lor_spec, Z.pow2_bits_eqb by done. rewrite (Z.eqb_sym k j).
  destruct (Z.eqb_spec j k); [apply orb_true_r|by rewrite orb_false_r].
Qed.

(** A number whose bits are below [n] is below [2 ^ n]. *)
Lemma bits_below v n : 0 ≤ v → 0 ≤ n → (∀ j, n ≤ j → Z.testbit v j = false) → v < 2 ^ n.
Proof.
  intros Hv Hn Hb. destruct (decide (v = 0)) as [->|Hne]; [by apply Z.pow_pos_nonneg|].
  apply Z.log2_lt_pow2; [lia|]. destruct (decide (Z.log2 v < n)) as [|Hge]; [done|].
  specialize (Hb (Z.log2 v) ltac:(lia)). rewrite Z.bit_log2 in Hb by lia. done.
Qed.

Lemma bits_above v n j : 0 ≤ v < 2 ^ n → n ≤ j → Z.testbit v j = false.
Proof.
  intros Hv Hj. destruct (decide (v = 0)) as [->|Hne]; [apply Z.bits_0|]. apply Z.bits_above_log2; [lia|].
  assert (Z.log2 v < n) by (apply Z.log2_lt_pow2; lia). lia.
Qed.

Lemma ldiff_range v k n : 0 ≤ v < 2 ^ n → 0 ≤ k → 0 ≤ n → 0 ≤ Z.ldiff v (2 ^ k) < 2 ^ n.
Proof.
  intros Hv Hk Hn. assert (0 ≤ Z.ldiff v (2 ^ k)) as H0 by (apply Z.ldiff_nonneg; left; lia). split; [done|].
  apply bits_below; [done|done|]. intros j Hj. rewrite ldiff_pow2 by done. destruct (j =? k); [done|]. by apply (bits_above v n).
Qed.

Lemma lor_range v k n : 0 ≤ v < 2 ^ n → 0 ≤ k < n → 0 ≤ Z.lor v (2 ^ k) < 2 ^ n.
Proof.
  intros Hv Hk. assert (0 ≤ Z.lor v (2 ^ k)) as H0 by (apply Z.lor_nonneg; split; [lia|apply Z.pow_nonneg; lia]). split; [done|].
  apply bits_below; [done|lia|]. intros j Hj. rewrite lor_pow2 by lia. destruct (Z.eqb_spec j k); [lia|]. by apply (bits_above v n).
Qed.

Lemma used_at_ok s t v : usedBins_ s !! t = Some v → used_at t s = (s, Ok v).
Proof. intros Hv. unfold used_at, mbind, M_bind, get_state, lift_outcome, at_. by rewrite Hv. Qed.

Lemma put_used_ok s t v v' : usedBins_ s !! t = Some v → put_used t v' s = (set_used (<[t := v']> (usedBins_ s)) s, Ok tt).
Proof. intros Hv. unfold put_used. by erewrite bind_ok; [|by apply used_at_ok]. Qed.

Lemma clear_bits_spec s E b :
  bits_ok (usedBins_ s) (usedBinsTop_ s) E → 0 ≤ b < 256 →
  ∃ U top, clear_bits b s = (set_top top (set_used U s), Ok tt) ∧ bits_ok U top (upd_bin b false E).
Proof.
  intros Hok Hb. destruct (bin_parts b Hb) as (Eb & Ht & Hl). pose proof Hok as (HU & Htop & _).
  destruct (HU _ Ht) as (v & Hv & Hrv & Hold & Hbit). unfold clear_bits. rewrite !shl1_ok by lia.
  erewrite bind_ok; [|reflexivity]. erewrite bind_ok; [|by apply used_at_ok]. erewrite bind_ok; [|by eapply put_used_ok].
  set (v' := Z.ldiff v (2 ^ leaf_of b)). set (U := <[top_of b := v']> (usedBins_ s)).
  erewrite bind_ok; [|apply (used_at_ok (set_used U s)); apply lookup_insert_eq].
  assert (0 ≤ v' < 2 ^ 8) as Hrv' by (apply ldiff_range; lia).
  assert (∀ j, 0 ≤ j < 8 → Z.testbit v' j = if j =? leaf_of b then false else Z.testbit v j) as Hb'
    by (intros j Hj; apply ldiff_pow2; lia).
  destruct (Z.eqb_spec v' 0) as [Hz|Hz].
  - exists U, (Z.ldiff (usedBinsTop_ s) (2 ^ top_of b)). split; [by destruct s|].
    eapply bits_update; try done; [apply ldiff_range; lia|]. intros t Hrt. rewrite ldiff_pow2, Hz by lia. done.
  - exists U, (usedBinsTop_ s). split; [by destruct s|]. eapply bits_update; try done; [].
    intros t Hrt. rewrite (proj2 (Z.eqb_neq _ _) Hz). destruct (Z.eqb_spec t (top_of b)) as [->|]; [|done].
    rewrite Hbit. destruct (Z.eqb_spec v 0) as [->|]; [|done]. unfold v' in Hz. by rewrite Z.ldiff_0_l in Hz.
Qed.

Lemma set_bits_spec s E b :
  bits_ok (usedBins_ s) (usedBinsTop_ s) E → 0 ≤ b < 256 →
  ∃ U top, set_bits b s = (set_top top (set_used U s), Ok tt) ∧ bits_ok U top (upd_bin b true E).
Proof.
  intros Hok Hb. destruct (bin_parts b Hb) as (Eb & Ht & Hl). pose proof Hok as (HU & Htop & _).
  destruct (HU _ Ht) as (v & Hv & Hrv & Hold & Hbit). unfold set_bits. rewrite !shl1_ok by lia.
  erewrite bind_ok; [|reflexivity]. erewrite bind_ok; [|by apply used_at_ok]. erewrite bind_ok; [|by eapply put_used_ok].
  assert (0 ≤ Z.lor v (2 ^ leaf_of b) < 2 ^ 8) as Hrv' by (apply lor_range; lia). rewrite (Z.mod_small _ _ Hrv').
  set (v' := Z.lor v (2 ^ leaf_of b)) in *. erewrite bind_ok; [|reflexivity].
  exists (<[top_of b := v']> (usedBins_ s)), (Z.lor (usedBinsTop_ s) (2 ^ top_of b)). split; [by destruct s|].
  eapply bits_update; try done.
  - intros j Hj. apply lor_pow2. lia.
  - apply lor_range; lia.
  - intros t Hrt. rewrite lor_pow2 by lia. destruct (Z.eqb_spec t (top_of b)); [|done].
    destruct (Z.eqb_spec v' 0) as [Hz|]; [|done]. exfalso. assert (Z.testbit v' (leaf_of b) = true) as Hbt.
    { unfold v'. rewrite lor_pow2, Z.eqb_refl by lia. done. }
    rewrite Hz, Z.bits_0 in Hbt. done.
Qed.

Lemma land_pow2 v k : 0 ≤ k → (Z.land v (2 ^ k) =? 0) = negb (Z.testbit v k).
Proof.
  intros Hk. destruct (Z.testbit v k) eqn:E; cbn.
  - apply Z.eqb_neq. intros Hz. assert (Z.testbit (Z.land v (2 ^ k)) k = false) as Hb by (by rewrite Hz, Z.bits_0).
    rewrite Z.land_spec, E, Z.pow2_bits_true in Hb by done. done.
  - apply Z.eqb_eq, Z.bits_inj'. intros j Hj. rewrite Z.land_spec, Z.bits_0, Z.pow2_bits_eqb by done.
    destruct (Z.eqb_spec k j) as [<-|]; [by rewrite E|apply andb_false_r].
Qed.

(** A mask that is zero has no bin with nodes; one that is not has one. *)
Lemma mask_zero U top E t j :
  bits_ok U top E → 0 ≤ t < 32 → 0 ≤ j < 8 → Z.testbit top t = false → E (8 * t + j) = false.
Proof.
  intros (HU & _) Ht Hj Hb. destruct (HU t Ht) as (v & _ & _ & Hold & Hbit). rewrite Hb in Hbit.
  apply eq_sym, negb_false_iff, Z.eqb_eq in Hbit. by rewrite <- Hold, Hbit, Z.bits_0.
Qed.

Lemma mask_bit v j : 0 ≤ v < 2 ^ 8 → Z.testbit v j = true → j < 8.
Proof. intros Hv Hb. destruct (decide (j < 8)); [done|]. rewrite (bits_above v 8) in Hb by lia. done. Qed.

Lemma find_bin_spec s E b :
  bits_ok (usedBins_ s) (usedBinsTop_ s) E → 0 ≤ b < 248 →
  ∃ r, find_bin b s = (s, Ok r) ∧
    match r with
    | None => ∀ b', b ≤ b' < 256 → E b' = false
    | Some b' => b ≤ b' < 256 ∧ E b' = true
    end.
Proof.
  intros Hok Hb. destruct (bin_parts b ltac:(lia)) as (Eb & Ht & Hl). pose proof Hok as (HU & Htop & _).
  destruct (HU _ Ht) as (v & Hv & Hrv & Hold & Hbit). unfold find_bin.
  unfold mbind at 1, M_bind at 1, get_state. rewrite shl1_ok by done. erewrite bind_ok; [|reflexivity].
  rewrite land_pow2 by lia.
  assert (∃ r, (if negb (Z.testbit (usedBinsTop_ s) (top_of b)) then mret NO_SPACE
     else bits ← used_at (top_of b); lift_outcome (findLowestSetBitAfter bits (leaf_of b))) s = (s, Ok r) ∧
     (r = NO_SPACE ∧ (∀ j, leaf_of b ≤ j < 8 → E (8 * top_of b + j) = false) ∨
      leaf_of b ≤ r < 8 ∧ E (8 * top_of b + r) = true)) as (r & Er & Hr).
  { destruct (Z.testbit (usedBinsTop_ s) (top_of b)) eqn:Etop; cbn [negb].
    - erewrite bind_ok; [|by apply used_at_ok]. destruct (lowest_after v (leaf_of b)) as [[-> Hno]|(r & -> & Hr & Hbr)]; [lia|lia|..].
      + exists NO_SPACE. split; [done|]. left. split; [done|]. intros j Hj. rewrite <- Hold by lia. apply Hno. lia.
      + exists r. split; [done|]. right. pose proof (mask_bit v r Hrv Hbr). split; [lia|]. rewrite <- Hold by lia. done.
    - exists NO_SPACE. split; [done|]. left. split; [done|]. intros j Hj. eapply mask_zero; [done|lia|lia|done]. }
  erewrite bind_ok; [|exact Er]. destruct Hr as [[-> Hno]|[Hr HE]].
  2:{ rewrite (proj2 (Z.eqb_neq r NO_SPACE)) by (unfold NO_SPACE; lia). cbn [negb]. eexists. split; [reflexivity|].
      unfold TOP_BINS_INDEX_SHIFT. rewrite lor_add by lia. split; [lia|done]. }
  rewrite Z.eqb_refl. cbn [negb].
  destruct (lowest_after (usedBinsTop_ s) (top_of b + 1)) as [[-> Hnt]|(t & -> & Hrt & Hbt)]; [lia|lia|..].
  - erewrite bind_ok; [|reflexivity]. rewrite Z.eqb_refl. exists None. split; [done|]. intros b' Hb'.
    destruct (bin_parts b' ltac:(lia)) as (Eb' & Ht' & Hl'). rewrite Eb'. destruct (decide (top_of b' = top_of b)) as [Et|Hne].
    + rewrite Et in *. apply Hno. lia.
    + eapply mask_zero; [done|done|done|]. apply Hnt. lia.
  - erewrite bind_ok; [|reflexivity]. rewrite (proj2 (Z.eqb_neq t NO_SPACE)) by (unfold NO_SPACE; lia).
    destruct (HU t ltac:(lia)) as (v' & Hv' & Hrv' & Hold' & Hbit'). rewrite Hbt in Hbit'.
    erewrite bind_ok; [|by apply used_at_ok]. apply eq_sym, negb_true_iff in Hbit'. unfold tzcnt_nonzero. rewrite Hbit'.
    apply Z.eqb_neq in Hbit'. erewrite bind_ok; [|reflexivity]. eexists. split; [reflexivity|].
    destruct (nonzero_bit v') as (i & Hi & Hbi); [lia|done|]. destruct (ctz_spec v' i Hi Hbi) as (Hc & Hbc & _).
    pose proof (mask_bit v' _ Hrv' Hbc). unfold TOP_BINS_INDEX_SHIFT. rewrite lor_add by lia. split; [lia|].
    rewrite <- Hold' by lia. done.
Qed.

(** The highest bin with nodes. *)
Lemma highest_bin U top E :
  bits_ok U top E → top ≠ 0 →
  ∃ tz v lz, lzcnt_nonzero top = Ok tz ∧ U !! (31 - tz) = Some v ∧ lzcnt_nonzero v = Ok lz ∧
    let b := Z.lor (Z.shiftl (31 - tz) TOP_BINS_INDEX_SHIFT) (31 - lz) in
    0 ≤ b < 256 ∧ E b = true ∧ ∀ b', b < b' < 256 → E b' = false.
Proof.
  intros Hok Hne. pose proof Hok as (HU & Htop & _).
  destruct (lzcnt_spec top ltac:(lia)) as (tz & Etz & Hrt & Hbt & Habove).
  destruct (HU _ Hrt) as (v & Hv & Hrv & Hold & Hbit). rewrite Hbt in Hbit. apply eq_sym, negb_true_iff, Z.eqb_neq in Hbit.
  destruct (lzcnt_spec v ltac:(lia)) as (lz & Elz & Hrl & Hbl & Habl). exists tz, v, lz. split_and!; [done|done|done|].
  pose proof (mask_bit v _ Hrv Hbl). cbv zeta. unfold TOP_BINS_INDEX_SHIFT. rewrite lor_add by lia. split_and!; [lia|lia| |].
  - rewrite <- Hold by lia. done.
  - intros b' Hb'. destruct (bin_parts b' ltac:(lia)) as (Eb' & Ht' & Hl'). rewrite Eb'.
    destruct (decide (top_of b' = 31 - tz)) as [Et|Hnt].
    + rewrite Et in *. rewrite <- Hold by lia. apply Habl. lia.
    + eapply mask_zero; [done|done|done|]. apply Habove. lia.
Qed.
