(* ===== verification/AllocatorLists.v ===== *)
(** * The bins of the offset allocator

    The operations of the allocator that link nodes into bins and unlink them keep the
    bins well formed, whatever the rest of the state is. *)

From Stdlib Require Import ZArith Lia.
From stdpp Require Import base list gmap numbers list_numbers.
From S2P Require Import Prelude.
From S2P Require Import OffsetAllocator.
From S2P Require Import AllocatorBins.
Local Open Scope Z_scope.

(** What a node has besides its place in a bin. *)
Record Core := mkCore { c_off : Z; c_size : Z; c_prev : Z; c_next : Z; c_used : bool }.

Definition core (n : Node) : Core := mkCore (dataOffset n) (dataSize n) (neighborPrev n) (neighborNext n) (used n).
Definition cores (s : Allocator) : gmap Z Core := core <$> nodes_ s.

(** The lists [L] are the bins. *)
Record bins_ok (s : Allocator) (L : Z → list Z) : Prop := {
  bk_bits : bits_ok (usedBins_ s) (usedBinsTop_ s) (λ b, negb (bool_decide (L b = [])));
  bk_linked b : 0 ≤ b < 256 → linked (binListPrev <$> nodes_ s) (binListNext <$> nodes_ s) unused (L b) unused;
  bk_nodup b : NoDup (L b);
  bk_head b : 0 ≤ b < 256 → binIndices_ s !! b = Some (first_or unused (L b));
  bk_disj b b' x : x ∈ L b → x ∈ L b' → b = b';
  bk_valid b x : x ∈ L b → x ≠ unused;
}.

(** Everything but the bins, the nodes and the free storage. *)
Definition same_rest (s s' : Allocator) : Prop :=
  size_ s' = size_ s ∧ maxAllocs_ s' = maxAllocs_ s ∧ freeNodes_ s' = freeNodes_ s ∧ freeOffset_ s' = freeOffset_ s.

(** ** Array accesses *)

Lemma node_at_ok s i n : nodes_ s !! i = Some n → node_at i s = (s, Ok n).
Proof. intros Hn. unfold node_at, mbind, M_bind, get_state, lift_outcome, at_. by rewrite Hn. Qed.

Lemma bin_at_ok s b i : binIndices_ s !! b = Some i → bin_at b s = (s, Ok i).
Proof. intros Hb. unfold bin_at, mbind, M_bind, get_state, lift_outcome, at_. by rewrite Hb. Qed.

Lemma free_at_ok s i x : freeNodes_ s !! i = Some x → free_at i s = (s, Ok x).
Proof. intros Hx. unfold free_at, mbind, M_bind, get_state, lift_outcome, at_. by rewrite Hx. Qed.

Lemma put_bin_ok s b i i' : binIndices_ s !! b = Some i → put_bin b i' s = (set_bins (<[b := i']> (binIndices_ s)) s, Ok tt).
Proof. intros Hb. unfold put_bin. by erewrite bind_ok; [|by apply bin_at_ok]. Qed.

Lemma put_node_ok s i n n' : nodes_ s !! i = Some n → put_node i n' s = (set_nodes (<[i := n']> (nodes_ s)) s, Ok tt).
Proof. intros Hn. unfold put_node. by erewrite bind_ok; [|by apply node_at_ok]. Qed.

Lemma upd_node_ok s i f : is_Some (nodes_ s !! i) → upd_node i f s = (set_nodes (alter f i (nodes_ s)) s, Ok tt).
Proof.
  intros [n Hn]. unfold upd_node. erewrite bind_ok; [|by apply node_at_ok]. erewrite put_node_ok by done.
  do 2 f_equal. apply map_eq. intros j. destruct (decide (j = i)) as [->|Hne].
  - by rewrite lookup_insert_eq, lookup_alter_eq, Hn.
  - by rewrite lookup_insert_ne, lookup_alter_ne.
Qed.

(** An update that is skipped for [unused]. *)
Definition alter_opt (f : Node → Node) (i : Z) (m : gmap Z Node) : gmap Z Node :=
  if i =? unused then m else alter f i m.

Lemma upd_opt_ok s i f :
  (i ≠ unused → is_Some (nodes_ s !! i)) →
  (if negb (i =? unused) then upd_node i f else mret tt) s = (set_nodes (alter_opt f i (nodes_ s)) s, Ok tt).
Proof.
  intros Hi. unfold alter_opt. destruct (Z.eqb_spec i unused); cbn [negb]; [by destruct s|]. apply upd_node_ok. by apply Hi.
Qed.

(** What an update does not touch stays. *)
Lemma fmap_alter_same {V} (g : Node → V) f i (m : gmap Z Node) : (∀ n, g (f n) = g n) → g <$> alter f i m = g <$> m.
Proof.
  intros Hg. apply map_eq. intros j. rewrite !lookup_fmap. destruct (decide (j = i)) as [->|Hne].
  - rewrite lookup_alter_eq. destruct (m !! i); cbn; [by rewrite Hg|done].
  - by rewrite lookup_alter_ne.
Qed.

Lemma fmap_alter_opt_same {V} (g : Node → V) f i (m : gmap Z Node) : (∀ n, g (f n) = g n) → g <$> alter_opt f i m = g <$> m.
Proof. intros Hg. unfold alter_opt. destruct (i =? unused); [done|]. by apply fmap_alter_same. Qed.

Lemma lookup_alter_opt_ne f i j (m : gmap Z Node) : j ≠ i → alter_opt f i m !! j = m !! j.
Proof. intros Hne. unfold alter_opt. destruct (i =? unused); [done|]. by apply lookup_alter_ne. Qed.

Lemma alter_opt_is_Some f i j (m : gmap Z Node) : is_Some (alter_opt f i m !! j) ↔ is_Some (m !! j).
Proof. unfold alter_opt. destruct (i =? unused); [done|]. apply lookup_alter_is_Some. Qed.

(** A field written by an update. *)
Lemma fmap_alter_opt_eq {V} (g : Node → V) f i (m : gmap Z Node) v :
  i ≠ unused → is_Some (m !! i) → (∀ n, g (f n) = v) → (g <$> alter_opt f i m) !! i = Some v.
Proof.
  intros Hi [n Hn] Hg. unfold alter_opt. rewrite (proj2 (Z.eqb_neq _ _) Hi), lookup_fmap, lookup_alter_eq, Hn. cbn. by rewrite Hg.
Qed.

Lemma linked_is_Some P N p l q x : linked P N p l q → x ∈ l → is_Some (P !! x).
Proof.
  revert p. induction l as [|y l IH]; intros p Hl Hx; [by apply elem_of_nil in Hx|]. destruct Hl as (HP & _ & Hl).
  apply elem_of_cons in Hx as [->|Hx]; [by eexists|by apply (IH y)].
Qed.

(** The nodes of the bins exist. *)
Lemma bin_node s L b x : bins_ok s L → 0 ≤ b < 256 → x ∈ L b → is_Some (nodes_ s !! x).
Proof.
  intros Hs Hb Hx. pose proof (linked_is_Some _ _ _ _ _ _ (bk_linked _ _ Hs b Hb) Hx) as [p Hp].
  rewrite lookup_fmap in Hp. by destruct (nodes_ s !! x).
Qed.

Lemma bits_ext U top E E' : (∀ b, 0 ≤ b < 256 → E' b = E b) → bits_ok U top E → bits_ok U top E'.
Proof.
  intros HE (HU & Ht & Hd). split; [|done]. intros t Hrt. destruct (HU t Hrt) as (v & Hv & Hr & Hold & Hb).
  exists v. split_and!; [done|lia|lia| |done]. intros j Hj. rewrite Hold, HE by lia. done.
Qed.

(** The stack of spare nodes. *)
Lemma push_free_ok s i :
  0 ≤ freeOffset_ s < 2 ^ 32 - 1 → is_Some (freeNodes_ s !! (freeOffset_ s + 1)) →
  push_free i s = (set_free (<[freeOffset_ s + 1 := i]> (freeNodes_ s)) (freeOffset_ s + 1) s, Ok tt).
Proof.
  intros Hr [x Hx]. unfold push_free. unfold mbind at 1, M_bind at 1, get_state.
  assert (u32 (freeOffset_ s + 1) = freeOffset_ s + 1) as -> by (apply Z.mod_small; lia).
  by erewrite bind_ok; [|by apply free_at_ok].
Qed.

Lemma pop_free_ok s x :
  0 < freeOffset_ s < 2 ^ 32 → freeNodes_ s !! freeOffset_ s = Some x →
  pop_free s = (set_free (freeNodes_ s) (freeOffset_ s - 1) s, Ok x).
Proof.
  intros Hr Hx. unfold pop_free. unfold mbind at 1, M_bind at 1, get_state. erewrite bind_ok; [|by apply free_at_ok].
  unfold mbind, M_bind, modify. assert (u32 (freeOffset_ s - 1) = freeOffset_ s - 1) as -> by (apply Z.mod_small; lia). done.
Qed.

(** ** Changing one bin *)

Definition nonempty (l : list Z) : bool := negb (bool_decide (l = [])).

Lemma rebin s s' L b l' :
  bins_ok s L → 0 ≤ b < 256 →
  linked (binListPrev <$> nodes_ s') (binListNext <$> nodes_ s') unused l' unused → NoDup l' →
  (∀ x, x ∈ l' → x ∈ L b ∨ x ≠ unused ∧ ∀ b', x ∉ L b') →
  binIndices_ s' = <[b := first_or unused l']> (binIndices_ s) →
  (∀ x b', b' ≠ b → x ∈ L b' → (binListPrev <$> nodes_ s') !! x = (binListPrev <$> nodes_ s) !! x ∧
     (binListNext <$> nodes_ s') !! x = (binListNext <$> nodes_ s) !! x) →
  bits_ok (usedBins_ s') (usedBinsTop_ s') (upd_bin b (nonempty l') (λ b, nonempty (L b))) →
  bins_ok s' (upd_bin b l' L).
Proof.
  intros Hs Hb Hl Hnd Hel HB Hother Hbits. split.
  - revert Hbits. apply bits_ext. intros b' Hb'. unfold upd_bin. by destruct (b' =? b).
  - intros b' Hb'. destruct (decide (b' = b)) as [->|Hne]; [by rewrite upd_bin_eq|]. rewrite upd_bin_ne by done.
    pose proof (bk_linked _ _ Hs b' Hb') as Hl'. revert Hl'. apply linked_ext; intros x Hx; by apply (Hother x b').
  - intros b'. destruct (decide (b' = b)) as [->|Hne]; [by rewrite upd_bin_eq|]. rewrite upd_bin_ne by done. apply Hs.
  - intros b' Hb'. rewrite HB. destruct (decide (b' = b)) as [->|Hne]; [by rewrite upd_bin_eq, lookup_insert_eq|].
    rewrite upd_bin_ne, lookup_insert_ne by done. by apply Hs.
  - assert (∀ x b', x ∈ l' → x ∈ L b' → b = b') as Hcross.
    { intros x b' Hx Hx'. destruct (Hel x Hx) as [Hold|[_ Hn]]; [by eapply (bk_disj _ _ Hs)|by destruct (Hn b')]. }
    intros b1 b2 x. destruct (decide (b1 = b)) as [->|H1], (decide (b2 = b)) as [->|H2];
      rewrite ?upd_bin_eq, ?upd_bin_ne by done; intros Hx1 Hx2; try done.
    + by apply (Hcross x).
    + symmetry. by apply (Hcross x).
    + by eapply (bk_disj _ _ Hs).
  - intros b' x. destruct (decide (b' = b)) as [->|Hne]; rewrite ?upd_bin_eq, ?upd_bin_ne by done; [|apply Hs].
    intros Hx. destruct (Hel x Hx) as [Hold|[? _]]; [by apply (bk_valid _ _ Hs b)|done].
Qed.

Lemma linked_at P N p a x b q :
  linked P N p (a ++ x :: b) q → P !! x = Some (last_or p a) ∧ N !! x = Some (first_or q b).
Proof. rewrite linked_app. by intros (_ & ? & ? & _). Qed.

Lemma last_or_elem p l : l ≠ [] → last_or p l ∈ l.
Proof.
  destruct l as [|x l _] using rev_ind; [done|]. intros _. rewrite last_or_snoc. apply elem_of_app. right. by left.
Qed.

Lemma first_or_elem q l : l ≠ [] → first_or q l ∈ l.
Proof. destruct l; [done|]. intros _. by left. Qed.

(** ** Taking a node out of a list *)

Definition unlink_links (p q : Z) (m : gmap Z Node) : gmap Z Node :=
  alter_opt (set_binListPrev p) q (alter_opt (set_binListNext q) p m).

Lemma unlink_links_core p q m : core <$> unlink_links p q m = core <$> m.
Proof. unfold unlink_links. by rewrite !fmap_alter_opt_same. Qed.

Lemma unlink_links_prev p q m x :
  x ≠ q → (binListPrev <$> unlink_links p q m) !! x = (binListPrev <$> m) !! x.
Proof.
  intros Hx. unfold unlink_links. rewrite !lookup_fmap, lookup_alter_opt_ne by done. rewrite <- !lookup_fmap.
  by rewrite fmap_alter_opt_same.
Qed.

Lemma unlink_links_next p q m x :
  x ≠ p → (binListNext <$> unlink_links p q m) !! x = (binListNext <$> m) !! x.
Proof.
  intros Hx. unfold unlink_links. rewrite fmap_alter_opt_same by done. by rewrite !lookup_fmap, lookup_alter_opt_ne.
Qed.

Lemma links_removed m a x c :
  let p := last_or unused a in let q := first_or unused c in
  linked (binListPrev <$> m) (binListNext <$> m) unused (a ++ x :: c) unused →
  NoDup (a ++ x :: c) → (∀ y, y ∈ a ++ x :: c → y ≠ unused ∧ is_Some (m !! y)) →
  linked (binListPrev <$> unlink_links p q m) (binListNext <$> unlink_links p q m) unused (a ++ c) unused.
Proof.
  intros p q Hl Hnd Hval. change (a ++ c) with (a ++ [] ++ c). apply list.NoDup_app in Hnd as (Ha & Hac & [Hx Hc]%NoDup_cons).
  assert (∀ y, y ∈ a → y ∈ c → False) as Hdis by (intros y Hy Hyc; apply (Hac y Hy); by right).
  eapply (linked_splice (binListPrev <$> m) (binListNext <$> m) _ _ _ _ a [x] []); [done|done|..].
  - intros y Hy. apply unlink_links_prev. intros ->. destruct c as [|z c]; [by apply (Hval unused); [apply elem_of_app; left|]|].
    by apply (Hdis z Hy); left.
  - intros y Hy. apply unlink_links_next. unfold p. intros ->. destruct a as [|z a _] using rev_ind.
    + by apply (Hval unused); [apply elem_of_app; right; right|].
    + rewrite last_or_snoc in Hy. apply (Hdis z); [apply elem_of_app; right; by left|done].
  - intros a0 z ->. unfold p. rewrite last_or_snoc. split.
    + unfold unlink_links. rewrite fmap_alter_opt_same by done. apply fmap_alter_opt_eq; [..|done].
      * apply Hval, elem_of_app. left. apply elem_of_app. right. by left.
      * apply Hval, elem_of_app. left. apply elem_of_app. right. by left.
    + intros y Hy. apply unlink_links_next. intros ->. apply list.NoDup_app in Ha as (_ & Ha & _). by apply (Ha z Hy); left.
  - intros z c0 ->. rewrite app_nil_r. fold p. unfold q. cbn [first_or head from_option id]. split.
    + unfold unlink_links. apply fmap_alter_opt_eq; [| |done].
      * apply Hval, elem_of_app. right. right. by left.
      * apply alter_opt_is_Some, Hval, elem_of_app. right. right. by left.
    + intros y Hy. apply unlink_links_prev. intros ->. by apply NoDup_cons in Hc as [? _].
Qed.

(** Nodes of other bins keep their links. *)
Lemma unlink_other s L b a x c y b' :
  bins_ok s L → L b = a ++ x :: c → b' ≠ b → y ∈ L b' →
  y ≠ last_or unused a ∧ y ≠ first_or unused c ∧ y ≠ x.
Proof.
  intros Hs HL Hne Hy. assert (∀ z, z ∈ L b → y ≠ z) as Hdis.
  { intros z Hz ->. by apply Hne, (bk_disj _ _ Hs b' b z). }
  split_and!.
  - destruct (decide (a = [])) as [->|]; [by apply (bk_valid _ _ Hs b')|]. apply Hdis. rewrite HL.
    apply elem_of_app. left. by apply last_or_elem.
  - destruct (decide (c = [])) as [->|]; [by apply (bk_valid _ _ Hs b')|]. apply Hdis. rewrite HL.
    apply elem_of_app. right. right. by apply first_or_elem.
  - apply Hdis. rewrite HL. apply elem_of_app. right. by left.
Qed.

Lemma bin_split_nodes s L b a x c :
  bins_ok s L → 0 ≤ b < 256 → L b = a ++ x :: c →
  ∃ n, nodes_ s !! x = Some n ∧ binListPrev n = last_or unused a ∧ binListNext n = first_or unused c ∧
    (last_or unused a ≠ unused → is_Some (nodes_ s !! last_or unused a)) ∧
    (first_or unused c ≠ unused → is_Some (nodes_ s !! first_or unused c)) ∧
    last_or unused a ≠ x ∧ first_or unused c ≠ x ∧
    (last_or unused a ≠ unused ↔ a ≠ []).
Proof.
  intros Hs Hb HL. pose proof (bk_linked _ _ Hs b Hb) as Hl. pose proof (bk_nodup _ _ Hs b) as Hnd.
  pose proof (bk_valid _ _ Hs b) as Hv. pose proof (bin_node s L b) as Hn. rewrite HL in *.
  apply linked_at in Hl as [HP HN]. rewrite lookup_fmap in HP, HN. destruct (nodes_ s !! x) as [n|]; [|done].
  injection HP as HP. injection HN as HN. apply list.NoDup_app in Hnd as (_ & Hac & [Hx _]%NoDup_cons).
  exists n. split_and!; [done|done|done| | | | |].
  - intros Hne. apply Hn; [done|done|]. apply elem_of_app. left. apply last_or_elem. by intros ->.
  - intros Hne. apply Hn; [done|done|]. apply elem_of_app. right. right. apply first_or_elem. by intros ->.
  - destruct (decide (a = [])) as [->|Hne]; [intros E; by apply (Hv x); [apply elem_of_app; right; left|]|].
    intros E. apply (Hac x); [rewrite <- E; by apply last_or_elem|by left].
  - destruct (decide (c = [])) as [->|Hne]; [intros E; by apply (Hv x); [apply elem_of_app; right; left|]|].
    intros E. apply Hx. rewrite <- E. by apply first_or_elem.
  - split; [by intros Hne ->|]. intros Hne. apply Hv, elem_of_app. left. by apply last_or_elem.
Qed.

Lemma first_or_nil s L b l : bins_ok s L → (∀ x, x ∈ l → x ∈ L b) → (first_or unused l =? unused) = negb (nonempty l).
Proof.
  intros Hs Hl. unfold nonempty. destruct l as [|x l]; [done|]. cbn. apply Z.eqb_neq, (bk_valid _ _ Hs b), Hl. by left.
Qed.

(** The last step of taking a node out of bin [b]: the masks follow an empty bin. *)
Lemma settle_bits s L b l' :
  bits_ok (usedBins_ s) (usedBinsTop_ s) (λ b, nonempty (L b)) → 0 ≤ b < 256 → nonempty (L b) = true →
  ∃ U top, (if negb (nonempty l') then clear_bits b else mret tt) s = (set_top top (set_used U s), Ok tt) ∧
    bits_ok U top (upd_bin b (nonempty l') (λ b, nonempty (L b))).
Proof.
  intros Hs Hb Hne. destruct (nonempty l') eqn:E; cbn [negb].
  - exists (usedBins_ s), (usedBinsTop_ s). split; [by destruct s|]. revert Hs. apply bits_ext. intros b' Hb'.
    unfold upd_bin. destruct (Z.eqb_spec b' b) as [->|]; [by rewrite Hne|done].
  - by apply clear_bits_spec.
Qed.

(** The bins after node [x] was taken out of bin [b]; its own links do not matter. *)
Lemma removed_bins s s' L b a x c :
  let p := last_or unused a in let q := first_or unused c in
  bins_ok s L → 0 ≤ b < 256 → L b = a ++ x :: c →
  (∀ y, y ≠ x → (binListPrev <$> nodes_ s') !! y = (binListPrev <$> unlink_links p q (nodes_ s)) !! y ∧
     (binListNext <$> nodes_ s') !! y = (binListNext <$> unlink_links p q (nodes_ s)) !! y) →
  binIndices_ s' = <[b := first_or unused (a ++ c)]> (binIndices_ s) →
  bits_ok (usedBins_ s') (usedBinsTop_ s') (upd_bin b (nonempty (a ++ c)) (λ b, nonempty (L b))) →
  bins_ok s' (upd_bin b (a ++ c) L).
Proof.
  intros p q Hs Hb HL Hx HB Hbits. pose proof (bk_nodup _ _ Hs b) as Hnd. rewrite HL in Hnd.
  assert (x ∉ a ++ c) as Hxn.
  { apply list.NoDup_app in Hnd as (_ & Hac & [Hxc _]%NoDup_cons). intros [Hxa|Hxa]%elem_of_app; [by apply (Hac x Hxa); left|done]. }
  apply (rebin s _ L b (a ++ c) Hs Hb); [| | |done| |done].
  - eapply (linked_ext (binListPrev <$> unlink_links p q (nodes_ s)) (binListNext <$> unlink_links p q (nodes_ s))).
    + intros y Hy. apply Hx. by intros ->.
    + intros y Hy. apply Hx. by intros ->.
    + apply (links_removed (nodes_ s) a x c); [rewrite <- HL; by apply Hs|done|].
      intros y Hy. rewrite <- HL in Hy. split; [by apply (bk_valid _ _ Hs b)|by eapply bin_node].
  - eapply sublist_NoDup; [exact Hnd|]. apply sublist_app; [done|by constructor].
  - intros y Hy. left. rewrite HL. rewrite elem_of_app in *. rewrite elem_of_cons. tauto.
  - intros y b' Hne Hy. destruct (unlink_other s L b a x c y b' Hs HL Hne Hy) as (Hyp & Hyq & Hyx).
    destruct (Hx y Hyx) as [-> ->]. by rewrite unlink_links_prev, unlink_links_next.
Qed.

Lemma unlink_spec s L b a x c :
  bins_ok s L → 0 ≤ b < 256 → L b = a ++ x :: c →
  ∃ s', UnlinkNodeFromBin b x s = (s', Ok tt) ∧ bins_ok s' (upd_bin b (a ++ c) L) ∧ same_rest s s' ∧
    cores s' = cores s ∧ freeStorage_ s' = freeStorage_ s.
Proof.
  intros Hs Hb HL. destruct (bin_split_nodes s L b a x c Hs Hb HL) as (n & Hn & HP & HN & Hpn & Hqn & Hpx & Hqx & Hpa).
  set (p := last_or unused a) in *. set (q := first_or unused c) in *. pose proof (bk_head _ _ Hs b Hb) as Hhd. rewrite HL in Hhd.
  unfold UnlinkNodeFromBin. erewrite bind_ok; [|by apply node_at_ok]. rewrite HP, HN.
  set (B1 := <[b := first_or unused (a ++ c)]> (binIndices_ s)). set (m1 := alter_opt (set_binListNext q) p (nodes_ s)).
  assert ((if negb (p =? unused) then upd_node p (set_binListNext q)
     else first ← bin_at b; py_assert (first =? x) ;; put_bin b q) s = (set_bins B1 (set_nodes m1 s), Ok tt)) as E1.
  { unfold m1, alter_opt, B1. destruct (Z.eqb_spec p unused) as [Hp|Hp]; cbn [negb].
    - assert (a = []) as -> by (destruct (decide (a = [])); [done|by apply Hpa in Hp]). cbn [app] in *.
      erewrite bind_ok; [|by apply bin_at_ok]. cbn [first_or head from_option id]. rewrite Z.eqb_refl.
      erewrite bind_ok; [|reflexivity]. by erewrite put_bin_ok.
    - rewrite upd_node_ok by (by apply Hpn). destruct a as [|y a]; [done|]. cbn in Hhd |- *.
      rewrite insert_id by done. by destruct s. }
  erewrite bind_ok; [|exact E1]. erewrite bind_ok; [|apply node_at_ok; cbn; unfold m1; by rewrite lookup_alter_opt_ne].
  rewrite HP, HN. erewrite bind_ok; [|apply upd_opt_ok; cbn; intros Hq; unfold m1; by apply alter_opt_is_Some, Hqn].
  assert (is_Some (unlink_links p q (nodes_ s) !! x)) as Hx2.
  { unfold unlink_links. rewrite !alter_opt_is_Some. by eexists. }
  erewrite bind_ok; [|by apply upd_node_ok]. cbn [nodes_ set_nodes set_bins]. fold (unlink_links p q (nodes_ s)).
  erewrite bind_ok; [|apply bin_at_ok; cbn; apply lookup_insert_eq].
  rewrite (first_or_nil s L b _ Hs) by (rewrite HL; intros *; rewrite ?elem_of_app, ?elem_of_cons; tauto). set (s3 := set_nodes _ _).
  destruct (settle_bits s3 L b (a ++ c)) as (U & top & E & Hbits); [apply Hs|done|by rewrite HL; destruct a|].
  rewrite E. eexists. split; [reflexivity|]. split; [|split_and!; try done].
  - apply (removed_bins s _ L b a x c); try done. intros y Hy. cbn. by rewrite !lookup_fmap, lookup_alter_ne.
  - unfold cores. cbn. rewrite fmap_alter_same by done. apply unlink_links_core.
Qed.

(** ** Taking a free node out of its bin and giving it back *)

Lemma remove_spec s L b a x c sz :
  bins_ok s L → 0 ≤ b < 256 → L b = a ++ x :: c →
  c_size <$> cores s !! x = Some sz → SmallFloat.uintToFloatRoundDown sz = b →
  0 ≤ freeOffset_ s < 2 ^ 32 - 1 → is_Some (freeNodes_ s !! (freeOffset_ s + 1)) →
  ∃ s', RemoveNodeFromBin x s = (s', Ok tt) ∧ bins_ok s' (upd_bin b (a ++ c) L) ∧
    size_ s' = size_ s ∧ maxAllocs_ s' = maxAllocs_ s ∧ cores s' = cores s ∧
    freeNodes_ s' = <[freeOffset_ s + 1 := x]> (freeNodes_ s) ∧ freeOffset_ s' = freeOffset_ s + 1 ∧
    freeStorage_ s' = u32 (freeStorage_ s - sz).
Proof.
  intros Hs Hb HL Hsz Hrd Hfo [fn Hfn].
  destruct (bin_split_nodes s L b a x c Hs Hb HL) as (n & Hn & HP & HN & Hpn & Hqn & Hpx & Hqx & Hpa).
  unfold cores in Hsz. rewrite lookup_fmap, Hn in Hsz. injection Hsz as Hsz.
  set (p := last_or unused a) in *. set (q := first_or unused c) in *. pose proof (bk_head _ _ Hs b Hb) as Hhd. rewrite HL in Hhd.
  unfold RemoveNodeFromBin. erewrite bind_ok; [|by apply node_at_ok]. rewrite HP, HN, Hsz, Hrd.
  set (m2 := unlink_links p q (nodes_ s)).
  assert (∃ U top, (if negb (p =? unused) then
       upd_node p (set_binListNext q) ;; node ← node_at x;
       if negb (binListNext node =? unused) then upd_node (binListNext node) (set_binListPrev (binListPrev node)) else mret tt
     else
       put_bin b q ;; (if negb (q =? unused) then upd_node q (set_binListPrev unused) else mret tt) ;;
       first ← bin_at b; if first =? unused then clear_bits b else mret tt) s =
     (set_top top (set_used U (set_bins (<[b := first_or unused (a ++ c)]> (binIndices_ s)) (set_nodes m2 s))), Ok tt) ∧
     bits_ok U top (upd_bin b (nonempty (a ++ c)) (λ b, nonempty (L b)))) as (U & top & E1 & Hbits).
  { unfold m2, unlink_links. destruct (Z.eqb_spec p unused) as [Hp|Hp]; cbn [negb].
    - assert (a = []) as -> by (destruct (decide (a = [])); [done|by apply Hpa in Hp]). cbn [app] in *.
      erewrite bind_ok; [|by eapply put_bin_ok]. rewrite Hp. erewrite bind_ok; [|by apply upd_opt_ok].
      erewrite bind_ok; [|apply bin_at_ok; cbn; apply lookup_insert_eq].
      change (q =? unused) with (first_or unused c =? unused). rewrite (first_or_nil s L b _ Hs) by (rewrite HL; intros *; rewrite ?elem_of_cons; tauto).
      set (s3 := set_nodes _ _). destruct (settle_bits s3 L b c) as (U & top & E & Hbits); [apply Hs|done|by rewrite HL|].
      exists U, top. split; [|done]. rewrite E. by destruct s.
    - erewrite bind_ok; [|apply upd_node_ok; by apply Hpn].
      erewrite bind_ok; [|apply node_at_ok; cbn; by rewrite lookup_alter_ne]. rewrite HP, HN.
      rewrite upd_opt_ok by (cbn; intros Hq; apply lookup_alter_is_Some; by apply Hqn).
      exists (usedBins_ s), (usedBinsTop_ s). destruct a as [|y a]; [done|]. cbn in Hhd. split.
      + assert (alter_opt (set_binListNext q) p (nodes_ s) = alter (set_binListNext q) p (nodes_ s)) as ->
          by (unfold alter_opt; by rewrite (proj2 (Z.eqb_neq _ _) Hp)).
        cbn. rewrite insert_id by done. by destruct s.
      + pose proof (bk_bits _ _ Hs) as Hbits. revert Hbits. apply bits_ext. intros b' Hb'. unfold upd_bin, nonempty.
        destruct (Z.eqb_spec b' b) as [->|]; [|done]. by rewrite HL. }
  erewrite bind_ok; [|exact E1]. erewrite bind_ok; [|by apply push_free_ok; [|eexists]].
  assert (∃ n', m2 !! x = Some n' ∧ dataSize n' = sz) as (n' & Hn' & Hsz').
  { exists n. split; [|done]. unfold m2, unlink_links. by rewrite !lookup_alter_opt_ne. }
  erewrite bind_ok; [|apply node_at_ok; exact Hn']. rewrite Hsz'. eexists. split; [reflexivity|].
  split; [by apply (removed_bins s _ L b a x c)|]. split_and!; try done. unfold cores. cbn. apply unlink_links_core.
Qed.

(** ** Putting a spare node into a bin *)

Lemma links_inserted m y new l :
  let f := first_or unused l in let m' := alter_opt (set_binListPrev y) f (<[y := new]> m) in
  linked (binListPrev <$> m) (binListNext <$> m) unused l unused → NoDup l → y ∉ l → y ≠ unused →
  (∀ x, x ∈ l → x ≠ unused ∧ is_Some (m !! x)) → binListPrev new = unused → binListNext new = f →
  linked (binListPrev <$> m') (binListNext <$> m') unused (y :: l) unused.
Proof.
  intros f m' Hl Hnd Hy Hyu Hval HP HN. change (y :: l) with ([] ++ [y] ++ l).
  assert (f ≠ y) as Hfy.
  { unfold f. destruct l as [|z l]; [by intros <-|]. cbn. intros <-. apply Hy. by left. }
  assert (m' !! y = Some new) as Hnew by (unfold m'; by rewrite lookup_alter_opt_ne, lookup_insert_eq).
  assert (∀ x, x ≠ y → (binListNext <$> m') !! x = (binListNext <$> m) !! x) as HN'.
  { intros x Hx. unfold m'. rewrite fmap_alter_opt_same by done. by rewrite !lookup_fmap, lookup_insert_ne. }
  assert (∀ x, x ≠ y → x ≠ f → (binListPrev <$> m') !! x = (binListPrev <$> m) !! x) as HP'.
  { intros x Hx Hxf. unfold m'. by rewrite !lookup_fmap, lookup_alter_opt_ne, lookup_insert_ne. }
  eapply (linked_splice (binListPrev <$> m) (binListNext <$> m) _ _ _ _ [] [] [y]); [done| | | | |].
  - cbn. rewrite !lookup_fmap, Hnew. cbn. by rewrite HP, HN.
  - by intros x ?%elem_of_nil.
  - intros x Hx. apply HN'. by intros ->.
  - intros a0 z E. by destruct a0.
  - intros z c0 ->. cbn [app last_or last from_option id]. split.
    + unfold m'. apply fmap_alter_opt_eq; [apply Hval; by left| |done].
      rewrite lookup_insert_ne by (intros ->; apply Hy; by left). apply Hval. by left.
    + intros x Hx. apply HP'; [intros ->; apply Hy; by right|]. unfold f. cbn. intros ->. by apply NoDup_cons in Hnd as [? _].
Qed.

Lemma insert_spec s L size off y :
  let b := SmallFloat.uintToFloatRoundDown size in
  bins_ok s L → 0 ≤ b < 256 → 0 < freeOffset_ s < 2 ^ 32 → freeNodes_ s !! freeOffset_ s = Some y →
  is_Some (nodes_ s !! y) → y ≠ unused → (∀ b', y ∉ L b') →
  ∃ s', InsertNodeIntoBin size off s = (s', Ok y) ∧ bins_ok s' (upd_bin b (y :: L b) L) ∧
    size_ s' = size_ s ∧ maxAllocs_ s' = maxAllocs_ s ∧
    cores s' = <[y := mkCore off size unused unused false]> (cores s) ∧
    freeNodes_ s' = freeNodes_ s ∧ freeOffset_ s' = freeOffset_ s - 1 ∧ freeStorage_ s' = u32 (freeStorage_ s + size).
Proof.
  intros b Hs Hb Hfo Hfn [ny Hny] Hyu Hyl. pose proof (bk_head _ _ Hs b Hb) as Hhd. set (f := first_or unused (L b)) in *.
  unfold InsertNodeIntoBin. unfold mbind at 1, M_bind at 1, get_state. rewrite (proj2 (Z.ltb_lt _ _)) by lia.
  erewrite bind_ok; [|reflexivity]. cbv zeta. fold b. erewrite bind_ok; [|by apply bin_at_ok].
  assert (∃ U top, (if f =? unused then set_bits b else mret tt) s = (set_top top (set_used U s), Ok tt) ∧
    bits_ok U top (upd_bin b true (λ b, nonempty (L b)))) as (U & top & E1 & Hbits).
  { unfold f. rewrite (first_or_nil s L b _ Hs) by done. destruct (nonempty (L b)) eqn:E; cbn [negb].
    - exists (usedBins_ s), (usedBinsTop_ s). split; [by destruct s|]. pose proof (bk_bits _ _ Hs) as Hbits. revert Hbits.
      apply bits_ext. intros b' Hb'. unfold upd_bin. destruct (Z.eqb_spec b' b) as [->|]; [|done].
      by rewrite <- E.
    - apply set_bits_spec; [apply Hs|done]. }
  erewrite bind_ok; [|exact E1]. erewrite bind_ok; [|by apply bin_at_ok]. set (s1 := set_top top (set_used U s)).
  erewrite bind_ok; [|by apply pop_free_ok]. set (new := mkNode off size unused f unused unused false).
  erewrite bind_ok; [|by eapply put_node_ok].
  assert (∀ x, x ∈ L b → x ≠ unused ∧ is_Some (nodes_ s !! x)) as Hval.
  { intros x Hx. split; [by apply (bk_valid _ _ Hs b)|by eapply bin_node]. }
  assert (f ≠ unused → f ∈ L b) as Hf by (intros Hne; apply first_or_elem; unfold f in Hne; by intros E; rewrite E in Hne).
  assert (f ≠ y) as Hfy by (intros E; apply (Hyl b); rewrite <- E; apply Hf; by rewrite E).
  erewrite bind_ok; [|apply upd_opt_ok; cbn; intros Hne; rewrite lookup_insert_ne by done; by apply Hval, Hf].
  erewrite bind_ok; [|by eapply put_bin_ok]. erewrite bind_ok; [|reflexivity]. eexists. split; [reflexivity|].
  split; [|split_and!; try done].
  - apply (rebin s _ L b (y :: L b) Hs Hb); [|by apply NoDup_cons; split; [apply Hyl|apply Hs]| |done| |done].
    + apply (links_inserted (nodes_ s) y new (L b)); try done; [by apply Hs|apply Hs].
    + intros x [->|Hx]%elem_of_cons; [by right|by left].
    + intros x b' Hne Hx. cbn. assert (x ≠ y) by (intros ->; by apply (Hyl b')).
      assert (x ≠ f) by (intros ->; apply Hne, (bk_disj _ _ Hs b' b f Hx), Hf; by apply (bk_valid _ _ Hs b')).
      by rewrite !lookup_fmap, lookup_alter_opt_ne, lookup_insert_ne.
  - unfold cores. cbn. rewrite fmap_alter_opt_same by done. by rewrite fmap_insert.
Qed.
