(* ===== verification/AllocatorRegions.v ===== *)
(** * The regions of the offset allocator

    A state of the allocator represents a list of blocks that tile the region, each
    used or free.  The operations never leave the arrays, never fail an assertion, and
    act on the blocks as they should: [Allocate] splits a free block, [Free] merges a
    used block with its free neighbours. *)

From Stdlib Require Import ZArith Lia.
From stdpp Require Import base list gmap numbers list_numbers.
From S2P Require Import Prelude.
From S2P Require Import OffsetAllocator.
From S2P Require Import AllocatorBins.
From S2P Require Import AllocatorLists.
Local Open Scope Z_scope.

(** ** Blocks *)

Record Block := mkBlock { b_node : Z; b_off : Z; b_size : Z; b_used : bool }.

Abbreviation ids bs := (b_node <$> bs).

(** The blocks follow each other from [o] to [e]. *)
Fixpoint tiles (o : Z) (bs : list Block) (e : Z) : Prop :=
  match bs with
  | [] => o = e
  | b :: r => b_off b = o ∧ 0 < b_size b ∧ tiles (o + b_size b) r e
  end.

Lemma tiles_app o a b e : tiles o (a ++ b) e ↔ ∃ m, tiles o a m ∧ tiles m b e.
Proof.
  revert o. induction a as [|x a IH]; intros o; cbn.
  - split; [by exists o|]. by intros (m & -> & ?).
  - rewrite IH. split; [intros (? & ? & m & ? & ?)|intros (m & (? & ? & ?) & ?)]; eauto 8.
Qed.

Lemma tiles_bounds o bs e b : tiles o bs e → b ∈ bs → o ≤ b_off b ∧ 0 < b_size b ∧ b_off b + b_size b ≤ e.
Proof.
  revert o. assert (∀ l o e, tiles o l e → o ≤ e) as Hle.
  { induction l as [|y l IHl]; intros o' e'; cbn; [lia|]. intros (_ & ? & ?%IHl). lia. }
  induction bs as [|x bs IH]; intros o; [by intros _ ?%elem_of_nil|]. intros (Ho & Hp & Ht) [->|Hb]%elem_of_cons.
  - apply Hle in Ht. lia.
  - pose proof (IH _ Ht Hb). lia.
Qed.

(** Blocks do not overlap. *)
Lemma tiles_apart o bs e (i j : nat) b b' :
  tiles o bs e → bs !! i = Some b → bs !! j = Some b' → (i < j)%nat → b_off b + b_size b ≤ b_off b'.
Proof.
  intros Ht Hi Hj Hij. rewrite <- (take_drop (S i) bs) in Ht. apply tiles_app in Ht as (m & Ha & Hb).
  assert (b ∈ take (S i) bs) as Hin by (apply list_elem_of_lookup; exists i; rewrite lookup_take_lt by lia; done).
  assert (b' ∈ drop (S i) bs) as Hin'.
  { apply list_elem_of_lookup. exists (j - S i)%nat. rewrite lookup_drop. by replace (S i + (j - S i))%nat with j by lia. }
  pose proof (tiles_bounds _ _ _ _ Ha Hin). pose proof (tiles_bounds _ _ _ _ Hb Hin'). lia.
Qed.

(** No two free blocks are neighbours; [pf] tells whether a free block comes before. *)
Fixpoint alone (pf : bool) (bs : list Block) : Prop :=
  match bs with
  | [] => True
  | b :: r => (pf = true → b_used b = true) ∧ alone (negb (b_used b)) r
  end.

Definition last_free (pf : bool) (bs : list Block) : bool := from_option (λ b, negb (b_used b)) pf (last bs).

Lemma last_free_cons pf b bs : last_free pf (b :: bs) = last_free (negb (b_used b)) bs.
Proof. unfold last_free. rewrite last_cons. by destruct (last bs). Qed.

Lemma alone_app pf a b : alone pf (a ++ b) ↔ alone pf a ∧ alone (last_free pf a) b.
Proof.
  revert pf. induction a as [|x a IH]; intros pf; cbn [app alone]; [tauto|]. rewrite IH, last_free_cons. tauto.
Qed.

Lemma alone_weaken bs : alone true bs → alone false bs.
Proof. destruct bs; cbn; [done|]. by intros [_ ?]. Qed.

(** The free storage. *)
Definition free_total (bs : list Block) : Z := foldr (λ b n, (if b_used b then 0 else b_size b) + n) 0 bs.

Lemma free_total_app a b : free_total (a ++ b) = free_total a + free_total b.
Proof. induction a as [|x a IH]; cbn; [done|]. unfold free_total in *. lia. Qed.

Lemma free_total_bounds o bs e : tiles o bs e → 0 ≤ free_total bs ≤ e - o.
Proof.
  revert o. induction bs as [|b bs IH]; intros o; cbn; [lia|]. intros (_ & ? & Ht%IH). unfold free_total in Ht. destruct (b_used b); lia.
Qed.

(** ** The chain of neighbours *)

Definition data_ok (C : gmap Z Core) (b : Block) : Prop :=
  ∃ p n, C !! b_node b = Some (mkCore (b_off b) (b_size b) p n (b_used b)).

Record chain_ok (C : gmap Z Core) (bs : list Block) (total : Z) : Prop := {
  ch_tiles : tiles 0 bs total;
  ch_linked : linked (c_prev <$> C) (c_next <$> C) unused (ids bs) unused;
  ch_data b : b ∈ bs → data_ok C b;
  ch_nodup : NoDup (ids bs);
  ch_valid b : b ∈ bs → b_node b ≠ unused;
  ch_alone : alone false bs;
  ch_other i c : C !! i = Some c → i ∉ ids bs → c_used c = false;
}.

(** What changes at the borders [p] and [q] of a replaced part. *)
Definition border (p q f g z : Z) (c : Core) : Core :=
  mkCore (c_off c) (c_size c) (if (z =? q) && negb (q =? unused) then g else c_prev c)
    (if (z =? p) && negb (p =? unused) then f else c_next c) (c_used c).

Lemma border_prev p q f g z (C : gmap Z Core) :
  z ≠ q ∨ q = unused → c_prev <$> (border p q f g z <$> C !! z) = c_prev <$> C !! z.
Proof.
  intros Hz. destruct (C !! z); cbn; [|done]. do 2 f_equal.
  destruct (Z.eqb_spec z q); [|done]. destruct (Z.eqb_spec q unused); [done|naive_solver].
Qed.

Lemma border_next p q f g z (C : gmap Z Core) :
  z ≠ p ∨ p = unused → c_next <$> (border p q f g z <$> C !! z) = c_next <$> C !! z.
Proof.
  intros Hz. destruct (C !! z); cbn; [|done]. do 2 f_equal.
  destruct (Z.eqb_spec z p); [|done]. destruct (Z.eqb_spec p unused); [done|naive_solver].
Qed.

Lemma linked_next_is_Some P N p l q x : linked P N p l q → x ∈ l → is_Some (N !! x).
Proof.
  revert p. induction l as [|y l IH]; intros p Hl Hx; [by apply elem_of_nil in Hx|]. destruct Hl as (_ & HN & Hl).
  apply elem_of_cons in Hx as [->|Hx]; [by eexists|by apply (IH y)].
Qed.

(** The links around a replaced part. *)
Lemma chain_relinked C C' l1 mid mid' l2 :
  let p := last_or unused (ids l1) in let q := first_or unused (ids l2) in
  let f := first_or q (ids mid') in let g := last_or p (ids mid') in
  linked (c_prev <$> C) (c_next <$> C) unused (ids (l1 ++ mid ++ l2)) unused →
  NoDup (ids l1 ++ ids mid' ++ ids l2) → (∀ x, x ∈ ids l1 ++ ids l2 → x ≠ unused) →
  linked (c_prev <$> C') (c_next <$> C') p (ids mid') q →
  (∀ z, z ∉ ids mid' → C' !! z = border p q f g z <$> C !! z) →
  linked (c_prev <$> C') (c_next <$> C') unused (ids (l1 ++ mid' ++ l2)) unused.
Proof.
  intros p q f g Hl Hnd Hval Hmid HC'. rewrite !fmap_app in *. pose proof Hl as Hl0.
  apply list.NoDup_app in Hnd as (Hnd1 & Hd1 & (Hndm & Hdm & Hnd2)%list.NoDup_app).
  assert (∀ x, x ∈ ids l1 → x ∉ ids mid') as H1m by (intros x Hx Hm; apply (Hd1 x Hx), elem_of_app; by left).
  assert (∀ x, x ∈ ids l1 → x ∉ ids l2) as H12 by (intros x Hx Hm; apply (Hd1 x Hx), elem_of_app; by right).
  assert (∀ x, x ∈ ids l2 → x ∉ ids mid') as H2m by (intros x Hx Hm; by apply (Hdm x)).
  assert (p ≠ unused → p ∈ ids l1) as Hp by (intros Hne; apply last_or_elem; intros E; unfold p in Hne; by rewrite E in Hne).
  assert (q ≠ unused → q ∈ ids l2) as Hq by (intros Hne; apply first_or_elem; intros E; unfold q in Hne; by rewrite E in Hne).
  assert (∀ x, x ∈ ids l1 → x ≠ q ∨ q = unused) as H1q.
  { intros x Hx. destruct (decide (q = unused)); [by right|left]. intros ->. apply (H12 q Hx). by apply Hq. }
  assert (∀ x, x ∈ ids l2 → x ≠ p ∨ p = unused) as H2p.
  { intros x Hx. destruct (decide (p = unused)); [by right|left]. intros ->. apply (H12 p); [by apply Hp|done]. }
  eapply linked_splice; [exact Hl0|exact Hmid|..].
  - intros x Hx. rewrite !lookup_fmap, HC' by (by apply H1m). apply border_prev. by apply H1q.
  - intros x Hx. rewrite !lookup_fmap, HC' by (by apply H2m). apply border_next. by apply H2p.
  - intros a0 z E. assert (p = z) as Epz by (unfold p; by rewrite E, last_or_snoc).
    assert (z ∈ ids l1) as Hz by (rewrite E; apply elem_of_app; right; by left). split.
    + rewrite lookup_fmap, HC' by (by apply H1m). rewrite first_or_app. fold q f.
      apply linked_app in Hl as [Hl _]. destruct (linked_next_is_Some _ _ _ _ _ z Hl Hz) as [v Hv].
      rewrite lookup_fmap in Hv. destruct (C !! z) as [c|]; [|done]. cbn. rewrite Epz, Z.eqb_refl.
      rewrite (proj2 (Z.eqb_neq z unused)); [done|]. apply Hval, elem_of_app. by left.
    + intros x Hx. assert (x ∈ ids l1) by (rewrite E; apply elem_of_app; by left).
      rewrite !lookup_fmap, HC' by (by apply H1m). apply border_next. left. rewrite Epz. intros ->.
      rewrite E in Hnd1. apply list.NoDup_app in Hnd1 as (_ & Hn & _). by apply (Hn z Hx); left.
  - intros z c0 E. assert (q = z) as Eqz by (unfold q; by rewrite E).
    assert (z ∈ ids l2) as Hz by (rewrite E; by left). split.
    + rewrite lookup_fmap, HC' by (by apply H2m). rewrite last_or_app. fold p g.
      apply linked_app in Hl as [_ [_ Hl]%linked_app]. destruct (linked_is_Some _ _ _ _ _ z Hl Hz) as [v Hv].
      rewrite lookup_fmap in Hv. destruct (C !! z) as [c|]; [|done]. cbn. rewrite Eqz, Z.eqb_refl.
      rewrite (proj2 (Z.eqb_neq z unused)); [done|]. apply Hval, elem_of_app. by right.
    + intros x Hx. assert (x ∈ ids l2) by (rewrite E; by right).
      rewrite !lookup_fmap, HC' by (by apply H2m). apply border_prev. left. rewrite Eqz. intros ->.
      rewrite E in Hnd2. by apply NoDup_cons in Hnd2 as [? _].
Qed.

Lemma chain_replace C C' l1 mid mid' l2 total :
  let p := last_or unused (ids l1) in let q := first_or unused (ids l2) in
  let f := first_or q (ids mid') in let g := last_or p (ids mid') in
  chain_ok C (l1 ++ mid ++ l2) total →
  (∀ o e, tiles o mid e → tiles o mid' e) → alone false (l1 ++ mid' ++ l2) →
  NoDup (ids (l1 ++ mid' ++ l2)) → (∀ b, b ∈ mid' → b_node b ≠ unused) →
  linked (c_prev <$> C') (c_next <$> C') p (ids mid') q → (∀ b, b ∈ mid' → data_ok C' b) →
  (∀ z, z ∉ ids mid' → C' !! z = border p q f g z <$> C !! z) →
  (∀ b, b ∈ mid → b_node b ∉ ids mid' → b_used b = false) →
  chain_ok C' (l1 ++ mid' ++ l2) total.
Proof.
  intros p q f g Hc Htiles Halone Hnd Hval Hmid Hdata HC' Hgone. pose proof Hnd as Hnd'. rewrite !fmap_app in Hnd'.
  assert (∀ b, b ∈ l1 ∨ b ∈ l2 → b ∈ l1 ++ mid ++ l2) as Hin by (intros b; rewrite !elem_of_app; tauto).
  assert (∀ b, b ∈ l1 ∨ b ∈ l2 → b_node b ∉ ids mid') as Hnm.
  { intros b Hb Hm. apply list.NoDup_app in Hnd' as (_ & Hd1 & (_ & Hdm & _)%list.NoDup_app). destruct Hb as [Hb|Hb].
    - apply (Hd1 (b_node b)); [by apply list_elem_of_fmap_2|]. apply elem_of_app. by left.
    - apply (Hdm (b_node b)); [done|by apply list_elem_of_fmap_2]. }
  split; try done.
  - pose proof (ch_tiles _ _ _ Hc) as Ht. apply tiles_app in Ht as (m1 & Ht1 & (m2 & Ht2 & Ht3)%tiles_app).
    apply tiles_app. exists m1. split; [done|]. apply tiles_app. exists m2. split; [by apply Htiles|done].
  - eapply chain_relinked; [apply Hc|done| |done|done]. intros x. rewrite elem_of_app. intros Hx.
    destruct Hx as [(b & -> & Hb)%list_elem_of_fmap|(b & -> & Hb)%list_elem_of_fmap]; apply (ch_valid _ _ _ Hc), Hin; auto.
  - intros b. rewrite !elem_of_app. intros Hb. assert (b ∈ l1 ∨ b ∈ l2 ∨ b ∈ mid') as [Hb'|[Hb'|Hb']] by tauto; [| |by apply Hdata].
    all: destruct (ch_data _ _ _ Hc b) as (pb & nb & E); [apply Hin; tauto|]; unfold data_ok;
      rewrite HC', E by (apply Hnm; tauto); by eexists _, _.
  - intros b. rewrite !elem_of_app. intros Hb. assert (b ∈ mid' ∨ b ∈ l1 ∨ b ∈ l2) as [Hb'|Hb'] by tauto; [by apply Hval|].
    by apply (ch_valid _ _ _ Hc), Hin.
  - intros i c. rewrite !fmap_app, !elem_of_app. intros Hi Hni. rewrite HC' in Hi by tauto.
    destruct (C !! i) as [c0|] eqn:Ec; [|done]. injection Hi as <-. cbn.
    destruct (decide (i ∈ ids mid)) as [(b & -> & Hb)%list_elem_of_fmap|Hm].
    + destruct (ch_data _ _ _ Hc b) as (pb & nb & E); [rewrite !elem_of_app; tauto|]. rewrite Ec in E. injection E as ->. cbn.
      apply Hgone; tauto.
    + apply (ch_other _ _ _ Hc i c0 Ec). rewrite !fmap_app, !elem_of_app. tauto.
Qed.

(** ** Spare nodes *)

(** The stack [fn] with top [fo] holds the nodes of the array that are not in [I]. *)
Definition spare_ok (max fo : Z) (fn : gmap Z Z) (I : list Z) : Prop :=
  ∃ fl, zlen fl = fo + 1 ∧ 0 ≤ fo ∧ (∀ j x, fl !! j = Some x → fn !! Z.of_nat j = Some x) ∧
    NoDup (fl ++ I) ∧ (∀ x, x ∈ fl ++ I → 0 ≤ x < max) ∧ zlen fl + zlen I = max.

Lemma spare_perm max fo fn I I' : I ≡ₚ I' → spare_ok max fo fn I → spare_ok max fo fn I'.
Proof.
  intros HI (fl & ? & ? & ? & Hnd & Hr & Hn). exists fl. split_and!; try done.
  - by rewrite <- HI.
  - intros x Hx. apply Hr. by rewrite HI.
  - unfold zlen in *. by rewrite <- HI.
Qed.

Lemma spare_pop max fo fn I :
  spare_ok max fo fn I → 0 < fo → ∃ y, fn !! fo = Some y ∧ (y ∉ I) ∧ 0 ≤ y < max ∧ spare_ok max (fo - 1) fn (y :: I).
Proof.
  intros (fl & Hfl & Hfo & Hfn & Hnd & Hr & Hn) Hpos. destruct fl as [|y fl _] using rev_ind; [unfold zlen in Hfl; cbn in Hfl; lia|].
  rewrite zlen_app in *. change (zlen [y]) with 1 in *. exists y. rewrite <- app_assoc in *. cbn [app] in *. split_and!.
  - replace fo with (Z.of_nat (length fl)) by (unfold zlen in Hfl; lia). apply Hfn. by apply list_lookup_middle.
  - apply list.NoDup_app in Hnd as (_ & _ & [? _]%NoDup_cons). done.
  - apply (Hr y). apply elem_of_app. right. by left.
  - apply (Hr y). apply elem_of_app. right. by left.
  - exists fl. split_and!; [lia|lia| |done|done|unfold zlen in *; cbn; lia].
    intros j x Hj. apply Hfn. by apply lookup_app_l_Some.
Qed.

Lemma spare_push max fo fn x I :
  spare_ok max fo fn (x :: I) → fo + 1 < max ∧ spare_ok max (fo + 1) (<[fo + 1 := x]> fn) I.
Proof.
  intros (fl & Hfl & Hfo & Hfn & Hnd & Hr & Hn). unfold zlen in *. cbn in Hn. split; [lia|]. exists (fl ++ [x]).
  rewrite <- app_assoc. cbn [app]. split_and!; [unfold zlen; rewrite length_app; cbn; lia|lia| |done|done|unfold zlen; rewrite length_app; cbn; lia].
  intros j y [Hj|[Hlen [E ->]%list_lookup_singleton_Some]]%lookup_app_Some.
  - rewrite lookup_insert_ne; [by apply Hfn|]. apply lookup_lt_Some in Hj. lia.
  - replace (Z.of_nat j) with (fo + 1) by lia. apply lookup_insert_eq.
Qed.

(** ** Representation *)

Record rep (s : Allocator) (bs : list Block) (L : Z → list Z) : Prop := {
  rp_size : 0 < size_ s < 2 ^ 32;
  rp_max : maxAllocs_ s < 2 ^ 32;
  rp_arrays i : 0 ≤ i < maxAllocs_ s → is_Some (nodes_ s !! i) ∧ is_Some (freeNodes_ s !! i);
  rp_chain : chain_ok (cores s) bs (size_ s);
  rp_bins : bins_ok s L;
  rp_members b i : i ∈ L b ↔ ∃ blk, blk ∈ bs ∧ b_node blk = i ∧ b_used blk = false ∧
    SmallFloat.uintToFloatRoundDown (b_size blk) = b;
  rp_spare : spare_ok (maxAllocs_ s) (freeOffset_ s) (freeNodes_ s) (ids bs);
  rp_storage : freeStorage_ s = free_total bs;
}.

Lemma rep_block s bs L blk :
  rep s bs L → blk ∈ bs → 0 ≤ b_off blk ∧ 0 < b_size blk ∧ b_off blk + b_size blk ≤ size_ s.
Proof. intros Hs Hb. apply (tiles_bounds _ _ _ _ (ch_tiles _ _ _ (rp_chain _ _ _ Hs)) Hb). Qed.

Lemma rep_bin_range s bs L blk :
  rep s bs L → blk ∈ bs → 0 ≤ SmallFloat.uintToFloatRoundDown (b_size blk) < 240.
Proof.
  intros Hs Hb. pose proof (rep_block _ _ _ _ Hs Hb). pose proof (rp_size _ _ _ Hs).
  apply round_range. lia.
Qed.

Lemma rep_node s bs L blk :
  rep s bs L → blk ∈ bs → ∃ n, nodes_ s !! b_node blk = Some n ∧ dataOffset n = b_off blk ∧ dataSize n = b_size blk ∧
    used n = b_used blk.
Proof.
  intros Hs Hb. destruct (ch_data _ _ _ (rp_chain _ _ _ Hs) blk Hb) as (p & n & E). unfold cores in E.
  rewrite lookup_fmap in E. destruct (nodes_ s !! b_node blk) as [nd|]; [|done]. exists nd. cbn in E. injection E as -> -> _ _ ->. done.
Qed.

(** The blocks with a node. *)
Lemma block_unique s bs L b b' : rep s bs L → b ∈ bs → b' ∈ bs → b_node b = b_node b' → b = b'.
Proof.
  intros Hs [i Hi]%list_elem_of_lookup [j Hj]%list_elem_of_lookup E. pose proof (ch_nodup _ _ _ (rp_chain _ _ _ Hs)) as Hnd.
  assert (i = j) as ->; [|congruence]. apply (NoDup_lookup _ i j (b_node b) Hnd).
  - by rewrite list_lookup_fmap, Hi.
  - rewrite list_lookup_fmap, Hj, E. done.
Qed.

(** Updates that do not touch the links of the bins. *)
Lemma bins_ok_nodes s L m :
  bins_ok s L → binListPrev <$> m = binListPrev <$> nodes_ s → binListNext <$> m = binListNext <$> nodes_ s →
  bins_ok (set_nodes m s) L.
Proof. intros Hs HP HN. destruct Hs. split; cbn; try done; []. intros b Hb. rewrite HP, HN. auto. Qed.

(** ** Finding a node *)

(** Block [blk] is free, and its node is [x], in bin [b]. *)
Definition free_in (bs : list Block) (b x : Z) (blk : Block) : Prop :=
  blk ∈ bs ∧ b_node blk = x ∧ b_used blk = false ∧ SmallFloat.uintToFloatRoundDown (b_size blk) = b.

Lemma scan_bin_spec s bs L b fits k : ∀ pre l,
  rep s bs L → 0 ≤ b < 256 → L b = pre ++ l →
  ∃ r, scan_bin k fits (first_or unused l) s = (s, Ok r) ∧
    ((r = unused ∧ ∀ blk, blk ∈ bs → b_node blk ∈ take k l → fits (b_size blk) = false) ∨
     ∃ blk, free_in bs b r blk ∧ fits (b_size blk) = true).
Proof.
  induction k as [|k IH]; intros pre l Hs Hb HL; cbn [scan_bin].
  { exists unused. split; [done|]. left. split; [done|]. by intros blk _ ?%elem_of_nil. }
  destruct l as [|x l].
  { exists unused. split; [done|]. left. split; [done|]. by intros blk _ ?%elem_of_nil. } cbn [first_or head from_option id].
  assert (x ∈ L b) as Hx by (rewrite HL; apply elem_of_app; right; by left).
  rewrite (proj2 (Z.eqb_neq x unused)) by (by apply (bk_valid _ _ (rp_bins _ _ _ Hs) b)).
  destruct (bin_split_nodes s L b pre x l (rp_bins _ _ _ Hs) Hb HL) as (n & Hn & _ & Hnext & _).
  erewrite bind_ok; [|by apply node_at_ok]. apply (rp_members _ _ _ Hs) in Hx as (blk & Hblk & Ex & Hfree & Hrd).
  destruct (rep_node _ _ _ _ Hs Hblk) as (n' & Hn' & _ & Hsz & _). rewrite Ex, Hn in Hn'. injection Hn' as <-. rewrite Hsz.
  destruct (fits (b_size blk)) eqn:Ef; [exists x; split; [done|]; right; by exists blk|].
  rewrite Hnext. destruct (IH (pre ++ [x]) l Hs Hb) as (r & Er & Hr); [by rewrite <- app_assoc|]. exists r. split; [done|].
  destruct Hr as [[-> Hr]|?]; [left; split; [done|]|by right]. intros blk' Hb' [E|?]%elem_of_cons; [|by apply Hr].
  assert (blk' = blk) as -> by (apply (block_unique _ _ _ _ _ Hs); congruence || done). done.
Qed.

(** The search finds a free block that fits. With a spare node left it finds one if a bin
    from the rounded-up size on has a node, or one of the first nodes of the bin below
    fits. *)
Lemma find_node_spec s bs L size :
  rep s bs L → 0 < size ≤ size_ s →
  ∃ b x, find_node size s = (s, Ok (b, x)) ∧
    (x = unused ∨ ∃ blk, free_in bs b x blk ∧ size ≤ b_size blk ∧ (freeOffset_ s = 0 → b_size blk = size)) ∧
    (x = unused → freeOffset_ s ≠ 0 → ∀ blk, blk ∈ bs → b_used blk = false →
       SmallFloat.uintToFloatRoundDown (b_size blk) < SmallFloat.uintToFloatRoundUp size ∧
       (size ≤ b_size blk → b_node blk ∉ take BIN_SCAN_LIMIT (L (SmallFloat.uintToFloatRoundDown size)))).
Proof.
  intros Hs Hsize. pose proof (rp_size _ _ _ Hs) as Hrs. destruct (round_range size ltac:(lia)) as [Hrd Hru].
  set (lower := SmallFloat.uintToFloatRoundDown size) in *. set (min := SmallFloat.uintToFloatRoundUp size) in *.
  pose proof (bk_head _ _ (rp_bins _ _ _ Hs)) as Hhd.
  unfold find_node. unfold mbind at 1, M_bind at 1, get_state. cbv zeta. fold lower min.
  destruct (Z.eqb_spec (freeOffset_ s) 0) as [Hz|Hz].
  { destruct (scan_bin_spec s bs L lower (λ n, n =? size) BIN_SCAN_LIMIT [] (L lower) Hs ltac:(lia) eq_refl) as (r & Er & Hr).
    erewrite bind_ok; [|apply bin_at_ok, Hhd; lia]. erewrite bind_ok; [|exact Er]. exists lower, r. split; [done|]. split; [|done].
    destruct Hr as [[-> _]|(blk & Hblk & Hfit%Z.eqb_eq)]; [by left|right]. exists blk. split; [done|]. lia. }
  destruct (find_bin_spec s _ min (bk_bits _ _ (rp_bins _ _ _ Hs)) ltac:(lia)) as (found & Ef & Hfound).
  erewrite bind_ok; [|exact Ef].
  assert (∃ b x, (match found with Some b => x ← bin_at b; mret (b, x) | None => mret (NO_SPACE, unused) end) s = (s, Ok (b, x)) ∧
    ((x = unused ∧ ∀ blk, blk ∈ bs → b_used blk = false → SmallFloat.uintToFloatRoundDown (b_size blk) < min) ∨
     ∃ blk, free_in bs b x blk ∧ size ≤ b_size blk)) as (b & x & Eb & Hx).
  { destruct found as [b|].
    - destruct Hfound as [Hb Hne%negb_true_iff%bool_decide_eq_false]. exists b, (first_or unused (L b)).
      split; [by erewrite bind_ok; [|apply bin_at_ok, Hhd; lia]|]. right.
      pose proof (first_or_elem unused (L b) Hne) as Hin. apply (rp_members _ _ _ Hs) in Hin as (blk & Hblk & Ex & Hfree & Hb').
      exists blk. split; [done|]. pose proof (rep_block _ _ _ _ Hs Hblk). apply round_fits; [lia|lia|]. fold min. lia.
    - exists NO_SPACE, unused. split; [done|]. left. split; [done|]. intros blk Hblk Hfree.
      pose proof (rep_bin_range _ _ _ _ Hs Hblk) as Hr. set (b := SmallFloat.uintToFloatRoundDown (b_size blk)) in *.
      destruct (decide (b < min)) as [|Hge]; [done|]. specialize (Hfound b ltac:(lia)).
      apply negb_false_iff, bool_decide_eq_true in Hfound. assert (b_node blk ∈ L b) as Hin by (apply (rp_members _ _ _ Hs); eauto).
      rewrite Hfound in Hin. by apply elem_of_nil in Hin. }
  erewrite bind_ok; [|exact Eb]. destruct Hx as [[-> Hnone]|(blk & Hblk & Hfit)].
  - rewrite Z.eqb_refl. destruct (Z.eqb_spec lower min) as [Heq|Hneq]; cbn [andb negb].
    { exists b, unused. split; [done|]. split; [by left|]. intros _ _ blk Hblk Hfree. split; [by apply Hnone|]. intros Hfit.
      pose proof (round_mono size (b_size blk) ltac:(lia)). specialize (Hnone _ Hblk Hfree). lia. }
    destruct (scan_bin_spec s bs L lower (λ n, size <=? n) BIN_SCAN_LIMIT [] (L lower) Hs ltac:(lia) eq_refl) as (r & Er & Hr).
    erewrite bind_ok; [|apply bin_at_ok, Hhd; lia]. erewrite bind_ok; [|exact Er]. exists lower, r. split; [done|]. split.
    + destruct Hr as [[-> _]|(blk & Hblk & Hfit%Z.leb_le)]; [by left|right]. exists blk. split; [done|]. split; [done|]. lia.
    + intros Hrun _ blk Hblk Hfree. split; [by apply Hnone|]. intros Hfit Hin. destruct Hr as [[_ Hr]|(blk' & (Hb' & E & _) & _)].
      * specialize (Hr _ Hblk Hin). apply Z.leb_gt in Hr. lia.
      * apply (ch_valid _ _ _ (rp_chain _ _ _ Hs) _ Hb'). congruence.
  - assert (x ≠ unused) as Hxu.
    { destruct Hblk as (Hin & <- & _). by apply (ch_valid _ _ _ (rp_chain _ _ _ Hs)). }
    rewrite (proj2 (Z.eqb_neq _ _) Hxu). cbn [andb]. exists b, x. split; [done|]. split; [|done].
    right. exists blk. split; [done|]. split; [done|]. lia.
Qed.

(** ** The parts of a state besides the chain *)

Definition frees (bs : list Block) : list Block := base.filter (λ b, b_used b = false) bs.

Lemma elem_of_frees bs blk : blk ∈ frees bs ↔ b_used blk = false ∧ blk ∈ bs.
Proof. unfold frees. by rewrite list_elem_of_filter. Qed.

Lemma frees_app a b : frees (a ++ b) = frees a ++ frees b.
Proof. apply list.filter_app. Qed.

Lemma ids_frees bs x : x ∈ ids (frees bs) → x ∈ ids bs.
Proof. intros (blk & -> & [_ Hb]%elem_of_frees)%list_elem_of_fmap. by apply list_elem_of_fmap_2. Qed.

(** [F] are the blocks in the bins, [I] the nodes in use, [n] the free storage. *)
Record parts (s : Allocator) (F : list Block) (I : list Z) (n : Z) (L : Z → list Z) : Prop := {
  pt_arrays i : 0 ≤ i < maxAllocs_ s → is_Some (nodes_ s !! i) ∧ is_Some (freeNodes_ s !! i);
  pt_max : maxAllocs_ s < 2 ^ 32;
  pt_bins : bins_ok s L;
  pt_members b i : i ∈ L b ↔ ∃ blk, blk ∈ F ∧ b_node blk = i ∧ SmallFloat.uintToFloatRoundDown (b_size blk) = b;
  pt_nodup : NoDup (ids F);
  pt_in x : x ∈ ids F → x ∈ I;
  pt_sizes blk : blk ∈ F → 0 < b_size blk < 2 ^ 32;
  pt_spare : spare_ok (maxAllocs_ s) (freeOffset_ s) (freeNodes_ s) I;
  pt_storage : freeStorage_ s = n;
}.

Lemma rep_parts s bs L :
  rep s bs L ↔ 0 < size_ s < 2 ^ 32 ∧ chain_ok (cores s) bs (size_ s) ∧ parts s (frees bs) (ids bs) (free_total bs) L.
Proof.
  split.
  - intros Hs. pose proof Hs as [Hsz Hmax Harr Hch Hb Hm Hsp Hst]. split_and!; [lia|lia|done|]. split; try done.
    + intros b i. rewrite Hm. setoid_rewrite elem_of_frees. naive_solver.
    + eapply sublist_NoDup; [apply Hch|]. apply fmap_sublist, sublist_filter.
    + apply ids_frees.
    + intros blk [_ Hblk]%elem_of_frees. pose proof (rep_block _ _ _ _ Hs Hblk). lia.
  - intros (Hsz & Hch & [Harr Hmax Hb Hm Hnd Hin Hsizes Hsp Hst]). split; try done. intros b i. rewrite Hm.
    setoid_rewrite elem_of_frees. naive_solver.
Qed.

Lemma parts_bin s F I n L blk : parts s F I n L → blk ∈ F → 0 ≤ SmallFloat.uintToFloatRoundDown (b_size blk) < 256.
Proof.
  intros Hs Hb. pose proof (pt_sizes _ _ _ _ _ Hs blk Hb). pose proof (round_range (b_size blk) ltac:(lia)). lia.
Qed.

Lemma parts_perm s F F' I I' n L : F ≡ₚ F' → I ≡ₚ I' → parts s F I n L → parts s F' I' n L.
Proof.
  intros HF HI Hs. destruct Hs. split; try done.
  - intros b i. rewrite pt_members0. by setoid_rewrite HF.
  - by rewrite <- HF.
  - intros x. rewrite <- HF, <- HI. auto.
  - intros blk. rewrite <- HF. auto.
  - by eapply spare_perm.
Qed.

(** The members of the bins when one block leaves them. *)
Lemma members_removed s F I n L blk a c :
  let b := SmallFloat.uintToFloatRoundDown (b_size blk) in
  parts s (blk :: F) I n L → L b = a ++ b_node blk :: c →
  ∀ b' i, i ∈ upd_bin b (a ++ c) L b' ↔
    ∃ blk', blk' ∈ F ∧ b_node blk' = i ∧ SmallFloat.uintToFloatRoundDown (b_size blk') = b'.
Proof.
  intros b Hs HL b' i. pose proof (pt_nodup _ _ _ _ _ Hs) as [Hx Hnd]%NoDup_cons.
  pose proof (bk_nodup _ _ (pt_bins _ _ _ _ _ Hs) b) as Hndb. rewrite HL in Hndb.
  apply list.NoDup_app in Hndb as (_ & Hac & [Hxc _]%NoDup_cons).
  assert (∀ b' i, i ≠ b_node blk → (∃ blk', blk' ∈ blk :: F ∧ b_node blk' = i ∧ SmallFloat.uintToFloatRoundDown (b_size blk') = b') ↔
    ∃ blk', blk' ∈ F ∧ b_node blk' = i ∧ SmallFloat.uintToFloatRoundDown (b_size blk') = b') as Hmove.
  { intros b1 i1 Hne. setoid_rewrite elem_of_cons. naive_solver. }
  assert (∀ blk', blk' ∈ F → b_node blk' ≠ b_node blk) as HF.
  { intros blk' Hin E. apply Hx. rewrite <- E. by apply list_elem_of_fmap_2. }
  destruct (decide (b' = b)) as [->|Hne].
  - rewrite upd_bin_eq. destruct (decide (i = b_node blk)) as [->|Hni].
    + split; [|intros (blk' & Hin & E & _); by apply HF in E]. intros [Hin|Hin]%elem_of_app; [|done].
      exfalso. by apply (Hac _ Hin); left.
    + rewrite <- Hmove, <- (pt_members _ _ _ _ _ Hs), HL, !elem_of_app, elem_of_cons by done. tauto.
  - rewrite upd_bin_ne by done. destruct (decide (i = b_node blk)) as [->|Hni].
    + split; [|intros (blk' & Hin & E & _); by apply HF in E]. intros Hin. exfalso. apply Hne.
      apply (bk_disj _ _ (pt_bins _ _ _ _ _ Hs) b' b _ Hin). rewrite HL. apply elem_of_app. right. by left.
    + by rewrite <- Hmove, <- (pt_members _ _ _ _ _ Hs).
Qed.

Lemma parts_split s F I n L blk :
  parts s (blk :: F) I n L → ∃ a c, L (SmallFloat.uintToFloatRoundDown (b_size blk)) = a ++ b_node blk :: c.
Proof.
  intros Hs. apply list_elem_of_split, (pt_members _ _ _ _ _ Hs). exists blk. split; [by left|done].
Qed.

Lemma parts_unlink s F I n L blk :
  parts s (blk :: F) I n L →
  ∃ s' L', UnlinkNodeFromBin (SmallFloat.uintToFloatRoundDown (b_size blk)) (b_node blk) s = (s', Ok tt) ∧
    parts s' F I n L' ∧ same_rest s s' ∧ cores s' = cores s.
Proof.
  intros Hs. destruct (parts_split _ _ _ _ _ _ Hs) as (a & c & HL). pose proof (parts_bin _ _ _ _ _ blk Hs ltac:(by left)) as Hb.
  destruct (unlink_spec s L _ a (b_node blk) c (pt_bins _ _ _ _ _ Hs) Hb HL) as (s' & E & Hbins & (H1 & H2 & H3 & H4) & Hc & Hst).
  exists s', (upd_bin (SmallFloat.uintToFloatRoundDown (b_size blk)) (a ++ c) L). split; [done|].
  split; [|by split_and!]. pose proof Hs as [Harr Hmax Hb0 Hm Hnd Hin Hsizes Hsp Hstor]. split; try done.
  - intros i. rewrite H2, H3. intros Hi. split; [|by apply Harr].
    assert (is_Some (cores s' !! i)) as Hi' by (rewrite Hc; unfold cores; rewrite lookup_fmap; by apply fmap_is_Some, Harr).
    unfold cores in Hi'. rewrite lookup_fmap in Hi'. by apply fmap_is_Some in Hi'.
  - by rewrite H2.
  - by apply (members_removed s F I n).
  - rewrite fmap_cons in Hnd. by apply NoDup_cons in Hnd as [_ ?].
  - intros x Hx. apply Hin. by right.
  - intros blk' Hb'. apply Hsizes. by right.
  - by rewrite H2, H3, H4.
  - congruence.
Qed.

Lemma cores_is_Some s i : is_Some (cores s !! i) ↔ is_Some (nodes_ s !! i).
Proof. unfold cores. by rewrite lookup_fmap, fmap_is_Some. Qed.

Lemma parts_remove s F I n L blk p q :
  parts s (blk :: F) (b_node blk :: I) n L → cores s !! b_node blk = Some (mkCore (b_off blk) (b_size blk) p q false) →
  0 ≤ n - b_size blk → n < 2 ^ 32 →
  ∃ s' L', RemoveNodeFromBin (b_node blk) s = (s', Ok tt) ∧ parts s' F I (n - b_size blk) L' ∧
    size_ s' = size_ s ∧ maxAllocs_ s' = maxAllocs_ s ∧ cores s' = cores s.
Proof.
  intros Hs Hcore Hn0 Hn. destruct (parts_split _ _ _ _ _ _ Hs) as (a & c & HL).
  pose proof (parts_bin _ _ _ _ _ blk Hs ltac:(by left)) as Hb.
  pose proof (spare_push _ _ _ _ _ (pt_spare _ _ _ _ _ Hs)) as [Hlt Hpush].
  assert (0 ≤ freeOffset_ s) as Hfo0 by (by destruct (pt_spare _ _ _ _ _ Hs) as (fl & _ & ? & _)).
  pose proof (pt_max _ _ _ _ _ Hs) as Hmax.
  destruct (remove_spec s L _ a (b_node blk) c (b_size blk) (pt_bins _ _ _ _ _ Hs) Hb HL) as
    (s' & E & Hbins & H1 & H2 & H3 & H4 & H5 & H6); [by rewrite Hcore|done|lia|apply (pt_arrays _ _ _ _ _ Hs); lia|].
  exists s', (upd_bin (SmallFloat.uintToFloatRoundDown (b_size blk)) (a ++ c) L). split; [done|].
  split; [|by split_and!]. pose proof Hs as [Harr _ Hb0 Hm Hnd Hin Hsizes Hsp Hstor]. rewrite fmap_cons in Hnd.
  apply NoDup_cons in Hnd as [Hx Hnd]. split; try done.
  - intros i. rewrite H2. intros Hi. rewrite <- cores_is_Some, H3, cores_is_Some, H4. split; [by apply Harr|].
    destruct (decide (i = freeOffset_ s + 1)) as [->|]; [rewrite lookup_insert_eq; by eexists|].
    rewrite lookup_insert_ne by done. by apply Harr.
  - by rewrite H2.
  - by apply (members_removed s F (b_node blk :: I) n).
  - intros x Hxin. assert (x ∈ b_node blk :: I) as Hxi by (apply Hin; by right).
    apply elem_of_cons in Hxi as [->|]; [done|done].
  - intros blk' Hb'. apply Hsizes. by right.
  - by rewrite H2, H4, H5.
  - rewrite H6, Hstor. apply Z.mod_small. pose proof (Hsizes blk ltac:(by left)). lia.
Qed.

Lemma parts_insert s F I n L size off :
  parts s F I n L → 0 < freeOffset_ s → 0 < size → 0 ≤ n → n + size < 2 ^ 32 →
  ∃ s' y L', InsertNodeIntoBin size off s = (s', Ok y) ∧ freeNodes_ s !! freeOffset_ s = Some y ∧
    (y ∉ I) ∧ y ≠ unused ∧
    parts s' (mkBlock y off size false :: F) (y :: I) (n + size) L' ∧
    size_ s' = size_ s ∧ maxAllocs_ s' = maxAllocs_ s ∧ cores s' = <[y := mkCore off size unused unused false]> (cores s).
Proof.
  intros Hs Hfo Hsize Hn0 Hn. pose proof (pt_max _ _ _ _ _ Hs) as Hmax.
  destruct (spare_pop _ _ _ _ (pt_spare _ _ _ _ _ Hs) Hfo) as (y & Hy & HyI & Hry & Hsp).
  assert (y ≠ unused) as Hyu by (unfold unused; lia). assert (freeOffset_ s < 2 ^ 32) as Hfo2.
  { destruct (pt_spare _ _ _ _ _ Hs) as (fl & Hfl & _ & _ & _ & _ & Hlen). unfold zlen in *. lia. }
  pose proof (round_range size ltac:(lia)) as [Hrd _].
  assert (∀ b', y ∉ L b') as HyL.
  { intros b' (blk & Hblk & <- & _)%(pt_members _ _ _ _ _ Hs). by apply HyI, (pt_in _ _ _ _ _ Hs), list_elem_of_fmap_2. }
  destruct (insert_spec s L size off y (pt_bins _ _ _ _ _ Hs)) as (s' & E & Hbins & H1 & H2 & H3 & H4 & H5 & H6);
    [lia|lia|done|by apply (pt_arrays _ _ _ _ _ Hs)|done|done|].
  set (b := SmallFloat.uintToFloatRoundDown size) in *. exists s', y, (upd_bin b (y :: L b) L).
  split; [done|]. split; [done|]. split; [done|]. split; [done|]. split; [|by split_and!].
  pose proof Hs as [Harr _ Hb0 Hm Hnd Hin Hsizes _ Hstor]. split; try done.
  - intros i. rewrite H2. intros Hi. rewrite <- cores_is_Some, H3, H4. split; [|by apply Harr].
    destruct (decide (i = y)) as [->|]; [rewrite lookup_insert_eq; by eexists|].
    rewrite lookup_insert_ne, cores_is_Some by done. by apply Harr.
  - by rewrite H2.
  - intros b' i. setoid_rewrite elem_of_cons. destruct (decide (b' = b)) as [->|Hne].
    + rewrite upd_bin_eq, elem_of_cons, Hm. split.
      * intros [->|(blk & ? & ? & ?)]; [exists (mkBlock y off size false); auto|eauto 6].
      * intros (blk & [->|?] & <- & ?); [by left|right; eauto].
    + rewrite upd_bin_ne, Hm by done. split; [intros (blk & ? & ? & ?); eauto 6|].
      intros (blk & [->|?] & ? & E'); [by cbn in E'|eauto].
  - rewrite fmap_cons. apply NoDup_cons. split; [|done]. intros Hy'. apply HyI. by apply Hin.
  - intros x. rewrite fmap_cons, !elem_of_cons. cbn. intros [->|?]; [by left|right; auto].
  - intros blk [->|?]%elem_of_cons; [cbn; lia|auto].
  - by rewrite H2, H4, H5.
  - rewrite H6, Hstor. apply Z.mod_small. lia.
Qed.

(** Updates of nodes that do not touch the links of the bins. *)
Lemma parts_nodes s F I n L m :
  parts s F I n L → binListPrev <$> m = binListPrev <$> nodes_ s → binListNext <$> m = binListNext <$> nodes_ s →
  parts (set_nodes m s) F I n L.
Proof.
  intros [Harr Hmax Hb Hm Hnd Hin Hsizes Hsp Hst] HP HN. split; try done; [|by apply bins_ok_nodes].
  intros i Hi. cbn. split; [|by apply Harr]. destruct (Harr i Hi) as [Hi' _].
  assert (is_Some ((binListPrev <$> m) !! i)) as Hx by (rewrite HP, lookup_fmap; by apply fmap_is_Some).
  rewrite lookup_fmap in Hx. by apply fmap_is_Some in Hx.
Qed.
