(* ===== verification/AllocatorOps.v ===== *)
(** * Allocate

    What [Allocate] does to the blocks that a state represents, on every branch: the
    block it takes, and the block that the rest becomes. *)

From Stdlib Require Import ZArith Lia.
From stdpp Require Import base list gmap numbers list_numbers.
From S2P Require Import Prelude.
From S2P Require Import OffsetAllocator.
From S2P Require Import AllocatorBins.
From S2P Require Import AllocatorLists.
From S2P Require Import AllocatorRegions.
Local Open Scope Z_scope.

(** ** Updates of nodes, seen on the cores *)

Definition c_set_prev v (c : Core) : Core := mkCore (c_off c) (c_size c) v (c_next c) (c_used c).
Definition c_set_next v (c : Core) : Core := mkCore (c_off c) (c_size c) (c_prev c) v (c_used c).

Lemma cores_alter f g i s z :
  (∀ n, core (f n) = g (core n)) →
  cores (set_nodes (alter f i (nodes_ s)) s) !! z = if z =? i then g <$> cores s !! z else cores s !! z.
Proof.
  intros Hg. unfold cores. cbn. rewrite !lookup_fmap. destruct (Z.eqb_spec z i) as [->|Hne].
  - rewrite lookup_alter_eq. destruct (nodes_ s !! i); cbn; [by rewrite Hg|done].
  - by rewrite lookup_alter_ne.
Qed.

Lemma cores_alter_opt f g i s z :
  (∀ n, core (f n) = g (core n)) →
  cores (set_nodes (alter_opt f i (nodes_ s)) s) !! z =
    if (z =? i) && negb (i =? unused) then g <$> cores s !! z else cores s !! z.
Proof.
  intros Hg. unfold alter_opt. destruct (i =? unused); cbn [negb]; [by rewrite andb_false_r|].
  rewrite andb_true_r. by apply cores_alter.
Qed.

Lemma parts_alter s F I n L f i :
  parts s F I n L → (∀ n, binListPrev (f n) = binListPrev n) → (∀ n, binListNext (f n) = binListNext n) →
  parts (set_nodes (alter f i (nodes_ s)) s) F I n L.
Proof. intros Hs HP HN. apply parts_nodes; [done|..]; by apply fmap_alter_same. Qed.

Lemma parts_alter_opt s F I n L f i :
  parts s F I n L → (∀ n, binListPrev (f n) = binListPrev n) → (∀ n, binListNext (f n) = binListNext n) →
  parts (set_nodes (alter_opt f i (nodes_ s)) s) F I n L.
Proof. intros Hs HP HN. apply parts_nodes; [done|..]; by apply fmap_alter_opt_same. Qed.

Lemma add_storage_ok s F I n L d :
  parts s F I n L → 0 ≤ n + d < 2 ^ 32 →
  add_storage d s = (set_storage (n + d) s, Ok tt) ∧ parts (set_storage (n + d) s) F I (n + d) L.
Proof.
  intros [Harr Hmax Hb Hm Hnd Hin Hsizes Hsp Hst] Hd. split.
  - unfold add_storage, modify. rewrite Hst. unfold u32. by rewrite (Z.mod_small (n + d)).
  - split; try done. by destruct Hb; split.
Qed.

(** The border of a node in the chain. *)
Lemma chain_border C l1 x l2 g z :
  let p := last_or unused (ids l1) in let q := first_or unused (ids l2) in
  linked (c_prev <$> C) (c_next <$> C) unused (ids l1 ++ x :: ids l2) unused → NoDup (ids l1 ++ x :: ids l2) → z ≠ x →
  border p q x g z <$> C !! z = (if (z =? q) && negb (q =? unused) then c_set_prev g <$> C !! z else C !! z).
Proof.
  intros p q Hl Hnd Hz. destruct (C !! z) as [c|] eqn:Ec; [|by destruct (_ && _)].
  assert ((if (z =? p) && negb (p =? unused) then x else c_next c) = c_next c) as En.
  { destruct (Z.eqb_spec z p) as [->|]; [|done]. destruct (Z.eqb_spec p unused) as [|Hpu]; [done|]. cbn.
    destruct l1 as [|b l1 _] using rev_ind; [done|]. unfold p in *. rewrite fmap_app in *. change (ids [b]) with [b_node b] in *.
    rewrite last_or_snoc in *. rewrite <- app_assoc in Hl. apply linked_app in Hl as [_ (_ & HN & _)]. cbn in HN.
    rewrite lookup_fmap, Ec in HN. by injection HN as ->. }
  unfold border. cbn. rewrite En. destruct ((z =? q) && negb (q =? unused)); destruct c; done.
Qed.

(** ** Allocate *)

Lemma chain_links C bs total l1 b l2 :
  chain_ok C bs total → bs = l1 ++ b :: l2 →
  C !! b_node b = Some (mkCore (b_off b) (b_size b) (last_or unused (ids l1)) (first_or unused (ids l2)) (b_used b)).
Proof.
  intros Hc ->. destruct (ch_data _ _ _ Hc b) as (p & q & E); [apply elem_of_app; right; by left|].
  pose proof (ch_linked _ _ _ Hc) as Hl. rewrite fmap_app in Hl. apply linked_at in Hl as [HP HN].
  rewrite lookup_fmap, E in HP, HN. injection HP as ->. injection HN as ->. done.
Qed.

Lemma frees_middle l1 b l2 : b_used b = false → frees (l1 ++ b :: l2) ≡ₚ b :: frees (l1 ++ l2).
Proof.
  intros Hb. rewrite !frees_app. unfold frees at 2. rewrite filter_cons, decide_True by done. symmetry. apply Permutation_middle.
Qed.

(** Taking a free block off its bin. *)
Lemma take_off s l1 blk l2 L size :
  rep s (l1 ++ blk :: l2) L → b_used blk = false →
  ∃ s1 s2 s3 L3, upd_node (b_node blk) (set_taken size) s = (s1, Ok tt) ∧
    UnlinkNodeFromBin (SmallFloat.uintToFloatRoundDown (b_size blk)) (b_node blk) s1 = (s2, Ok tt) ∧
    add_storage (- b_size blk) s2 = (s3, Ok tt) ∧
    parts s3 (frees (l1 ++ l2)) (ids (l1 ++ blk :: l2)) (free_total (l1 ++ l2)) L3 ∧ same_rest s s3 ∧
    ∀ z, cores s3 !! z = if z =? b_node blk then
      Some (mkCore (b_off blk) size (last_or unused (ids l1)) (first_or unused (ids l2)) true) else cores s !! z.
Proof.
  intros Hs Hfree. pose proof Hs as (Hsz & Hch & Hp)%rep_parts. set (x := b_node blk) in *.
  assert (blk ∈ l1 ++ blk :: l2) as Hin by (apply elem_of_app; right; by left).
  destruct (rep_node _ _ _ _ Hs Hin) as (nd & Hnd & _). pose proof (rep_block _ _ _ _ Hs Hin) as Hblk.
  pose proof (chain_links _ _ _ l1 blk l2 Hch eq_refl) as Hx. rewrite Hfree in Hx.
  set (s1 := set_nodes (alter (set_taken size) x (nodes_ s)) s).
  assert (parts s1 (blk :: frees (l1 ++ l2)) (ids (l1 ++ blk :: l2)) (free_total (l1 ++ blk :: l2)) L) as Hp1.
  { apply parts_alter; [|done|done]. eapply parts_perm; [by apply frees_middle|done|done]. }
  destruct (parts_unlink _ _ _ _ _ _ Hp1) as (s2 & L2 & E2 & Hp2 & Hsame & Hc2).
  assert (free_total (l1 ++ blk :: l2) = free_total (l1 ++ l2) + b_size blk) as Etot.
  { rewrite !free_total_app. cbn. rewrite Hfree. unfold free_total. lia. }
  pose proof (free_total_bounds _ _ _ (ch_tiles _ _ _ Hch)) as Htot.
  assert (0 ≤ free_total (l1 ++ l2)) as Hnn.
  { pose proof (ch_tiles _ _ _ Hch) as Ht. apply tiles_app in Ht as (m & Ht1%free_total_bounds & (_ & _ & Ht2%free_total_bounds)).
    rewrite free_total_app. lia. }
  destruct (add_storage_ok _ _ _ _ _ (- b_size blk) Hp2) as [E3 Hp3]; [lia|].
  eexists s1, s2, _, L2. split; [apply upd_node_ok; by eexists|]. split; [exact E2|]. split; [exact E3|].
  split; [|split; [by destruct Hsame as (? & ? & ? & ?)|]].
  - replace (free_total (l1 ++ l2)) with (free_total (l1 ++ blk :: l2) + - b_size blk) by lia. exact Hp3.
  - intros z. change (cores (set_storage (free_total (l1 ++ blk :: l2) + - b_size blk) s2)) with (cores s2).
    rewrite Hc2. unfold s1. rewrite (cores_alter _ (λ c, mkCore (c_off c) size (c_prev c) (c_next c) true)) by done.
    destruct (Z.eqb_spec z x) as [->|]; [|done]. unfold x. by rewrite Hx.
Qed.

(** The blocks after an allocation from block [blk]; [y] is the node of the rest. *)
Definition alloc_blocks (l1 : list Block) (blk : Block) (l2 : list Block) (size y : Z) : list Block :=
  l1 ++ mkBlock (b_node blk) (b_off blk) size true ::
  (if b_size blk =? size then l2 else mkBlock y (b_off blk + size) (b_size blk - size) false :: l2).

(** The chain when the whole block is taken. *)
Lemma blocks_take C C' l1 blk l2 total :
  let x := b_node blk in
  chain_ok C (l1 ++ blk :: l2) total → b_used blk = false →
  (∀ z, C' !! z = if z =? x then
     Some (mkCore (b_off blk) (b_size blk) (last_or unused (ids l1)) (first_or unused (ids l2)) true) else C !! z) →
  chain_ok C' (l1 ++ mkBlock x (b_off blk) (b_size blk) true :: l2) total.
Proof.
  intros x Hc Hfree HC'. set (blk' := mkBlock x (b_off blk) (b_size blk) true).
  pose proof (ch_nodup _ _ _ Hc) as Hnd. pose proof (ch_linked _ _ _ Hc) as Hl. rewrite fmap_app in Hnd, Hl.
  pose proof (ch_alone _ _ _ Hc) as Hal. apply alone_app in Hal as [Hal1 [Hal2 Hal3]]. rewrite Hfree in Hal3.
  change (l1 ++ blk' :: l2) with (l1 ++ [blk'] ++ l2). eapply (chain_replace C C' l1 [blk] [blk'] l2); [exact Hc|..].
  - done.
  - apply alone_app. split; [done|]. split; [done|]. by apply alone_weaken.
  - by rewrite !fmap_app.
  - intros b ->%list_elem_of_singleton. cbn. apply (ch_valid _ _ _ Hc). apply elem_of_app. right. by left.
  - cbn. rewrite !lookup_fmap, HC', Z.eqb_refl. done.
  - intros b ->%list_elem_of_singleton. unfold data_ok. cbn. rewrite HC', Z.eqb_refl. by eexists _, _.
  - intros z Hz. assert (z ≠ x) as Hzx by (intros ->; apply Hz; by left). rewrite HC', (proj2 (Z.eqb_neq _ _) Hzx).
    cbn [fmap list_fmap first_or head last_or last from_option id b_node blk'].
    rewrite (chain_border C l1 x l2 x z Hl Hnd Hzx). destruct (Z.eqb_spec z (first_or unused (ids l2))) as [->|]; [|done].
    destruct (Z.eqb_spec (first_or unused (ids l2)) unused) as [|Hq]; [done|]. cbn.
    destruct l2 as [|b l2]; [done|]. cbn. apply linked_app in Hl as [_ (_ & _ & HP & _)]. cbn in HP. rewrite lookup_fmap in HP.
    destruct (C !! b_node b) as [[]|]; [|done]. cbn in HP |- *. by injection HP as ->.
  - intros b ->%list_elem_of_singleton Hb. by destruct Hb; left.
Qed.

(** The chain when a block is split; node [y] gets the rest. *)
Lemma chain_split C C' l1 blk l2 total size y :
  let x := b_node blk in let p := last_or unused (ids l1) in let q := first_or unused (ids l2) in
  chain_ok C (l1 ++ blk :: l2) total → b_used blk = false → 0 < size < b_size blk →
  y ∉ ids (l1 ++ blk :: l2) → y ≠ unused →
  C' !! x = Some (mkCore (b_off blk) size p y true) →
  C' !! y = Some (mkCore (b_off blk + size) (b_size blk - size) x q false) →
  (∀ z, z ≠ x → z ≠ y → C' !! z = if (z =? q) && negb (q =? unused) then c_set_prev y <$> C !! z else C !! z) →
  chain_ok C' (l1 ++ mkBlock x (b_off blk) size true :: mkBlock y (b_off blk + size) (b_size blk - size) false :: l2) total.
Proof.
  intros x p q Hc Hfree Hsize Hy Hyu Hx' Hy' HC'. set (b1 := mkBlock x _ _ _). set (b2 := mkBlock y _ _ _).
  pose proof (ch_nodup _ _ _ Hc) as Hnd. pose proof (ch_linked _ _ _ Hc) as Hl. rewrite fmap_app in Hnd, Hl.
  pose proof (ch_alone _ _ _ Hc) as Hal. apply alone_app in Hal as [Hal1 [Hal2 Hal3]]. rewrite Hfree in Hal3.
  rewrite fmap_app, fmap_cons in Hy. apply not_elem_of_app in Hy as [Hy1 [Hyx Hy2]%not_elem_of_cons].
  change (l1 ++ b1 :: b2 :: l2) with (l1 ++ [b1; b2] ++ l2). eapply (chain_replace C C' l1 [blk] [b1; b2] l2); [exact Hc|..].
  - intros o e. cbn. intros (-> & _ & <-). split_and!; lia.
  - apply alone_app. split; [done|]. cbn. split_and!; done.
  - rewrite !fmap_app. cbn. apply list.NoDup_app in Hnd as (Hnd1 & Hd & [Hx2 Hnd2]%NoDup_cons). fold x in Hx2, Hd.
    apply list.NoDup_app. split_and!; [done| |].
    + intros z Hz. rewrite !not_elem_of_cons. split_and!; [intros ->; apply (Hd x Hz); by left|intros ->; by apply Hy1|].
      intros Hz2. apply (Hd z Hz). by right.
    + apply NoDup_cons. split; [|by apply NoDup_cons]. rewrite not_elem_of_cons. split; [intros E; by apply Hyx|done].
  - intros b [->|[->|[]%elem_of_nil]%elem_of_cons]%elem_of_cons; [|done]. cbn. apply (ch_valid _ _ _ Hc), elem_of_app. right. by left.
  - cbn. rewrite !lookup_fmap, Hx', Hy'. done.
  - intros b [->|[->|[]%elem_of_nil]%elem_of_cons]%elem_of_cons; unfold data_ok; cbn; [rewrite Hx'|rewrite Hy']; by eexists _, _.
  - intros z Hz. cbn in Hz. rewrite !not_elem_of_cons in Hz. destruct Hz as (Hzx & Hzy & _). rewrite HC' by done.
    change (first_or (first_or unused (ids l2)) (ids [b1; b2])) with x.
    change (last_or (last_or unused (ids l1)) (ids [b1; b2])) with y. by rewrite (chain_border C l1 x l2 y z Hl Hnd Hzx).
  - intros b ->%list_elem_of_singleton Hb. destruct Hb. by left.
Qed.

Lemma node_of_core s z c : cores s !! z = Some c → ∃ n, nodes_ s !! z = Some n ∧ core n = c.
Proof. unfold cores. rewrite lookup_fmap. destruct (nodes_ s !! z) as [n|]; [|done]. intros [= <-]. by exists n. Qed.

(** Linking the rest of a split block into the chain. *)
Lemma link_rest s F I n L x y off size p q rest :
  parts s F I n L → x ≠ y → q ≠ x → q ≠ y → (q ≠ unused → is_Some (cores s !! q)) →
  cores s !! x = Some (mkCore off size p q true) → cores s !! y = Some (mkCore (off + size) rest unused unused false) →
  ∃ s', (node ← node_at x;
         (if negb (neighborNext node =? unused) then upd_node (neighborNext node) (set_neighborPrev y) else mret tt) ;;
         upd_node y (set_neighborPrev x) ;;
         node ← node_at x;
         upd_node y (set_neighborNext (neighborNext node)) ;;
         upd_node x (set_neighborNext y)) s = (s', Ok tt) ∧ parts s' F I n L ∧ size_ s' = size_ s ∧ maxAllocs_ s' = maxAllocs_ s ∧
    cores s' !! x = Some (mkCore off size p y true) ∧ cores s' !! y = Some (mkCore (off + size) rest x q false) ∧
    ∀ z, z ≠ x → z ≠ y → cores s' !! z = if (z =? q) && negb (q =? unused) then c_set_prev y <$> cores s !! z else cores s !! z.
Proof.
  intros Hp Hxy Hqx Hqy Hq Hx Hy. destruct (node_of_core _ _ _ Hx) as (nx & Hnx & Ex).
  assert (neighborNext nx = q) as Enx by (destruct nx; by injection Ex). erewrite bind_ok; [|by apply node_at_ok]. rewrite Enx.
  erewrite bind_ok; [|apply upd_opt_ok; intros Hne; by apply cores_is_Some, Hq]. set (s1 := set_nodes _ s).
  assert (∀ z, cores s1 !! z = if (z =? q) && negb (q =? unused) then c_set_prev y <$> cores s !! z else cores s !! z) as H1
    by (intros z; by apply cores_alter_opt).
  assert (parts s1 F I n L) as Hp1 by (by apply parts_alter_opt).
  assert (cores s1 !! x = cores s !! x) as H1x by (rewrite H1, (proj2 (Z.eqb_neq x q)) by congruence; done).
  assert (cores s1 !! y = cores s !! y) as H1y by (rewrite H1, (proj2 (Z.eqb_neq y q)) by congruence; done).
  erewrite bind_ok; [|apply upd_node_ok; apply cores_is_Some; rewrite H1y, Hy; by eexists]. set (s2 := set_nodes _ s1).
  assert (∀ z, cores s2 !! z = if z =? y then c_set_prev x <$> cores s1 !! z else cores s1 !! z) as H2 by (intros z; by apply cores_alter).
  assert (cores s2 !! x = cores s !! x) as H2x by (rewrite H2, (proj2 (Z.eqb_neq x y)) by done; done).
  rewrite Hx in H2x. destruct (node_of_core _ _ _ H2x) as (nx2 & Hnx2 & Ex2).
  assert (neighborNext nx2 = q) as Enx2 by (destruct nx2; by injection Ex2). erewrite bind_ok; [|by apply node_at_ok]. rewrite Enx2.
  erewrite bind_ok; [|apply upd_node_ok; apply cores_is_Some; rewrite H2, Z.eqb_refl, H1y, Hy; by eexists]. set (s3 := set_nodes _ s2).
  assert (∀ z, cores s3 !! z = if z =? y then c_set_next q <$> cores s2 !! z else cores s2 !! z) as H3 by (intros z; by apply cores_alter).
  rewrite upd_node_ok by (apply cores_is_Some; rewrite H3, (proj2 (Z.eqb_neq x y)), H2x by done; by eexists). set (s4 := set_nodes _ s3).
  assert (∀ z, cores s4 !! z = if z =? x then c_set_next y <$> cores s3 !! z else cores s3 !! z) as H4 by (intros z; by apply cores_alter).
  exists s4. split; [done|]. split; [by repeat apply parts_alter|]. split_and!; [done|done| | |].
  - by rewrite H4, Z.eqb_refl, H3, (proj2 (Z.eqb_neq x y)), H2x.
  - by rewrite H4, (proj2 (Z.eqb_neq y x)), H3, Z.eqb_refl, H2, Z.eqb_refl, H1y, Hy by done.
  - intros z Hzx Hzy. by rewrite H4, (proj2 (Z.eqb_neq z x)), H3, (proj2 (Z.eqb_neq z y)), H2, (proj2 (Z.eqb_neq z y)), H1 by done.
Qed.

Lemma rep_spare s bs L : rep s bs L → 0 ≤ freeOffset_ s ∧ freeOffset_ s + 1 + zlen bs = maxAllocs_ s.
Proof.
  intros Hs. destruct (rp_spare _ _ _ Hs) as (fl & Hfl & H0 & _ & _ & _ & Hn). unfold zlen in *. rewrite length_fmap in Hn. lia.
Qed.

Lemma ids_middle l1 (a b : Block) l2 : b_node a = b_node b → ids (l1 ++ a :: l2) = ids (l1 ++ b :: l2).
Proof. intros E. rewrite !fmap_app, !fmap_cons. by rewrite E. Qed.

Lemma free_total_middle l1 b l2 : free_total (l1 ++ b :: l2) = free_total (l1 ++ l2) + (if b_used b then 0 else b_size b).
Proof. rewrite !free_total_app. cbn. unfold free_total. lia. Qed.

Lemma frees_used l1 b l2 : b_used b = true → frees (l1 ++ b :: l2) = frees (l1 ++ l2).
Proof. intros Hb. rewrite !frees_app. f_equal. unfold frees. by rewrite filter_cons, decide_False by (rewrite Hb; done). Qed.

Lemma free_total_part l1 b l2 o e : tiles o (l1 ++ b :: l2) e → 0 ≤ free_total (l1 ++ l2) ∧ free_total (l1 ++ l2) + b_size b ≤ e - o.
Proof.
  intros (m & Ht1%free_total_bounds & (_ & _ & Ht2%free_total_bounds))%tiles_app. rewrite free_total_app. lia.
Qed.

(** The rest of a block becomes a free block of its own. *)
Lemma split_rest s s3 l1 blk l2 L size L3 :
  let x := b_node blk in
  rep s (l1 ++ blk :: l2) L → b_used blk = false → 0 < size < b_size blk → 0 < freeOffset_ s →
  parts s3 (frees (l1 ++ l2)) (ids (l1 ++ blk :: l2)) (free_total (l1 ++ l2)) L3 → same_rest s s3 →
  (∀ z, cores s3 !! z = if z =? x then
     Some (mkCore (b_off blk) size (last_or unused (ids l1)) (first_or unused (ids l2)) true) else cores s !! z) →
  ∃ s' L' y, (newNodeIndex ← InsertNodeIntoBin (b_size blk - size) (b_off blk + size);
         node ← node_at x;
         (if negb (neighborNext node =? unused) then upd_node (neighborNext node) (set_neighborPrev newNodeIndex)
          else mret tt) ;;
         upd_node newNodeIndex (set_neighborPrev x) ;;
         node ← node_at x;
         upd_node newNodeIndex (set_neighborNext (neighborNext node)) ;;
         upd_node x (set_neighborNext newNodeIndex)) s3 = (s', Ok tt) ∧
    rep s' (l1 ++ mkBlock x (b_off blk) size true :: mkBlock y (b_off blk + size) (b_size blk - size) false :: l2) L' ∧
    size_ s' = size_ s ∧ maxAllocs_ s' = maxAllocs_ s ∧ (y ∉ ids (l1 ++ blk :: l2)).
Proof.
  intros x Hs Hfree Hsize Hfo Hp3 (R1 & R2 & R3 & R4) Hc3. pose proof Hs as (Hsz & Hch & _)%rep_parts.
  pose proof (free_total_part _ _ _ _ _ (ch_tiles _ _ _ Hch)) as Htot.
  destruct (parts_insert s3 _ _ _ _ (b_size blk - size) (b_off blk + size) Hp3) as
    (s4 & y & L4 & E4 & _ & HyI & Hyu & Hp4 & S1 & S2 & Hc4); [rewrite R4; lia|lia|lia|lia|].
  assert (x ∈ ids (l1 ++ blk :: l2)) as Hxin by (apply list_elem_of_fmap_2, elem_of_app; right; by left).
  assert (x ≠ y) as Hxy by (by intros ->). set (q := first_or unused (ids l2)) in *.
  assert (q ≠ unused → q ∈ ids l2) as Hq by (intros Hne; apply first_or_elem; intros E; unfold q in Hne; by rewrite E in Hne).
  assert (q ≠ unused → q ∈ ids (l1 ++ blk :: l2)) as Hq' by (intros Hne; rewrite fmap_app, fmap_cons, elem_of_app, elem_of_cons; auto).
  assert (q ≠ x) as Hqx.
  { intros E. pose proof (ch_nodup _ _ _ Hch) as Hnd. rewrite fmap_app in Hnd. apply list.NoDup_app in Hnd as (_ & _ & [Hx2 _]%NoDup_cons).
    apply Hx2. fold x. rewrite <- E. apply Hq. rewrite E. apply (ch_valid _ _ _ Hch), elem_of_app. right. by left. }
  assert (q ≠ y) as Hqy by (intros E; apply HyI; rewrite <- E; apply Hq'; by rewrite E).
  destruct (link_rest s4 _ _ _ _ x y (b_off blk) size (last_or unused (ids l1)) q (b_size blk - size) Hp4 Hxy Hqx Hqy) as
    (s5 & E5 & Hp5 & T1 & T2 & H5x & H5y & H5).
  - intros Hne. rewrite Hc4, lookup_insert_ne, Hc3, (proj2 (Z.eqb_neq q x)) by congruence.
    destruct (proj1 (list_elem_of_fmap _ _ _) (Hq' Hne)) as (b & -> & Hb). destruct (ch_data _ _ _ Hch b Hb) as (? & ? & ->). by eexists.
  - by rewrite Hc4, lookup_insert_ne, Hc3, Z.eqb_refl by congruence.
  - by rewrite Hc4, lookup_insert_eq.
  - exists s5, L4, y. split; [erewrite bind_ok; [exact E5|exact E4]|]. split; [|split_and!; congruence || done].
    apply rep_parts. split; [congruence|]. split.
    + rewrite T1, S1, R1. apply (chain_split (cores s)); try done; [].
      intros z Hzx Hzy. fold x in Hzx. by rewrite H5, Hc4, lookup_insert_ne, Hc3, (proj2 (Z.eqb_neq z x)) by congruence.
    + set (bx := mkBlock x _ _ _). set (by_ := mkBlock y _ _ _). rewrite frees_used by done.
      assert (free_total (l1 ++ bx :: by_ :: l2) = free_total (l1 ++ l2) + (b_size blk - size)) as -> by
        (rewrite free_total_middle; cbn [b_used bx]; rewrite free_total_middle; cbn; lia).
      eapply parts_perm; [| |exact Hp5].
      * symmetry. by apply (frees_middle l1 by_ l2).
      * rewrite !fmap_app, !fmap_cons. change (b_node bx) with (b_node blk). change (b_node by_) with y. solve_Permutation.
Qed.

(** An allocation from a block that was found. *)
Lemma take_node_spec s l1 blk l2 L size :
  rep s (l1 ++ blk :: l2) L → b_used blk = false → 0 < size ≤ b_size blk → (freeOffset_ s = 0 → b_size blk = size) →
  ∃ s' L' y, take_node size (SmallFloat.uintToFloatRoundDown (b_size blk)) (b_node blk) s =
      (s', Ok (mkAllocation (b_off blk) (b_node blk))) ∧
    rep s' (alloc_blocks l1 blk l2 size y) L' ∧ size_ s' = size_ s ∧ maxAllocs_ s' = maxAllocs_ s ∧
    (y ∉ ids (l1 ++ blk :: l2)).
Proof.
  intros Hs Hfree Hsize Hfo. pose proof Hs as (Hsz & Hch & _)%rep_parts. set (x := b_node blk) in *.
  assert (blk ∈ l1 ++ blk :: l2) as Hin by (apply elem_of_app; right; by left).
  destruct (rep_node _ _ _ _ Hs Hin) as (nd & Hnd & Hoff & Hds & _). pose proof (rep_block _ _ _ _ Hs Hin) as Hblk.
  destruct (take_off s l1 blk l2 L size Hs Hfree) as (s1 & s2 & s3 & L3 & E1 & E2 & E3 & Hp3 & Hsame & Hc3).
  fold x in E1, E2, Hc3. unfold take_node. erewrite bind_ok; [|by apply node_at_ok]. rewrite Hds, Hoff.
  rewrite (proj2 (Z.ltb_ge _ _)) by lia. assert (u32 (b_size blk - size) = b_size blk - size) as -> by (apply Z.mod_small; lia).
  unfold mbind at 1, M_bind at 1, get_state.
  assert ((0 <? b_size blk - size) && (freeOffset_ s =? 0) = false) as ->.
  { apply andb_false_iff. destruct (Z.eqb_spec (freeOffset_ s) 0) as [Hz|]; [left|by right]. apply Z.ltb_ge. rewrite Hfo by done. lia. }
  erewrite bind_ok; [|exact E1]. erewrite bind_ok; [|exact E2]. erewrite bind_ok; [|exact E3].
  assert (∀ s' bs' L', rep s' bs' L' → mkBlock x (b_off blk) size true ∈ bs' →
    (node ← node_at x; mret (mkAllocation (dataOffset node) x)) s' = (s', Ok (mkAllocation (b_off blk) x))) as Hend.
  { intros s' bs' L' Hs' Hb'. destruct (rep_node _ _ _ _ Hs' Hb') as (n & Hn & Hno & _). cbn in Hn, Hno.
    erewrite bind_ok; [|by apply node_at_ok]. by rewrite Hno. }
  unfold alloc_blocks. destruct (Z.eqb_spec (b_size blk) size) as [Heq|Hneq].
  - rewrite (proj2 (Z.ltb_ge _ _)) by lia. erewrite bind_ok; [|reflexivity]. destruct Hsame as (R1 & R2 & R3 & R4).
    assert (rep s3 (l1 ++ mkBlock x (b_off blk) size true :: l2) L3) as Hs3.
    { apply rep_parts. rewrite R1. split; [done|]. rewrite <- Heq. split; [apply (blocks_take _ _ _ _ _ _ Hch Hfree); by rewrite Heq|].
      rewrite frees_used, free_total_middle, Z.add_0_r by done. by rewrite (ids_middle l1 _ blk l2). }
    exists s3, L3, unused. split; [apply (Hend s3 _ _ Hs3), elem_of_app; right; by left|]. split_and!; [done|done|done|].
    intros (b & E & Hb)%list_elem_of_fmap. by apply (ch_valid _ _ _ Hch b Hb).
  - rewrite (proj2 (Z.ltb_lt _ _)) by lia. pose proof (rep_spare _ _ _ Hs) as [Hfo0 _].
    assert (u32 (b_off blk + size) = b_off blk + size) as -> by (apply Z.mod_small; lia).
    destruct (split_rest s s3 l1 blk l2 L size L3 Hs Hfree) as (s' & L' & y & E & Hs' & ? & ? & ?); [lia|lia|done..|].
    erewrite bind_ok; [|exact E]. exists s', L', y. split; [apply (Hend s' _ _ Hs'), elem_of_app; right; by left|]. done.
Qed.

(** A free block that fits is in the bin of the size, or in one whose nodes all fit; if it
    was not found it is not among the first nodes of its bin, so the bin has more nodes
    than the search visits. *)
Lemma missed_bin s bs L size blk :
  rep s bs L → 0 ≤ size ≤ b_size blk → blk ∈ bs → b_used blk = false →
  SmallFloat.uintToFloatRoundDown (b_size blk) < SmallFloat.uintToFloatRoundUp size →
  b_node blk ∉ take BIN_SCAN_LIMIT (L (SmallFloat.uintToFloatRoundDown size)) → (BIN_SCAN_LIMIT < length (frees bs))%nat.
Proof.
  intros Hs Hsize Hin Hfree Hlt Hnot. pose proof (round_mono size (b_size blk) ltac:(lia)) as Hmono.
  pose proof (round_up_down size ltac:(lia)) as [Hup _]. set (lower := SmallFloat.uintToFloatRoundDown size) in *.
  assert (b_node blk ∈ L lower) as HL by (apply (rp_members _ _ _ Hs); exists blk; split_and!; [done|done|done|lia]).
  assert (length (L lower) ≤ length (ids (frees bs)))%nat as Hlen.
  { apply submseteq_length, NoDup_submseteq; [apply (bk_nodup _ _ (rp_bins _ _ _ Hs))|].
    intros x (b & Hb & <- & Hbf & _)%(rp_members _ _ _ Hs). apply list_elem_of_fmap_2. by apply elem_of_frees. }
  rewrite length_fmap in Hlen. destruct (decide (length (L lower) ≤ BIN_SCAN_LIMIT)%nat) as [Hle|]; [|lia].
  by rewrite take_ge in Hnot.
Qed.

(** [Allocate] takes a free block that fits, or changes nothing. With a spare node left it
    fails only if every free block is in a bin below the one of the rounded-up size, and
    if none fits or there are many free blocks. *)
Lemma Allocate_spec s bs L size :
  rep s bs L → 0 ≤ size < 2 ^ 32 →
  (∃ l1 blk l2 y s' L', bs = l1 ++ blk :: l2 ∧ b_used blk = false ∧ 0 < size ≤ b_size blk ∧
     Allocate size s = (s', Ok (mkAllocation (b_off blk) (b_node blk))) ∧
     rep s' (alloc_blocks l1 blk l2 size y) L' ∧ size_ s' = size_ s ∧ maxAllocs_ s' = maxAllocs_ s ∧ (y ∉ ids bs)) ∨
  (Allocate size s = (s, Ok no_allocation) ∧
   (0 < size → freeOffset_ s ≠ 0 → ∀ blk, blk ∈ bs → b_used blk = false →
      SmallFloat.uintToFloatRoundDown (b_size blk) < SmallFloat.uintToFloatRoundUp size ∧
      (size ≤ b_size blk → (BIN_SCAN_LIMIT < length (frees bs))%nat))).
Proof.
  intros Hs Hsize. pose proof (rp_size _ _ _ Hs) as Hsz.
  assert (Allocate size s = (if (size =? 0) || (size_ s <? size) then mret no_allocation
    else '(b, x) ← find_node size; if x =? unused then mret no_allocation else take_node size b x) s) as -> by done.
  destruct (Z.eqb_spec size 0) as [->|Hnz]; [right; split; [done|lia]|]. cbn [orb].
  destruct (Z.ltb_spec (size_ s) size) as [Hbig|Hle].
  { right. split; [done|]. intros _ _ blk Hblk _. pose proof (rep_block _ _ _ _ Hs Hblk) as Hb. split; [|lia].
    destruct (decide (SmallFloat.uintToFloatRoundDown (b_size blk) < SmallFloat.uintToFloatRoundUp size)) as [|Hge]; [done|].
    pose proof (round_fits size (b_size blk) ltac:(lia) ltac:(lia) ltac:(lia)). lia. }
  destruct (find_node_spec s bs L size Hs ltac:(lia)) as (b & x & E & Hx & Hnone).
  erewrite bind_ok; [|exact E]. destruct Hx as [->|(blk & (Hin & <- & Hfree & <-) & Hfit & Hfo)].
  { right. rewrite Z.eqb_refl. split; [done|]. intros _ Hfo blk Hin Hfree. destruct (Hnone eq_refl Hfo blk Hin Hfree) as [Hlt Hnot].
    split; [done|]. intros Hfit. apply (missed_bin s bs L size blk Hs); [lia|done..|by apply Hnot]. }
  left. rewrite (proj2 (Z.eqb_neq _ _)) by (by apply (ch_valid _ _ _ (rp_chain _ _ _ Hs))).
  destruct (list_elem_of_split _ _ Hin) as (l1 & l2 & ->).
  destruct (take_node_spec s l1 blk l2 L size Hs Hfree ltac:(lia) Hfo) as (s' & L' & y & Et & Hs' & ? & ? & ?).
  exists l1, blk, l2, y, s', L'. split_and!; try done; lia.
Qed.
