(* ===== verification/AllocatorFree.v ===== *)
(** * Free

    What [Free] does to the blocks that a state represents: a handle of no used block is
    refused, and the block of a valid handle is joined with the free blocks around it. *)

From Stdlib Require Import ZArith Lia.
From stdpp Require Import base list gmap numbers list_numbers.
From S2P Require Import Prelude.
From S2P Require Import OffsetAllocator.
From S2P Require Import AllocatorBins.
From S2P Require Import AllocatorLists.
From S2P Require Import AllocatorRegions.
From S2P Require Import AllocatorOps.
Local Open Scope Z_scope.

Definition all_free (bs : list Block) : Prop := Forall (λ b, b_used b = false) bs.

(** ** Merging with the neighbours *)

(** State [s'] is state [s] with the used block [blk] between [l1] and [l2], its links
    aside: the free blocks next to it that were merged are spare nodes. *)
Record lifted (s : Allocator) (blk : Block) (l1 l2 : list Block) (s' : Allocator) (L : Z → list Z) : Prop := {
  lf_parts : parts s' (frees (l1 ++ l2)) (b_node blk :: ids (l1 ++ l2)) (free_total (l1 ++ l2)) L;
  lf_size : size_ s' = size_ s;
  lf_max : maxAllocs_ s' = maxAllocs_ s;
  lf_cores z : cores s' !! z = if z =? b_node blk then
    Some (mkCore (b_off blk) (b_size blk) (last_or unused (ids l1)) (first_or unused (ids l2)) true) else cores s !! z;
}.

Lemma lifted_start s l1 blk l2 L : rep s (l1 ++ blk :: l2) L → b_used blk = true → lifted s blk l1 l2 s L.
Proof.
  intros (Hsz & Hch & Hp)%rep_parts Hused. rewrite frees_used in Hp by done. rewrite free_total_middle, Hused, Z.add_0_r in Hp.
  pose proof (chain_links _ _ _ l1 blk l2 Hch eq_refl) as Hx. rewrite Hused in Hx. split; try done.
  - eapply parts_perm; [reflexivity| |exact Hp]. rewrite !fmap_app, fmap_cons. symmetry. apply Permutation_middle.
  - intros z. by destruct (Z.eqb_spec z (b_node blk)) as [->|].
Qed.

(** The links of the block, and its neighbours. *)
Lemma lifted_node s blk l1 l2 s' L :
  lifted s blk l1 l2 s' L → ∃ n, nodes_ s' !! b_node blk = Some n ∧ dataOffset n = b_off blk ∧ dataSize n = b_size blk ∧
    neighborPrev n = last_or unused (ids l1) ∧ neighborNext n = first_or unused (ids l2) ∧ used n = true.
Proof.
  intros Hl. pose proof (lf_cores _ _ _ _ _ _ Hl (b_node blk)) as Hx. rewrite Z.eqb_refl in Hx.
  destruct (node_of_core _ _ _ Hx) as (n & Hn & En). exists n. destruct n. by injection En as -> -> -> -> ->.
Qed.

(** Merging a free neighbour: removing it from its bin and relinking the block. *)
Lemma lifted_remove s blk l1 l2 s' L b l1' l2' p q g f :
  lifted s blk l1 l2 s' L → l1 ++ l2 ≡ₚ b :: (l1' ++ l2') → b_used b = false → b_node b ≠ b_node blk →
  cores s !! b_node b = Some (mkCore (b_off b) (b_size b) p q false) → 0 ≤ free_total (l1' ++ l2') →
  0 < b_size b → free_total (l1 ++ l2) = free_total (l1' ++ l2') + b_size b → free_total (l1 ++ l2) < 2 ^ 32 →
  (∀ n, core (f n) = g (core n)) → (∀ n, binListPrev (f n) = binListPrev n) → (∀ n, binListNext (f n) = binListNext n) →
  g (mkCore (b_off blk) (b_size blk) (last_or unused (ids l1)) (first_or unused (ids l2)) true) =
    mkCore (b_off blk) (b_size blk) (last_or unused (ids l1')) (first_or unused (ids l2')) true →
  ∃ s1 s2 L' n, RemoveNodeFromBin (b_node b) s' = (s1, Ok tt) ∧ nodes_ s1 !! b_node b = Some n ∧
    core n = mkCore (b_off b) (b_size b) p q false ∧ upd_node (b_node blk) f s1 = (s2, Ok tt) ∧ lifted s blk l1' l2' s2 L'.
Proof.
  intros [Hp Hsz Hmax Hc] Hperm Hb Hne Hbc Hnn Hbs Htot Hlt Hg HfP HfN Hgx.
  assert (cores s' !! b_node b = Some (mkCore (b_off b) (b_size b) p q false)) as Hbc'
    by (by rewrite Hc, (proj2 (Z.eqb_neq _ _) Hne)).
  destruct (parts_remove s' (frees (l1' ++ l2')) (b_node blk :: ids (l1' ++ l2')) (free_total (l1 ++ l2)) L b p q) as
    (s1 & L1 & E1 & Hp1 & S1 & S2 & Hc1); [|done|lia|lia|].
  { eapply parts_perm; [| |exact Hp].
    - unfold frees. rewrite Hperm. by rewrite filter_cons, decide_True.
    - rewrite Hperm, fmap_cons. apply perm_swap. }
  rewrite <- Hc1 in Hbc'. destruct (node_of_core _ _ _ Hbc') as (n & Hn & En).
  eexists s1, _, L1, n. split_and!; [done|done|done| |].
  { apply upd_node_ok, cores_is_Some. rewrite Hc1, Hc, Z.eqb_refl. by eexists. }
  replace (free_total (l1 ++ l2) - b_size b) with (free_total (l1' ++ l2')) in Hp1 by lia. split; [by apply parts_alter|..].
  - cbn. congruence.
  - cbn. congruence.
  - intros z. rewrite (cores_alter _ g), Hc1, Hc by done. destruct (Z.eqb_spec z (b_node blk)) as [->|]; [|done]. cbn. by rewrite Hgx.
Qed.

Lemma next_ne C l1 a b l2 total : chain_ok C (l1 ++ a :: b :: l2) total → b_node a ≠ b_node b.
Proof.
  intros Hch E. pose proof (ch_nodup _ _ _ Hch) as Hnd. rewrite fmap_app in Hnd.
  apply list.NoDup_app in Hnd as (_ & _ & [Hd _]%NoDup_cons). apply Hd. rewrite E. by left.
Qed.

Lemma merge_prev_spec s l1 blk l2 L :
  rep s (l1 ++ blk :: l2) L → b_used blk = true →
  ∃ s' L' l1' pre, merge_prev (b_node blk) (b_size blk) s = (s', Ok (b_off blk - free_total pre, b_size blk + free_total pre)) ∧
    l1 = l1' ++ pre ∧ all_free pre ∧ last_free false l1' = false ∧ lifted s blk l1' l2 s' L'.
Proof.
  intros Hs Hused. pose proof Hs as (Hsz & Hch & _)%rep_parts. pose proof (lifted_start _ _ _ _ _ Hs Hused) as Hl.
  destruct (lifted_node _ _ _ _ _ _ Hl) as (n & Hn & Eoff & _ & Ep & _). unfold merge_prev.
  erewrite bind_ok; [|by apply node_at_ok]. rewrite Ep, Eoff.
  assert (last_free false l1 = false → ∃ s' L' l1' pre,
    (s, Ok (b_off blk, b_size blk)) = (s', Ok (b_off blk - free_total pre, b_size blk + free_total pre)) ∧
    l1 = l1' ++ pre ∧ all_free pre ∧ last_free false l1' = false ∧ lifted s blk l1' l2 s' L') as Hstay.
  { intros Hf. exists s, L, l1, []. rewrite app_nil_r, Z.sub_0_r, Z.add_0_r. split_and!; try done. constructor. }
  destruct l1 as [|b l1 _] using rev_ind; [by apply Hstay|]. clear n Hn Eoff Ep.
  assert (last_or unused (ids (l1 ++ [b])) = b_node b) as Elast by (rewrite fmap_app; apply last_or_snoc). rewrite Elast.
  assert ((l1 ++ [b]) ++ blk :: l2 = l1 ++ b :: blk :: l2) as Ebs by (by rewrite <- app_assoc).
  rewrite Ebs in Hch. pose proof (chain_links _ _ _ l1 b (blk :: l2) Hch eq_refl) as Hbc.
  rewrite (proj2 (Z.eqb_neq _ _)) by (apply (ch_valid _ _ _ Hch), elem_of_app; right; by left).
  destruct (node_of_core _ _ _ Hbc) as (nb & Hnb & Enb). erewrite bind_ok; [|by apply node_at_ok].
  assert (used nb = b_used b ∧ dataOffset nb = b_off b ∧ dataSize nb = b_size b) as (-> & -> & ->) by (destruct nb; by injection Enb).
  destruct (b_used b) eqn:Hb; [apply Hstay; unfold last_free; rewrite last_snoc; cbn; by rewrite Hb|]. clear Hstay.
  pose proof (ch_tiles _ _ _ Hch) as (m & Ht1 & (Hbo & Hbs & Hblko & Hblks & Ht3))%tiles_app.
  pose proof (free_total_bounds _ _ _ Ht1) as Hf1. pose proof (free_total_bounds _ _ _ Ht3) as Hf3.
  pose proof (free_total_app l1 l2) as Ef.
  assert (free_total ((l1 ++ [b]) ++ l2) = free_total (l1 ++ l2) + b_size b) as Ef'
    by (rewrite <- app_assoc; cbn [app]; by rewrite (free_total_middle l1 b l2), Hb).
  destruct (lifted_remove _ _ _ _ _ _ b l1 l2 (last_or unused (ids l1)) (b_node blk) (c_set_prev (last_or unused (ids l1)))
    (set_neighborPrev (last_or unused (ids l1))) Hl) as (s1 & s2 & L' & nb' & E1 & Hnb' & Enb' & E2 & Hl2); [|done| |exact Hbc|lia|lia|lia|lia|done..|].
  { rewrite <- app_assoc. symmetry. apply Permutation_middle. }
  { by eapply (next_ne _ l1 b blk l2). }
  erewrite bind_ok; [|exact E1]. erewrite bind_ok; [|by apply node_at_ok].
  assert (neighborNext nb' = b_node blk ∧ neighborPrev nb' = last_or unused (ids l1)) as [-> ->] by (destruct nb'; by injection Enb').
  erewrite bind_ok; [|by rewrite Z.eqb_refl]. erewrite bind_ok; [|exact E2]. exists s2, L', l1, [b].
  assert (free_total [b] = b_size b) as -> by (cbn; rewrite Hb; lia).
  split; [unfold u32; rewrite Z.mod_small by lia; unfold mret, M_ret; do 3 f_equal; lia|]. split_and!; try done; [by constructor|].
  pose proof (ch_alone _ _ _ Hch) as Hal. apply alone_app in Hal as [_ [Hal _]]. destruct (last_free false l1); [|done].
  by rewrite Hal in Hb.
Qed.

Lemma merge_next_spec s l1' blk l2 s' L pre size :
  chain_ok (cores s) ((l1' ++ pre) ++ blk :: l2) (size_ s) → size_ s < 2 ^ 32 → b_used blk = true → all_free pre →
  lifted s blk l1' l2 s' L → size = b_size blk + free_total pre →
  ∃ s'' L' l2' post, merge_next (b_node blk) size s' = (s'', Ok (size + free_total post)) ∧
    l2 = post ++ l2' ∧ all_free post ∧ alone true l2' ∧ lifted s blk l1' l2' s'' L'.
Proof.
  intros Hch Hsz Hused Hpre Hl Hsize. destruct (lifted_node _ _ _ _ _ _ Hl) as (n & Hn & _ & _ & _ & En & _). unfold merge_next.
  pose proof (ch_alone _ _ _ Hch) as Hal. apply alone_app in Hal as [_ [_ Hal]]. rewrite Hused in Hal. cbn in Hal.
  erewrite bind_ok; [|by apply node_at_ok]. rewrite En.
  assert (alone true l2 → ∃ s'' L' l2' post, (s', Ok size) = (s'', Ok (size + free_total post)) ∧
    l2 = post ++ l2' ∧ all_free post ∧ alone true l2' ∧ lifted s blk l1' l2' s'' L') as Hstay.
  { intros Ht. exists s', L, l2, []. rewrite Z.add_0_r. split_and!; try done. constructor. }
  destruct l2 as [|b l2]; [by apply Hstay|]. cbn [fmap list_fmap first_or head from_option id]. clear n Hn En.
  assert (((l1' ++ pre) ++ [blk]) ++ b :: l2 = (l1' ++ pre) ++ blk :: b :: l2) as Ebs by (by rewrite <- (app_assoc _ [blk])).
  pose proof (chain_links _ _ _ _ b l2 Hch (eq_sym Ebs)) as Hbc. rewrite fmap_app in Hbc. cbn [fmap list_fmap] in Hbc. rewrite last_or_snoc in Hbc.
  rewrite (proj2 (Z.eqb_neq _ _)) by (apply (ch_valid _ _ _ Hch); rewrite <- Ebs; apply elem_of_app; right; by left).
  assert (b_node blk ≠ b_node b) as Hne by (by eapply next_ne).
  assert (cores s' !! b_node b = cores s !! b_node b) as Hbc' by (by rewrite (lf_cores _ _ _ _ _ _ Hl), (proj2 (Z.eqb_neq _ _)) by congruence).
  rewrite Hbc in Hbc'. destruct (node_of_core _ _ _ Hbc') as (nb & Hnb & Enb). erewrite bind_ok; [|by apply node_at_ok].
  assert (used nb = b_used b ∧ dataSize nb = b_size b) as (-> & ->) by (destruct nb; by injection Enb).
  cbn in Hal, Hstay. destruct (b_used b) eqn:Hb; [by apply Hstay; destruct Hal|]. clear Hstay.
  pose proof (ch_tiles _ _ _ Hch) as (m & (m1 & Ht0 & Ht1)%tiles_app & (Hbo & Hbs & Hblko & Hblks & Ht3))%tiles_app.
  pose proof (free_total_bounds _ _ _ Ht0) as Hf0. pose proof (free_total_bounds _ _ _ Ht1) as Hf1.
  pose proof (free_total_bounds _ _ _ Ht3) as Hf3. pose proof (free_total_app l1' l2) as Ef.
  assert (free_total (l1' ++ b :: l2) = free_total (l1' ++ l2) + b_size b) as Ef' by (by rewrite (free_total_middle l1' b l2), Hb).
  destruct (lifted_remove _ _ _ _ _ _ b l1' l2 (b_node blk) (first_or unused (ids l2)) (c_set_next (first_or unused (ids l2)))
    (set_neighborNext (first_or unused (ids l2))) Hl) as (s1 & s2 & L' & nb' & E1 & Hnb' & Enb' & E2 & Hl2);
    [symmetry; apply Permutation_middle|done|done|exact Hbc|lia|lia|lia|lia|done..|].
  erewrite bind_ok; [|exact E1]. erewrite bind_ok; [|by apply node_at_ok].
  assert (neighborPrev nb' = b_node blk ∧ neighborNext nb' = first_or unused (ids l2)) as [-> ->] by (destruct nb'; by injection Enb').
  erewrite bind_ok; [|by rewrite Z.eqb_refl]. erewrite bind_ok; [|exact E2]. exists s2, L', l2, [b].
  assert (free_total [b] = b_size b) as -> by (cbn; rewrite Hb; lia).
  split; [unfold u32; rewrite Z.mod_small by lia; done|]. split_and!; try done; [by constructor|]. by destruct Hal.
Qed.

(** ** Putting the joined block back *)

(** The node of the block is pushed and then popped again by the insertion. *)
Lemma parts_push s F I n L x :
  parts s F (x :: I) n L → (x ∉ ids F) →
  ∃ s', push_free x s = (s', Ok tt) ∧ parts s' F I n L ∧ size_ s' = size_ s ∧ maxAllocs_ s' = maxAllocs_ s ∧
    cores s' = cores s ∧ 0 < freeOffset_ s' ∧ freeNodes_ s' !! freeOffset_ s' = Some x.
Proof.
  intros [Harr Hmax Hb Hm Hnd Hin Hsizes Hsp Hst] Hx. pose proof (spare_push _ _ _ _ _ Hsp) as [Hlt Hpush].
  assert (0 ≤ freeOffset_ s) as Hfo0 by (by destruct Hsp as (fl & _ & ? & _)).
  eexists. split; [apply push_free_ok; [lia|apply Harr; lia]|]. cbn. split_and!; try done; [|lia|apply lookup_insert_eq].
  split; try done.
  - intros i Hi. cbn in *. split; [by apply Harr|]. destruct (decide (i = freeOffset_ s + 1)) as [->|]; [rewrite lookup_insert_eq; by eexists|].
    rewrite lookup_insert_ne by done. by apply Harr.
  - by destruct Hb; split.
  - intros y Hy. specialize (Hin y Hy). apply elem_of_cons in Hin as [->|]; [done|done].
Qed.

Lemma reinsert s blk l1 l2 s2 L size off :
  lifted s blk l1 l2 s2 L → (b_node blk ∉ ids (l1 ++ l2)) → 0 < size → 0 ≤ free_total (l1 ++ l2) →
  free_total (l1 ++ l2) + size < 2 ^ 32 →
  ∃ s3 s4 L4, push_free (b_node blk) s2 = (s3, Ok tt) ∧ InsertNodeIntoBin size off s3 = (s4, Ok (b_node blk)) ∧
    parts s4 (mkBlock (b_node blk) off size false :: frees (l1 ++ l2)) (b_node blk :: ids (l1 ++ l2)) (free_total (l1 ++ l2) + size) L4 ∧
    size_ s4 = size_ s ∧ maxAllocs_ s4 = maxAllocs_ s ∧
    cores s4 = <[b_node blk := mkCore off size unused unused false]> (cores s2).
Proof.
  intros [Hp Hsz Hmax Hc] Hx Hsize Hn0 Hn.
  destruct (parts_push _ _ _ _ _ _ Hp) as (s3 & E3 & Hp3 & ? & ? & Hc3 & Hfo & Htop); [by intros ?%ids_frees|].
  destruct (parts_insert s3 _ _ _ _ size off Hp3 Hfo Hsize Hn0 Hn) as (s4 & y & L4 & E4 & Hy & _ & _ & Hp4 & ? & ? & Hc4).
  rewrite Htop in Hy. injection Hy as <-. exists s3, s4, L4. rewrite Hc3 in Hc4. split_and!; congruence || done.
Qed.

(** Linking node [x] to a neighbour [i], if there is one. *)
Lemma link_side s F I n L x i fx fi gx gi :
  parts s F I n L → i ≠ x → is_Some (cores s !! x) → (i ≠ unused → is_Some (cores s !! i)) →
  (∀ n, core (fx n) = gx (core n)) → (∀ n, core (fi n) = gi (core n)) →
  (∀ n, binListPrev (fx n) = binListPrev n) → (∀ n, binListNext (fx n) = binListNext n) →
  (∀ n, binListPrev (fi n) = binListPrev n) → (∀ n, binListNext (fi n) = binListNext n) →
  ∃ s', (if negb (i =? unused) then upd_node x fx ;; upd_node i fi else mret tt) s = (s', Ok tt) ∧
    parts s' F I n L ∧ size_ s' = size_ s ∧ maxAllocs_ s' = maxAllocs_ s ∧
    (cores s' !! x = if negb (i =? unused) then gx <$> cores s !! x else cores s !! x) ∧
    ∀ z, z ≠ x → cores s' !! z = if (z =? i) && negb (i =? unused) then gi <$> cores s !! z else cores s !! z.
Proof.
  intros Hp Hix Hx His Hgx Hgi H1 H2 H3 H4. destruct (Z.eqb_spec i unused) as [->|Hi]; cbn [negb].
  - exists s. split_and!; try done. intros z _. by rewrite andb_false_r.
  - erewrite bind_ok; [|apply upd_node_ok; by apply cores_is_Some]. set (sa := set_nodes _ s).
    assert (∀ z, cores sa !! z = if z =? x then gx <$> cores s !! z else cores s !! z) as Ha by (intros z; by apply cores_alter).
    rewrite upd_node_ok by (apply cores_is_Some; rewrite Ha, (proj2 (Z.eqb_neq _ _) Hix); by apply His).
    eexists. split; [done|]. split; [by repeat apply parts_alter|]. split_and!; [done|done| |].
    + by rewrite (cores_alter _ gi), Ha, Z.eqb_refl, (proj2 (Z.eqb_neq x i)) by congruence.
    + intros z Hz. by rewrite (cores_alter _ gi), Ha, (proj2 (Z.eqb_neq _ _) Hz), andb_true_r by done.
Qed.

(** Linking the joined block [x] between [p] and [q]. *)
Lemma link_joined s F I n L x p q off size :
  parts s F I n L → p ≠ x → q ≠ x → (p ≠ unused → is_Some (cores s !! p)) → (q ≠ unused → is_Some (cores s !! q)) →
  cores s !! x = Some (mkCore off size unused unused false) →
  ∃ s', ((if negb (q =? unused) then
            upd_node x (set_neighborNext q) ;; upd_node q (set_neighborPrev x)
          else mret tt) ;;
         (if negb (p =? unused) then
            upd_node x (set_neighborPrev p) ;; upd_node p (set_neighborNext x)
          else mret tt) ;;
         mret true) s = (s', Ok true) ∧ parts s' F I n L ∧ size_ s' = size_ s ∧ maxAllocs_ s' = maxAllocs_ s ∧
    cores s' !! x = Some (mkCore off size p q false) ∧ ∀ z, z ≠ x → cores s' !! z = border p q x x z <$> cores s !! z.
Proof.
  intros Hp Hpx Hqx Hps Hqs Hx.
  destruct (link_side s F I n L x q (set_neighborNext q) (set_neighborPrev x) (c_set_next q) (c_set_prev x)) as
    (s1 & E1 & Hp1 & ? & ? & Hx1 & H1); try done.
  assert (cores s1 !! x = Some (mkCore off size unused q false)) as Hx1'
    by (rewrite Hx1, Hx; by destruct (Z.eqb_spec q unused) as [->|]).
  assert (∀ z, z ≠ x → is_Some (cores s1 !! z) ↔ is_Some (cores s !! z)) as Hs1
    by (intros z Hz; rewrite H1 by done; destruct (_ && _); by rewrite ?fmap_is_Some).
  destruct (link_side s1 F I n L x p (set_neighborPrev p) (set_neighborNext x) (c_set_prev p) (c_set_next x)) as
    (s2 & E2 & Hp2 & ? & ? & Hx2 & H2); try done; [intros; by apply Hs1, Hps|].
  erewrite bind_ok; [|exact E1]. erewrite bind_ok; [|exact E2]. exists s2. split_and!; try congruence; try done.
  - rewrite Hx2, Hx1'. by destruct (Z.eqb_spec p unused) as [->|].
  - intros z Hz. rewrite H2, H1 by done. unfold border. destruct (cores s !! z) as [[]|]; by destruct (_ && _), (_ && _).
Qed.

(** ** Free *)

(** A used block joined with the free blocks [pre] before and [post] after it. *)
Definition joined (pre : list Block) (blk : Block) (post : list Block) : Block :=
  mkBlock (b_node blk) (b_off blk - free_total pre) (b_size blk + free_total pre + free_total post) false.

Lemma tiles_free o l e : tiles o l e → all_free l → e = o + free_total l.
Proof.
  revert o. induction l as [|b l IH]; intros o; cbn; [lia|]. intros (_ & _ & Ht) [Hb Hl]%Forall_cons. rewrite Hb.
  pose proof (IH _ Ht Hl). unfold free_total in *. lia.
Qed.

Lemma chain_join C C' l1 pre blk post l2 total :
  let x := b_node blk in let p := last_or unused (ids l1) in let q := first_or unused (ids l2) in
  let b := joined pre blk post in
  chain_ok C ((l1 ++ pre) ++ blk :: post ++ l2) total → all_free pre → all_free post →
  last_free false l1 = false → alone true l2 →
  C' !! x = Some (mkCore (b_off b) (b_size b) p q false) → (∀ z, z ≠ x → C' !! z = border p q x x z <$> C !! z) →
  chain_ok C' (l1 ++ b :: l2) total.
Proof.
  intros x p q b Hc Hpre Hpost Hl1 Hl2 Hx HC'.
  assert ((l1 ++ pre) ++ blk :: post ++ l2 = l1 ++ (pre ++ blk :: post) ++ l2) as Ebs by (by rewrite <- !app_assoc).
  rewrite Ebs in Hc. pose proof (ch_nodup _ _ _ Hc) as Hnd. pose proof (ch_alone _ _ _ Hc) as Hal. apply alone_app in Hal as [Hal1 _].
  change (l1 ++ b :: l2) with (l1 ++ [b] ++ l2). eapply (chain_replace C C' l1 _ [b] l2); [exact Hc|..].
  - intros o e (m & Ht1 & (Hbo & Hbs & Ht2))%tiles_app. pose proof (tiles_free _ _ _ Ht1 Hpre). pose proof (tiles_free _ _ _ Ht2 Hpost).
    pose proof (free_total_bounds _ _ _ Ht1). pose proof (free_total_bounds _ _ _ Ht2). cbn. split_and!; lia.
  - apply alone_app. split; [done|]. rewrite Hl1. done.
  - eapply sublist_NoDup; [exact Hnd|]. rewrite !fmap_app, fmap_cons. apply sublist_app; [done|]. apply sublist_app; [|done].
    apply sublist_inserts_l. apply sublist_skip, sublist_nil_l.
  - intros b' ->%list_elem_of_singleton. cbn. apply (ch_valid _ _ _ Hc). rewrite !elem_of_app, elem_of_cons. tauto.
  - cbn. fold x. rewrite !lookup_fmap, Hx. done.
  - intros b' ->%list_elem_of_singleton. unfold data_ok. cbn. fold x. rewrite Hx. by eexists _, _.
  - intros z Hz. apply HC'. intros ->. apply Hz. by left.
  - intros b' Hb' Hne. rewrite elem_of_app, elem_of_cons in Hb'. unfold all_free in *. rewrite Forall_forall in Hpre, Hpost.
    destruct Hb' as [?|[->|?]]; [by apply Hpre| |by apply Hpost]. destruct Hne. by left.
Qed.

(** The handles of the used blocks. *)
Definition handle_of (allocation : Allocation) (blk : Block) : Prop :=
  b_used blk = true ∧ b_node blk = nodeIndex allocation ∧ b_off blk = offset allocation.

(** The checks of a handle find the used block it belongs to. *)
Lemma handle_check s bs L allocation :
  rep s bs L → 0 ≤ nodeIndex allocation →
  if (nodeIndex allocation =? unused) || (maxAllocs_ s <=? nodeIndex allocation) then ∀ blk, blk ∈ bs → ¬ handle_of allocation blk
  else ∃ n, nodes_ s !! nodeIndex allocation = Some n ∧
    if negb (used n) || negb (dataOffset n =? offset allocation) then ∀ blk, blk ∈ bs → ¬ handle_of allocation blk
    else ∃ blk, blk ∈ bs ∧ handle_of allocation blk ∧ dataSize n = b_size blk.
Proof.
  intros Hs Hi. pose proof (rp_chain _ _ _ Hs) as Hch. destruct (rp_spare _ _ _ Hs) as (fl & _ & _ & _ & _ & Hr & _).
  destruct (Z.eqb_spec (nodeIndex allocation) unused) as [E|Hu]; cbn [orb].
  { intros blk Hb (_ & Hn & _). by apply (ch_valid _ _ _ Hch blk Hb); rewrite Hn. }
  destruct (Z.leb_spec (maxAllocs_ s) (nodeIndex allocation)) as [Hge|Hlt].
  { intros blk Hb (_ & Hn & _). specialize (Hr (b_node blk)). rewrite elem_of_app in Hr.
    assert (0 ≤ b_node blk < maxAllocs_ s) by (apply Hr; right; by apply list_elem_of_fmap_2). lia. }
  destruct (rp_arrays _ _ _ Hs (nodeIndex allocation) ltac:(lia)) as [[n Hn] _]. exists n. split; [done|].
  destruct (decide (nodeIndex allocation ∈ ids bs)) as [(blk & E & Hb)%list_elem_of_fmap|Hnot].
  - destruct (rep_node _ _ _ _ Hs Hb) as (n' & Hn' & Ho & Hsz & Hus). rewrite <- E, Hn in Hn'. injection Hn' as <-.
    rewrite Ho, Hus. assert (∀ blk', blk' ∈ bs → handle_of allocation blk' → blk' = blk) as Huniq
      by (intros blk' Hb' (_ & Hn2 & _); apply (block_unique _ _ _ _ _ Hs); congruence || done).
    destruct (b_used blk) eqn:Hub; cbn [negb orb]; [|intros blk' Hb' Hh; pose proof (Huniq _ Hb' Hh) as ->; destruct Hh; congruence].
    destruct (Z.eqb_spec (b_off blk) (offset allocation)) as [Eo|Hne]; cbn [negb]; [by exists blk|].
    intros blk' Hb' Hh. pose proof (Huniq _ Hb' Hh) as ->. by destruct Hh as (_ & _ & ?).
  - assert (used n = false) as ->.
    { apply (ch_other _ _ _ Hch (nodeIndex allocation) (core n)); [|done]. unfold cores. by rewrite lookup_fmap, Hn. }
    cbn. intros blk Hb (_ & E & _). apply Hnot. rewrite <- E. by apply list_elem_of_fmap_2.
Qed.

(** What a joined block has from its chain. *)
Lemma joined_facts C l1 pre blk post l2 total :
  chain_ok C ((l1 ++ pre) ++ blk :: post ++ l2) total → all_free pre → all_free post →
  let b := joined pre blk post in
  (b_node blk ∉ ids (l1 ++ l2)) ∧ 0 < b_size b ∧ 0 ≤ free_total (l1 ++ l2) ∧ free_total (l1 ++ l2) + b_size b ≤ total ∧
  (let p := last_or unused (ids l1) in p ≠ b_node blk ∧ (p ≠ unused → p ≠ b_node blk ∧ is_Some (C !! p))) ∧
  (let q := first_or unused (ids l2) in q ≠ b_node blk ∧ (q ≠ unused → q ≠ b_node blk ∧ is_Some (C !! q))).
Proof.
  intros Hc Hpre Hpost b. pose proof (ch_tiles _ _ _ Hc) as (m & (m1 & Ht0 & Ht1)%tiles_app & (Hbo & Hbs & (m2 & Ht2 & Ht3)%tiles_app))%tiles_app.
  pose proof (tiles_free _ _ _ Ht1 Hpre). pose proof (tiles_free _ _ _ Ht2 Hpost).
  pose proof (free_total_bounds _ _ _ Ht0). pose proof (free_total_bounds _ _ _ Ht1).
  pose proof (free_total_bounds _ _ _ Ht2). pose proof (free_total_bounds _ _ _ Ht3). rewrite free_total_app. cbn.
  assert (b_node blk ∉ ids (l1 ++ l2)) as Hx.
  { pose proof (ch_nodup _ _ _ Hc) as Hnd. rewrite !fmap_app, fmap_cons, fmap_app in Hnd.
    apply list.NoDup_app in Hnd as (_ & Hd & [Hx _]%NoDup_cons). rewrite fmap_app, elem_of_app.
    intros [Hy|Hy]; [apply (Hd (b_node blk)); [apply elem_of_app; by left|by left]|apply Hx, elem_of_app; by right]. }
  assert (∀ z, z ∈ ids (l1 ++ l2) → z ≠ b_node blk ∧ is_Some (C !! z)) as Hz.
  { intros z Hz. split; [by intros ->|]. apply list_elem_of_fmap in Hz as (b' & -> & Hb').
    destruct (ch_data _ _ _ Hc b') as (? & ? & ->); [|by eexists]. rewrite !elem_of_app, elem_of_cons, elem_of_app in *. tauto. }
  assert (∀ r, (r ≠ unused → r ∈ ids (l1 ++ l2)) → r ≠ b_node blk ∧ (r ≠ unused → r ≠ b_node blk ∧ is_Some (C !! r))) as Hr.
  { intros r Hr. split; [|by auto]. intros E. assert (r ≠ unused) as Hne by
      (rewrite E; apply (ch_valid _ _ _ Hc); rewrite !elem_of_app, elem_of_cons; tauto). by apply (Hz r (Hr Hne)). }
  split; [done|]. do 3 (split; [lia|]). split; apply Hr; intros Hne; rewrite fmap_app, elem_of_app.
  - left. apply last_or_elem. intros E. by rewrite E in Hne.
  - right. apply first_or_elem. intros E. by rewrite E in Hne.
Qed.

(** The block of a valid handle becomes free and is joined with its free neighbours. *)
Lemma Free_block s l1 blk l2 L allocation :
  rep s (l1 ++ blk :: l2) L → handle_of allocation blk →
  ∃ s' L' l1' pre post l2', Free allocation s = (s', Ok true) ∧ l1 = l1' ++ pre ∧ l2 = post ++ l2' ∧
    all_free pre ∧ all_free post ∧ rep s' (l1' ++ joined pre blk post :: l2') L' ∧
    size_ s' = size_ s ∧ maxAllocs_ s' = maxAllocs_ s.
Proof.
  intros Hs Hh. pose proof Hh as (Hused & Hn & Ho). pose proof Hs as (Hsz & Hch & _)%rep_parts.
  assert (blk ∈ l1 ++ blk :: l2) as Hin by (apply elem_of_app; right; by left).
  destruct (rep_node _ _ _ _ Hs Hin) as (nd & Hnd & Hndo & Hnds & Hndu).
  assert (0 ≤ b_node blk < maxAllocs_ s) as Hrange.
  { destruct (rp_spare _ _ _ Hs) as (fl & _ & _ & _ & _ & Hr & _). apply Hr, elem_of_app. right. by apply list_elem_of_fmap_2. }
  unfold Free. unfold mbind at 1, M_bind at 1, get_state. rewrite <- Hn, <- Ho.
  rewrite (proj2 (Z.eqb_neq _ _)) by (by apply (ch_valid _ _ _ Hch)). rewrite (proj2 (Z.leb_gt _ _)) by lia. cbn [orb].
  erewrite bind_ok; [|by apply node_at_ok]. rewrite Hndu, Hused, Hndo, Z.eqb_refl, Hnds. cbn [negb orb].
  destruct (merge_prev_spec _ _ _ _ _ Hs Hused) as (s1 & L1 & l1' & pre & E1 & -> & Hpre & Hl1 & Hlf1). erewrite bind_ok; [|exact E1].
  destruct (merge_next_spec s l1' blk l2 s1 L1 pre _ Hch ltac:(lia) Hused Hpre Hlf1 eq_refl) as
    (s2 & L2 & l2' & post & E2 & -> & Hpost & Hl2 & Hlf2). erewrite bind_ok; [|exact E2].
  destruct (lifted_node _ _ _ _ _ _ Hlf2) as (n2 & Hn2 & _ & _ & Ep & En & _). erewrite bind_ok; [|by apply node_at_ok]. rewrite Ep, En.
  destruct (joined_facts _ _ _ _ _ _ _ Hch Hpre Hpost) as (Hx & Hbs & Hf & Hft & Hp1 & Hq1).
  destruct (reinsert s blk l1' l2' s2 L2 (b_size (joined pre blk post)) (b_off (joined pre blk post)) Hlf2 Hx Hbs) as
    (s3 & s4 & L4 & E3 & E4 & Hp4 & S1 & S2 & Hc4); [lia|lia|].
  erewrite bind_ok; [|exact E3]. erewrite bind_ok; [|exact E4].
  assert (∀ z, z ≠ b_node blk → cores s4 !! z = cores s !! z) as Hcz.
  { intros z Hz. by rewrite Hc4, lookup_insert_ne, (lf_cores _ _ _ _ _ _ Hlf2), (proj2 (Z.eqb_neq _ _)) by congruence. }
  destruct (link_joined s4 _ _ _ _ (b_node blk) (last_or unused (ids l1')) (first_or unused (ids l2'))
    (b_off (joined pre blk post)) (b_size (joined pre blk post)) Hp4) as (s5 & E5 & Hp5 & T1 & T2 & Hx5 & H5);
    [by destruct Hp1|by destruct Hq1|intros Hu; destruct Hp1 as [? Hp1]; rewrite Hcz by done; by apply Hp1
    |intros Hu; destruct Hq1 as [? Hq1]; rewrite Hcz by done; by apply Hq1|by rewrite Hc4, lookup_insert_eq|].
  exists s5, L4, l1', pre, post, l2'. split; [exact E5|]. split_and!; try done; [|congruence..]. apply rep_parts.
  rewrite T1, S1. split; [done|]. split.
  - apply (chain_join (cores s)); try done. intros z Hz. by rewrite H5, Hcz.
  - rewrite free_total_middle. eapply parts_perm; [symmetry; by apply (frees_middle l1' (joined pre blk post) l2')| |exact Hp5].
    rewrite !fmap_app, fmap_cons. apply Permutation_middle.
Qed.
