(* ===== verification/AllocatorReports.v ===== *)
(** * Construction and reports

    [Reset] and the constructor make the whole region one free block; what
    [GetAllocationSize], [GetStorageReport] and [GetStorageReportFull] tell about the
    blocks that a state represents. *)

From Stdlib Require Import ZArith Lia.
From stdpp Require Import base list gmap numbers list_numbers.
From S2P Require Import Prelude.
From S2P Require Import OffsetAllocator.
From S2P Require Import AllocatorBins.
From S2P Require Import AllocatorLists.
From S2P Require Import AllocatorRegions.
From S2P Require Import AllocatorOps.
From S2P Require Import AllocatorFree.
Local Open Scope Z_scope.

(** ** Reset *)

Lemma lookup_array {V} n (f : Z → V) i : array n f !! i = if decide (0 ≤ i < n) then Some (f i) else None.
Proof.
  unfold array. assert (NoDup ((λ i, (i, f i)) <$> seqZ 0 n).*1) as Hnd.
  { rewrite <- list_fmap_compose. change (compose fst (λ i, (i, f i))) with (λ i : Z, i). rewrite list_fmap_id. apply NoDup_seqZ. }
  case_decide as Hi.
  - apply elem_of_list_to_map_1; [done|]. apply list_elem_of_fmap. exists i. split; [done|]. apply elem_of_seqZ. lia.
  - apply not_elem_of_list_to_map_1. rewrite <- list_fmap_compose. intros (j & -> & Hj%elem_of_seqZ)%list_elem_of_fmap. cbn in Hi. lia.
Qed.

Lemma array_is_Some {V} n (f : Z → V) i : 0 ≤ i < n → array n f !! i = Some (f i).
Proof. intros Hi. by rewrite lookup_array, decide_True. Qed.

(** Before the region is inserted, all bins are empty and all nodes are spare. *)
Lemma reset_parts size max :
  3 ≤ max < 2 ^ 32 →
  let s := mkAllocator size max 0 0 (array NUM_TOP_BINS (λ _, 0)) (array NUM_LEAF_BINS (λ _, unused))
    (array max (λ _, Node_default)) (array max (λ i, u32 (max - i - 1))) (u32 (max - 1)) in
  parts s [] [] 0 (λ _, []) ∧ freeOffset_ s = max - 1.
Proof.
  intros Hmax s. assert (freeOffset_ s = max - 1) as Hfo by (cbn; apply Z.mod_small; lia). split; [|done]. split; try done.
  - intros i Hi. cbn in *. rewrite !array_is_Some by done. by split; eexists.
  - cbn. lia.
  - split; cbn; [split_and!; try done|done|intros; apply NoDup_nil_2|intros b Hb; by rewrite array_is_Some by done|..];
      try (by intros ? ? ? ?%elem_of_nil); try (by intros ? ? ?%elem_of_nil).
    + intros t Ht. exists 0. rewrite array_is_Some, Z.bits_0 by done. split_and!; try done. intros j _. by rewrite Z.bits_0.
    + intros t. rewrite lookup_array. case_decide; [done|]. by intros [? ?].
  - intros b i. split; [by intros ?%elem_of_nil|]. by intros (blk & ?%elem_of_nil & _).
  - apply NoDup_nil_2.
  - by intros blk ?%elem_of_nil.
  - exists ((λ i, max - i - 1) <$> seqZ 0 max). rewrite Hfo, app_nil_r. change (maxAllocs_ s) with max. unfold zlen. rewrite length_fmap, length_seqZ. cbn [length].
    split_and!; [lia|lia| | | |lia].
    + intros j x. rewrite list_lookup_fmap. destruct (seqZ 0 max !! j) as [y|] eqn:Ey; [|done]. intros [= <-].
      apply lookup_seqZ in Ey as [-> Hj]. rewrite Z.add_0_l. cbn. rewrite array_is_Some by lia. unfold u32. rewrite Z.mod_small by lia. done.
    + apply NoDup_fmap; [intros i j; lia|apply NoDup_seqZ].
    + intros x (i & -> & Hi%elem_of_seqZ)%list_elem_of_fmap. lia.
Qed.

(** The region as one free block. *)
Lemma Reset_spec s :
  0 < size_ s < 2 ^ 32 → 3 ≤ maxAllocs_ s < 2 ^ 32 →
  ∃ s' L y, Reset s = (s', Ok tt) ∧ rep s' [mkBlock y 0 (size_ s) false] L ∧ size_ s' = size_ s ∧ maxAllocs_ s' = maxAllocs_ s.
Proof.
  intros Hsize Hmax. unfold Reset. erewrite bind_ok; [|reflexivity]. unfold mbind at 1, M_bind at 1, get_state.
  destruct (reset_parts (size_ s) (maxAllocs_ s) Hmax) as [Hp Hfo]. set (s0 := mkAllocator _ _ _ _ _ _ _ _ _) in *.
  change (size_ s0) with (size_ s).
  destruct (parts_insert s0 [] [] 0 _ (size_ s) 0 Hp) as (s1 & y & L & E & _ & _ & Hyu & Hp1 & S1 & S2 & Hc); [lia|lia|lia|lia|].
  erewrite bind_ok; [|exact E]. exists s1, L, y. split; [done|]. split; [|done]. apply rep_parts. rewrite S1.
  split; [done|]. split; [|by rewrite Z.add_0_l in Hp1; cbn; rewrite Z.add_0_r]. set (c := mkCore _ _ _ _ _) in Hc.
  assert (cores s1 !! y = Some c) as Hy by (rewrite Hc; apply lookup_insert_eq). split; try done.
  - cbn. split_and!; lia.
  - cbn. rewrite !lookup_fmap, Hy. done.
  - intros b ->%list_elem_of_singleton. by exists unused, unused.
  - apply NoDup_singleton.
  - by intros b ->%list_elem_of_singleton.
  - intros i c' Hi Hne. rewrite Hc, lookup_insert_ne in Hi by (intros <-; apply Hne; by left).
    unfold cores in Hi. cbn in Hi. rewrite lookup_fmap, lookup_array in Hi. case_decide; [|done]. by injection Hi as <-.
Qed.

Lemma Allocator_new_spec size max :
  0 < size < 2 ^ 32 → 3 ≤ max < 2 ^ 32 →
  ∃ s L y, Allocator_new size max = Ok s ∧ rep s [mkBlock y 0 size false] L ∧ size_ s = size ∧ maxAllocs_ s = max.
Proof.
  intros Hsize Hmax. unfold Allocator_new. rewrite (proj2 (Z.eqb_neq _ _)), !(proj2 (Z.ltb_ge _ _)) by (unfold unused; lia).
  destruct (Reset_spec (mkAllocator size max 0 0 ∅ ∅ ∅ ∅ 0) Hsize Hmax) as (s & L & y & E & Hs & ? & ?). rewrite E. eauto 8.
Qed.

(** ** Reports *)

Lemma GetAllocationSize_spec s bs L allocation :
  rep s bs L → 0 ≤ nodeIndex allocation →
  ∃ n, GetAllocationSize allocation s = (s, Ok n) ∧
    ((∃ blk, blk ∈ bs ∧ handle_of allocation blk ∧ n = b_size blk) ∨ (n = 0 ∧ ∀ blk, blk ∈ bs → ¬ handle_of allocation blk)).
Proof.
  intros Hs Hi. pose proof (handle_check s bs L allocation Hs Hi) as Hc. unfold GetAllocationSize, mbind at 1, M_bind at 1, get_state.
  destruct (_ || _); [exists 0; split; [done|by right]|]. destruct Hc as (n & Hn & Hc). erewrite bind_ok; [|by apply node_at_ok].
  eexists. split; [reflexivity|]. destruct (_ || _); [by right|]. destruct Hc as (blk & ? & ? & ->). left. eauto.
Qed.

Lemma free_block_total o bs e b : tiles o bs e → b ∈ bs → b_used b = false → b_size b ≤ free_total bs.
Proof.
  intros Ht (l1 & l2 & ->)%list_elem_of_split Hf. rewrite free_total_middle, Hf.
  pose proof (free_total_part _ _ _ _ _ Ht). lia.
Qed.

Lemma no_bins U E b : bits_ok U 0 E → 0 ≤ b < 256 → E b = false.
Proof.
  intros (HU & _) Hb. destruct (bin_parts b Hb) as (Eb & Ht & Hl). destruct (HU _ Ht) as (v & _ & _ & Hbit & Htop).
  rewrite Z.bits_0 in Htop. apply eq_sym, negb_false_iff, Z.eqb_eq in Htop. rewrite Eb, <- Hbit, Htop by done. apply Z.bits_0.
Qed.

(** The storage report: the free storage, and a lower bound of the largest free block that
    is short of it by at most an eighth of the bound. *)
Lemma GetStorageReport_spec s bs L :
  rep s bs L → ∃ r, GetStorageReport s = (s, Ok (free_total bs, r)) ∧
    (∀ blk, blk ∈ bs → b_used blk = false → 8 * (b_size blk - r) ≤ r) ∧
    (r = 0 ∨ ∃ blk, blk ∈ bs ∧ b_used blk = false ∧ 0 < r ≤ b_size blk).
Proof.
  intros Hs. pose proof (bk_bits _ _ (rp_bins _ _ _ Hs)) as Hbits. unfold GetStorageReport, mbind at 1, M_bind at 1, get_state.
  rewrite (rp_storage _ _ _ Hs).
  assert (∀ blk, blk ∈ bs → b_used blk = false → L (SmallFloat.uintToFloatRoundDown (b_size blk)) ≠ []) as Hne.
  { intros blk Hb Hf E. assert (b_node blk ∈ L (SmallFloat.uintToFloatRoundDown (b_size blk))) as Hin
      by (apply (rp_members _ _ _ Hs); eauto). rewrite E in Hin. by apply elem_of_nil in Hin. }
  destruct (Z.eqb_spec (usedBinsTop_ s) 0) as [Hz|Hnz].
  { exists 0. split; [done|]. split; [|by left]. intros blk Hb Hf. destruct (Hne blk Hb Hf).
    rewrite Hz in Hbits.
    pose proof (rep_bin_range _ _ _ _ Hs Hb). pose proof (no_bins _ _ (SmallFloat.uintToFloatRoundDown (b_size blk)) Hbits ltac:(lia)) as E. by apply negb_false_iff, bool_decide_eq_true in E. }
  destruct (highest_bin _ _ _ Hbits Hnz) as (tz & v & lz & Etz & Hv & Elz & Hb & Hin & Habove). rewrite Etz.
  erewrite bind_ok; [|reflexivity]. erewrite bind_ok; [|by apply used_at_ok]. rewrite Elz. erewrite bind_ok; [|reflexivity].
  set (b := Z.lor _ _) in *. apply negb_true_iff, bool_decide_eq_false in Hin. destruct (L b) as [|x l] eqn:EL; [done|].
  assert (x ∈ L b) as (blk & Hblk & _ & Hf & Erd)%(rp_members _ _ _ Hs) by (rewrite EL; by left).
  pose proof (rep_block _ _ _ _ Hs Hblk) as Hbb. pose proof (rp_size _ _ _ Hs) as Hsz.
  pose proof (round_range (b_size blk) ltac:(lia)) as [Hrd _]. rewrite Erd in Hrd. rewrite float_size by lia.
  pose proof (round_down_bracket (b_size blk) ltac:(lia)) as [_ [Hdown _]]. rewrite Erd in Hdown.
  pose proof (free_block_total _ _ _ _ (ch_tiles _ _ _ (rp_chain _ _ _ Hs)) Hblk Hf) as Htot.
  rewrite (proj2 (Z.leb_le _ _)) by lia. erewrite bind_ok; [|reflexivity]. exists (bin_size b). split; [done|]. split.
  - intros blk' Hb' Hf'. pose proof (rep_block _ _ _ _ Hs Hb') as Hbb'. pose proof (rep_bin_range _ _ _ _ Hs Hb') as Hr'.
    set (b' := SmallFloat.uintToFloatRoundDown (b_size blk')) in *. assert (b' ≤ b) as Hle.
    { destruct (decide (b' ≤ b)) as [|Hgt]; [done|]. specialize (Habove b' ltac:(lia)).
      apply negb_false_iff, bool_decide_eq_true in Habove. by destruct (Hne blk' Hb' Hf'). }
    apply bin_ratio; [lia|]. pose proof (round_down_bracket (b_size blk') ltac:(lia)) as [_ [_ Hlt]]. fold b' in Hlt.
    pose proof (bin_size_mono (b' + 1) (b + 1) ltac:(lia)). lia.
  - right. exists blk. split_and!; [done|done| |lia]. assert (0 < b) as Hb0.
    { destruct (decide (b = 0)) as [Hb0|]; [|lia]. rewrite Hb0 in Erd. 
      pose proof (round_down_bracket (b_size blk) ltac:(lia)) as [_ [_ Hlt]]. rewrite Erd in Hlt. change (bin_size (0 + 1)) with 1 in Hlt. lia. }
    pose proof (bin_size_step 0 ltac:(lia)). pose proof (bin_size_mono (0 + 1) b ltac:(lia)). change (bin_size 0) with 0 in *. lia.
Qed.

(** The free blocks of a bin. *)
Definition in_bin (b : Z) (bs : list Block) : list Block :=
  base.filter (λ blk, SmallFloat.uintToFloatRoundDown (b_size blk) = b) (frees bs).

Lemma in_bin_perm s bs L b : rep s bs L → L b ≡ₚ ids (in_bin b bs).
Proof.
  intros Hs. apply NoDup_Permutation; [apply (bk_nodup _ _ (rp_bins _ _ _ Hs))| |].
  - eapply sublist_NoDup; [apply (ch_nodup _ _ _ (rp_chain _ _ _ Hs))|]. apply fmap_sublist.
    etrans; [apply sublist_filter|apply sublist_filter].
  - intros x. rewrite (rp_members _ _ _ Hs), list_elem_of_fmap. unfold in_bin. setoid_rewrite list_elem_of_filter.
    setoid_rewrite elem_of_frees. split; [intros (blk & ? & <- & ? & ?)|intros (blk & -> & ? & ? & ?)]; eauto 7.
Qed.

(** The fuel of the count suffices: a bin has fewer nodes than the array. *)
Lemma count_bin_spec s bs L b fuel : ∀ pre l c,
  rep s bs L → 0 ≤ b < 256 → L b = pre ++ l → (length l ≤ fuel)%nat → 0 ≤ c → c + zlen l < 2 ^ 32 →
  count_bin fuel (first_or unused l) c s = (s, Ok (Some (c + zlen l))).
Proof.
  induction fuel as [|fuel IH]; intros pre l c Hs Hb HL Hlen Hc Hn; (destruct l as [|x l]; [cbn; by rewrite Z.add_0_r|]).
  { cbn in Hlen. lia. }
  cbn [count_bin first_or head from_option id].
  assert (zlen (x :: l) = zlen l + 1) as Ez by (unfold zlen; cbn; lia). rewrite Ez in Hn |- *.
  rewrite (proj2 (Z.eqb_neq x unused)) by (apply (bk_valid _ _ (rp_bins _ _ _ Hs) b); rewrite HL; apply elem_of_app; right; by left).
  destruct (bin_split_nodes s L b pre x l (rp_bins _ _ _ Hs) Hb HL) as (n & Hn' & _ & Hnext & _).
  erewrite bind_ok; [|by apply node_at_ok]. rewrite Hnext. assert (0 ≤ zlen l) by (unfold zlen; lia).
  unfold u32. rewrite Z.mod_small by lia.
  rewrite (IH (pre ++ [x])); [do 3 f_equal; lia|done|done|by rewrite <- app_assoc|cbn in Hlen; lia|lia|lia].
Qed.

Lemma report_bins_spec s bs L fuel bins :
  rep s bs L → (∀ b, b ∈ bins → 0 ≤ b < 256) → (length bs ≤ fuel)%nat → zlen bs < 2 ^ 32 →
  report_bins fuel bins s = (s, Ok ((λ b, (SmallFloat.floatToUint b, Some (zlen (in_bin b bs)))) <$> bins)).
Proof.
  intros Hs Hbins Hfuel Hbs. induction bins as [|b bins IH]; [done|]. cbn [report_bins].
  assert (0 ≤ b < 256) as Hb by (apply Hbins; by left).
  assert (length (L b) = length (in_bin b bs)) as El by (rewrite (in_bin_perm _ _ _ b Hs); apply length_fmap).
  assert (length (in_bin b bs) ≤ length bs)%nat as Hle by (etrans; [apply length_filter|apply length_filter]).
  erewrite bind_ok; [|by apply bin_at_ok, (bk_head _ _ (rp_bins _ _ _ Hs))].
  erewrite bind_ok; [|apply (count_bin_spec s bs L b fuel [] (L b) 0 Hs Hb); [done|lia|lia|unfold zlen in *; lia]].
  erewrite bind_ok; [|apply IH; intros b' Hb'; apply Hbins; by right].
  unfold zlen. by rewrite El.
Qed.

Lemma GetStorageReportFull_spec s bs L :
  rep s bs L → GetStorageReportFull s =
    (s, Ok ((λ b, (SmallFloat.floatToUint b, Some (zlen (in_bin b bs)))) <$> seqZ 0 NUM_LEAF_BINS)).
Proof.
  intros Hs. unfold GetStorageReportFull, mbind, M_bind, get_state. pose proof (rep_spare _ _ _ Hs) as [? ?].
  pose proof (rp_max _ _ _ Hs). unfold zlen in *. apply (report_bins_spec _ _ _ _ _ Hs); [|lia|unfold zlen; lia].
  intros b Hb%elem_of_seqZ. unfold NUM_LEAF_BINS in Hb. lia.
Qed.
