(* ===== verification/AllocatorRuns.v ===== *)
(** * Runs of the offset allocator

    What a client of the allocator sees over any sequence of [Allocate], [Free] and [Reset]:
    live allocations never overlap, [Free] accepts exactly the live handles, [Allocate]
    finds room when there is room, and no call reads outside an array or fails an
    assertion. *)

From Stdlib Require Import ZArith Lia.
From stdpp Require Import base list gmap numbers list_numbers.
From S2P Require Import Prelude.
From S2P Require Import OffsetAllocator.
From S2P Require Import AllocatorBins.
From S2P Require Import AllocatorLists.
From S2P Require Import AllocatorRegions.
From S2P Require Import AllocatorOps.
From S2P Require Import AllocatorFree.
From S2P Require Import AllocatorReports.
Local Open Scope Z_scope.

#[export] Instance Allocation_eq_dec : EqDecision Allocation.
Proof. solve_decision. Defined.

(** ** The client's view *)

(** The live allocations, with their sizes. *)
Abbreviation Live := (list (Allocation * Z)).

Definition allocated (a : Allocation) (n : Z) (live : Live) : Live :=
  if nodeIndex a =? unused then live else (a, n) :: live.

Definition released (a : Allocation) (ok : bool) (live : Live) : Live :=
  if ok then base.filter (λ e, e.1 ≠ a) live else live.

(** The live allocations after a call; one that raises would leave them as they are. *)
Definition after {A} (o : outcome A) (f : A → Live) (live : Live) : Live :=
  match o with Ok a => f a | Raise _ => live end.

(** The states that calls lead to from a new allocator, whatever the calls answer. *)
Inductive alloc_reach (size max : Z) : Allocator → Live → Prop :=
  | reach_new s : Allocator_new size max = Ok s → alloc_reach size max s []
  | reach_allocate s live n :
      alloc_reach size max s live → 0 ≤ n < 2 ^ 32 →
      alloc_reach size max (Allocate n s).1 (after (Allocate n s).2 (λ a, allocated a n live) live)
  | reach_free s live a :
      alloc_reach size max s live → 0 ≤ nodeIndex a →
      alloc_reach size max (Free a s).1 (after (Free a s).2 (λ ok, released a ok live) live)
  | reach_reset s live :
      alloc_reach size max s live → alloc_reach size max (Reset s).1 (after (Reset s).2 (λ _, []) live).

Lemma reach_allocated size max s live n s' a :
  alloc_reach size max s live → 0 ≤ n < 2 ^ 32 → Allocate n s = (s', Ok a) → alloc_reach size max s' (allocated a n live).
Proof. intros Hr Hn E. pose proof (reach_allocate _ _ _ _ n Hr Hn) as H. by rewrite E in H. Qed.

Lemma reach_freed size max s live a s' ok :
  alloc_reach size max s live → 0 ≤ nodeIndex a → Free a s = (s', Ok ok) → alloc_reach size max s' (released a ok live).
Proof. intros Hr Hi E. pose proof (reach_free _ _ _ _ a Hr Hi) as H. by rewrite E in H. Qed.

Definition live_total (live : Live) : Z := foldr (λ e t, e.2 + t) 0 live.

(** A stretch of the region that no live allocation touches. *)
Definition gap (live : Live) (size o m : Z) : Prop :=
  0 ≤ o ∧ 0 < m ∧ o + m ≤ size ∧ ∀ a n, (a, n) ∈ live → offset a + n ≤ o ∨ o + m ≤ offset a.

(** ** Used blocks *)

Definition useds (bs : list Block) : list Block := base.filter (λ b, b_used b = true) bs.
Definition entry (b : Block) : Allocation * Z := (mkAllocation (b_off b) (b_node b), b_size b).

Lemma useds_app a b : useds (a ++ b) = useds a ++ useds b.
Proof. apply filter_app. Qed.
Lemma useds_used b l : b_used b = true → useds (b :: l) = b :: useds l.
Proof. intros Hb. unfold useds. by rewrite filter_cons, decide_True. Qed.
Lemma useds_free b l : b_used b = false → useds (b :: l) = useds l.
Proof. intros Hb. unfold useds. by rewrite filter_cons, decide_False by congruence. Qed.
Lemma useds_all_free l : all_free l → useds l = [].
Proof. induction 1 as [|b l Hb _ IH]; [done|]. by rewrite useds_free. Qed.
Lemma elem_of_useds b bs : b ∈ useds bs ↔ b_used b = true ∧ b ∈ bs.
Proof. unfold useds. by rewrite list_elem_of_filter. Qed.

Lemma live_total_app a b : live_total (a ++ b) = live_total a + live_total b.
Proof. induction a as [|x a IH]; cbn; [done|]. unfold live_total in *. lia. Qed.
#[export] Instance live_total_perm : Proper ((≡ₚ) ==> (=)) live_total.
Proof. induction 1; unfold live_total in *; cbn in *; lia. Qed.

Lemma totals o bs e : tiles o bs e → free_total bs + live_total (entry <$> useds bs) = e - o.
Proof.
  revert o. induction bs as [|b bs IH]; intros o; [cbn; lia|]. intros (_ & _ & Ht%IH).
  change (free_total (b :: bs)) with ((if b_used b then 0 else b_size b) + free_total bs).
  destruct (b_used b) eqn:Hb; [rewrite useds_used, fmap_cons by done|rewrite useds_free by done]; [|lia].
  change (live_total (entry b :: (entry <$> useds bs))) with (b_size b + live_total (entry <$> useds bs)). lia.
Qed.

(** Free blocks are separated by used ones. *)
Lemma frees_useds pf bs : alone pf bs → (length (frees bs) + (if pf then 1 else 0) ≤ length (useds bs) + 1)%nat.
Proof.
  revert pf. induction bs as [|b bs IH]; intros pf; cbn [alone]; [destruct pf; cbn; lia|]. intros [Hb Hal%IH].
  unfold frees in *. rewrite filter_cons. destruct (b_used b) eqn:E; cbn [negb] in *.
  - rewrite useds_used, decide_False by congruence. cbn [length]. destruct pf; lia.
  - rewrite useds_free, decide_True by done. cbn [length]. destruct pf; [by specialize (Hb eq_refl)|lia].
Qed.

Lemma length_blocks bs : length bs = (length (frees bs) + length (useds bs))%nat.
Proof.
  induction bs as [|b bs IH]; [done|]. unfold frees in *. rewrite filter_cons. cbn [length]. destruct (b_used b) eqn:E.
  - rewrite useds_used, decide_False by congruence. cbn [length]. lia.
  - rewrite useds_free, decide_True by done. cbn [length]. lia.
Qed.

(** A stretch without used blocks is inside one free block. *)
Lemma gap_block p bs e pf o m :
  tiles p bs e → alone pf bs → p ≤ o → 0 < m → o + m ≤ e →
  (∀ b, b ∈ useds bs → b_off b + b_size b ≤ o ∨ o + m ≤ b_off b) →
  ∃ b, b ∈ bs ∧ b_used b = false ∧ m ≤ b_size b ∧ b_off b ≤ o ∧ o + m ≤ b_off b + b_size b.
Proof.
  revert p pf. induction bs as [|b bs IH]; intros p pf; cbn [tiles alone]; [lia|]. intros (Ho & Hs & Ht) (_ & Hal) Hpo Hm He Hu.
  destruct (decide (p + b_size b ≤ o)) as [Hle|Hgt].
  { destruct (IH _ _ Ht Hal Hle Hm He) as (b' & ? & ?); [|exists b'; split; [by right|done]].
    intros b' [Hb' Hin]%elem_of_useds. apply Hu, elem_of_useds. split; [done|by right]. }
  destruct (b_used b) eqn:Hb; [destruct (Hu b); [apply elem_of_useds; split; [done|by left]|lia|lia]|].
  exists b. split; [by left|]. split; [done|]. destruct (decide (o + m ≤ p + b_size b)) as [|Hlong]; [lia|].
  destruct bs as [|c bs]; [cbn in Ht; lia|]. destruct Ht as (Hco & Hcs & _). destruct Hal as [Hc _].
  destruct (Hu c) as [|]; [apply elem_of_useds; split; [by apply Hc|by right; left]|lia|lia].
Qed.

(** ** The invariant *)

Definition shows (size max : Z) (s : Allocator) (live : Live) (bs : list Block) (L : Z → list Z) : Prop :=
  rep s bs L ∧ size_ s = size ∧ maxAllocs_ s = max ∧ live ≡ₚ entry <$> useds bs.

Lemma handle_entry a bs : (∃ n, (a, n) ∈ entry <$> useds bs) ↔ ∃ blk, blk ∈ bs ∧ handle_of a blk.
Proof.
  split.
  - intros (n & (blk & [= -> ->] & [Hu Hin]%elem_of_useds)%list_elem_of_fmap). by exists blk.
  - intros (blk & Hin & Hu & Hn & Ho). exists (b_size blk). apply list_elem_of_fmap. exists blk.
    split; [destruct a; cbn in *; unfold entry; congruence|by apply elem_of_useds].
Qed.

Lemma Free_invalid s bs L a :
  rep s bs L → 0 ≤ nodeIndex a → (∀ blk, blk ∈ bs → ¬ handle_of a blk) → Free a s = (s, Ok false).
Proof.
  intros Hs Hi Hno. pose proof (handle_check s bs L a Hs Hi) as Hc. unfold Free, mbind at 1, M_bind at 1, get_state.
  destruct (_ || _); [done|]. destruct Hc as (n & Hn & Hc). erewrite bind_ok; [|by apply node_at_ok].
  destruct (_ || _); [done|]. destruct Hc as (blk & Hin & Hh & _). by destruct (Hno blk).
Qed.

Lemma handle_dec s bs L a :
  rep s bs L → 0 ≤ nodeIndex a → (∃ blk, blk ∈ bs ∧ handle_of a blk) ∨ ∀ blk, blk ∈ bs → ¬ handle_of a blk.
Proof.
  intros Hs Hi. pose proof (handle_check s bs L a Hs Hi) as Hc.
  destruct (_ || _); [by right|]. destruct Hc as (n & Hn & Hc). destruct (_ || _); [by right|]. left. naive_solver.
Qed.

Lemma released_others a (live : Live) : (∀ e, e ∈ live → e.1 ≠ a) → base.filter (λ e : Allocation * Z, e.1 ≠ a) live = live.
Proof.
  induction live as [|e live IH]; intros Hne; [done|]. rewrite filter_cons, decide_True by (apply Hne; by left).
  f_equal. apply IH. intros e' He'. apply Hne. by right.
Qed.

Lemma allocate_total size max s live bs L n :
  shows size max s live bs L → 0 ≤ n < 2 ^ 32 → ∃ s' a, Allocate n s = (s', Ok a).
Proof.
  intros (Hs & _) Hn. destruct (Allocate_spec s bs L n Hs Hn) as [(l1 & b & l2 & y & s' & L' & _ & _ & _ & E & _)|[E _]]; eauto.
Qed.

Lemma shows_allocate size max s live bs L n s' a :
  shows size max s live bs L → 0 ≤ n < 2 ^ 32 → Allocate n s = (s', Ok a) →
  ∃ bs' L', shows size max s' (allocated a n live) bs' L' ∧
    ((a = no_allocation ∧ s' = s) ∨ (nodeIndex a ≠ unused ∧ 0 < n)).
Proof.
  intros (Hs & Hsz & Hmax & Hl) Hn E. unfold allocated.
  destruct (Allocate_spec s bs L n Hs Hn) as [(l1 & blk & l2 & y & s1 & L' & -> & Hfree & Hfit & E' & Hs' & ? & ? & _)|[E' _]];
    rewrite E' in E; injection E as <- <-.
  - assert (b_node blk ≠ unused) as Hu by (apply (ch_valid _ _ _ (rp_chain _ _ _ Hs)), elem_of_app; right; by left). cbn.
    rewrite (proj2 (Z.eqb_neq _ _) Hu). eexists _, L'. split; [|right; split; [done|lia]]. split_and!; [exact Hs'|congruence..|].
    unfold alloc_blocks. rewrite useds_app, useds_used, fmap_app, fmap_cons by done. rewrite useds_app, useds_free, fmap_app in Hl by done.
    assert (useds (if b_size blk =? n then l2 else mkBlock y (b_off blk + n) (b_size blk - n) false :: l2) = useds l2) as ->
      by (by destruct (_ =? _)). rewrite Hl. apply Permutation_middle.
  - exists bs, L. cbn. split; [done|by left].
Qed.

Lemma shows_free size max s live bs L a :
  shows size max s live bs L → 0 ≤ nodeIndex a →
  ∃ s' ok bs' L', Free a s = (s', Ok ok) ∧ (ok = true ↔ ∃ n, (a, n) ∈ live) ∧ (ok = false → s' = s) ∧
    shows size max s' (released a ok live) bs' L'.
Proof.
  intros (Hs & Hsz & Hmax & Hl) Hi. assert ((∃ n, (a, n) ∈ live) ↔ ∃ blk, blk ∈ bs ∧ handle_of a blk) as Hiff
    by (setoid_rewrite Hl; apply handle_entry).
  destruct (handle_dec s bs L a Hs Hi) as [(blk & Hin & Hh)|Hno].
  - destruct (list_elem_of_split _ _ Hin) as (l1 & l2 & ->).
    destruct (Free_block s l1 blk l2 L a Hs Hh) as (s' & L' & l1' & pre & post & l2' & E & -> & -> & Hpre & Hpost & Hs' & ? & ?).
    exists s', true, (l1' ++ joined pre blk post :: l2'), L'. split; [exact E|]. split; [split; [intros _; apply Hiff; eauto|done]|]. split; [done|].
    split_and!; [exact Hs'|congruence..|]. cbn [released]. pose proof Hh as (Hu & Hn & Ho).
    assert (a = (entry blk).1) as -> by (destruct a; cbn in *; unfold entry; cbn; congruence).
    rewrite useds_app, (useds_free (joined pre blk post)), fmap_app by done.
    rewrite !useds_app, useds_used, useds_app, (useds_all_free pre), (useds_all_free post), app_nil_r, fmap_app in Hl by done.
    cbn [app] in Hl. rewrite fmap_cons in Hl. rewrite Hl, <- Permutation_middle, filter_cons, decide_False by tauto. rewrite <- fmap_app.
    rewrite released_others; [done|]. intros e (b & -> & Hb)%list_elem_of_fmap [= _ Hnode].
    pose proof (ch_nodup _ _ _ (rp_chain _ _ _ Hs)) as Hnd. rewrite fmap_app, fmap_cons in Hnd.
    apply list.NoDup_app in Hnd as (_ & Hd & [Hx _]%NoDup_cons). rewrite <- useds_app in Hb. apply elem_of_useds in Hb as [_ Hb].
    apply elem_of_app in Hb as [Hb|Hb].
    + apply (Hd (b_node b)); [|rewrite Hnode; by left]. apply list_elem_of_fmap_2, elem_of_app. by left.
    + apply Hx. rewrite <- Hnode. apply list_elem_of_fmap_2, elem_of_app. by right.
  - exists s, false, bs, L. split; [by apply (Free_invalid s bs L)|]. split_and!; try done.
    split; [done|]. intros (blk & Hin & Hh)%Hiff. by destruct (Hno blk Hin).
Qed.

Lemma shows_reset size max s live bs L :
  0 < size < 2 ^ 32 → 3 ≤ max < 2 ^ 32 → shows size max s live bs L →
  ∃ s' bs' L', Reset s = (s', Ok tt) ∧ shows size max s' [] bs' L'.
Proof.
  intros Hsize Hm (Hs & Hsz & Hmax & _). rewrite <- Hsz in Hsize. rewrite <- Hmax in Hm.
  destruct (Reset_spec s Hsize Hm) as (s' & L' & y & E & Hs' & ? & ?). exists s', [mkBlock y 0 (size_ s) false], L'.
  split; [exact E|]. split_and!; [exact Hs'|congruence..|done].
Qed.

Lemma reach_shows size max s live :
  alloc_reach size max s live → 0 ≤ size < 2 ^ 32 → 0 ≤ max < 2 ^ 32 →
  0 < size ∧ 3 ≤ max ∧ ∃ bs L, shows size max s live bs L.
Proof.
  intros Hr Hsize Hmax. induction Hr as [s E|s live n _ IH Hn|s live a _ IH Hi|s live _ IH].
  - unfold Allocator_new in E. destruct (Z.eqb_spec size 0), (Z.ltb_spec max 3), (unused <? max) eqn:Eu; try done. split; [lia|]. split; [lia|].
    destruct (Allocator_new_spec size max ltac:(lia) ltac:(lia)) as (s1 & L & y & E1 & Hs & ? & ?). unfold Allocator_new in E1.
    rewrite (proj2 (Z.eqb_neq _ _)), (proj2 (Z.ltb_ge _ _)), Eu in E1 by lia. rewrite E1 in E. injection E as ->.
    exists [mkBlock y 0 size false], L. by split_and!.
  - destruct IH as (? & ? & bs & L & IH). destruct (allocate_total _ _ _ _ _ _ n IH Hn) as (s' & a & E).
    destruct (shows_allocate _ _ _ _ _ _ _ _ _ IH Hn E) as (bs' & L' & ? & _). rewrite E. eauto 6.
  - destruct IH as (? & ? & bs & L & IH). destruct (shows_free _ _ _ _ _ _ a IH Hi) as (s1 & ok1 & bs' & L' & E1 & _ & _ & ?).
    rewrite E1. eauto 6.
  - destruct IH as (? & ? & bs & L & IH). destruct (shows_reset size max s live bs L ltac:(lia) ltac:(lia) IH) as (s1 & bs' & L' & E1 & ?).
    rewrite E1. eauto 6.
Qed.

Lemma blocks_apart o bs e b b' :
  tiles o bs e → b ∈ bs → b' ∈ bs → b ≠ b' → b_off b + b_size b ≤ b_off b' ∨ b_off b' + b_size b' ≤ b_off b.
Proof.
  intros Ht (i & Hi)%list_elem_of_lookup (j & Hj)%list_elem_of_lookup Hne.
  destruct (decide (i < j)%nat) as [|Hge]; [left; by apply (tiles_apart _ _ _ i j _ _ Ht)|].
  assert (i ≠ j) by congruence. right. apply (tiles_apart _ _ _ j i _ _ Ht); [done..|lia].
Qed.

Lemma shows_block size max s live bs L e :
  shows size max s live bs L → e ∈ live → ∃ blk, blk ∈ bs ∧ b_used blk = true ∧ e = entry blk.
Proof.
  intros (_ & _ & _ & Hl). rewrite Hl. intros (blk & -> & [? ?]%elem_of_useds)%list_elem_of_fmap. by exists blk.
Qed.

Lemma shows_nodup size max s live bs L : shows size max s live bs L → NoDup live.*1.
Proof.
  intros (Hs & _ & _ & Hl). rewrite Hl. apply (NoDup_fmap_1 nodeIndex). rewrite <- !list_fmap_compose.
  eapply sublist_NoDup; [apply (ch_nodup _ _ _ (rp_chain _ _ _ Hs))|]. apply fmap_sublist, sublist_filter.
Qed.

Lemma live_node size max s live bs L a n : shows size max s live bs L → (a, n) ∈ live → 0 ≤ nodeIndex a.
Proof.
  intros Hsh Hin. pose proof Hsh as (Hs & _). destruct (shows_block _ _ _ _ _ _ _ Hsh Hin) as (blk & Hb & _ & [= -> _]). cbn.
  destruct (rp_spare _ _ _ Hs) as (fl & _ & _ & _ & _ & Hr & _). apply Hr, elem_of_app. right. by apply list_elem_of_fmap_2.
Qed.

Lemma shows_size size max s live bs L a n :
  shows size max s live bs L → (a, n) ∈ live → GetAllocationSize a s = (s, Ok n).
Proof.
  intros Hsh Hin. pose proof Hsh as (Hs & _). destruct (shows_block _ _ _ _ _ _ _ Hsh Hin) as (blk & Hb & Hu & [= -> ->]).
  destruct (GetAllocationSize_spec s bs L (entry blk).1 Hs) as (n & E & [(b' & Hb' & (_ & Hn' & _) & ->)|[_ Hno]]).
  - by eapply (live_node _ _ _ _ _ _ _ _ Hsh).
  - cbn in Hn'. pose proof (block_unique _ _ _ _ _ Hs Hb' Hb Hn') as ->. exact E.
  - by destruct (Hno blk Hb).
Qed.

(** The size of any handle. *)
Lemma shows_any_size size max s live bs L a :
  shows size max s live bs L → 0 ≤ nodeIndex a →
  ∃ n, GetAllocationSize a s = (s, Ok n) ∧ ((a, n) ∈ live ∨ (n = 0 ∧ ¬ ∃ m, (a, m) ∈ live)).
Proof.
  intros Hsh Ha. pose proof Hsh as (Hs & _ & _ & Hl). assert ((∃ n, (a, n) ∈ live) ↔ ∃ blk, blk ∈ bs ∧ handle_of a blk) as Hiff
    by (setoid_rewrite Hl; apply handle_entry).
  destruct (GetAllocationSize_spec s bs L a Hs Ha) as (n & E & [(blk & Hb & Hh & ->)|[-> Hno]]).
  - destruct (proj2 Hiff) as [m Hm]; [eauto|]. rewrite (shows_size _ _ _ _ _ _ _ _ Hsh Hm) in E. clear E.
    exists m. split; [by apply (shows_size _ _ _ _ _ _ _ _ Hsh)|]. by left.
  - exists 0. split; [done|]. right. split; [done|]. intros (blk & Hb & Hh)%Hiff. by destruct (Hno blk Hb).
Qed.

Lemma released_middle size max s bs L l1 a n l2 :
  shows size max s (l1 ++ (a, n) :: l2) bs L → released a true (l1 ++ (a, n) :: l2) = l1 ++ l2.
Proof.
  intros Hnd%shows_nodup. rewrite fmap_app, fmap_cons in Hnd. apply list.NoDup_app in Hnd as (_ & Hd & [Hx _]%NoDup_cons). cbn [released fst] in *.
  rewrite filter_app, filter_cons, decide_False by tauto. f_equal; apply released_others; intros e He <-.
  - apply (Hd e.1); [by apply list_elem_of_fmap_2|by left].
  - apply Hx. by apply list_elem_of_fmap_2.
Qed.

(** The stretches are the parts of the free blocks. *)
Lemma free_gap size max s live bs L b n :
  shows size max s live bs L → b ∈ bs → b_used b = false → 0 < n ≤ b_size b → gap live size (b_off b) n.
Proof.
  intros Hsh Hb Hf Hn. pose proof Hsh as (Hs & Hsz & _). pose proof (rep_block _ _ _ _ Hs Hb). split_and!; [lia..|].
  intros a k Ha. destruct (shows_block _ _ _ _ _ _ _ Hsh Ha) as (b' & Hb' & Hu' & [= -> ->]). cbn.
  destruct (blocks_apart _ _ _ _ _ (ch_tiles _ _ _ (rp_chain _ _ _ Hs)) Hb' Hb); [congruence|by left|right; lia].
Qed.

Lemma gap_free size max s live bs L o m :
  shows size max s live bs L → gap live size o m → ∃ b, b ∈ bs ∧ b_used b = false ∧ m ≤ b_size b.
Proof.
  intros (Hs & Hsz & _ & Hl) (Ho & Hm & He & Hgap). pose proof (rp_chain _ _ _ Hs) as Hch.
  destruct (gap_block 0 bs size false o m) as (b & ? & ? & ? & _); [rewrite <- Hsz; apply Hch|apply Hch|lia|lia|lia| |by exists b].
  intros b Hb. apply (Hgap (entry b).1 (b_size b)). rewrite Hl. by apply (list_elem_of_fmap_2 entry).
Qed.

(** Live allocations are inside the region and apart. *)
Lemma live_bounds size max s live bs L a n :
  shows size max s live bs L → (a, n) ∈ live → 0 ≤ offset a ∧ 0 < n ∧ offset a + n ≤ size.
Proof.
  intros Hsh Hin. destruct (shows_block _ _ _ _ _ _ _ Hsh Hin) as (blk & Hb & _ & [= -> ->]). pose proof Hsh as (Hs & <- & _).
  apply (rep_block _ _ _ _ Hs Hb).
Qed.

Lemma live_disjoint size max s live bs L (i j : nat) a n a' n' :
  shows size max s live bs L → live !! i = Some (a, n) → live !! j = Some (a', n') → i ≠ j →
  offset a + n ≤ offset a' ∨ offset a' + n' ≤ offset a.
Proof.
  intros Hsh Hi Hj Hij. pose proof Hsh as (Hs & _).
  destruct (shows_block _ _ _ _ _ _ _ Hsh (list_elem_of_lookup_2 _ _ _ Hi)) as (blk & Hb & _ & [= -> ->]).
  destruct (shows_block _ _ _ _ _ _ _ Hsh (list_elem_of_lookup_2 _ _ _ Hj)) as (blk' & Hb' & _ & [= -> ->]).
  apply (blocks_apart _ _ _ _ _ (ch_tiles _ _ _ (rp_chain _ _ _ Hs)) Hb Hb'). intros ->. apply Hij.
  by eapply (NoDup_lookup live); [eapply NoDup_fmap_1; by eapply shows_nodup|..].
Qed.

(** ** What clients rely on *)

(** C15 In every state that calls lead to, the live allocations lie inside the region, no two
    of them overlap, [GetAllocationSize] tells their sizes, and their sizes and the free
    storage add up to the size of the region. *)
Theorem live_apart size max s live :
  alloc_reach size max s live → 0 ≤ size < 2 ^ 32 → 0 ≤ max < 2 ^ 32 →
  (∀ (i : nat) a n, live !! i = Some (a, n) →
     0 ≤ offset a ∧ 0 < n ∧ offset a + n ≤ size ∧ GetAllocationSize a s = (s, Ok n) ∧
     ∀ (j : nat) a' n', live !! j = Some (a', n') → i ≠ j → offset a + n ≤ offset a' ∨ offset a' + n' ≤ offset a) ∧
  freeStorage_ s + live_total live = size.
Proof.
  intros Hr Hsize Hmax. destruct (reach_shows _ _ _ _ Hr Hsize Hmax) as (_ & _ & bs & L & Hsh). pose proof Hsh as (Hs & Hsz & _ & Hl).
  pose proof (ch_tiles _ _ _ (rp_chain _ _ _ Hs)) as Ht. rewrite Hsz in Ht.
  split; [|rewrite (rp_storage _ _ _ Hs), Hl; rewrite (totals _ _ _ Ht); lia].
  intros i a n Hi. pose proof (list_elem_of_lookup_2 _ _ _ Hi) as Hin. pose proof (live_bounds _ _ _ _ _ _ _ _ Hsh Hin) as (? & ? & ?).
  split_and!; [lia..|by eapply shows_size|]. intros j a' n' Hj Hij. by apply (live_disjoint _ _ _ _ _ _ i j a n a' n' Hsh).
Qed.

(** C18 In every state that calls lead to, [Free] accepts a handle exactly if it is the value
    of a live one; any other handle, one that was released or one the client made up,
    changes nothing. *)
Theorem free_exact size max s live a :
  alloc_reach size max s live → 0 ≤ size < 2 ^ 32 → 0 ≤ max < 2 ^ 32 → 0 ≤ nodeIndex a →
  ∃ s' ok, Free a s = (s', Ok ok) ∧ (ok = true ↔ ∃ n, (a, n) ∈ live) ∧ (ok = false → s' = s).
Proof.
  intros Hr Hsize Hmax Hi. destruct (reach_shows _ _ _ _ Hr Hsize Hmax) as (_ & _ & bs & L & Hsh).
  destruct (shows_free _ _ _ _ _ _ a Hsh Hi) as (s' & ok & _ & _ & E & Hok & Hno & _). eauto 6.
Qed.

(** C17 Room is found. With [live] allocations and a stretch of [m] untouched bytes, an
    allocation of [n ≤ m] bytes succeeds, provided that a spare node is left and either
    that [m] exceeds [n] by an eighth, or that fewer than [BIN_SCAN_LIMIT]
    allocations are live. So an allocator whose allocations were all released serves every
    size up to that of the region. *)
Theorem allocate_finds_gap size max s live o m n :
  alloc_reach size max s live → 0 ≤ size < 2 ^ 32 → 0 ≤ max < 2 ^ 32 →
  gap live size o m → 0 < n ≤ m → 2 * zlen live + 2 < max →
  9 * n ≤ 8 * m ∨ zlen live < Z.of_nat BIN_SCAN_LIMIT →
  ∃ s' a, Allocate n s = (s', Ok a) ∧ nodeIndex a ≠ unused ∧ gap live size (offset a) n.
Proof.
  intros Hr Hsize Hmax Hgap Hn Hspare Hroom.
  destruct (reach_shows _ _ _ _ Hr Hsize Hmax) as (_ & _ & bs & L & Hsh). pose proof Hsh as (Hs & Hsz & Hmx & Hl).
  pose proof (rp_chain _ _ _ Hs) as Hch.
  pose proof (frees_useds _ _ (ch_alone _ _ _ Hch)) as Hfu. pose proof (length_blocks bs) as Hlen. pose proof (rep_spare _ _ _ Hs) as [_ Hfo].
  assert (length live = length (useds bs)) as El by (rewrite Hl; apply length_fmap). unfold zlen in *.
  destruct (gap_free _ _ _ _ _ _ o m Hsh Hgap) as (blk & Hb & Hf & Hbs). pose proof Hgap as (? & _ & ? & _).
  destruct (Allocate_spec s bs L n Hs ltac:(lia)) as [(l1 & b & l2 & y & s' & L' & -> & Hbf & Hfit & E & _)|[_ Hfail]].
  - assert (b ∈ l1 ++ b :: l2) as Hin by (apply elem_of_app; right; by left). exists s', (mkAllocation (b_off b) (b_node b)).
    split; [done|]. split; [by apply (ch_valid _ _ _ Hch)|]. by apply (free_gap _ _ _ _ _ _ b n Hsh).
  - destruct (Hfail ltac:(lia) ltac:(lia) blk Hb Hf) as [Hlt Hmany]. exfalso. destruct Hroom as [Hroom|Hroom].
    + pose proof (round_enough n (b_size blk) ltac:(lia) ltac:(lia)). lia.
    + specialize (Hmany ltac:(lia)). lia.
Qed.

(** C20 No call reads outside an array, shifts too far or fails an assertion: in every state
    that calls lead to, every operation returns. A failed [Allocate] changes nothing, and so
    does a [Free] that refuses its handle; [Free] accepts a handle exactly if it is live, and
    [GetAllocationSize] answers its size, and zero for any other handle; the
    storage report has the free storage and a stretch that no larger one exceeds by more
    than an eighth; the loops of the full report end. *)
Theorem allocator_calls_return size max s live :
  alloc_reach size max s live → 0 ≤ size < 2 ^ 32 → 0 ≤ max < 2 ^ 32 →
  (∀ n, 0 ≤ n < 2 ^ 32 → ∃ s' a, Allocate n s = (s', Ok a) ∧ ((a = no_allocation ∧ s' = s) ∨ nodeIndex a ≠ unused)) ∧
  (∀ a, 0 ≤ nodeIndex a →
     (∃ s' ok, Free a s = (s', Ok ok) ∧ (ok = true ↔ ∃ n, (a, n) ∈ live) ∧ (ok = false → s' = s)) ∧
     ∃ n, GetAllocationSize a s = (s, Ok n) ∧ ((a, n) ∈ live ∨ (n = 0 ∧ ¬ ∃ m, (a, m) ∈ live))) ∧
  (∃ s', Reset s = (s', Ok tt)) ∧
  (∃ r, GetStorageReport s = (s, Ok (size - live_total live, r)) ∧
     (∀ o m, gap live size o m → 8 * (m - r) ≤ r) ∧ (0 < r → ∃ o, gap live size o r)) ∧
  ∃ regions, GetStorageReportFull s = (s, Ok regions) ∧ Forall (λ e, is_Some e.2) regions.
Proof.
  intros Hr Hsize Hmax. destruct (reach_shows _ _ _ _ Hr Hsize Hmax) as (Hs0 & Hm3 & bs & L & Hsh). pose proof Hsh as (Hs & Hsz & Hmx & Hl).
  pose proof (rp_chain _ _ _ Hs) as Hch. pose proof (ch_tiles _ _ _ Hch) as Ht. rewrite Hsz in Ht. split; [|split; [|split; [|split]]].
  - intros n Hn. destruct (Allocate_spec s bs L n Hs Hn) as [(l1 & b & l2 & y & s' & L' & -> & _ & _ & E & _)|[E _]].
    + eexists s', _. split; [exact E|]. right. apply (ch_valid _ _ _ Hch), elem_of_app. right. by left.
    + eexists s, _. split; [exact E|]. by left.
  - intros a Ha. destruct (shows_free _ _ _ _ _ _ a Hsh Ha) as (s' & ok & _ & _ & E & Hok & Hno & _). split; [by exists s', ok|].
    by apply (shows_any_size size max s live bs L).
  - destruct (shows_reset size max s live bs L ltac:(lia) ltac:(lia) Hsh) as (s' & _ & _ & E & _). eauto.
  - destruct (GetStorageReport_spec s bs L Hs) as (r & E & Hmost & Hleast). exists r. pose proof (totals _ _ _ Ht) as Htot.
    rewrite <- Hl in Htot. split; [rewrite E; do 3 f_equal; lia|]. split.
    + intros o m Hgap. destruct (gap_free _ _ _ _ _ _ o m Hsh Hgap) as (b & Hb & Hf & ?). specialize (Hmost b Hb Hf). lia.
    + intros Hr0. destruct Hleast as [->|(b & Hb & Hf & Hrb)]; [lia|]. exists (b_off b). by apply (free_gap _ _ _ _ _ _ b r Hsh).
  - eexists. split; [exact (GetStorageReportFull_spec s bs L Hs)|]. apply Forall_fmap, Forall_forall. intros b _. by eexists.
Qed.

(** ** An example run *)

(** Three allocations from a region of 1024 bytes; the middle one is released. *)
Definition ex_new : Allocator := match Allocator_new 1024 8 with Ok s => s | Raise _ => mkAllocator 0 0 0 0 ∅ ∅ ∅ ∅ 0 end.
Definition ex_first : Allocator := (Allocate 100 ex_new).1.
Definition ex_second : Allocator := (Allocate 200 ex_first).1.
Definition ex_third : Allocator := (Allocate 300 ex_second).1.
Definition ex_run : Allocator := (Free (mkAllocation 100 1) ex_third).1.
Definition ex_live : Live := [(mkAllocation 300 2, 300); (mkAllocation 0 0, 100)].

Lemma pair_snd {A B} (p : A * B) b : p.2 = b → p = (p.1, b).
Proof. intros <-. apply surjective_pairing. Qed.

Lemma allocate_step size max s live n a :
  alloc_reach size max s live → 0 ≤ n < 2 ^ 32 → (Allocate n s).2 = Ok a →
  alloc_reach size max (Allocate n s).1 (allocated a n live).
Proof. intros Hr Hn E. eapply reach_allocated; [exact Hr|exact Hn|]. by apply pair_snd. Qed.

Lemma free_step size max s live a ok :
  alloc_reach size max s live → 0 ≤ nodeIndex a → (Free a s).2 = Ok ok →
  alloc_reach size max (Free a s).1 (released a ok live).
Proof. intros Hr Hi E. eapply reach_freed; [exact Hr|exact Hi|]. by apply pair_snd. Qed.

Lemma ex_reached : alloc_reach 1024 8 ex_run ex_live.
Proof.
  apply (free_step 1024 8 ex_third [(mkAllocation 300 2, 300); (mkAllocation 100 1, 200); (mkAllocation 0 0, 100)]
    (mkAllocation 100 1) true); [|cbn; lia|vm_compute; reflexivity].
  apply (allocate_step 1024 8 ex_second [(mkAllocation 100 1, 200); (mkAllocation 0 0, 100)] 300 (mkAllocation 300 2));
    [|lia|vm_compute; reflexivity].
  apply (allocate_step 1024 8 ex_first [(mkAllocation 0 0, 100)] 200 (mkAllocation 100 1)); [|lia|vm_compute; reflexivity].
  apply (allocate_step 1024 8 ex_new [] 100 (mkAllocation 0 0)); [|lia|vm_compute; reflexivity].
  apply reach_new. vm_compute. reflexivity.
Qed.

Lemma live_apart_witness : freeStorage_ ex_run + live_total ex_live = 1024.
Proof. exact (proj2 (live_apart 1024 8 ex_run ex_live ex_reached ltac:(lia) ltac:(lia))). Defined.

Lemma free_exact_witness : ∃ s' ok, Free (mkAllocation 100 1) ex_run = (s', Ok ok) ∧ (ok = false → s' = ex_run).
Proof.
  destruct (free_exact 1024 8 ex_run ex_live (mkAllocation 100 1) ex_reached) as (s' & ok & E & _ & Hno); [lia|lia|done|].
  exists s', ok. split; [exact E|exact Hno].
Defined.

Lemma allocate_finds_gap_witness : ∃ s' a, Allocate 200 ex_run = (s', Ok a) ∧ nodeIndex a ≠ unused.
Proof.
  destruct (allocate_finds_gap 1024 8 ex_run ex_live 100 200 200 ex_reached) as (s' & a & E & Hu & _); [lia|lia| |lia|done|by right
    |exists s', a; split; [exact E|exact Hu]].
  split_and!; [lia..|]. intros a n Ha. repeat (apply elem_of_cons in Ha as [Ha|Ha]; [injection Ha as -> ->; cbn; lia|]).
  by apply elem_of_nil in Ha.
Defined.

Lemma allocator_calls_return_witness :
  (∃ s', Reset ex_run = (s', Ok tt)) ∧ ∃ s', Free (mkAllocation 300 2) ex_run = (s', Ok true).
Proof.
  destruct (allocator_calls_return 1024 8 ex_run ex_live ex_reached ltac:(lia) ltac:(lia)) as (_ & Hfree & Hreset & _).
  split; [exact Hreset|]. destruct (Hfree (mkAllocation 300 2) ltac:(cbn; lia)) as [(s' & ok & E & Hok & _) _].
  exists s'. rewrite E, (proj2 Hok); [reflexivity|]. exists 300. left.
Defined.
