(* ===== verification/VariableBufferPool.v ===== *)
(** * The variable-size buffer pool

    [BufferRegion] and [VariableBufferPool]: a pool that hands out aligned byte ranges of
    one contiguous region, managed by the offset allocator in units of the alignment, and
    optionally clears memory before it is reused. The buffers of the device runtime are a
    parameter. *)

From Stdlib Require Import ZArith Lia.
From stdpp Require Import base list gmap numbers strings list_numbers.
From S2P Require Import Prelude.
From S2P Require Import OffsetAllocator.
Local Open Scope Z_scope.

(** ** Statuses and regions *)

(** The codes of [Status]; messages do not take part in its equality. *)
Inductive Status :=
  | S_OK | S_Error | S_InvalidParam | S_OutOfMemory | S_OsApiError | S_DuplicateKey | S_Retry | S_NotFound
  | S_SerializeFailed | S_DeserializeFailed | S_Unsupported | S_NoSpace | S_Timeout | S_StoreUnhealthy | S_TimeoutInQueue.

#[export] Instance Status_eq_dec : EqDecision Status.
Proof. solve_decision. Defined.

Definition Failure (st : Status) : bool := negb (bool_decide (st = S_OK)).

(** The enumerators, and a value of the underlying type that is none of them. *)
Inductive BufferMemoryType := Host | HostMappedDevice | MemDevice | DeviceMappedHost | OtherMemory (value : Z).

(** The runtime: whether [MakeBuffer] returns a buffer; the addresses of the buffers it
    makes, none on failure; how the [n]-th call of [Memset] to zero fails on an address
    range, if it does, namely the bytes it leaves there; whether the arrays of an allocator with that many
    nodes can be allocated. *)
Class Runtime := {
  MakeBuffer : bool;
  MakeHostBuffer : Z → option Z;
  SupportsHostMappedDeviceBuffer : bool;
  MakeHostMappedDeviceBuffer : Z → option Z * option Z;
  MakeDeviceBuffer : Z → option Z;
  SupportsDeviceMappedHostBuffer : bool;
  MakeDeviceMappedHostBuffer : Z → option Z;
  Memset_fails : Z → Z → Z → option (Z → Z);
  new_ok : Z → bool;
}.

(** A region that has an owner: its addresses. *)
Record BufferRegion := mkRegion { localAddr : Z; deviceAddr : Z }.

Section pool.
Context `{Runtime}.

Definition BufferRegion_Create (type : BufferMemoryType) (size : Z) : Status * option BufferRegion :=
  if negb MakeBuffer then (S_Error, None)
  else
    match type with
    | Host =>
        match MakeHostBuffer size with
        | Some owner => (S_OK, Some (mkRegion owner owner))
        | None => (S_Error, None)
        end
    | HostMappedDevice =>
        if negb SupportsHostMappedDeviceBuffer then (S_Unsupported, None)
        else
          match MakeHostMappedDeviceBuffer size with
          | (Some owner, Some device) => (S_OK, Some (mkRegion owner device))
          | _ => (S_Error, None)
          end
    | MemDevice =>
        match MakeDeviceBuffer size with
        | Some owner => (S_OK, Some (mkRegion owner owner))
        | None => (S_Error, None)
        end
    | DeviceMappedHost =>
        if negb SupportsDeviceMappedHostBuffer then (S_Unsupported, None)
        else
          match MakeDeviceMappedHostBuffer size with
          | Some owner => (S_OK, Some (mkRegion owner owner))
          | None => (S_Error, None)
          end
    | OtherMemory _ => (S_InvalidParam, None)
    end.

(** ** The pool *)

Definition kMaxSize : Z := 2 ^ 64 - 1.
Definition u64 (n : Z) : Z := n mod 2 ^ 64.
Definition kDefaultAllocationAlignment : Z := 64.

(** The allocated size and the units, if the layout is valid. *)
Definition ComputeAllocationLayout (requestedSize allocationAlignment : Z) : option (Z * Z) :=
  if (requestedSize =? 0) || (allocationAlignment =? 0) || (kMaxSize - (allocationAlignment - 1) <? requestedSize) then None
  else
    let allocatedSize := u64 (u64 (requestedSize + allocationAlignment - 1) / allocationAlignment * allocationAlignment) in
    let units := allocatedSize / allocationAlignment in
    if 2 ^ 32 - 1 <? units then None else Some (allocatedSize, units).

Record BufferHandle := mkHandle {
  owner_ : option Z;
  allocation_ : Allocation;
  requestedSize_ : Z;
  allocatedSize_ : Z;
  offset_ : Z;
  localAddr_ : Z;
  deviceAddr_ : Z;
}.

Record VariableBufferPool := mkPool {
  name_ : string;
  memoryType_ : BufferMemoryType;
  totalCapacity_ : Z;
  allocationAlignment_ : Z;
  enableZero_ : bool;
  region_ : option BufferRegion;
  allocator_ : option Allocator;
}.

Definition pool_default : VariableBufferPool := mkPool "" Host 0 kDefaultAllocationAlignment false None None.

(** The pool, the bytes of memory, and how often [Memset] was called. *)
Record World := mkWorld { vp : VariableBufferPool; mem : Z → Z; memsets : Z }.

(** The address of the pool. *)
Context (this : Z).

Definition IsInitialized (p : VariableBufferPool) : bool :=
  match region_ p, allocator_ p with Some _, Some _ => true | _, _ => false end.

Definition set_vp (p : VariableBufferPool) (w : World) : World := mkWorld p (mem w) (memsets w).

(** New bytes in an address range. *)
Definition fill (address size : Z) (f m : Z → Z) : Z → Z :=
  λ i, if (address <=? i) && (i <? address + size) then f i else m i.

Definition ZeroMemory (address size : Z) : M World Status :=
  w ← get_state;
  match Memset_fails (memsets w) address size with
  | None => modify (λ w, mkWorld (vp w) (fill address size (λ _, 0) (mem w)) (memsets w + 1)) ;; mret S_OK
  | Some f => modify (λ w, mkWorld (vp w) (fill address size f (mem w)) (memsets w + 1)) ;; mret S_Error
  end.

Definition VReset : M World unit := modify (set_vp pool_default).

(** A call of the allocator, through a pointer that is set. *)
Definition on_allocator {A} (m : M Allocator A) : M World A :=
  w ← get_state;
  match allocator_ (vp w) with
  | None => raise RuntimeError
  | Some s =>
      let '(s', o) := m s in
      let p := vp w in
      modify (set_vp (mkPool (name_ p) (memoryType_ p) (totalCapacity_ p) (allocationAlignment_ p) (enableZero_ p)
                        (region_ p) (Some s'))) ;;
      lift_outcome o
  end.

Definition VInit (name : string) (memoryType : BufferMemoryType) (totalCapacity metadataNodeCapacity : Z)
    (enableZero : bool) (allocationAlignment : Z) : M World Status :=
  w ← get_state;
  if IsInitialized (vp w) then mret S_InvalidParam
  else
    match ComputeAllocationLayout totalCapacity allocationAlignment with
    | None => mret S_InvalidParam
    | Some (alignedCapacity, totalUnits) =>
        if (metadataNodeCapacity <? 3) || (unused <? metadataNodeCapacity) then mret S_InvalidParam
        else
          match BufferRegion_Create memoryType alignedCapacity with
          | (S_OK, Some region) =>
              if negb (new_ok metadataNodeCapacity) then mret S_OutOfMemory
              else
                allocator ← lift_outcome (Allocator_new totalUnits metadataNodeCapacity);
                modify (set_vp (mkPool name memoryType alignedCapacity allocationAlignment enableZero (Some region)
                                  (Some allocator))) ;;
                if enableZero then
                  status ← ZeroMemory (localAddr region) alignedCapacity;
                  if Failure status then VReset ;; mret status else mret S_OK
                else mret S_OK
          | (status, _) => mret status
          end
    end.

(** The status, and the handle if there is one. *)
Definition VAllocate (requestedSize : Z) : M World (Status * option BufferHandle) :=
  w ← get_state;
  match region_ (vp w), allocator_ (vp w) with
  | Some region, Some _ =>
      match ComputeAllocationLayout requestedSize (allocationAlignment_ (vp w)) with
      | None => mret (S_InvalidParam, None)
      | Some (allocatedSize, requiredUnits) =>
          allocation ← on_allocator (Allocate requiredUnits);
          if offset allocation =? NO_SPACE then mret (S_NoSpace, None)
          else
            let byteOffset := u64 (offset allocation * allocationAlignment_ (vp w)) in
            mret (S_OK, Some (mkHandle (Some this) allocation requestedSize allocatedSize byteOffset
                                (localAddr region + byteOffset) (deviceAddr region + byteOffset)))
      end
  | _, _ => mret (S_Error, None)
  end.

Definition VFree (handle : BufferHandle) : M World Status :=
  w ← get_state;
  if negb (IsInitialized (vp w)) then mret S_Error
  else if negb (bool_decide (owner_ handle = Some this)) then mret S_InvalidParam
  else if negb (enableZero_ (vp w)) then
    ok ← on_allocator (Free (allocation_ handle));
    mret (if ok : bool then S_OK else S_InvalidParam)
  else
    status ← ZeroMemory (localAddr_ handle) (allocatedSize_ handle);
    if Failure status then mret status
    else
      ok ← on_allocator (Free (allocation_ handle));
      mret (if ok : bool then S_OK else S_InvalidParam).

End pool.
