(* ===== verification/VariablePoolRuns.v ===== *)
(** * Runs of the variable-size buffer pool

    What clients of [VariableBufferPool] rely on, over every sequence of allocations,
    releases and writes: the byte ranges of live handles are aligned, inside the region
    and disjoint; memory that is handed out is zero when the pool clears it; a release
    leaves the bytes of the other handles alone. *)

From Stdlib Require Import ZArith Lia.
From stdpp Require Import base list gmap numbers strings list_numbers.
From S2P Require Import Prelude.
From S2P Require Import OffsetAllocator.
From S2P Require Import AllocatorRegions.
From S2P Require Import AllocatorRuns.
From S2P Require Import VariableBufferPool.
Local Open Scope Z_scope.

(** ** Layouts *)

Lemma layout_spec n align size units :
  0 ≤ n < 2 ^ 64 → 0 ≤ align < 2 ^ 64 → ComputeAllocationLayout n align = Some (size, units) →
  0 < n ∧ 0 < align ∧ size = units * align ∧ n ≤ size < n + align ∧ 0 < units < 2 ^ 32 ∧ size < 2 ^ 64.
Proof.
  intros Hn Ha. unfold ComputeAllocationLayout, kMaxSize, u64. destruct (Z.eqb_spec n 0), (Z.eqb_spec align 0); try done.
  destruct (Z.ltb_spec (2 ^ 64 - 1 - (align - 1)) n) as [|Hle]; [done|]. cbn [orb].
  rewrite (Z.mod_small (n + align - 1)) by lia. set (q := (n + align - 1) / align).
  pose proof (Z.div_mod (n + align - 1) align ltac:(lia)) as Hdm. fold q in Hdm.
  pose proof (Z.mod_pos_bound (n + align - 1) align ltac:(lia)) as Hm.
  assert (n ≤ q * align < n + align) as Hq by lia. rewrite (Z.mod_small (q * align)) by lia. rewrite Z.div_mul by lia.
  destruct (Z.ltb_spec (2 ^ 32 - 1) q); [done|]. intros [= <- <-]. assert (0 < q) by nia. split_and!; lia.
Qed.

Section runs.
Context `{Runtime} (this : Z).
Context (name : string) (type : BufferMemoryType) (capacity nodes : Z) (zero : bool) (align : Z).

(** ** Runs *)

Definition after_allocate (r : Status * option BufferHandle) (live : list BufferHandle) : list BufferHandle :=
  match r.2 with Some h => h :: live | None => live end.

(** The states of a pool after [Init], with the live handles: clients release live handles
    only, and write inside them. A pool that was reset is a default pool again, so that
    [Init] starts anew on whatever memory holds. *)
Inductive pool_reach : World → list BufferHandle → Prop :=
  | pool_init m k w : VInit name type capacity nodes zero align (mkWorld pool_default m k) = (w, Ok S_OK) → pool_reach w []
  | pool_allocate w live n w' r :
      pool_reach w live → 0 ≤ n < 2 ^ 64 → VAllocate this n w = (w', Ok r) → pool_reach w' (after_allocate r live)
  | pool_free w l1 h l2 w' st :
      pool_reach w (l1 ++ h :: l2) → VFree this h w = (w', Ok st) →
      pool_reach w' (if Failure st then l1 ++ h :: l2 else l1 ++ l2)
  | pool_write w live h i b :
      pool_reach w live → h ∈ live → 0 ≤ i < requestedSize_ h →
      pool_reach (mkWorld (vp w) (fill (localAddr_ h + i) 1 (λ _, b) (mem w)) (memsets w)) live.

(** ** The invariant *)

(** A handle of a region. *)
Definition handle_ok (region : BufferRegion) (h : BufferHandle) : Prop :=
  owner_ h = Some this ∧ requestedSize_ h ≤ allocatedSize_ h < requestedSize_ h + align ∧
  allocatedSize_ h = allocatedSize_ h / align * align ∧ offset_ h = offset (allocation_ h) * align ∧
  localAddr_ h = localAddr region + offset_ h ∧ deviceAddr_ h = deviceAddr region + offset_ h.

Definition alloc_entry (h : BufferHandle) : Allocation * Z := (allocation_ h, allocatedSize_ h / align).

(** No live handle has the byte [i] of the region. *)
Definition untouched (live : list BufferHandle) (i : Z) : Prop :=
  ∀ h, h ∈ live → i < offset_ h ∨ offset_ h + allocatedSize_ h ≤ i.

Record pool_inv (region : BufferRegion) (units : Z) (s : Allocator) (w : World) (live : list BufferHandle) : Prop := {
  pi_pool : vp w = mkPool name type (units * align) align zero (Some region) (Some s);
  pi_units : 0 < units < 2 ^ 32 ∧ 0 < align ∧ units * align < 2 ^ 64;
  pi_nodes : 3 ≤ nodes < 2 ^ 32;
  pi_reach : alloc_reach units nodes s (alloc_entry <$> live);
  pi_handles : Forall (handle_ok region) live;
  pi_zero : zero = true → ∀ i, 0 ≤ i < units * align → untouched live i → mem w (localAddr region + i) = 0;
}.

Lemma on_allocator_ok {A} (m : M Allocator A) w s s' a :
  allocator_ (vp w) = Some s → m s = (s', Ok a) →
  on_allocator m w = (set_vp (mkPool (name_ (vp w)) (memoryType_ (vp w)) (totalCapacity_ (vp w)) (allocationAlignment_ (vp w))
                                (enableZero_ (vp w)) (region_ (vp w)) (Some s')) w, Ok a).
Proof. intros Hs E. unfold on_allocator, mbind, M_bind, get_state, modify, lift_outcome. by rewrite Hs, E. Qed.

Lemma fill_in addr n f m i : addr ≤ i < addr + n → fill addr n f m i = f i.
Proof. intros Hi. unfold fill. by rewrite (proj2 (Z.leb_le _ _)), (proj2 (Z.ltb_lt _ _)) by lia. Qed.

Lemma fill_out addr n f m i : i < addr ∨ addr + n ≤ i → fill addr n f m i = m i.
Proof.
  intros Hi. unfold fill. destruct (Z.leb_spec addr i), (Z.ltb_spec i (addr + n)); done || lia.
Qed.

(** Live handles are apart, in bytes. *)
Lemma inv_apart region units s w live :
  pool_inv region units s w live →
  (∀ h, h ∈ live → 0 ≤ offset_ h ∧ 0 < allocatedSize_ h ∧ offset_ h + allocatedSize_ h ≤ units * align) ∧
  ∀ (i j : nat) h h', live !! i = Some h → live !! j = Some h' → i ≠ j →
    offset_ h + allocatedSize_ h ≤ offset_ h' ∨ offset_ h' + allocatedSize_ h' ≤ offset_ h.
Proof.
  intros [_ (Hu & Ha & _) Hn Hr Hh _]. destruct (reach_shows _ _ _ _ Hr ltac:(lia) ltac:(lia)) as (_ & _ & bs & L & Hsh).
  rewrite Forall_forall in Hh. split.
  - intros h Hin. destruct (Hh h Hin) as (_ & _ & Esz & -> & _).
    destruct (live_bounds _ _ _ _ _ _ (allocation_ h) (allocatedSize_ h / align) Hsh) as (? & ? & ?); [by apply (list_elem_of_fmap_2 alloc_entry)|]. nia.
  - intros i j h h' Hi Hj Hij. destruct (Hh h ltac:(by eapply list_elem_of_lookup_2)) as (_ & _ & Esz & -> & _).
    destruct (Hh h' ltac:(by eapply list_elem_of_lookup_2)) as (_ & _ & Esz' & -> & _).
    destruct (live_disjoint _ _ _ _ _ _ i j (allocation_ h) (allocatedSize_ h / align) (allocation_ h') (allocatedSize_ h' / align) Hsh);
      [by rewrite list_lookup_fmap, Hi|by rewrite list_lookup_fmap, Hj|done|left; nia|right; nia].
Qed.

(** [Init] makes a region of whole units, cleared if asked for. *)
Lemma create_region t n st : BufferRegion_Create t n = (st, None) → st ≠ S_OK.
Proof.
  unfold BufferRegion_Create. destruct (negb MakeBuffer); [by intros [= <-]|].
  destruct t; repeat case_match; intros [= <-]; done.
Qed.

Lemma pool_init_inv m k w :
  0 ≤ capacity < 2 ^ 64 → 0 ≤ align < 2 ^ 64 → 0 ≤ nodes < 2 ^ 32 →
  VInit name type capacity nodes zero align (mkWorld pool_default m k) = (w, Ok S_OK) →
  ∃ region units s, pool_inv region units s w [].
Proof.
  intros Hc Ha Hn. unfold VInit, mbind at 1, M_bind at 1, get_state. cbn [vp pool_default IsInitialized region_].
  destruct (ComputeAllocationLayout capacity align) as [[size units]|] eqn:El; [|done].
  destruct (layout_spec _ _ _ _ Hc Ha El) as (_ & Ha0 & Esz & Hsz & Hu & Hs64).
  destruct (Z.ltb_spec nodes 3) as [|Hn3]; [done|]. destruct (unused <? nodes); [done|]. cbn [orb].
  destruct (BufferRegion_Create type size) as [st [region|]] eqn:Er; [|destruct st; try done; by apply create_region in Er].
  destruct st; try done. destruct (new_ok nodes); [|done]. cbn [negb].
  destruct (Allocator_new units nodes) as [s|e] eqn:Es; [|done]. erewrite bind_ok; [|reflexivity]. erewrite bind_ok; [|reflexivity].
  rewrite Esz. set (p := mkPool name type (units * align) align zero (Some region) (Some s)).
  assert (∀ m' k', (zero = true → ∀ i, 0 ≤ i < units * align → m' (localAddr region + i) = 0) →
    pool_inv region units s (mkWorld p m' k') []) as Hinv.
  { intros m' k' Hz. split; [done|lia|lia|by apply reach_new|constructor|]. intros Hzero i Hi _. by apply Hz. }
  unfold ZeroMemory. destruct zero.
  - unfold mbind at 1, M_bind at 1. unfold mbind at 1, M_bind at 1, get_state. cbn [memsets set_vp].
    destruct (Memset_fails k (localAddr region) (units * align)); [done|]. intros [= <-]. exists region, units, s. apply Hinv.
    intros _ i Hi. apply fill_in. lia.
  - intros [= <-]. exists region, units, s. by apply Hinv.
Qed.

(** An allocation: a handle of bytes that no other handle has, or no change. *)
Lemma allocate_inv region units s w live n :
  pool_inv region units s w live → 0 ≤ n < 2 ^ 64 → align < 2 ^ 64 →
  ∃ w' r, VAllocate this n w = (w', Ok r) ∧ mem w' = mem w ∧
    ((∃ h s', r = (S_OK, Some h) ∧ pool_inv region units s' w' (h :: live) ∧ requestedSize_ h = n) ∨
     (∃ st, r = (st, None) ∧ st ≠ S_OK ∧ w' = w)).
Proof.
  intros [Hp (Hu & Ha & Hcap) Hn Hr Hh Hz] Hn64 Ha64. unfold VAllocate, mbind at 1, M_bind at 1, get_state. rewrite Hp.
  cbn [region_ allocator_ allocationAlignment_]. destruct (ComputeAllocationLayout n align) as [[size k]|] eqn:El.
  2:{ exists w, (S_InvalidParam, None). split_and!; [done|done|]. right. by eexists. }
  destruct (layout_spec n align size k Hn64 ltac:(lia) El) as (_ & _ & Esz & Hsz & Hk & _).
  destruct (reach_shows _ _ _ _ Hr ltac:(lia) ltac:(lia)) as (_ & _ & bs & L & Hsh).
  destruct (allocate_total _ _ _ _ _ _ k Hsh ltac:(lia)) as (s' & a & E). pose proof (reach_allocated _ _ _ _ k s' a Hr ltac:(lia) E) as Hr'.
  destruct (shows_allocate _ _ _ _ _ _ k s' a Hsh ltac:(lia) E) as (bs' & L' & Hsh' & Hcase).
  erewrite bind_ok; [|eapply on_allocator_ok; [by rewrite Hp|exact E]].
  destruct Hcase as [[-> ->]|[Hau _]].
  { eexists _, (S_NoSpace, None). split; [done|]. split; [done|]. right. exists S_NoSpace. split_and!; [done|done|].
    rewrite Hp. cbn. unfold set_vp. rewrite <- Hp. by destruct w. }
  unfold allocated in Hsh', Hr'. rewrite (proj2 (Z.eqb_neq _ _) Hau) in Hsh', Hr'.
  destruct (live_bounds _ _ _ _ _ _ a k Hsh' ltac:(by left)) as (Ho & _ & Hend).
  rewrite (proj2 (Z.eqb_neq (offset a) NO_SPACE)) by (unfold NO_SPACE; lia).
  assert (u64 (offset a * align) = offset a * align) as -> by (apply Z.mod_small; nia).
  eexists _, _. split; [reflexivity|]. split; [done|]. left. eexists _, s'. split; [reflexivity|]. split; [|done].
  assert (size / align = k) as Ek by (rewrite Esz; apply Z.div_mul; lia). split; [by rewrite Hp|lia|lia| | |].
  - rewrite fmap_cons. unfold alloc_entry at 1. cbn [allocation_ allocatedSize_]. by rewrite Ek.
  - constructor; [|done]. split_and!; cbn; try lia; try done.
  - intros Hzero i Hi Hun. cbn. apply Hz; [done|lia|]. intros h Hin. apply Hun. by right.
Qed.

(** A release of a live handle: its bytes are cleared, if asked for, and the handle is gone;
    if clearing fails it stays. Other bytes stay. *)
Lemma free_inv region units s w l1 h l2 :
  pool_inv region units s w (l1 ++ h :: l2) →
  ∃ w' st s', VFree this h w = (w', Ok st) ∧ st = (if zero then
      match Memset_fails (memsets w) (localAddr_ h) (allocatedSize_ h) with Some _ => S_Error | None => S_OK end else S_OK) ∧
    pool_inv region units s' w' (if Failure st then l1 ++ h :: l2 else l1 ++ l2) ∧ (st = S_Error → vp w' = vp w) ∧
    ∀ i, i < localAddr_ h ∨ localAddr_ h + allocatedSize_ h ≤ i → mem w' i = mem w i.
Proof.
  intros Hinv. pose proof Hinv as [Hp (Hu & Ha & Hcap) Hn Hr Hh Hz]. pose proof (proj1 (Forall_forall _ _) Hh h) as Hok.
  destruct Hok as (Ho & Hreq & Esz & Eoff & Eloc & _); [apply elem_of_app; right; by left|].
  unfold VFree, mbind at 1, M_bind at 1, get_state. rewrite Hp. cbn [IsInitialized region_ allocator_ enableZero_ negb].
  rewrite bool_decide_true by done. cbn [negb].
  destruct (reach_shows _ _ _ _ Hr ltac:(lia) ltac:(lia)) as (_ & _ & bs & L & Hsh). rewrite fmap_app, fmap_cons in Hsh, Hr.
  assert (0 ≤ nodeIndex (allocation_ h)) as Hi.
  { eapply live_node; [exact Hsh|]. apply elem_of_app. right. by left. }
  destruct (shows_free _ _ _ _ _ _ (allocation_ h) Hsh Hi) as (s' & ok & bs' & L' & E & Hokiff & _ & _).
  assert (ok = true) as -> by (apply Hokiff; eexists; apply elem_of_app; right; by left).
  pose proof (reach_freed _ _ _ _ _ _ _ Hr Hi E) as Hr'. unfold alloc_entry at 2 in Hr'. unfold alloc_entry at 2 in Hsh.
  rewrite (released_middle _ _ _ _ _ _ _ _ _ Hsh), <- fmap_app in Hr'.
  assert (Forall (handle_ok region) (l1 ++ l2)) as Hh' by (rewrite Forall_app, Forall_cons in Hh; apply Forall_app; tauto).
  assert (∀ m' k', (zero = true → ∀ i, 0 ≤ i < units * align → untouched (l1 ++ l2) i → m' (localAddr region + i) = 0) →
    pool_inv region units s' (mkWorld (mkPool name type (units * align) align zero (Some region) (Some s')) m' k') (l1 ++ l2)) as Hinv'
    by (intros m' k' Hm'; by split).
  unfold ZeroMemory. destruct zero eqn:Ez; cbn [negb].
  - unfold mbind at 1, M_bind at 1. unfold mbind at 1, M_bind at 1, get_state.
    destruct (Memset_fails (memsets w) (localAddr_ h) (allocatedSize_ h)) as [f|].
    + eexists _, S_Error, s. split; [reflexivity|]. split; [done|]. split; [|split; [done|intros i Hi'; by apply fill_out]].
      change (Failure S_Error) with true. cbv iota. split; [by rewrite Ez|lia|lia|by rewrite fmap_app, fmap_cons|done|].
      intros _ i Hi' Hun. cbn. rewrite fill_out; [by apply Hz|].
      specialize (Hun h ltac:(apply elem_of_app; right; by left)). lia.
    + erewrite bind_ok; [|reflexivity]. cbn [mret M_ret]. change (Failure S_OK) with false. cbv iota.
      erewrite bind_ok; [|eapply on_allocator_ok; [by cbn; rewrite Hp|exact E]]. eexists _, S_OK, s'. split; [reflexivity|]. split; [done|].
      change (Failure S_OK) with false. unfold set_vp. cbn [vp mem]. rewrite Hp. split; [|split; [done|intros i Hi'; by apply fill_out]]. apply Hinv'. intros _ i Hi' Hun.
      destruct (decide (offset_ h ≤ i < offset_ h + allocatedSize_ h)) as [Hin|Hout]; [apply fill_in; lia|].
      rewrite fill_out by lia. apply Hz; [done|lia|]. intros h' [?|[->|?]%elem_of_cons]%elem_of_app; [|lia|]; apply Hun, elem_of_app; auto.
  - erewrite bind_ok; [|eapply on_allocator_ok; [by rewrite Hp|exact E]]. eexists _, S_OK, s'. split; [reflexivity|]. split; [done|].
    change (Failure S_OK) with false. unfold set_vp. cbn [vp mem]. rewrite Hp. split; [by apply Hinv'|done].
Qed.

(** Writes inside a handle. *)
Lemma write_inv region units s w live h i b :
  pool_inv region units s w live → h ∈ live → 0 ≤ i < requestedSize_ h →
  pool_inv region units s (mkWorld (vp w) (fill (localAddr_ h + i) 1 (λ _, b) (mem w)) (memsets w)) live.
Proof.
  intros [Hp Hu Hn Hr Hh Hz] Hin Hi. destruct (proj1 (Forall_forall _ _) Hh h Hin) as (_ & Hreq & _ & _ & Eloc & _).
  split; try done. intros Hzero j Hj Hun. cbn. rewrite fill_out; [by apply Hz|]. specialize (Hun h Hin). lia.
Qed.

Context (Hcapacity : 0 ≤ capacity < 2 ^ 64) (Halign : 0 ≤ align < 2 ^ 64) (Hnodes : 0 ≤ nodes < 2 ^ 32).

Lemma pool_reach_inv w live : pool_reach w live → ∃ region units s, pool_inv region units s w live.
Proof.
  induction 1 as [m k w E|w live n w' r _ IH Hn E|w l1 h l2 w' st _ IH E|w live h i b _ IH Hin Hi].
  - by eapply pool_init_inv.
  - destruct IH as (region & units & s & IH). destruct (allocate_inv _ _ _ _ _ n IH Hn ltac:(lia)) as (w1 & r1 & E1 & _ & Hr).
    rewrite E1 in E. injection E as -> ->. destruct Hr as [(h & s' & -> & Hinv & _)|(st & -> & _ & ->)]; eauto.
  - destruct IH as (region & units & s & IH). destruct (free_inv _ _ _ _ _ _ _ IH) as (w1 & st1 & s' & E1 & _ & Hinv & _).
    rewrite E1 in E. injection E as -> ->. eauto.
  - destruct IH as (region & units & s & IH). exists region, units, s. by apply write_inv.
Qed.

(** ** What clients rely on *)

(** C19 In every state of a pool, each live handle has the bytes that were asked for and less
    than one alignment more, at a multiple of the alignment inside the pool; its addresses
    are those of the region at its offset; and the byte ranges of two live handles do not
    overlap. *)
Theorem pool_handles_apart w live :
  pool_reach w live →
  ∃ region, region_ (vp w) = Some region ∧
  ∀ (i : nat) h, live !! i = Some h →
    requestedSize_ h ≤ allocatedSize_ h < requestedSize_ h + align ∧ (align | offset_ h) ∧ 0 ≤ offset_ h ∧
    offset_ h + allocatedSize_ h ≤ totalCapacity_ (vp w) ∧
    localAddr_ h = localAddr region + offset_ h ∧ deviceAddr_ h = deviceAddr region + offset_ h ∧
    ∀ (j : nat) h', live !! j = Some h' → i ≠ j →
      offset_ h + allocatedSize_ h ≤ offset_ h' ∨ offset_ h' + allocatedSize_ h' ≤ offset_ h.
Proof.
  intros (region & units & s & Hinv)%pool_reach_inv. pose proof (inv_apart _ _ _ _ _ Hinv) as [Hin Hap].
  exists region. rewrite (pi_pool _ _ _ _ _ Hinv). split; [done|]. intros i h Hi. pose proof (list_elem_of_lookup_2 _ _ _ Hi) as Hl.
  destruct (Hin h Hl) as (? & ? & ?). destruct (proj1 (Forall_forall _ _) (pi_handles _ _ _ _ _ Hinv) h Hl) as (_ & ? & _ & Eo & ? & ?).
  split_and!; try lia; [by exists (offset (allocation_ h))|cbn; lia|]. intros j h' Hj Hij. by apply (Hap i j).
Qed.

(** C16 With clearing enabled, an allocation hands out zero bytes, whatever other clients
    wrote before; and no allocation changes memory. *)
Theorem pool_fresh_zeroed w live n w' r :
  pool_reach w live → 0 ≤ n < 2 ^ 64 → VAllocate this n w = (w', Ok r) →
  mem w' = mem w ∧ ((r.1 = S_OK) ↔ is_Some r.2) ∧
  ∀ h, r.2 = Some h → requestedSize_ h = n ∧
    (zero = true → ∀ i, 0 ≤ i < allocatedSize_ h → mem w' (localAddr_ h + i) = 0).
Proof.
  intros (region & units & s & Hinv)%pool_reach_inv Hn E.
  destruct (allocate_inv _ _ _ _ _ n Hinv Hn ltac:(lia)) as (w1 & r1 & E1 & Hm & Hr). rewrite E1 in E. injection E as -> ->.
  split; [done|]. destruct Hr as [(h & s' & -> & Hinv' & Hreq)|(st & -> & Hst & ->)].
  2:{ split; [|done]. split; [done|]. by intros [? ?]. }
  split; [split; [by eexists|done]|]. intros h' [= <-]. split; [done|]. intros Hzero i Hi.
  pose proof (inv_apart _ _ _ _ _ Hinv') as [Hin Hap]. destruct (Hin h ltac:(by left)) as (? & _ & ?).
  destruct (proj1 (Forall_forall _ _) (pi_handles _ _ _ _ _ Hinv') h ltac:(by left)) as (_ & _ & _ & _ & -> & _).
  rewrite Hm, <- Z.add_assoc. apply (pi_zero _ _ _ _ _ Hinv Hzero); [lia|]. intros h' (j & Hj)%list_elem_of_lookup.
  destruct (Hap 0%nat (S j) h h' eq_refl Hj ltac:(lia)); lia.
Qed.

(** C21 A release of a live handle returns and changes no byte of another live handle; it
    fails only if clearing fails, and then the handle stays live and can be released
    again. *)
Theorem pool_free_isolated w l1 h l2 :
  pool_reach w (l1 ++ h :: l2) →
  ∃ w' st, VFree this h w = (w', Ok st) ∧
    (st = S_OK ∨ (st = S_Error ∧ is_Some (Memset_fails (memsets w) (localAddr_ h) (allocatedSize_ h)) ∧ vp w' = vp w)) ∧
    ∀ h' i, h' ∈ l1 ++ l2 → 0 ≤ i < allocatedSize_ h' → mem w' (localAddr_ h' + i) = mem w (localAddr_ h' + i).
Proof.
  intros (region & units & s & Hinv)%pool_reach_inv. pose proof (inv_apart _ _ _ _ _ Hinv) as [_ Hap].
  destruct (free_inv _ _ _ _ _ _ _ Hinv) as (w' & st & s' & E & Est & Hinv' & Hsame & Hmem). exists w', st. split; [done|]. split.
  - rewrite Est. destruct zero; [|by left]. destruct (Memset_fails _ _ _) as [f|] eqn:Ef; [right|by left].
    split_and!; [done|by eexists|]. by apply Hsame.
  - intros h' i Hh' Hi. pose proof (proj1 (Forall_forall _ _) (pi_handles _ _ _ _ _ Hinv)) as Hok.
    destruct (Hok h ltac:(apply elem_of_app; right; by left)) as (_ & _ & _ & _ & Eh & _).
    destruct (Hok h') as (_ & _ & _ & _ & Eh' & _); [rewrite elem_of_app, elem_of_cons; apply elem_of_app in Hh'; tauto|].
    apply Hmem. rewrite Eh, Eh'. apply elem_of_app in Hh' as [(j & Hj)%list_elem_of_lookup|(j & Hj)%list_elem_of_lookup].
    + pose proof (lookup_lt_Some _ _ _ Hj). destruct (Hap (length l1) j h h'); [by apply list_lookup_middle|by rewrite lookup_app_l|lia|lia|lia].
    + destruct (Hap (length l1) (length l1 + S j)%nat h h'); [by apply list_lookup_middle| |lia|lia|lia].
      rewrite lookup_app_r by lia. by replace (length l1 + S j - length l1)%nat with (S j) by lia.
Qed.
End runs.

(** ** An example run *)

(** A runtime whose buffers start at address 4096 and that never fails to clear memory. *)
#[export] Instance RefRuntime : Runtime := {|
  MakeBuffer := true;
  MakeHostBuffer := λ _, Some 4096;
  SupportsHostMappedDeviceBuffer := true;
  MakeHostMappedDeviceBuffer := λ _, (Some 4096, Some 8192);
  MakeDeviceBuffer := λ _, Some 4096;
  SupportsDeviceMappedHostBuffer := false;
  MakeDeviceMappedHostBuffer := λ _, None;
  Memset_fails := λ _ _ _, None;
  new_ok := λ _, true;
|}.

(** The bytes of fresh memory are arbitrary. *)
Definition ex_fresh : World := mkWorld pool_default (λ i, i mod 256) 0.
Definition ex_pool : World := (VInit "pool" HostMappedDevice 1000 8 true 64 ex_fresh).1.
Definition ex_one : World := (VAllocate 1 100 ex_pool).1.
Definition ex_two : World := (VAllocate 1 64 ex_one).1.
Definition ex_handle1 : BufferHandle := mkHandle (Some 1) (mkAllocation 0 0) 100 128 0 4096 8192.
Definition ex_handle2 : BufferHandle := mkHandle (Some 1) (mkAllocation 2 1) 64 64 128 4224 8320.

Lemma init_step `{Runtime} this name type capacity nodes zero align w :
  vp w = pool_default → (VInit name type capacity nodes zero align w).2 = Ok S_OK →
  pool_reach this name type capacity nodes zero align (VInit name type capacity nodes zero align w).1 [].
Proof. destruct w as [p m k]. cbn [vp]. intros -> E. apply (pool_init _ _ _ _ _ _ _ m k). by apply pair_snd. Qed.

Lemma vallocate_step `{Runtime} this name type capacity nodes zero align w live n r :
  pool_reach this name type capacity nodes zero align w live → 0 ≤ n < 2 ^ 64 → (VAllocate this n w).2 = Ok r →
  pool_reach this name type capacity nodes zero align (VAllocate this n w).1 (after_allocate r live).
Proof. intros Hr Hn E. eapply pool_allocate; [exact Hr|exact Hn|]. by apply pair_snd. Qed.

Lemma ex_pool_reached : pool_reach 1 "pool" HostMappedDevice 1000 8 true 64 ex_two [ex_handle2; ex_handle1].
Proof.
  apply (vallocate_step 1 "pool" HostMappedDevice 1000 8 true 64 ex_one [ex_handle1] 64 (S_OK, Some ex_handle2)); [|lia|vm_compute; reflexivity].
  apply (vallocate_step 1 "pool" HostMappedDevice 1000 8 true 64 ex_pool [] 100 (S_OK, Some ex_handle1)); [|lia|vm_compute; reflexivity].
  apply (init_step 1 "pool" HostMappedDevice 1000 8 true 64 ex_fresh); [reflexivity|vm_compute; reflexivity].
Qed.

Lemma pool_handles_apart_witness : ∃ region, region_ (vp ex_two) = Some region.
Proof.
  destruct (pool_handles_apart 1 "pool" HostMappedDevice 1000 8 true 64 ltac:(lia) ltac:(lia) ltac:(lia) ex_two _ ex_pool_reached)
    as (region & E & _). exists region. exact E.
Defined.

Lemma pool_fresh_zeroed_witness : mem (VAllocate 1 10 ex_two).1 = mem ex_two.
Proof.
  assert ((VAllocate 1 10 ex_two).2 = Ok (S_OK, Some (mkHandle (Some 1) (mkAllocation 3 2) 10 64 192 4288 8384))) as E
    by (vm_compute; reflexivity).
  apply (pair_snd (VAllocate 1 10 ex_two)) in E.
  exact (proj1 (pool_fresh_zeroed 1 "pool" HostMappedDevice 1000 8 true 64 ltac:(lia) ltac:(lia) ltac:(lia) ex_two _ 10 _ _
    ex_pool_reached ltac:(lia) E)).
Defined.

Lemma pool_free_isolated_witness : ∃ w' st, VFree 1 ex_handle2 ex_two = (w', Ok st).
Proof.
  destruct (pool_free_isolated 1 "pool" HostMappedDevice 1000 8 true 64 ltac:(lia) ltac:(lia) ltac:(lia) ex_two [] ex_handle2 [ex_handle1]
    ex_pool_reached) as (w' & st & E & _). exists w', st. exact E.
Defined.

(** ** Handles that are not live *)

(** Both blocks are released and their bytes are handed out as one block, whose client
    writes 7 into them. *)
Definition ex_reused : World :=
  let w := (VFree 1 ex_handle1 (VFree 1 ex_handle2 ex_two).1).1 in
  let w := (VAllocate 1 256 w).1 in
  mkWorld (vp w) (fill 4224 64 (λ _, 7) (mem w)) (memsets w).

(** Releasing the second handle once more is refused, but only after its bytes, which
    belong to a live handle by now, were cleared. *)
Lemma refused_free_clears :
  let r := VFree 1 ex_handle2 ex_reused in
  (VAllocate 1 256 (VFree 1 ex_handle1 (VFree 1 ex_handle2 ex_two).1).1).2 =
    Ok (S_OK, Some (mkHandle (Some 1) (mkAllocation 0 0) 256 256 0 4096 8192)) ∧
  r.2 = Ok S_InvalidParam ∧ mem ex_reused 4224 = 7 ∧ mem r.1 4224 = 0.
Proof. vm_compute. split_and!; reflexivity. Qed.
