(* ===== verification/VersionConfig.v ===== *)
(** * The version authority of the release tooling

    src/.github/release/ucm_release/version_config.py: the strict parser and the
    printer of [version.ini], and the mapping between release tags and versions.
    A Python [str] is the list of its code points. *)

From Stdlib Require Import ZArith Lia Ascii String.
From stdpp Require Import base list gmap numbers pretty.
From S2P Require Import Prelude.
Local Open Scope Z_scope.

Abbreviation str := (list Z).

(** ** Methods of [str] *)

Definition lit (s : string) : str := (λ a, Z.of_nat (nat_of_ascii a)) <$> list_ascii_of_string s.

Definition between (a b c : Z) : bool := (a <=? c) && (c <=? b).

(** [str.isspace] of one character. *)
Definition is_space (c : Z) : bool :=
  between 9 13 c || between 28 32 c || (c =? 133) || (c =? 160) || (c =? 5760) || between 8192 8202 c
  || (c =? 8232) || (c =? 8233) || (c =? 8239) || (c =? 8287) || (c =? 12288).

(** The characters at which [str.splitlines] breaks. *)
Definition is_linebreak (c : Z) : bool :=
  between 10 13 c || between 28 30 c || (c =? 133) || (c =? 8232) || (c =? 8233).

Definition is_digit (c : Z) : bool := between 48 57 c.
Definition is_lower (c : Z) : bool := between 97 122 c.
Definition is_upper (c : Z) : bool := between 65 90 c.

Fixpoint lstrip (s : str) : str :=
  match s with
  | [] => []
  | c :: r => if is_space c then lstrip r else s
  end.
Definition strip (s : str) : str := reverse (lstrip (reverse (lstrip s))).

(** [line] is what was read of the current line. *)
Fixpoint splitlines_from (line s : str) : list str :=
  match s with
  | [] => if bool_decide (line = []) then [] else [line]
  | c :: r =>
      if is_linebreak c then
        match r with
        | d :: r' => if (c =? 13) && (d =? 10) then line :: splitlines_from [] r' else line :: splitlines_from [] r
        | [] => [line]
        end
      else splitlines_from (line ++ [c]) r
  end.
Definition splitlines (s : str) : list str := splitlines_from [] s.

(** [s.partition(sep)] for one character; [None] when [sep] does not occur. *)
Fixpoint partition (sep : Z) (s : str) : option (str * str) :=
  match s with
  | [] => None
  | c :: r =>
      if c =? sep then Some ([], r)
      else '(k, v) ← partition sep r; Some (c :: k, v)
  end.

(** [s.split(sep)] for one character. *)
Fixpoint split (sep : Z) (s : str) : list str :=
  match s with
  | [] => [[]]
  | c :: r =>
      if c =? sep then [] :: split sep r
      else match split sep r with
           | [] => [[c]]
           | p :: ps => (c :: p) :: ps
           end
  end.

Fixpoint join (sep : Z) (l : list str) : str :=
  match l with
  | [] => []
  | [p] => p
  | p :: r => p ++ sep :: join sep r
  end.

Fixpoint startswith (prefix s : str) : bool :=
  match prefix, s with
  | [], _ => true
  | p :: prefix', c :: s' => (p =? c) && startswith prefix' s'
  | _, _ => false
  end.
Definition removeprefix (prefix s : str) : str :=
  if startswith prefix s then drop (length prefix) s else s.
Definition replace (a b : Z) (s : str) : str := (λ c, if c =? a then b else c) <$> s.

(** The longest prefix of digits, and the rest. *)
Fixpoint span_digits (s : str) : str * str :=
  match s with
  | c :: r => if is_digit c then let '(d, t) := span_digits r in (c :: d, t) else ([], s)
  | [] => ([], [])
  end.
Definition digits_value (s : str) : Z := foldl (λ n c, 10 * n + (c - 48)) 0 s.

(** ** The versions of [packaging] *)

Class PackagingVersion := {
  Version : Type;
  parse_version : str → option Version;   (* [None]: [InvalidVersion] *)
  v_str : Version → str;
  v_epoch : Version → Z;
  v_release : Version → list Z;
  v_pre : Version → option (str * Z);
  v_post : Version → option Z;
  v_dev : Version → option Z;
  v_local : Version → option str;
  base_version : Version → str;
  is_prerelease : Version → bool;
}.

(** The characters of a normalized version (PEP 440): letters, digits, dots, [!] and [+]. *)
Definition version_char (c : Z) : bool :=
  is_digit c || is_lower c || (c =? 46) || (c =? 33) || (c =? 43).

Class PackagingSpec `{PackagingVersion} := {
  normalized_chars s p : parse_version s = Some p → Forall (λ c, version_char c = true) (v_str p);
  base_chars s p : parse_version s = Some p → Forall (λ c, version_char c = true) (base_version p);
}.

(** ** Keys *)

Inductive product := vllm | vllm_ascend | sglang.

#[export] Instance product_eq_dec : EqDecision product.
Proof. solve_decision. Defined.

Definition UCM_VERSION_KEY : str := lit "UCM_VERSION".
Definition SUPPORTED_VERSION_KEYS (p : product) : str :=
  match p with
  | vllm => lit "UCM_SUPPORTED_VLLM_VERSIONS"
  | vllm_ascend => lit "UCM_SUPPORTED_VLLM_ASCEND_VERSIONS"
  | sglang => lit "UCM_SUPPORTED_SGLANG_VERSIONS"
  end.
Definition products : list product := [vllm; vllm_ascend; sglang].
Definition VERSION_KEYS : list str := UCM_VERSION_KEY :: (SUPPORTED_VERSION_KEYS <$> products).

(** [OCI_TAG_PATTERN.fullmatch(tag)] *)
Definition oci_first (c : Z) : bool := is_upper c || is_lower c || is_digit c || (c =? 95).
Definition oci_char (c : Z) : bool := oci_first c || (c =? 46) || (c =? 45).
Definition oci_tag (tag : str) : bool :=
  match tag with
  | [] => false
  | c :: r => oci_first c && forallb oci_char r && (zlen r <=? 127)
  end.

(** [re.fullmatch(r"[a-z0-9]+(?:-[a-z0-9]+)*", value)] *)
Definition label_char (c : Z) : bool := is_lower c || is_digit c.
Definition hyphenated (value : str) : bool :=
  forallb (λ part, negb (bool_decide (part = [])) && forallb label_char part) (split 45 value).

Definition leading_zero (part : str) : bool :=
  negb (bool_decide (part = [])) && forallb is_digit part && (1 <? zlen part) && startswith (lit "0") part.

Definition _draft_label (value : str) : outcome str :=
  if negb (hyphenated value) || negb (existsb is_lower value) || existsb leading_zero (split 45 value)
  then Raise ValueError else Ok value.

Record selector := mkSelector { raw : str; version : option str; tag : option str }.

Record version_config := mkConfig {
  ucm_version : str;
  ucm_base_version : str;
  supported_runtimes : list (product * list selector);
  authority_sha256 : str;
}.

Section authority.
Context `{PackagingVersion}.
(** The hex digest of the SHA-256 of a text in UTF-8. *)
Variable sha256_hex : str → str.

(** ** Versions *)

Definition release_version (value : str) : outcome str :=
  if bool_decide (value = []) then Raise ValueError
  else
    match parse_version value with
    | None => Raise ValueError
    | Some parsed =>
        if negb (bool_decide (v_str parsed = value)) then Raise ValueError
        else if negb (v_epoch parsed =? 0) then Raise ValueError
        else if negb (Nat.eqb (length (v_release parsed)) 3) then Raise ValueError
        else
          match v_local parsed with
          | None => Ok value
          | Some local =>
              if negb (bool_decide (v_dev parsed = Some 0)) || bool_decide (is_Some (v_pre parsed))
                 || bool_decide (is_Some (v_post parsed)) || negb (startswith (lit "draft.") local)
              then Raise ValueError
              else
                _ ← _draft_label (replace 46 45 (removeprefix (lit "draft.") local));
                Ok value
          end
    end.

(** [Version(v)], for a version that was validated. *)
Definition Version_of (v : str) : outcome Version :=
  match parse_version v with Some p => Ok p | None => Raise ValueError end.

Definition custom_draft_tag (v : str) : outcome (option str) :=
  v ← release_version v;
  parsed ← Version_of v;
  match v_local parsed with
  | None => Ok None
  | Some local =>
      let suffix := replace 46 45 (removeprefix (lit "draft.") local) in
      Ok (Some (lit "draft/v" ++ base_version parsed ++ lit "-" ++ suffix))
  end.

Definition runtime_selector_version (value : str) : outcome str :=
  match parse_version value with
  | None => Raise ValueError
  | Some parsed =>
      if negb (bool_decide (v_str parsed = value)) || negb (v_epoch parsed =? 0)
         || bool_decide (is_Some (v_pre parsed)) || bool_decide (is_Some (v_post parsed))
         || bool_decide (is_Some (v_dev parsed)) || bool_decide (is_Some (v_local parsed))
         || negb (Nat.eqb (length (v_release parsed)) 2 || Nat.eqb (length (v_release parsed)) 3)
      then Raise ValueError else Ok value
  end.

Definition _selector_ranges_overlap (left right : Version) : bool :=
  let n := Nat.min (length (v_release left)) (length (v_release right)) in
  bool_decide (take n (v_release left) = take n (v_release right)).

(** ** Parsing *)

Definition assignment (raw_line : str) (values : list (str * str)) : outcome (list (str * str)) :=
  let line := strip raw_line in
  if bool_decide (line = []) || startswith (lit "#") line then Ok values
  else
    match partition 61 line with
    | None => Raise ValueError
    | Some (key, raw_value) =>
        if bool_decide (key = []) || negb (bool_decide (strip key = key))
           || negb (bool_decide (strip raw_value = raw_value)) then Raise ValueError
        else if negb (bool_decide (key ∈ VERSION_KEYS)) then Raise ValueError
        else if bool_decide (is_Some (od_get key values)) then Raise ValueError
        else if bool_decide (key = UCM_VERSION_KEY) && bool_decide (raw_value = []) then Raise ValueError
        else Ok (od_set key raw_value values)
    end.

Fixpoint assignments_from (lines : list str) (values : list (str * str)) : outcome (list (str * str)) :=
  match lines with
  | [] => if bool_decide (is_Some (od_get UCM_VERSION_KEY values)) then Ok values else Raise ValueError
  | line :: rest => values' ← assignment line values; assignments_from rest values'
  end.

Definition _assignments (text : str) : outcome (list (str * str)) := assignments_from (splitlines text) [].

Fixpoint selectors_from (tokens : list str) (result : list selector) (selected_ranges : list Version)
    (selected_tags : list str) : outcome (list selector) :=
  match tokens with
  | [] => Ok result
  | token :: rest =>
      if bool_decide (token = []) || negb (bool_decide (strip token = token)) then Raise ValueError
      else if startswith (lit "@") token then
        let t := drop 1 token in
        if negb (oci_tag t) then Raise ValueError
        else if bool_decide (t ∈ selected_tags) then Raise ValueError
        else selectors_from rest (result ++ [mkSelector token None (Some t)]) selected_ranges (t :: selected_tags)
      else if bool_decide (64 ∈ token) then Raise ValueError
      else
        v ← runtime_selector_version token;
        parsed ← Version_of v;
        if existsb (_selector_ranges_overlap parsed) selected_ranges then Raise ValueError
        else selectors_from rest (result ++ [mkSelector token (Some v) None])
               (selected_ranges ++ [parsed]) selected_tags
  end.

Definition _selectors (value : str) : outcome (list selector) :=
  if bool_decide (value = []) then Ok [] else selectors_from (split 44 value) [] [] [].

Fixpoint all_selectors (ps : list product) (assignments : list (str * str)) :
    outcome (list (product * list selector)) :=
  match ps with
  | [] => Ok []
  | p :: rest =>
      l ← _selectors (default [] (od_get (SUPPORTED_VERSION_KEYS p) assignments));
      ls ← all_selectors rest assignments;
      Ok ((p, l) :: ls)
  end.

(** ** The digest *)

(** [json.dumps] of a string with [ensure_ascii=False]. *)
Definition hex_digit (n : Z) : Z := if n <? 10 then 48 + n else 87 + n.
Definition json_char (c : Z) : str :=
  if c =? 34 then [92; 34] else if c =? 92 then [92; 92]
  else if c =? 10 then lit "\n" else if c =? 13 then lit "\r" else if c =? 9 then lit "\t"
  else if c =? 12 then lit "\f" else if c =? 8 then lit "\b"
  else if c <? 32 then lit "\u00" ++ [hex_digit (c / 16); hex_digit (c mod 16)]
  else [c].
Definition json_string (s : str) : str := [34] ++ (s ≫= json_char) ++ [34].
Definition json_optional (o : option str) : str :=
  match o with Some s => json_string s | None => lit "null" end.
Definition json_member (k : string) (v : str) : str := json_string (lit k) ++ [58] ++ v.
Definition json_object (members : list str) : str := [123] ++ join 44 members ++ [125].
Definition json_selector (s : selector) : str :=
  json_object [json_member "raw" (json_string (raw s)); json_member "tag" (json_optional (tag s));
               json_member "version" (json_optional (version s))].
Definition json_selectors (l : list selector) : str := [91] ++ join 44 (json_selector <$> l) ++ [93].

(** [json.dumps(authority, sort_keys=True, ...)] *)
Definition authority_json (base : str) (supported : list (product * list selector)) : str :=
  let sel p := json_selectors (default [] (od_get p supported)) in
  json_object
    [json_member "supported_runtimes"
       (json_object [json_member "sglang" (sel sglang); json_member "vllm" (sel vllm);
                     json_member "vllm-ascend" (sel vllm_ascend)]);
     json_member "ucm_base_version" (json_string base)].

(** [encode("utf-8")] refuses surrogates. *)
Definition authority_digest (base : str) (supported : list (product * list selector)) : outcome str :=
  let text := authority_json base supported in
  if existsb (between 55296 57343) text then Raise ValueError
  else Ok (lit "sha256:" ++ sha256_hex text).

Definition parse (text : str) : outcome version_config :=
  assignments ← _assignments text;
  match od_get UCM_VERSION_KEY assignments with
  | None => Raise KeyError
  | Some value =>
      v ← release_version value;
      supported ← all_selectors products assignments;
      if forallb (λ p : product * list selector, bool_decide (p.2 = [])) supported then Raise ValueError
      else
        parsed ← Version_of v;
        digest ← authority_digest (base_version parsed) supported;
        Ok (mkConfig v (base_version parsed) supported digest)
  end.

(** ** Printing *)

Fixpoint product_lines (ps : list product) (supported : list (product * list selector)) :
    outcome (list str) :=
  match ps with
  | [] => Ok []
  | p :: rest =>
      match od_get p supported with
      | None => Raise ValueError
      | Some selectors =>
          lines ← product_lines rest supported;
          if bool_decide (selectors = []) then Ok lines
          else Ok ((SUPPORTED_VERSION_KEYS p ++ [61] ++ join 44 (raw <$> selectors)) :: lines)
      end
  end.

(** [ucm_version or str(config["ucm_version"])]: no version and the empty one are alike. *)
Definition render (config : version_config) (override : str) : outcome str :=
  resolved_version ← release_version (if bool_decide (override = []) then ucm_version config else override);
  lines ← product_lines products (supported_runtimes config);
  if bool_decide (lines = []) then Raise ValueError
  else Ok (join 10 ((UCM_VERSION_KEY ++ [61] ++ resolved_version) :: lines) ++ [10]).

(** The text of [materialize_bytes]. *)
Definition materialize_text (text v : str) : outcome str :=
  config ← parse text; render config v.

(** ** Release tags *)

(** [str(n)] and [f"{n:03d}"] of a number that is not negative. *)
Definition dec (n : Z) : str := lit (pretty (Z.to_N n)).
Definition dec3 (n : Z) : str := replicate (3 - length (dec n)) 48 ++ dec n.
Definition dec2 (n : Z) : str := replicate (2 - length (dec n)) 48 ++ dec n.

(** The text after a prefix. *)
Definition after (prefix s : str) : option str :=
  if startswith prefix s then Some (drop (length prefix) s) else None.

(** [[0-9]+\.[0-9]+\.[0-9]+] at the start of a text, and the rest. *)
Definition digit_triple (s : str) : option (str * str) :=
  let '(a, r1) := span_digits s in
  r1 ← after [46] r1;
  let '(b, r2) := span_digits r1 in
  r2 ← after [46] r2;
  let '(c, r3) := span_digits r2 in
  if bool_decide (a = []) || bool_decide (b = []) || bool_decide (c = []) then None
  else Some (a ++ [46] ++ b ++ [46] ++ c, r3).

Definition derive_chart_version (v : str) : outcome str :=
  v ← release_version v;
  parsed ← Version_of v;
  match v_local parsed, v_dev parsed with
  | Some local, _ => Ok (base_version parsed ++ lit "-draft." ++ removeprefix (lit "draft.") local)
  | None, Some dev =>
      if bool_decide (is_Some (v_pre parsed)) || bool_decide (is_Some (v_post parsed)) then Raise ValueError
      else Ok (base_version parsed ++ lit "-draft." ++ dec dev)
  | None, None =>
      (* [([0-9]+\.[0-9]+\.[0-9]+)(rc([0-9]+))?] *)
      match digit_triple v with
      | None => Raise ValueError
      | Some (triple, []) => Ok v
      | Some (triple, rest) =>
          match after (lit "rc") rest with
          | Some n =>
              if bool_decide (n = []) || negb (forallb is_digit n) then Raise ValueError
              else Ok (triple ++ lit "-rc." ++ n)
          | None => Raise ValueError
          end
      end
  end.

(** [0|[1-9][0-9]*] at the start of a text whose next character is no digit. *)
Definition number_part (s : str) : option (str * str) :=
  let '(d, r) := span_digits s in
  if bool_decide (d = []) || leading_zero d then None else Some (d, r).

(** [VERSION_TRIPLE_PATTERN]: the text matched, and the rest. *)
Definition version_triple (s : str) : option (str * str) :=
  '(a, r1) ← number_part s;
  r1 ← after [46] r1;
  '(b, r2) ← number_part r1;
  r2 ← after [46] r2;
  '(c, r3) ← number_part r2;
  Some (a ++ [46] ++ b ++ [46] ++ c, r3).

(** [DRAFT_TAG.fullmatch(tag)]: the groups [base] and [suffix]. *)
Definition draft_tag (t : str) : option (str * option str) :=
  r ← after (lit "draft/v") t;
  '(base, rest) ← version_triple r;
  match rest with
  | [] => Some (base, None)
  | _ => suffix ← after [45] rest; if hyphenated suffix then Some (base, Some suffix) else None
  end.

(** [NIGHTLY_TAG.fullmatch(tag)]: [base], [date] and [number]. *)
Definition nightly_tag (t : str) : option (str * str * str) :=
  r ← after (lit "nightly/v") t;
  '(base, rest) ← version_triple r;
  r1 ← after [45] rest;
  let date := take 8 r1 in
  r2 ← after [45] (drop 8 r1);
  if (zlen date =? 8) && forallb is_digit date && negb (bool_decide (r2 = []))
     && forallb is_digit r2 && negb (startswith (lit "0") r2)
  then Some (base, date, r2) else None.

(** [FORMAL_TAG.fullmatch(tag)]: [version]. *)
Definition formal_tag (t : str) : option str :=
  r ← after (lit "v") t;
  '(base, rest) ← version_triple r;
  match rest with
  | [] => Some base
  | _ =>
      n ← after (lit "rc") rest;
      '(d, rest') ← number_part n;
      if bool_decide (rest' = []) then Some (base ++ lit "rc" ++ d) else None
  end.

Definition stable_tag (t : str) : bool :=
  match after (lit "v") t with
  | Some r => match version_triple r with Some (_, []) => true | _ => false end
  | None => false
  end.

Definition canonical_version (value : str) : outcome str :=
  match parse_version value with
  | None => Raise ValueError
  | Some parsed => if bool_decide (value = v_str parsed) then Ok (v_str parsed) else Raise ValueError
  end.

(** What [strftime("%Y")] prints; whether years before 1000 are padded depends on
    the platform. *)
Variable year_text : Z → str.

Definition days_in_month (y m : Z) : Z :=
  if m =? 2 then if (y mod 4 =? 0) && (negb (y mod 100 =? 0) || (y mod 400 =? 0)) then 29 else 28
  else if (m =? 4) || (m =? 6) || (m =? 9) || (m =? 11) then 30 else 31.

(** A text that [strptime] reads and [strftime] prints unchanged has eight digits. *)
Definition _validate_nightly_date (value : str) : outcome str :=
  let y := digits_value (take 4 value) in
  let m := digits_value (take 2 (drop 4 value)) in
  let d := digits_value (drop 6 value) in
  if (zlen value =? 8) && forallb is_digit value && (1 <=? y) && (1 <=? m) && (m <=? 12)
     && (1 <=? d) && (d <=? days_in_month y m)
     && bool_decide (year_text y ++ dec2 m ++ dec2 d = value)
  then Ok value else Raise ValueError.

Definition version_from_tag (t : str) : outcome str :=
  match draft_tag t with
  | Some (base, None) => release_version (base ++ lit ".dev0")
  | Some (base, Some suffix) =>
      if forallb is_digit suffix && negb (startswith (lit "0") suffix)
      then release_version (base ++ lit ".dev" ++ suffix)
      else
        label ← _draft_label suffix;
        release_version (base ++ lit ".dev0+draft." ++ replace 45 46 label)
  | None =>
      match nightly_tag t with
      | Some (base, date, number) =>
          release_date ← _validate_nightly_date date;
          canonical_version (base ++ lit ".dev" ++ release_date ++ dec3 (digits_value number))
      | None =>
          match formal_tag t with
          | Some v => canonical_version v
          | None => Raise ValueError
          end
      end
  end.

Inductive release_type := draft | nightly | prerelease | stable.
Inductive release_kind := kind_draft | kind_publish.

#[export] Instance release_type_eq_dec : EqDecision release_type.
Proof. solve_decision. Defined.

Record classification := mkClass {
  git_tag : str;
  c_release_type : release_type;
  c_release_kind : release_kind;
  c_version : str;
  chart_version : str;
  image_version : str;
  c_is_prerelease : bool;
}.

(** [oci_tag_version] of runtime.py *)
Definition oci_tag_version (v : str) : str := replace 43 46 v.

Definition classify_tag (t : str) : outcome classification :=
  v ← version_from_tag t;
  match draft_tag t with
  | Some _ =>
      chart ← derive_chart_version v;
      Ok (mkClass t draft kind_draft v chart (oci_tag_version v) true)
  | None =>
      match nightly_tag t with
      | Some (base, date, number) =>
          release_date ← _validate_nightly_date date;
          Ok (mkClass t nightly kind_publish v
                (base ++ lit "-nightly." ++ release_date ++ [46] ++ dec (digits_value number)) v true)
      | None =>
          parsed ← Version_of v;
          chart ← (match v_pre parsed with
                   | None => Ok (base_version parsed)
                   | Some (label, number) =>
                       if negb (bool_decide (label = lit "rc")) then Raise ValueError
                       else Ok (base_version parsed ++ lit "-rc." ++ dec number)
                   end);
          Ok (mkClass t (if is_prerelease parsed then prerelease else stable) kind_publish v chart v
                (is_prerelease parsed))
      end
  end.

(** [git_tag] is [None] when it is not a string. *)
Definition validate_custom_draft_identity (v : str) (git_tag' : option str) (rtype : option release_type) :
    outcome (option classification) :=
  expected_tag ← custom_draft_tag v;
  coordinates ← (match git_tag' with
                 | Some t => if startswith (lit "draft/") t then c ← classify_tag t; Ok (Some c) else Ok None
                 | None => Ok None
                 end);
  ordinary ← (match expected_tag, coordinates with
              | Some _, _ => Ok false
              | None, None => Ok true
              | None, Some c =>
                  other ← custom_draft_tag (c_version c); Ok (bool_decide ((other : option str) = None))
              end);
  if ordinary : bool then Ok None
  else
    match coordinates with
    | None => Raise ValueError
    | Some c =>
        if negb (bool_decide (git_tag' = expected_tag)) || negb (bool_decide (c_version c = v))
           || negb (bool_decide (Some (c_release_type c) = rtype))
        then Raise ValueError else Ok (Some c)
    end.

(** The sequence numbers that were used. *)
Definition sequences (tags : list str) (base date : str) : list Z :=
  omap (λ t, '(b, d, n) ← nightly_tag t;
    if bool_decide (b = base) && bool_decide (d = date) then Some (digits_value n) else None) tags.

Definition next_nightly_sequence (tags : list str) (base date : str) : outcome Z :=
  if negb (stable_tag (lit "v" ++ base)) then Raise ValueError
  else
    _ ← _validate_nightly_date date;
    Ok (foldr Z.max 0 (sequences tags base date) + 1).

Definition nightly_text (base date : str) (sequence : Z) : str :=
  lit "nightly/v" ++ base ++ [45] ++ date ++ [45] ++ dec sequence.

Definition next_nightly_classification (tags : list str) (base date : str) : outcome classification :=
  sequence ← next_nightly_sequence tags base date;
  classify_tag (nightly_text base date sequence).
End authority.
