(* ===== verification/VersionFacts.v ===== *)
(** * The version authority: round trip and release tags

    Correctness of VersionConfig.v: printing a parsed configuration and parsing it
    again gives the same configuration, and the next nightly tag is a new one. *)

From Stdlib Require Import ZArith Lia Ascii String.
From stdpp Require Import base list gmap numbers pretty.
From S2P Require Import Prelude.
From S2P Require Import VersionConfig.
Local Open Scope Z_scope.

(** ** Text *)

Definition no_break (s : str) : Prop := Forall (λ c, is_linebreak c = false) s.

(** [s] has no white space at its ends. *)
Definition trimmed (s : str) : Prop := strip s = s.

Lemma lstrip_head s : match lstrip s with [] => True | c :: _ => is_space c = false end.
Proof. induction s as [|c s IH]; simpl; [done|]. by destruct (is_space c) eqn:E. Qed.

Lemma lstrip_id s : match s with [] => True | c :: _ => is_space c = false end → lstrip s = s.
Proof. destruct s as [|c s]; simpl; [done|]. by intros ->. Qed.

Lemma lstrip_Forall (P : Z → Prop) s : Forall P s → Forall P (lstrip s).
Proof. induction 1; simpl; [done|]. case_match; [done|by constructor]. Qed.

Lemma strip_Forall (P : Z → Prop) s : Forall P s → Forall P (strip s).
Proof. intros. unfold strip. by apply Forall_reverse, lstrip_Forall, Forall_reverse, lstrip_Forall. Qed.

Lemma trimmed_last s : trimmed s → match reverse s with [] => True | c :: _ => is_space c = false end.
Proof.
  unfold trimmed, strip. intros E. pose proof (lstrip_head (reverse (lstrip s))) as Hh.
  by rewrite <- (reverse_involutive (lstrip _)), E in Hh.
Qed.

(** A text that starts and ends with other characters is trimmed. *)
Lemma strip_ends c s t :
  is_space c = false → t ≠ [] → trimmed t → trimmed (c :: s ++ t).
Proof.
  intros Hc Ht Htrim. unfold trimmed, strip. rewrite (lstrip_id (c :: s ++ t)) by done.
  rewrite lstrip_id, reverse_involutive; [done|].
  rewrite reverse_cons, reverse_app. apply trimmed_last in Htrim.
  destruct (reverse t) eqn:Er; [|done]. destruct Ht. by rewrite <- (reverse_involutive t), Er.
Qed.

Lemma trimmed_chars s : Forall (λ c, is_space c = false) s → trimmed s.
Proof.
  intros Hs. unfold trimmed, strip. rewrite (lstrip_id s) by (by destruct Hs).
  rewrite lstrip_id, reverse_involutive; [done|]. apply Forall_reverse in Hs. by destruct Hs.
Qed.

Lemma splitlines_from_line line l rest :
  no_break l → splitlines_from line (l ++ 10 :: rest) = (line ++ l) :: splitlines_from [] rest.
Proof.
  intros Hl. revert line. induction Hl as [|c l Hc _ IH]; intros line; cbn [app splitlines_from].
  - rewrite app_nil_r. destruct rest; done.
  - rewrite Hc, IH. by rewrite <- app_assoc.
Qed.

Lemma splitlines_join lines :
  Forall no_break lines → lines ≠ [] → splitlines (join 10 lines ++ [10]) = lines.
Proof.
  unfold splitlines. induction 1 as [|l lines Hl _ IH]; [done|]. intros _.
  destruct lines as [|l' lines].
  - cbn [join]. by rewrite splitlines_from_line.
  - cbn [join] in *. rewrite <- app_assoc. cbn [app]. rewrite splitlines_from_line by done. by rewrite IH.
Qed.

Lemma splitlines_no_break s : Forall no_break (splitlines s).
Proof.
  unfold splitlines. assert (no_break []) as Hnil by constructor. revert Hnil. generalize (@nil Z) as line.
  remember (length s) as n eqn:En. revert s En.
  induction (lt_wf n) as [n _ IH]. intros s -> line Hline. destruct s as [|c s]; cbn [splitlines_from].
  { case_bool_decide; repeat constructor; done. }
  destruct (is_linebreak c) eqn:Ec.
  - destruct s as [|d s]; [by repeat constructor|].
    case_match; (constructor; [done|]); eapply IH; [|done|constructor| |done|constructor]; simpl; lia.
  - eapply IH; [|done|]; [simpl; lia|]. apply Forall_app. split; [done|by constructor].
Qed.

Lemma partition_key sep k v : sep ∉ k → partition sep (k ++ sep :: v) = Some (k, v).
Proof.
  induction k as [|c k IH]; simpl; [by rewrite Z.eqb_refl|].
  rewrite not_elem_of_cons. intros [Hne Hk]. rewrite (proj2 (Z.eqb_neq c sep)) by congruence.
  by rewrite IH.
Qed.

Lemma partition_Forall (P : Z → Prop) sep s k v :
  partition sep s = Some (k, v) → Forall P s → Forall P v.
Proof.
  revert k v. induction s as [|c s IH]; intros k v; simpl; [done|]. intros E [Hc Hs]%Forall_cons. revert E.
  destruct (c =? sep); [by intros [= <- <-]|].
  destruct (partition sep s) as [[k' v']|] eqn:Ep; simpl; [|done]. intros [= <- <-]. by eapply IH.
Qed.

Lemma split_nonempty sep s : split sep s ≠ [].
Proof. destruct s as [|c s]; simpl; [done|]. destruct (c =? sep); [done|]. by destruct (split sep s). Qed.

Lemma join_split sep s : join sep (split sep s) = s.
Proof.
  induction s as [|c s IH]; simpl; [done|]. pose proof (split_nonempty sep s) as Hne.
  destruct (Z.eqb_spec c sep) as [->|Hc].
  - destruct (split sep s) as [|p ps] eqn:Es; [done|]. rewrite <- IH. done.
  - destruct (split sep s) as [|p ps] eqn:Es; [done|]. rewrite <- IH. by destruct ps.
Qed.

(** ** What an accepted document assigns *)

Definition good_value (v : str) : Prop := trimmed v ∧ no_break v.

Lemma assignment_good line values values' :
  no_break line → assignment line values = Ok values' →
  Forall (λ p, good_value p.2) values → Forall (λ p, good_value p.2) values'.
Proof.
  unfold assignment. intros Hline. destruct (bool_decide _ || _); [by intros [= <-]|].
  destruct (partition 61 (strip line)) as [[k v]|] eqn:Ep; [|done].
  destruct (bool_decide (k = []) || _ || negb (bool_decide (strip v = v))) eqn:Eb; [done|].
  do 3 (case_match; [done|]). intros [= <-] Hv.
  apply orb_false_iff in Eb as [_ Et%negb_false_iff%bool_decide_eq_true_1].
  assert (good_value v) as Hgood.
  { split; [done|]. eapply partition_Forall; [exact Ep|]. by apply strip_Forall. }
  clear -Hv Hgood. induction Hv as [|[k' v'] l Hk Hl IH]; simpl; [by apply Forall_singleton|].
  case_decide; by constructor.
Qed.

Lemma assignments_good lines values a :
  Forall no_break lines → assignments_from lines values = Ok a →
  Forall (λ p, good_value p.2) values → Forall (λ p, good_value p.2) a.
Proof.
  intros Hl. revert values. induction Hl as [|line lines Hline _ IH]; intros values; simpl.
  - case_bool_decide; [by intros [= <-]|done].
  - destruct (assignment line values) as [values'|] eqn:E; simpl; [|done].
    intros Ea Hv. eapply IH; [exact Ea|]. by eapply assignment_good.
Qed.

Lemma assignments_value text a k v :
  _assignments text = Ok a → od_get k a = Some v → good_value v.
Proof.
  intros Ea Hv%od_get_Some_elem. unfold _assignments in Ea.
  assert (Forall (λ p : str * str, good_value p.2) a) as Ha.
  { eapply assignments_good; [apply splitlines_no_break|exact Ea|constructor]. }
  rewrite Forall_forall in Ha. by apply (Ha _ Hv).
Qed.

(** ** Lines of a printed document *)

Definition line_of (p : str * str) : str := p.1 ++ [61] ++ p.2.

Definition key_ok (k : str) : Prop := k ∈ VERSION_KEYS.

Lemma keys_ok k : key_ok k →
  ∃ r, k = (85 :: r) ∧ (61 ∉ k) ∧ no_break k ∧ trimmed k.
Proof.
  intros Hk. unfold key_ok, VERSION_KEYS in Hk. simpl in Hk.
  repeat (apply elem_of_cons in Hk as [->|Hk];
    [eexists; split; [reflexivity|]; split_and!; [by apply (bool_decide_unpack _); vm_compute|
      by apply (bool_decide_unpack _); vm_compute|by vm_compute]|]).
  by apply elem_of_nil in Hk.
Qed.

Lemma assignment_line k v values :
  key_ok k → v ≠ [] → trimmed v → k ∉ values.*1 →
  assignment (line_of (k, v)) values = Ok (values ++ [(k, v)]).
Proof.
  intros Hk Hne Hv Hfresh. destruct (keys_ok k Hk) as (r & Ek & Heq & _ & Htk).
  assert (strip (line_of (k, v)) = line_of (k, v)) as Hstrip.
  { unfold line_of. cbn [fst snd]. rewrite Ek. cbn [app].
    replace (85 :: r ++ 61 :: v) with (85 :: (r ++ [61]) ++ v) by (by rewrite <- app_assoc).
    by apply strip_ends. }
  unfold assignment. rewrite Hstrip. rewrite bool_decide_eq_false_2 by (unfold line_of; by rewrite Ek).
  assert (startswith (lit "#") (line_of (k, v)) = false) as -> by (unfold line_of; by rewrite Ek).
  cbn [orb]. unfold line_of at 1. cbn [fst snd app]. rewrite partition_key by done.
  rewrite (bool_decide_eq_false_2 (k = [])) by (by rewrite Ek).
  rewrite (bool_decide_eq_true_2 (strip k = k)), (bool_decide_eq_true_2 (strip v = v)) by done.
  rewrite (bool_decide_eq_true_2 (k ∈ VERSION_KEYS)) by done. cbn [orb negb].
  rewrite (bool_decide_eq_false_2 (is_Some _)).
  2: { apply od_get_None in Hfresh. rewrite Hfresh. by intros []. }
  rewrite (bool_decide_eq_false_2 (v = [])), andb_false_r by done. by rewrite od_set_fresh.
Qed.

Lemma assignments_lines pairs values :
  Forall (λ p, key_ok p.1 ∧ p.2 ≠ [] ∧ trimmed p.2) pairs → NoDup (values ++ pairs).*1 →
  is_Some (od_get UCM_VERSION_KEY (values ++ pairs)) →
  assignments_from (line_of <$> pairs) values = Ok (values ++ pairs).
Proof.
  intros Hp. revert values. induction Hp as [|[k v] pairs (Hk & Hne & Hv) _ IH]; intros values Hnd Hver; csimpl.
  - rewrite app_nil_r in *. by rewrite bool_decide_eq_true_2.
  - cbn [fst snd] in *. assert (k ∉ values.*1) as Hfresh.
    { rewrite fmap_app in Hnd. csimpl in Hnd. apply list.NoDup_app in Hnd as (_ & Hd & _).
      intros Hin. destruct (Hd k Hin). left. }
    rewrite (assignment_line k v values Hk Hne Hv Hfresh). cbn [mbind outcome_bind].
    rewrite (cons_middle (k, v)), (assoc_L (++)) in Hnd, Hver. rewrite IH by done.
    by rewrite <- app_assoc.
Qed.

(** ** Selectors *)

Section roundtrip.
Context `{PackagingSpec}.
Variable sha256_hex : str → str.

Lemma selectors_from_raw tokens result ranges tags out :
  selectors_from tokens result ranges tags = Ok out → raw <$> out = (raw <$> result) ++ tokens.
Proof.
  revert result ranges tags. induction tokens as [|t tokens IH]; intros result ranges tags; cbn [selectors_from].
  { intros [= <-]. by rewrite app_nil_r. }
  destruct (bool_decide (t = []) || _); [done|]. destruct (startswith (lit "@") t).
  - destruct (negb (oci_tag _)); [done|]. case_bool_decide; [done|].
    intros E%IH. by rewrite E, fmap_app, <- app_assoc.
  - case_bool_decide; [done|]. destruct (runtime_selector_version t) as [v|]; simpl; [|done].
    destruct (Version_of v) as [p|]; simpl; [|done]. destruct (existsb _ ranges); [done|].
    intros E%IH. by rewrite E, fmap_app, <- app_assoc.
Qed.

(** The selectors print as the value they were read from. *)
Lemma selectors_value value sels : _selectors value = Ok sels → join 44 (raw <$> sels) = value.
Proof.
  unfold _selectors. case_bool_decide as Hv; [by intros [= <-]|].
  intros E%selectors_from_raw. simpl in E. rewrite E. apply join_split.
Qed.

Lemma selectors_nil value : _selectors value = Ok [] → value = [].
Proof. intros E%selectors_value. done. Qed.

Lemma release_version_Ok v v' :
  release_version v = Ok v' → v' = v ∧ v ≠ [] ∧ Forall (λ c, version_char c = true) v.
Proof.
  unfold release_version. case_bool_decide as Hne; [done|].
  destruct (parse_version v) as [p|] eqn:Ep; [|done].
  case_bool_decide as Es; cbn [negb]; [|done].
  assert (Forall (λ c, version_char c = true) v) as Hc by (rewrite <- Es; by eapply normalized_chars).
  do 2 (destruct (negb _); [done|]).
  destruct (v_local p); [|by intros [= <-]].
  destruct (_ || _); [done|]. destruct (_draft_label _); simpl; [|done]. by intros [= <-].
Qed.

Lemma version_char_plain c : version_char c = true → is_space c = false ∧ is_linebreak c = false.
Proof.
  unfold version_char, is_digit, is_lower, is_space, is_linebreak, between. intros Hc.
  rewrite !orb_true_iff, !andb_true_iff, !Z.leb_le, !Z.eqb_eq in Hc.
  rewrite !orb_false_iff, !andb_false_iff, !Z.leb_gt, !Z.eqb_neq. lia.
Qed.

Lemma version_good v : Forall (λ c, version_char c = true) v → good_value v.
Proof.
  intros Hv. split; [apply trimmed_chars|]; (eapply Forall_impl; [exact Hv|]; intros c; apply version_char_plain).
Qed.

(** ** The round trip *)

(** The assignments of a printed document: products without selectors are left out. *)
Definition printed (v : str) (value : product → str) : list (str * str) :=
  (UCM_VERSION_KEY, v) :: filter (λ x, x.2 ≠ []) ((λ p, (SUPPORTED_VERSION_KEYS p, value p)) <$> products).

Lemma od_get_nonempty (k : str) (l : list (str * str)) :
  NoDup l.*1 → default [] (od_get k (filter (λ x, x.2 ≠ []) l)) = default [] (od_get k l).
Proof.
  induction l as [|[k' v] l IH]; csimpl; [done|]. intros [Hk Hl]%list.NoDup_cons.
  rewrite filter_cons. cbn [snd]. case_decide as Hv; simpl; case_decide as E; auto. subst k'.
  subst v. rewrite IH by done. apply od_get_None in Hk. by rewrite Hk.
Qed.

Lemma all_keys (v : str) (value : product → str) :
  NoDup ((UCM_VERSION_KEY, v) :: ((λ p, (SUPPORTED_VERSION_KEYS p, value p)) <$> products)).*1.
Proof. apply (bool_decide_unpack _). vm_compute. exact I. Qed.

Lemma printed_keys v value : NoDup (printed v value).*1.
Proof.
  pose proof (all_keys v value) as Hk. rewrite fmap_cons in Hk. apply list.NoDup_cons in Hk as [Hv Hk].
  unfold printed. rewrite fmap_cons. constructor; [|by apply NoDup_keys_filter].
  contradict Hv. apply list_elem_of_fmap in Hv as (x & -> & [_ Hx]%list_elem_of_filter).
  by apply list_elem_of_fmap_2.
Qed.

Lemma printed_value v value p : default [] (od_get (SUPPORTED_VERSION_KEYS p) (printed v value)) = value p.
Proof.
  pose proof (all_keys v value) as Hk. rewrite fmap_cons in Hk. apply list.NoDup_cons in Hk as [_ Hk].
  unfold printed. cbn [od_get]. rewrite decide_False by (by destruct p).
  rewrite od_get_nonempty by done. by destruct p.
Qed.

Lemma printed_version v value : od_get UCM_VERSION_KEY (printed v value) = Some v.
Proof. unfold printed. cbn [od_get]. by rewrite decide_True. Qed.

Lemma all_selectors_ext ps a a' :
  (∀ p, default [] (od_get (SUPPORTED_VERSION_KEYS p) a) = default [] (od_get (SUPPORTED_VERSION_KEYS p) a')) →
  all_selectors ps a = all_selectors ps a'.
Proof. intros E. induction ps as [|p ps IH]; simpl; [done|]. by rewrite E, IH. Qed.

Lemma all_selectors_Ok a supported :
  all_selectors products a = Ok supported →
  ∀ p, ∃ l, od_get p supported = Some l ∧
    join 44 (raw <$> l) = default [] (od_get (SUPPORTED_VERSION_KEYS p) a) ∧
    (l = [] ↔ default [] (od_get (SUPPORTED_VERSION_KEYS p) a) = []).
Proof.
  assert (∀ value l, _selectors value = Ok l → join 44 (raw <$> l) = value ∧ (l = [] ↔ value = [])) as Hs.
  { intros value l E. split; [by apply selectors_value|]. split; intros ->.
    - by apply selectors_nil.
    - by injection E. }
  unfold products. cbn [all_selectors]. unfold mbind, outcome_bind. intros E.
  destruct (_selectors (default [] (od_get (SUPPORTED_VERSION_KEYS vllm) a))) as [l1|] eqn:E1; [|done].
  destruct (_selectors (default [] (od_get (SUPPORTED_VERSION_KEYS vllm_ascend) a))) as [l2|] eqn:E2; [|done].
  destruct (_selectors (default [] (od_get (SUPPORTED_VERSION_KEYS sglang) a))) as [l3|] eqn:E3; [|done].
  injection E as <-. intros []; eexists; (split; [reflexivity|]); by apply Hs.
Qed.

Lemma all_selectors_keys ps a supported : all_selectors ps a = Ok supported → supported.*1 = ps.
Proof.
  revert supported. induction ps as [|p ps IH]; intros supported; cbn [all_selectors]; [by intros [= <-]|].
  destruct (_selectors _) as [l|]; simpl; [|done].
  destruct (all_selectors ps a) as [ls|]; simpl; [|done]. intros [= <-]. csimpl. by rewrite IH.
Qed.

Lemma product_lines_printed supported (value : product → str) :
  (∀ p, ∃ l, od_get p supported = Some l ∧ join 44 (raw <$> l) = value p ∧ (l = [] ↔ value p = [])) →
  ∀ ps, product_lines ps supported
    = Ok (line_of <$> filter (λ x, x.2 ≠ []) ((λ p, (SUPPORTED_VERSION_KEYS p, value p)) <$> ps)).
Proof.
  intros Hs ps. induction ps as [|p ps IH]; cbn [product_lines]; [done|].
  destruct (Hs p) as (l & -> & Ej & Hl). rewrite IH. cbn [mbind outcome_bind]. csimpl. rewrite filter_cons. cbn [snd].
  case_bool_decide as E; case_decide as E'; try tauto. by rewrite Ej.
Qed.

(** A version and the products' values, printed, read back as they are. *)
Lemma parse_printed v value supported base digest :
  release_version v = Ok v → (∀ p, good_value (value p)) →
  (∀ a, (∀ p, default [] (od_get (SUPPORTED_VERSION_KEYS p) a) = value p) →
     all_selectors products a = Ok supported) →
  (∃ p l, (p, l) ∈ supported ∧ l ≠ []) →
  (∃ parsed, parse_version v = Some parsed ∧ base_version parsed = base) →
  authority_digest sha256_hex base supported = Ok digest →
  parse sha256_hex (join 10 (line_of <$> printed v value) ++ [10]) = Ok (mkConfig v base supported digest).
Proof.
  intros Hv Hval Hsel Hsup (parsed & Ep & Eb) Ed.
  destruct (release_version_Ok v v Hv) as (_ & Hvne & Hvc). pose proof (version_good v Hvc) as [Htv Hbv].
  assert (Forall (λ x, key_ok x.1 ∧ x.2 ≠ [] ∧ good_value x.2) (printed v value)) as Hpairs.
  { constructor; [split; [left|split; [done|by split]]|]. apply Forall_forall. intros x [Hx Hin]%list_elem_of_filter.
    apply list_elem_of_fmap in Hin as (p & -> & Hp). split; [|split; [done|apply Hval]].
    right. by apply (list_elem_of_fmap_2 SUPPORTED_VERSION_KEYS). }
  unfold parse, _assignments. rewrite splitlines_join; [|apply Forall_fmap; eapply Forall_impl; [exact Hpairs|]|discriminate].
  - assert (Forall (λ x, key_ok x.1 ∧ x.2 ≠ [] ∧ trimmed x.2) (printed v value)) as Hp.
    { eapply Forall_impl; [exact Hpairs|]. intros x (? & ? & ? & _). auto. }
    assert (is_Some (od_get UCM_VERSION_KEY ([] ++ printed v value))) as Hver
      by (rewrite app_nil_l, printed_version; by eexists).
    rewrite (assignments_lines _ [] Hp (printed_keys v value) Hver).
    rewrite app_nil_l. cbn [mbind outcome_bind]. rewrite printed_version, Hv. cbn [mbind outcome_bind].
    rewrite (Hsel (printed v value) (printed_value v value)). cbn [mbind outcome_bind].
    assert (forallb (λ p : product * list selector, bool_decide (p.2 = [])) supported = false) as ->.
    { destruct Hsup as (p & l & Hin & Hl). apply not_true_iff_false. intros Hall%Is_true_true%forallb_True.
      rewrite Forall_forall in Hall. specialize (Hall _ Hin). by apply bool_decide_unpack in Hall. }
    unfold Version_of. rewrite Ep. cbn [mbind outcome_bind]. rewrite Eb, Ed. done.
  - intros [k w] (Hk & _ & _ & Hw). destruct (keys_ok k Hk) as (_ & _ & _ & Hb & _).
    unfold line_of. cbn [fst snd] in *. apply Forall_app. split; [done|]. by constructor.
Qed.

Lemma parse_Ok text c :
  parse sha256_hex text = Ok c →
  ∃ a parsed, _assignments text = Ok a ∧ release_version (ucm_version c) = Ok (ucm_version c) ∧
    all_selectors products a = Ok (supported_runtimes c) ∧
    (∃ p l, (p, l) ∈ supported_runtimes c ∧ l ≠ []) ∧
    parse_version (ucm_version c) = Some parsed ∧ base_version parsed = ucm_base_version c ∧
    authority_digest sha256_hex (ucm_base_version c) (supported_runtimes c) = Ok (authority_sha256 c).
Proof.
  unfold parse, Version_of, mbind, outcome_bind. destruct (_assignments text) as [a|] eqn:Ea; [|done].
  destruct (od_get UCM_VERSION_KEY a) as [v|]; [|done].
  destruct (release_version v) as [v'|] eqn:Ev; [|done].
  destruct (release_version_Ok _ _ Ev) as (-> & _).
  destruct (all_selectors products a) as [sup|] eqn:Es; [|done].
  destruct (forallb _ sup) eqn:Ef; [done|].
  destruct (parse_version v) as [parsed|] eqn:Ep; [|done].
  destruct (authority_digest _ _ sup) as [dig|] eqn:Ed; [|done].
  intros [= <-]. exists a, parsed. split_and!; try done.
  clear -Ef. induction sup as [|[p l] sup IH]; simpl in *; [done|].
  destruct l as [|x l]; [|by exists p, (x :: l); split; [left|]].
  simpl in Ef. destruct (IH Ef) as (p' & l' & Hin & Hl). exists p', l'. split; [by right|done].
Qed.

(** The version a document is printed with. *)
Definition resolved (c : version_config) (override : str) : str :=
  if bool_decide (override = []) then ucm_version c else override.

Lemma render_printed c value override :
  release_version (resolved c override) = Ok (resolved c override) →
  (∀ p, ∃ l, od_get p (supported_runtimes c) = Some l ∧ join 44 (raw <$> l) = value p ∧ (l = [] ↔ value p = [])) →
  (∃ p, value p ≠ []) →
  render c override = Ok (join 10 (line_of <$> printed (resolved c override) value) ++ [10]).
Proof.
  intros Hv Hs [p Hp]. unfold render. fold (resolved c override). rewrite Hv. cbn [mbind outcome_bind].
  rewrite (product_lines_printed _ value Hs). cbn [mbind outcome_bind]. rewrite bool_decide_eq_false_2; [done|].
  intros E%fmap_nil_inv. assert ((SUPPORTED_VERSION_KEYS p, value p) ∈ @nil (str * str)) as Hin.
  { rewrite <- E. apply list_elem_of_filter. split; [done|].
    apply (list_elem_of_fmap_2 (λ p, (SUPPORTED_VERSION_KEYS p, value p))). unfold products. destruct p; set_solver. }
  by apply elem_of_nil in Hin.
Qed.

(** Only the base version may keep the digest from being computed. *)
Definition encodable (s : str) : Prop := Forall (λ c, between 55296 57343 c = false) s.

Lemma encodable_existsb s : existsb (between 55296 57343) s = false ↔ encodable s.
Proof.
  unfold encodable. induction s as [|c s IH]; simpl; [by split; [constructor|]|].
  rewrite orb_false_iff, IH, Forall_cons. done.
Qed.

Lemma version_encodable v : Forall (λ c, version_char c = true) v → encodable (json_string v).
Proof.
  intros Hv. unfold encodable, json_string. rewrite !Forall_app. split_and!; try by repeat constructor.
  induction Hv as [|c v Hc _ IH]; [constructor|]. rewrite bind_cons. apply Forall_app. split; [|done].
  unfold version_char, is_digit, is_lower, between in Hc.
  rewrite !orb_true_iff, !andb_true_iff, !Z.leb_le, !Z.eqb_eq in Hc.
  unfold json_char. rewrite !(proj2 (Z.eqb_neq c _)) by lia. rewrite (proj2 (Z.ltb_ge c 32)) by lia.
  constructor; [|constructor]. unfold between. rewrite andb_false_iff, !Z.leb_gt. lia.
Qed.

Lemma authority_json_base supported :
  ∃ A, ∀ base, authority_json base supported = A ++ json_string base ++ [125].
Proof.
  unfold authority_json. set (m1 := json_member "supported_runtimes" _). clearbody m1.
  exists ([123] ++ m1 ++ [44] ++ json_string (lit "ucm_base_version") ++ [58]). intros base.
  unfold json_object, json_member. cbn [join]. by rewrite <- !(assoc_L (++)).
Qed.

Lemma digest_other_base base base' supported d :
  Forall (λ c, version_char c = true) base' → authority_digest sha256_hex base supported = Ok d →
  ∃ d', authority_digest sha256_hex base' supported = Ok d'.
Proof.
  intros Hb. unfold authority_digest. destruct (existsb _ (authority_json base supported)) eqn:E; [done|].
  intros _. apply encodable_existsb in E.
  destruct (authority_json_base supported) as [A EA]. rewrite EA in E.
  assert (encodable (authority_json base' supported)) as E'.
  { rewrite EA. unfold encodable in *. apply Forall_app in E as [HA [_ Hz]%Forall_app].
    rewrite !Forall_app. split_and!; [done|by apply version_encodable|done]. }
  apply encodable_existsb in E'. rewrite E'. by eexists.
Qed.

(** C40 Printing is inverse to parsing.  A configuration that was read from any
    accepted document (with comments, blank lines and other line ends) can be printed;
    the printed document is accepted, reads back as the same configuration and prints
    as itself.  Printed with another valid version, as [materialize_version] does, it
    reads back with that version and the same runtimes. *)
Theorem parse_render text c override :
  parse sha256_hex text = Ok c →
  release_version (resolved c override) = Ok (resolved c override) →
  ∃ t c', render c override = Ok t ∧ parse sha256_hex t = Ok c' ∧ render c' [] = Ok t ∧
    ucm_version c' = resolved c override ∧ supported_runtimes c' = supported_runtimes c ∧ (override = [] → c' = c).
Proof.
  intros (a & parsed & Ea & Hv0 & Es & Hsup & Ep0 & Eb0 & Ed0)%parse_Ok. set (v := resolved c override). intros Hv.
  set (value p := default [] (od_get (SUPPORTED_VERSION_KEYS p) a)).
  pose proof (all_selectors_Ok a _ Es) as Hs.
  assert (∀ p, good_value (value p)) as Hval.
  { intros p. unfold value. destruct (od_get _ a) eqn:E; [by eapply assignments_value|]. split; [done|constructor]. }
  assert (∃ p, value p ≠ []) as Hne.
  { destruct Hsup as (p & l & Hin & Hl). destruct (Hs p) as (l' & Hl' & _ & Hnil). exists p. intros Hz.
    apply Hnil in Hz. subst l'. apply od_get_elem in Hin; [congruence|].
    rewrite (all_selectors_keys _ _ _ Es). apply (bool_decide_unpack _). vm_compute. exact I. }
  assert (∀ a', (∀ p, default [] (od_get (SUPPORTED_VERSION_KEYS p) a') = value p) →
    all_selectors products a' = Ok (supported_runtimes c)) as Hsel.
  { intros a' Ha'. rewrite <- Es. by apply all_selectors_ext. }
  destruct (parse_version v) as [pv|] eqn:Epv; [|unfold release_version in Hv; rewrite Epv in Hv; by case_bool_decide].
  destruct (digest_other_base _ (base_version pv) _ _ (base_chars _ _ Epv) Ed0) as [d Ed].
  set (c' := mkConfig v (base_version pv) (supported_runtimes c) d).
  exists (join 10 (line_of <$> printed v value) ++ [10]), c'. split_and!.
  - by apply render_printed.
  - apply (parse_printed v value); try done. by exists pv.
  - by apply (render_printed c' value []).
  - done.
  - done.
  - intros ->. subst c' v. unfold resolved in *. cbn [bool_decide] in *. rewrite bool_decide_eq_true_2 in * by done.
    rewrite Ep0 in Epv. injection Epv as <-. rewrite Eb0, Ed0 in *. injection Ed as <-. by destruct c.
Qed.
End roundtrip.

(** ** Nightly tags *)

Lemma span_digits_app s c t :
  is_digit c = false →
  span_digits (s ++ c :: t) = ((span_digits s).1, (span_digits s).2 ++ c :: t).
Proof.
  intros Hc. induction s as [|x s IH]; simpl; [by rewrite Hc|].
  destruct (is_digit x); [|done]. rewrite IH. by destruct (span_digits s).
Qed.

Lemma number_part_app s d r c t :
  is_digit c = false → number_part s = Some (d, r) → number_part (s ++ c :: t) = Some (d, r ++ c :: t).
Proof.
  intros Hc. unfold number_part. rewrite span_digits_app by done. destruct (span_digits s) as [d' r'].
  cbn [fst snd]. destruct (_ || _); [done|]. by intros [= -> ->].
Qed.

Lemma after_app prefix s r t : after prefix s = Some r → after prefix (s ++ t) = Some (r ++ t).
Proof.
  unfold after. revert s. induction prefix as [|p prefix IH]; intros s; simpl; [by intros [= <-]|].
  destruct s as [|c s]; simpl; [done|]. destruct (p =? c); simpl; [apply IH|done].
Qed.

Lemma after_prefix prefix s : after prefix (prefix ++ s) = Some s.
Proof.
  unfold after. induction prefix as [|p prefix IH]; simpl; [done|]. by rewrite Z.eqb_refl.
Qed.

Lemma after_char c s : after [c] (c :: s) = Some s.
Proof. apply (after_prefix [c]). Qed.

Lemma version_triple_app s b r c t :
  is_digit c = false → version_triple s = Some (b, r) → version_triple (s ++ c :: t) = Some (b, r ++ c :: t).
Proof.
  intros Hc. unfold version_triple. intros E.
  destruct (number_part s) as [[d1 r1]|] eqn:E1; simpl in E; [|done].
  rewrite (number_part_app _ _ _ c t Hc E1). simpl.
  destruct (after [46] r1) as [r1'|] eqn:A1; simpl in E; [|done]. rewrite (after_app _ _ _ (c :: t) A1). simpl.
  destruct (number_part r1') as [[d2 r2]|] eqn:E2; simpl in E; [|done].
  rewrite (number_part_app _ _ _ c t Hc E2). simpl.
  destruct (after [46] r2) as [r2'|] eqn:A2; simpl in E; [|done]. rewrite (after_app _ _ _ (c :: t) A2). simpl.
  destruct (number_part r2') as [[d3 r3]|] eqn:E3; simpl in E; [|done].
  rewrite (number_part_app _ _ _ c t Hc E3). simpl. by injection E as <- <-.
Qed.

(** A pattern that matched a whole text matched that text. *)
Lemma span_digits_split s : s = (span_digits s).1 ++ (span_digits s).2.
Proof.
  induction s as [|c s IH]; simpl; [done|]. destruct (is_digit c); [|done].
  destruct (span_digits s); simpl in *. by f_equal.
Qed.

Lemma number_part_split s d r : number_part s = Some (d, r) → s = d ++ r.
Proof.
  unfold number_part. pose proof (span_digits_split s) as Hs. destruct (span_digits s). simpl in Hs.
  destruct (_ || _); [done|]. by intros [= <- <-].
Qed.

Lemma after_split prefix s r : after prefix s = Some r → s = prefix ++ r.
Proof.
  unfold after. revert s. induction prefix as [|p prefix IH]; intros s; simpl; [by intros [= <-]|].
  destruct s as [|c s]; simpl; [done|]. destruct (Z.eqb_spec p c) as [->|]; simpl; [|done].
  intros E%IH. by f_equal.
Qed.

Lemma version_triple_split s b r : version_triple s = Some (b, r) → s = b ++ r.
Proof.
  unfold version_triple. intros E.
  destruct (number_part s) as [[d1 r1]|] eqn:E1; simpl in E; [|done].
  destruct (after [46] r1) as [r1'|] eqn:A1; simpl in E; [|done].
  destruct (number_part r1') as [[d2 r2]|] eqn:E2; simpl in E; [|done].
  destruct (after [46] r2) as [r2'|] eqn:A2; simpl in E; [|done].
  destruct (number_part r2') as [[d3 r3]|] eqn:E3; simpl in E; [|done]. injection E as <- <-.
  apply number_part_split in E1, E2, E3. apply after_split in A1, A2. subst.
  by repeat (simpl; rewrite <- app_assoc).
Qed.

(** Numbers and their decimal text. *)
Lemma digit_char y : (y < 10)%N → Z.of_nat (nat_of_ascii (pretty_N_char y)) = 48 + Z.of_N y.
Proof.
  intros Hy. assert (y = 0 ∨ y = 1 ∨ y = 2 ∨ y = 3 ∨ y = 4 ∨ y = 5 ∨ y = 6 ∨ y = 7 ∨ y = 8 ∨ y = 9)%N as Hc by lia.
  by destruct_or! Hc; subst y.
Qed.

Lemma lit_cons a s : lit (String a s) = Z.of_nat (nat_of_ascii a) :: lit s.
Proof. done. Qed.

Definition value_step (n c : Z) : Z := 10 * n + (c - 48).

(** The digits of [x], printed before [s]. *)
Lemma pretty_go_spec x s :
  foldl value_step 0 (lit (pretty_N_go x s)) = foldl value_step (Z.of_N x) (lit s) ∧
  (forallb is_digit (lit s) = true → forallb is_digit (lit (pretty_N_go x s)) = true) ∧
  ((0 < x)%N → ∃ c r, lit (pretty_N_go x s) = (c :: r) ∧ c ≠ 48).
Proof.
  revert s. induction (N.lt_wf_0 x) as [x _ IH]; intros s.
  destruct (decide (0 < x)%N) as [Hx|Hx].
  2: { replace x with 0%N by lia. rewrite pretty_N_go_0. split_and!; [done|done|lia]. }
  rewrite pretty_N_go_step by done.
  assert (x `mod` 10 < 10)%N as Hm by (apply N.mod_lt; lia). pose proof (digit_char _ Hm) as Hd.
  assert (Z.of_N x = 10 * Z.of_N (x / 10) + Z.of_N (x mod 10)) as Hx10.
  { rewrite N2Z.inj_div, N2Z.inj_mod. apply Z.div_mod. lia. }
  destruct (IH (x / 10)%N ltac:(apply N.div_lt; lia) (String (pretty_N_char (x mod 10)) s)) as (Ev & Hdig & Hh).
  rewrite lit_cons in *. rewrite Ev. split_and!.
  - simpl. f_equal. unfold value_step. lia.
  - intros Hs. apply Hdig. cbn [forallb]. rewrite Hs, andb_true_r, Hd. unfold is_digit, between.
    apply andb_true_iff. rewrite !Z.leb_le. clear -Hm. revert Hm. generalize (x mod 10)%N. lia.
  - intros _. destruct (decide (0 < x / 10)%N) as [Hq|Hq]; [by apply Hh|].
    assert (x / 10 = 0)%N as E0 by (revert Hq; generalize (x / 10)%N; lia). rewrite E0 in *.
    rewrite pretty_N_go_0, lit_cons. eexists _, _. split; [done|].
    rewrite Hd. revert Hx10. generalize (x mod 10)%N. simpl. lia.
Qed.

Lemma dec_spec n :
  0 < n → digits_value (dec n) = n ∧ forallb is_digit (dec n) = true ∧ (∃ c r, dec n = (c :: r) ∧ c ≠ 48).
Proof.
  intros Hn. unfold dec, pretty, pretty_N. rewrite decide_False by lia.
  destruct (pretty_go_spec (Z.to_N n) EmptyString) as (Ev & Hd & Hh).
  split_and!; [|by apply Hd|apply Hh; lia]. unfold digits_value. unfold value_step in Ev. rewrite Ev. simpl. lia.
Qed.

Lemma nightly_tag_text base date n :
  stable_tag (lit "v" ++ base) = true → zlen date = 8 → forallb is_digit date = true → 0 < n →
  nightly_tag (nightly_text base date n) = Some (base, date, dec n).
Proof.
  intros Hst Hlen Hdate Hn. destruct (dec_spec n Hn) as (_ & Hd & c & r & Ec & Hc).
  unfold stable_tag in Hst. rewrite after_prefix in Hst.
  destruct (version_triple base) as [[b [|]]|] eqn:Eb; [|done|done].
  pose proof (version_triple_split _ _ _ Eb) as Hb. rewrite app_nil_r in Hb. subst b.
  unfold nightly_tag, nightly_text. rewrite after_prefix. cbn [mbind option_bind app].
  rewrite (version_triple_app base base [] 45 (date ++ 45 :: dec n)) by done. cbn [mbind option_bind app].
  rewrite after_char. cbn [mbind option_bind].
  assert (length date = 8%nat) as Hl by (unfold zlen in Hlen; lia).
  rewrite take_app_length', drop_app_length' by done.
  rewrite after_char. cbn [mbind option_bind].
  rewrite Hlen, Hdate, Hd. rewrite (bool_decide_eq_false_2 (dec n = [])) by (by rewrite Ec).
  assert (startswith (lit "0") (dec n) = false) as ->; [|done].
  rewrite Ec. change (lit "0") with [48]. cbn [startswith]. by rewrite (proj2 (Z.eqb_neq 48 c)).
Qed.

(** [n] is greater than every number used. *)
Definition newer (n : Z) (used : list Z) : Prop := Forall (λ m, m < n) used.

Section nightly.
Variable year_text : Z → str.

(** The next nightly tag is new: it is none of the known tags, it is a nightly tag
    of the requested base version and date, and its number is greater than that of
    every known one.  So a nightly never takes over an existing tag. *)
Theorem next_nightly_fresh tags base date n :
  next_nightly_sequence year_text tags base date = Ok n →
  nightly_text base date n ∉ tags ∧
  nightly_tag (nightly_text base date n) = Some (base, date, dec n) ∧ digits_value (dec n) = n ∧
  newer n (sequences tags base date).
Proof.
  unfold next_nightly_sequence. destruct (stable_tag (lit "v" ++ base)) eqn:Est; cbn [negb]; [|done].
  destruct (_validate_nightly_date year_text date) as [d|] eqn:Ed; simpl; [|done]. intros [= <-].
  set (ns := sequences tags base date). set (n := foldr Z.max 0 ns + 1).
  assert (0 ≤ foldr Z.max 0 ns ∧ Forall (λ m, m < n) ns) as [Hpos Hmax].
  { subst n. clear. induction ns as [|x ns [IH1 IH2]]; simpl; [by split|].
    split; [lia|]. constructor; [lia|]. eapply Forall_impl; [exact IH2|]. simpl. intros. lia. }
  unfold _validate_nightly_date in Ed. destruct (zlen date =? 8) eqn:El; [|done].
  destruct (forallb is_digit date) eqn:Edig; [|done]. apply Z.eqb_eq in El.
  assert (nightly_tag (nightly_text base date n) = Some (base, date, dec n)) as Htag
    by (apply nightly_tag_text; [done|done|done|lia]).
  destruct (dec_spec n ltac:(lia)) as (Hv & _). split_and!; [|done|done|done].
  intros Hin. rewrite Forall_forall in Hmax.
  assert (n ∈ ns) as Hn; [|specialize (Hmax n Hn); lia].
  unfold ns, sequences. apply list_elem_of_omap. exists (nightly_text base date n). split; [done|].
  rewrite Htag. simpl. rewrite !bool_decide_eq_true_2 by done. simpl. by rewrite Hv.
Qed.
End nightly.

(** ** Examples *)

(** Versions that are only a release segment. *)
Definition canonical_number (p : str) : bool :=
  negb (bool_decide (p = [])) && forallb is_digit p && negb (leading_zero p).

Definition ref_parse (s : str) : option str :=
  if forallb canonical_number (split 46 s) then Some s else None.

Definition RefVersion : PackagingVersion := {|
  Version := str;
  parse_version := ref_parse;
  v_str p := p;
  v_epoch _ := 0;
  v_release p := digits_value <$> split 46 p;
  v_pre _ := None;
  v_post _ := None;
  v_dev _ := None;
  v_local _ := None;
  base_version p := p;
  is_prerelease _ := false;
|}.

Lemma ref_parse_chars s p : ref_parse s = Some p → p = s ∧ Forall (λ c, version_char c = true) s.
Proof.
  unfold ref_parse. destruct (forallb canonical_number (split 46 s)) eqn:E; [|done]. intros [= <-]. split; [done|].
  rewrite <- (join_split 46 s). apply Is_true_true, forallb_True in E.
  assert (Forall (λ p, Forall (λ c, version_char c = true) p) (split 46 s)) as Hp.
  { eapply Forall_impl; [exact E|]. intros p Hp. unfold canonical_number in Hp.
    apply andb_True in Hp as [[_ Hd]%andb_True _]. apply forallb_True in Hd.
    eapply Forall_impl; [exact Hd|]. intros c Hc. unfold version_char. apply Is_true_true in Hc. by rewrite Hc. }
  clear E. induction Hp as [|x l Hx Hl IH]; [constructor|]. destruct l as [|y l]; [done|].
  cbn [join] in *. apply Forall_app. split; [done|]. by constructor.
Qed.

Lemma RefVersion_spec : @PackagingSpec RefVersion.
Proof. split; intros s p E; by destruct (ref_parse_chars s p E) as [-> Hs]. Qed.

(** A document with a comment, a blank line, an empty product and a carriage return. *)
Definition ex_document : str :=
  lit "# release" ++ [10; 10] ++ lit "UCM_VERSION=0.9.0" ++ [13; 10]
  ++ lit "  UCM_SUPPORTED_VLLM_VERSIONS=0.27.1,0.30,@nightly " ++ [10] ++ lit "UCM_SUPPORTED_SGLANG_VERSIONS=" ++ [10].

Definition ex_config : version_config :=
  mkConfig (lit "0.9.0") (lit "0.9.0")
    [(vllm, [mkSelector (lit "0.27.1") (Some (lit "0.27.1")) None; mkSelector (lit "0.30") (Some (lit "0.30")) None;
             mkSelector (lit "@nightly") None (Some (lit "nightly"))]);
     (vllm_ascend, []); (sglang, [])] (lit "sha256:").

Lemma parse_render_witness :
  ∃ t, @render RefVersion ex_config [] = Ok t ∧ @parse RefVersion (λ _, []) t = Ok ex_config.
Proof.
  destruct (@parse_render RefVersion RefVersion_spec (λ _, []) ex_document ex_config [])
    as (t & c' & Er & Ep & _ & _ & _ & Ec).
  - vm_compute. reflexivity.
  - vm_compute. reflexivity.
  - exists t. split; [exact Er|]. rewrite Ep, (Ec eq_refl). reflexivity.
Defined.
